(* ===== verification/_CoqProject ===== *)
-Q . S2P
Prelude.v
PyText.v
PyBytes.v
PyTime.v
Json.v
AgentLedger.v
XrayConfig.v
HysteriaConfig.v
IpAddress.v
WgConfig.v
WgDriver.v
XrayDriver.v
XrayContract.v
XrayServing.v
Usage.v
ApiStore.v
AuditChain.v
AccessToken.v
OpaqueToken.v
RedisState.v
AbuseControl.v
AdminSessions.v
XrayCredential.v
Mfa.v
Access.v
AuthStore.v
AdminAuth.v
AdminFactors.v
UserAuth.v
UserAdmin.v
AccessAdmin.v
SessionLedger.v
UserSessions.v
UserAdminLife.v
DeviceLife.v
SessionScenario.v
UserAdminScenario.v
AdminScenario.v
Accounts.v
AccountLife.v
AccountScenario.v
MailWorker.v
MailLife.v
MailScenario.v
Provisioning.v
AccessLife.v
Reconciliation.v
System.v
