(* ===== verification/Prelude.v ===== *)
(** * Nebula VPN: a verification development

    Nebula is a VPN control plane ([src/services/api], Python package
    [nebula_api]) with one agent per VPN server ([src/services/vpn-agent],
    package [nebula_agent]).  The control plane keeps users, devices, servers
    and the credentials devices hold in PostgreSQL; an agent keeps the set of
    WireGuard peers and Xray clients its server accepts.  A client asks the
    control plane for a connection; the control plane records the intention in
    one transaction, calls the agent over mutual TLS, and records the outcome in
    a second one.  Whatever that leaves undecided (a lost answer, a failed
    removal, an account that lapsed meanwhile) is settled by periodic passes:
    reconciliation asks agents what they have and repairs the difference, the
    expiry and quota sweeps mark credentials for removal.

    ** The files, and what each one models

    Python and its library:
    - [Prelude]: calls as programs over a state that return or raise;
      dictionaries in insertion order; shared tactics and hints.
    - [PyText], [PyBytes], [PyTime], [Json], [IpAddress]: the parts of [str],
      [bytes], [uuid], [base64], [datetime], [json] and [ipaddress] the code
      uses, with the round trips the parsers rely on.

    The agent:
    - [AgentLedger]: [nebula_agent/ledger.py] (Module Ledger: the
      idempotency file) and [nebula_agent/api/_dispatch.py] (Module Dispatch).
    - [XrayConfig], [HysteriaConfig]: [drivers/xray_config_store.py],
      [drivers/egress.py] and [drivers/hysteria_config_store.py]: the recorded
      clients, the configuration of every inbound, the files.
    - [WgConfig]: [drivers/config_store.py] and the validators of
      [drivers/base.py]: the desired peer set, its text, its files.
    - [WgDriver]: [drivers/wireguard.py], the WireGuard half of
      [drivers/fake.py], and the contract of [drivers/base.py] as the class
      [Wg.DriverContract], of which both drivers are instances.
    - [XrayDriver]: [drivers/xray.py], every operation, live updates of the
      running process and the watch over removed clients included.
      [XrayContract]: [drivers/xray_base.py] as a class, and that the native
      driver and the double of [drivers/fake.py] are instances.
      [XrayServing]: what the driver's answers mean for the files and the
      running processes.

    The control plane:
    - [Usage]: [nebula_api/usage/service.py] and [usage/counters.py]: running
      totals from counters that restart, and keeping them across changes.
    - [ApiStore]: the tables of [nebula_api/models/] in use here, their unique
      indexes, transactions, and the invariant [Db.db_wf].
    - [AuditChain]: [nebula_api/audit/chain.py].
    - [AccessToken], [OpaqueToken]: [auth/access_tokens.py],
      [auth/opaque_tokens.py], [auth/device_identity.py].
    - [RedisState]: [auth/redis_state.py], the Lua scripts and the methods
      around them.  [AbuseControl] and [AdminSessions]: what rate limits,
      lockouts, challenges and administrator sessions guarantee.
    - [XrayCredential]: [provisioning/xray_credentials.py].
    - [Access]: [provisioning/revocation.py], [access/expiry.py],
      [usage/enforcement.py] and the grant of [usage/quota.py].
    - [AuthStore]: [identity.py], [passwords.py], [auth/session_revocation.py],
      [account_erasure.py], transactions that also call Redis, and a small
      logic for them (Module TxLogic).
    - [Mfa]: [auth/mfa.py].  [AdminAuth]: [auth/admin_service.py], the whole
      service.  [AdminFactors]: what sign-in and the second factors guarantee.
      [AdminScenario]: one administrator followed through the service.
    - [UserAuth]: [auth/user_service.py], the whole service.  [SessionLedger]:
      an abstract machine of sessions and refresh tokens.  [UserSessions]: the
      service refines it, and what follows.  [SessionScenario]: one account
      followed through the service.
    - [UserAdmin]: [user_management/service.py] (Module UserManagement) and
      [account/service.py] (Module OwnAccount).  [UserAdminLife] and
      [DeviceLife]: the same ledger with administrators at work, and what
      disabling, revoking and renaming guarantee.  [UserAdminScenario]: each of
      them done to one account.
    - [AccessAdmin]: [access/service.py] (Module AccessService) and
      [grant_user_server_access] of [topology_seed.py] (Module AccessSeed): which
      profiles and servers an account may use.  [AccessLife]: the two readers of
      these grants agree, and what is taken back is gone.
    - [Accounts]: [accounts/service.py] and [accounts/email_outbox.py].
      [AccountLife]: what the review of account requests guarantees.
      [AccountScenario]: one request followed through it.
    - [MailWorker]: the worker of [services/worker]: [outbox.py],
      [templates.py], [adapters/], [poller.py] and the loop of [main.py].
      [MailLife]: what a staged message can count on, with workers that are
      killed.  [MailScenario]: a message followed from the control plane to its
      reader.
    - [Provisioning]: [provisioning/allocator.py] (Module Allocator)
      and [provisioning/service.py]: each request's two transactions and the
      call between them, over the interface [AgentClient].
    - [Reconciliation]: [provisioning/reconciliation.py].
    - [System]: [agent_client/client.py] (Module AgentCall), and the
      control plane composed with agents over a network that may lose a request
      or its answer (Module System).

    A function keeps its Python name.  Python state is explicit: a database is
    [Db.DB], an agent's host its files and its processes, and a request acts on
    the pair of a database and the world beyond it.  Exceptions are values; a
    transaction that raises leaves the database as it was, everything else
    leaves what it did.  Identifiers and instants are integers; [uuid4] draws
    the next unused one; random bytes and salts are arguments; the clock reads
    the same throughout one request of the authentication services.

    ** What the theorems show

    - Together (C1, C2): for every way an exchange can fail, what the client is
      told, what the database says and what the agent has recorded agree, or the
      row is in a state reconciliation examines.  The record is the file the
      agent works from; C33 says when the interface agrees with it.
    - Reconciliation (C4 to C6): a pass always returns, only narrows access,
      completes the removals its batch reaches when the agent does its part, and
      decides each row by one table.
    - Sessions (C3, C7 to C16): the user service and user administration refine
      the session ledger; a spent refresh token ends its session, an ended
      session never comes back, a revoked device and a disabled account are out
      (their live peers and clients are revoking), a refresh and a renaming
      change nothing else, a principal is genuine, a reset signs out, a deletion
      leaves nothing of the account but an inert row and its revoked devices.
    - Account requests (C17, C18): each is decided once, each link works once.
    - Mail (C19, C20): a message is handed over at most so many times, and
      settles when the worker polls for long enough, however small its batch;
      [staged_payload_is_read] and [letters_are_genuine] say what is
      handed over.
    - The audit chain (C21, C22): its head fixes the history, unless the two
      chains compared have a collision at the same place.
    - Abuse controls and administrator sessions (C23 to C26): the rate limit is
      a bound, the lockout a machine of three numbers, sessions are never
      extended, challenges never used twice.
    - Administrators (C27 to C31): signing in takes both factors, of the same
      administrator, and a challenge that is outstanding, a one-time or
      recovery code works once, second factors only advance, a password change
      ends earlier sessions.
    - Provisioning (C32): what a request may commit.
    - The agent (C33 to C38): applying a peer or client set is all or nothing,
      the answers of both Xray drivers can be relied on, removed clients are
      watched and Xray is told to restart when one of them still has traffic,
      configurations read back, an answered request is not run again.
    - Accounting and access (C39, C40): totals never exceed what was served, and
      the expiry sweep takes away exactly what it should.

    Executions in which the code does something other than it means to are
    lemmas beside the component, named in the findings of the manifest.

    ** Bounds and fuel

    The allocator's search is given one step more than there are excluded
    addresses, which is enough because each failed step uses up an excluded
    address ([allocator_first_free]).  The JSON reader's fuel is the length of
    its input ([loads_dumps]).  Waiting for the Xray process has the fuel 32,
    more than its polls within the deadline; the watch over removed clients is
    given a number of turns and has ended when thirty-three of them could read
    the counters ([removed_clients_are_cut_off]).  The worker's loop runs over
    the readings of its clock.  The retry
    loop of [_after_change] is structural in its bound of attempts.  Every other
    recursion is structural.

    ** Parameters

    The [wg] binary ([Wg.WgTool], with [Wg.WgToolOk] for what the driver relies
    on, and the instance [Wg.interface]); the [xray] binary, [systemctl] and the
    host's network ([XrayTool], with [XrayToolOk] for what the driver relies on:
    what a restart that succeeded serves, that queries change nothing, that the
    clock does not go back, and the same for Hysteria2's process and its unit;
    the instance is [XrayServing.process]); AES-GCM ([XrayCredential.AEAD]); SHA-256, HMAC,
    HMAC-SHA-1, the [jwt] and [webauthn] packages, Argon2 and [email_validator]
    (classes with what the code relies on, each with an example instance); the
    mail transports ([HttpPost], [Smtp]) and the interface [EmailAdapter] the
    worker uses them by; the agent seen from the control plane ([AgentClient],
    [QuietAgent] where it does not itself change the database); the database's
    [lower] and the order it gives texts.

    ** Not modelled

    Strings hold code points below 256.  Advisory locks appear as the
    serialisation of transactions.  Writing a file always succeeds.  A signed
    token is taken to be the encoding of its claims.  Not modelled: HTTP routing,
    settings and command line, TLS and X.509, administration of servers, profiles
    and administrators, pairing, usage collectors, retention, migrations. *)

From stdpp Require Export base list option strings gmap sets pretty.
From Stdlib Require Export ZArith Lia Ascii.

#[global] Open Scope Z_scope.
#[global] Set Default Goal Selector "!".

(** ** Results and the exception-and-state monad

    A Python call either returns or raises; what it did to the world before
    raising stays done.  [prog St E A] is that reading: from a state to a
    result and the state it leaves. *)

Inductive result (E A : Type) : Type :=
| Ok (a : A)
| Err (e : E).
Arguments Ok {E A} a.
Arguments Err {E A} e.

#[global] Instance result_eq_dec {E A} `{EqDecision E, EqDecision A} :
  EqDecision (result E A).
Proof. solve_decision. Defined.

#[global] Instance result_ret {E} : MRet (result E) := fun A a => Ok a.
#[global] Instance result_bind {E} : MBind (result E) := fun A B f m =>
  match m with Ok a => f a | Err e => Err e end.
#[global] Instance result_fmap {E} : FMap (result E) := fun A B f m =>
  match m with Ok a => Ok (f a) | Err e => Err e end.

Definition is_ok {E A} (r : result E A) : bool :=
  match r with Ok _ => true | Err _ => false end.

Definition of_option {E A} (e : E) (o : option A) : result E A :=
  match o with Some a => Ok a | None => Err e end.

Definition prog (St E A : Type) : Type := St -> result E A * St.

#[global] Instance prog_ret {St E} : MRet (prog St E) := fun A a s => (Ok a, s).
#[global] Instance prog_bind {St E} : MBind (prog St E) := fun A B f m s =>
  match m s with
  | (Ok a, s') => f a s'
  | (Err e, s') => (Err e, s')
  end.

Section Prog.
Context {St E : Type}.

Definition get : prog St E St := fun s => (Ok s, s).
Definition put (s : St) : prog St E unit := fun _ => (Ok tt, s).
Definition gets {A} (f : St -> A) : prog St E A := fun s => (Ok (f s), s).
Definition modify (f : St -> St) : prog St E unit := fun s => (Ok tt, f s).
Definition raise {A} (e : E) : prog St E A := fun s => (Err e, s).
Definition lift {A} (r : result E A) : prog St E A := fun s => (r, s).

(** [try: m / except e: h e], where [h e = None] re-raises. *)
Definition try_except {A} (m : prog St E A) (h : E -> option (prog St E A)) :
  prog St E A := fun s =>
  match m s with
  | (Ok a, s') => (Ok a, s')
  | (Err e, s') =>
      match h e with
      | Some k => k s'
      | None => (Err e, s')
      end
  end.

Lemma bind_ok {A B} (m : prog St E A) (f : A -> prog St E B) s a s' :
  m s = (Ok a, s') -> (m ≫= f) s = f a s'.
Proof. intros H. unfold mbind, prog_bind. by rewrite H. Qed.

Lemma bind_err {A B} (m : prog St E A) (f : A -> prog St E B) s e s' :
  m s = (Err e, s') -> (m ≫= f) s = (Err e, s').
Proof. intros H. unfold mbind, prog_bind. by rewrite H. Qed.

Lemma bind_ok_inv {A B} (m : prog St E A) (f : A -> prog St E B) s b s'' :
  (m ≫= f) s = (Ok b, s'') ->
  exists a s', m s = (Ok a, s') /\ f a s' = (Ok b, s'').
Proof.
  unfold mbind, prog_bind. destruct (m s) as [[a|e] s'] eqn:Hm; [eauto|].
  intros. simplify_eq.
Qed.

(** A value read and converted, then used. *)
Lemma bind2_ok {A B C} (m : prog St E A) (f : A -> prog St E B) (g : B -> prog St E C) s b s' :
  (m ≫= f) s = (Ok b, s') -> (m ≫= fun a => f a ≫= g) s = g b s'.
Proof.
  unfold mbind, prog_bind. destruct (m s) as [[a|e] s1]; [|done]. intros Hf. by rewrite Hf.
Qed.

(** What holds of the outcome of a program run from a state. *)
Definition wp {A} (m : prog St E A) (Q : result E A -> St -> Prop) (s : St) : Prop := Q (m s).1 (m s).2.

Lemma wp_elim {A} (m : prog St E A) Q s r s' : wp m Q s -> m s = (r, s') -> Q r s'.
Proof. unfold wp. intros H He. by rewrite He in H. Qed.

Lemma wp_run {A} (m : prog St E A) Q s : wp m Q s -> Q (fst (m s)) (snd (m s)).
Proof. done. Qed.

Lemma wp_mono {A} (m : prog St E A) (P Q : result E A -> St -> Prop) s :
  wp m P s -> (forall r s', P r s' -> Q r s') -> wp m Q s.
Proof. unfold wp. auto. Qed.

Lemma wp_bind {A B} (m : prog St E A) (f : A -> prog St E B) Q s :
  wp m (fun r s' => match r with Ok a => wp (f a) Q s' | Err e => Q (Err e) s' end) s ->
  wp (m ≫= f) Q s.
Proof. unfold wp, mbind, prog_bind. by destruct (m s) as [[a|e] s']. Qed.

Lemma wp_get {B} (f : St -> prog St E B) Q s : wp (f s) Q s -> wp (get ≫= f) Q s.
Proof. done. Qed.

Lemma wp_modify {B} (g : St -> St) (f : unit -> prog St E B) Q s : wp (f tt) Q (g s) -> wp (modify g ≫= f) Q s.
Proof. done. Qed.

Lemma wp_ret {A B} (a : A) (f : A -> prog St E B) Q s : wp (f a) Q s -> wp (mret a ≫= f) Q s.
Proof. done. Qed.

Lemma wp_try {A} (m : prog St E A) h Q s :
  wp m (fun r s' => match r with
                    | Ok a => Q (Ok a) s'
                    | Err e => match h e with Some k => wp k Q s' | None => Q (Err e) s' end
                    end) s ->
  wp (try_except m h) Q s.
Proof. unfold wp, try_except. destruct (m s) as [[a|e] s']; cbn; [done|]. by destruct (h e). Qed.

End Prog.

(** ** Lists *)

Lemma filter_id {A} (P : A -> Prop) `{forall x, Decision (P x)} (l : list A) :
  Forall P l -> filter P l = l.
Proof. induction 1; [done|]. rewrite filter_cons_True by done. by f_equal. Qed.

Lemma Forall_filter_list {A} (P Q : A -> Prop) `{forall x, Decision (Q x)} (l : list A) :
  Forall P l -> Forall P (filter Q l).
Proof.
  rewrite !Forall_forall. intros Hl x Hx. apply list_elem_of_filter in Hx as [_ Hx]. auto.
Qed.

Lemma filter_ext_elem {A} (P Q : A -> Prop) `{forall x, Decision (P x), forall x, Decision (Q x)} (l : list A) :
  (forall x, x ∈ l -> P x <-> Q x) -> filter P l = filter Q l.
Proof.
  induction l as [|x l IH]; intros Hl; [done|]. rewrite !filter_cons, IH.
  - assert (P x <-> Q x) by (apply Hl; by left). by do 2 case_decide; try tauto.
  - intros y Hy. apply Hl. by right.
Qed.

Lemma existsb_ext_elem {A} (p q : A -> bool) (l : list A) :
  (forall x, x ∈ l -> p x = q x) -> existsb p l = existsb q l.
Proof.
  induction l as [|x l IH]; intros Hl; [done|]. cbn. rewrite IH, (Hl x); [done|by left|].
  intros y Hy. apply Hl. by right.
Qed.

Lemma Z_eqb_bool_decide (a b : Z) : (a =? b) = bool_decide (a = b).
Proof. case_bool_decide; [by apply Z.eqb_eq|by apply Z.eqb_neq]. Qed.

(** ** Python dicts

    An insertion-ordered association list without repeated keys: assigning to
    a key that is there keeps its place, a new key goes last. *)

Section Dict.
Context {K V : Type} `{EqDecision K}.
Implicit Types (k : K) (v : V) (d : list (K * V)).

Fixpoint dict_get k d : option V :=
  match d with
  | [] => None
  | (k', v) :: d' => if decide (k' = k) then Some v else dict_get k d'
  end.

Definition dict_set k v d : list (K * V) :=
  if decide (k ∈ d.*1)
  then (fun kv => if decide (kv.1 = k) then (k, v) else kv) <$> d
  else d ++ [(k, v)].

Definition dict_pop k d : list (K * V) := filter (fun kv => kv.1 <> k) d.

(** [dict(pairs)] *)
Definition dict_of d : list (K * V) :=
  foldl (fun acc kv => dict_set kv.1 kv.2 acc) [] d.

Lemma dict_get_app k d1 d2 :
  dict_get k (d1 ++ d2) = match dict_get k d1 with Some v => Some v | None => dict_get k d2 end.
Proof. induction d1 as [|[k' v] d1 IH]; cbn; [done|]. by case_decide. Qed.

Lemma dict_get_None k d : dict_get k d = None <-> k ∉ d.*1.
Proof.
  induction d as [|[k' v] d IH]; cbn; [split; [intros _; apply not_elem_of_nil|done]|].
  rewrite not_elem_of_cons. case_decide; subst; [naive_solver|]. naive_solver.
Qed.

Lemma dict_get_Some_elem k d v : dict_get k d = Some v -> (k, v) ∈ d.
Proof.
  induction d as [|[k' v'] d IH]; cbn; [done|]. case_decide; intros; simplify_eq.
  - by left.
  - right. auto.
Qed.

Lemma dict_get_elem k d v : NoDup d.*1 -> (k, v) ∈ d -> dict_get k d = Some v.
Proof.
  induction d as [|[k' v'] d IH]; cbn; intros Hnd Hin; [by apply not_elem_of_nil in Hin|].
  apply NoDup_cons in Hnd as [Hk Hnd]. apply elem_of_cons in Hin as [|Hin]; simplify_eq.
  - by rewrite decide_True.
  - rewrite decide_False; [auto|]. intros ->. apply Hk. apply list_elem_of_fmap. by exists (k, v).
Qed.

Lemma dict_set_fresh k v d : k ∉ d.*1 -> dict_set k v d = d ++ [(k, v)].
Proof. intros H. unfold dict_set. by rewrite decide_False. Qed.

Lemma dict_set_head k v v' d : k ∉ d.*1 -> dict_set k v ((k, v') :: d) = (k, v) :: d.
Proof.
  intros Hk. unfold dict_set. rewrite decide_True by (by left). rewrite fmap_cons. cbn [fst].
  rewrite decide_True by done. f_equal. induction d as [|[k2 v2] d IH]; [done|]. rewrite fmap_cons in *.
  apply not_elem_of_cons in Hk as [Hne Hk]. cbn in *. rewrite decide_False by congruence. by rewrite IH.
Qed.

Lemma dict_keys_set k v d :
  (dict_set k v d).*1 = if decide (k ∈ d.*1) then d.*1 else d.*1 ++ [k].
Proof.
  unfold dict_set. case_decide as Hk; [|by rewrite fmap_app].
  clear Hk. induction d as [|[k' v'] d IH]; [done|]. rewrite !fmap_cons, IH. f_equal.
  cbn. case_decide; by subst.
Qed.

Lemma dict_get_set_eq k v d : dict_get k (dict_set k v d) = Some v.
Proof.
  unfold dict_set. case_decide as Hk.
  - induction d as [|[k' v'] d IH]; cbn in *; [by apply not_elem_of_nil in Hk|].
    destruct (decide (k' = k)) as [->|Hne]; cbn; [by rewrite decide_True|].
    rewrite decide_False by done. apply IH. apply elem_of_cons in Hk as [|]; congruence.
  - rewrite dict_get_app. apply dict_get_None in Hk. rewrite Hk. cbn. by rewrite decide_True.
Qed.

Lemma dict_get_set_ne k k' v d : k <> k' -> dict_get k' (dict_set k v d) = dict_get k' d.
Proof.
  intros Hne. unfold dict_set. case_decide as Hk.
  - clear Hk. induction d as [|[k1 v1] d IH]; cbn; [done|].
    destruct (decide (k1 = k)) as [->|]; cbn; [|case_decide; by subst].
    by rewrite !(decide_False (P := k = k')).
  - rewrite dict_get_app. cbn. rewrite decide_False by done. by destruct (dict_get k' d).
Qed.

Lemma dict_keys_pop k d : (dict_pop k d).*1 = filter (fun k' => k' <> k) d.*1.
Proof.
  unfold dict_pop. induction d as [|[k' v] d IH]; [done|]. rewrite fmap_cons, !filter_cons.
  cbn. case_decide; [|done]. by rewrite fmap_cons, IH.
Qed.

Lemma dict_get_pop_eq k d : dict_get k (dict_pop k d) = None.
Proof. apply dict_get_None. rewrite dict_keys_pop. intros Hin. by apply list_elem_of_filter in Hin as []. Qed.

Lemma dict_get_pop_ne k k' d : k <> k' -> dict_get k' (dict_pop k d) = dict_get k' d.
Proof.
  intros Hne. unfold dict_pop. induction d as [|[k1 v1] d IH]; [done|]. rewrite filter_cons.
  cbn. case_decide; cbn; [by rewrite IH|]. rewrite decide_False; [done|]. congruence.
Qed.

Lemma dict_of_nodup_acc d acc :
  NoDup (acc.*1 ++ d.*1) ->
  foldl (fun acc kv => dict_set kv.1 kv.2 acc) acc d = acc ++ d.
Proof.
  revert acc. induction d as [|[k v] d IH]; intros acc H; cbn in *; [by rewrite app_nil_r|].
  assert (k ∉ acc.*1).
  { apply NoDup_app in H as (_ & H & _). intros Hin. apply (H k Hin). by left. }
  rewrite dict_set_fresh by done. rewrite IH.
  - by rewrite <- app_assoc.
  - by rewrite fmap_app, <- app_assoc.
Qed.

Lemma dict_of_nodup d : NoDup d.*1 -> dict_of d = d.
Proof. apply (dict_of_nodup_acc d []). Qed.
End Dict.

(** ** Automation *)

Create HintDb nebula.

(** Split the first match or [if] found in the goal or a hypothesis. *)
Ltac split_match :=
  match goal with
  | |- context [match ?x with _ => _ end] => destruct x eqn:?
  | H : context [match ?x with _ => _ end] |- _ => destruct x eqn:?
  end.

Ltac boolP :=
  repeat match goal with
  | H : _ && _ = true |- _ => apply andb_true_iff in H; destruct H
  | H : _ || _ = false |- _ => apply orb_false_iff in H; destruct H
  | H : negb _ = true |- _ => apply negb_true_iff in H
  | H : negb _ = false |- _ => apply negb_false_iff in H
  | H : (_ <? _) = true |- _ => apply Z.ltb_lt in H
  | H : (_ <? _) = false |- _ => apply Z.ltb_ge in H
  | H : (_ <=? _) = true |- _ => apply Z.leb_le in H
  | H : (_ <=? _) = false |- _ => apply Z.leb_gt in H
  | H : (_ =? _) = true |- _ => apply Z.eqb_eq in H
  | H : (_ =? _) = false |- _ => apply Z.eqb_neq in H
  | H : bool_decide _ = true |- _ => apply bool_decide_eq_true in H
  | H : bool_decide _ = false |- _ => apply bool_decide_eq_false in H
  end.
