(* ===== verification/PyText.v ===== *)
(** * Python text

    The part of Python's [str] the modelled code uses: [strip], [splitlines],
    [split] and [partition] on one character, [startswith], [join], decimal and
    hexadecimal formatting, and [int(...)].  A [str] is the list of its code
    points, all below 256 here.  Nothing in this file is specific to Nebula;
    the lemmas at the end are the round trips the parsers rely on. *)

From S2P Require Import Prelude.

Abbreviation text := (list ascii).

(** A string literal as text. *)
Definition str (s : string) : text := String.list_ascii_of_string s.
Definition unstr (t : text) : string := String.string_of_list_ascii t.

Lemma str_unstr t : str (unstr t) = t.
Proof. apply String.list_ascii_of_string_of_list_ascii. Qed.
Lemma unstr_str s : unstr (str s) = s.
Proof. apply String.string_of_list_ascii_of_string. Qed.

Definition code (c : ascii) : Z := Z.of_N (N_of_ascii c).
Definition chr (z : Z) : ascii := ascii_of_N (Z.to_N z).

Definition NL : ascii := "010"%char.
Definition CR : ascii := "013"%char.

(** [str.isspace] on one code point. *)
Definition is_space (c : ascii) : bool :=
  let n := code c in
  ((9 <=? n) && (n <=? 13)) || ((28 <=? n) && (n <=? 32)) || (n =? 133) || (n =? 160).

(** The characters [str.splitlines] breaks at. *)
Definition is_linebreak (c : ascii) : bool :=
  let n := code c in
  ((10 <=? n) && (n <=? 13)) || ((28 <=? n) && (n <=? 30)) || (n =? 133).

Fixpoint lstrip (t : text) : text :=
  match t with
  | [] => []
  | c :: r => if is_space c then lstrip r else t
  end.
Definition rstrip (t : text) : text := reverse (lstrip (reverse t)).
Definition strip (t : text) : text := rstrip (lstrip t).

Fixpoint startswith (p t : text) : bool :=
  match p, t with
  | [], _ => true
  | a :: p', b :: t' => bool_decide (a = b) && startswith p' t'
  | _ :: _, [] => false
  end.

(** [t.split(sep)] for a one-character [sep]. *)
Fixpoint split_on (sep : ascii) (t : text) : list text :=
  match t with
  | [] => [[]]
  | c :: r =>
      if decide (c = sep) then [] :: split_on sep r
      else match split_on sep r with
           | [] => [[c]]
           | l :: ls => (c :: l) :: ls
           end
  end.

(** [t.partition(sep)]: what is before, whether [sep] was there, what is after. *)
Fixpoint partition (sep : ascii) (t : text) : text * bool * text :=
  match t with
  | [] => ([], false, [])
  | c :: r =>
      if decide (c = sep) then ([], true, r)
      else let '(a, found, b) := partition sep r in (c :: a, found, b)
  end.

(** Splitting at every line break, keeping a last empty piece. *)
Fixpoint break_lines (t : text) : list text :=
  match t with
  | [] => [[]]
  | c :: r =>
      if is_linebreak c then
        match r with
        | d :: r' =>
            if bool_decide (c = CR) && bool_decide (d = NL)
            then [] :: break_lines r'
            else [] :: break_lines r
        | [] => [] :: break_lines r
        end
      else match break_lines r with
           | [] => [[c]]
           | l :: ls => (c :: l) :: ls
           end
  end.

Fixpoint drop_last_empty (ls : list text) : list text :=
  match ls with
  | [] => []
  | [l] => match l with [] => [] | _ => [l] end
  | l :: ls' => l :: drop_last_empty ls'
  end.

(** [t.splitlines()] *)
Definition splitlines (t : text) : list text := drop_last_empty (break_lines t).

Fixpoint join (sep : text) (ls : list text) : text :=
  match ls with
  | [] => []
  | [l] => l
  | l :: ls' => l ++ sep ++ join sep ls'
  end.

(** ** Numbers *)

Fixpoint digits_go (fuel : nat) (b n : Z) (acc : list Z) : list Z :=
  match fuel with
  | O => acc
  | S f => if n <? b then n :: acc else digits_go f b (n / b) (n mod b :: acc)
  end.

(** The digits of [n >= 0] in base [b], most significant first; [log2 n + 1]
    divisions by a base of at least two are always enough. *)
Definition digits (b n : Z) : list Z := digits_go (S (Z.to_nat (Z.log2 n))) b n [].

Definition undigits (b : Z) (ds : list Z) : Z := foldl (fun a d => a * b + d) 0 ds.

(** Lower-case digit characters, [0-9a-f]. *)
Definition digit_char (d : Z) : ascii := if d <? 10 then chr (48 + d) else chr (87 + d).

Definition dec_digit (c : ascii) : option Z :=
  let n := code c in if (48 <=? n) && (n <=? 57) then Some (n - 48) else None.

Definition hex_digit (c : ascii) : option Z :=
  let n := code c in
  if (48 <=? n) && (n <=? 57) then Some (n - 48)
  else if (97 <=? n) && (n <=? 102) then Some (n - 87)
  else if (65 <=? n) && (n <=? 70) then Some (n - 55)
  else None.

Definition show_nat (n : Z) : text := digit_char <$> digits 10 n.
Definition show_hex (n : Z) : text := digit_char <$> digits 16 n.
(** [str(n)] of an [int]. *)
Definition show_Z (n : Z) : text :=
  if n <? 0 then "-"%char :: show_nat (- n) else show_nat n.

(** Decimal digits with single underscores between them. *)
Fixpoint uint_go (acc : Z) (after_digit : bool) (t : text) : option Z :=
  match t with
  | [] => if after_digit then Some acc else None
  | c :: r =>
      if decide (c = "_"%char) then
        if after_digit then uint_go acc false r else None
      else match dec_digit c with
           | Some d => uint_go (acc * 10 + d) true r
           | None => None
           end
  end.

(** [int(t)]: surrounding space, an optional sign, digits. *)
Definition py_int (t : text) : option Z :=
  match strip t with
  | c :: r =>
      if decide (c = "-"%char) then Z.opp <$> uint_go 0 false r
      else if decide (c = "+"%char) then uint_go 0 false r
      else uint_go 0 false (c :: r)
  | [] => None
  end.

(** ** Lemmas *)

Lemma str_app s1 s2 : str (s1 +:+ s2) = str s1 ++ str s2.
Proof.
  unfold str. induction s1 as [|c s1 IH]; [done|].
  change (String c s1 +:+ s2) with (String c (s1 +:+ s2)). cbn. by f_equal.
Qed.

Lemma code_chr z : 0 <= z < 256 -> code (chr z) = z.
Proof. intros H. unfold code, chr. rewrite N_ascii_embedding by lia. lia. Qed.

Lemma code_range c : 0 <= code c < 256.
Proof. unfold code. pose proof (N_ascii_bounded c). lia. Qed.

Lemma code_inj c d : code c = code d -> c = d.
Proof.
  unfold code. intros H. rewrite <- (ascii_N_embedding c), <- (ascii_N_embedding d).
  f_equal. lia.
Qed.

Definition no_space (t : text) : Prop := Forall (fun c => is_space c = false) t.
Definition no_break (t : text) : Prop := Forall (fun c => is_linebreak c = false) t.

Lemma no_space_no_break t : no_space t -> no_break t.
Proof.
  intros H. eapply Forall_impl; [exact H|]. intros c Hc.
  unfold is_space, is_linebreak in *. boolP.
  repeat match goal with
  | H : _ && _ = false |- _ => apply andb_false_iff in H; destruct H; boolP
  end; repeat (apply orb_false_iff; split); try apply andb_false_iff; 
  rewrite ?Z.leb_gt, ?Z.eqb_neq; lia.
Qed.

Lemma lstrip_id c t : is_space c = false -> lstrip (c :: t) = c :: t.
Proof. intros H. cbn. by rewrite H. Qed.

Lemma strip_id t : no_space t -> strip t = t.
Proof.
  intros H. unfold strip, rstrip.
  assert (Hl : forall u, no_space u -> lstrip u = u).
  { intros [|c u] Hu; [done|]. apply lstrip_id. by apply Forall_inv in Hu. }
  rewrite (Hl t) by done.
  rewrite Hl by (by apply Forall_reverse). apply reverse_involutive.
Qed.

(** Text that neither starts nor ends with a space is its own [strip]. *)
Lemma strip_ends c t d :
  is_space c = false -> is_space d = false -> strip (c :: t ++ [d]) = c :: t ++ [d].
Proof.
  intros Hc Hd. unfold strip, rstrip. rewrite lstrip_id by done.
  rewrite <- (reverse_involutive (c :: t ++ [d])) at 2. f_equal.
  change (c :: t ++ [d]) with ((c :: t) ++ [d]). rewrite reverse_app.
  by apply lstrip_id.
Qed.

Lemma strip_space_l c t : is_space c = true -> strip (c :: t) = strip t.
Proof. intros H. unfold strip. cbn. by rewrite H. Qed.

Lemma startswith_app p t : startswith p (p ++ t) = true.
Proof. induction p; cbn; [done|]. rewrite bool_decide_eq_true_2 by done. done. Qed.

Lemma startswith_spec p t : startswith p t = true <-> exists r, t = p ++ r.
Proof.
  split.
  - revert t. induction p as [|a p IH]; intros t H; [by exists t|].
    destruct t as [|b t]; cbn in H; [done|]. boolP. subst.
    destruct (IH t) as [r ->]; [done|]. by exists r.
  - intros [r ->]. apply startswith_app.
Qed.

Lemma partition_app sep a b :
  sep ∉ a -> partition sep (a ++ sep :: b) = (a, true, b).
Proof.
  induction a as [|c a IH]; intros H; cbn.
  - by rewrite decide_True.
  - apply not_elem_of_cons in H as [Hc Ha].
    rewrite decide_False by congruence. by rewrite IH.
Qed.

Lemma partition_inv sep t a found b :
  partition sep t = (a, found, b) -> t = if found then a ++ [sep] ++ b else a.
Proof.
  revert a found b. induction t as [|c t IH]; intros a found b; cbn; [by intros [= <- <- <-]|].
  case_decide as Hc; [intros [= <- <- <-]; by subst|].
  destruct (partition sep t) as [[a' f'] b']. intros [= <- <- <-]. rewrite (IH a' f' b' eq_refl). by destruct f'.
Qed.

Lemma partition_none sep a : sep ∉ a -> partition sep a = (a, false, []).
Proof.
  induction a as [|c a IH]; intros H; cbn; [done|].
  apply not_elem_of_cons in H as [Hc Ha].
  rewrite decide_False by congruence. by rewrite IH.
Qed.

Lemma split_on_nonempty sep t : split_on sep t <> [].
Proof.
  destruct t; cbn; [done|]. case_decide; [done|]. by destruct (split_on sep t).
Qed.

Lemma split_on_none sep l : sep ∉ l -> split_on sep l = [l].
Proof.
  induction l as [|c l IH]; intros H; cbn; [done|].
  apply not_elem_of_cons in H as [Hc Hl].
  rewrite decide_False by congruence. by rewrite IH.
Qed.

Lemma split_on_app sep l t :
  sep ∉ l -> split_on sep (l ++ sep :: t) = l :: split_on sep t.
Proof.
  induction l as [|c l IH]; intros H; cbn.
  - by rewrite decide_True.
  - apply not_elem_of_cons in H as [Hc Hl].
    rewrite decide_False by congruence. by rewrite IH.
Qed.

Lemma split_on_join sep ls :
  ls <> [] -> Forall (fun l => sep ∉ l) ls -> split_on sep (join [sep] ls) = ls.
Proof.
  induction ls as [|l ls IH]; intros Hne H; [done|].
  apply Forall_cons in H as [Hl Hls]. destruct ls as [|l' ls].
  - by apply split_on_none.
  - change (join [sep] (l :: l' :: ls)) with (l ++ sep :: join [sep] (l' :: ls)).
    rewrite split_on_app by done. by rewrite IH.
Qed.

Lemma break_lines_none l : no_break l -> break_lines l = [l].
Proof.
  induction l as [|c l IH]; intros H; [done|].
  apply Forall_cons in H as [Hc Hl]. cbn. rewrite Hc. by rewrite IH.
Qed.

Lemma break_lines_app l t :
  no_break l -> break_lines (l ++ NL :: t) = l :: break_lines t.
Proof.
  induction l as [|c l IH]; intros H.
  - cbn. destruct t; [done|]. rewrite bool_decide_eq_false_2 by done. done.
  - apply Forall_cons in H as [Hc Hl].
    change ((c :: l) ++ NL :: t) with (c :: (l ++ NL :: t)).
    cbn [break_lines]. rewrite Hc. by rewrite IH.
Qed.

Lemma break_lines_join ls :
  ls <> [] -> Forall no_break ls -> break_lines (join [NL] ls) = ls.
Proof.
  induction ls as [|l ls IH]; intros Hne H; [done|].
  apply Forall_cons in H as [Hl Hls]. destruct ls as [|l' ls].
  - by apply break_lines_none.
  - change (join [NL] (l :: l' :: ls)) with (l ++ NL :: join [NL] (l' :: ls)).
    rewrite break_lines_app by done. by rewrite IH.
Qed.

Lemma drop_last_empty_app ls : drop_last_empty (ls ++ [[]]) = ls.
Proof. induction ls as [|l [|l' ls] IH]; [done|done|]. cbn in *. by f_equal. Qed.

Lemma drop_last_empty_ne ls l : l <> [] -> drop_last_empty (ls ++ [l]) = ls ++ [l].
Proof.
  intros Hl. induction ls as [|l1 [|l' ls] IH]; cbn in *; [by destruct l|by destruct l|].
  by f_equal.
Qed.

(** Digits. *)

Lemma digits_go_undigits fuel b n acc a :
  2 <= b -> 0 <= n < b ^ Z.of_nat fuel -> a = 0 ->
  foldl (fun a d => a * b + d) a (digits_go fuel b n acc) =
  foldl (fun a d => a * b + d) n acc.
Proof.
  intros Hb. revert n acc a. induction fuel as [|f IH]; intros n acc a Hn ->.
  - cbn in *. assert (n = 0) by lia. by subst.
  - cbn [digits_go]. case_match; boolP.
    + cbn. f_equal.
    + rewrite IH; [|split|done].
      * cbn. f_equal. pose proof (Z.div_mod n b). lia.
      * apply Z.div_pos; lia.
      * apply Z.div_lt_upper_bound; [lia|].
        replace (Z.of_nat (S f)) with (1 + Z.of_nat f) in Hn by lia.
        rewrite Z.pow_add_r, Z.pow_1_r in Hn by lia. lia.
Qed.

Lemma digits_fuel b n : 2 <= b -> 0 <= n -> n < b ^ Z.of_nat (S (Z.to_nat (Z.log2 n))).
Proof.
  intros Hb Hn.
  assert (n < 2 ^ Z.of_nat (S (Z.to_nat (Z.log2 n)))).
  { pose proof (Z.log2_nonneg n).
    replace (Z.of_nat (S (Z.to_nat (Z.log2 n)))) with (Z.succ (Z.log2 n)) by lia.
    destruct (decide (n = 0)) as [->|]; [cbn; lia|]. apply Z.log2_spec. lia. }
  eapply Z.lt_le_trans; [done|]. apply Z.pow_le_mono_l. lia.
Qed.

Lemma undigits_digits b n : 2 <= b -> 0 <= n -> undigits b (digits b n) = n.
Proof.
  intros Hb Hn. unfold undigits, digits.
  rewrite digits_go_undigits; [done|done| |done].
  split; [lia|]. by apply digits_fuel.
Qed.

Lemma digits_go_bound fuel b n acc :
  2 <= b -> 0 <= n -> Forall (fun d => 0 <= d < b) acc ->
  Forall (fun d => 0 <= d < b) (digits_go fuel b n acc).
Proof.
  intros Hb. revert n acc. induction fuel as [|f IH]; intros n acc Hn Hacc; cbn; [done|].
  case_match; boolP.
  - constructor; [lia|done].
  - apply IH; [apply Z.div_pos; lia|]. constructor; [|done].
    apply Z.mod_pos_bound. lia.
Qed.

Lemma digits_bound b n : 2 <= b -> 0 <= n -> Forall (fun d => 0 <= d < b) (digits b n).
Proof. intros. by apply digits_go_bound; [| |constructor]. Qed.

Lemma digits_go_head fuel b n acc :
  2 <= b -> 0 < n < b ^ Z.of_nat fuel ->
  exists d ds, digits_go fuel b n acc = d :: ds /\ 0 < d.
Proof.
  intros Hb. revert n acc. induction fuel as [|f IH]; intros n acc Hn; [cbn in Hn; lia|].
  cbn [digits_go]. case_match; boolP; [eexists _, _; split; [done|lia]|].
  apply IH. split.
  - apply Z.div_str_pos. lia.
  - apply Z.div_lt_upper_bound; [lia|].
    replace (Z.of_nat (S f)) with (1 + Z.of_nat f) in Hn by lia.
    rewrite Z.pow_add_r, Z.pow_1_r in Hn by lia. lia.
Qed.

Lemma digits_0 b : 2 <= b -> digits b 0 = [0].
Proof. intros. unfold digits. cbn. by rewrite (proj2 (Z.ltb_lt 0 b)) by lia. Qed.

(** The first digit is zero only for zero. *)
Lemma digits_head b n :
  2 <= b -> 0 < n -> exists d ds, digits b n = d :: ds /\ 0 < d.
Proof.
  intros Hb Hn. apply digits_go_head; [done|]. split; [done|]. apply digits_fuel; lia.
Qed.

Lemma digits_cons b n : 2 <= b -> 0 <= n -> exists d ds, digits b n = d :: ds.
Proof.
  intros Hb Hn. destruct (decide (n = 0)) as [->|].
  - rewrite digits_0 by done. eauto.
  - destruct (digits_head b n) as (d & ds & -> & _); [done|lia|eauto].
Qed.

Lemma digits_go_length fuel b n acc k :
  2 <= b -> 0 <= n < b ^ Z.of_nat k -> (1 <= k)%nat ->
  (length (digits_go fuel b n acc) <= k + length acc)%nat.
Proof.
  intros Hb. revert n acc k. induction fuel as [|f IH]; intros n acc k Hn Hk; cbn [digits_go].
  - lia.
  - case_match; boolP; [cbn; lia|].
    destruct k as [|[|k]]; [lia|cbn in Hn; lia|].
    etransitivity; [apply (IH _ _ (S k)); [|lia]|cbn; lia].
    split; [apply Z.div_pos; lia|]. apply Z.div_lt_upper_bound; [lia|].
    replace (Z.of_nat (S (S k))) with (1 + Z.of_nat (S k)) in Hn by lia.
    rewrite Z.pow_add_r, Z.pow_1_r in Hn by lia. lia.
Qed.

Lemma digits_length b n k :
  2 <= b -> 0 <= n < b ^ Z.of_nat k -> (1 <= k)%nat -> (length (digits b n) <= k)%nat.
Proof.
  intros. unfold digits. etransitivity; [by apply (digits_go_length _ _ _ _ k)|]. cbn; lia.
Qed.

Lemma digit_char_code d : 0 <= d < 16 ->
  code (digit_char d) = if d <? 10 then 48 + d else 87 + d.
Proof. intros H. unfold digit_char. case_match; boolP; rewrite code_chr; lia. Qed.

Lemma dec_digit_char d : 0 <= d < 10 -> dec_digit (digit_char d) = Some d.
Proof.
  intros H. unfold dec_digit. rewrite digit_char_code by lia.
  rewrite (proj2 (Z.ltb_lt d 10)) by lia.
  rewrite (proj2 (Z.leb_le 48 (48 + d))), (proj2 (Z.leb_le (48 + d) 57)) by lia.
  cbn. f_equal. lia.
Qed.

Lemma hex_digit_char d : 0 <= d < 16 -> hex_digit (digit_char d) = Some d.
Proof.
  intros H. unfold hex_digit. rewrite digit_char_code by lia.
  destruct (Z.ltb_spec d 10).
  - rewrite (proj2 (Z.leb_le 48 (48 + d))), (proj2 (Z.leb_le (48 + d) 57)) by lia.
    cbn. f_equal. lia.
  - rewrite (proj2 (Z.leb_gt (87 + d) 57)), andb_false_r by lia.
    rewrite (proj2 (Z.leb_le 97 (87 + d))), (proj2 (Z.leb_le (87 + d) 102)) by lia.
    cbn. f_equal. lia.
Qed.

(** Every character of a formatted number is an alphanumeric: no separator,
    space or line break of the formats below can occur in it. *)
Definition is_alnum (c : ascii) : bool :=
  let n := code c in
  ((48 <=? n) && (n <=? 57)) || ((97 <=? n) && (n <=? 122)) || ((65 <=? n) && (n <=? 90)).

Lemma digit_char_alnum d : 0 <= d < 16 -> is_alnum (digit_char d) = true.
Proof.
  intros H. unfold is_alnum. rewrite digit_char_code by lia.
  destruct (Z.ltb_spec d 10).
  - rewrite (proj2 (Z.leb_le 48 (48 + d))), (proj2 (Z.leb_le (48 + d) 57)) by lia. done.
  - rewrite (proj2 (Z.leb_le 97 (87 + d))), (proj2 (Z.leb_le (87 + d) 122)) by lia.
    by rewrite orb_true_r.
Qed.

Lemma alnum_not_space c : is_alnum c = true -> is_space c = false.
Proof.
  unfold is_alnum, is_space. intros H.
  repeat (apply orb_true_iff in H as [H|H]); boolP;
  repeat (apply orb_false_iff; split); rewrite ?andb_false_iff, ?Z.leb_gt, ?Z.eqb_neq; lia.
Qed.

Lemma alnum_ne c d : is_alnum c = true -> is_alnum d = false -> c <> d.
Proof. intros ?? ->. congruence. Qed.

Definition alnum (t : text) : Prop := Forall (fun c => is_alnum c = true) t.

Lemma alnum_no_space t : alnum t -> no_space t.
Proof. intros H. eapply Forall_impl; [done|]. apply alnum_not_space. Qed.

Lemma alnum_not_elem t c : alnum t -> is_alnum c = false -> c ∉ t.
Proof.
  intros H Hc Hin. unfold alnum in H. rewrite Forall_forall in H.
  specialize (H _ Hin). cbn in H. congruence.
Qed.

Lemma show_alnum b n : 2 <= b <= 16 -> 0 <= n -> alnum (digit_char <$> digits b n).
Proof.
  intros Hb Hn. apply Forall_fmap. eapply Forall_impl; [apply (digits_bound b n); lia|].
  intros d Hd. cbn in *. apply digit_char_alnum. lia.
Qed.

Lemma uint_go_digits ds acc after :
  Forall (fun d => 0 <= d < 10) ds ->
  uint_go acc after (digit_char <$> ds) =
  if after || negb (bool_decide (ds = [])) then Some (foldl (fun a d => a * 10 + d) acc ds)
  else None.
Proof.
  revert acc after. induction ds as [|d ds IH]; intros acc after H; cbn.
  - by destruct after.
  - apply Forall_cons in H as [Hd Hds]. cbn in Hd.
    rewrite decide_False by (apply alnum_ne; [apply digit_char_alnum; lia|done]).
    rewrite dec_digit_char by done. rewrite IH by done. by rewrite orb_true_r.
Qed.

Lemma uint_go_show n : 0 <= n -> uint_go 0 false (show_nat n) = Some n.
Proof.
  intros Hn. unfold show_nat. rewrite uint_go_digits by (apply digits_bound; lia).
  destruct (digits_cons 10 n) as (d & ds & Hd); [lia|done|].
  rewrite bool_decide_eq_false_2 by (by rewrite Hd). cbn. f_equal.
  by apply (undigits_digits 10).
Qed.

Lemma show_nat_cons n : 0 <= n -> exists d ds, show_nat n = digit_char d :: ds /\ 0 <= d < 10.
Proof.
  intros Hn. unfold show_nat. destruct (digits_cons 10 n) as (d & ds & Hd); [lia|done|].
  rewrite Hd. exists d, (digit_char <$> ds). split; [done|].
  pose proof (digits_bound 10 n ltac:(lia) Hn) as H. rewrite Hd in H.
  by apply Forall_cons in H as [? _].
Qed.

(** [int(str(n)) == n] *)
Lemma py_int_show n : py_int (show_Z n) = Some n.
Proof.
  unfold py_int, show_Z. destruct (Z.ltb_spec n 0).
  - rewrite strip_id.
    + rewrite decide_True by done. rewrite uint_go_show by lia. cbn. f_equal. lia.
    + constructor; [done|]. apply alnum_no_space, show_alnum; lia.
  - rewrite strip_id by (apply alnum_no_space, show_alnum; lia).
    destruct (show_nat_cons n) as (d & ds & Hs & Hd); [done|].
    pose proof (uint_go_show n ltac:(lia)) as Hu. rewrite Hs in *.
    rewrite !decide_False by (apply alnum_ne; [apply digit_char_alnum; lia|done]). done.
Qed.

Lemma show_Z_no_space n : no_space (show_Z n).
Proof.
  unfold show_Z. case_match; boolP.
  - constructor; [done|]. apply alnum_no_space, show_alnum; lia.
  - apply alnum_no_space, show_alnum; lia.
Qed.
