(* ===== verification/PyBytes.v ===== *)
(** * Bytes, UUIDs and Base64, as Python has them

    [int.to_bytes], [uuid.UUID] (its text form and reading it back, with every
    spelling [UUID(...)] takes) and [base64].  A [bytes] object is a text, a UUID
    an integer below [2 ^ 128]. *)

From S2P Require Import Prelude PyText.

(** ** Integers as bytes *)

(** [n.to_bytes(len, "big")] *)
Fixpoint to_bytes (len : nat) (n : Z) : text :=
  match len with
  | O => []
  | S len' => to_bytes len' (n / 256) ++ [chr (n mod 256)]
  end.

(** [int.from_bytes(b, "big")] *)
Definition from_bytes (b : text) : Z := undigits 256 (code <$> b).

Lemma to_bytes_length len n : length (to_bytes len n) = len.
Proof. revert n. induction len as [|len IH]; intros n; cbn; [done|]. rewrite length_app, IH. cbn. lia. Qed.

Lemma from_bytes_snoc b c : from_bytes (b ++ [c]) = from_bytes b * 256 + code c.
Proof. unfold from_bytes, undigits. by rewrite fmap_app, foldl_app. Qed.

Lemma from_to_bytes len n : 0 <= n < 256 ^ Z.of_nat len -> from_bytes (to_bytes len n) = n.
Proof.
  revert n. induction len as [|len IH]; intros n Hn; cbn [to_bytes].
  - change (256 ^ Z.of_nat 0) with 1 in Hn. unfold from_bytes, undigits. cbn. lia.
  - rewrite from_bytes_snoc, IH.
    + rewrite code_chr by (apply Z.mod_pos_bound; lia). pose proof (Z.div_mod n 256). lia.
    + rewrite Nat2Z.inj_succ, Z.pow_succ_r in Hn by lia. split.
      * apply Z.div_pos; lia.
      * apply Z.div_lt_upper_bound; lia.
Qed.

Lemma to_bytes_inj len n m :
  0 <= n < 256 ^ Z.of_nat len -> 0 <= m < 256 ^ Z.of_nat len -> to_bytes len n = to_bytes len m -> n = m.
Proof. intros Hn Hm Heq. rewrite <- (from_to_bytes len n Hn), <- (from_to_bytes len m Hm). by rewrite Heq. Qed.

#[global] Arguments to_bytes : simpl never.
#[global] Arguments from_bytes : simpl never.

(** ** UUIDs *)

Definition is_uuid (u : Z) : Prop := 0 <= u < 256 ^ Z.of_nat 16.

(** [str(UUID)] *)
Definition pad_hex (u : Z) : text :=
  let h := show_hex u in replicate (32 - length h) "0"%char ++ h.
Definition str_uuid (u : Z) : text :=
  let h := pad_hex u in
  join (str "-") [take 8 h; take 4 (drop 8 h); take 4 (drop 12 h); take 4 (drop 16 h); drop 20 h].

(** [t.replace(p, ...)] with nothing: every occurrence of [p <> ...] removed,
    from the left; each step consumes a character. *)
Fixpoint remove_go (fuel : nat) (p t : text) : text :=
  match fuel with
  | O => t
  | S f => match t with
           | [] => []
           | c :: r => if startswith p t then remove_go f p (drop (length p) t) else c :: remove_go f p r
           end
  end.
Definition remove_all (p t : text) : text := remove_go (length t) p t.

(** [t.strip(chars)] *)
Fixpoint lstrip_of (chars t : text) : text :=
  match t with
  | c :: r => if bool_decide (c ∈ chars) then lstrip_of chars r else t
  | [] => []
  end.
Definition strip_of (chars t : text) : text := reverse (lstrip_of chars (reverse (lstrip_of chars t))).

(** [int(t, 16)]: white space around, a sign, [0x], and single underscores
    between digits are all accepted. *)
Fixpoint hex_go (acc : Z) (after_digit : bool) (t : text) : option Z :=
  match t with
  | [] => if after_digit then Some acc else None
  | c :: r =>
      if decide (c = "_"%char) then
        if after_digit then hex_go acc false r else None
      else match hex_digit c with
           | Some d => hex_go (acc * 16 + d) true r
           | None => None
           end
  end.
Definition hex_unsigned (t : text) : option Z :=
  match t with
  | z :: x :: r =>
      if bool_decide (z = "0"%char) && (bool_decide (x = "x"%char) || bool_decide (x = "X"%char)) then
        match r with
        | u :: r' => if decide (u = "_"%char) then hex_go 0 false r' else hex_go 0 false r
        | [] => None
        end
      else hex_go 0 false t
  | _ => hex_go 0 false t
  end.
Definition py_int16 (t : text) : option Z :=
  match strip t with
  | c :: r =>
      if decide (c = "-"%char) then Z.opp <$> hex_unsigned r
      else if decide (c = "+"%char) then hex_unsigned r
      else hex_unsigned (c :: r)
  | [] => None
  end.

(** [UUID(t)], [None] for [ValueError]. *)
Definition uuid_of_text (t : text) : option Z :=
  let h := remove_all (str "-") (strip_of (str "{}") (remove_all (str "uuid:") (remove_all (str "urn:") t))) in
  if Nat.eqb (length h) 32 then
    match py_int16 h with
    | Some n => if 0 <=? n then Some n else None
    | None => None
    end
  else None.

(** *** The text form reads back *)

Lemma startswith_missing p t x : x ∈ p -> x ∉ t -> startswith p t = false.
Proof.
  intros Hp Ht. apply not_true_iff_false. rewrite startswith_spec. intros (r & ->).
  apply Ht. apply elem_of_app. by left.
Qed.

Lemma remove_missing p t x : x ∈ p -> x ∉ t -> remove_all p t = t.
Proof.
  intros Hp. unfold remove_all. generalize (length t) at 1. intros n. revert t.
  induction n as [|n IH]; intros t Ht; [done|]. destruct t as [|c t]; [done|]. cbn [remove_go].
  rewrite (startswith_missing p (c :: t) x) by done. f_equal. apply IH.
  apply not_elem_of_cons in Ht. tauto.
Qed.

Lemma remove_dash_cons c t : c <> "-"%char -> remove_all (str "-") (c :: t) = c :: remove_all (str "-") t.
Proof.
  intros Hc. unfold remove_all. cbn [length remove_go].
  change (startswith (str "-") (c :: t)) with (bool_decide ("-"%char = c) && true).
  by rewrite bool_decide_eq_false_2 by done.
Qed.
Lemma remove_dash_dash t : remove_all (str "-") ("-"%char :: t) = remove_all (str "-") t.
Proof. reflexivity. Qed.
Lemma remove_dash_app a t : "-"%char ∉ a -> remove_all (str "-") (a ++ t) = a ++ remove_all (str "-") t.
Proof.
  induction a as [|c a IH]; intros Ha; [done|]. apply not_elem_of_cons in Ha as [Hc Ha].
  rewrite <- !app_comm_cons, remove_dash_cons by done. by rewrite IH.
Qed.

Lemma lstrip_of_none chars t : Forall (fun c => c ∉ chars) t -> lstrip_of chars t = t.
Proof. destruct 1; [done|]. cbn. by rewrite bool_decide_eq_false_2. Qed.
Lemma strip_of_none chars t : Forall (fun c => c ∉ chars) t -> strip_of chars t = t.
Proof.
  intros H. unfold strip_of. rewrite (lstrip_of_none _ t) by done.
  rewrite lstrip_of_none by (by apply Forall_reverse). apply reverse_involutive.
Qed.

Lemma hex_go_digits ds acc b :
  Forall (fun d => 0 <= d < 16) ds -> b = true \/ ds <> [] ->
  hex_go acc b (digit_char <$> ds) = Some (foldl (fun a d => a * 16 + d) acc ds).
Proof.
  intros H. revert acc b. induction H as [|d ds Hd _ IH]; intros acc b Hb.
  - by destruct Hb as [->|].
  - cbn. assert (digit_char d <> "_"%char).
    { apply (alnum_ne _ _ (digit_char_alnum d Hd)). done. }
    rewrite decide_False by done. rewrite hex_digit_char by done. apply IH. by left.
Qed.

(** The 32 digits of a UUID. *)
Lemma pad_hex_digits u : is_uuid u ->
  exists ds, pad_hex u = digit_char <$> ds /\ length ds = 32%nat /\
    Forall (fun d => 0 <= d < 16) ds /\ undigits 16 ds = u.
Proof.
  intros Hu. pose proof (digits_bound 16 u ltac:(lia) ltac:(unfold is_uuid in Hu; lia)) as Hb.
  assert (Hl : (length (digits 16 u) <= 32)%nat).
  { apply digits_length; [lia| |lia]. unfold is_uuid in Hu. change (16 ^ Z.of_nat 32) with (256 ^ Z.of_nat 16). lia. }
  exists (replicate (32 - length (digits 16 u)) 0 ++ digits 16 u). repeat split.
  - unfold pad_hex, show_hex. rewrite fmap_app, length_fmap. f_equal.
    generalize (32 - length (digits 16 u))%nat. intros n. by induction n; cbn; [|f_equal].
  - rewrite length_app, length_replicate. lia.
  - apply Forall_app. split; [|done]. by apply Forall_replicate.
  - unfold undigits. rewrite foldl_app.
    assert (Hz : forall n, foldl (fun a d => a * 16 + d) 0 (replicate n 0) = 0) by (induction n; done).
    rewrite Hz. unfold is_uuid in Hu. apply (undigits_digits 16 u); lia.
Qed.

Lemma py_int16_digits ds :
  Forall (fun d => 0 <= d < 16) ds -> ds <> [] -> py_int16 (digit_char <$> ds) = Some (undigits 16 ds).
Proof.
  intros Hb Hne. unfold py_int16.
  assert (Ha : alnum (digit_char <$> ds)).
  { apply Forall_fmap. eapply Forall_impl; [exact Hb|]. intros d Hd. by apply digit_char_alnum. }
  rewrite strip_id by (by apply alnum_no_space). destruct ds as [|d ds]; [done|].
  rewrite fmap_cons. apply Forall_cons in Ha as [Hd Ha].
  rewrite (decide_False (P := digit_char d = "-"%char)) by (by apply alnum_ne).
  rewrite (decide_False (P := digit_char d = "+"%char)) by (by apply alnum_ne).
  assert (Hx : hex_unsigned (digit_char d :: (digit_char <$> ds)) = hex_go 0 false (digit_char <$> d :: ds)).
  { unfold hex_unsigned. destruct ds as [|d' ds]; [done|]. rewrite fmap_cons.
    apply Forall_cons in Hb as [_ Hb]. apply Forall_cons in Hb as [Hd' _].
    assert (forall x, x ∈ [120; 88] -> digit_char d' <> chr x) as Hnx.
    { intros x Hx Heq. apply (f_equal code) in Heq. rewrite digit_char_code in Heq by done.
      rewrite code_chr in Heq by set_solver by lia. revert Heq. case_match; boolP; set_solver by lia. }
    rewrite (bool_decide_eq_false_2 (digit_char d' = "x"%char)) by (apply (Hnx 120); set_solver).
    rewrite (bool_decide_eq_false_2 (digit_char d' = "X"%char)) by (apply (Hnx 88); set_solver).
    by rewrite andb_false_r. }
  rewrite Hx. apply hex_go_digits; [done|by right].
Qed.

Lemma pad_hex_alnum u : is_uuid u -> alnum (pad_hex u).
Proof.
  intros Hu. destruct (pad_hex_digits u Hu) as (ds & -> & _ & Hb & _). apply Forall_fmap.
  eapply Forall_impl; [exact Hb|]. intros d Hd. by apply digit_char_alnum.
Qed.

(** What the text of a UUID is made of. *)
Definition uuid_char (c : ascii) : bool := is_alnum c || bool_decide (c = "-"%char).

Lemma str_uuid_Forall (P : ascii -> Prop) u :
  is_uuid u -> (forall d, 0 <= d < 16 -> P (digit_char d)) -> P "-"%char -> Forall P (str_uuid u).
Proof.
  intros Hu Hd Hdash. destruct (pad_hex_digits u Hu) as (ds & Hh & _ & Hb & _). unfold str_uuid. rewrite Hh.
  assert (Ha : Forall P (digit_char <$> ds)) by (apply Forall_fmap; eapply Forall_impl; [exact Hb|exact Hd]).
  cbn [join]. repeat (apply Forall_app; split);
    first [by apply Forall_singleton | repeat (apply Forall_take || apply Forall_drop); exact Ha].
Qed.

Lemma str_uuid_chars u : is_uuid u -> Forall (fun c => uuid_char c = true) (str_uuid u).
Proof.
  intros Hu. apply str_uuid_Forall; [done| |done]. intros d Hd. unfold uuid_char. by rewrite digit_char_alnum.
Qed.

Lemma str_uuid_not_elem u c : is_uuid u -> uuid_char c = false -> c ∉ str_uuid u.
Proof.
  intros Hu Hc Hin. pose proof (str_uuid_chars u Hu) as H. rewrite Forall_forall in H.
  specialize (H c Hin). cbn in H. congruence.
Qed.

Lemma remove_dash_str_uuid u : is_uuid u -> remove_all (str "-") (str_uuid u) = pad_hex u.
Proof.
  intros Hu. pose proof (pad_hex_alnum u Hu) as Ha. unfold str_uuid. set (h := pad_hex u) in *.
  assert (Hd : forall t, alnum t -> "-"%char ∉ t) by (intros t Ht; by apply alnum_not_elem).
  assert (Ht : forall n m, alnum (take n (drop m h))) by (intros; by apply Forall_take, Forall_drop).
  cbn [join]. change (str "-") with ["-"%char].
  rewrite remove_dash_app by (apply Hd; by apply Forall_take). cbn [app].
  rewrite remove_dash_dash, remove_dash_app by (by apply Hd). cbn [app].
  rewrite remove_dash_dash, remove_dash_app by (by apply Hd). cbn [app].
  rewrite remove_dash_dash, remove_dash_app by (by apply Hd). cbn [app].
  rewrite remove_dash_dash, (remove_missing _ _ "-"%char); [|by left|apply Hd; by apply Forall_drop].
  assert (E : forall n, drop (n + 4) h = drop 4 (drop n h)) by (intros n; by rewrite drop_drop).
  rewrite (E 16%nat : drop 20 h = _), take_drop, (E 12%nat : drop 16 h = _), take_drop,
    (E 8%nat : drop 12 h = _), take_drop.
  apply take_drop.
Qed.

Lemma uuid_of_str u : is_uuid u -> uuid_of_text (str_uuid u) = Some u.
Proof.
  intros Hu. unfold uuid_of_text.
  assert (Hcolon : ":"%char ∉ str_uuid u) by (by apply str_uuid_not_elem).
  rewrite (remove_missing (str "urn:") _ ":"%char) by (done || set_solver).
  rewrite (remove_missing (str "uuid:") _ ":"%char) by (done || set_solver).
  rewrite strip_of_none, remove_dash_str_uuid by
    first [done | apply Forall_forall; intros c Hc Hin; revert Hc; apply str_uuid_not_elem; [done|];
                  repeat (apply elem_of_cons in Hin as [->|Hin]; [done|]); by apply not_elem_of_nil in Hin].
  destruct (pad_hex_digits u Hu) as (ds & -> & Hl & Hb & Hv). rewrite length_fmap, Hl. cbn [Nat.eqb].
  rewrite py_int16_digits by (done || by destruct ds). rewrite Hv.
  unfold is_uuid in Hu. by rewrite (proj2 (Z.leb_le 0 u)) by lia.
Qed.

Lemma str_uuid_inj u v : is_uuid u -> is_uuid v -> str_uuid u = str_uuid v -> u = v.
Proof. intros Hu Hv Heq. pose proof (uuid_of_str u Hu) as H. rewrite Heq, uuid_of_str in H by done. congruence. Qed.

Lemma str_uuid_ne u : is_uuid u -> str_uuid u <> [].
Proof. intros Hu He. pose proof (uuid_of_str u Hu) as H. rewrite He in H. by vm_compute in H. Qed.

#[global] Arguments str_uuid : simpl never.
#[global] Arguments uuid_of_text : simpl never.

(** ** Base64 *)

Definition b64_alphabet : text :=
  str "ABCDEFGHIJKLMNOPQRSTUVWXYZabcdefghijklmnopqrstuvwxyz0123456789+/".
Definition b64_char (n : Z) : ascii := nth (Z.to_nat n) b64_alphabet "A"%char.
Definition b64_value (c : ascii) : option Z :=
  let n := code c in
  if (65 <=? n) && (n <=? 90) then Some (n - 65)
  else if (97 <=? n) && (n <=? 122) then Some (n - 71)
  else if (48 <=? n) && (n <=? 57) then Some (n + 4)
  else if n =? 43 then Some 62
  else if n =? 47 then Some 63
  else None.

(** [base64.b64encode(b).decode()] *)
Fixpoint b64encode (b : text) : text :=
  match b with
  | [] => []
  | [x] => [b64_char (code x / 4); b64_char (code x mod 4 * 16); "="%char; "="%char]
  | [x; y] => [b64_char (code x / 4); b64_char (code x mod 4 * 16 + code y / 16);
               b64_char (code y mod 16 * 4); "="%char]
  | x :: y :: z :: r =>
      b64_char (code x / 4) :: b64_char (code x mod 4 * 16 + code y / 16) ::
      b64_char (code y mod 16 * 4 + code z / 64) :: b64_char (code z mod 64) :: b64encode r
  end.

(** [base64.b64decode(t)], which skips what is not in the alphabet and stops
    at complete padding; [None] for [binascii.Error].  [q] characters of the
    current group of four have been read, [left] are their unused bits. *)
Fixpoint b64_go (q : nat) (left : Z) (pads : nat) (t : text) : option text :=
  match t with
  | [] => if Nat.eqb q 0 then Some [] else None
  | c :: r =>
      if bool_decide (c = "="%char) then
        if Nat.leb 2 q && Nat.leb 4 (q + S pads) then Some []
        else b64_go q left (if Nat.leb 2 q then S pads else pads) r
      else match b64_value c with
           | None => b64_go q left pads r
           | Some v =>
               match q with
               | 0%nat => b64_go 1 v 0 r
               | 1%nat => cons (chr (left * 4 + v / 16)) <$> b64_go 2 (v mod 16) 0 r
               | 2%nat => cons (chr (left * 16 + v / 4)) <$> b64_go 3 (v mod 4) 0 r
               | _ => cons (chr (left * 64 + v)) <$> b64_go 0 0 0 r
               end
           end
  end.
Definition b64decode (t : text) : option text := b64_go 0 0 0 t.

Lemma b64_value_char n : 0 <= n < 64 -> b64_value (b64_char n) = Some n.
Proof.
  intros H. assert (Hall : forallb (fun k => bool_decide (b64_value (b64_char (Z.of_nat k)) = Some (Z.of_nat k)))
    (seq 0 64) = true) by (vm_compute; reflexivity).
  rewrite forallb_forall in Hall. specialize (Hall (Z.to_nat n)). rewrite Z2Nat.id in Hall by lia.
  apply bool_decide_eq_true in Hall; [done|]. apply in_seq. lia.
Qed.

Lemma b64_go_char q left pads n r :
  0 <= n < 64 ->
  b64_go q left pads (b64_char n :: r) =
    match q with
    | 0%nat => b64_go 1 n 0 r
    | 1%nat => cons (chr (left * 4 + n / 16)) <$> b64_go 2 (n mod 16) 0 r
    | 2%nat => cons (chr (left * 16 + n / 4)) <$> b64_go 3 (n mod 4) 0 r
    | _ => cons (chr (left * 64 + n)) <$> b64_go 0 0 0 r
    end.
Proof.
  intros Hn. cbn [b64_go]. pose proof (b64_value_char n Hn) as Hv.
  rewrite bool_decide_eq_false_2; [by rewrite Hv|]. intros He. by rewrite He in Hv.
Qed.

Lemma chr_code_eq c n : n = code c -> chr n = c.
Proof. intros ->. apply code_inj. apply code_chr, code_range. Qed.

Lemma b64decode_encode b : b64decode (b64encode b) = Some b.
Proof.
  unfold b64decode. remember (length b) as n eqn:Hn. assert (Hle : (length b <= n)%nat) by lia. clear Hn.
  revert b Hle. induction n as [|n IH]; intros b Hle; [destruct b; [done|cbn in Hle; lia]|].
  destruct b as [|x [|y [|z r]]]; [done|..]; cbn [b64encode]; pose proof (code_range x).
  - rewrite !b64_go_char by (try lia; Z.to_euclidean_division_equations; lia).
    cbn [b64_go]. rewrite bool_decide_eq_true_2 by done. cbn.
    apply f_equal, (f_equal2 cons); [|done]; apply chr_code_eq; Z.to_euclidean_division_equations; lia.
  - pose proof (code_range y).
    rewrite !b64_go_char by (Z.to_euclidean_division_equations; lia).
    cbn [b64_go]. rewrite bool_decide_eq_true_2 by done. cbn.
    apply f_equal, (f_equal2 cons); [|apply (f_equal2 cons); [|done]]; apply chr_code_eq; Z.to_euclidean_division_equations; lia.
  - pose proof (code_range y). pose proof (code_range z).
    rewrite !b64_go_char by (Z.to_euclidean_division_equations; lia).
    rewrite IH by (cbn in Hle; lia). cbn.
    apply f_equal, (f_equal2 cons); [|apply (f_equal2 cons); [|apply (f_equal2 cons); [|done]]];
      apply chr_code_eq; Z.to_euclidean_division_equations; lia.
Qed.

Lemma b64_char_ascii n : code (b64_char n) < 128.
Proof.
  unfold b64_char. generalize (Z.to_nat n). intros k.
  assert (H : Forall (fun c => code c < 128) b64_alphabet).
  { apply Forall_forall. intros c Hc. assert (Hb : forallb (fun c => code c <? 128) b64_alphabet = true) by reflexivity.
    rewrite forallb_forall in Hb. apply Z.ltb_lt, Hb. by apply list_elem_of_In. }
  rewrite Forall_forall in H. destruct (nth_in_or_default k b64_alphabet "A"%char) as [Hin|He].
  - apply H. by apply list_elem_of_In.
  - rewrite He. by vm_compute.
Qed.

Lemma b64encode_chars b c : c ∈ b64encode b -> code c < 128.
Proof.
  remember (length b) as n eqn:Hn. assert (Hle : (length b <= n)%nat) by lia. clear Hn. revert b Hle.
  induction n as [|n IH]; intros b Hle Hc; [destruct b; [by apply not_elem_of_nil in Hc|cbn in Hle; lia]|].
  destruct b as [|x [|y [|z r]]]; cbn [b64encode] in Hc;
    repeat (apply elem_of_cons in Hc as [->|Hc]; [apply b64_char_ascii || by vm_compute|]);
    try (by apply not_elem_of_nil in Hc).
  apply (IH r); [cbn in Hle; lia|done].
Qed.
#[global] Arguments b64encode : simpl never.
#[global] Arguments b64decode : simpl never.
