(* ===== verification/PyTime.v ===== *)
(** * Dates

    What the services use of [datetime]: the civil date of an instant and
    [isoformat].  Instants are milliseconds since the epoch, in UTC. *)

From S2P Require Import Prelude PyText.

Module PyTime.

Definition is_leap (y : Z) : bool := (y mod 4 =? 0) && (negb (y mod 100 =? 0) || (y mod 400 =? 0)).
Definition days_before_year (y : Z) : Z := let p := y - 1 in p * 365 + p / 4 - p / 100 + p / 400.
Definition days_in_month (y m : Z) : Z :=
  if (m =? 2) && is_leap y then 29
  else if m =? 2 then 28
  else if (m =? 4) || (m =? 6) || (m =? 9) || (m =? 11) then 30
  else 31.
Definition days_before_month (y m : Z) : Z :=
  foldr Z.add 0 ((fun i => days_in_month y (Z.of_nat i)) <$> seq 1 (Z.to_nat (m - 1))).

(** The month and day of the [n]th day, from 0, of year [y]. *)
Fixpoint month_of (y : Z) (fuel : nat) (m n : Z) : Z * Z :=
  match fuel with
  | O => (m, n + 1)
  | S fuel' => if n <? days_in_month y m then (m, n + 1) else month_of y fuel' (m + 1) (n - days_in_month y m)
  end.

(** [date.fromordinal]: day 1 is the first of January of year 1. *)
Definition year_of (n : Z) : Z :=
  let n0 := n - 1 in
  let n400 := n0 / 146097 in let r400 := n0 mod 146097 in
  let n100 := r400 / 36524 in let r100 := r400 mod 36524 in
  let n4 := r100 / 1461 in let r4 := r100 mod 1461 in
  let n1 := r4 / 365 in
  let y := n400 * 400 + 1 + n100 * 100 + n4 * 4 + n1 in
  if (n1 =? 4) || (n100 =? 4) then y - 1 else y.
Definition fromordinal (n : Z) : Z * Z * Z :=
  let y := year_of n in
  let '(m, d) := month_of y 11 1 (n - 1 - days_before_year y) in (y, m, d).
Definition toordinal (y m d : Z) : Z := days_before_year y + days_before_month y m + d.

(** [%02d] and the like. *)
Definition zpad (width : nat) (n : Z) : text :=
  let t := show_nat n in replicate (width - length t) "0"%char ++ t.

Definition EPOCH_ORDINAL : Z := 719163.
Definition MS_DAY : Z := 86400000.

(** [isoformat] of an aware instant in UTC: the fraction only when there is one. *)
Definition isoformat (ms : Z) : text :=
  let '(y, mo, d) := fromordinal (EPOCH_ORDINAL + ms / MS_DAY) in
  let r := ms mod MS_DAY in
  zpad 4 y ++ str "-" ++ zpad 2 mo ++ str "-" ++ zpad 2 d ++ str "T" ++
  zpad 2 (r / 3600000) ++ str ":" ++ zpad 2 (r / 60000 mod 60) ++ str ":" ++ zpad 2 (r / 1000 mod 60) ++
  (if r mod 1000 =? 0 then [] else str "." ++ zpad 6 (r mod 1000 * 1000)) ++ str "+00:00".

Example isoformat_examples :
  isoformat 0 = str "1970-01-01T00:00:00+00:00" /\
  isoformat 951827696789 = str "2000-02-29T12:34:56.789000+00:00" /\
  isoformat 4107542399000 = str "2100-02-28T23:59:59+00:00" /\
  isoformat 4107542400000 = str "2100-03-01T00:00:00+00:00" /\
  isoformat 1735603200000 = str "2024-12-31T00:00:00+00:00".
Proof. vm_compute. done. Qed.

Lemma days_before_month_next y m : 1 <= m -> days_before_month y (m + 1) = days_before_month y m + days_in_month y m.
Proof.
  intros Hm. unfold days_before_month. replace (Z.to_nat (m + 1 - 1)) with (S (Z.to_nat (m - 1))) by lia.
  rewrite seq_S, fmap_app. assert (Happ : forall l x, foldr Z.add 0 (l ++ [x]) = foldr Z.add 0 l + x).
  { intros l x. induction l as [|a l IH]; cbn; [lia|]. rewrite IH. lia. }
  cbn [fmap list_fmap]. rewrite Happ. do 2 f_equal. lia.
Qed.

Lemma month_of_spec y fuel m n :
  1 <= m -> let '(m', d) := month_of y fuel m n in days_before_month y m' + d = days_before_month y m + n + 1.
Proof.
  revert m n. induction fuel as [|fuel IH]; intros m n Hm; cbn [month_of]; [lia|].
  destruct (n <? days_in_month y m); [lia|].
  specialize (IH (m + 1) (n - days_in_month y m)). destruct (month_of _ _ _ _) as [m' d].
  rewrite days_before_month_next in IH by done. lia.
Qed.

(** The civil date names the day. *)
Lemma toordinal_fromordinal n : let '(y, m, d) := fromordinal n in toordinal y m d = n.
Proof.
  unfold fromordinal, toordinal. pose proof (month_of_spec (year_of n) 11 1 (n - 1 - days_before_year (year_of n))) as Hm.
  destruct (month_of _ _ _ _) as [m d]. specialize (Hm ltac:(lia)). change (days_before_month _ 1) with 0 in Hm. lia.
Qed.

End PyTime.
