(* ===== verification/Json.v ===== *)
(** * JSON, as Python's [json] module writes and reads it

    [dumps] follows [json.dumps] (ASCII output, chosen separators) and [loads]
    follows [json.loads].  Strings hold code points below 256, as in [PyText];
    a number with a fraction or an exponent is kept as its source text.  The
    result used everywhere else is [loads_dumps]: what is written is read
    back, and what is written never contains a line break. *)

From S2P Require Import Prelude PyText.

Inductive json : Type :=
| JNull
| JBool (b : bool)
| JInt (n : Z)
| JFloat (raw : text)
| JStr (t : text)
| JArr (l : list json)
| JObj (kvs : list (text * json)).

Section JsonInd.
Context (P : json -> Prop)
  (Hnull : P JNull) (Hbool : forall b, P (JBool b)) (Hint : forall n, P (JInt n))
  (Hfloat : forall r, P (JFloat r)) (Hstr : forall t, P (JStr t))
  (Harr : forall l, Forall P l -> P (JArr l))
  (Hobj : forall kvs, Forall (fun kv => P kv.2) kvs -> P (JObj kvs)).

(** Induction that reaches inside arrays and objects. *)
Fixpoint json_ind' (j : json) : P j :=
  match j with
  | JNull => Hnull | JBool b => Hbool b | JInt n => Hint n
  | JFloat r => Hfloat r | JStr t => Hstr t
  | JArr l =>
      Harr l ((fix go l := match l return Forall P l with
                           | [] => List.Forall_nil _
                           | j :: l' => List.Forall_cons _ j l' (json_ind' j) (go l')
                           end) l)
  | JObj kvs =>
      Hobj kvs ((fix go kvs := match kvs return Forall (fun kv => P kv.2) kvs with
                               | [] => List.Forall_nil _
                               | kv :: kvs' => List.Forall_cons _ kv kvs' (json_ind' kv.2) (go kvs')
                               end) kvs)
  end.
End JsonInd.

(** ** Writing *)

Definition QUOTE : ascii := chr 34.
Definition BSLASH : ascii := "\"%char.

Definition hex4 (n : Z) : text :=
  digit_char <$> [n / 4096; (n / 256) mod 16; (n / 16) mod 16; n mod 16].

Definition esc_char (c : ascii) : text :=
  let n := code c in
  if n =? 34 then [BSLASH; QUOTE]
  else if n =? 92 then [BSLASH; BSLASH]
  else if n =? 10 then [BSLASH; "n"%char]
  else if n =? 13 then [BSLASH; "r"%char]
  else if n =? 9 then [BSLASH; "t"%char]
  else if n =? 12 then [BSLASH; "f"%char]
  else if n =? 8 then [BSLASH; "b"%char]
  else if (32 <=? n) && (n <=? 126) then [c]
  else BSLASH :: "u"%char :: hex4 n.

Definition dump_str (t : text) : text := QUOTE :: concat (esc_char <$> t) ++ [QUOTE].

(** [json.dumps(j, separators=("," + sp, ":" + sp))] *)
Section Dumps.
Context (sp : text).

Fixpoint dumps_with (j : json) : text :=
  match j with
  | JNull => str "null"
  | JBool true => str "true"
  | JBool false => str "false"
  | JInt n => show_Z n
  | JFloat r => r
  | JStr t => dump_str t
  | JArr l => "["%char :: join (","%char :: sp) (map dumps_with l) ++ ["]"%char]
  | JObj kvs =>
      "{"%char :: join (","%char :: sp)
        (map (fun kv => dump_str kv.1 ++ ":"%char :: sp ++ dumps_with kv.2) kvs)
        ++ ["}"%char]
  end.
End Dumps.

(** The same with white space around the items of a non-empty array or object:
    [pad d] after the opening and before the closing bracket of depth [d],
    [sep d] after each comma. *)
Section DumpsAt.
Context (pad sep : nat -> text) (ksp : text).

Fixpoint dumps_at (d : nat) (j : json) : text :=
  match j with
  | JNull => str "null"
  | JBool true => str "true"
  | JBool false => str "false"
  | JInt n => show_Z n
  | JFloat r => r
  | JStr t => dump_str t
  | JArr [] => str "[]"
  | JArr l => "["%char :: pad (S d) ++
      join (","%char :: sep (S d)) (map (dumps_at (S d)) l) ++ pad d ++ ["]"%char]
  | JObj [] => str "{}"
  | JObj kvs => "{"%char :: pad (S d) ++
      join (","%char :: sep (S d))
        (map (fun kv => dump_str kv.1 ++ ":"%char :: ksp ++ dumps_at (S d) kv.2) kvs)
        ++ pad d ++ ["}"%char]
  end.
End DumpsAt.

(** [json.dumps(j, indent=2)] *)
Definition line_start (d : nat) : text := NL :: replicate (2 * d) " "%char.
Definition dumps_indent : json -> text := dumps_at line_start line_start [" "%char] 0.

(** [json.dumps(j, sort_keys=True)]: objects in the order of their keys. *)
Fixpoint text_le (a b : text) : bool :=
  match a, b with
  | [], _ => true
  | _ :: _, [] => false
  | x :: a', y :: b' => (code x <? code y) || ((code x =? code y) && text_le a' b')
  end.
Fixpoint insert_key {V} (kv : text * V) (kvs : list (text * V)) : list (text * V) :=
  match kvs with
  | [] => [kv]
  | kv' :: kvs' => if text_le kv.1 kv'.1 then kv :: kvs else kv' :: insert_key kv kvs'
  end.
Definition sort_by_key {V} (kvs : list (text * V)) : list (text * V) := foldr insert_key [] kvs.
Fixpoint sort_keys (j : json) : json :=
  match j with
  | JArr l => JArr (map sort_keys l)
  | JObj kvs => JObj (sort_by_key (map (fun kv => (kv.1, sort_keys kv.2)) kvs))
  | _ => j
  end.

(** The defaults, [(", ", ": ")], and the compact [(",", ":")]. *)
Definition dumps : json -> text := dumps_with [" "%char].
Definition dumps_compact : json -> text := dumps_with [].

(** ** Reading *)

Definition is_ws (c : ascii) : bool :=
  let n := code c in (n =? 32) || (n =? 9) || (n =? 10) || (n =? 13).

Fixpoint skip_ws (t : text) : text :=
  match t with
  | c :: r => if is_ws c then skip_ws r else t
  | [] => []
  end.

Definition simple_escape (e : ascii) : option ascii :=
  let n := code e in
  if n =? 34 then Some QUOTE
  else if n =? 92 then Some BSLASH
  else if n =? 47 then Some "/"%char
  else if n =? 98 then Some (chr 8)
  else if n =? 102 then Some (chr 12)
  else if n =? 110 then Some NL
  else if n =? 114 then Some CR
  else if n =? 116 then Some (chr 9)
  else None.

(** The body of a string after its opening quote. *)
Fixpoint parse_chars (t : text) : option (text * text) :=
  match t with
  | [] => None
  | c :: r =>
      if code c =? 34 then Some ([], r)
      else if code c =? 92 then
        match r with
        | e :: r' =>
            match simple_escape e with
            | Some x => '(s, rest) ← parse_chars r'; Some (x :: s, rest)
            | None =>
                if code e =? 117 then
                  match r' with
                  | h1 :: h2 :: h3 :: h4 :: r'' =>
                      a ← hex_digit h1; b ← hex_digit h2; d ← hex_digit h3; f ← hex_digit h4;
                      let n := ((a * 16 + b) * 16 + d) * 16 + f in
                      if n <? 256 then '(s, rest) ← parse_chars r''; Some (chr n :: s, rest)
                      else None
                  | _ => None
                  end
                else None
            end
        | [] => None
        end
      else if code c <? 32 then None
      else '(s, rest) ← parse_chars r; Some (c :: s, rest)
  end.

Fixpoint take_digits (t : text) : text * text :=
  match t with
  | c :: r => match dec_digit c with
              | Some _ => let '(ds, rest) := take_digits r in (c :: ds, rest)
              | None => ([], t)
              end
  | [] => ([], [])
  end.

Definition digits_value (ds : text) : Z :=
  foldl (fun a c => a * 10 + default 0 (dec_digit c)) 0 ds.

(** What may follow an integer part to make it a float. *)
Definition take_frac (t : text) : text * text :=
  match t with
  | c :: r => if code c =? 46 then
                match take_digits r with
                | ([], _) => ([], t)
                | (ds, rest) => (c :: ds, rest)
                end
              else ([], t)
  | [] => ([], [])
  end.

Definition take_exp (t : text) : text * text :=
  match t with
  | c :: r =>
      if (code c =? 101) || (code c =? 69) then
        let '(sign, r') :=
          match r with
          | d :: r' => if (code d =? 43) || (code d =? 45) then ([d], r') else ([], r)
          | [] => ([], r)
          end in
        match take_digits r' with
        | ([], _) => ([], t)
        | (ds, rest) => (c :: sign ++ ds, rest)
        end
      else ([], t)
  | [] => ([], [])
  end.

(** The integer part without its sign, then what makes it a float. *)
Definition parse_unsigned (neg : bool) (t : text) : option (json * text) :=
  match t with
  | c :: r =>
      let '(ds, t2) := if code c =? 48 then ([c], r) else take_digits t in
      match ds with
      | [] => None
      | _ =>
          let '(fr, t3) := take_frac t2 in
          let '(ex, t4) := take_exp t3 in
          match fr, ex with
          | [], [] => Some (JInt (if neg then - digits_value ds else digits_value ds), t4)
          | _, _ => Some (JFloat ((if neg then ["-"%char] else []) ++ ds ++ fr ++ ex), t4)
          end
      end
  | [] => None
  end.

Definition parse_number (t : text) : option (json * text) :=
  match t with
  | c :: r => if code c =? 45 then parse_unsigned true r else parse_unsigned false t
  | [] => None
  end.

Definition eat (lit : string) (v : json) (t : text) : option (json * text) :=
  if startswith (str lit) t then Some (v, drop (length (str lit)) t) else None.

Definition parse_atom (t : text) : option (json * text) :=
  match eat "null" JNull t with
  | Some r => Some r
  | None =>
  match eat "true" (JBool true) t with
  | Some r => Some r
  | None =>
  match eat "false" (JBool false) t with
  | Some r => Some r
  | None =>
  match eat "NaN" (JFloat (str "NaN")) t with
  | Some r => Some r
  | None =>
  match eat "Infinity" (JFloat (str "Infinity")) t with
  | Some r => Some r
  | None =>
  match eat "-Infinity" (JFloat (str "-Infinity")) t with
  | Some r => Some r
  | None => parse_number t
  end end end end end end.

(** Every call but the first starts strictly later in the text, so one more
    than the length of the text is enough fuel. *)
Fixpoint parse_value (fuel : nat) (t : text) : option (json * text) :=
  match fuel with
  | O => None
  | S f =>
      match t with
      | [] => None
      | c :: r =>
          if code c =? 34 then '(s, rest) ← parse_chars r; Some (JStr s, rest)
          else if code c =? 123 then
            match skip_ws r with
            | d :: r' => if code d =? 125 then Some (JObj [], r')
                         else '(kvs, rest) ← parse_members f (d :: r'); Some (JObj (dict_of kvs), rest)
            | [] => None
            end
          else if code c =? 91 then
            match skip_ws r with
            | d :: r' => if code d =? 93 then Some (JArr [], r')
                         else '(l, rest) ← parse_elems f (d :: r'); Some (JArr l, rest)
            | [] => None
            end
          else parse_atom t
      end
  end
with parse_members (fuel : nat) (t : text) : option (list (text * json) * text) :=
  match fuel with
  | O => None
  | S f =>
      match t with
      | c :: r =>
          if code c =? 34 then
            '(k, r1) ← parse_chars r;
            match skip_ws r1 with
            | d :: r2 =>
                if code d =? 58 then
                  '(v, r3) ← parse_value f (skip_ws r2);
                  match skip_ws r3 with
                  | e :: r4 =>
                      if code e =? 125 then Some ([(k, v)], r4)
                      else if code e =? 44 then
                        '(kvs, rest) ← parse_members f (skip_ws r4); Some ((k, v) :: kvs, rest)
                      else None
                  | [] => None
                  end
                else None
            | [] => None
            end
          else None
      | [] => None
      end
  end
with parse_elems (fuel : nat) (t : text) : option (list json * text) :=
  match fuel with
  | O => None
  | S f =>
      '(v, r3) ← parse_value f t;
      match skip_ws r3 with
      | e :: r4 =>
          if code e =? 93 then Some ([v], r4)
          else if code e =? 44 then
            '(vs, rest) ← parse_elems f (skip_ws r4); Some (v :: vs, rest)
          else None
      | [] => None
      end
  end.

(** [json.loads(t)], [None] for [JSONDecodeError]. *)
Definition loads (t : text) : option json :=
  match parse_value (S (length t)) (skip_ws t) with
  | Some (v, rest) => match skip_ws rest with [] => Some v | _ => None end
  | None => None
  end.

(** Text with single quotes standing for double ones, for examples. *)
Definition quoted (s : string) : text :=
  (fun c => if decide (c = "'"%char) then QUOTE else c) <$> str s.

Example loads_object :
  loads (quoted "{'a': [1, -20, true], 'b': {}}")
  = Some (JObj [(str "a", JArr [JInt 1; JInt (-20); JBool true]); (str "b", JObj [])]).
Proof. vm_compute. reflexivity. Qed.
Example loads_truncated : loads (quoted "{'a': 1") = None.
Proof. vm_compute. reflexivity. Qed.

(** ** The round trip *)

(** JSON values the program writes: no floats, no repeated key. *)
Fixpoint json_wf (j : json) : Prop :=
  match j with
  | JFloat _ => False
  | JArr l => foldr (fun j P => json_wf j /\ P) True l
  | JObj kvs => NoDup kvs.*1 /\ foldr (fun kv P => json_wf kv.2 /\ P) True kvs
  | _ => True
  end.

(** Fuel [parse_value] uses on the text of a value. *)
Fixpoint need (j : json) : nat :=
  match j with
  | JArr l => S (foldr (fun j n => S (need j) + n)%nat O l)
  | JObj kvs => S (foldr (fun kv n => S (need kv.2) + n)%nat O kvs)
  | _ => 1%nat
  end.

Definition num_end (t : text) : Prop :=
  match t with
  | [] => True
  | c :: _ => dec_digit c = None /\ code c <> 46 /\ code c <> 101 /\ code c <> 69
  end.

Lemma parse_chars_esc c t :
  parse_chars (esc_char c ++ t) = '(s, rest) ← parse_chars t; Some (c :: s, rest).
Proof. destruct c as [[] [] [] [] [] [] [] []]; reflexivity. Qed.

Lemma parse_chars_dump t rest :
  parse_chars (concat (esc_char <$> t) ++ QUOTE :: rest) = Some (t, rest).
Proof.
  induction t as [|c t IH]; [done|].
  change (concat (esc_char <$> c :: t)) with (esc_char c ++ concat (esc_char <$> t)).
  rewrite <- app_assoc, parse_chars_esc. by rewrite IH.
Qed.

Lemma take_digits_show ds rest :
  Forall (fun d => 0 <= d < 10) ds -> num_end rest ->
  take_digits ((digit_char <$> ds) ++ rest) = (digit_char <$> ds, rest).
Proof.
  intros H Hr. induction H as [|d ds Hd _ IH]; cbn.
  - destruct rest as [|c r]; [done|]. cbn. by rewrite (proj1 Hr).
  - rewrite dec_digit_char by done. by rewrite IH.
Qed.

Lemma digits_value_show ds :
  Forall (fun d => 0 <= d < 10) ds -> digits_value (digit_char <$> ds) = undigits 10 ds.
Proof.
  unfold digits_value, undigits. intros H.
  enough (Ha : forall a, foldl (fun a c => a * 10 + default 0 (dec_digit c)) a (digit_char <$> ds)
                         = foldl (fun a d => a * 10 + d) a ds) by apply Ha.
  induction H as [|d ds Hd _ IH]; intros a; cbn; [done|].
  by rewrite dec_digit_char by done.
Qed.

Lemma take_none rest :
  num_end rest -> take_frac rest = ([], rest) /\ take_exp rest = ([], rest).
Proof.
  intros H. destruct rest as [|c r]; [done|]. destruct H as (_ & H1 & H2 & H3). cbn.
  by rewrite (proj2 (Z.eqb_neq _ _) H1), (proj2 (Z.eqb_neq _ _) H2), (proj2 (Z.eqb_neq _ _) H3).
Qed.

(** An unsigned number is read back by the digit-reading part. *)
Lemma read_nat n rest :
  0 <= n -> num_end rest ->
  exists c r, show_nat n ++ rest = c :: r /\ is_alnum c = true /\ dec_digit c <> None /\
    exists ds, (if code c =? 48 then ([c], r) else take_digits (show_nat n ++ rest)) = (ds, rest) /\
      ds <> [] /\ digits_value ds = n.
Proof.
  intros Hn Hr. pose proof (digits_bound 10 n ltac:(lia) Hn) as Hb.
  destruct (decide (n = 0)) as [->|Hne].
  - unfold show_nat. rewrite digits_0 by lia. eexists _, _.
    split; [reflexivity|]. split; [done|]. split; [done|]. by exists [digit_char 0].
  - destruct (digits_head 10 n) as (d & ds & Hds & Hd); [lia|lia|].
    pose proof (take_digits_show _ _ Hb Hr) as Ht.
    pose proof (digits_value_show _ Hb) as Hv. rewrite undigits_digits in Hv by lia.
    unfold show_nat. rewrite Hds in *. apply Forall_cons in Hb as [Hd' _].
    eexists _, _. split; [reflexivity|]. cbn in Hd'. split; [apply digit_char_alnum; lia|].
    split; [by rewrite dec_digit_char|].
    rewrite digit_char_code by lia. rewrite (proj2 (Z.ltb_lt d 10)) by lia.
    rewrite (proj2 (Z.eqb_neq (48 + d) 48)) by lia. eauto.
Qed.

Lemma eat_ne c lit v t :
  (match str lit with a :: _ => a <> c | [] => False end) -> eat lit v (c :: t) = None.
Proof.
  intros H. unfold eat. destruct (str lit) as [|a l]; [done|]. cbn.
  by rewrite bool_decide_eq_false_2.
Qed.

Lemma dec_digit_range c : dec_digit c <> None -> 48 <= code c <= 57.
Proof. unfold dec_digit. case_match; boolP; [lia|done]. Qed.

Lemma parse_unsigned_show neg n rest :
  0 <= n -> num_end rest ->
  parse_unsigned neg (show_nat n ++ rest) = Some (JInt (if neg then - n else n), rest).
Proof.
  intros Hn Hr. destruct (take_none rest Hr) as [Hf He].
  destruct (read_nat n rest) as (c & r & Hs & _ & _ & ds & Hds & Hne & Hv); [lia|done|].
  unfold parse_unsigned. rewrite Hs in *. rewrite Hds. destruct ds; [done|].
  by rewrite Hf, He, Hv.
Qed.

Lemma parse_number_show n rest :
  num_end rest -> parse_number (show_Z n ++ rest) = Some (JInt n, rest).
Proof.
  intros Hr. unfold show_Z. destruct (Z.ltb_spec n 0).
  - change (parse_unsigned true (show_nat (- n) ++ rest) = Some (JInt n, rest)).
    rewrite parse_unsigned_show by (done || lia). repeat f_equal. lia.
  - pose proof (parse_unsigned_show false n rest ltac:(lia) Hr) as Hu.
    destruct (read_nat n rest) as (c & r & Hs & _ & Hc & _); [lia|done|].
    rewrite Hs in *. pose proof (dec_digit_range _ Hc). cbn -[parse_unsigned].
    by rewrite (proj2 (Z.eqb_neq (code c) 45)) by lia.
Qed.

Lemma parse_atom_show n rest :
  num_end rest -> parse_atom (show_Z n ++ rest) = Some (JInt n, rest).
Proof.
  intros Hr. rewrite <- (parse_number_show n rest) by done. unfold parse_atom, show_Z.
  destruct (Z.ltb_spec n 0).
  - destruct (read_nat (- n) rest) as (c & r & Hs & Hc & _); [lia|done|].
    cbn [app]. rewrite !(eat_ne "-"%char) by done.
    rewrite Hs. unfold eat. cbn.
    rewrite (bool_decide_eq_false_2 ("I"%char = c)); [done|].
    intros <-. destruct (read_nat (- n) rest) as (c' & r' & Hs' & _ & Hd & _); [lia|done|].
    rewrite Hs in Hs'. by simplify_eq.
  - destruct (read_nat n rest) as (c & r & Hs & _ & Hc & _); [lia|done|].
    pose proof (dec_digit_range _ Hc) as Hrange. rewrite Hs.
    rewrite !(eat_ne c) by (cbn; intros <-; vm_compute in Hrange; by destruct Hrange). done.
Qed.

Lemma skip_ws_app sp c t :
  Forall (fun c => is_ws c = true) sp -> is_ws c = false -> skip_ws (sp ++ c :: t) = c :: t.
Proof. induction 1 as [|d l Hd _ IH]; intros Hc; cbn; [by rewrite Hc|]. by rewrite Hd, IH. Qed.

Section RoundTrip.
Context (pad sep : nat -> text) (ksp : text).
#[local] Abbreviation ws t := (Forall (fun c => is_ws c = true) t).
Context (Hpad : forall d, ws (pad d)) (Hsep : forall d, ws (sep d)) (Hksp : ws ksp).
#[local] Abbreviation dump := (dumps_at pad sep ksp).
#[local] Abbreviation member d kv := (dump_str kv.1 ++ ":"%char :: ksp ++ dump d kv.2).
#[local] Abbreviation members d kvs := (join (","%char :: sep d) (map (fun kv => member d kv) kvs)).
#[local] Abbreviation elems d l := (join (","%char :: sep d) (map (dump d) l)).

Lemma num_end_pad d c t : num_end (c :: t) -> num_end (pad d ++ c :: t).
Proof using Hpad.
  intros Hc. pose proof (Hpad d) as H. destruct (pad d) as [|w p]; [done|]. cbn.
  apply Forall_cons in H as [Hw _]. clear -Hw. destruct w as [[] [] [] [] [] [] [] []]; try done.
Qed.

(** The first character of a value is never white space or a closer. *)
Lemma dump_head d j : json_wf j ->
  exists c r, dump d j = c :: r /\ is_ws c = false /\ code c <> 93 /\ code c <> 125.
Proof using Type.
  destruct j as [|[]|n| | |[]|[]]; intros Hwf; try (eexists _, _; split; [reflexivity|done]); [|done].
  cbn. unfold show_Z. destruct (Z.ltb_spec n 0).
  - eexists _, _. split; [reflexivity|done].
  - destruct (show_nat_cons n) as (x & ds & Hs & Hd); [done|]. rewrite Hs.
    eexists _, _. split; [reflexivity|]. unfold is_ws. rewrite digit_char_code by lia.
    rewrite (proj2 (Z.ltb_lt x 10)) by lia.
    rewrite !(proj2 (Z.eqb_neq _ _)) by lia. cbn. lia.
Qed.

Definition reads (j : json) : Prop := json_wf j -> forall d fuel rest,
  (need j <= fuel)%nat -> num_end rest ->
  parse_value fuel (dump d j ++ rest) = Some (j, rest).

Lemma elems_head d j l : json_wf j ->
  exists c r, elems d (j :: l) = c :: r /\ is_ws c = false /\ code c <> 93.
Proof using Type.
  intros Hj. destruct (dump_head d j Hj) as (c & r & Hc & Hw & H93 & _).
  exists c. destruct l; cbn [map join]; rewrite Hc; cbn; eauto.
Qed.

Lemma members_head d kv kvs : exists r, members d (kv :: kvs) = QUOTE :: r.
Proof using Type. destruct kvs; cbn [map join]; unfold dump_str; cbn; eauto. Qed.

Lemma parse_elems_dump d d' l fuel rest :
  Forall reads l -> Forall json_wf l -> l <> [] ->
  (foldr (fun j n => S (need j) + n) 0 l <= fuel)%nat ->
  parse_elems fuel (elems d l ++ pad d' ++ "]"%char :: rest) = Some (l, rest).
Proof using Hpad Hsep.
  intros HR HW. revert fuel. induction HR as [|j l Hj HR IH]; intros fuel Hne Hf; [done|].
  apply Forall_cons in HW as [HWj HWl].
  destruct fuel as [|f]; cbn in Hf; [lia|]. destruct l as [|j' l].
  - cbn [join map parse_elems]. rewrite Hj; [|done|lia|by apply num_end_pad].
    cbn [mbind option_bind]. by rewrite skip_ws_app.
  - change (elems d (j :: j' :: l)) with (dump d j ++ (","%char :: sep d) ++ elems d (j' :: l)).
    rewrite <- !app_assoc. cbn [parse_elems]. rewrite Hj; [|done|cbn; lia|done].
    cbn [mbind option_bind app]. apply Forall_cons in HWl as HW'. destruct HW' as [HWj' _].
    destruct (elems_head d j' l HWj') as (c & r & Hc & Hws & _).
    change (skip_ws (","%char :: sep d ++ elems d (j' :: l) ++ pad d' ++ "]"%char :: rest))
      with (","%char :: sep d ++ elems d (j' :: l) ++ pad d' ++ "]"%char :: rest).
    change (code ","%char =? 93) with false.
    change (code ","%char =? 44) with true. cbv iota.
    assert (Hsk : skip_ws (sep d ++ elems d (j' :: l) ++ pad d' ++ "]"%char :: rest)
                  = elems d (j' :: l) ++ pad d' ++ "]"%char :: rest).
    { rewrite Hc. cbn [app]. by rewrite skip_ws_app. }
    rewrite Hsk, IH; [done|done|done|cbn in *; lia].
Qed.

Lemma parse_member_dump d k j f tail :
  json_wf j ->
  parse_members (S f) (member d (k, j) ++ tail) =
    '(v, r3) ← parse_value f (dump d j ++ tail);
    match skip_ws r3 with
    | e :: r4 =>
        if code e =? 125 then Some ([(k, v)], r4)
        else if code e =? 44 then
          '(kvs, rest) ← parse_members f (skip_ws r4); Some ((k, v) :: kvs, rest)
        else None
    | [] => None
    end.
Proof using Hksp.
  intros HWj. destruct (dump_head d j HWj) as (c & r & Hc & Hws & _).
  unfold dump_str. cbn [app parse_members fst snd].
  change (code QUOTE =? 34) with true. cbv iota.
  rewrite <- !app_assoc. cbn [app]. rewrite parse_chars_dump.
  cbn [mbind option_bind].
  change (skip_ws (":"%char :: (ksp ++ dump d j) ++ tail))
    with (":"%char :: (ksp ++ dump d j) ++ tail).
  change (code ":"%char =? 58) with true. cbv iota.
  rewrite <- app_assoc. rewrite Hc. cbn [app]. by rewrite skip_ws_app.
Qed.

Lemma parse_members_dump d d' kvs fuel rest :
  Forall (fun kv => reads kv.2) kvs -> Forall (fun kv => json_wf kv.2) kvs -> kvs <> [] ->
  (foldr (fun kv n => S (need kv.2) + n) 0 kvs <= fuel)%nat ->
  parse_members fuel (members d kvs ++ pad d' ++ "}"%char :: rest) = Some (kvs, rest).
Proof using Hpad Hsep Hksp.
  intros HR HW. revert fuel.
  induction HR as [|[k j] kvs Hj HR IH]; intros fuel Hne Hf; [done|].
  apply Forall_cons in HW as [HWj HWl]. cbn in Hj, HWj.
  destruct fuel as [|f]; cbn in Hf; [lia|].
  destruct kvs as [|kv kvs].
  - cbn [join map]. rewrite parse_member_dump by done. rewrite Hj; [|done|lia|by apply num_end_pad].
    cbn [mbind option_bind]. by rewrite skip_ws_app.
  - change (members d ((k, j) :: kv :: kvs)) with
      (member d (k, j) ++ (","%char :: sep d) ++ members d (kv :: kvs)).
    rewrite <- app_assoc, parse_member_dump by done. rewrite Hj; [|done|cbn; lia|done].
    cbn [mbind option_bind app].
    change (skip_ws (","%char :: (sep d ++ members d (kv :: kvs)) ++ pad d' ++ "}"%char :: rest))
      with (","%char :: (sep d ++ members d (kv :: kvs)) ++ pad d' ++ "}"%char :: rest).
    change (code ","%char =? 125) with false.
    change (code ","%char =? 44) with true. cbv iota.
    destruct (members_head d kv kvs) as [r' Hr'].
    assert (Hsk : skip_ws ((sep d ++ members d (kv :: kvs)) ++ pad d' ++ "}"%char :: rest)
                  = members d (kv :: kvs) ++ pad d' ++ "}"%char :: rest).
    { rewrite <- app_assoc, Hr'. cbn [app]. by rewrite skip_ws_app. }
    rewrite Hsk, IH; [done|done|done|cbn in *; lia].
Qed.

Lemma json_wf_arr l : json_wf (JArr l) <-> Forall json_wf l.
Proof using Type. cbn. induction l; cbn; rewrite ?Forall_nil, ?Forall_cons; tauto. Qed.

Lemma json_wf_obj kvs :
  json_wf (JObj kvs) <-> NoDup kvs.*1 /\ Forall (fun kv => json_wf kv.2) kvs.
Proof using Type.
  cbn. apply and_iff_compat_l.
  induction kvs; cbn; rewrite ?Forall_nil, ?Forall_cons; tauto.
Qed.

Lemma parse_dump j : reads j.
Proof using Hpad Hsep Hksp.
  induction j as [|b|n|r|t|l IH|kvs IH] using json_ind'; intros Hwf d fuel rest Hf Hr;
    (destruct fuel as [|f]; [cbn in Hf; lia|]).
  - done.
  - by destruct b.
  - cbn. destruct (dump_head d (JInt n)) as (c & r & Hc & Hws & H93 & H125); [done|].
    pose proof (parse_atom_show n rest Hr) as Ha. cbn in Hc. rewrite Hc in *. cbn.
    assert (code c <> 34 /\ code c <> 123 /\ code c <> 91) as (H1 & H2 & H3).
    { unfold show_Z in Hc. destruct (Z.ltb_spec n 0); [by simplify_eq|].
      destruct (show_nat_cons n) as (x & ds & Hs & Hd); [done|]. rewrite Hs in Hc.
      simplify_eq. rewrite digit_char_code by lia.
      rewrite (proj2 (Z.ltb_lt x 10)) by lia. lia. }
    by rewrite (proj2 (Z.eqb_neq _ _) H1), (proj2 (Z.eqb_neq _ _) H2),
      (proj2 (Z.eqb_neq _ _) H3).
  - done.
  - unfold dumps_at, dump_str. cbn [app parse_value].
    change (code QUOTE =? 34) with true. cbv iota. rewrite <- app_assoc. cbn [app].
    by rewrite parse_chars_dump.
  - apply json_wf_arr in Hwf. destruct l as [|j l]; [done|].
    assert (Hp : parse_elems f (elems (S d) (j :: l) ++ pad d ++ "]"%char :: rest) = Some (j :: l, rest)).
    { apply parse_elems_dump; [done|done|done|cbn in *; lia]. }
    apply Forall_cons in Hwf as [Hj _].
    destruct (elems_head (S d) j l Hj) as (c & r & Hc & Hws & H93).
    cbn [dumps_at app]. rewrite <- !app_assoc. cbn [app parse_value].
    change (code "["%char =? 34) with false. change (code "["%char =? 123) with false.
    change (code "["%char =? 91) with true. cbv iota.
    rewrite Hc in *. cbn [app] in *. rewrite skip_ws_app by done.
    rewrite (proj2 (Z.eqb_neq _ _) H93). by rewrite Hp.
  - apply json_wf_obj in Hwf as [Hnd Hwf]. destruct kvs as [|kv kvs]; [done|].
    assert (Hp : parse_members f (members (S d) (kv :: kvs) ++ pad d ++ "}"%char :: rest)
                 = Some (kv :: kvs, rest)).
    { apply parse_members_dump; [done|done|done|cbn in *; lia]. }
    cbn [dumps_at app]. rewrite <- !app_assoc. cbn [app parse_value].
    change (code "{"%char =? 34) with false. change (code "{"%char =? 123) with true.
    cbv iota.
    destruct (members_head (S d) kv kvs) as [r' Hr']. rewrite Hr' in *. cbn [app] in *.
    rewrite skip_ws_app by done.
    change (code QUOTE =? 125) with false. cbv iota. rewrite Hp. cbn [mbind option_bind].
    by rewrite dict_of_nodup.
Qed.

Lemma need_join {A} d (f : A -> json) (g : A -> text) l :
  Forall (fun a => (need (f a) <= length (g a))%nat) l ->
  (foldr (fun a n => S (need (f a)) + n) 0 l <= S (length (join (","%char :: sep d) (map g l))))%nat.
Proof using Type.
  intros H. induction H as [|a l Ha Hl IH]; cbn; [lia|].
  destruct l as [|a' l]; cbn in *; [lia|].
  rewrite length_app. cbn. rewrite length_app. lia.
Qed.

Lemma need_length d j : json_wf j -> (need j <= length (dump d j))%nat.
Proof using Type.
  revert d. induction j as [|b|n|r|t|l IH|kvs IH] using json_ind'; intros d Hwf; cbn [need].
  - cbn; lia.
  - destruct b; cbn; lia.
  - destruct (dump_head d (JInt n)) as (c & r & -> & _); [done|]. cbn; lia.
  - done.
  - cbn; lia.
  - apply json_wf_arr in Hwf.
    assert (Forall (fun j => (need j <= length (dump (S d) j))%nat) l) as H.
    { eapply Forall_impl; [exact (List.Forall_and IH Hwf)|]. cbn. intros j [H1 H2]. auto. }
    pose proof (need_join (S d) id (dump (S d)) l H). destruct l as [|j l]; [cbn; lia|].
    cbn [dumps_at length]. rewrite !length_app. cbn in *. lia.
  - apply json_wf_obj in Hwf as [_ Hwf].
    assert (Forall (fun kv => (need kv.2 <= length (member (S d) kv))%nat) kvs) as H.
    { eapply Forall_impl; [exact (List.Forall_and IH Hwf)|]. intros [k j] [H1 H2].
      cbn -[length dump_str] in *. specialize (H1 (S d) H2).
      rewrite length_app. cbn [length]. rewrite length_app. lia. }
    pose proof (need_join (S d) snd _ kvs H). destruct kvs as [|kv kvs]; [cbn; lia|].
    cbn [dumps_at length]. rewrite !length_app. cbn in *. lia.
Qed.

Lemma loads_dumps_at d j : json_wf j -> loads (dump d j) = Some j.
Proof using Hpad Hsep Hksp.
  intros Hwf. unfold loads.
  assert (Hsk : skip_ws (dump d j) = dump d j).
  { destruct (dump_head d j Hwf) as (c & r & -> & Hc & _). cbn. by rewrite Hc. }
  rewrite Hsk. pose proof (parse_dump j Hwf d (S (length (dump d j))) []) as H.
  rewrite app_nil_r in H. rewrite H; [done| |done]. pose proof (need_length d j Hwf). lia.
Qed.

(** A line that ends with its line break. *)
Lemma loads_dumps_line_at d j : json_wf j -> loads (dump d j ++ [NL]) = Some j.
Proof using Hpad Hsep Hksp.
  intros Hwf. unfold loads.
  assert (Hsk : skip_ws (dump d j ++ [NL]) = dump d j ++ [NL]).
  { destruct (dump_head d j Hwf) as (c & r & -> & Hc & _). cbn. by rewrite Hc. }
  rewrite Hsk. rewrite (parse_dump j Hwf d (S (length (dump d j ++ [NL]))) [NL]); [done| |].
  - pose proof (need_length d j Hwf). rewrite length_app. lia.
  - split; [done|]. vm_compute. done.
Qed.
End RoundTrip.

Lemma dumps_with_at sp d j : dumps_with sp j = dumps_at (fun _ => []) (fun _ => sp) sp d j.
Proof.
  revert d. induction j as [|b|n|r|t|l IH|kvs IH] using json_ind'; intros d; try done.
  - destruct l as [|j l]; [done|]. cbn [dumps_with dumps_at app]. do 3 f_equal.
    apply map_ext_Forall. eapply Forall_impl; [exact IH|]. auto.
  - destruct kvs as [|kv kvs]; [done|]. cbn [dumps_with dumps_at app]. do 3 f_equal.
    apply map_ext_Forall. eapply Forall_impl; [exact IH|]. cbn. intros kv' H. by rewrite <- H.
Qed.

Lemma loads_dumps_with sp j :
  Forall (fun c => is_ws c = true) sp -> json_wf j -> loads (dumps_with sp j) = Some j.
Proof. intros Hsp Hwf. rewrite (dumps_with_at sp 0). by apply loads_dumps_at. Qed.

Lemma line_start_ws d : Forall (fun c => is_ws c = true) (line_start d).
Proof. constructor; [done|]. by apply Forall_replicate. Qed.

Lemma loads_dumps_indent j : json_wf j -> loads (dumps_indent j) = Some j.
Proof. intros Hwf. apply loads_dumps_at; [apply line_start_ws|apply line_start_ws|by repeat constructor|done]. Qed.

Lemma loads_dumps j : json_wf j -> loads (dumps j) = Some j.
Proof. apply loads_dumps_with. by repeat constructor. Qed.

Lemma loads_dumps_compact j : json_wf j -> loads (dumps_compact j) = Some j.
Proof. apply loads_dumps_with. constructor. Qed.

Lemma loads_dumps_compact_line j : json_wf j -> loads (dumps_compact j ++ [NL]) = Some j.
Proof. unfold dumps_compact. rewrite (dumps_with_at [] 0). apply loads_dumps_line_at; by intros; constructor. Qed.

(** ** What is written is one line of printable ASCII *)

Definition is_printable (c : ascii) : bool := (32 <=? code c) && (code c <=? 126).
Definition printable (t : text) : Prop := Forall (fun c => is_printable c = true) t.

Lemma printable_no_break t : printable t -> no_break t.
Proof.
  intros H. eapply Forall_impl; [exact H|]. intros c. cbn. unfold is_printable, is_linebreak.
  intros Hc. boolP. repeat (apply orb_false_iff; split);
    rewrite ?andb_false_iff, ?Z.leb_gt, ?Z.eqb_neq; lia.
Qed.

Lemma alnum_printable t : alnum t -> printable t.
Proof.
  intros H. eapply Forall_impl; [exact H|]. intros c. cbn. unfold is_alnum, is_printable.
  intros Hc. repeat (apply orb_true_iff in Hc as [Hc|Hc]); boolP;
    apply andb_true_iff; rewrite !Z.leb_le; lia.
Qed.

Lemma show_Z_printable n : printable (show_Z n).
Proof.
  unfold show_Z. case_match; boolP.
  - constructor; [done|]. apply alnum_printable, show_alnum; lia.
  - apply alnum_printable, show_alnum; lia.
Qed.

Lemma dump_str_printable t : printable (dump_str t).
Proof.
  unfold dump_str. constructor; [done|]. apply Forall_app. split; [|by repeat constructor].
  induction t as [|c t IH]; [constructor|]. cbn. apply Forall_app. split; [|exact IH].
  clear. destruct c as [[] [] [] [] [] [] [] []]; repeat constructor.
Qed.

Lemma join_printable sep ls :
  printable sep -> Forall printable ls -> printable (join sep ls).
Proof.
  intros Hs H. induction H as [|l ls Hl Hls IH]; [constructor|].
  destruct ls; [done|]. cbn. apply Forall_app. split; [done|]. by apply Forall_app.
Qed.

Lemma dumps_with_printable sp j : printable sp -> json_wf j -> printable (dumps_with sp j).
Proof.
  intros Hsp. assert (Hsep : printable (","%char :: sp)) by (constructor; done).
  induction j as [|b|n|r|t|l IH|kvs IH] using json_ind'; intros Hwf.
  - by repeat constructor.
  - destruct b; by repeat constructor.
  - apply show_Z_printable.
  - done.
  - apply dump_str_printable.
  - apply json_wf_arr in Hwf. cbn. constructor; [done|]. apply Forall_app.
    split; [|by repeat constructor]. apply join_printable; [done|].
    apply Forall_map. eapply Forall_impl; [exact (List.Forall_and IH Hwf)|]. cbn. tauto.
  - apply json_wf_obj in Hwf as [_ Hwf]. cbn [dumps_with]. constructor; [done|]. apply Forall_app.
    split; [|by repeat constructor]. apply join_printable; [done|].
    apply Forall_map. eapply Forall_impl; [exact (List.Forall_and IH Hwf)|].
    intros [k v] [H1 H2]. cbn [fst snd] in *. apply Forall_app.
    split; [apply dump_str_printable|].
    constructor; [done|]. apply Forall_app. split; [done|]. by apply H1.
Qed.

(** ** Reading is decided by what has been read

    If a text that opens an object is accepted, so is every longer text, with
    the extra characters left over.  Hence no proper beginning of a written
    object is itself a JSON document. *)

Definition stops (t : text) : Prop :=
  match t with
  | c :: _ => is_ws c = true \/ code c = 44 \/ code c = 93 \/ code c = 125
  | [] => False
  end.

Lemma skip_ws_extend t u c r : skip_ws t = c :: r -> skip_ws (t ++ u) = c :: r ++ u.
Proof.
  induction t as [|d t IH]; cbn; [done|]. destruct (is_ws d); [apply IH|].
  intros. by simplify_eq.
Qed.

Lemma parse_chars_extend t u s rest :
  parse_chars t = Some (s, rest) -> parse_chars (t ++ u) = Some (s, rest ++ u).
Proof.
  revert s rest. induction t as [t IH] using (induction_ltof1 _ (@length ascii)).
  unfold ltof in IH. intros s rest. destruct t as [|c r]; [done|]. cbn.
  destruct (code c =? 34); [intros; by simplify_eq|].
  destruct (code c =? 92).
  - destruct r as [|e r]; [done|]. cbn. destruct (simple_escape e) as [x|].
    + destruct (parse_chars r) as [[s' rest']|] eqn:Hr; cbn; intros; simplify_eq.
      by rewrite (IH r ltac:(cbn; lia) _ _ Hr).
    + destruct (code e =? 117); [|done]. destruct r as [|h1 [|h2 [|h3 [|h4 r]]]]; try done. cbn.
      destruct (hex_digit h1), (hex_digit h2), (hex_digit h3), (hex_digit h4); try done. cbn.
      case_match; [|done].
      destruct (parse_chars r) as [[s' rest']|] eqn:Hr; cbn; intros; simplify_eq.
      by rewrite (IH r ltac:(cbn; lia) _ _ Hr).
  - destruct (code c <? 32); [done|].
    destruct (parse_chars r) as [[s' rest']|] eqn:Hr; cbn; intros; simplify_eq.
    by rewrite (IH r ltac:(cbn; lia) _ _ Hr).
Qed.

Lemma take_digits_extend t u ds c r :
  take_digits t = (ds, c :: r) -> take_digits (t ++ u) = (ds, c :: r ++ u).
Proof.
  revert ds. induction t as [|d t IH]; intros ds; cbn; [intros; by simplify_eq|].
  destruct (dec_digit d); [|intros; by simplify_eq].
  destruct (take_digits t) as [ds' t'] eqn:Ht. intros. simplify_eq.
  by rewrite (IH _ eq_refl).
Qed.

Lemma stops_no_number t : stops t ->
  take_frac t = ([], t) /\ take_exp t = ([], t).
Proof.
  intros H. apply take_none. destruct t as [|c t]; [done|]. cbn in *.
  unfold dec_digit, is_ws in *.
  assert (code c = 32 \/ code c = 9 \/ code c = 10 \/ code c = 13 \/
          code c = 44 \/ code c = 93 \/ code c = 125) as Hc.
  { destruct H as [H|H]; [|tauto].
    repeat (apply orb_true_iff in H as [H|H]); apply Z.eqb_eq in H; tauto. }
  destruct Hc as [->|[->|[->|[->|[->|[->| ->]]]]]]; cbn; repeat split; lia.
Qed.

Lemma stops_app t u : stops t -> stops (t ++ u).
Proof. by destruct t. Qed.

Lemma take_frac_extend t u fr t3 :
  take_frac t = (fr, t3) -> t3 <> [] -> (fr = [] -> take_exp t3 = ([], t3) -> stops t3) ->
  (fr <> [] \/ stops t3 \/ take_exp t3 <> ([], t3)) ->
  take_frac (t ++ u) = (fr, t3 ++ u).
Proof.
  destruct t as [|d t]; cbn; [by intros; simplify_eq|].
  destruct (code d =? 46) eqn:Hd; [|intros; by simplify_eq].
  destruct (take_digits t) as [[|x ds] rest] eqn:Ht; intros Heq Hne Hst Hor; simplify_eq.
  - exfalso. apply Z.eqb_eq in Hd.
    assert (take_exp (d :: t) = ([], d :: t)) as He by (cbn; by rewrite Hd).
    specialize (Hst eq_refl He). apply stops_no_number in Hst as [Hf _].
    destruct Hor as [|[Hs|]]; [done| |done]. cbn in Hs. unfold is_ws in Hs. rewrite Hd in Hs.
    cbn in Hs. destruct Hs as [|[|[|]]]; (done || lia).
  - destruct t3 as [|c r]; [done|]. by rewrite (take_digits_extend _ _ _ _ _ Ht).
Qed.

Lemma take_exp_extend t u ex t4 :
  take_exp t = (ex, t4) -> stops t4 -> take_exp (t ++ u) = (ex, t4 ++ u).
Proof.
  intros He Hs. destruct t4 as [|c r]; [done|]. destruct ex as [|e0 ex].
  - assert (t = c :: r) as ->.
    { revert He. destruct t as [|d t]; cbn; [done|]. repeat case_match; intros; by simplify_eq. }
    by apply (stops_no_number ((c :: r) ++ u)), stops_app.
  - revert He. destruct t as [|d t]; cbn -[take_digits]; [done|].
    destruct ((code d =? 101) || (code d =? 69)); [|done].
    destruct t as [|e t]; [done|]. cbn -[take_digits].
    destruct ((code e =? 43) || (code e =? 45)).
    + destruct (take_digits t) as [[|x ds] rest] eqn:Ht; [done|]. intros. simplify_eq.
      by rewrite (take_digits_extend _ _ _ _ _ Ht).
    + destruct (take_digits (e :: t)) as [[|x ds] rest] eqn:Ht; [done|]. intros. simplify_eq.
      pose proof (take_digits_extend _ u _ _ _ Ht) as Hx.
      cbn [app] in Hx. by rewrite Hx.
Qed.

Lemma parse_unsigned_extend neg t u v rest :
  parse_unsigned neg t = Some (v, rest) -> stops rest ->
  parse_unsigned neg (t ++ u) = Some (v, rest ++ u).
Proof.
  destruct t as [|c r]; [done|]. intros Hp Hs.
  assert (exists ds t2 fr t3 ex,
    (if code c =? 48 then ([c], r) else take_digits (c :: r)) = (ds, t2) /\ ds <> [] /\
    take_frac t2 = (fr, t3) /\ take_exp t3 = (ex, rest)) as (ds & t2 & fr & t3 & ex & H1 & Hne & H2 & H3).
  { unfold parse_unsigned in Hp. destruct (if code c =? 48 then _ else _) as [ds t2].
    destruct ds; [done|]. destruct (take_frac t2) as [fr t3] eqn:H2.
    destruct (take_exp t3) as [ex t4] eqn:H3.
    eexists _, _, _, _, _. split; [done|]. split; [done|]. split; [done|].
    by destruct fr, ex; simplify_eq. }
  assert (Ht3 : t3 <> []) by (intros ->; cbn in H3; by simplify_eq).
  assert (Ht2 : t2 <> []) by (intros ->; cbn in H2; by simplify_eq).
  assert (H1' : (if code c =? 48 then ([c], r ++ u) else take_digits (c :: r ++ u)) = (ds, t2 ++ u)).
  { destruct (code c =? 48); [by simplify_eq|]. destruct t2 as [|x t2]; [done|].
    apply (take_digits_extend (c :: r) u _ _ _ H1). }
  assert (H2' : take_frac (t2 ++ u) = (fr, t3 ++ u)).
  { apply take_frac_extend; [done|done| |].
    - intros -> He. rewrite H3 in He. by simplify_eq.
    - destruct (decide (ex = [])) as [->|]; [|right; right; congruence].
      assert (t3 = rest) as ->; [|by right; left].
      revert H3. destruct t3 as [|d t]; cbn; [done|]. repeat case_match; intros; by simplify_eq. }
  pose proof (take_exp_extend _ u _ _ H3 Hs) as H3'.
  unfold parse_unsigned in *. cbn [app]. rewrite H1'. rewrite H1 in Hp.
  destruct ds; [done|]. rewrite H2'. rewrite H2 in Hp. rewrite H3'. rewrite H3 in Hp.
  by destruct fr, ex; simplify_eq.
Qed.

Lemma startswith_extend p t u : startswith p t = true -> startswith p (t ++ u) = true.
Proof. rewrite !startswith_spec. intros [r ->]. exists (r ++ u). by rewrite app_assoc. Qed.

Lemma eat_extend lit v t u v' rest :
  eat lit v t = Some (v', rest) -> eat lit v (t ++ u) = Some (v', rest ++ u).
Proof.
  unfold eat. destruct (startswith (str lit) t) eqn:Hs; [|done]. intros. simplify_eq.
  rewrite (startswith_extend _ _ _ Hs). apply startswith_spec in Hs as [r ->].
  by rewrite <- app_assoc, !drop_app_length.
Qed.

Lemma eat_first lit v t v' rest :
  eat lit v t = Some (v', rest) ->
  match str lit with c :: _ => exists r, t = c :: r | [] => True end.
Proof.
  unfold eat. destruct (startswith (str lit) t) eqn:Hs; [|done]. intros _.
  apply startswith_spec in Hs as [r ->]. destruct (str lit); [done|]. cbn. eauto.
Qed.

Lemma parse_number_extend t u v rest :
  parse_number t = Some (v, rest) -> stops rest ->
  parse_number (t ++ u) = Some (v, rest ++ u).
Proof.
  destruct t as [|c r]; [done|]. cbn -[parse_unsigned]. intros Hp Hs.
  destruct (code c =? 45); by apply (parse_unsigned_extend _ _ u) in Hp.
Qed.

Lemma parse_number_first t v rest :
  parse_number t = Some (v, rest) ->
  exists c r, t = c :: r /\ (dec_digit c <> None \/ exists d r', c = "-"%char /\ r = d :: r' /\ dec_digit d <> None).
Proof.
  assert (Hu : forall neg t v rest, parse_unsigned neg t = Some (v, rest) ->
    exists c r, t = c :: r /\ dec_digit c <> None).
  { intros neg t' v' rest'. destruct t' as [|c r]; [done|]. unfold parse_unsigned.
    destruct (code c =? 48) eqn:H48.
    - intros _. eexists _, _. split; [done|]. unfold dec_digit. apply Z.eqb_eq in H48.
      by rewrite H48.
    - intros Hp. eexists _, _. split; [done|]. intros Hd. cbn in Hp. by rewrite Hd in Hp. }
  destruct t as [|c r]; [done|]. cbn -[parse_unsigned]. destruct (code c =? 45) eqn:H45.
  - intros Hp. apply Hu in Hp as (d & r' & -> & Hd). eexists _, _. split; [done|]. right.
    eexists _, _. split; [|done]. apply code_inj. by apply Z.eqb_eq in H45.
  - intros Hp. apply Hu in Hp as (d & r' & Heq & Hd). simplify_eq. eauto.
Qed.

Lemma eat_none_extend lit v c t u :
  (match str lit with a :: _ => a <> c | [] => False end) ->
  eat lit v (c :: t) = None /\ eat lit v ((c :: t) ++ u) = None.
Proof. intros H. split; by apply eat_ne. Qed.

#[local] Ltac solve_eat E :=
  simplify_eq;
  let F := fresh in
  pose proof (eat_first _ _ _ _ _ E) as F; cbn in F; destruct F as [r ->];
  match type of E with eat _ _ (_ :: ?r) = _ =>
    match goal with |- context [_ ++ ?u] =>
      apply (eat_extend _ _ _ u) in E; cbn [app] in *;
      rewrite ?(eat_ne _ "null"), ?(eat_ne _ "true"), ?(eat_ne _ "false"),
        ?(eat_ne _ "NaN"), ?(eat_ne _ "Infinity") by done;
      by rewrite E
    end
  end.

Lemma parse_atom_extend t u v rest :
  parse_atom t = Some (v, rest) -> stops rest -> parse_atom (t ++ u) = Some (v, rest ++ u).
Proof.
  intros Hp Hs. unfold parse_atom in *.
  destruct (eat "null" JNull t) as [[]|] eqn:E1; [solve_eat E1|].
  destruct (eat "true" (JBool true) t) as [[]|] eqn:E2; [solve_eat E2|].
  destruct (eat "false" (JBool false) t) as [[]|] eqn:E3; [solve_eat E3|].
  destruct (eat "NaN" _ t) as [[]|] eqn:E4; [solve_eat E4|].
  destruct (eat "Infinity" _ t) as [[]|] eqn:E5; [solve_eat E5|].
  destruct (eat "-Infinity" _ t) as [[]|] eqn:E6; [solve_eat E6|].
  destruct (parse_number_first _ _ _ Hp) as (c & r & -> & Hc).
  apply (parse_number_extend _ u) in Hp; [|done].
  destruct Hc as [Hc | (d & r' & -> & -> & Hd)].
  - apply dec_digit_range in Hc. cbn [app] in *.
    rewrite !(eat_ne c) by (cbn; intros <-; vm_compute in Hc; by destruct Hc). done.
  - cbn [app] in *. rewrite !(eat_ne "-"%char) by done. unfold eat at 1. cbn.
    apply dec_digit_range in Hd.
    rewrite (bool_decide_eq_false_2 ("I"%char = d)) by (intros <-; vm_compute in Hd; by destruct Hd).
    done.
Qed.

Definition opens (t : text) : Prop :=
  match t with c :: _ => code c = 34 \/ code c = 123 \/ code c = 91 | [] => False end.

Lemma stops_cons e r :
  (is_ws e = true \/ code e = 44 \/ code e = 93 \/ code e = 125) -> stops (e :: r).
Proof. done. Qed.

(** Text that starts with white space, a comma or a closer stops a value. *)
Lemma skip_ws_stops r3 e r4 :
  skip_ws r3 = e :: r4 -> code e = 44 \/ code e = 93 \/ code e = 125 -> stops r3.
Proof.
  destruct r3 as [|c r]; cbn; [done|]. destruct (is_ws c); [by left|].
  intros. simplify_eq. by right.
Qed.

Lemma parse_extend fuel :
  (forall t u v rest, parse_value fuel t = Some (v, rest) -> opens t \/ stops rest ->
     parse_value fuel (t ++ u) = Some (v, rest ++ u)) /\
  (forall t u v rest, parse_members fuel t = Some (v, rest) ->
     parse_members fuel (t ++ u) = Some (v, rest ++ u)) /\
  (forall t u v rest, parse_elems fuel t = Some (v, rest) ->
     parse_elems fuel (t ++ u) = Some (v, rest ++ u)).
Proof.
  induction fuel as [|f (IHv & IHm & IHe)]; [done|]. split_and!.
  - intros t u v rest. destruct t as [|c r]; [done|]. cbn -[parse_atom].
    destruct (code c =? 34) eqn:H34.
    { destruct (parse_chars r) as [[s r1]|] eqn:Hc; [|done]. cbn. intros. simplify_eq.
      by rewrite (parse_chars_extend _ u _ _ Hc). }
    destruct (code c =? 123) eqn:H123.
    { destruct (skip_ws r) as [|d r'] eqn:Hr; [done|].
      rewrite (skip_ws_extend _ u _ _ Hr). destruct (code d =? 125); [intros; by simplify_eq|].
      destruct (parse_members f (d :: r')) as [[kvs r1]|] eqn:Hm; [|done]. cbn. intros. simplify_eq.
      change (d :: r' ++ u) with ((d :: r') ++ u). by rewrite (IHm _ u _ _ Hm). }
    destruct (code c =? 91) eqn:H91.
    { destruct (skip_ws r) as [|d r'] eqn:Hr; [done|].
      rewrite (skip_ws_extend _ u _ _ Hr). destruct (code d =? 93); [intros; by simplify_eq|].
      destruct (parse_elems f (d :: r')) as [[l r1]|] eqn:Hm; [|done]. cbn. intros. simplify_eq.
      change (d :: r' ++ u) with ((d :: r') ++ u). by rewrite (IHe _ u _ _ Hm). }
    intros Hp [Ho|Hs]; [boolP; cbn in Ho; lia|].
    by apply (parse_atom_extend (c :: r) u).
  - intros t u kvs rest. destruct t as [|c r]; [done|]. cbn.
    destruct (code c =? 34); [|done].
    destruct (parse_chars r) as [[k r1]|] eqn:Hc; [|done]. rewrite (parse_chars_extend _ u _ _ Hc). cbn.
    destruct (skip_ws r1) as [|d r2] eqn:Hr1; [done|]. rewrite (skip_ws_extend _ u _ _ Hr1).
    destruct (code d =? 58); [|done].
    destruct (parse_value f (skip_ws r2)) as [[v r3]|] eqn:Hv; [|done]. cbn.
    destruct (skip_ws r3) as [|e r4] eqn:Hr3; [done|]. intros Hrest.
    assert (Hs : stops r3).
    { eapply skip_ws_stops; [exact Hr3|]. destruct (code e =? 125) eqn:H1; [boolP; lia|].
      destruct (code e =? 44) eqn:H2; [boolP; lia|done]. }
    assert (Hsk : skip_ws (r2 ++ u) = skip_ws r2 ++ u).
    { destruct (skip_ws r2) as [|x r2'] eqn:Hr2; [by destruct f|].
      by rewrite (skip_ws_extend _ u _ _ Hr2). }
    rewrite Hsk, (IHv _ u _ _ Hv) by (by right). cbn. rewrite (skip_ws_extend _ u _ _ Hr3).
    destruct (code e =? 125); [by simplify_eq|]. destruct (code e =? 44); [|done].
    destruct (parse_members f (skip_ws r4)) as [[kvs' rest']|] eqn:Hm; [|done]. cbn in Hrest. simplify_eq.
    assert (Hsk4 : skip_ws (r4 ++ u) = skip_ws r4 ++ u).
    { destruct (skip_ws r4) as [|x r4'] eqn:Hr4; [by destruct f|].
      by rewrite (skip_ws_extend _ u _ _ Hr4). }
    by rewrite Hsk4, (IHm _ u _ _ Hm).
  - intros t u l rest. cbn. destruct (parse_value f t) as [[v r3]|] eqn:Hv; [|done]. cbn.
    destruct (skip_ws r3) as [|e r4] eqn:Hr3; [done|]. intros Hrest.
    assert (Hs : stops r3).
    { eapply skip_ws_stops; [exact Hr3|]. destruct (code e =? 93) eqn:H1; [boolP; lia|].
      destruct (code e =? 44) eqn:H2; [boolP; lia|done]. }
    rewrite (IHv _ u _ _ Hv) by (by right). cbn. rewrite (skip_ws_extend _ u _ _ Hr3).
    destruct (code e =? 93); [by simplify_eq|]. destruct (code e =? 44); [|done].
    destruct (parse_elems f (skip_ws r4)) as [[vs' rest']|] eqn:Hm; [|done]. cbn in Hrest. simplify_eq.
    assert (Hsk4 : skip_ws (r4 ++ u) = skip_ws r4 ++ u).
    { destruct (skip_ws r4) as [|x r4'] eqn:Hr4; [by destruct f as [|[|f]]|].
      by rewrite (skip_ws_extend _ u _ _ Hr4). }
    by rewrite Hsk4, (IHe _ u _ _ Hm).
Qed.

Lemma parse_more_fuel fuel fuel' : (fuel <= fuel')%nat ->
  (forall t r, parse_value fuel t = Some r -> parse_value fuel' t = Some r) /\
  (forall t r, parse_members fuel t = Some r -> parse_members fuel' t = Some r) /\
  (forall t r, parse_elems fuel t = Some r -> parse_elems fuel' t = Some r).
Proof.
  revert fuel'. induction fuel as [|f IH]; intros fuel' Hle; [done|].
  destruct fuel' as [|f']; [lia|]. destruct (IH f' ltac:(lia)) as (IHv & IHm & IHe).
  split_and!; intros t r; cbn -[parse_atom].
  - destruct t as [|c t]; [done|]. destruct (code c =? 34); [done|].
    destruct (code c =? 123).
    { destruct (skip_ws t) as [|d t']; [done|]. destruct (code d =? 125); [done|].
      destruct (parse_members f (d :: t')) as [[kvs rest]|] eqn:Hm; [|done].
      by rewrite (IHm _ _ Hm). }
    destruct (code c =? 91); [|done].
    destruct (skip_ws t) as [|d t']; [done|]. destruct (code d =? 93); [done|].
    destruct (parse_elems f (d :: t')) as [[l rest]|] eqn:Hm; [|done]. by rewrite (IHe _ _ Hm).
  - destruct t as [|c t]; [done|]. case_match; [|done].
    destruct (parse_chars t) as [[k r1]|]; [|done]. cbn. destruct (skip_ws r1); [done|].
    case_match; [|done]. destruct (parse_value f _) as [[v r3]|] eqn:Hv; [|done].
    rewrite (IHv _ _ Hv). cbn. destruct (skip_ws r3); [done|]. repeat case_match; try done.
    destruct (parse_members f _) as [[]|] eqn:Hm; [|done]. by rewrite (IHm _ _ Hm).
  - destruct (parse_value f _) as [[v r3]|] eqn:Hv; [|done].
    rewrite (IHv _ _ Hv). cbn. destruct (skip_ws r3); [done|]. repeat case_match; try done.
    destruct (parse_elems f _) as [[]|] eqn:Hm; [|done]. by rewrite (IHe _ _ Hm).
Qed.

(** No proper beginning of a written object is a JSON document. *)
Lemma loads_prefix sp kvs p u :
  Forall (fun c => is_ws c = true) sp -> json_wf (JObj kvs) ->
  dumps_with sp (JObj kvs) = p ++ u -> u <> [] -> loads p = None.
Proof.
  intros Hsp Hwf Heq Hu. unfold loads. destruct p as [|c p]; [done|].
  assert (c = "{"%char) as -> by (cbn in Heq; by simplify_eq).
  change (skip_ws ("{"%char :: p)) with ("{"%char :: p).
  destruct (parse_value (S (length ("{"%char :: p))) ("{"%char :: p)) as [[v rest]|] eqn:Hp; [|done].
  exfalso. pose proof (proj1 (parse_extend _) _ u _ _ Hp) as Hx.
  rewrite <- Heq in Hx. specialize (Hx ltac:(left; cbn; auto)).
  set (F := S (length (dumps_with sp (JObj kvs)))).
  assert (HF : (S (length ("{"%char :: p)) <= F)%nat).
  { unfold F. rewrite Heq, length_app. lia. }
  apply (proj1 (parse_more_fuel _ F HF)) in Hx.
  pose proof (parse_dump (fun _ => []) (fun _ => sp) sp ltac:(done) ltac:(done) Hsp (JObj kvs) Hwf 0%nat F []) as Hd.
  rewrite app_nil_r, <- dumps_with_at in Hd.
  rewrite Hd in Hx; [|pose proof (need_length (fun _ => []) (fun _ => sp) sp 0%nat (JObj kvs) Hwf) as Hn;
    rewrite <- dumps_with_at in Hn; subst F; lia|done].
  apply Hu. simplify_eq. by destruct rest.
Qed.

#[global] Arguments dumps : simpl never.
#[global] Arguments dumps_compact : simpl never.
#[global] Arguments dumps_indent : simpl never.
#[global] Arguments loads : simpl never.
