(* ===== verification/AgentLedger.v ===== *)
(** * The agent's idempotency ledger and its dispatcher

    Models [nebula_agent/ledger.py] and [nebula_agent/api/_dispatch.py]: the
    append-only JSON-Lines file with its in-memory replay, compaction, and the
    dispatcher that answers a repeated request from it.  The file is its text;
    a process killed while appending leaves any beginning of the line. *)

From S2P Require Import Prelude PyText Json.

Module Ledger.

(** What a JSON value is as a dict key: [None] for the unhashable ones;
    [True] and [1] are the same key. *)
Inductive hkey := HStr (t : text) | HInt (n : Z) | HFloat (raw : text) | HNull.

#[global] Instance hkey_eq_dec : EqDecision hkey.
Proof. solve_decision. Defined.

Definition hash_key (j : json) : option hkey :=
  match j with
  | JStr t => Some (HStr t)
  | JInt n => Some (HInt n)
  | JBool b => Some (HInt (if b then 1 else 0))
  | JFloat r => Some (HFloat r)
  | JNull => Some HNull
  | JArr _ | JObj _ => None
  end.

(** [LedgerEntry]: an unvalidated dataclass, so a field read from the file
    can be any JSON value. *)
Record LedgerEntry := {
  idempotency_key : json;
  operation_kind : json;
  target_id : json;
  applied_generation : json;
  response_json : json;
}.

Definition entry_fields : list text :=
  [str "idempotency_key"; str "operation_kind"; str "target_id";
   str "applied_generation"; str "response_json"].

(** [asdict(entry)] *)
Definition asdict (e : LedgerEntry) : json :=
  JObj (zip entry_fields
    [idempotency_key e; operation_kind e; target_id e; applied_generation e; response_json e]).

Definition same_keys (ks1 ks2 : list text) : bool :=
  forallb (fun k => bool_decide (k ∈ ks2)) ks1 && forallb (fun k => bool_decide (k ∈ ks1)) ks2.

Definition _parse_entry (line : text) : option LedgerEntry :=
  match loads line with
  | Some (JObj payload) =>
      if same_keys payload.*1 entry_fields then
        a ← dict_get (str "idempotency_key") payload;
        b ← dict_get (str "operation_kind") payload;
        c ← dict_get (str "target_id") payload;
        d ← dict_get (str "applied_generation") payload;
        e ← dict_get (str "response_json") payload;
        Some {| idempotency_key := a; operation_kind := b; target_id := c;
                applied_generation := d; response_json := e |}
      else None
  | _ => None
  end.

Inductive exn := TypeError | KeyError.

#[global] Instance exn_eq_dec : EqDecision exn.
Proof. solve_decision. Defined.

(** [OperationLedger]; [file] is the text at [_path], [None] if absent. *)
Record OperationLedger := {
  file : option text;
  max_entries : Z;
  entries : list (hkey * LedgerEntry);
  order : list hkey;
}.

(** The two statements that file an entry under its key. *)
Definition insert_entry (k : hkey) (e : LedgerEntry)
    (mem : list (hkey * LedgerEntry) * list hkey) : list (hkey * LedgerEntry) * list hkey :=
  let '(es, ord) := mem in
  (dict_set k e es, match dict_get k es with None => ord ++ [k] | Some _ => ord end).

(** One turn of the loop in [_load]; the counter is of skipped lines. *)
Definition load_line (acc : list (hkey * LedgerEntry) * list hkey * nat) (line : text) :
    result exn (list (hkey * LedgerEntry) * list hkey * nat) :=
  let '(mem, skipped) := acc in
  match strip line with
  | [] => Ok acc
  | _ =>
      match _parse_entry line with
      | None => Ok (mem, S skipped)
      | Some e =>
          match hash_key (idempotency_key e) with
          | None => Err TypeError
          | Some k => Ok (insert_entry k e mem, skipped)
          end
      end
  end.

Fixpoint load_lines (acc : list (hkey * LedgerEntry) * list hkey * nat) (lines : list text) :
    result exn (list (hkey * LedgerEntry) * list hkey * nat) :=
  match lines with
  | [] => Ok acc
  | l :: ls => acc' ← load_line acc l; load_lines acc' ls
  end.

(** [OperationLedger.__init__] with [_load]. *)
Definition _load (f : option text) : result exn (list (hkey * LedgerEntry) * list hkey * nat) :=
  match f with
  | None => Ok ([], [], O)
  | Some t => load_lines ([], [], O) (splitlines t)
  end.

Definition open_ledger (f : option text) (max : Z) : result exn OperationLedger :=
  '(es, ord, _) ← _load f;
  Ok {| file := f; max_entries := max; entries := es; order := ord |}.

(** [lookup(idempotency_key)], the key already [str]. *)
Definition lookup (key : text) (L : OperationLedger) : option LedgerEntry :=
  dict_get (HStr key) (entries L).

Definition line_of (e : LedgerEntry) : text := dumps (asdict e) ++ [NL].

Definition _append_to_disk (e : LedgerEntry) (L : OperationLedger) : OperationLedger :=
  {| file := Some (default [] (file L) ++ line_of e); max_entries := max_entries L;
     entries := entries L; order := order L |}.

(** [_rewrite]: the file becomes the lines of [_entries[key] for key in _order]. *)
Definition _rewrite (L : OperationLedger) : result exn OperationLedger :=
  match mapM (fun k => dict_get k (entries L)) (order L) with
  | None => Err KeyError
  | Some es =>
      Ok {| file := Some (concat (line_of <$> es)); max_entries := max_entries L;
            entries := entries L; order := order L |}
  end.

Definition _compact_if_needed (L : OperationLedger) : result exn OperationLedger :=
  if Z.of_nat (length (order L)) <=? max_entries L then Ok L
  else
    let overflow := Z.to_nat (Z.of_nat (length (order L)) - max_entries L) in
    _rewrite {| file := file L; max_entries := max_entries L;
                entries := foldl (fun es k => dict_pop k es) (entries L) (take overflow (order L));
                order := drop overflow (order L) |}.

Definition new_entry (key kind target : text) (generation : Z) (response : text) : LedgerEntry :=
  {| idempotency_key := JStr key; operation_kind := JStr kind; target_id := JStr target;
     applied_generation := JInt generation; response_json := JStr response |}.

Definition record (key kind target : text) (generation : Z) (response : text)
    (L : OperationLedger) : result exn OperationLedger :=
  let e := new_entry key kind target generation response in
  let '(es, ord) := insert_entry (HStr key) e (entries L, order L) in
  _compact_if_needed (_append_to_disk e
    {| file := file L; max_entries := max_entries L; entries := es; order := ord |}).

(** ** Reading back what was written *)

(** An entry [record] writes: typed fields. *)
Definition own (e : LedgerEntry) : Prop :=
  exists key kind target generation response, e = new_entry key kind target generation response.

Lemma own_new key kind target g r : own (new_entry key kind target g r).
Proof. by exists key, kind, target, g, r. Qed.

Definition key_of (e : LedgerEntry) : hkey := default HNull (hash_key (idempotency_key e)).

(** What a file with these lines replays to. *)
Definition replay (es : list LedgerEntry) : list (hkey * LedgerEntry) * list hkey :=
  foldl (fun mem e => insert_entry (key_of e) e mem) ([], []) es.

Definition render (es : list LedgerEntry) : text := concat (line_of <$> es).

Lemma asdict_wf e : own e -> json_wf (asdict e).
Proof.
  intros (key & kind & target & g & r & ->). split; [|by repeat split].
  apply (bool_decide_unpack _). by vm_compute.
Qed.

Lemma parse_entry_dumps e : own e -> _parse_entry (dumps (asdict e)) = Some e.
Proof.
  intros He. unfold _parse_entry. rewrite loads_dumps by by apply asdict_wf.
  destruct He as (key & kind & target & g & r & ->). reflexivity.
Qed.

Lemma line_no_break e : own e -> no_break (dumps (asdict e)).
Proof.
  intros He. apply printable_no_break, dumps_with_printable; [by repeat constructor|].
  by apply asdict_wf.
Qed.

Lemma line_starts e : exists r, dumps (asdict e) = "{"%char :: r.
Proof. eexists. reflexivity. Qed.

Lemma break_lines_render es p :
  Forall own es -> no_break p ->
  break_lines (render es ++ p) = ((fun e => dumps (asdict e)) <$> es) ++ [p].
Proof.
  intros H Hp. induction H as [|e es He _ IH]; [by apply break_lines_none|].
  change (render (e :: es)) with (line_of e ++ render es). unfold line_of.
  rewrite <- !app_assoc. cbn [app]. rewrite break_lines_app by by apply line_no_break.
  by rewrite IH.
Qed.

Lemma load_line_own mem n e :
  own e -> load_line (mem, n) (dumps (asdict e)) = Ok (insert_entry (key_of e) e mem, n).
Proof.
  intros He. unfold load_line. destruct (line_starts e) as [r Hr].
  assert (exists x y, strip (dumps (asdict e)) = x :: y) as (x & y & ->).
  { rewrite Hr. unfold strip. rewrite lstrip_id by done. unfold rstrip.
    destruct (reverse (lstrip (reverse ("{"%char :: r)))) eqn:Hx; [|eauto].
    exfalso. apply (f_equal reverse) in Hx. rewrite reverse_involutive in Hx.
    rewrite reverse_cons in Hx. revert Hx. generalize (reverse r). intros l.
    induction l as [|c l IH]; cbn; [done|]. destruct (is_space c); [done|]. done. }
  rewrite parse_entry_dumps by done.
  by destruct He as (key & kind & target & g & rr & ->).
Qed.

Lemma load_lines_own es mem n rest :
  Forall own es ->
  load_lines (mem, n) (((fun e => dumps (asdict e)) <$> es) ++ rest) =
  load_lines (foldl (fun mem e => insert_entry (key_of e) e mem) mem es, n) rest.
Proof.
  intros H. revert mem. induction H as [|e es He _ IH]; intros mem; [done|].
  cbn [fmap list_fmap app load_lines foldl]. rewrite load_line_own by done. cbn. apply IH.
Qed.

Lemma load_render es : Forall own es -> _load (Some (render es)) = Ok (replay es, O).
Proof.
  intros H. unfold _load, splitlines.
  rewrite <- (app_nil_r (render es)), break_lines_render by (done || constructor).
  rewrite drop_last_empty_app. rewrite <- (app_nil_r (_ <$> es)).
  by rewrite load_lines_own.
Qed.

(** The beginning of a line that a killed [_append_to_disk] left. *)
Definition torn (e : LedgerEntry) (n : nat) : text := take n (line_of e).

Lemma load_torn es e n :
  Forall own es -> own e ->
  exists skipped, _load (Some (render es ++ torn e n)) =
    Ok (replay (if decide (length (dumps (asdict e)) <= n)%nat then es ++ [e] else es), skipped).
Proof.
  intros Hes He. unfold torn, line_of. case_decide as Hn.
  - (* the whole object is there, with or without its newline *)
    destruct (decide (length (dumps (asdict e)) = n)) as [<-|Hlt].
    + rewrite take_app_length. unfold _load, splitlines.
      rewrite break_lines_render by (done || by apply line_no_break).
      destruct (line_starts e) as [r Hr]. rewrite drop_last_empty_ne by (by rewrite Hr).
      rewrite load_lines_own by done. cbn [load_lines]. rewrite load_line_own by done.
      eexists. cbn. unfold replay. by rewrite foldl_app.
    + rewrite take_ge by (rewrite length_app; cbn [length]; lia). exists O.
      rewrite <- load_render by (apply Forall_app; split; [done|by repeat constructor]).
      unfold render. rewrite fmap_app, concat_app. cbn [fmap list_fmap concat].
      by rewrite app_nil_r.
  - (* a proper beginning of the object *)
    assert (Hp : exists u, u <> [] /\ dumps (asdict e) = take n (dumps (asdict e) ++ [NL]) ++ u).
    { exists (drop n (dumps (asdict e))). split.
      - intros Hd. apply (f_equal length) in Hd. rewrite length_drop in Hd. cbn [length] in Hd. lia.
      - rewrite take_app_le by lia. by rewrite take_drop. }
    destruct Hp as (u & Hu & Hp). set (p := take n (dumps (asdict e) ++ [NL])) in *.
    assert (Hb : no_break p).
    { pose proof (line_no_break e He) as Hb. rewrite Hp in Hb.
      by apply Forall_app in Hb as [? _]. }
    assert (Hl : loads p = None).
    { eapply (loads_prefix [" "%char]); [by repeat constructor|by apply asdict_wf|exact Hp|done]. }
    unfold _load, splitlines. rewrite break_lines_render by done.
    destruct p as [|c p'] eqn:Hpe.
    + rewrite drop_last_empty_app, <- (app_nil_r (_ <$> es)), load_lines_own by done. eauto.
    + rewrite drop_last_empty_ne by done. rewrite load_lines_own by done. cbn [load_lines].
      unfold load_line. destruct (strip (c :: p')); [cbn; eauto|].
      unfold _parse_entry. rewrite Hl. cbn. eauto.
Qed.

(** ** The invariant, and what [record] and a restart do to it *)

(** The memory is the replay of the file: the ledger a restart would build is
    the ledger in use. *)
Definition ledger_wf (L : OperationLedger) : Prop :=
  exists es, Forall own es /\ default [] (file L) = render es /\
    (entries L, order L) = replay es /\
    0 < max_entries L /\ Z.of_nat (length (entries L)) <= max_entries L.

Definition filed (d : list (hkey * LedgerEntry)) (o : list hkey) : Prop :=
  o = d.*1 /\ NoDup o /\ Forall (fun ke => own ke.2 /\ ke.1 = key_of ke.2) d.

Lemma insert_entry_filed e d o :
  own e -> filed d o ->
  let '(d', o') := insert_entry (key_of e) e (d, o) in
  filed d' o' /\ d' = dict_set (key_of e) e d.
Proof.
  intros He (-> & Hnd & Hall). cbn. split; [|done].
  assert (Ho : (match dict_get (key_of e) d with None => d.*1 ++ [key_of e] | Some _ => d.*1 end)
               = (dict_set (key_of e) e d).*1).
  { rewrite dict_keys_set. destruct (dict_get (key_of e) d) eqn:Hg.
    - rewrite decide_True; [done|]. apply dec_stable. intros Hn.
      apply dict_get_None in Hn. congruence.
    - rewrite decide_False; [done|]. by apply dict_get_None. }
  split; [exact Ho|]. split.
  - rewrite Ho, dict_keys_set. case_decide; [done|].
    apply NoDup_app. split; [done|].
    split; [|apply NoDup_singleton]. by intros k Hk ->%list_elem_of_singleton.
  - unfold dict_set. case_decide.
    + apply Forall_fmap. eapply Forall_impl; [exact Hall|]. intros [k x] Hk. cbn.
      by case_decide.
    + apply Forall_app. split; [done|]. by repeat constructor.
Qed.

Lemma replay_snoc es e : replay (es ++ [e]) = insert_entry (key_of e) e (replay es).
Proof. unfold replay. by rewrite foldl_app. Qed.

Lemma replay_filed es : Forall own es -> filed (replay es).1 (replay es).2.
Proof.
  intros H. induction es as [|e es IH] using rev_ind.
  - split; [done|]. split; constructor.
  - apply Forall_app in H as [Hes He]. apply Forall_cons in He as [He _].
    rewrite replay_snoc. pose proof (insert_entry_filed e _ _ He (IH Hes)) as Hi.
    destruct (replay es) as [d o]. cbn [fst snd] in Hi.
    destruct (insert_entry (key_of e) e (d, o)). by destruct Hi.
Qed.

Lemma pop_first n (d : list (hkey * LedgerEntry)) :
  NoDup d.*1 -> foldl (fun es k => dict_pop k es) d (take n d.*1) = drop n d.
Proof.
  revert d. induction n as [|n IH]; intros d Hnd; [done|]. destruct d as [|[k e] d]; [done|].
  cbn [fmap list_fmap take foldl fst drop] in *. apply NoDup_cons in Hnd as [Hk Hnd].
  assert (dict_pop k ((k, e) :: d) = d) as ->; [|by apply IH].
  unfold dict_pop. rewrite filter_cons. rewrite decide_False by (cbn; auto).
  apply filter_id. apply Forall_forall. intros [k' e'] Hin Heq.
  cbn in Heq. subst k'. apply Hk, list_elem_of_fmap. by exists (k, e').
Qed.

Lemma mapM_get (d : list (hkey * LedgerEntry)) :
  NoDup d.*1 -> mapM (fun k => dict_get k d) d.*1 = Some d.*2.
Proof.
  intros Hnd. apply mapM_Some. apply Forall2_fmap_2, Forall_Forall2_diag.
  apply Forall_forall. intros [k e] Hin. cbn. by apply dict_get_elem.
Qed.

Lemma replay_nodup (d : list (hkey * LedgerEntry)) :
  filed d d.*1 -> replay d.*2 = (d, d.*1).
Proof.
  induction d as [|[k e] d IH] using rev_ind; intros (_ & Hnd & Hall); [done|].
  rewrite !fmap_app in *. cbn in *.
  apply Forall_app in Hall as [Hall He]. apply Forall_cons in He as [[He Hk] _]. cbn in *.
  apply NoDup_app in Hnd as (Hnd & Hdis & _).
  rewrite replay_snoc, IH by (split; [done|by split]). subst k. cbn.
  assert (Hk : key_of e ∉ d.*1) by (intros Hin; by apply (Hdis _ Hin), list_elem_of_singleton).
  rewrite dict_set_fresh by done. by apply dict_get_None in Hk as ->.
Qed.

Lemma filed_drop n d o : filed d o -> filed (drop n d) (drop n o).
Proof.
  intros (-> & Hnd & Hall). split; [by rewrite fmap_drop|]. split.
  - rewrite <- (take_drop n d.*1) in Hnd. by apply NoDup_app in Hnd as (_ & _ & ?).
  - by apply Forall_drop.
Qed.

(** How many of the oldest entries go when the ledger holds [d]. *)
Definition overflow (max : Z) (d : list (hkey * LedgerEntry)) : nat :=
  Z.to_nat (Z.of_nat (length d) - max).

Lemma compact_spec L es :
  Forall own es -> default [] (file L) = render es -> (entries L, order L) = replay es ->
  0 < max_entries L ->
  exists L', _compact_if_needed L = Ok L' /\ ledger_wf L' /\
    entries L' = drop (overflow (max_entries L) (entries L)) (entries L) /\
    max_entries L' = max_entries L.
Proof.
  intros Hes Hf Hr Hmax. pose proof (replay_filed es Hes) as Hfl. rewrite <- Hr in Hfl.
  cbn in Hfl. destruct Hfl as (Ho & Hnd & Hall). unfold _compact_if_needed, overflow.
  assert (Hlen : length (order L) = length (entries L)) by (rewrite Ho; by rewrite length_fmap).
  rewrite Hlen. destruct (Z.leb_spec (Z.of_nat (length (entries L))) (max_entries L)) as [Hle|Hgt].
  - exists L. split; [done|]. split; [by exists es|].
    replace (Z.to_nat (Z.of_nat (length (entries L)) - max_entries L)) with O by lia. done.
  - set (n := Z.to_nat (Z.of_nat (length (entries L)) - max_entries L)).
    rewrite Ho, pop_first by (by rewrite <- Ho). unfold _rewrite. cbn [entries order].
    assert (Hfl : filed (drop n (entries L)) (drop n (entries L)).*1).
    { rewrite fmap_drop. apply filed_drop. split; [done|]. by rewrite <- Ho. }
    rewrite <- fmap_drop, mapM_get by apply Hfl. eexists. split; [done|]. split; [|done].
    exists (drop n (entries L)).*2. cbn. split.
    { apply Forall_fmap. eapply Forall_impl; [apply Hfl|]. by intros ? []. }
    split; [done|]. split; [by rewrite replay_nodup|]. split; [done|].
    rewrite length_drop. lia.
Qed.

Lemma record_spec key kind target g r L :
  ledger_wf L ->
  exists L', record key kind target g r L = Ok L' /\ ledger_wf L' /\
    max_entries L' = max_entries L /\
    let d := dict_set (HStr key) (new_entry key kind target g r) (entries L) in
    entries L' = drop (overflow (max_entries L) d) d.
Proof.
  intros (es & Hes & Hf & Hr & Hmax & Hlen). unfold record.
  set (e := new_entry key kind target g r).
  assert (He : own e) by apply own_new.
  pose proof (replay_filed es Hes) as Hfl. rewrite <- Hr in Hfl.
  pose proof (insert_entry_filed e _ _ He Hfl) as Hi. cbn [fst snd] in Hi.
  change (key_of e) with (HStr key) in Hi.
  destruct (insert_entry (HStr key) e (entries L, order L)) as [d o] eqn:Hins.
  destruct Hi as [Hfl' Hd].
  edestruct (compact_spec (_append_to_disk e
    {| file := file L; max_entries := max_entries L; entries := d; order := o |}) (es ++ [e]))
    as (L' & HL' & Hwf & Hent & Hm); cbn.
  - apply Forall_app. split; [done|]. by repeat constructor.
  - rewrite Hf. unfold render. rewrite fmap_app, concat_app. cbn [fmap list_fmap concat].
    by rewrite app_nil_r.
  - by rewrite replay_snoc, <- Hr.
  - done.
  - exists L'. split; [exact HL'|]. split; [done|]. split; [exact Hm|].
    cbn in Hent. by rewrite <- Hd.
Qed.

Lemma open_ledger_spec L :
  ledger_wf L ->
  exists L', open_ledger (file L) (max_entries L) = Ok L' /\ ledger_wf L' /\
    entries L' = entries L /\ order L' = order L /\ max_entries L' = max_entries L.
Proof.
  intros (es & Hes & Hf & Hr & Hmax & Hlen). unfold open_ledger.
  assert (Hl : exists n, _load (file L) = Ok (replay es, n)).
  { destruct (file L) as [t|]; cbn in Hf.
    - rewrite Hf. exists O. by apply load_render.
    - destruct es as [|e es]; [by exists O|]. by destruct e. }
  destruct Hl as [n ->]. rewrite <- Hr. cbn. eexists. split; [done|]. cbn.
  split; [|done]. by exists es.
Qed.

(** ** How long an entry is kept *)

(** The entry is held with at most [n] younger entries after it. *)
Definition held (key : text) (e : LedgerEntry) (n : nat) (L : OperationLedger) : Prop :=
  exists d1 d2, entries L = d1 ++ (HStr key, e) :: d2 /\ (length d2 <= n)%nat.

Lemma wf_nodup L : ledger_wf L -> NoDup (entries L).*1.
Proof.
  intros (es & Hes & _ & Hr & _). pose proof (replay_filed es Hes) as (Ho & Hnd & _).
  rewrite <- Hr in *. cbn in *. by rewrite <- Ho.
Qed.

Lemma held_lookup key e n L : ledger_wf L -> held key e n L -> lookup key L = Some e.
Proof.
  intros Hwf (d1 & d2 & Hd & _). apply dict_get_elem; [by apply wf_nodup|].
  rewrite Hd. apply elem_of_app. right. by left.
Qed.

Lemma record_held key kind target g r L L' :
  ledger_wf L -> lookup key L = None -> record key kind target g r L = Ok L' ->
  held key (new_entry key kind target g r) 0 L'.
Proof.
  intros Hwf Hnone Hrec.
  destruct (record_spec key kind target g r L Hwf) as (L1 & HL1 & _ & _ & Hent).
  rewrite Hrec in HL1. simplify_eq. cbv zeta in Hent.
  rewrite dict_set_fresh in Hent by (by apply dict_get_None).
  destruct Hwf as (_ & _ & _ & _ & Hmax & Hlen). rewrite drop_app_le in Hent.
  - eexists _, []. split; [exact Hent|done].
  - unfold overflow. rewrite length_app. cbn [length]. lia.
Qed.

(** Recording another key ages the entry by one at most, and drops it only
    when [max_entries] keys are younger. *)
Lemma record_other_held key e n key' kind target g r L L' :
  ledger_wf L -> key' <> key -> held key e n L -> Z.of_nat (S n) < max_entries L ->
  record key' kind target g r L = Ok L' -> held key e (S n) L'.
Proof.
  intros Hwf Hne (d1 & d2 & Hd & Hlen2) Hmax Hrec.
  destruct (record_spec key' kind target g r L Hwf) as (L1 & HL1 & _ & _ & Hent).
  rewrite Hrec in HL1. simplify_eq. cbv zeta in Hent.
  destruct Hwf as (_ & _ & _ & _ & _ & Hlen). rewrite Hd in *.
  set (e' := new_entry key' kind target g r) in *.
  destruct (decide (HStr key' ∈ (d1 ++ (HStr key, e) :: d2).*1)) as [Hin|Hfresh].
  - unfold dict_set in Hent. rewrite decide_True in Hent by done.
    rewrite fmap_app, fmap_cons in Hent. cbn [fst] in Hent.
    rewrite (decide_False (P := HStr key = HStr key')) in Hent by congruence.
    assert (overflow (max_entries L) ((λ kv : hkey * LedgerEntry,
      if decide (kv.1 = HStr key') then (HStr key', e') else kv) <$> d1 ++ (HStr key, e) :: d2) = O)
      as Hov.
    { unfold overflow. rewrite length_fmap. lia. }
    rewrite fmap_app, fmap_cons in Hov. cbn [fst] in Hov.
    rewrite (decide_False (P := HStr key = HStr key')) in Hov by congruence.
    rewrite Hov, drop_0 in Hent. eexists _, _. split; [exact Hent|]. rewrite length_fmap. lia.
  - rewrite dict_set_fresh in Hent by done. rewrite <- app_assoc in Hent. cbn [app] in Hent.
    rewrite drop_app_le in Hent.
    + eexists _, _. split; [exact Hent|]. rewrite length_app. cbn [length]. lia.
    + unfold overflow. rewrite !length_app in *. cbn [length] in *.
      rewrite length_app in *. cbn [length]. lia.
Qed.

(** What happens to the ledger between two requests with the same key: other
    keys recorded, and restarts.  The number counts the recordings. *)
Inductive later (key : text) : nat -> OperationLedger -> OperationLedger -> Prop :=
| later_now L : later key 0 L L
| later_record n L L1 L2 key' kind target g r :
    later key n L L1 -> key' <> key -> record key' kind target g r L1 = Ok L2 ->
    later key (S n) L L2
| later_restart n L L1 L2 :
    later key n L L1 -> open_ledger (file L1) (max_entries L1) = Ok L2 ->
    later key n L L2.

Lemma later_wf key n L L' :
  later key n L L' -> ledger_wf L -> ledger_wf L' /\ max_entries L' = max_entries L.
Proof.
  intros H Hwf. induction H as [L|n L L1 L2 key' kind target g r _ IH _ Hrec|n L L1 L2 _ IH Hopen].
  - done.
  - destruct (IH Hwf) as [Hwf1 Hm1].
    destruct (record_spec key' kind target g r L1 Hwf1) as (L3 & H3 & Hwf3 & Hm3 & _).
    rewrite Hrec in H3. simplify_eq. split; [done|congruence].
  - destruct (IH Hwf) as [Hwf1 Hm1].
    destruct (open_ledger_spec L1 Hwf1) as (L3 & H3 & Hwf3 & _ & _ & Hm3).
    rewrite Hopen in H3. simplify_eq. split; [done|congruence].
Qed.

Lemma later_held key e n L L' :
  later key n L L' -> ledger_wf L -> held key e 0 L -> Z.of_nat n < max_entries L ->
  held key e n L'.
Proof.
  intros H Hwf Hheld.
  induction H as [L|n L L1 L2 key' kind target g r Hl IH Hne Hrec|n L L1 L2 Hl IH Hopen];
    intros Hn; [done| |]; destruct (later_wf _ _ _ _ Hl Hwf) as [Hwf1 Hm1].
  - eapply record_other_held; [exact Hwf1|exact Hne|apply IH; [done|done|lia]|lia|exact Hrec].
  - destruct (open_ledger_spec L1 Hwf1) as (L3 & H3 & _ & Hent & _).
    rewrite Hopen in H3. simplify_eq. unfold held. rewrite Hent. by apply IH.
Qed.

(** ** Theorems about the ledger file *)

(** Recording an operation never fails on a well-formed ledger, keeps it
    within [max_entries], files the entry under its key, and a process
    started afterwards on the same file builds exactly the same ledger. *)
Theorem record_then_restart key kind target g r L :
  ledger_wf L -> lookup key L = None ->
  exists L', record key kind target g r L = Ok L' /\
    lookup key L' = Some (new_entry key kind target g r) /\
    Z.of_nat (length (order L')) <= max_entries L' /\
    exists L'', open_ledger (file L') (max_entries L') = Ok L'' /\
      entries L'' = entries L' /\ order L'' = order L' /\ ledger_wf L''.
Proof.
  intros Hwf Hnone.
  destruct (record_spec key kind target g r L Hwf) as (L' & Hrec & Hwf' & _).
  exists L'. split; [done|]. split.
  { exact (held_lookup _ _ _ _ Hwf' (record_held _ _ _ _ _ _ _ Hwf Hnone Hrec)). }
  split.
  { destruct Hwf' as (es & Hes & _ & Hr & _ & Hlen).
    pose proof (replay_filed es Hes) as (Ho & _). rewrite <- Hr in Ho. cbn in Ho.
    by rewrite Ho, length_fmap. }
  destruct (open_ledger_spec L' Hwf') as (L'' & Ho & Hwf'' & He & Hord & _). eauto 10.
Qed.

(** A process killed at any point of [_append_to_disk] costs at most the
    entry being written: the next start succeeds, with everything recorded
    before, and with the new entry too once its whole object is on disk. *)
Theorem open_after_torn_append L e n :
  ledger_wf L -> own e ->
  exists L', open_ledger (Some (default [] (file L) ++ torn e n)) (max_entries L) = Ok L' /\
    (entries L', order L') =
      if decide (length (dumps (asdict e)) <= n)%nat
      then insert_entry (key_of e) e (entries L, order L) else (entries L, order L).
Proof.
  intros (es & Hes & Hf & Hr & _) He. rewrite Hf, Hr.
  destruct (load_torn es e n Hes He) as [skipped Hload]. unfold open_ledger. rewrite Hload.
  case_decide.
  - rewrite replay_snoc. cbn. destruct (insert_entry (key_of e) e (replay es)). eauto.
  - cbn. destruct (replay es). eauto.
Qed.

(** ** Examples *)

Definition empty_ledger (max : Z) : OperationLedger :=
  {| file := None; max_entries := max; entries := []; order := [] |}.

Lemma empty_ledger_wf max : 0 < max -> ledger_wf (empty_ledger max).
Proof. intros. exists []. cbn. repeat split; try done; lia. Qed.

Lemma record_then_restart_witness :
  let L0 := empty_ledger 2 in
  ledger_wf L0 /\ lookup (str "k1") L0 = None /\
  exists L', record (str "k1") (str "provision_device") (str "t1") 4 (str "{}") L0 = Ok L' /\
    lookup (str "k1") L' = Some (new_entry (str "k1") (str "provision_device") (str "t1") 4 (str "{}")).
Proof.
  cbv zeta. split; [apply empty_ledger_wf; lia|]. split; [reflexivity|].
  destruct (record_then_restart (str "k1") (str "provision_device") (str "t1") 4 (str "{}")
    (empty_ledger 2)) as (L' & H1 & H2 & _); [apply empty_ledger_wf; lia|reflexivity|].
  exists L'. by split.
Defined.

Lemma open_after_torn_append_witness :
  let e := new_entry (str "k2") (str "revoke_device") (str "t1") 5 (str "{}") in
  exists L', open_ledger (Some (default [] (file (empty_ledger 2)) ++ torn e 30)) 2 = Ok L' /\
    entries L' = [].
Proof.
  cbv zeta.
  destruct (open_after_torn_append (empty_ledger 2)
    (new_entry (str "k2") (str "revoke_device") (str "t1") 5 (str "{}")) 30)
    as (L' & H1 & H2); [apply empty_ledger_wf; lia|apply own_new|].
  exists L'. split; [exact H1|].
  transitivity (fst (entries L', order L')); [reflexivity|]. rewrite H2. reflexivity.
Defined.

(** The line a kill left behind is not repaired.  After a kill during the
    second of three recordings, the third one is acknowledged and held in
    memory, but it was appended to the broken line: the next start has lost
    it, although nothing was killed while it was written. *)
Theorem torn_line_swallows_next_entry :
  exists L1 L2 L3 L4,
    record (str "k1") (str "provision_device") (str "t1") 4 (str "{}") (empty_ledger 9) = Ok L1 /\
    open_ledger (Some (default [] (file L1) ++
      torn (new_entry (str "k2") (str "revoke_device") (str "t1") 5 (str "{}")) 30)) 9 = Ok L2 /\
    record (str "k3") (str "enable_device") (str "t1") 6 (str "{}") L2 = Ok L3 /\
    open_ledger (file L3) 9 = Ok L4 /\
    is_Some (lookup (str "k3") L3) /\ is_Some (lookup (str "k1") L4) /\
    lookup (str "k3") L4 = None.
Proof.
  do 4 eexists. split_and!; try (vm_compute; reflexivity); vm_compute; by eexists.
Qed.

End Ledger.

(** ** Ledgered dispatch *)

Module Dispatch.
Import Ledger.

(** What the dispatcher uses of a pydantic response model: its generation,
    its JSON text, and that the text validates back to the response. *)
Class ResponseModel (R : Type) := {
  response_generation : R -> Z;
  model_dump_json : R -> text;
  model_validate_json : json -> option R;
  validate_dump : forall r, model_validate_json (JStr (model_dump_json r)) = Some r;
}.

Inductive exn (E : Type) :=
| HTTP_409_CONFLICT
| ResponseInvalid
| LedgerFailed (e : Ledger.exn)
| DriverRaised (e : E).
Arguments HTTP_409_CONFLICT {E}.
Arguments ResponseInvalid {E}.
Arguments LedgerFailed {E} e.
Arguments DriverRaised {E} e.

Section Dispatch.
Context {D E R : Type} `{ResponseModel R}.

(** [cached.operation_kind != operation_kind or cached.target_id != str(target_id)] *)
Definition same_operation (cached : LedgerEntry) (kind target : text) : bool :=
  match operation_kind cached, target_id cached with
  | JStr k, JStr t => bool_decide (k = kind) && bool_decide (t = target)
  | _, _ => false
  end.

Definition dispatch_ledgered (key kind target : text) (run : prog D E R) :
    prog (OperationLedger * D) (exn E) R := fun '(L, d) =>
  match lookup key L with
  | Some cached =>
      if same_operation cached kind target then
        match model_validate_json (response_json cached) with
        | Some r => (Ok r, (L, d))
        | None => (Err ResponseInvalid, (L, d))
        end
      else (Err HTTP_409_CONFLICT, (L, d))
  | None =>
      match run d with
      | (Err e, d') => (Err (DriverRaised e), (L, d'))
      | (Ok r, d') =>
          match record key kind target (response_generation r) (model_dump_json r) L with
          | Ok L' => (Ok r, (L', d'))
          | Err e => (Err (LedgerFailed e), (L, d'))
          end
      end
  end.

(** C38: an operation the agent has answered is answered again from the
    ledger, not run again.  After a request ran and returned [r], fewer
    than [max_entries] requests with other keys and any number of agent
    restarts later, the same request returns the same [r], leaves the
    driver untouched whatever it would do now, and leaves the ledger as it
    is; the same key used for another operation or target is refused with
    409, again without running anything. *)
Theorem dispatch_at_most_once key kind target run L0 d0 r L1 d1 n L2 d2 :
  ledger_wf L0 -> lookup key L0 = None ->
  dispatch_ledgered key kind target run (L0, d0) = (Ok r, (L1, d1)) ->
  later key n L1 L2 -> Z.of_nat n < max_entries L0 ->
  forall kind' target' run',
    dispatch_ledgered key kind' target' run' (L2, d2) =
    if bool_decide (kind' = kind) && bool_decide (target' = target)
    then (Ok r, (L2, d2)) else (Err HTTP_409_CONFLICT, (L2, d2)).
Proof.
  intros Hwf Hnone Hd Hl Hn kind' target' run'. unfold dispatch_ledgered in Hd.
  rewrite Hnone in Hd. destruct (run d0) as [[r0|e] d'] eqn:Hrun; [|done].
  destruct (record_spec key kind target (response_generation r0) (model_dump_json r0) L0 Hwf)
    as (L1' & Hrec & Hwf1 & Hm1 & _).
  rewrite Hrec in Hd. simplify_eq.
  pose proof (record_held _ _ _ _ _ _ _ Hwf Hnone Hrec) as Hheld.
  rewrite <- Hm1 in Hn.
  pose proof (later_held _ _ _ _ _ Hl Hwf1 Hheld Hn) as Hheld2.
  apply (held_lookup _ _ _ _ (proj1 (later_wf _ _ _ _ Hl Hwf1))) in Hheld2.
  unfold dispatch_ledgered. rewrite Hheld2. cbn.
  rewrite (bool_decide_ext (kind = kind') (kind' = kind)) by done.
  rewrite (bool_decide_ext (target = target') (target' = target)) by done.
  destruct (_ && _); [|done]. by rewrite validate_dump.
Qed.

(** [dispatch_ledgered] up to and from its [await run()]: another request
    can be served in between. *)
Definition dispatch_begin (key kind target : text) (L : OperationLedger) :
    option (result (exn E) R) :=
  match lookup key L with
  | Some cached =>
      Some (if same_operation cached kind target then
              of_option ResponseInvalid (model_validate_json (response_json cached))
            else Err HTTP_409_CONFLICT)
  | None => None
  end.

Definition dispatch_finish (key kind target : text) (out : result E R) (L : OperationLedger) :
    result (exn E) R * OperationLedger :=
  match out with
  | Err e => (Err (DriverRaised e), L)
  | Ok r =>
      match record key kind target (response_generation r) (model_dump_json r) L with
      | Ok L' => (Ok r, L')
      | Err e => (Err (LedgerFailed e), L)
      end
  end.

Lemma dispatch_ledgered_split key kind target run L d :
  dispatch_ledgered key kind target run (L, d) =
  match dispatch_begin key kind target L with
  | Some out => (out, (L, d))
  | None => let '(out, d') := run d in
            let '(res, L') := dispatch_finish key kind target out L in (res, (L', d'))
  end.
Proof.
  unfold dispatch_ledgered, dispatch_begin, dispatch_finish.
  destruct (lookup key L) as [cached|].
  - destruct (same_operation cached kind target); [|done].
    by destruct (model_validate_json (response_json cached)).
  - destruct (run d) as [[r|e] d']; [|done].
    by destruct (record _ _ _ _ _ _).
Qed.

(** Two copies of one request: the second arrives after the first was
    answered, or while the first still awaits its driver. *)
Definition one_after_the_other (key kind target : text) (run : prog D E R)
    (st : OperationLedger * D) : result (exn E) R * result (exn E) R * D :=
  let '(out1, st1) := dispatch_ledgered key kind target run st in
  let '(out2, st2) := dispatch_ledgered key kind target run st1 in
  (out1, out2, st2.2).

Definition overlapping (key kind target : text) (run : prog D E R)
    (st : OperationLedger * D) : result (exn E) R * result (exn E) R * D :=
  let '(L, d) := st in
  match dispatch_begin key kind target L, dispatch_begin key kind target L with
  | None, None =>
      let '(o1, d1) := run d in
      let '(o2, d2) := run d1 in
      let '(out1, L1) := dispatch_finish key kind target o1 L in
      let '(out2, _) := dispatch_finish key kind target o2 L1 in
      (out1, out2, d2)
  | Some out, _ | _, Some out => (out, out, d)
  end.

(** The ledger guards against retries, not against duplicates in
    flight: a copy that arrives after the answer gets the stored answer and
    the driver has run once; a copy that arrives while the first is still
    running finds no entry, and the driver runs a second time on the state
    the first run left. *)
Theorem dispatch_in_flight_duplicate key kind target run L d r1 d1 r2 d2 :
  ledger_wf L -> lookup key L = None ->
  run d = (Ok r1, d1) -> run d1 = (Ok r2, d2) ->
  one_after_the_other key kind target run (L, d) = (Ok r1, Ok r1, d1) /\
  overlapping key kind target run (L, d) = (Ok r1, Ok r2, d2).
Proof.
  intros Hwf Hn H1 H2.
  destruct (record_spec key kind target (response_generation r1) (model_dump_json r1) L Hwf)
    as (L1 & Hr1 & Hwf1 & _).
  destruct (record_spec key kind target (response_generation r2) (model_dump_json r2) L1 Hwf1)
    as (L2 & Hr2 & _). split.
  - pose proof (held_lookup _ _ _ _ Hwf1 (record_held _ _ _ _ _ _ _ Hwf Hn Hr1)) as Hl1.
    unfold one_after_the_other, dispatch_ledgered. rewrite Hn, H1, Hr1, Hl1. cbn.
    rewrite !bool_decide_eq_true_2 by done. cbn. by rewrite validate_dump.
  - unfold overlapping, dispatch_begin, dispatch_finish. by rewrite Hn, H1, H2, Hr1, Hr2.
Qed.

(** A driver error is passed on and nothing is recorded, so a retry runs again. *)
Lemma dispatch_driver_error key kind target run L d e d' :
  lookup key L = None -> run d = (Err e, d') ->
  dispatch_ledgered key kind target run (L, d) = (Err (DriverRaised e), (L, d')).
Proof. intros Hn Hr. unfold dispatch_ledgered. by rewrite Hn, Hr. Qed.
End Dispatch.

(** ** Examples: a driver that counts its runs and answers with the count *)

#[local] Instance count_response : ResponseModel Z := {
  response_generation n := n;
  model_dump_json n := show_Z n;
  model_validate_json j := match j with JStr t => py_int t | _ => None end;
  validate_dump := py_int_show;
}.

Definition count_run : prog Z unit Z := fun d => (Ok (d + 1), d + 1).

Lemma dispatch_at_most_once_witness :
  let first := dispatch_ledgered (str "k1") (str "revoke_device") (str "t1") count_run
                 (empty_ledger 2, 0) in
  dispatch_ledgered (str "k1") (str "revoke_device") (str "t1") count_run (first.2.1, 7)
    = (Ok 1, (first.2.1, 7)).
Proof.
  intros first.
  rewrite (dispatch_at_most_once (str "k1") (str "revoke_device") (str "t1") count_run
    (empty_ledger 2) 0 1 first.2.1 1 0 first.2.1 7).
  - vm_compute. reflexivity.
  - apply empty_ledger_wf. lia.
  - reflexivity.
  - vm_compute. reflexivity.
  - constructor.
  - reflexivity.
Defined.

Lemma dispatch_in_flight_duplicate_witness :
  overlapping (str "k1") (str "revoke_device") (str "t1") count_run (empty_ledger 2, 0)
    = (Ok 1, Ok 2, 2).
Proof.
  apply (dispatch_in_flight_duplicate (str "k1") (str "revoke_device") (str "t1") count_run
    (empty_ledger 2) 0 1 1 2 2).
  - apply empty_ledger_wf. lia.
  - reflexivity.
  - reflexivity.
  - reflexivity.
Defined.
End Dispatch.
