(* ===== verification/XrayConfig.v ===== *)
(** * Xray's client set and its configuration

    Models [nebula_agent/drivers/xray_config_store.py] and
    [nebula_agent/drivers/egress.py]: the recorded client set and its JSON file,
    the server configuration rendered from it for every inbound, and the reading
    back of that configuration ([_live_client_uuids] of [drivers/xray.py]).
    SHA-256, behind [client_email], is a parameter. *)

From S2P Require Import Prelude PyText PyBytes Json.

Module XrayConfig.

(** ** Inbounds *)

Inductive Transport := xhttp | grpc | websocket | raw | hysteria.
#[global] Instance Transport_eq_dec : EqDecision Transport.
Proof. solve_decision. Defined.
Definition transport_name (t : Transport) : text :=
  match t with
  | xhttp => str "xhttp" | grpc => str "grpc" | websocket => str "websocket"
  | raw => str "raw" | hysteria => str "hysteria"
  end.

Inductive Security := plain | tls | reality.
#[global] Instance Security_eq_dec : EqDecision Security.
Proof. solve_decision. Defined.
Definition security_name (s : Security) : text :=
  match s with plain => str "none" | tls => str "tls" | reality => str "reality" end.

Record XrayInboundProfile := {
  profile_code : text;
  transport : Transport;
  listen : text;
  port : Z;
  security : Security;
  xhttp_path : option text;
  grpc_service_name : option text;
  ws_path : option text;
  hysteria_up_mbps : option Z;
  hysteria_down_mbps : option Z;
  hysteria_obfs_password : option text;
  ss2022_server_key : option text;
  vless_decryption : option text;
  vless_encryption : option text;
  vmess : bool;
  reality_private_key : option text;
  reality_public_key : option text;
  reality_dest : option text;
  reality_server_name : option text;
  reality_short_id : option text;
  vision : bool;
}.

(** [x is not None] *)
Definition is_set {A} (o : option A) : bool := match o with Some _ => true | None => false end.

Definition direct (p : XrayInboundProfile) : bool :=
  is_set (ss2022_server_key p) || is_set (vless_decryption p) || vmess p.

Definition SS2022_METHOD : text := str "2022-blake3-aes-128-gcm".

Definition ss2022_user_key (client_uuid : Z) : text := b64encode (to_bytes 16 client_uuid).

(** [None] for [ValueError]: text that is not ASCII or not Base64, or bytes that
    are not sixteen. *)
Definition uuid_from_ss2022_key (key : text) : option Z :=
  if forallb (fun c => code c <? 128) key then
    b ← b64decode key;
    if Nat.eqb (length b) 16 then Some (from_bytes b) else None
  else None.

(** ** The client set *)

Record RenderedXrayClient := {
  client_uuid : Z;
  protocol_profile_code : text;
  generation : Z;
}.
#[global] Instance RenderedXrayClient_eq_dec : EqDecision RenderedXrayClient.
Proof. solve_decision. Defined.

Record DesiredXrayState := { clients : list RenderedXrayClient }.
Definition empty_state : DesiredXrayState := {| clients := [] |}.

Definition with_client (c : RenderedXrayClient) (s : DesiredXrayState) : DesiredXrayState :=
  {| clients := filter (fun c' => client_uuid c' <> client_uuid c) (clients s) ++ [c] |}.
Definition without_client (u : Z) (s : DesiredXrayState) : DesiredXrayState :=
  {| clients := filter (fun c => client_uuid c <> u) (clients s) |}.
Fixpoint find_client (u : Z) (cs : list RenderedXrayClient) : option RenderedXrayClient :=
  match cs with
  | [] => None
  | c :: cs' => if client_uuid c =? u then Some c else find_client u cs'
  end.
Definition client (u : Z) (s : DesiredXrayState) : option RenderedXrayClient := find_client u (clients s).
Definition clients_for (code_ : text) (s : DesiredXrayState) : list RenderedXrayClient :=
  filter (fun c => protocol_profile_code c = code_) (clients s).

(** ** The bookkeeping file *)

Definition state_entry (c : RenderedXrayClient) : json :=
  JObj [(str "uuid", JStr (str_uuid (client_uuid c))); (str "profile", JStr (protocol_profile_code c));
        (str "generation", JInt (generation c))].

(** [json.dumps(payload, indent=2, sort_keys=True)] *)
Definition render_state_json (s : DesiredXrayState) : text :=
  dumps_indent (sort_keys (JArr (state_entry <$> clients s))).

(** One entry of the payload.  [None] for whatever [entry[...]] or [UUID(...)]
    raises; the profile and the generation, which Python takes as they are,
    have the types this module writes. *)
Definition parse_state_entry (j : json) : option RenderedXrayClient :=
  match j with
  | JObj kvs =>
      match dict_get (str "uuid") kvs, dict_get (str "profile") kvs, dict_get (str "generation") kvs with
      | Some (JStr u), Some (JStr p), Some (JInt g) =>
          n ← uuid_of_text u; Some {| client_uuid := n; protocol_profile_code := p; generation := g |}
      | _, _, _ => None
      end
  | _ => None
  end.

Definition parse_state_json (t : text) : option DesiredXrayState :=
  match strip t with
  | [] => Some empty_state
  | _ =>
      match loads t with
      | Some (JArr l) => (fun cs => {| clients := cs |}) <$> mapM parse_state_entry l
      | Some (JObj []) | Some (JStr []) => Some empty_state
      | _ => None
      end
  end.

(** ** The server configuration *)

Definition BLOCKED_DESTINATIONS : list text :=
  str <$> ["0.0.0.0/8"; "10.0.0.0/8"; "100.64.0.0/10"; "127.0.0.0/8"; "169.254.0.0/16";
           "172.16.0.0/12"; "192.0.0.0/24"; "192.168.0.0/16"; "198.18.0.0/15"; "224.0.0.0/4";
           "240.0.0.0/4"; "::1/128"; "fc00::/7"; "fe80::/10"; "ff00::/8"]%string.
Definition RESOLVERS : list text := str <$> ["1.1.1.1"; "8.8.8.8"]%string.

Definition VISION_FLOW : text := str "xtls-rprx-vision".
Definition _INTERNET_TAG : text := str "internet".
Definition _BLOCKED_TAG : text := str "blocked".
Definition _DNS_TAG : text := str "nebula-dns".
Definition _STATS_API_TAG : text := str "nebula-stats-api".
Definition STATS_API_PORT : Z := 25414.

Definition jopt (o : option text) : json := match o with Some t => JStr t | None => JNull end.
(** [str(n)] of an [int | None] *)
Definition show_opt (o : option Z) : text := match o with Some n => show_Z n | None => str "None" end.
Definition jstr (s : string) : json := JStr (str s).
Definition jobj (kvs : list (string * json)) : json := JObj ((fun kv => (str kv.1, kv.2)) <$> kvs).

Definition _stream_settings (p : XrayInboundProfile) : list (string * json) :=
  [("network"%string, JStr (transport_name (transport p)))] ++
  match transport p with
  | xhttp => [("xhttpSettings"%string, jobj [("path"%string, jopt (xhttp_path p))])]
  | grpc => [("grpcSettings"%string, jobj [("serviceName"%string, jopt (grpc_service_name p))])]
  | websocket => [("wsSettings"%string, jobj [("path"%string, jopt (ws_path p))])]
  | hysteria =>
      [("hysteriaSettings"%string,
        jobj [("version"%string, JInt 2); ("up"%string, JStr (show_opt (hysteria_up_mbps p)));
              ("down"%string, JStr (show_opt (hysteria_down_mbps p)))])] ++
      match hysteria_obfs_password p with
      | Some (c :: r) =>
          [("udpmasks"%string,
            JArr [jobj [("type"%string, jstr "salamander");
                        ("settings"%string, jobj [("password"%string, JStr (c :: r))])]])]
      | _ => []
      end
  | raw => []
  end ++
  [("security"%string, JStr (security_name (security p)))] ++
  (if bool_decide (security p = reality) then
     [("realitySettings"%string,
       jobj [("dest"%string, jopt (reality_dest p)); ("serverNames"%string, JArr [jopt (reality_server_name p)]);
             ("privateKey"%string, jopt (reality_private_key p));
             ("shortIds"%string, JArr [jopt (reality_short_id p)])])]
   else []).

(** [t.rpartition(sep)], without the separator. *)
Definition rpartition (sep : ascii) (t : text) : text * text :=
  let '(a, found, b) := partition sep (reverse t) in
  if found then (reverse b, reverse a) else ([], t).

Section Render.
Context (sha256_hex : text -> text).

Definition client_email (u : Z) : text := sha256_hex (str_uuid u).

(** The protocol of an inbound and its [settings]. *)
Definition protocol_settings (p : XrayInboundProfile) (cs : list RenderedXrayClient) :
    string * list (string * json) :=
  if bool_decide (transport p = hysteria) then
    ("hysteria"%string,
     [("version"%string, JInt 2);
      ("clients"%string,
       JArr ((fun c => jobj [("auth"%string, JStr (str_uuid (client_uuid c)))]) <$> cs))])
  else if vmess p then
    ("vmess"%string,
     [("clients"%string,
       JArr ((fun c => jobj [("id"%string, JStr (str_uuid (client_uuid c)));
                             ("email"%string, JStr (client_email (client_uuid c)))]) <$> cs))])
  else
    match ss2022_server_key p with
    | Some key =>
        ("shadowsocks"%string,
         [("method"%string, JStr SS2022_METHOD); ("password"%string, JStr key);
          ("network"%string, jstr "tcp,udp");
          ("clients"%string,
           JArr ((fun c => jobj [("password"%string, JStr (ss2022_user_key (client_uuid c)));
                                 ("email"%string, JStr (client_email (client_uuid c)))]) <$> cs))])
    | None =>
        ("vless"%string,
         [("clients"%string,
           JArr ((fun c => jobj ([("id"%string, JStr (str_uuid (client_uuid c)));
                                  ("email"%string, JStr (client_email (client_uuid c)))] ++
                                 (if vision p then [("flow"%string, JStr VISION_FLOW)] else []))) <$> cs));
          ("decryption"%string,
           JStr (match vless_decryption p with Some (c :: r) => c :: r | _ => str "none" end))])
    end.

Definition tls_settings (p : XrayInboundProfile) (cert key : option text) : list (string * json) :=
  if bool_decide (security p = tls) then
    [("tlsSettings"%string,
      jobj ([("certificates"%string,
              JArr [jobj [("certificateFile"%string, jopt cert); ("keyFile"%string, jopt key)]])] ++
            (if bool_decide (transport p = hysteria) then
               [("alpn"%string, JArr [jstr "h3"]); ("minVersion"%string, jstr "1.3");
                ("maxVersion"%string, jstr "1.3")]
             else [])))]
  else [].

Definition inbound (p : XrayInboundProfile) (cs : list RenderedXrayClient) (cert key : option text) : json :=
  let '(protocol, settings) := protocol_settings p cs in
  jobj [("tag"%string, JStr (profile_code p)); ("listen"%string, JStr (listen p));
        ("port"%string, JInt (port p)); ("protocol"%string, jstr protocol);
        ("settings"%string, jobj settings);
        ("streamSettings"%string, jobj (_stream_settings p ++ tls_settings p cert key))].

Definition _stats_api_inbound (api_host : text) : json :=
  jobj [("tag"%string, JStr _STATS_API_TAG); ("listen"%string, JStr api_host);
        ("port"%string, JInt STATS_API_PORT); ("protocol"%string, jstr "dokodemo-door");
        ("settings"%string, jobj [("address"%string, JStr api_host)])].

Definition dns_outbound (resolver : text) : json :=
  jobj [("tag"%string, JStr _DNS_TAG); ("protocol"%string, jstr "freedom");
        ("settings"%string,
         jobj [("redirect"%string, JStr resolver);
               ("finalRules"%string,
                JArr [jobj [("action"%string, jstr "allow"); ("network"%string, jstr "tcp,udp");
                            ("ip"%string, JArr [JStr (rpartition ":"%char resolver).1]);
                            ("port"%string, JStr (rpartition ":"%char resolver).2)]])])].

Definition routing_rules (dns_redirect : option (text * text)) : list json :=
  [jobj [("type"%string, jstr "field"); ("inboundTag"%string, JArr [JStr _STATS_API_TAG]);
         ("outboundTag"%string, JStr _STATS_API_TAG)]] ++
  match dns_redirect with
  | Some (address, _) =>
      [jobj [("type"%string, jstr "field"); ("ip"%string, JArr [JStr address]); ("port"%string, jstr "53");
             ("outboundTag"%string, JStr _DNS_TAG)]]
  | None => []
  end ++
  [jobj [("type"%string, jstr "field"); ("ip"%string, JArr (JStr <$> BLOCKED_DESTINATIONS));
         ("outboundTag"%string, JStr _BLOCKED_TAG)];
   jobj [("type"%string, jstr "field");
         ("domain"%string, JArr [jstr "full:localhost"; jstr "domain:localhost"]);
         ("outboundTag"%string, JStr _BLOCKED_TAG)]].

Definition outbounds (dns_redirect : option (text * text)) : list json :=
  [jobj [("tag"%string, JStr _INTERNET_TAG); ("protocol"%string, jstr "freedom");
         ("streamSettings"%string,
          jobj [("sockopt"%string, jobj [("domainStrategy"%string, jstr "UseIPv4")])])];
   jobj [("tag"%string, JStr _BLOCKED_TAG); ("protocol"%string, jstr "blackhole")]] ++
  match dns_redirect with Some (_, resolver) => [dns_outbound resolver] | None => [] end.

(** What the file does not take from the client set or the profiles. *)
Record RenderOptions := {
  tls_cert_file : option text;
  tls_key_file : option text;
  api_host : text;
  live_client_updates : bool;
  dns_redirect : option (text * text);
}.

Definition server_config (s : DesiredXrayState) (ps : list XrayInboundProfile) (o : RenderOptions) : json :=
  jobj [("inbounds"%string,
         JArr (((fun p => inbound p (clients_for (profile_code p) s) (tls_cert_file o) (tls_key_file o)) <$> ps)
               ++ [_stats_api_inbound (api_host o)]));
        ("outbounds"%string, JArr (outbounds (dns_redirect o)));
        ("dns"%string, jobj [("servers"%string, JArr (JStr <$> RESOLVERS))]);
        ("stats"%string, jobj []);
        ("api"%string,
         jobj [("tag"%string, JStr _STATS_API_TAG);
               ("services"%string,
                JArr (if live_client_updates o then [jstr "HandlerService"; jstr "StatsService"]
                      else [jstr "StatsService"]))]);
        ("policy"%string,
         jobj [("levels"%string,
                jobj [("0"%string, jobj [("statsUserUplink"%string, JBool true);
                                         ("statsUserDownlink"%string, JBool true)])]);
               ("system"%string, jobj [("statsInboundUplink"%string, JBool true);
                                       ("statsInboundDownlink"%string, JBool true)])]);
        ("routing"%string,
         jobj [("domainStrategy"%string, jstr "IPIfNonMatch");
               ("rules"%string, JArr (routing_rules (dns_redirect o)))])].

Definition render_xray_server_config (s : DesiredXrayState) (ps : list XrayInboundProfile)
    (o : RenderOptions) : text :=
  dumps_indent (server_config s ps o).
End Render.

(** ** Reading the served file back *)

(** [ValueError] includes [json.JSONDecodeError]; [Uncaught] is an
    [AttributeError], [TypeError] or [KeyError], which no caller expects. *)
Inductive read_error := ValueError | Uncaught.
#[global] Instance read_error_eq_dec : EqDecision read_error.
Proof. solve_decision. Defined.

(** [j.get(k)] *)
Definition jget (k : string) (j : json) : result read_error (option json) :=
  match j with JObj kvs => Ok (dict_get (str k) kvs) | _ => Err Uncaught end.

(** [for x in j] *)
Definition iter_json (j : json) : result read_error (list json) :=
  match j with
  | JArr l => Ok l
  | JObj kvs => Ok (JStr <$> kvs.*1)
  | JStr t => Ok ((fun c => JStr [c]) <$> t)
  | _ => Err Uncaught
  end.

(** [j == n]; a port is never written as a float. *)
Definition json_is_int (j : json) (n : Z) : bool :=
  match j with
  | JInt m => m =? n
  | JBool b => (if b then 1 else 0) =? n
  | _ => false
  end.

(** [bool(j)] *)
Definition truthy (j : json) : bool :=
  match j with
  | JNull | JBool false | JStr [] | JArr [] | JObj [] => false
  | JInt n => negb (n =? 0)
  | _ => true
  end.

(** [str(j)].  What a container prints as is never compared with anything but
    UUIDs; it stands as its JSON text. *)
Definition py_str (j : json) : text :=
  match j with
  | JStr t => t
  | JNull => str "None"
  | JBool true => str "True"
  | JBool false => str "False"
  | JInt n => show_Z n
  | _ => dumps j
  end.

(** [str(c.get("id") or c.get("auth"))] *)
Definition client_name (c : json) : result read_error text :=
  id ← jget "id" c;
  match id with
  | Some v => if truthy v then Ok (py_str v) else (fun a => py_str (default JNull a)) <$> jget "auth" c
  | None => (fun a => py_str (default JNull a)) <$> jget "auth" c
  end.

(** [str(uuid_from_ss2022_key(str(c.get("password"))))] *)
Definition ss2022_name (c : json) : result read_error text :=
  pw ← jget "password" c;
  match uuid_from_ss2022_key (py_str (default JNull pw)) with
  | Some u => Ok (str_uuid u)
  | None => Err ValueError
  end.

Fixpoint map_read {A B} (f : A -> result read_error B) (l : list A) : result read_error (list B) :=
  match l with
  | [] => Ok []
  | x :: l' => y ← f x; ys ← map_read f l'; Ok (y :: ys)
  end.

(** The loop over [config.get("inbounds", [])]. *)
Fixpoint find_inbound (p : XrayInboundProfile) (l : list json) : result read_error (list text) :=
  match l with
  | [] => Ok []
  | inb :: l' =>
      pt ← jget "port" inb;
      if negb (json_is_int (default JNull pt) (port p)) then find_inbound p l'
      else
        settings ← jget "settings" inb;
        cs ← jget "clients" (default (JObj []) settings);
        cl ← iter_json (default (JArr []) cs);
        if is_set (ss2022_server_key p) then map_read ss2022_name cl else map_read client_name cl
  end.

(** [_live_client_uuids] on the text of the configuration file. *)
Definition live_client_uuids (p : XrayInboundProfile) (config : text) : result read_error (list text) :=
  match loads config with
  | None => Err ValueError
  | Some c => l ← jget "inbounds" c; inbs ← iter_json (default (JArr []) l); find_inbound p inbs
  end.

(** ** The store *)

Record XrayConfigStore := {
  last_known_good : option text;
  candidate : option text;
  validate_scratch : option text;
  xray_config : option text;
}.

Definition read_last_known_good (st : XrayConfigStore) : option DesiredXrayState :=
  match last_known_good st with None => Some empty_state | Some t => parse_state_json t end.
Definition write_candidate_atomically (t : text) (st : XrayConfigStore) : XrayConfigStore :=
  {| last_known_good := last_known_good st; candidate := Some t;
     validate_scratch := validate_scratch st; xray_config := xray_config st |}.
(** [os.replace], [None] when there is no candidate. *)
Definition promote_candidate_to_last_known_good (st : XrayConfigStore) : option XrayConfigStore :=
  match candidate st with
  | Some t => Some {| last_known_good := Some t; candidate := None;
                      validate_scratch := validate_scratch st; xray_config := xray_config st |}
  | None => None
  end.
Definition write_validate_scratch_atomically (t : text) (st : XrayConfigStore) : XrayConfigStore :=
  {| last_known_good := last_known_good st; candidate := candidate st;
     validate_scratch := Some t; xray_config := xray_config st |}.
Definition write_xray_config_atomically (t : text) (st : XrayConfigStore) : XrayConfigStore :=
  {| last_known_good := last_known_good st; candidate := candidate st;
     validate_scratch := validate_scratch st; xray_config := Some t |}.

(** ** The client set, as a map from UUIDs *)

Definition uuids (s : DesiredXrayState) : list Z := client_uuid <$> clients s.

Lemma find_client_app u l1 l2 :
  find_client u (l1 ++ l2) = match find_client u l1 with Some c => Some c | None => find_client u l2 end.
Proof. induction l1 as [|c l1 IH]; cbn; [done|]. by destruct (client_uuid c =? u). Qed.

Lemma find_client_filter u v l :
  find_client u (filter (fun c => client_uuid c <> v) l) = if u =? v then None else find_client u l.
Proof.
  induction l as [|c l IH]; [by destruct (u =? v)|]. rewrite filter_cons. cbn [find_client].
  case_decide as Hc; cbn [find_client]; rewrite ?IH; destruct (Z.eqb_spec u v), (Z.eqb_spec (client_uuid c) u);
    try done; congruence.
Qed.

Lemma find_client_elem u l c : find_client u l = Some c -> c ∈ l /\ client_uuid c = u.
Proof.
  induction l as [|x l IH]; cbn; [done|]. destruct (Z.eqb_spec (client_uuid x) u); intros; simplify_eq.
  - split; [by left|done].
  - destruct IH; [done|]. split; [by right|done].
Qed.

Lemma find_client_None u l : find_client u l = None <-> u ∉ client_uuid <$> l.
Proof.
  induction l as [|c l IH]; cbn; [split; [intros _; apply not_elem_of_nil|done]|].
  rewrite not_elem_of_cons. destruct (Z.eqb_spec (client_uuid c) u); [naive_solver|]. naive_solver.
Qed.

Lemma client_with c u s :
  client u (with_client c s) = if u =? client_uuid c then Some c else client u s.
Proof.
  unfold client, with_client. cbn [clients]. rewrite find_client_app, find_client_filter. cbn.
  rewrite (Z.eqb_sym (client_uuid c) u). by destruct (u =? client_uuid c); [|destruct (find_client u _)].
Qed.

Lemma client_without v u s : client u (without_client v s) = if u =? v then None else client u s.
Proof. apply find_client_filter. Qed.

Lemma uuids_with c s : NoDup (uuids s) -> NoDup (uuids (with_client c s)).
Proof.
  unfold uuids, with_client. cbn. intros H. rewrite fmap_app. apply NoDup_app. split; [|split].
  - eapply sublist_NoDup; [exact H|]. apply fmap_sublist, sublist_filter.
  - intros u Hu Hin. apply list_elem_of_singleton in Hin as ->.
    apply list_elem_of_fmap in Hu as (c' & He & Hc'). apply list_elem_of_filter in Hc' as [Hc' _]. congruence.
  - apply NoDup_singleton.
Qed.

Lemma uuids_without u s : NoDup (uuids s) -> NoDup (uuids (without_client u s)).
Proof. intros H. eapply sublist_NoDup; [exact H|]. apply fmap_sublist, sublist_filter. Qed.

(** ** The bookkeeping file reads back *)

Definition state_ok (s : DesiredXrayState) : Prop := Forall (fun c => is_uuid (client_uuid c)) (clients s).

Lemma state_ok_with c s : state_ok s -> is_uuid (client_uuid c) -> state_ok (with_client c s).
Proof.
  intros Hs Hc. unfold state_ok, with_client. cbn. apply Forall_app. split; [by apply Forall_filter_list|].
  by constructor.
Qed.
Lemma state_ok_without u s : state_ok s -> state_ok (without_client u s).
Proof. intros Hs. by apply Forall_filter_list. Qed.

(** An entry with its keys in order. *)
Definition sorted_entry (c : RenderedXrayClient) : json :=
  JObj [(str "generation", JInt (generation c)); (str "profile", JStr (protocol_profile_code c));
        (str "uuid", JStr (str_uuid (client_uuid c)))].

Lemma sort_keys_entries cs : sort_keys (JArr (state_entry <$> cs)) = JArr (sorted_entry <$> cs).
Proof. cbn [sort_keys]. f_equal. induction cs as [|c cs IH]; [done|]. cbn [fmap list_fmap map]. by f_equal. Qed.

Lemma entries_wf cs : json_wf (JArr (sorted_entry <$> cs)).
Proof.
  apply json_wf_arr, Forall_fmap, Forall_true. intros c. cbn. split; [|done].
  apply (bool_decide_eq_true_1 _). vm_compute. reflexivity.
Qed.

Lemma parse_sorted_entry c : is_uuid (client_uuid c) -> parse_state_entry (sorted_entry c) = Some c.
Proof.
  intros Hc. unfold parse_state_entry, sorted_entry.
  change (dict_get (str "uuid") _) with (Some (JStr (str_uuid (client_uuid c)))).
  change (dict_get (str "profile") _) with (Some (JStr (protocol_profile_code c))).
  change (dict_get (str "generation") _) with (Some (JInt (generation c))).
  cbn [mbind option_bind]. rewrite uuid_of_str by done. by destruct c.
Qed.

(** What is written is not blank. *)
Lemma strip_not_blank c t : is_space c = false -> strip (c :: t) <> [].
Proof.
  intros Hc. unfold strip, rstrip. cbn [lstrip]. rewrite Hc. cbn [reverse]. rewrite reverse_cons.
  intros He. apply (f_equal reverse) in He. rewrite reverse_involutive in He. cbn in He.
  assert (H : forall u, lstrip (u ++ [c]) <> []).
  { induction u as [|d u IH]; cbn; [by rewrite Hc|]. by destruct (is_space d). }
  by apply (H (reverse t)).
Qed.

Lemma parse_state_dumps l :
  json_wf (JArr l) ->
  parse_state_json (dumps_indent (JArr l)) = (fun cs => {| clients := cs |}) <$> mapM parse_state_entry l.
Proof.
  intros Hwf. unfold parse_state_json. rewrite loads_dumps_indent by done.
  destruct (strip (dumps_indent (JArr l))) eqn:Hs; [|done]. exfalso. revert Hs.
  unfold dumps_indent. destruct l; cbn [dumps_at]; by apply strip_not_blank.
Qed.

Lemma parse_render_state s : state_ok s -> parse_state_json (render_state_json s) = Some s.
Proof.
  intros Hs. unfold render_state_json. rewrite sort_keys_entries, parse_state_dumps by apply entries_wf.
  assert (Hm : mapM parse_state_entry (sorted_entry <$> clients s) = Some (clients s)).
  { unfold state_ok in Hs. induction Hs as [|c cs Hc _ IH]; [done|].
    rewrite fmap_cons. cbn [mapM]. rewrite parse_sorted_entry by done. cbn. rewrite IH. done. }
  rewrite Hm. by destruct s.
Qed.

(** ** The rendered configuration reads back *)

Lemma jobj_wf kvs :
  bool_decide (NoDup kvs.*1) = true -> Forall (fun kv => json_wf kv.2) kvs -> json_wf (jobj kvs).
Proof.
  intros Hnd H. apply json_wf_obj. apply bool_decide_eq_true in Hnd. split.
  - rewrite <- list_fmap_compose. change (fst ∘ _) with (str ∘ @fst string json).
    rewrite list_fmap_compose. apply NoDup_fmap_2; [|done].
    intros a b He. rewrite <- (unstr_str a), <- (unstr_str b). by rewrite He.
  - by apply Forall_fmap.
Qed.

Lemma jopt_wf o : json_wf (jopt o).
Proof. by destruct o. Qed.

Ltac wf_json :=
  repeat first
    [ apply jopt_wf
    | apply jobj_wf; [vm_compute; reflexivity|]
    | apply (proj2 (json_wf_arr _))
    | apply Forall_cons; split; cbn [snd]
    | apply Forall_nil; exact I
    | apply Forall_fmap, Forall_true; intros
    | exact I ].

Lemma stream_settings_wf p cert key : json_wf (jobj (_stream_settings p ++ tls_settings p cert key)).
Proof.
  unfold _stream_settings, tls_settings.
  destruct (transport p), (security p); cbn [bool_decide app]; try (wf_json; fail);
    destruct (hysteria_obfs_password p) as [[|c r]|]; cbn [app]; wf_json.
Qed.

Section ReadBack.
Context (sha256_hex : text -> text).

Lemma protocol_settings_wf p cs :
  json_wf (jobj (protocol_settings sha256_hex p cs).2).
Proof.
  unfold protocol_settings. destruct (bool_decide _); [cbn [snd]; wf_json|].
  destruct (vmess p); [cbn [snd]; wf_json|]. destruct (ss2022_server_key p); cbn [snd]; [wf_json|].
  destruct (vision p); cbn [app]; wf_json.
Qed.

Lemma inbound_wf p cs cert key : json_wf (inbound sha256_hex p cs cert key).
Proof.
  unfold inbound. pose proof (protocol_settings_wf p cs) as Hp.
  pose proof (stream_settings_wf p cert key) as Hs.
  destruct (protocol_settings sha256_hex p cs) as [protocol settings]. cbn [snd] in Hp.
  apply jobj_wf; [vm_compute; reflexivity|].
  repeat (apply Forall_cons; split; cbn [snd]); try exact I; try assumption. by apply Forall_nil.
Qed.

Lemma server_config_wf s ps o : json_wf (server_config sha256_hex s ps o).
Proof.
  unfold server_config. apply jobj_wf; [vm_compute; reflexivity|].
  apply Forall_cons. split; cbn [snd].
  { apply json_wf_arr, Forall_app. split; [|by wf_json]. apply Forall_fmap, Forall_true.
    intros p. apply inbound_wf. }
  unfold outbounds, routing_rules, dns_outbound.
  destruct (dns_redirect o) as [[a r]|], (live_client_updates o); cbn [app]; wf_json.
Qed.

(** Ports are told apart, none is the stats API's, and a Shadowsocks profile is
    nothing else; [settings.py] builds profiles so. *)
Record profiles_ok (ps : list XrayInboundProfile) : Prop := {
  ports_distinct : NoDup (port <$> ps);
  ports_free : STATS_API_PORT ∉ port <$> ps;
  codes_distinct : NoDup (profile_code <$> ps);
  ss2022_plain : Forall (fun p => ss2022_server_key p <> None -> transport p <> hysteria /\ vmess p = false) ps;
}.

Lemma ss2022_key_back u : is_uuid u -> uuid_from_ss2022_key (ss2022_user_key u) = Some u.
Proof.
  intros Hu. unfold uuid_from_ss2022_key, ss2022_user_key. rewrite b64decode_encode.
  assert (Ha : forallb (fun c => code c <? 128) (b64encode (to_bytes 16 u)) = true).
  { apply forallb_forall. intros c Hc. apply list_elem_of_In, b64encode_chars in Hc. lia. }
  rewrite Ha. cbn [mbind option_bind]. rewrite to_bytes_length. cbn [Nat.eqb]. by rewrite from_to_bytes.
Qed.

#[local] Arguments ss2022_user_key : simpl never.
#[local] Arguments uuid_from_ss2022_key : simpl never.

Lemma map_read_fmap {A B C} (f : B -> result read_error C) (g : A -> B) (h : A -> C) l :
  Forall (fun x => f (g x) = Ok (h x)) l -> map_read f (g <$> l) = Ok (h <$> l).
Proof. induction 1 as [|x l Hx _ IH]; [done|]. rewrite !fmap_cons. cbn [map_read]. by rewrite Hx, IH. Qed.

Lemma read_inbound_clients p cs :
  Forall (fun c => is_uuid (client_uuid c)) cs ->
  (ss2022_server_key p <> None -> transport p <> hysteria /\ vmess p = false) ->
  exists l, dict_get (str "clients") ((fun kv => (str kv.1, kv.2)) <$> (protocol_settings sha256_hex p cs).2)
      = Some (JArr l) /\
    (if is_set (ss2022_server_key p) then map_read ss2022_name l else map_read client_name l)
      = Ok ((fun c => str_uuid (client_uuid c)) <$> cs).
Proof.
  intros Hcs Hss. unfold protocol_settings.
  assert (Hn : forall (kvs : RenderedXrayClient -> list (string * json)),
    Forall (fun c => client_name (jobj (kvs c)) = Ok (str_uuid (client_uuid c))) cs ->
    map_read client_name ((fun c => jobj (kvs c)) <$> cs) = Ok ((fun c => str_uuid (client_uuid c)) <$> cs)).
  { intros kvs Hk. by apply map_read_fmap. }
  assert (Hid : forall rest, Forall (fun c => client_name
      (jobj ((("id"%string, JStr (str_uuid (client_uuid c))) :: rest c))) = Ok (str_uuid (client_uuid c))) cs).
  { intros rest. eapply Forall_impl; [exact Hcs|]. intros c Hc. unfold client_name. cbn.
    destruct (str_uuid (client_uuid c)) eqn:E; [by apply str_uuid_ne in E|]. done. }
  destruct (decide (transport p = hysteria)) as [Ht|Ht].
  - rewrite bool_decide_eq_true_2 by done. cbn [snd]. eexists. split; [reflexivity|].
    destruct (ss2022_server_key p); [by destruct Hss|]. cbn [is_set]. apply Hn.
    by apply Forall_true.
  - rewrite bool_decide_eq_false_2 by done. destruct (vmess p) eqn:Hv.
    + cbn [snd]. eexists. split; [reflexivity|].
      destruct (ss2022_server_key p); [by destruct Hss|]. cbn [is_set]. apply Hn, Hid.
    + destruct (ss2022_server_key p) as [k|] eqn:Hk; cbn [snd is_set].
      * eexists. split; [reflexivity|]. apply map_read_fmap. eapply Forall_impl; [exact Hcs|].
        intros c Hc. unfold ss2022_name, jobj, jget. rewrite fmap_cons. cbn [dict_get fst snd].
        rewrite decide_True by done. cbn [mbind result_bind default id py_str]. by rewrite ss2022_key_back.
      * eexists. split; [reflexivity|]. apply Hn, Hid.
Qed.

Lemma find_inbound_rendered p s ps o tail :
  NoDup (port <$> ps) -> p ∈ ps ->
  Forall (fun c => is_uuid (client_uuid c)) (clients s) ->
  (ss2022_server_key p <> None -> transport p <> hysteria /\ vmess p = false) ->
  find_inbound p (((fun p => inbound sha256_hex p (clients_for (profile_code p) s) (tls_cert_file o) (tls_key_file o))
                     <$> ps) ++ tail) =
  Ok ((fun c => str_uuid (client_uuid c)) <$> clients_for (profile_code p) s).
Proof.
  intros Hnd Hp Hs Hss. induction ps as [|q ps IH]; [by apply not_elem_of_nil in Hp|].
  rewrite fmap_cons in Hnd. apply NoDup_cons in Hnd as [Hq Hnd]. rewrite fmap_cons. cbn [app find_inbound].
  destruct (protocol_settings sha256_hex q (clients_for (profile_code q) s)) as [protocol settings] eqn:Hset.
  assert (Hport : jget "port" (inbound sha256_hex q (clients_for (profile_code q) s) (tls_cert_file o) (tls_key_file o))
                  = Ok (Some (JInt (port q)))) by (unfold inbound; by rewrite Hset).
  rewrite Hport. cbn [mbind result_bind default id json_is_int].
  apply elem_of_cons in Hp as [->|Hp].
  - rewrite Z.eqb_refl. cbn [negb].
    assert (Hsg : jget "settings" (inbound sha256_hex q (clients_for (profile_code q) s) (tls_cert_file o) (tls_key_file o))
                  = Ok (Some (jobj settings))) by (unfold inbound; by rewrite Hset).
    rewrite Hsg. cbn [mbind result_bind default id].
    destruct (read_inbound_clients q (clients_for (profile_code q) s)) as (l & Hl & Hr); [|done|].
    { by apply Forall_filter_list. }
    rewrite Hset in Hl. cbn [snd] in Hl. unfold jobj, jget. rewrite Hl. cbn [mbind result_bind default id iter_json].
    exact Hr.
  - assert (port q <> port p).
    { intros He. apply Hq. rewrite He. by apply list_elem_of_fmap_2. }
    rewrite (proj2 (Z.eqb_neq _ _)) by done. cbn [negb]. by apply IH.
Qed.

Lemma live_clients_rendered p s ps o :
  profiles_ok ps -> p ∈ ps -> state_ok s ->
  live_client_uuids p (render_xray_server_config sha256_hex s ps o) =
  Ok ((fun c => str_uuid (client_uuid c)) <$> clients_for (profile_code p) s).
Proof.
  intros Hps Hp Hs. unfold live_client_uuids, render_xray_server_config.
  rewrite loads_dumps_indent by apply server_config_wf. unfold server_config.
  cbn -[inbound _stats_api_inbound find_inbound]. apply find_inbound_rendered; [apply Hps|done|done|].
  pose proof (ss2022_plain _ Hps) as H. rewrite Forall_forall in H. by apply H.
Qed.
End ReadBack.

End XrayConfig.
