(* ===== verification/HysteriaConfig.v ===== *)
(** * The Hysteria2 server's configuration

    Models [nebula_agent/drivers/hysteria_config_store.py] and the reading back
    of that file ([_live_hysteria_uuids] of [nebula_agent/drivers/xray.py]).
    SHA-256 is a parameter. *)

From S2P Require Import Prelude PyText PyBytes Json XrayConfig.
Import XrayConfig.

Module HysteriaConfig.

Definition NO_CLIENTS_USER : text := str "__no_clients__".
Definition TRAFFIC_STATS_PORT : Z := 25413.
Definition HYSTERIA_AUTH_PORT : Z := 25415.
Definition HYSTERIA_AUTH_PATH : text := str "/hysteria/auth".

Record HysteriaServerProfile := {
  h_profile_code : text;
  h_port : Z;
  h_tls_cert_file : text;
  h_tls_key_file : text;
  obfs_password : text;
  up_mbps : Z;
  down_mbps : Z;
  masquerade_url : text;
}.

(** Backslashes doubled, then quotes escaped. *)
Definition _quote (v : text) : text :=
  QUOTE :: concat ((fun c => if bool_decide (c = BSLASH) then [BSLASH; BSLASH]
                             else if bool_decide (c = QUOTE) then [BSLASH; QUOTE] else [c]) <$> v) ++ [QUOTE].

(** [sorted(us, key=str)] *)
Fixpoint insert_uuid (u : Z) (us : list Z) : list Z :=
  match us with
  | [] => [u]
  | v :: us' => if text_le (str_uuid u) (str_uuid v) then u :: us else v :: insert_uuid u us'
  end.
Definition sort_uuids (us : list Z) : list Z := foldr insert_uuid [] us.

Section Render.
Context (sha256_hex : text -> text).

Definition traffic_stats_secret (p : HysteriaServerProfile) : text :=
  sha256_hex (str "nebula-hysteria-traffic-stats:" ++ obfs_password p).
Definition _no_clients_secret (p : HysteriaServerProfile) : text :=
  sha256_hex (str "nebula-no-clients:" ++ obfs_password p).

Definition userpass_entry (user password : text) : text :=
  str "    " ++ _quote user ++ str ": " ++ _quote password.

Definition _userpass_entries (us : list Z) (p : HysteriaServerProfile) : list text :=
  match us with
  | [] => [userpass_entry NO_CLIENTS_USER (_no_clients_secret p)]
  | _ => (fun u => userpass_entry (str_uuid u) (str_uuid u)) <$> sort_uuids us
  end.

Definition acl_lines (dns_address : option text) : list text :=
  [str "acl:"; str "  inline:"] ++
  match dns_address with
  | Some ((c :: r) as a) => [str "    - direct(" ++ a ++ str ", udp/53)"; str "    - direct(" ++ a ++ str ", tcp/53)"]
  | _ => []
  end ++
  ((fun d => str "    - reject(" ++ d ++ str ")") <$> BLOCKED_DESTINATIONS) ++
  [str "    - direct(all)"].

Definition _after_auth (p : HysteriaServerProfile) (api_host : text) (dns_redirect : option (text * text)) :
    list text :=
  [[]] ++ acl_lines (fst <$> dns_redirect) ++
  [[];
   str "trafficStats:";
   str "  listen: " ++ api_host ++ str ":" ++ show_Z TRAFFIC_STATS_PORT;
   str "  secret: " ++ _quote (traffic_stats_secret p);
   [];
   str "obfs:"; str "  type: salamander"; str "  salamander:";
   str "    password: " ++ _quote (obfs_password p);
   [];
   str "quic:"; str "  initStreamReceiveWindow: 8388608"; str "  maxStreamReceiveWindow: 8388608";
   str "  initConnReceiveWindow: 20971520"; str "  maxConnReceiveWindow: 20971520";
   str "  maxIdleTimeout: 60s"; str "  keepAlivePeriod: 10s"; str "  disablePathMTUDiscovery: false";
   [];
   str "# Advisory only: ignoreClientBandwidth below puts BBR in charge, which";
   str "# measures the path instead of trusting a declared number. Hysteria2's";
   str "# default Brutal sender transmits at whatever the client claims, which";
   str "# on a real link that is nothing like the claim means continuous";
   str "# overshoot -- observed live as unusable jitter until this was set.";
   str "bandwidth:";
   str "  up: " ++ show_Z (up_mbps p) ++ str " mbps";
   str "  down: " ++ show_Z (down_mbps p) ++ str " mbps";
   [];
   str "ignoreClientBandwidth: true";
   [];
   str "resolver:"; str "  type: udp"; str "  udp:";
   str "    addr: " ++ match snd <$> dns_redirect with Some (c :: r) => c :: r | _ => str "8.8.8.8:53" end;
   str "    timeout: 10s";
   [];
   str "# Anything failing authentication is transparently proxied to a real";
   str "# site, so an active prober sees a working website rather than a port";
   str "# that answers nothing.";
   str "masquerade:"; str "  type: proxy"; str "  proxy:";
   str "    url: " ++ _quote (masquerade_url p);
   str "    rewriteHost: true";
   []].

Definition before_auth (p : HysteriaServerProfile) : list text :=
  [str "# Rendered by nebula-agent. Do not edit by hand -- every change is a";
   str "# full re-render from the provisioned client set.";
   [];
   str "listen: :" ++ show_Z (h_port p);
   [];
   str "tls:";
   str "  cert: " ++ _quote (h_tls_cert_file p);
   str "  key: " ++ _quote (h_tls_key_file p);
   [];
   str "auth:"].

Definition auth_lines (us : list Z) (p : HysteriaServerProfile) (auth_url : option text) : list text :=
  match auth_url with
  | Some url => [str "  type: http"; str "  http:"; str "    url: " ++ _quote url]
  | None => [str "  type: userpass"; str "  userpass:"] ++ _userpass_entries us p
  end.

Definition render_hysteria_server_config (us : list Z) (p : HysteriaServerProfile) (api_host : text)
    (auth_url : option text) (dns_redirect : option (text * text)) : text :=
  join [NL] (before_auth p ++ auth_lines us p auth_url ++ _after_auth p api_host dns_redirect).
End Render.

(** ** Reading it back *)

(** [p in t] *)
Fixpoint contains (p t : text) : bool :=
  startswith p t || match t with [] => false | _ :: r => contains p r end.

Definition http_marker : text := NL :: str "  type: http" ++ [NL].

(** The text before the first colon of a line, without blanks and quotes
    around it. *)
Definition entry_key (line : text) : text :=
  strip_of [QUOTE] (strip (partition ":"%char (strip line)).1.1).

(** The loop, from inside the [userpass] map. *)
Fixpoint userpass_keys (lines : list text) : list text :=
  match lines with
  | [] => []
  | line :: lines' =>
      if startswith (str "  userpass:") line then userpass_keys lines'
      else if negb (startswith (str "    ") line) || bool_decide (strip line ∈ [[]; str "{}"]) then []
      else let key := entry_key line in
           if bool_decide (key <> [] /\ key <> NO_CLIENTS_USER) then key :: userpass_keys lines'
           else userpass_keys lines'
  end.
Fixpoint find_userpass (lines : list text) : list text :=
  match lines with
  | [] => []
  | line :: lines' => if startswith (str "  userpass:") line then userpass_keys lines' else find_userpass lines'
  end.

(** [_live_hysteria_uuids] on the text of the file; [recorded] is the
    last-known-good set, read only when the file holds no list. *)
Definition live_hysteria_uuids (p : option HysteriaServerProfile) (recorded : option DesiredXrayState)
    (t : text) : result read_error (list text) :=
  if contains http_marker t then
    match p with
    | None => Ok []
    | Some p =>
        match recorded with
        | Some s => Ok ((fun c => str_uuid (client_uuid c)) <$> clients_for (h_profile_code p) s)
        | None => Err ValueError
        end
    end
  else Ok (find_userpass (splitlines t)).

(** ** The list reads back *)

Lemma contains_app p a b : contains p (a ++ p ++ b) = true.
Proof.
  induction a as [|c a IH]; [|cbn; by rewrite IH, orb_true_r].
  cbn [app]. destruct (p ++ b) eqn:E; cbn [contains]; rewrite <- E at 1; by rewrite startswith_app.
Qed.

Lemma contains_skip c p l t : c ∉ l -> contains (c :: p) (l ++ t) = contains (c :: p) t.
Proof.
  induction l as [|d l IH]; intros Hc; [done|]. apply not_elem_of_cons in Hc as [Hd Hc].
  cbn [app contains startswith]. rewrite bool_decide_eq_false_2 by done. cbn. by apply IH.
Qed.

Lemma startswith_line l l' t :
  NL ∉ l -> NL ∉ l' -> startswith (l ++ [NL]) (l' ++ NL :: t) = true -> l = l'.
Proof.
  revert l'. induction l as [|c l IH]; intros [|c' l'] Hl Hl'; cbn; intros H; try done;
    apply andb_true_iff in H as [H1 H2]; apply bool_decide_eq_true in H1; subst.
  - by apply not_elem_of_cons in Hl' as [[] _].
  - by apply not_elem_of_cons in Hl as [[] _].
  - apply not_elem_of_cons in Hl, Hl'. f_equal. apply IH; tauto.
Qed.

(** A whole line occurs in joined lines only as one of them. *)
Lemma contains_line l ls :
  NL ∉ l -> Forall (fun l' => NL ∉ l') ls ->
  contains (NL :: l ++ [NL]) (join [NL] ls) = true -> l ∈ ls.
Proof.
  intros Hl Hls. induction Hls as [|l0 ls H0 Hls IH]; [done|]. destruct ls as [|l1 ls].
  - cbn [join]. intros Hc. rewrite <- (app_nil_r l0), contains_skip in Hc by done. done.
  - cbn [join]. rewrite contains_skip by done. cbn [app]. intros Hc. right.
    change (contains (NL :: l ++ [NL]) (NL :: join [NL] (l1 :: ls))) with
      ((bool_decide (NL = NL) && startswith (l ++ [NL]) (join [NL] (l1 :: ls)))
       || contains (NL :: l ++ [NL]) (join [NL] (l1 :: ls))) in Hc.
    apply orb_true_iff in Hc as [Hc|Hc]; [|by apply IH].
    apply andb_true_iff, proj2 in Hc. apply Forall_cons in Hls as [H1 Hls].
    assert (l = l1) as ->; [|by left]. destruct ls as [|l2 ls].
    + cbn [join] in Hc. apply startswith_spec in Hc as (r & Hr). exfalso. apply H1. rewrite Hr.
      apply elem_of_app. left. apply elem_of_app. right. by left.
    + cbn [join app] in Hc. by eapply startswith_line.
Qed.

Lemma join_cut sep xs ys :
  xs <> [] -> ys <> [] -> join sep (xs ++ ys) = join sep xs ++ sep ++ join sep ys.
Proof.
  intros Hx Hy. induction xs as [|x xs IH]; [done|]. destruct xs as [|x' xs].
  - cbn [app join]. by destruct ys.
  - transitivity (x ++ sep ++ join sep ((x' :: xs) ++ ys)); [done|]. rewrite IH by done.
    change (join sep (x :: x' :: xs)) with (x ++ sep ++ join sep (x' :: xs)). by rewrite <- !app_assoc.
Qed.

Lemma contains_interior pre l post :
  pre <> [] -> post <> [] -> contains (NL :: l ++ [NL]) (join [NL] (pre ++ l :: post)) = true.
Proof.
  intros Hpre Hpost. rewrite join_cut by done. change (l :: post) with ([l] ++ post).
  rewrite (join_cut _ [l]) by done. cbn [join].
  replace ([NL] ++ l ++ [NL] ++ join [NL] post) with ((NL :: l ++ [NL]) ++ join [NL] post)
    by (cbn [app]; by rewrite <- app_assoc).
  apply contains_app.
Qed.

Lemma no_break_NL l : no_break l -> NL ∉ l.
Proof. intros H Hin. unfold no_break in H. rewrite Forall_forall in H. by specialize (H _ Hin). Qed.

Lemma str_no_break s : forallb (fun c => negb (is_linebreak c)) (str s) = true -> no_break (str s).
Proof.
  intros H. apply Forall_forall. intros c Hc. rewrite forallb_forall in H.
  apply negb_true_iff, H. by apply list_elem_of_In.
Qed.

Lemma lines_no_break ls :
  forallb (forallb (fun c => negb (is_linebreak c))) ls = true -> Forall no_break ls.
Proof.
  intros H. apply Forall_forall. intros l Hl. rewrite forallb_forall in H.
  specialize (H l (proj1 (list_elem_of_In _ _) Hl)). apply Forall_forall. intros c Hc.
  rewrite forallb_forall in H. apply negb_true_iff, H. by apply list_elem_of_In.
Qed.

Lemma no_break_app a b : no_break a -> no_break b -> no_break (a ++ b).
Proof. intros. by apply Forall_app. Qed.

Lemma quote_no_break v : no_break v -> no_break (_quote v).
Proof.
  intros H. unfold _quote. apply Forall_cons. split; [done|]. apply no_break_app; [|by repeat constructor].
  induction H as [|c v Hc _ IH]; [constructor|]. cbn. apply no_break_app; [|exact IH].
  repeat case_match; repeat constructor; done.
Qed.

Lemma show_Z_no_break n : no_break (show_Z n).
Proof. apply no_space_no_break, show_Z_no_space. Qed.

Lemma uuid_no_break u : is_uuid u -> no_break (str_uuid u).
Proof.
  intros Hu. apply no_space_no_break. eapply Forall_impl; [by apply str_uuid_chars|]. intros c Hc.
  unfold uuid_char in Hc. apply orb_true_iff in Hc as [Hc|Hc]; [by apply alnum_not_space|].
  by apply bool_decide_eq_true in Hc as ->.
Qed.

Lemma quote_uuid u : is_uuid u -> _quote (str_uuid u) = QUOTE :: str_uuid u ++ [QUOTE].
Proof.
  intros Hu. unfold _quote. do 2 f_equal. pose proof (str_uuid_chars u Hu) as H.
  induction H as [|c v Hc _ IH]; [done|]. rewrite fmap_cons. cbn [concat]. rewrite IH.
  rewrite !bool_decide_eq_false_2 by (intros ->; by vm_compute in Hc). done.
Qed.

Lemma sort_uuids_elem us u : u ∈ sort_uuids us <-> u ∈ us.
Proof.
  assert (Hi : forall v l, u ∈ insert_uuid v l <-> u = v \/ u ∈ l).
  { intros v. induction l as [|w l IH]; cbn; [set_solver|]. case_match; set_solver. }
  induction us as [|v us IH]; cbn; [done|]. rewrite Hi, IH. set_solver.
Qed.

Lemma strip_quoted a b :
  strip (str "    " ++ (QUOTE :: a) ++ str ": " ++ QUOTE :: b ++ [QUOTE]) =
  (QUOTE :: a) ++ ":"%char :: " "%char :: QUOTE :: b ++ [QUOTE].
Proof.
  cbn [app]. change (str "    ") with [" "%char; " "%char; " "%char; " "%char]. cbn [app].
  rewrite !strip_space_l by done.
  assert (E : a ++ str ": " ++ QUOTE :: b ++ [QUOTE] = (a ++ [":"%char; " "%char; QUOTE] ++ b) ++ [QUOTE])
    by (rewrite <- !app_assoc; reflexivity).
  rewrite E, strip_ends by done. by rewrite <- E.
Qed.

(** The key of an entry is the user it was written for. *)
Lemma entry_key_back user password :
  ":"%char ∉ user -> QUOTE ∉ user -> user <> [] -> _quote user = QUOTE :: user ++ [QUOTE] ->
  entry_key (userpass_entry user password) = user.
Proof.
  intros Hc Hq Hne Hu. unfold entry_key, userpass_entry. rewrite Hu. unfold _quote at 1.
  rewrite strip_quoted. rewrite partition_app.
  - cbn [fst]. change (QUOTE :: user ++ [QUOTE]) with (QUOTE :: user ++ [QUOTE]).
    rewrite strip_ends by done. unfold strip_of.
    assert (Hl : forall t, QUOTE ∉ t -> t <> [] -> forall tl, lstrip_of [QUOTE] (QUOTE :: t ++ tl) = t ++ tl).
    { intros t Ht Htne tl. destruct t as [|c t]; [done|]. cbn [lstrip_of app].
      rewrite bool_decide_eq_true_2 by (by left).
      rewrite bool_decide_eq_false_2; [done|]. rewrite list_elem_of_singleton. intros ->. apply Ht. by left. }
    rewrite Hl by done. rewrite reverse_app. change (reverse [QUOTE] ++ reverse user) with (QUOTE :: reverse user).
    rewrite <- (app_nil_r (reverse user)), Hl, app_nil_r; [apply reverse_involutive| |].
    + by rewrite elem_of_reverse.
    + intros He. apply Hne. rewrite <- (reverse_involutive user), He. done.
  - cbn [app]. rewrite not_elem_of_cons, not_elem_of_app, list_elem_of_singleton. done.
Qed.

Lemma userpass_entry_line user password :
  startswith (str "  userpass:") (userpass_entry user password) = false /\
  startswith (str "    ") (userpass_entry user password) = true /\
  strip (userpass_entry user password) ∉ [[]; str "{}"].
Proof.
  repeat split. unfold userpass_entry, _quote at 1.
  change ((QUOTE :: ?x ++ [QUOTE]) ++ ?r) with (QUOTE :: (x ++ [QUOTE]) ++ r).
  unfold _quote. change (QUOTE :: (?x ++ [QUOTE]) ++ ?r) with ((QUOTE :: x ++ [QUOTE]) ++ r).
  rewrite strip_quoted. cbn [app]. rewrite !not_elem_of_cons. repeat split; try done. apply not_elem_of_nil.
Qed.

Lemma find_userpass_skip pre ls :
  Forall (fun l => startswith (str "  userpass:") l = false) pre ->
  find_userpass (pre ++ ls) = find_userpass ls.
Proof. induction 1 as [|l pre Hl _ IH]; [done|]. cbn [app find_userpass]. by rewrite Hl. Qed.

Lemma userpass_keys_step user password ls :
  userpass_keys (userpass_entry user password :: ls) =
  let key := entry_key (userpass_entry user password) in
  if bool_decide (key <> [] /\ key <> NO_CLIENTS_USER) then key :: userpass_keys ls else userpass_keys ls.
Proof.
  destruct (userpass_entry_line user password) as (H1 & H2 & H3). cbn [userpass_keys].
  rewrite H1, H2. by rewrite bool_decide_eq_false_2.
Qed.

Lemma userpass_keys_listed us rest :
  Forall is_uuid us ->
  userpass_keys (((fun u => userpass_entry (str_uuid u) (str_uuid u)) <$> us) ++ [] :: rest) = str_uuid <$> us.
Proof.
  induction 1 as [|u us Hu _ IH]; [done|]. rewrite !fmap_cons. cbn [app]. rewrite userpass_keys_step, IH.
  cbn zeta. rewrite entry_key_back.
  - rewrite bool_decide_eq_true_2; [done|]. split; [by apply str_uuid_ne|]. intros He.
    assert (Hc : "_"%char ∉ str_uuid u) by (by apply str_uuid_not_elem). apply Hc. rewrite He. by left.
  - by apply str_uuid_not_elem.
  - by apply str_uuid_not_elem.
  - by apply str_uuid_ne.
  - by apply quote_uuid.
Qed.

Lemma userpass_keys_placeholder secret rest :
  userpass_keys (userpass_entry NO_CLIENTS_USER secret :: [] :: rest) = [].
Proof.
  rewrite userpass_keys_step. cbn zeta. rewrite entry_key_back; [done|..].
  - apply (bool_decide_eq_true_1 _). vm_compute. reflexivity.
  - apply (bool_decide_eq_true_1 _). vm_compute. reflexivity.
  - done.
  - reflexivity.
Qed.

Section ReadBack.
Context (sha256_hex : text -> text) (Hsha : forall t, no_break (sha256_hex t)).

(** What the settings may put into the file: one line each. *)
Record hysteria_ok (p : HysteriaServerProfile) (api_host : text) (dns : option (text * text)) : Prop := {
  ok_cert : no_break (h_tls_cert_file p);
  ok_key : no_break (h_tls_key_file p);
  ok_obfs : no_break (obfs_password p);
  ok_masquerade : no_break (masquerade_url p);
  ok_api : no_break api_host;
  ok_dns : forall a r, dns = Some (a, r) -> no_break a /\ no_break r;
}.

Ltac one_line :=
  repeat first
    [ assumption
    | apply Hsha
    | apply str_no_break; vm_compute; reflexivity
    | apply no_break_app
    | apply quote_no_break
    | apply show_Z_no_break
    | apply Forall_nil; exact I
    | apply Forall_cons; split ].

Lemma after_auth_lines p api dns :
  hysteria_ok p api dns -> Forall no_break (_after_auth sha256_hex p api dns).
Proof using Hsha.
  intros []. unfold _after_auth, acl_lines, traffic_stats_secret.
  apply Forall_app. split; [by repeat constructor|]. apply Forall_app. split.
  - apply Forall_app. split; [one_line|]. apply Forall_app. split; [|apply Forall_app; split].
    + destruct dns as [[[|c a] r]|]; cbn [fmap option_fmap option_map fst]; [one_line| |one_line].
      destruct (ok_dns0 _ _ eq_refl). one_line.
    + apply lines_no_break. vm_compute. reflexivity.
    + one_line.
  - assert (Hr : no_break (match snd <$> dns with Some (c :: r) => c :: r | _ => str "8.8.8.8:53" end)).
    { destruct dns as [[a [|c r]]|]; cbn [fmap option_fmap option_map snd];
        [by apply str_no_break| |by apply str_no_break].
      by destruct (ok_dns0 _ _ eq_refl). }
    one_line.
Qed.

Lemma before_auth_lines p api dns : hysteria_ok p api dns -> Forall no_break (before_auth p).
Proof using Type. intros []. unfold before_auth. one_line. Qed.

Lemma auth_lines_lines us p url :
  Forall is_uuid us -> (forall u, url = Some u -> no_break u) -> Forall no_break (auth_lines sha256_hex us p url).
Proof using Hsha.
  intros Hus Hurl. unfold auth_lines. destruct url as [url|].
  - specialize (Hurl _ eq_refl). one_line.
  - apply Forall_app. split; [one_line|]. unfold _userpass_entries, userpass_entry. destruct us as [|u us].
    + one_line.
    + apply Forall_fmap, Forall_forall. intros v Hv. rewrite sort_uuids_elem in Hv.
      rewrite Forall_forall in Hus. pose proof (uuid_no_break v (Hus v Hv)). cbv beta. one_line.
Qed.

Lemma http_line_absent us p api dns :
  str "  type: http" ∉ before_auth p ++ auth_lines sha256_hex us p None ++ _after_auth sha256_hex p api dns.
Proof using Type.
  cut (Forall (fun l => l <> str "  type: http")
         (before_auth p ++ auth_lines sha256_hex us p None ++ _after_auth sha256_hex p api dns)).
  { intros H Hin. rewrite Forall_forall in H. by apply (H _ Hin). }
  unfold before_auth, auth_lines, _after_auth, acl_lines.
  repeat (apply Forall_app; split); try (repeat (apply Forall_cons; split; [done|]); by apply Forall_nil).
  - unfold _userpass_entries. destruct us as [|u us].
    + apply Forall_cons; split; [done|by apply Forall_nil].
    + by apply Forall_fmap, Forall_true.
  - destruct (fst <$> dns) as [[|c a]|]; try by apply Forall_nil.
    repeat (apply Forall_cons; split; [done|]); by apply Forall_nil.
Qed.

Lemma hysteria_lines us p api url dns :
  hysteria_ok p api dns -> Forall is_uuid us -> (forall u, url = Some u -> no_break u) ->
  Forall no_break (before_auth p ++ auth_lines sha256_hex us p url ++ _after_auth sha256_hex p api dns).
Proof using Hsha.
  intros Hok Hus Hurl. apply Forall_app. split; [by eapply before_auth_lines|]. apply Forall_app.
  split; [by apply auth_lines_lines|by apply after_auth_lines].
Qed.

Lemma after_auth_ends p api dns : exists ls, _after_auth sha256_hex p api dns = [] :: ls ++ [[]].
Proof using Type.
  eexists. unfold _after_auth. cbn [app]. apply (f_equal (cons [])). symmetry. rewrite <- app_assoc. f_equal.
  match goal with |- _ = ?l => change l with (removelast l ++ [[] : text]) end. reflexivity.
Qed.

(** A file with a list: exactly the users written into it, the placeholder of
    the empty list left out. *)
Lemma live_hysteria_listed q rec us p api dns :
  hysteria_ok p api dns -> Forall is_uuid us ->
  live_hysteria_uuids q rec (render_hysteria_server_config sha256_hex us p api None dns) =
  Ok (str_uuid <$> sort_uuids us).
Proof using Hsha.
  intros Hok Hus. unfold live_hysteria_uuids, render_hysteria_server_config.
  pose proof (hysteria_lines us p api None dns Hok Hus ltac:(done)) as Hl.
  destruct (contains http_marker _) eqn:Hc.
  { apply contains_line in Hc; [by apply http_line_absent in Hc|by apply no_break_NL, str_no_break|].
    eapply Forall_impl; [exact Hl|]. apply no_break_NL. }
  unfold splitlines. rewrite break_lines_join by done.
  destruct (after_auth_ends p api dns) as (ls & ->). unfold auth_lines. rewrite <- !app_assoc.
  rewrite (app_comm_cons ls), !app_assoc, drop_last_empty_app, <- !app_assoc.
  rewrite find_userpass_skip by (unfold before_auth; repeat (apply Forall_cons; split; [done|]); by apply Forall_nil).
  cbn [app]. change (find_userpass (str "  type: userpass" :: ?l)) with (find_userpass l).
  change (find_userpass (str "  userpass:" :: ?l)) with (userpass_keys l). f_equal.
  unfold _userpass_entries. destruct us as [|u us].
  - apply userpass_keys_placeholder.
  - apply userpass_keys_listed. apply Forall_forall. intros v Hv. rewrite sort_uuids_elem in Hv.
    rewrite Forall_forall in Hus. by apply Hus.
Qed.

(** A file that asks the agent: whoever is recorded. *)
Lemma live_hysteria_asked p s us api url dns :
  live_hysteria_uuids (Some p) (Some s) (render_hysteria_server_config sha256_hex us p api (Some url) dns) =
  Ok ((fun c => str_uuid (client_uuid c)) <$> clients_for (h_profile_code p) s).
Proof using Type.
  unfold live_hysteria_uuids, render_hysteria_server_config.
  assert (Hc : contains http_marker (join [NL] (before_auth p ++ auth_lines sha256_hex us p (Some url) ++
                 _after_auth sha256_hex p api dns)) = true).
  { unfold auth_lines. by apply contains_interior. }
  by rewrite Hc.
Qed.
End ReadBack.

End HysteriaConfig.
