(* ===== verification/IpAddress.v ===== *)
(** * IP addresses, as Python's [ipaddress] module has them

    The text forms of IPv4 and IPv6 addresses and reading them back, scope
    identifiers included, and the host addresses of a network.  The result the
    configuration store relies on is [ip_address_str]: the text of an address
    without a scope identifier reads back as that address. *)

From S2P Require Import Prelude PyText.

Inductive IPAddress :=
| IPv4Address (ip : Z)
| IPv6Address (ip : Z) (scope_id : option text).

#[global] Instance IPAddress_eq_dec : EqDecision IPAddress.
Proof. solve_decision. Defined.

Definition ip_version (a : IPAddress) : Z :=
  match a with IPv4Address _ => 4 | IPv6Address _ _ => 6 end.
Definition ip_int (a : IPAddress) : Z :=
  match a with IPv4Address ip => ip | IPv6Address ip _ => ip end.

(** The addresses a constructor can return. *)
Definition ip_valid (a : IPAddress) : Prop :=
  match a with
  | IPv4Address ip => 0 <= ip < 2 ^ 32
  | IPv6Address ip scope =>
      0 <= ip < 2 ^ 128 /\
      match scope with
      | None => True
      | Some s => s <> [] /\ ("%"%char ∉ s) /\ ("/"%char ∉ s)
      end
  end.

Definition unscoped (a : IPAddress) : Prop :=
  match a with IPv6Address _ (Some _) => False | _ => True end.

(** ** Text *)

(** The [k] low digits of [n] in base [b]. *)
Fixpoint low_digits (k : nat) (b n : Z) : list Z :=
  match k with
  | O => []
  | S k' => low_digits k' b (n / b) ++ [n mod b]
  end.

Definition octets (ip : Z) : list Z := low_digits 4 256 ip.
Definition hextets (ip : Z) : list Z := low_digits 8 65536 ip.

(** The leftmost longest run of ["0"]: (where it starts, how long it is).
    [cur] is the length of the run ending just before position [i]. *)
Fixpoint best_run (i cur : nat) (best : nat * nat) (xs : list text) : nat * nat :=
  match xs with
  | [] => best
  | x :: r =>
      if decide (x = str "0")
      then best_run (S i) (S cur)
             (if (best.2 <? S cur)%nat then ((i - cur)%nat, S cur) else best) r
      else best_run (S i) 0 best r
  end.

(** [_compress_hextets] *)
Definition compress_hextets (xs : list text) : list text :=
  let '(s, n) := best_run 0 0 (0%nat, 0%nat) xs in
  if (n <=? 1)%nat then xs
  else (if decide (s = 0%nat) then [[]] else []) ++ take s xs ++ [[]] ++ drop (s + n) xs
       ++ (if decide (s + n = length xs)%nat then [[]] else []).

(** [str(address)] *)
Definition str_address (a : IPAddress) : text :=
  match a with
  | IPv4Address ip => join (str ".") (show_nat <$> octets ip)
  | IPv6Address ip scope =>
      join (str ":") (compress_hextets (show_hex <$> hextets ip))
      ++ match scope with None => [] | Some s => "%"%char :: s end
  end.

(** ** Reading *)

Definition all_dec (t : text) : bool := forallb (fun c => bool_decide (dec_digit c <> None)) t.

Definition parse_octet (t : text) : option Z :=
  match t with
  | [] => None
  | c :: r =>
      if negb (all_dec t) then None
      else if (3 <? length t)%nat then None
      else if bool_decide (c = "0"%char) && negb (bool_decide (r = [])) then None
      else match uint_go 0 false t with
           | Some n => if 255 <? n then None else Some n
           | None => None
           end
  end.

Definition parse_ipv4 (t : text) : option Z :=
  match mapM parse_octet (split_on "."%char t) with
  | Some [a; b; c; d] => Some (undigits 256 [a; b; c; d])
  | _ => None
  end.

Fixpoint hex_value (acc : Z) (t : text) : option Z :=
  match t with
  | [] => Some acc
  | c :: r => match hex_digit c with Some d => hex_value (acc * 16 + d) r | None => None end
  end.

Definition parse_hextet (t : text) : option Z :=
  match t with
  | [] => None
  | _ => if (4 <? length t)%nat then None else hex_value 0 t
  end.

(** The positions of the empty strings strictly inside [parts]. *)
Fixpoint inner_empty (i : nat) (parts : list text) : list nat :=
  match parts with
  | [] | [_] => []
  | p :: r => match p with [] => i :: inner_empty (S i) r | _ => inner_empty (S i) r end
  end.
Definition skip_positions (parts : list text) : list nat :=
  match parts with [] => [] | _ :: r => inner_empty 1 r end.

Definition is_empty (t : option text) : bool :=
  match t with Some [] => true | _ => false end.

(** Hextets before and after the ["::"], and how many zeros it stands for. *)
Definition layout (parts : list text) : option (nat * nat * nat) :=
  match skip_positions parts with
  | [i] =>
      let hi := if is_empty (head parts) then (i - 1)%nat else i in
      let lo0 := (length parts - i - 1)%nat in
      let lo := if is_empty (last parts) then (lo0 - 1)%nat else lo0 in
      if is_empty (head parts) && negb (hi =? 0)%nat then None
      else if is_empty (last parts) && negb (lo =? 0)%nat then None
      else if (8 <=? hi + lo)%nat then None
      else Some (hi, lo, (8 - (hi + lo))%nat)
  | [] => if (length parts =? 8)%nat then Some (8%nat, 0%nat, 0%nat) else None
  | _ => None
  end.

Definition parse_ipv6 (t : text) : option Z :=
  let parts0 := split_on ":"%char t in
  if (length parts0 <? 3)%nat then None
  else
    let tail := default [] (last parts0) in
    parts ← (if bool_decide ("."%char ∈ tail) then
               v4 ← parse_ipv4 tail;
               Some (removelast parts0 ++ [show_hex (v4 / 65536); show_hex (v4 mod 65536)])
             else Some parts0);
    if (9 <? length parts)%nat then None
    else
      '(hi, lo, skipped) ← layout parts;
      a ← mapM parse_hextet (take hi parts);
      b ← mapM parse_hextet (drop (length parts - lo) parts);
      Some (undigits 65536 (a ++ replicate skipped 0 ++ b)).

(** [ip_address(t)]; [None] for the [ValueError]. *)
Definition ip_address (t : text) : option IPAddress :=
  if bool_decide ("/"%char ∈ t) then None
  else match parse_ipv4 t with
  | Some ip => Some (IPv4Address ip)
  | None =>
      let '(addr, found, scope) := partition "%"%char t in
      if found && (bool_decide (scope = []) || bool_decide ("%"%char ∈ scope)) then None
      else ip ← parse_ipv6 addr;
           Some (IPv6Address ip (if found then Some scope else None))
  end.

Example str_v4 : str_address (IPv4Address 172818434) = str "10.77.0.2".
Proof. vm_compute. reflexivity. Qed.
Example str_v6 : str_address (IPv6Address (0xfd00 * 2 ^ 112 + 2) None) = str "fd00::2".
Proof. vm_compute. reflexivity. Qed.
Example read_v6 : ip_address (str "::ffff:1.2.3.4") = Some (IPv6Address 281470698652420 None).
Proof. vm_compute. reflexivity. Qed.

(** ** Round trip *)

Lemma undigits_snoc b l x : undigits b (l ++ [x]) = undigits b l * b + x.
Proof. unfold undigits. by rewrite foldl_app. Qed.

Lemma undigits_low k b n : 0 < b -> undigits b (low_digits k b n) = n mod b ^ Z.of_nat k.
Proof.
  intros Hb. revert n. induction k as [|k IH]; intros n; cbn [low_digits].
  - change (0 = n mod 1). symmetry. apply Z.mod_1_r.
  - rewrite undigits_snoc, IH.
    replace (Z.of_nat (S k)) with (Z.succ (Z.of_nat k)) by lia.
    rewrite Z.pow_succ_r by lia. rewrite Z.rem_mul_r by lia. lia.
Qed.

Lemma low_digits_bound k b n : 0 < b -> Forall (fun d => 0 <= d < b) (low_digits k b n).
Proof.
  intros Hb. revert n. induction k as [|k IH]; intros n; cbn; [constructor|].
  apply Forall_app. split; [apply IH|]. repeat constructor; apply Z.mod_pos_bound; lia.
Qed.

Lemma low_digits_length k b n : length (low_digits k b n) = k.
Proof. revert n. induction k as [|k IH]; intros n; cbn; [done|]. rewrite length_app, IH. cbn. lia. Qed.

Lemma show_nat_ne n : 0 <= n -> show_nat n <> [].
Proof. intros Hn. destruct (show_nat_cons n Hn) as (d & ds & -> & _). done. Qed.

Lemma show_hex_ne n : 0 <= n -> show_hex n <> [].
Proof.
  intros Hn. unfold show_hex. destruct (digits_cons 16 n) as (d & ds & ->); [lia|done|]. done.
Qed.

Lemma parse_octet_show n : 0 <= n < 256 -> parse_octet (show_nat n) = Some n.
Proof.
  intros Hn. unfold parse_octet. pose proof (uint_go_show n ltac:(lia)) as Hu.
  assert (Hd : all_dec (show_nat n) = true).
  { apply Is_true_true, forallb_True. unfold show_nat. apply Forall_fmap.
    eapply Forall_impl; [apply (digits_bound 10 n); lia|]. intros d Hd. cbn in *.
    apply Is_true_true, bool_decide_eq_true. by rewrite dec_digit_char. }
  assert (Hl : (length (show_nat n) <= 3)%nat).
  { unfold show_nat. rewrite length_fmap. apply digits_length; [lia|cbn; lia|lia]. }
  destruct (show_nat n) as [|c r] eqn:Hs; [by apply show_nat_ne in Hs; [|lia]|].
  rewrite Hd. cbn [negb]. rewrite (proj2 (Nat.ltb_ge 3 _) Hl).
  assert (Hz : bool_decide (c = "0"%char) && negb (bool_decide (r = [])) = false).
  { destruct (decide (n = 0)) as [->|Hne].
    - unfold show_nat in Hs. rewrite digits_0 in Hs by lia. cbn in Hs. simplify_eq.
      by rewrite andb_false_r.
    - unfold show_nat in Hs. destruct (digits_head 10 n) as (d & ds & Hds & Hpos); [lia|lia|].
      rewrite Hds in Hs. cbn in Hs. simplify_eq. rewrite bool_decide_eq_false_2; [done|].
      intros Heq. apply (f_equal code) in Heq.
      pose proof (digits_bound 10 n ltac:(lia) ltac:(lia)) as Hb. rewrite Hds in Hb.
      apply Forall_cons in Hb as [Hb _]. cbn in Hb. rewrite digit_char_code in Heq by lia.
      rewrite (proj2 (Z.ltb_lt d 10)) in Heq by lia. change (code "0"%char) with 48 in Heq. lia. }
  rewrite Hz, Hu. by rewrite (proj2 (Z.ltb_ge 255 n)) by lia.
Qed.

Lemma alnum_fields ls sep (f : Z -> text) :
  Forall (fun n => alnum (f n)) ls -> is_alnum sep = false -> Forall (fun l => sep ∉ l) (f <$> ls).
Proof.
  intros H Hs. apply Forall_fmap. eapply Forall_impl; [exact H|]. intros n Hn. cbn.
  by apply alnum_not_elem.
Qed.

Lemma parse_ipv4_str ip :
  0 <= ip < 2 ^ 32 -> parse_ipv4 (join (str ".") (show_nat <$> octets ip)) = Some ip.
Proof.
  intros Hip. pose proof (low_digits_bound 4 256 ip ltac:(lia)) as Hb.
  unfold parse_ipv4. change (str ".") with ["."%char]. rewrite split_on_join.
  - assert (Hm : mapM parse_octet (show_nat <$> octets ip) = Some (octets ip)).
    { apply mapM_Some. apply Forall2_fmap_l, Forall_Forall2_diag.
      eapply Forall_impl; [exact Hb|]. intros n Hn. by apply parse_octet_show. }
    rewrite Hm. pose proof (undigits_low 4 256 ip ltac:(lia)) as Hu.
    rewrite Z.mod_small in Hu by (cbn; lia). unfold octets in *. cbn [low_digits app] in *.
    by rewrite Hu.
  - unfold octets. cbn. done.
  - apply alnum_fields; [|done]. eapply Forall_impl; [exact Hb|]. intros n Hn. cbn in Hn.
    apply show_alnum; lia.
Qed.

Lemma hex_value_digits ds acc :
  Forall (fun d => 0 <= d < 16) ds ->
  hex_value acc (digit_char <$> ds) = Some (foldl (fun a d => a * 16 + d) acc ds).
Proof.
  intros H. revert acc. induction H as [|d ds Hd _ IH]; intros acc; cbn; [done|].
  by rewrite hex_digit_char.
Qed.

Lemma parse_hextet_show n : 0 <= n < 65536 -> parse_hextet (show_hex n) = Some n.
Proof.
  intros Hn. unfold parse_hextet.
  assert (Hl : (length (show_hex n) <= 4)%nat).
  { unfold show_hex. rewrite length_fmap. apply digits_length; [lia|cbn; lia|lia]. }
  destruct (show_hex n) as [|c r] eqn:Hs; [by apply show_hex_ne in Hs; [|lia]|].
  rewrite (proj2 (Nat.ltb_ge 4 _) Hl). rewrite <- Hs. unfold show_hex.
  rewrite hex_value_digits by (apply digits_bound; lia). f_equal.
  by apply (undigits_digits 16); lia.
Qed.

Lemma show_hex_zero n : 0 <= n < 65536 -> show_hex n = str "0" -> n = 0.
Proof.
  intros Hn Hs. pose proof (parse_hextet_show n Hn) as Hp. rewrite Hs in Hp.
  vm_compute in Hp. congruence.
Qed.

(** The run found is a run of zeros inside the list. *)
Definition zero_run (xs : list text) (best : nat * nat) : Prop :=
  best.2 = 0%nat \/
  ((best.1 + best.2 <= length xs)%nat /\
   forall j, (best.1 <= j < best.1 + best.2)%nat -> xs !! j = Some (str "0")).

Lemma best_run_spec xs p cur best :
  zero_run p best -> (cur <= length p)%nat ->
  (forall j, (length p - cur <= j < length p)%nat -> p !! j = Some (str "0")) ->
  zero_run (p ++ xs) (best_run (length p) cur best xs).
Proof.
  revert p cur best. induction xs as [|x xs IH]; intros p cur best Hb Hcur Hrun; cbn.
  - by rewrite app_nil_r.
  - assert (Hext : zero_run (p ++ [x]) best).
    { destruct Hb as [|[H1 H2]]; [by left|]. right. rewrite length_app. split; [lia|].
      intros j Hj. rewrite lookup_app_l by lia. by apply H2. }
    replace (p ++ x :: xs) with ((p ++ [x]) ++ xs) by (by rewrite <- app_assoc).
    replace (S (length p)) with (length (p ++ [x])) by (rewrite length_app; cbn; lia).
    case_decide as Hx.
    + assert (Hrun' : forall j, (length (p ++ [x]) - S cur <= j < length (p ++ [x]))%nat ->
        (p ++ [x]) !! j = Some (str "0")).
      { intros j Hj. rewrite length_app in Hj. cbn in Hj.
        destruct (decide (j = length p)) as [->|].
        - rewrite lookup_app_r by lia. rewrite Nat.sub_diag. by subst.
        - rewrite lookup_app_l by lia. apply Hrun. lia. }
      apply IH; [|rewrite length_app; cbn; lia|exact Hrun'].
      case_match; [|done]. right. cbn. rewrite length_app. cbn. split; [lia|].
      intros j Hj. apply Hrun'. rewrite length_app. cbn. lia.
    + apply IH; [done|lia|]. intros j Hj. lia.
Qed.

(** Compression replaces a run of zeros by one empty string, with another one
    at an end the run reaches. *)
Lemma compress_shape hs :
  Forall (fun h => 0 <= h < 65536) hs ->
  compress_hextets (show_hex <$> hs) = (show_hex <$> hs) \/
  exists pre n post, hs = pre ++ replicate n 0 ++ post /\ (2 <= n)%nat /\
    compress_hextets (show_hex <$> hs) =
      (if decide (pre = []) then [[]] else []) ++ (show_hex <$> pre) ++ [[]] ++
      (show_hex <$> post) ++ (if decide (post = []) then [[]] else []).
Proof.
  intros Hall. unfold compress_hextets.
  pose proof (best_run_spec (show_hex <$> hs) [] 0 (0%nat, 0%nat) (or_introl eq_refl)
    (Nat.le_refl 0) ltac:(cbn; lia)) as Hz. cbn [app length] in Hz.
  destruct (best_run 0 0 (0%nat, 0%nat) (show_hex <$> hs)) as [s n].
  destruct (Nat.leb_spec n 1) as [|Hn]; [by left|]. right.
  destruct Hz as [Hz|[Hlen Hzero]]; cbn in *; [lia|]. rewrite length_fmap in *.
  exists (take s hs), n, (drop (s + n) hs). split; [|split; [lia|]].
  - rewrite <- (take_drop s hs) at 1. f_equal. rewrite <- (take_drop n (drop s hs)).
    rewrite drop_drop. f_equal. apply list_eq. intros j.
    destruct (decide (j < n)%nat) as [Hj|Hj].
    + rewrite lookup_replicate_2 by lia.
      rewrite lookup_take_lt by lia. rewrite lookup_drop.
      specialize (Hzero (s + j)%nat ltac:(lia)). rewrite list_lookup_fmap in Hzero.
      destruct (hs !! (s + j)%nat) as [h|] eqn:Hh; [|done]. cbn in Hzero. simplify_eq. f_equal.
      apply show_hex_zero; [|done]. rewrite Forall_lookup in Hall. by apply (Hall _ _ Hh).
    + rewrite !lookup_ge_None_2; [done|rewrite length_replicate; lia|rewrite length_take; lia].
  - rewrite <- fmap_take, <- fmap_drop. f_equal; [|f_equal; f_equal; f_equal].
    + assert (s = 0%nat <-> take s hs = []) as Hi.
      { split; [by intros ->|]. intros H. apply (f_equal length) in H. rewrite length_take in H.
        cbn in H. lia. }
      repeat case_decide; tauto.
    + assert ((s + n = length hs)%nat <-> drop (s + n) hs = []) as Hi.
      { split; [intros ->; by apply drop_ge|]. intros H. apply (f_equal length) in H.
        rewrite length_drop in H. cbn in H. lia. }
      repeat case_decide; tauto.
Qed.

Lemma fmap_nil_iff {A B} (f : A -> B) l : f <$> l = [] <-> l = [].
Proof. by destruct l. Qed.

Definition ends (P Q : list text) : list text :=
  (if decide (P = []) then [[]] else []) ++ P ++ [[]] ++ Q ++ (if decide (Q = []) then [[]] else []).

Definition nonempty (t : text) : Prop := t <> [].

Lemma inner_empty_none i xs : Forall nonempty xs -> inner_empty i xs = [].
Proof.
  intros H. revert i. induction H as [|x xs Hx Hxs IH]; intros i; [done|].
  cbn. destruct xs; [done|]. destruct x; [done|]. apply IH.
Qed.

Lemma inner_empty_app i P Q :
  Forall nonempty P -> Forall nonempty Q -> Q <> [] ->
  inner_empty i (P ++ [] :: Q) = [(i + length P)%nat].
Proof.
  intros HP HQ HQn. revert i. induction HP as [|p P Hp HP IH]; intros i.
  - cbn. destruct Q as [|q Q]; [done|]. rewrite inner_empty_none by done.
    repeat f_equal. lia.
  - cbn [app length inner_empty]. destruct (P ++ [] :: Q) as [|y l] eqn:Hy; [by destruct P|].
    destruct p; [done|]. rewrite IH. f_equal. lia.
Qed.

Lemma inner_empty_tail i P :
  Forall nonempty P -> inner_empty i (P ++ [[]; []]) = [(i + length P)%nat].
Proof.
  intros HP. revert i. induction HP as [|p P Hp HP IH]; intros i.
  - cbn. repeat f_equal. lia.
  - cbn [app length inner_empty]. destruct (P ++ [[]; []]) as [|y l] eqn:Hy; [by destruct P|].
    destruct p; [done|]. rewrite IH. f_equal. lia.
Qed.

Lemma is_empty_last P q Q : Forall nonempty (q :: Q) -> is_empty (last (P ++ q :: Q)) = false.
Proof.
  intros H. rewrite last_app_cons. destruct (last (q :: Q)) as [x|] eqn:Hx; [|done].
  apply last_Some_elem_of in Hx. rewrite Forall_forall in H. specialize (H x Hx). by destruct x.
Qed.

Lemma layout_ends P Q :
  Forall nonempty P -> Forall nonempty Q -> (length P + length Q <= 6)%nat ->
  layout (ends P Q) = Some (length P, length Q, (8 - (length P + length Q))%nat).
Proof.
  intros HP HQ Hlen. unfold layout, ends.
  destruct P as [|p P], Q as [|q Q]; cbn [decide].
  - done.
  - rewrite decide_True, decide_False by done. rewrite app_nil_r. cbn [app skip_positions].
    change (inner_empty 1 ([] :: q :: Q)) with (inner_empty 1 ([] ++ [] :: q :: Q)).
    rewrite inner_empty_app by done. cbn [length Nat.add head is_empty].
    change ([] :: [] :: q :: Q) with ([[]; []] ++ q :: Q). rewrite is_empty_last by done.
    cbn [length app]. cbn in Hlen.
    replace (S (S (S (length Q))) - 1 - 1)%nat with (S (length Q)) by lia.
    cbn [Nat.sub Nat.eqb negb andb Nat.add].
    rewrite (proj2 (Nat.leb_gt 8 (S (length Q)))) by lia. done.
  - rewrite decide_False, decide_True by done. cbn [app].
    apply Forall_cons in HP as HP'. destruct HP' as [Hp HP'].
    change (p :: P ++ [[]; []]) with (p :: P ++ [[]; []]). cbn [skip_positions].
    rewrite inner_empty_tail by done. cbn [head]. destruct p as [|c p]; [done|].
    cbn [is_empty]. replace (last ((c :: p) :: P ++ [[]; []])) with (Some (A := text) []).
    + cbn [is_empty length andb negb]. rewrite length_app. cbn [length] in *.
      replace (S (length P + 2) - (1 + length P) - 1 - 1)%nat with 0%nat by lia.
      rewrite Nat.add_0_r. cbn [Nat.eqb negb]. rewrite (proj2 (Nat.leb_gt 8 _)) by lia.
      by rewrite Nat.add_0_r.
    + change ((c :: p) :: P ++ [[]; []]) with (((c :: p) :: P) ++ [[]; []]).
      by rewrite last_app_cons.
  - rewrite !decide_False by done. rewrite app_nil_r. cbn [app].
    apply Forall_cons in HP as HP'. destruct HP' as [Hp HP'].
    cbn [skip_positions]. change (P ++ [] :: q :: Q) with (P ++ [] :: (q :: Q)).
    rewrite inner_empty_app by done. cbn [head]. destruct p as [|c p]; [done|].
    cbn [is_empty].
    replace ((c :: p) :: P ++ [] :: q :: Q) with ((((c :: p) :: P) ++ [[]]) ++ q :: Q)
      by (by rewrite <- app_assoc).
    rewrite is_empty_last by done. cbn [andb]. rewrite !length_app. cbn [length] in *.
    replace (S (length P) + 1 + S (length Q) - (1 + length P) - 1)%nat with (S (length Q)) by lia.
    rewrite (proj2 (Nat.leb_gt 8 _)) by lia. repeat f_equal; lia.
Qed.

Lemma ends_halves P Q :
  take (length P) (ends P Q) = P /\ drop (length (ends P Q) - length Q) (ends P Q) = Q.
Proof.
  unfold ends. split.
  - destruct P as [|p P]; [done|]. rewrite decide_False by done. cbn [app]. 
    change (p :: P ++ [] :: Q ++ ?x) with ((p :: P) ++ [] :: Q ++ x).
    by rewrite take_app_length.
  - destruct Q as [|q Q].
    + cbn [length]. rewrite Nat.sub_0_r. by rewrite drop_ge.
    + rewrite (decide_False (P := q :: Q = [])) by done. rewrite app_nil_r, !app_assoc.
      rewrite drop_app_length'; [done|]. rewrite !length_app. lia.
Qed.

Lemma show_hex_fields hs :
  Forall (fun h => 0 <= h < 65536) hs ->
  Forall nonempty (show_hex <$> hs) /\ Forall alnum (show_hex <$> hs) /\
  mapM parse_hextet (show_hex <$> hs) = Some hs.
Proof.
  intros H. split_and!.
  - apply Forall_fmap. eapply Forall_impl; [exact H|]. intros h Hh. apply show_hex_ne. cbn in Hh; lia.
  - apply Forall_fmap. eapply Forall_impl; [exact H|]. intros h Hh. apply show_alnum; cbn in Hh; lia.
  - apply mapM_Some, Forall2_fmap_l, Forall_Forall2_diag.
    eapply Forall_impl; [exact H|]. intros h Hh. by apply parse_hextet_show.
Qed.

Lemma parse_ipv6_join parts hi lo sk a b :
  Forall alnum parts -> (3 <= length parts <= 9)%nat ->
  layout parts = Some (hi, lo, sk) ->
  mapM parse_hextet (take hi parts) = Some a ->
  mapM parse_hextet (drop (length parts - lo) parts) = Some b ->
  parse_ipv6 (join (str ":") parts) = Some (undigits 65536 (a ++ replicate sk 0 ++ b)).
Proof.
  intros Hal Hlen Hlay Ha Hb. unfold parse_ipv6. change (str ":") with [":"%char].
  assert (Hsplit : split_on ":"%char (join [":"%char] parts) = parts).
  { apply split_on_join; [by intros ->; cbn in Hlen; lia|].
    eapply Forall_impl; [exact Hal|]. intros t Ht. by apply alnum_not_elem. }
  rewrite Hsplit. rewrite (proj2 (Nat.ltb_ge (length parts) 3)) by lia.
  rewrite bool_decide_eq_false_2.
  - cbn [mbind option_bind]. rewrite (proj2 (Nat.ltb_ge 9 (length parts))) by lia.
    rewrite Hlay. cbn. rewrite Ha. cbn. by rewrite Hb.
  - destruct (last parts) as [t|] eqn:Ht; cbn; [|apply not_elem_of_nil].
    apply last_Some_elem_of in Ht. rewrite Forall_forall in Hal.
    by apply alnum_not_elem; [apply Hal|].
Qed.

Lemma ends_alnum P Q : Forall alnum P -> Forall alnum Q -> Forall alnum (ends P Q).
Proof.
  intros HP HQ. unfold ends. rewrite !Forall_app.
  repeat split; try done; try (case_decide; repeat constructor); by repeat constructor.
Qed.

Lemma compress_alnum hs :
  Forall (fun h => 0 <= h < 65536) hs -> Forall alnum (compress_hextets (show_hex <$> hs)).
Proof.
  intros H. destruct (compress_shape hs H) as [->|(pre & n & post & Heq & Hn & Hc)].
  - by apply show_hex_fields.
  - subst hs. rewrite !Forall_app in H. destruct H as (Hpre & _ & Hpost). rewrite Hc.
    change (Forall alnum ((if decide (pre = []) then [[]] else []) ++ (show_hex <$> pre) ++
      [[]] ++ (show_hex <$> post) ++ (if decide (post = []) then [[]] else []))).
    rewrite <- (decide_ext (show_hex <$> pre = []) (pre = [])) by apply fmap_nil_iff.
    rewrite <- (decide_ext (show_hex <$> post = []) (post = [])) by apply fmap_nil_iff.
    apply ends_alnum; by apply show_hex_fields.
Qed.

Lemma parse_ipv6_str ip :
  0 <= ip < 2 ^ 128 ->
  parse_ipv6 (join (str ":") (compress_hextets (show_hex <$> hextets ip))) = Some ip.
Proof.
  intros Hip. pose proof (low_digits_bound 8 65536 ip ltac:(lia)) as Hb.
  pose proof (low_digits_length 8 65536 ip) as Hl.
  pose proof (undigits_low 8 65536 ip ltac:(lia)) as Hu.
  rewrite Z.mod_small in Hu by (change (65536 ^ Z.of_nat 8) with (2 ^ 128); lia).
  fold (hextets ip) in *. set (hs := hextets ip) in *.
  pose proof (compress_alnum hs Hb) as Hal.
  destruct (compress_shape hs Hb) as [Hc|(pre & n & post & Heq & Hn & Hc)]; rewrite Hc in *.
  - destruct (show_hex_fields hs Hb) as (Hne & _ & Hm).
    rewrite (parse_ipv6_join _ 8 0 0 hs []).
    + cbn [replicate]. by rewrite !app_nil_r, Hu.
    + done.
    + rewrite length_fmap. lia.
    + unfold layout. assert (skip_positions (show_hex <$> hs) = []) as ->.
      { destruct hs; [done|]. cbn. apply inner_empty_none. by apply Forall_cons in Hne as [_ ?]. }
      by rewrite length_fmap, Hl.
    + by rewrite take_ge by (rewrite length_fmap; lia).
    + by rewrite Nat.sub_0_r, drop_ge.
  - rewrite Heq in Hl, Hb. rewrite !Forall_app in Hb. destruct Hb as (Hpre & _ & Hpost).
    rewrite !length_app, length_replicate in Hl.
    destruct (show_hex_fields pre Hpre) as (Hne1 & _ & Hm1).
    destruct (show_hex_fields post Hpost) as (Hne2 & _ & Hm2).
    set (P := show_hex <$> pre) in *. set (Q := show_hex <$> post) in *.
    assert (HlP : length P = length pre) by apply length_fmap.
    assert (HlQ : length Q = length post) by apply length_fmap.
    assert (Hends : (if decide (pre = []) then [[]] else []) ++ P ++ [[]] ++ Q ++
                    (if decide (post = []) then [[]] else []) = ends P Q).
    { unfold ends. f_equal; [|do 3 f_equal].
      - apply decide_ext. symmetry. apply fmap_nil_iff.
      - apply decide_ext. symmetry. apply fmap_nil_iff. }
    rewrite Hends in *. destruct (ends_halves P Q) as [Ht Hd].
    rewrite (parse_ipv6_join (ends P Q) (length P) (length Q) (8 - (length P + length Q)) pre post).
    + rewrite HlP, HlQ. replace (8 - (length pre + length post))%nat with n by lia.
      by rewrite <- Heq, Hu.
    + done.
    + unfold ends. rewrite !length_app. cbn [length].
      destruct pre, post; cbn [length] in *; repeat case_decide; cbn [length] in *;
        try done; lia.
    + apply layout_ends; [done|done|lia].
    + by rewrite Ht.
    + by rewrite Hd.
Qed.

Lemma join_alnum_not_elem sep c ls :
  Forall alnum ls -> is_alnum c = false -> c ∉ sep -> c ∉ join sep ls.
Proof.
  intros H Hc Hs. induction H as [|l ls Hl Hls IH]; [apply not_elem_of_nil|].
  pose proof (alnum_not_elem l c Hl Hc). destruct ls; [done|].
  change (join sep (l :: l0 :: ls)) with (l ++ sep ++ join sep (l0 :: ls)).
  rewrite !not_elem_of_app. done.
Qed.

Lemma hextets_alnum ip : Forall alnum (compress_hextets (show_hex <$> hextets ip)).
Proof. apply compress_alnum, low_digits_bound. lia. Qed.

Lemma octets_alnum ip : Forall alnum (show_nat <$> octets ip).
Proof.
  apply Forall_fmap. eapply Forall_impl; [apply (low_digits_bound 4 256 ip); lia|].
  intros n Hn. apply show_alnum; cbn in Hn; lia.
Qed.

(** The text of an unscoped address is digits, letters and separators. *)
Lemma str_address_not_elem a c :
  unscoped a -> is_alnum c = false -> c <> "."%char -> c <> ":"%char -> c ∉ str_address a.
Proof.
  intros Hu Hc H1 H2. destruct a as [ip|ip [s|]]; [|done|]; cbn [str_address].
  - apply join_alnum_not_elem; [apply octets_alnum|done|].
    intros Hin. cbn in Hin. by apply list_elem_of_singleton in Hin.
  - rewrite app_nil_r. apply join_alnum_not_elem; [apply hextets_alnum|done|].
    intros Hin. cbn in Hin. by apply list_elem_of_singleton in Hin.
Qed.

Lemma parse_ipv4_colon t : ":"%char ∈ t -> parse_ipv4 t = None.
Proof.
  intros Hin. unfold parse_ipv4.
  assert (Hf : exists p, p ∈ split_on "."%char t /\ ":"%char ∈ p).
  { induction t as [|c t IH]; [by apply not_elem_of_nil in Hin|]. cbn. case_decide as Hc.
    - apply elem_of_cons in Hin as [Heq|Hin]; [congruence|].
      destruct (IH Hin) as (p & Hp & Hpin). exists p. split; [by right|done].
    - destruct (split_on "."%char t) as [|l ls] eqn:Hs; [by apply split_on_nonempty in Hs|].
      apply elem_of_cons in Hin as [Heq|Hin].
      + subst c. exists (":"%char :: l). split; by left.
      + destruct (IH Hin) as (p & Hp & Hpin). apply elem_of_cons in Hp as [->|Hp].
        * exists (c :: l). split; [by left|by right].
        * exists p. split; [by right|done]. }
  destruct Hf as (p & Hp & Hpin).
  destruct (mapM parse_octet (split_on "."%char t)) as [l|] eqn:Hm; [|done].
  exfalso. apply mapM_Some in Hm.
  apply list_elem_of_lookup in Hp as [i Hi].
  destruct (Forall2_lookup_l _ _ _ _ _ Hm Hi) as (v & _ & Hv). unfold parse_octet in Hv.
  destruct p as [|c r]; [done|]. destruct (all_dec (c :: r)) eqn:Ha; [|done].
  apply Is_true_true, forallb_True in Ha. rewrite Forall_forall in Ha.
  specialize (Ha _ Hpin). by apply Is_true_true, bool_decide_eq_true in Ha.
Qed.

Lemma hextets_colon ip : ":"%char ∈ join (str ":") (compress_hextets (show_hex <$> hextets ip)).
Proof.
  pose proof (low_digits_bound 8 65536 ip ltac:(lia)) as Hb. fold (hextets ip) in Hb.
  assert (Hj : forall x y (l : list text), ":"%char ∈ join (str ":") (x :: y :: l)).
  { intros x y l. change (join (str ":") (x :: y :: l)) with (x ++ str ":" ++ join (str ":") (y :: l)).
    rewrite !elem_of_app. right. left. by left. }
  destruct (compress_shape _ Hb) as [->|(pre & n & post & _ & _ & ->)].
  - unfold hextets. cbn [low_digits app fmap list_fmap]. apply Hj.
  - destruct pre as [|x [|y pre]]; cbn [fmap list_fmap app]; rewrite ?decide_True by done;
      try (rewrite decide_False by done); cbn [app]; apply Hj.
Qed.

(** [ip_address(str(a)) == a] for an address without a scope identifier. *)
Lemma ip_address_str a : ip_valid a -> unscoped a -> ip_address (str_address a) = Some a.
Proof.
  intros Hv Hu. unfold ip_address.
  rewrite bool_decide_eq_false_2 by by apply str_address_not_elem.
  destruct a as [ip|ip [s|]]; [|done|]; cbn [str_address].
  - by rewrite parse_ipv4_str.
  - rewrite app_nil_r. rewrite parse_ipv4_colon by apply hextets_colon.
    rewrite partition_none by (apply join_alnum_not_elem;
      [apply hextets_alnum|done|by intros Hin%list_elem_of_singleton]).
    cbn [andb]. rewrite parse_ipv6_str by apply Hv. done.
Qed.

(** ** Networks *)

Record IPNetwork := { net_version : Z; net_address : Z; net_prefixlen : Z }.

Definition max_prefixlen (v : Z) : Z := if v =? 4 then 32 else 128.
Definition host_bits (n : IPNetwork) : Z := max_prefixlen (net_version n) - net_prefixlen n.
Definition netmask (n : IPNetwork) : Z :=
  Z.lxor (2 ^ max_prefixlen (net_version n) - 1) (2 ^ host_bits n - 1).
Definition broadcast (n : IPNetwork) : Z := Z.lor (net_address n) (2 ^ host_bits n - 1).

Definition net_valid (n : IPNetwork) : Prop :=
  (net_version n = 4 \/ net_version n = 6) /\
  0 <= net_prefixlen n <= max_prefixlen (net_version n) /\
  0 <= net_address n < 2 ^ max_prefixlen (net_version n) /\
  net_address n mod 2 ^ host_bits n = 0.

(** [address in network] *)
Definition in_network (a : IPAddress) (n : IPNetwork) : bool :=
  (ip_version a =? net_version n) && (Z.land (ip_int a) (netmask n) =? net_address n).

(** The first and one past the last address of [network.hosts()]. *)
Definition hosts_range (n : IPNetwork) : Z * Z :=
  if net_prefixlen n =? max_prefixlen (net_version n) then (net_address n, net_address n + 1)
  else if net_prefixlen n =? max_prefixlen (net_version n) - 1 then (net_address n, broadcast n + 1)
  else if net_version n =? 4 then (net_address n + 1, broadcast n)
  else (net_address n + 1, broadcast n + 1).

Definition mk_address (v ip : Z) : IPAddress :=
  if v =? 4 then IPv4Address ip else IPv6Address ip None.
