(* ===== verification/WgConfig.v ===== *)
(** * WireGuard desired state and its configuration text

    Models [nebula_agent/drivers/config_store.py] and the validators of
    [nebula_agent/drivers/base.py]: the peer set a request changes, the text
    given to [wg syncconf], and reading that text back after a restart. *)

From S2P Require Import Prelude PyText IpAddress.

Module WgConfig.

(** ** Validated fields (drivers/base.py) *)

Definition is_b64 (c : ascii) : bool :=
  is_alnum c || bool_decide (c = "+"%char) || bool_decide (c = "/"%char).

Definition ALL_ZERO_PUBLIC_KEY : text := replicate 43 "A"%char ++ ["="%char].

(** [_validate_public_key]: 43 base64 characters and ["="], not all zero. *)
Definition valid_public_key (v : text) : bool :=
  (length v =? 44)%nat && forallb is_b64 (take 43 v) && bool_decide (drop 43 v = ["="%char])
  && negb (bool_decide (v = ALL_ZERO_PUBLIC_KEY)).

(** [_validate_error_code]: [^[a-z0-9][a-z0-9_.-]{0,63}$] *)
Definition is_code_head (c : ascii) : bool :=
  let n := code c in ((97 <=? n) && (n <=? 122)) || ((48 <=? n) && (n <=? 57)).
Definition is_code_char (c : ascii) : bool :=
  is_code_head c || bool_decide (c ∈ str "_.-").
Definition valid_error_code (v : option text) : bool :=
  match v with
  | None => true
  | Some [] => false
  | Some (c :: r) => is_code_head c && forallb is_code_char r && (length r <=? 63)%nat
  end.

(** ** The desired state *)

Record RenderedPeer := {
  public_key : text;
  assigned_address : IPAddress;
  persistent_keepalive_seconds : option Z;
  generation : Z;
}.

#[global] Instance RenderedPeer_eq_dec : EqDecision RenderedPeer.
Proof. solve_decision. Defined.

Record DesiredInterfaceState := { peers : list RenderedPeer }.

Definition without_peer (key : text) (s : DesiredInterfaceState) : DesiredInterfaceState :=
  {| peers := filter (fun p => public_key p <> key) (peers s) |}.

Definition with_peer (p : RenderedPeer) (s : DesiredInterfaceState) : DesiredInterfaceState :=
  {| peers := filter (fun q => public_key q <> public_key p) (peers s) ++ [p] |}.

Fixpoint find_peer (key : text) (ps : list RenderedPeer) : option RenderedPeer :=
  match ps with
  | [] => None
  | p :: r => if decide (public_key p = key) then Some p else find_peer key r
  end.
Definition peer (key : text) (s : DesiredInterfaceState) : option RenderedPeer :=
  find_peer key (peers s).

Definition empty_state : DesiredInterfaceState := {| peers := [] |}.

(** ** Rendering *)

Record WireGuardInterfaceIdentity := { private_key : text; listen_port : Z }.

Definition _host_cidr (a : IPAddress) : text :=
  str_address a ++ "/"%char :: show_Z (if ip_version a =? 4 then 32 else 128).

Definition interface_lines (i : WireGuardInterfaceIdentity) : list text :=
  [str "[Interface]"; str "PrivateKey = " ++ private_key i;
   str "ListenPort = " ++ show_Z (listen_port i); []].

Definition peer_lines (p : RenderedPeer) : list text :=
  [str "[Peer]"; str "PublicKey = " ++ public_key p;
   str "AllowedIPs = " ++ _host_cidr (assigned_address p)]
  ++ match persistent_keepalive_seconds p with
     | Some k => [str "PersistentKeepalive = " ++ show_Z k]
     | None => []
     end
  ++ [str "# Generation = " ++ show_Z (generation p); []].

Definition config_lines (s : DesiredInterfaceState) (i : option WireGuardInterfaceIdentity) :
    list text :=
  match i with Some i => interface_lines i | None => [] end
  ++ concat (peer_lines <$> peers s).

Definition render_wireguard_config (s : DesiredInterfaceState)
    (i : option WireGuardInterfaceIdentity) : text :=
  join [NL] (config_lines s i).

(** ** Parsing *)

(** The local variables of [parse_wireguard_config]. *)
Record parser := {
  done_peers : list RenderedPeer;
  cur_key : option text;
  cur_address : option IPAddress;
  cur_keepalive : option Z;
  cur_generation : Z;
}.

Definition parser0 : parser :=
  {| done_peers := []; cur_key := None; cur_address := None; cur_keepalive := None;
     cur_generation := 0 |}.

Definition flush (st : parser) : parser :=
  {| done_peers := done_peers st ++
       match cur_key st, cur_address st with
       | Some k, Some a => [{| public_key := k; assigned_address := a;
                               persistent_keepalive_seconds := cur_keepalive st;
                               generation := cur_generation st |}]
       | _, _ => []
       end;
     cur_key := None; cur_address := None; cur_keepalive := None; cur_generation := 0 |}.

Definition upd (st : parser) (k : option text) (a : option IPAddress) (ka : option Z) (g : Z) :
    parser :=
  {| done_peers := done_peers st; cur_key := k; cur_address := a; cur_keepalive := ka;
     cur_generation := g |}.

(** The [if key == ...] chain; [None] when [int] or [ip_address] raises. *)
Definition parse_field (st : parser) (key value : text) : option parser :=
  if decide (key = str "PublicKey") then
    Some (upd st (Some value) (cur_address st) (cur_keepalive st) (cur_generation st))
  else if decide (key = str "AllowedIPs") then
    a ← ip_address (partition "/"%char value).1.1;
    Some (upd st (cur_key st) (Some a) (cur_keepalive st) (cur_generation st))
  else if decide (key = str "PersistentKeepalive") then
    k ← py_int value;
    Some (upd st (cur_key st) (cur_address st) (Some k) (cur_generation st))
  else Some st.

(** One turn of the loop over the lines. *)
Definition parse_line (st : parser) (raw_line : text) : option parser :=
  let line := strip raw_line in
  if decide (line = []) then Some st
  else if decide (line = str "[Peer]") then Some (flush st)
  else if startswith (str "# Generation") line then
    let '(_, _, value) := partition "="%char line in
    g ← py_int (strip value);
    Some (upd st (cur_key st) (cur_address st) (cur_keepalive st) g)
  else if startswith (str "#") line || negb (bool_decide ("="%char ∈ line)) then Some st
  else
    let '(key, _, value) := partition "="%char line in
    parse_field st (strip key) (strip value).

Fixpoint parse_lines (st : parser) (lines : list text) : option parser :=
  match lines with
  | [] => Some st
  | l :: ls => st' ← parse_line st l; parse_lines st' ls
  end.

Definition parse_wireguard_config (t : text) : option DesiredInterfaceState :=
  st ← parse_lines parser0 (splitlines t);
  Some {| peers := done_peers (flush st) |}.

(** ** The peer set *)

Definition keys (s : DesiredInterfaceState) : list text := public_key <$> peers s.

Lemma find_peer_app key l1 l2 :
  find_peer key (l1 ++ l2) =
  match find_peer key l1 with Some p => Some p | None => find_peer key l2 end.
Proof. induction l1 as [|p l1 IH]; cbn; [done|]. by case_decide. Qed.

Lemma find_peer_filter_eq key l : find_peer key (filter (fun p => public_key p <> key) l) = None.
Proof.
  induction l as [|p l IH]; [done|]. rewrite filter_cons. case_decide as Hp; [|done].
  cbn. by rewrite decide_False.
Qed.

Lemma find_peer_filter_ne key key' l :
  key <> key' -> find_peer key' (filter (fun p => public_key p <> key) l) = find_peer key' l.
Proof.
  intros Hne. induction l as [|p l IH]; [done|]. rewrite filter_cons. cbn.
  case_decide as Hp; cbn; [by rewrite IH|]. rewrite decide_False; [done|].
  congruence.
Qed.

Lemma keys_filter key (l : list RenderedPeer) :
  public_key <$> filter (fun p => public_key p <> key) l =
  filter (fun k => k <> key) (public_key <$> l).
Proof.
  induction l as [|p l IH]; [done|]. rewrite fmap_cons, !filter_cons.
  case_decide; [by rewrite fmap_cons, IH|done].
Qed.

(** After [with_peer p] exactly the peer's own key changes: it maps to
    [p], every other key to what it had; [without_peer] removes the one key;
    and both keep at most one entry per public key. *)
Theorem peer_set_operations s p key :
  NoDup (keys s) ->
  NoDup (keys (with_peer p s)) /\ NoDup (keys (without_peer key s)) /\
  (forall k, peer k (with_peer p s) = if decide (k = public_key p) then Some p else peer k s) /\
  (forall k, peer k (without_peer key s) = if decide (k = key) then None else peer k s).
Proof.
  intros Hnd. unfold keys, peer, with_peer, without_peer. cbn. split_and!.
  - rewrite fmap_app, keys_filter. cbn. apply NoDup_app. split; [by apply NoDup_filter|].
    split; [|apply NoDup_singleton]. intros k Hk%list_elem_of_filter Hin%list_elem_of_singleton.
    by destruct Hk.
  - rewrite keys_filter. by apply NoDup_filter.
  - intros k. rewrite find_peer_app. cbn. case_decide as Hk; subst.
    + rewrite find_peer_filter_eq. by rewrite decide_True.
    + rewrite find_peer_filter_ne by congruence. rewrite decide_False by congruence.
      by destruct (find_peer k (peers s)).
  - intros k. case_decide as Hk; subst; [apply find_peer_filter_eq|].
    by apply find_peer_filter_ne.
Qed.

(** ** Reading back what was rendered *)

(** What the request models guarantee of a peer, short of a scope id. *)
Definition peer_wf (p : RenderedPeer) : Prop :=
  public_key p <> [] /\ no_space (public_key p) /\
  ip_valid (assigned_address p) /\ unscoped (assigned_address p).

Lemma valid_public_key_solid k : valid_public_key k = true -> k <> [] /\ no_space k.
Proof.
  unfold valid_public_key. intros H. boolP. split; [by intros ->|].
  rewrite <- (take_drop 43 k). apply Forall_app. split.
  - apply Is_true_true, forallb_True in H2 as H2'. clear H2.
    eapply Forall_impl; [exact H2'|]. intros c Hc. cbn in Hc. apply Is_true_true in Hc.
    unfold is_b64 in Hc.
    apply orb_true_iff in Hc as [[Hc|Hc]%orb_true_iff|Hc].
    + by apply alnum_not_space.
    + boolP. by subst.
    + boolP. by subst.
  - rewrite H1. by repeat constructor.
Qed.

(** A line ending in text without spaces is its own [strip]. *)
Lemma strip_solid c p v :
  is_space c = false -> v <> [] -> no_space v -> strip (c :: p ++ v) = c :: p ++ v.
Proof.
  intros Hc Hne Hv. destruct v as [|d v _] using rev_ind; [done|].
  apply Forall_app in Hv as [_ Hd]. apply Forall_cons in Hd as [Hd _].
  rewrite app_assoc. by apply strip_ends.
Qed.

(** [f"{name} = {v}"] where [v] has no space: what the parser makes of it. *)
Lemma field_line name v :
  name <> [] -> no_space name -> v <> [] -> no_space v -> "="%char ∉ name ->
  let line := name ++ str " = " ++ v in
  strip line = line /\ ("="%char ∈ line) /\
  exists k x, partition "="%char line = (k, true, x) /\ strip k = name /\ strip x = v.
Proof.
  intros Hn Hns Hv Hvs He. cbv zeta. split.
  - destruct name as [|c name]; [done|]. apply Forall_cons in Hns as [Hc _]. cbn [app].
    rewrite app_assoc. by apply strip_solid.
  - assert (Heq : name ++ str " = " ++ v = (name ++ [" "%char]) ++ "="%char :: (" "%char :: v)).
    { rewrite <- app_assoc. done. }
    rewrite Heq. split; [apply elem_of_app; right; by left|].
    eexists _, _. split.
    + apply partition_app. rewrite not_elem_of_app. split; [done|].
      by intros H%list_elem_of_singleton.
    + split.
      * unfold strip, rstrip. destruct name as [|c name]; [done|].
        apply Forall_cons in Hns as Hc. destruct Hc as [Hc _].
        change ((c :: name) ++ [" "%char]) with (c :: (name ++ [" "%char])).
        rewrite lstrip_id by done.
        change (c :: (name ++ [" "%char])) with ((c :: name) ++ [" "%char]).
        rewrite reverse_app. cbn [reverse rev_append app lstrip].
        change (is_space " "%char) with true. cbv iota.
        pose proof (strip_id (c :: name) Hns) as Hs. unfold strip, rstrip in Hs.
        by rewrite lstrip_id in Hs by done.
      * rewrite strip_space_l by done. by apply strip_id.
Qed.

Lemma show_Z_ne n : show_Z n <> [].
Proof. unfold show_Z. case_match; [done|]. boolP. by apply show_nat_ne. Qed.

Lemma parse_field_line st c name v :
  is_alnum c = true -> no_space (c :: name) -> "="%char ∉ c :: name ->
  v <> [] -> no_space v ->
  parse_line st ((c :: name) ++ str " = " ++ v) = parse_field st (c :: name) v.
Proof.
  intros Hc Hn He Hv Hs.
  destruct (field_line (c :: name) v) as (H1 & H2 & k & x & H3 & H4 & H5); [done..|].
  assert (Hh : bool_decide ("#"%char = c) = false)
    by (apply bool_decide_eq_false; by intros <-).
  assert (Hc1 : forall t, startswith (str "# Generation") (c :: t) = false)
    by (intros; cbn; by rewrite Hh).
  assert (Hc2 : forall t, startswith (str "#") (c :: t) = false)
    by (intros; cbn; by rewrite Hh).
  unfold parse_line. rewrite H1. cbn [app] in *. rewrite decide_False by done.
  rewrite decide_False by (intros Heq; cbn in Heq; by simplify_eq).
  rewrite Hc1, Hc2. rewrite bool_decide_eq_true_2 by done. cbn [orb negb].
  by rewrite H3, H4, H5.
Qed.

Lemma parse_key_line st v :
  v <> [] -> no_space v ->
  parse_line st (str "PublicKey = " ++ v) =
  Some (upd st (Some v) (cur_address st) (cur_keepalive st) (cur_generation st)).
Proof.
  intros. change (str "PublicKey = " ++ v) with (str "PublicKey" ++ str " = " ++ v).
  rewrite (parse_field_line st "P"%char (str "ublicKey"));
    [done|done|by repeat constructor|by apply (bool_decide_unpack _)|done|done].
Qed.

Lemma host_cidr_solid a : unscoped a -> _host_cidr a <> [] /\ no_space (_host_cidr a).
Proof.
  intros Hu. unfold _host_cidr. split; [by destruct (str_address a)|].
  apply Forall_app. split.
  - apply Forall_forall. intros c Hin. apply not_true_is_false. intros Hsp.
    apply (str_address_not_elem a c Hu); [..|done].
    + apply not_true_is_false. intros Hal. apply alnum_not_space in Hal. congruence.
    + intros ->. done.
    + intros ->. done.
  - constructor; [done|]. apply show_Z_no_space.
Qed.

Lemma parse_address_line st a :
  ip_valid a -> unscoped a ->
  parse_line st (str "AllowedIPs = " ++ _host_cidr a) =
  Some (upd st (cur_key st) (Some a) (cur_keepalive st) (cur_generation st)).
Proof.
  intros Hv Hu. destruct (host_cidr_solid a Hu) as [Hne Hns].
  change (str "AllowedIPs = " ++ _host_cidr a) with (str "AllowedIPs" ++ str " = " ++ _host_cidr a).
  rewrite (parse_field_line st "A"%char (str "llowedIPs"));
    [|done|by repeat constructor|by apply (bool_decide_unpack _)|done|done].
  unfold parse_field. rewrite decide_False by done. rewrite decide_True by done.
  unfold _host_cidr. rewrite partition_app by by apply str_address_not_elem.
  cbn [fst]. by rewrite ip_address_str.
Qed.

Lemma parse_keepalive_line st n :
  parse_line st (str "PersistentKeepalive = " ++ show_Z n) =
  Some (upd st (cur_key st) (cur_address st) (Some n) (cur_generation st)).
Proof.
  change (str "PersistentKeepalive = " ++ show_Z n)
    with (str "PersistentKeepalive" ++ str " = " ++ show_Z n).
  rewrite (parse_field_line st "P"%char (str "ersistentKeepalive"));
    [|done|by repeat constructor|by apply (bool_decide_unpack _)
     |apply show_Z_ne|apply show_Z_no_space].
  unfold parse_field. do 2 rewrite decide_False by done. rewrite decide_True by done.
  by rewrite py_int_show.
Qed.

Lemma parse_generation_line st n :
  parse_line st (str "# Generation = " ++ show_Z n) =
  Some (upd st (cur_key st) (cur_address st) (cur_keepalive st) n).
Proof.
  unfold parse_line.
  assert (Hs : strip (str "# Generation = " ++ show_Z n) = str "# Generation = " ++ show_Z n).
  { change (str "# Generation = " ++ show_Z n)
      with ("#"%char :: str " Generation = " ++ show_Z n).
    apply strip_solid; [done|apply show_Z_ne|apply show_Z_no_space]. }
  rewrite Hs. do 2 rewrite decide_False by done.
  change (startswith (str "# Generation") (str "# Generation = " ++ show_Z n)) with true. cbv iota.
  change (str "# Generation = " ++ show_Z n)
    with (str "# Generation " ++ "="%char :: (" "%char :: show_Z n)).
  rewrite partition_app by by apply (bool_decide_unpack _).
  rewrite strip_space_l by done. rewrite strip_id by apply show_Z_no_space.
  by rewrite py_int_show.
Qed.

Lemma parse_lines_app st l1 l2 :
  parse_lines st (l1 ++ l2) = st' ← parse_lines st l1; parse_lines st' l2.
Proof.
  revert st. induction l1 as [|l l1 IH]; intros st; cbn; [done|].
  destruct (parse_line st l); cbn; [apply IH|done].
Qed.

(** The parser holding the peers [ps] read so far, the last one not yet
    flushed. *)
Definition reading (ps : list RenderedPeer) (st : parser) : Prop := done_peers (flush st) = ps.

Lemma flush_idle st : cur_key (flush st) = None /\ cur_address (flush st) = None /\
  cur_keepalive (flush st) = None /\ cur_generation (flush st) = 0.
Proof. done. Qed.

Lemma parse_peer_lines st p :
  peer_wf p -> exists st', parse_lines st (peer_lines p) = Some st' /\
    reading (done_peers (flush st) ++ [p]) st'.
Proof.
  intros (Hk & Hks & Hv & Hu). unfold peer_lines. rewrite parse_lines_app. cbn [parse_lines].
  change (parse_line st (str "[Peer]")) with (Some (flush st)). cbn [mbind option_bind].
  rewrite parse_key_line by done. cbn [mbind option_bind].
  rewrite parse_address_line by done. cbn [mbind option_bind].
  destruct (persistent_keepalive_seconds p) as [ka|] eqn:Hka; cbn [app parse_lines];
    rewrite ?parse_keepalive_line; cbn [mbind option_bind];
    rewrite parse_generation_line; cbn [mbind option_bind];
    (eexists; split; [reflexivity|]); destruct p; cbn in *; by subst.
Qed.

Lemma parse_all_peers ps st :
  Forall peer_wf ps -> exists st', parse_lines st (concat (peer_lines <$> ps)) = Some st' /\
    reading (done_peers (flush st) ++ ps) st'.
Proof.
  intros H. revert st. induction H as [|p ps Hp _ IH]; intros st.
  - exists st. split; [done|]. by rewrite app_nil_r.
  - cbn [fmap list_fmap concat]. destruct (parse_peer_lines st p Hp) as (st1 & H1 & Hr1).
    destruct (IH st1) as (st2 & H2 & Hr2). exists st2. rewrite parse_lines_app, H1. cbn.
    split; [done|]. rewrite Hr1 in Hr2. by rewrite <- app_assoc in Hr2.
Qed.

Definition identity_wf (i : option WireGuardInterfaceIdentity) : Prop :=
  match i with
  | None => True
  | Some i => private_key i <> [] /\ no_space (private_key i)
  end.

Lemma parse_interface_lines i :
  identity_wf (Some i) -> parse_lines parser0 (interface_lines i) = Some parser0.
Proof.
  intros [Hne Hns]. unfold interface_lines. cbn [parse_lines].
  change (parse_line parser0 (str "[Interface]")) with (Some parser0). cbn [mbind option_bind].
  change (str "PrivateKey = " ++ private_key i) with (str "PrivateKey" ++ str " = " ++ private_key i).
  rewrite (parse_field_line parser0 "P"%char (str "rivateKey"));
    [|done|by repeat constructor|by apply (bool_decide_unpack _)|done|done].
  change (parse_field parser0 ("P"%char :: str "rivateKey") (private_key i)) with (Some parser0).
  cbn [mbind option_bind].
  change (str "ListenPort = " ++ show_Z (listen_port i))
    with (str "ListenPort" ++ str " = " ++ show_Z (listen_port i)).
  rewrite (parse_field_line parser0 "L"%char (str "istenPort"));
    [|done|by repeat constructor|by apply (bool_decide_unpack _)
     |apply show_Z_ne|apply show_Z_no_space].
  done.
Qed.

Lemma field_no_break s v : no_break s -> no_space v -> no_break (s ++ v).
Proof. intros. apply Forall_app. split; [done|]. by apply no_space_no_break. Qed.

Lemma config_lines_no_break s i :
  Forall peer_wf (peers s) -> identity_wf i -> Forall no_break (config_lines s i).
Proof.
  intros Hs Hi. unfold config_lines. apply Forall_app. split.
  - destruct i as [i|]; [|constructor]. destruct Hi as [_ Hns]. unfold interface_lines.
    rewrite !Forall_cons. split_and!; try (by repeat constructor);
      (apply field_no_break; [by repeat constructor|]); [done|apply show_Z_no_space].
  - apply Forall_concat, Forall_fmap. eapply Forall_impl; [exact Hs|].
    intros p (_ & Hk & _ & Hu). change (Forall no_break (peer_lines p)).
    unfold peer_lines. rewrite !Forall_app, !Forall_cons.
    split_and!; try (by repeat constructor).
    + apply field_no_break; [by repeat constructor|done].
    + apply field_no_break; [by repeat constructor|]. by apply host_cidr_solid.
    + destruct (persistent_keepalive_seconds p); rewrite ?Forall_cons; [|constructor].
      split; [|constructor]. apply field_no_break; [by repeat constructor|apply show_Z_no_space].
    + apply field_no_break; [by repeat constructor|apply show_Z_no_space].
Qed.

Lemma parse_drop_last st ls : parse_lines st (drop_last_empty ls) = parse_lines st ls.
Proof.
  revert st. induction ls as [|l [|l' ls] IH]; intros st; [done| |].
  - by destruct l.
  - cbn [drop_last_empty parse_lines] in *.
    destruct (parse_line st l); cbn [mbind option_bind]; [apply IH|done].
Qed.

Lemma parse_rendered s i :
  Forall peer_wf (peers s) -> identity_wf i ->
  parse_wireguard_config (render_wireguard_config s i) = Some s.
Proof.
  intros Hs Hi. unfold parse_wireguard_config, render_wireguard_config, splitlines.
  destruct (decide (config_lines s i = [])) as [Hnil|Hne].
  { rewrite Hnil. unfold config_lines in Hnil. destruct i; [done|].
    destruct s as [[|p ps]]; [done|]. by destruct p. }
  rewrite break_lines_join by (done || by apply config_lines_no_break).
  rewrite parse_drop_last. unfold config_lines. rewrite parse_lines_app.
  assert (Hi' : parse_lines parser0 (match i with Some i => interface_lines i | None => [] end)
                = Some parser0).
  { destruct i; [by apply parse_interface_lines|done]. }
  rewrite Hi'. cbn [mbind option_bind].
  destruct (parse_all_peers (peers s) parser0 Hs) as (st & H1 & H2). rewrite H1.
  cbn [mbind option_bind]. rewrite H2. by destruct s.
Qed.

(** ** The store on disk *)

(** [ConfigStore]: the text of the last-known-good file and of the candidate. *)
Record ConfigStore := { last_known_good : option text; candidate : option text }.

(** [None] when the file does not parse. *)
Definition read_last_known_good (st : ConfigStore) : option DesiredInterfaceState :=
  match last_known_good st with
  | None => Some empty_state
  | Some t => parse_wireguard_config t
  end.

Definition render_candidate (s : DesiredInterfaceState) (i : option WireGuardInterfaceIdentity) :
    text := render_wireguard_config s i.

(** The rename is the only visible step: the candidate is the old one or all
    of the new text. *)
Definition write_candidate_atomically (t : text) (st : ConfigStore) : ConfigStore :=
  {| last_known_good := last_known_good st; candidate := Some t |}.

Definition promote_candidate_to_last_known_good (st : ConfigStore) : option ConfigStore :=
  match candidate st with
  | Some t => Some {| last_known_good := Some t; candidate := None |}
  | None => None
  end.

Definition rollback_text (i : option WireGuardInterfaceIdentity) (st : ConfigStore) : text :=
  match last_known_good st with
  | None => render_wireguard_config empty_state i
  | Some t => t
  end.

(** C37: what the agent writes it reads back: for peers with validated keys and
    addresses (of either family, without a scope id), any keepalive and any
    generation, parsing the rendered file gives the same peers in the same
    order; so a store whose candidate was written and promoted answers
    [read_last_known_good] with that state, generations included. *)
Theorem config_round_trip s i st :
  Forall (fun p => valid_public_key (public_key p) = true /\
                   ip_valid (assigned_address p) /\ unscoped (assigned_address p)) (peers s) ->
  identity_wf i ->
  parse_wireguard_config (render_wireguard_config s i) = Some s /\
  exists st', promote_candidate_to_last_known_good
                (write_candidate_atomically (render_candidate s i) st) = Some st' /\
    read_last_known_good st' = Some s.
Proof.
  intros Hs Hi.
  assert (Hwf : Forall peer_wf (peers s)).
  { eapply Forall_impl; [exact Hs|]. intros p (Hk & Hv & Hu).
    apply valid_public_key_solid in Hk as [? ?]. done. }
  split; [by apply parse_rendered|]. eexists. split; [done|]. by apply parse_rendered.
Qed.

(** ** Examples *)

Definition example_key (c : ascii) : text := replicate 43 c ++ ["="%char].
Definition example_identity : WireGuardInterfaceIdentity :=
  {| private_key := example_key "k"%char; listen_port := 51820 |}.
Definition example_peer : RenderedPeer :=
  {| public_key := example_key "p"%char; assigned_address := IPv4Address 172818434;
     persistent_keepalive_seconds := Some 25; generation := 7 |}.

Lemma config_round_trip_witness :
  parse_wireguard_config
    (render_wireguard_config {| peers := [example_peer] |} (Some example_identity))
  = Some {| peers := [example_peer] |}.
Proof.
  apply (config_round_trip {| peers := [example_peer] |} (Some example_identity)
    {| last_known_good := None; candidate := None |}).
  - repeat constructor; vm_compute; congruence.
  - split; [done|]. by repeat constructor.
Defined.

Lemma peer_set_operations_witness :
  NoDup (keys {| peers := [example_peer] |}) /\
  peer (example_key "p"%char) (without_peer (example_key "p"%char) {| peers := [example_peer] |}) = None.
Proof.
  split; [apply NoDup_singleton|].
  destruct (peer_set_operations {| peers := [example_peer] |} example_peer (example_key "p"%char))
    as (_ & _ & _ & H); [apply NoDup_singleton|].
  rewrite H. by rewrite decide_True.
Defined.

(** The address a request model accepts (an IPv6 address with a scope id is
    one) decides more than an [AllowedIPs] value. *)
Definition scope_text : text :=
  str "x" ++ [NL] ++ str "[Peer]" ++ [NL] ++ str "PublicKey = " ++ example_key "z"%char ++ [NL]
  ++ str "AllowedIPs = fd00::9".
Definition scoped_peer : RenderedPeer :=
  {| public_key := example_key "p"%char;
     assigned_address := IPv6Address (0xfd00 * 2 ^ 112 + 2) (Some scope_text);
     persistent_keepalive_seconds := None; generation := 1 |}.
Definition v6_pool : IPNetwork :=
  {| net_version := 6; net_address := 0xfd00 * 2 ^ 112; net_prefixlen := 64 |}.

(** With an IPv6 client pool, the typed request fields do not keep free
    text out of the configuration: an address inside the pool may carry a
    scope id, its text goes into the file as it is, and the one peer that was
    asked for becomes two, the second with a key no request named. *)
Theorem scope_id_reaches_config_text :
  valid_public_key (public_key scoped_peer) = true /\
  ip_address (str_address (assigned_address scoped_peer)) = Some (assigned_address scoped_peer) /\
  in_network (assigned_address scoped_peer) v6_pool = true /\
  exists s, parse_wireguard_config
      (render_wireguard_config (with_peer scoped_peer empty_state) (Some example_identity)) = Some s /\
    keys s = [example_key "p"%char; example_key "z"%char].
Proof.
  split; [vm_compute; reflexivity|]. split; [vm_compute; reflexivity|].
  split; [vm_compute; reflexivity|]. eexists. split; vm_compute; reflexivity.
Qed.

End WgConfig.
