(* ===== verification/WgDriver.v ===== *)
(** * The WireGuard drivers

    Models [nebula_agent/drivers/wireguard.py] (the driver for a real
    interface) and [FakeWireGuardRunner] of [nebula_agent/drivers/fake.py]
    against the contract of [nebula_agent/drivers/base.py].  The [wg] binary
    is outside the repository: it is the parameter [WgTool], and what the
    driver relies on is the class [WgToolOk]. *)

From S2P Require Import Prelude PyText IpAddress WgConfig.
Import WgConfig.

Module Wg.

(** ** Requests and responses (drivers/base.py)

    The idempotency key, correlation id and target of a request are read by
    the dispatcher, not by a driver. *)

Record ProvisionDeviceRequest := {
  p_public_key : text;
  p_assigned_address : IPAddress;
  p_desired_generation : Z;
  p_keepalive : option Z;
}.
Record RevokeDeviceRequest := { r_public_key : text; r_desired_generation : Z }.
Record EnableDeviceRequest := {
  e_public_key : text;
  e_assigned_address : IPAddress;
  e_desired_generation : Z;
}.
Record DisableDeviceRequest := { d_public_key : text; d_desired_generation : Z }.
Record ReconcileRequest := {
  q_public_key : text;
  q_assigned_address : IPAddress;
  q_desired_generation : Z;
}.

Inductive op_state := active | revoked | enabled | disabled | failed.
#[global] Instance op_state_eq_dec : EqDecision op_state.
Proof. solve_decision. Defined.

(** The client-facing settings every provision response carries. *)
Record Common := {
  server_public_key : text;
  c_listen_port : Z;
  public_endpoint : text;
  client_dns : text;
  client_allowed_ips : text;
  c_keepalive : Z;
}.
Record ProvisionDeviceResponse := {
  p_state : op_state;
  p_applied_generation : Z;
  p_error_code : option text;
  p_common : Common;
}.
(** The revoke, enable and disable responses; [revoked_at] only for revoke. *)
Record DeviceResponse := {
  o_state : op_state;
  o_applied_generation : Z;
  o_error_code : option text;
  o_revoked_at : option Z;
}.

Inductive outcome := in_sync | drift_detected | ambiguous.
#[global] Instance outcome_eq_dec : EqDecision outcome.
Proof. solve_decision. Defined.
Record ReconcileResponse := {
  q_outcome : outcome;
  observed_generation : option Z;
  q_error_code : option text;
}.
Inductive health_state := healthy | degraded | unreachable | unknown.
Record HealthResponse := {
  h_state : health_state;
  interface_up : bool;
  peer_count : Z;
  h_error_code : option text;
}.

(** [drivers/errors.py], [SubprocessTimeoutError], and what reading a broken
    file or a missing candidate raises. *)
Inductive exn :=
| ValidationError | ApplyError | RollbackFailedError
| SubprocessTimeoutError | ValueError | OSError.
#[global] Instance exn_eq_dec : EqDecision exn.
Proof. solve_decision. Defined.

Definition apply_failed : option text := Some (str "apply_failed").
Definition show_failed : option text := Some (str "show_failed").

(** What a failed apply reports: the peer's own last applied generation. *)
Definition _last_applied_generation (s : DesiredInterfaceState) (key : text) : Z :=
  match peer key s with None => 0 | Some p => generation p end.

Definition peer_of_provision (r : ProvisionDeviceRequest) : RenderedPeer :=
  {| public_key := p_public_key r; assigned_address := p_assigned_address r;
     persistent_keepalive_seconds := p_keepalive r; generation := p_desired_generation r |}.
Definition peer_of_enable (r : EnableDeviceRequest) : RenderedPeer :=
  {| public_key := e_public_key r; assigned_address := e_assigned_address r;
     persistent_keepalive_seconds := None; generation := e_desired_generation r |}.

(** [except (ValidationError, ApplyError): return response] *)
Definition caught {St A} (response : A) (e : exn) : option (prog St exn A) :=
  match e with
  | ValidationError | ApplyError => Some (mret response)
  | _ => None
  end.

(** ** The [wg] binary *)

(** [run_fixed_argv]: a completed run, or a killed one that timed out. *)
Inductive exec := Completed (returncode : Z) (stdout : text) | TimedOut.

Class WgTool (K : Type) := {
  wg_syncconf : text -> K -> exec * K;
  wg_show_dump : K -> exec;
  wg_pubkey : text -> exec;
}.

Fixpoint lstrip_newlines (t : text) : text :=
  match t with
  | c :: r => if decide (c = NL) then lstrip_newlines r else t
  | [] => []
  end.
Definition strip_newlines (t : text) : text :=
  reverse (lstrip_newlines (reverse (lstrip_newlines t))).

Definition TAB : ascii := "009"%char.

(** One line of [parse_show_dump]'s loop. *)
Definition parse_dump_line (acc : list (text * text)) (line : text) : list (text * text) :=
  match line with
  | [] => acc
  | _ =>
      match split_on TAB line with
      | key :: _ :: _ :: ips :: _ => dict_set key ips acc
      | _ => acc
      end
  end.

Definition parse_show_dump (output : text) : list (text * text) :=
  foldl parse_dump_line [] (tail (split_on NL (strip_newlines output))).

Definition expected_allowed_ips (a : IPAddress) : text :=
  if ip_version a =? 4 then str_address a ++ str "/32" else str_address a ++ str "/128".

(** ** NativeWireGuardDriver *)

Record Settings := {
  wg_client_pool : IPNetwork;
  wg_listen_port : Z;
  wg_public_endpoint : text;
  wg_client_dns : text;
  wg_client_allowed_ips : text;
  wg_persistent_keepalive_seconds : Z;
}.

Section Native.
Context {K : Type} `{WgTool K} (cfg : Settings).

(** The files the driver uses, the interface, and its cached public key. *)
Record host := {
  store : ConfigStore;
  kernel : K;
  private_key_file : text;
  cached_public_key : option text;
}.

Definition with_store (st : ConfigStore) (h : host) : host :=
  {| store := st; kernel := kernel h; private_key_file := private_key_file h;
     cached_public_key := cached_public_key h |}.
Definition with_kernel (k : K) (h : host) : host :=
  {| store := store h; kernel := k; private_key_file := private_key_file h;
     cached_public_key := cached_public_key h |}.

Definition validate_address_in_client_pool (p : RenderedPeer) : prog host exn unit :=
  if in_network (assigned_address p) (wg_client_pool cfg) then mret tt
  else raise ValidationError.

Definition _server_pubkey : prog host exn text :=
  h ← get;
  match cached_public_key h with
  | Some k => mret k
  | None =>
      match wg_pubkey (private_key_file h) with
      | TimedOut => raise SubprocessTimeoutError
      | Completed rc out =>
          if rc =? 0 then
            put {| store := store h; kernel := kernel h; private_key_file := private_key_file h;
                   cached_public_key := Some (strip out) |};;
            mret (strip out)
          else raise ApplyError
      end
  end.

Definition _interface_identity : prog host exn WireGuardInterfaceIdentity :=
  gets (fun h => {| private_key := strip (private_key_file h);
                    listen_port := wg_listen_port cfg |}).

Definition read_state : prog host exn DesiredInterfaceState :=
  h ← get; lift (of_option ValueError (read_last_known_good (store h))).

(** [run_fixed_argv(build_syncconf_argv(...))] on the candidate file. *)
Definition run_syncconf : prog host exn Z :=
  h ← get;
  let '(out, k) := wg_syncconf (default [] (candidate (store h))) (kernel h) in
  put (with_kernel k h);;
  match out with
  | TimedOut => raise SubprocessTimeoutError
  | Completed rc _ => mret rc
  end.

Definition write_candidate (t : text) : prog host exn unit :=
  modify (fun h => with_store (write_candidate_atomically t (store h)) h).

Definition promote : prog host exn unit :=
  h ← get;
  match promote_candidate_to_last_known_good (store h) with
  | Some st => put (with_store st h)
  | None => raise OSError
  end.

Definition _rollback : prog host exn unit :=
  i ← _interface_identity;
  h ← get;
  write_candidate (rollback_text (Some i) (store h));;
  rc ← run_syncconf;
  if rc =? 0 then mret tt else raise RollbackFailedError.

Definition _apply_delta (desired : DesiredInterfaceState) : prog host exn unit :=
  i ← _interface_identity;
  write_candidate (render_candidate desired (Some i));;
  rc ← run_syncconf;
  if rc =? 0 then promote else _rollback;; raise ApplyError.

Definition provision_device (r : ProvisionDeviceRequest) : prog host exn ProvisionDeviceResponse :=
  validate_address_in_client_pool (peer_of_provision r);;
  current ← read_state;
  pub ← _server_pubkey;
  let common := {| server_public_key := pub; c_listen_port := wg_listen_port cfg;
                   public_endpoint := wg_public_endpoint cfg; client_dns := wg_client_dns cfg;
                   client_allowed_ips := wg_client_allowed_ips cfg;
                   c_keepalive := wg_persistent_keepalive_seconds cfg |} in
  try_except
    (_apply_delta (with_peer (peer_of_provision r) current);;
     mret {| p_state := active; p_applied_generation := p_desired_generation r;
             p_error_code := None; p_common := common |})
    (caught {| p_state := failed;
               p_applied_generation := _last_applied_generation current (p_public_key r);
               p_error_code := apply_failed; p_common := common |}).

(** The body revoke, enable and disable share, given the new peer set. *)
Definition change_device (change : DesiredInterfaceState -> DesiredInterfaceState) (key : text)
    (ok : op_state) (g : Z) (now : option Z) : prog host exn DeviceResponse :=
  current ← read_state;
  try_except
    (_apply_delta (change current);;
     mret {| o_state := ok; o_applied_generation := g; o_error_code := None;
             o_revoked_at := now |})
    (caught {| o_state := failed; o_applied_generation := _last_applied_generation current key;
               o_error_code := apply_failed; o_revoked_at := now |}).

Definition revoke_device (now : Z) (r : RevokeDeviceRequest) : prog host exn DeviceResponse :=
  change_device (without_peer (r_public_key r)) (r_public_key r) revoked
    (r_desired_generation r) (Some now).

Definition enable_device (r : EnableDeviceRequest) : prog host exn DeviceResponse :=
  validate_address_in_client_pool (peer_of_enable r);;
  change_device (with_peer (peer_of_enable r)) (e_public_key r) enabled
    (e_desired_generation r) None.

Definition disable_device (r : DisableDeviceRequest) : prog host exn DeviceResponse :=
  change_device (without_peer (d_public_key r)) (d_public_key r) disabled
    (d_desired_generation r) None.

Definition health : prog host exn HealthResponse :=
  h ← get;
  match wg_show_dump (kernel h) with
  | TimedOut => raise SubprocessTimeoutError
  | Completed rc out =>
      mret (if rc =? 0
            then {| h_state := healthy; interface_up := true;
                    peer_count := Z.of_nat (length (parse_show_dump out));
                    h_error_code := None |}
            else {| h_state := unreachable; interface_up := false; peer_count := 0;
                    h_error_code := show_failed |})
  end.

Definition reconcile (r : ReconcileRequest) : prog host exn ReconcileResponse :=
  h ← get;
  match wg_show_dump (kernel h) with
  | TimedOut => raise SubprocessTimeoutError
  | Completed rc out =>
      if rc =? 0 then
        current ← read_state;
        mret match dict_get (q_public_key r) (parse_show_dump out),
                   peer (q_public_key r) current with
             | Some live, Some recorded =>
                 if bool_decide (live = expected_allowed_ips (q_assigned_address r)) &&
                    bool_decide (assigned_address recorded = q_assigned_address r)
                 then {| q_outcome := in_sync; observed_generation := Some (generation recorded);
                         q_error_code := None |}
                 else {| q_outcome := ambiguous; observed_generation := Some (generation recorded);
                         q_error_code := None |}
             | _, _ => {| q_outcome := drift_detected; observed_generation := None;
                          q_error_code := None |}
             end
      else mret {| q_outcome := ambiguous; observed_generation := None;
                   q_error_code := show_failed |}
  end.
End Native.
Arguments host K : clear implicits.

(** ** FakeWireGuardRunner

    Its optional config store is the same [ConfigStore]; [fail_next] is its
    test hook. *)

Record FakeWireGuardRunner := {
  f_config_store : option ConfigStore;
  f_state : DesiredInterfaceState;
  f_common : Common;
  fail_next : bool;
}.

(** [__init__]; [None] when the stored file does not parse. *)
Definition fake_init (cs : option ConfigStore) (common : Common) : option FakeWireGuardRunner :=
  s ← match cs with Some st => read_last_known_good st | None => Some empty_state end;
  Some {| f_config_store := cs; f_state := s; f_common := common; fail_next := false |}.

Definition fail_next_apply (f : FakeWireGuardRunner) : FakeWireGuardRunner :=
  {| f_config_store := f_config_store f; f_state := f_state f; f_common := f_common f;
     fail_next := true |}.

Definition fake_apply (new_state : DesiredInterfaceState) : prog FakeWireGuardRunner exn unit :=
  f ← get;
  if fail_next f then
    put {| f_config_store := f_config_store f; f_state := f_state f; f_common := f_common f;
           fail_next := false |};;
    raise ApplyError
  else
    let f' := {| f_config_store := f_config_store f; f_state := new_state;
                 f_common := f_common f; fail_next := false |} in
    put f';;
    match f_config_store f with
    | None => mret tt
    | Some st =>
        match promote_candidate_to_last_known_good
                (write_candidate_atomically (render_candidate new_state None) st) with
        | Some st' => put {| f_config_store := Some st'; f_state := new_state;
                             f_common := f_common f; fail_next := false |}
        | None => raise OSError
        end
    end.

(** [except ApplyError: return response]; the generation is read afterwards,
    from the state the failed apply left. *)
Definition on_apply_error {A} (key : text) (response : Z -> A) (e : exn) :
    option (prog FakeWireGuardRunner exn A) :=
  match e with
  | ApplyError => Some (gets (fun f => response (_last_applied_generation (f_state f) key)))
  | _ => None
  end.

Definition fake_provision_device (r : ProvisionDeviceRequest) :
    prog FakeWireGuardRunner exn ProvisionDeviceResponse :=
  f ← get;
  try_except
    (fake_apply (with_peer (peer_of_provision r) (f_state f));;
     mret {| p_state := active; p_applied_generation := p_desired_generation r;
             p_error_code := None; p_common := f_common f |})
    (on_apply_error (p_public_key r) (fun g =>
       {| p_state := failed; p_applied_generation := g; p_error_code := apply_failed;
          p_common := f_common f |})).

Definition fake_change_device (change : DesiredInterfaceState -> DesiredInterfaceState) (key : text)
    (ok : op_state) (g : Z) (now : option Z) : prog FakeWireGuardRunner exn DeviceResponse :=
  f ← get;
  try_except
    (fake_apply (change (f_state f));;
     mret {| o_state := ok; o_applied_generation := g; o_error_code := None; o_revoked_at := now |})
    (on_apply_error key (fun g0 =>
       {| o_state := failed; o_applied_generation := g0; o_error_code := apply_failed;
          o_revoked_at := now |})).

Definition fake_revoke_device (now : Z) (r : RevokeDeviceRequest) :=
  fake_change_device (without_peer (r_public_key r)) (r_public_key r) revoked
    (r_desired_generation r) (Some now).
Definition fake_enable_device (r : EnableDeviceRequest) :=
  fake_change_device (with_peer (peer_of_enable r)) (e_public_key r) enabled
    (e_desired_generation r) None.
Definition fake_disable_device (r : DisableDeviceRequest) :=
  fake_change_device (without_peer (d_public_key r)) (d_public_key r) disabled
    (d_desired_generation r) None.

Definition fake_reconcile (r : ReconcileRequest) : prog FakeWireGuardRunner exn ReconcileResponse :=
  f ← get;
  mret match peer (q_public_key r) (f_state f) with
       | None => {| q_outcome := drift_detected; observed_generation := None; q_error_code := None |}
       | Some p =>
           {| q_outcome := if bool_decide (assigned_address p = q_assigned_address r)
                           then in_sync else ambiguous;
              observed_generation := Some (generation p); q_error_code := None |}
       end.

(** ** The driver contract (the [WireGuardDriver] protocol) *)

Class WireGuardDriver (St : Type) := {
  drv_provision : ProvisionDeviceRequest -> prog St exn ProvisionDeviceResponse;
  drv_revoke : Z -> RevokeDeviceRequest -> prog St exn DeviceResponse;
  drv_enable : EnableDeviceRequest -> prog St exn DeviceResponse;
  drv_disable : DisableDeviceRequest -> prog St exn DeviceResponse;
  drv_reconcile : ReconcileRequest -> prog St exn ReconcileResponse;
}.

(** What a change promises: it says it was made, and the record is the new
    one, at the requested generation; or it says it failed, and the record
    and the reported generation are the old ones; or it raises, and the
    record is the old one. *)
Definition change_contract {St A} (records : St -> DesiredInterfaceState -> Prop)
    (state_of : A -> op_state) (gen_of : A -> Z) (ok : op_state) (g : Z) (key : text)
    (s s' : DesiredInterfaceState) (out : result exn A * St) : Prop :=
  match out with
  | (Ok resp, st') =>
      (state_of resp = ok /\ gen_of resp = g /\ records st' s') \/
      (state_of resp = failed /\ gen_of resp = _last_applied_generation s key /\ records st' s)
  | (Err _, st') => records st' s
  end.

(** The validated fields of a request. *)
Definition key_ok (k : text) : Prop := valid_public_key k = true.
Definition address_ok (a : IPAddress) : Prop := ip_valid a /\ unscoped a.

Class DriverContract (St : Type) `{WireGuardDriver St} := {
  records : St -> DesiredInterfaceState -> Prop;
  provision_contract st s r : records st s ->
    key_ok (p_public_key r) -> address_ok (p_assigned_address r) ->
    change_contract records p_state p_applied_generation active (p_desired_generation r)
      (p_public_key r) s (with_peer (peer_of_provision r) s) (drv_provision r st);
  revoke_contract st s now r : records st s -> key_ok (r_public_key r) ->
    change_contract records o_state o_applied_generation revoked (r_desired_generation r)
      (r_public_key r) s (without_peer (r_public_key r) s) (drv_revoke now r st);
  enable_contract st s r : records st s ->
    key_ok (e_public_key r) -> address_ok (e_assigned_address r) ->
    change_contract records o_state o_applied_generation enabled (e_desired_generation r)
      (e_public_key r) s (with_peer (peer_of_enable r) s) (drv_enable r st);
  disable_contract st s r : records st s -> key_ok (d_public_key r) ->
    change_contract records o_state o_applied_generation disabled (d_desired_generation r)
      (d_public_key r) s (without_peer (d_public_key r) s) (drv_disable r st);
  reconcile_contract st s r resp st' : records st s ->
    drv_reconcile r st = (Ok resp, st') ->
    st' = st /\
    (q_outcome resp = in_sync -> exists p, peer (q_public_key r) s = Some p /\
       assigned_address p = q_assigned_address r /\ observed_generation resp = Some (generation p));
}.

Definition peer_ok (p : RenderedPeer) : Prop :=
  key_ok (public_key p) /\ address_ok (assigned_address p).

Lemma peer_ok_wf p : peer_ok p -> peer_wf p.
Proof. intros (Hk & Hv & Hu). apply valid_public_key_solid in Hk as [? ?]. done. Qed.

Lemma peers_ok_wf ps : Forall peer_ok ps -> Forall peer_wf ps.
Proof. intros H. eapply Forall_impl; [exact H|apply peer_ok_wf]. Qed.

Lemma with_peer_ok p s :
  peer_ok p -> Forall peer_ok (peers s) -> Forall peer_ok (peers (with_peer p s)).
Proof.
  intros Hp Hs. apply Forall_app. split; [by apply Forall_filter_list|by apply Forall_singleton].
Qed.

Lemma without_peer_ok k s : Forall peer_ok (peers s) -> Forall peer_ok (peers (without_peer k s)).
Proof. intros Hs. by apply Forall_filter_list. Qed.

#[local] Hint Resolve with_peer_ok without_peer_ok : nebula.

(** *** The fake driver keeps the contract *)

#[export] Instance fake_driver : WireGuardDriver FakeWireGuardRunner := {
  drv_provision := fake_provision_device;
  drv_revoke := fake_revoke_device;
  drv_enable := fake_enable_device;
  drv_disable := fake_disable_device;
  drv_reconcile := fake_reconcile;
}.

(** The state, and the file if there is one, hold these peers. *)
Definition fake_records (f : FakeWireGuardRunner) (s : DesiredInterfaceState) : Prop :=
  f_state f = s /\ Forall peer_ok (peers s) /\
  match f_config_store f with Some st => read_last_known_good st = Some s | None => True end.

Lemma fake_apply_spec s new f :
  fake_records f s -> Forall peer_ok (peers new) ->
  match fake_apply new f with
  | (Ok _, f') => fake_records f' new
  | (Err e, f') => e = ApplyError /\ fake_records f' s
  end.
Proof.
  intros (Hs & Hok & Hst) Hnew. unfold fake_apply, mbind, prog_bind, get, put, raise, mret, prog_ret.
  destruct (fail_next f); [done|]. destruct (f_config_store f) as [st|]; [|done]. cbn.
  split; [done|]. split; [done|]. unfold read_last_known_good. cbn.
  apply (parse_rendered new None); [by apply peers_ok_wf|done].
Qed.

(** Both ways a fake operation is written: apply the change, answer either way. *)
Lemma fake_change_spec {A} (state_of : A -> op_state) (gen_of : A -> Z) ok g key change good bad s f :
  fake_records f s -> Forall peer_ok (peers (change s)) ->
  state_of good = ok -> gen_of good = g ->
  (forall n, state_of (bad n) = failed) -> (forall n, gen_of (bad n) = n) ->
  change_contract fake_records state_of gen_of ok g key s (change s)
    (try_except (fake_apply (change (f_state f));; mret good) (on_apply_error key bad) f).
Proof.
  intros Hrec Hok H1 H2 H3 H4. pose proof (fake_apply_spec s (change s) f Hrec Hok) as Ha.
  assert (Hs : f_state f = s) by apply Hrec. rewrite Hs.
  unfold change_contract, try_except, mbind, prog_bind.
  destruct (fake_apply (change s) f) as [[[]|e] f']; cbn.
  - by left.
  - destruct Ha as [-> Ha]. cbn. right. rewrite H3, H4.
    assert (f_state f' = s) as -> by apply Ha. by repeat split; try apply Ha.
Qed.

Lemma fake_provision_spec r s f :
  fake_records f s -> key_ok (p_public_key r) -> address_ok (p_assigned_address r) ->
  change_contract fake_records p_state p_applied_generation active (p_desired_generation r)
    (p_public_key r) s (with_peer (peer_of_provision r) s) (fake_provision_device r f).
Proof.
  intros Hrec Hk Ha. unfold fake_provision_device. rewrite (bind_ok _ _ f f f) by done.
  refine (fake_change_spec p_state p_applied_generation _ _ _ (with_peer (peer_of_provision r))
            _ _ s f Hrec _ _ _ _ _); try done.
  apply with_peer_ok; [done|apply Hrec].
Qed.

Lemma fake_change_device_spec change key ok g now s f :
  fake_records f s -> Forall peer_ok (peers (change s)) ->
  change_contract fake_records o_state o_applied_generation ok g key s (change s)
    (fake_change_device change key ok g now f).
Proof.
  intros Hrec Hok. unfold fake_change_device. rewrite (bind_ok _ _ f f f) by done.
  by refine (fake_change_spec o_state o_applied_generation _ _ _ change _ _ s f Hrec _ _ _ _ _).
Qed.

Lemma fake_reconcile_spec r s f resp f' :
  fake_records f s -> fake_reconcile r f = (Ok resp, f') ->
  f' = f /\
  (q_outcome resp = in_sync -> exists p, peer (q_public_key r) s = Some p /\
     assigned_address p = q_assigned_address r /\ observed_generation resp = Some (generation p)).
Proof.
  intros (<- & _ & _) Hq. unfold fake_reconcile in Hq. rewrite (bind_ok _ _ f f f) in Hq by done.
  unfold mret, prog_ret in Hq. destruct (peer (q_public_key r) (f_state f)) as [p|]; simplify_eq.
  - split; [done|]. cbn. case_bool_decide; [eauto|done].
  - by split.
Qed.

#[export] Instance fake_contract : DriverContract FakeWireGuardRunner := {
  records := fake_records;
  provision_contract st s r := fake_provision_spec r s st;
  revoke_contract st s now r Hrec _ :=
    fake_change_device_spec _ _ _ _ _ s st Hrec (without_peer_ok _ s (proj1 (proj2 Hrec)));
  enable_contract st s r Hrec Hk Ha :=
    fake_change_device_spec (with_peer (peer_of_enable r)) _ _ _ _ s st Hrec
      (with_peer_ok (peer_of_enable r) s (conj Hk Ha) (proj1 (proj2 Hrec)));
  disable_contract st s r Hrec _ :=
    fake_change_device_spec _ _ _ _ _ s st Hrec (without_peer_ok _ s (proj1 (proj2 Hrec)));
  reconcile_contract st s r := fake_reconcile_spec r s st;
}.

(** *** The native driver keeps the contract *)

Section NativeContract.
Context {K : Type} `{WgTool K} (cfg : Settings).

Definition identity_of (h : host K) : WireGuardInterfaceIdentity :=
  {| private_key := strip (private_key_file h); listen_port := wg_listen_port cfg |}.

(** The last-known-good file is what the driver itself rendered for [s]. *)
Definition store_records (st : ConfigStore) (s : DesiredInterfaceState) : Prop :=
  Forall peer_ok (peers s) /\
  match last_known_good st with
  | None => s = empty_state
  | Some t => exists i, identity_wf (Some i) /\ t = render_wireguard_config s (Some i)
  end.

Definition native_records (h : host K) (s : DesiredInterfaceState) : Prop :=
  store_records (store h) s /\ identity_wf (Some (identity_of h)).

Lemma store_records_read st s : store_records st s -> read_last_known_good st = Some s.
Proof.
  intros [Hok Hl]. unfold read_last_known_good. destruct (last_known_good st) as [t|].
  - destruct Hl as (i & Hi & ->). apply parse_rendered; [by apply peers_ok_wf|done].
  - by subst.
Qed.

(** [_apply_delta], step by step. *)
Lemma apply_delta_eq h desired :
  _apply_delta cfg desired h =
  let t := render_wireguard_config desired (Some (identity_of h)) in
  let '(out, k1) := wg_syncconf t (kernel h) in
  match out with
  | TimedOut => (Err SubprocessTimeoutError,
                 with_kernel k1 (with_store (write_candidate_atomically t (store h)) h))
  | Completed rc _ =>
      if rc =? 0 then
        (Ok tt, with_store {| last_known_good := Some t; candidate := None |} (with_kernel k1 h))
      else
        let t2 := rollback_text (Some (identity_of h)) (store h) in
        let '(out2, k2) := wg_syncconf t2 k1 in
        (Err match out2 with
             | TimedOut => SubprocessTimeoutError
             | Completed rc2 _ => if rc2 =? 0 then ApplyError else RollbackFailedError
             end,
         with_kernel k2 (with_store (write_candidate_atomically t2 (store h)) h))
  end.
Proof.
  unfold _apply_delta, _rollback, _interface_identity, write_candidate, run_syncconf, promote,
    mbind, prog_bind, get, put, gets, modify, raise, mret, prog_ret, identity_of, render_candidate.
  cbn. destruct (wg_syncconf _ (kernel h)) as [[rc o|] k1]; cbn; [|done].
  destruct (rc =? 0); cbn; [done|].
  destruct (wg_syncconf _ k1) as [[rc2 o2|] k2]; cbn; [|done].
  by destruct (rc2 =? 0).
Qed.

Lemma apply_delta_records h s desired :
  native_records h s -> Forall peer_ok (peers desired) ->
  match _apply_delta cfg desired h with
  | (Ok _, h') => native_records h' desired
  | (Err _, h') => native_records h' s
  end.
Proof.
  intros [Hst Hi] Hok. rewrite apply_delta_eq. cbv zeta.
  destruct (wg_syncconf _ (kernel h)) as [[rc o|] k1]; [|done].
  destruct (rc =? 0).
  - split; [|done]. split; [done|]. cbn. eauto.
  - destruct (wg_syncconf _ k1) as [[rc2 o2|] k2]; done.
Qed.

Lemma native_change_spec {A} (state_of : A -> op_state) (gen_of : A -> Z) ok g key change good bad s h :
  native_records h s -> Forall peer_ok (peers (change s)) ->
  state_of good = ok -> gen_of good = g ->
  state_of bad = failed -> gen_of bad = _last_applied_generation s key ->
  change_contract native_records state_of gen_of ok g key s (change s)
    (try_except (_apply_delta cfg (change s);; mret good) (caught bad) h).
Proof.
  intros Hrec Hok H1 H2 H3 H4. pose proof (apply_delta_records h s (change s) Hrec Hok) as Ha.
  unfold change_contract, try_except, mbind, prog_bind.
  destruct (_apply_delta cfg (change s) h) as [[[]|e] h']; cbn; [by left|].
  destruct e; cbn; auto.
Qed.

Lemma read_state_spec h s : native_records h s -> read_state h = (Ok s, h).
Proof.
  intros [Hst _]. unfold read_state, mbind, prog_bind, get, lift.
  by rewrite (store_records_read _ _ Hst).
Qed.

Lemma server_pubkey_records h s :
  native_records h s ->
  match _server_pubkey h with
  | (Ok _, h') => native_records h' s
  | (Err _, h') => native_records h' s
  end.
Proof.
  intros Hrec. unfold _server_pubkey, mbind, prog_bind, get, put, raise, mret, prog_ret.
  destruct (cached_public_key h); [done|].
  destruct (wg_pubkey (private_key_file h)) as [rc o|]; [|done].
  by destruct (rc =? 0).
Qed.

Definition native_driver : WireGuardDriver (host K) := {|
  drv_provision := provision_device cfg;
  drv_revoke := revoke_device cfg;
  drv_enable := enable_device cfg;
  drv_disable := disable_device cfg;
  drv_reconcile := reconcile;
|}.

Lemma native_change_device change key ok g now s h :
  native_records h s -> Forall peer_ok (peers (change s)) ->
  change_contract native_records o_state o_applied_generation ok g key s (change s)
    (change_device cfg change key ok g now h).
Proof.
  intros Hrec Hok. unfold change_device. rewrite (bind_ok _ _ _ _ _ (read_state_spec h s Hrec)).
  by apply native_change_spec.
Qed.

Lemma native_provision r s h :
  native_records h s -> key_ok (p_public_key r) -> address_ok (p_assigned_address r) ->
  change_contract native_records p_state p_applied_generation active (p_desired_generation r)
    (p_public_key r) s (with_peer (peer_of_provision r) s) (provision_device cfg r h).
Proof.
  intros Hrec Hk Ha. unfold provision_device, validate_address_in_client_pool.
  destruct (in_network _ _); [|done].
  rewrite (bind_ok _ _ h tt h) by done.
  rewrite (bind_ok _ _ _ _ _ (read_state_spec h s Hrec)).
  pose proof (server_pubkey_records h s Hrec) as Hpub.
  destruct (_server_pubkey h) as [[pub|e] h1] eqn:Hp.
  - rewrite (bind_ok _ _ _ _ _ Hp). apply native_change_spec; try done.
    apply with_peer_ok; [done|]. by destruct Hrec as [[? _] _].
  - rewrite (bind_err _ _ _ _ _ Hp). done.
Qed.

Definition native_contract : @DriverContract (host K) native_driver.
Proof.
  refine (@Build_DriverContract _ native_driver native_records _ _ _ _ _).
  - intros st s r. apply native_provision.
  - intros st s now r Hrec Hk. apply native_change_device; [done|].
    apply without_peer_ok. by destruct Hrec as [[? _] _].
  - intros st s r Hrec Hk Ha. change (drv_enable r st) with (enable_device cfg r st).
    unfold enable_device, validate_address_in_client_pool.
    destruct (in_network _ _); [|done]. rewrite (bind_ok _ _ st tt st) by done.
    apply native_change_device; [done|].
    apply with_peer_ok; [done|]. by destruct Hrec as [[? _] _].
  - intros st s r Hrec Hk. apply native_change_device; [done|].
    apply without_peer_ok. by destruct Hrec as [[? _] _].
  - intros st s r resp st' Hrec Hq. change (drv_reconcile r st) with (reconcile r st) in Hq.
    unfold reconcile in Hq. rewrite (bind_ok _ _ st st st) in Hq by done.
    destruct (wg_show_dump (kernel st)) as [rc out|]; [|done].
    destruct (rc =? 0).
    + rewrite (bind_ok _ _ _ _ _ (read_state_spec st s Hrec)) in Hq.
      unfold mret, prog_ret in Hq.
      destruct (dict_get _ _) as [live|]; [|by simplify_eq].
      destruct (peer (q_public_key r) s) as [p|]; [|by simplify_eq].
      case_bool_decide; [|by simplify_eq]. case_bool_decide; simplify_eq; [|done].
      split; [done|]. intros _. eauto.
    + unfold mret, prog_ret in Hq. simplify_eq. split; [done|]. by intros.
Qed.
End NativeContract.

(** *** [wg show dump] *)

(** A row of the dump: public key, preshared key, endpoint, allowed IPs, and
    the handshake and transfer fields. *)
Definition row_line (r : text * text * list text) : text :=
  let '(key, ips, rest) := r in
  join [TAB] (key :: str "(none)" :: str "(none)" :: ips :: rest).
Definition row_ok (r : text * text * list text) : Prop :=
  let '(key, ips, rest) := r in
  key <> [] /\ Forall (fun f : text => TAB ∉ f /\ NL ∉ f) (key :: ips :: rest).

(** The whole output: the interface's own line, then one line per peer. *)
Definition dump_text (header : text) (rows : list (text * text * list text)) : text :=
  join [NL] (header :: (row_line <$> rows) : list text) ++ [NL].

Definition table (rows : list (text * text * list text)) : list (text * text) :=
  fst <$> rows.

Lemma join_not_elem c sep ls :
  c ∉ sep -> Forall (fun l => c ∉ l) ls -> c ∉ join sep ls.
Proof.
  intros Hs. induction ls as [|l ls IH]; intros H; [apply not_elem_of_nil|].
  apply Forall_cons in H as [Hl Hls]. destruct ls as [|l' ls]; [done|].
  change (join sep (l :: l' :: ls)) with (l ++ sep ++ join sep (l' :: ls)).
  rewrite !not_elem_of_app. auto.
Qed.

Lemma row_line_ok r : row_ok r -> NL ∉ row_line r /\ row_line r <> [].
Proof.
  destruct r as [[key ips] rest]. intros [Hk Hf]. split.
  - assert (NL ∉ [TAB]) by (by intros ?%list_elem_of_singleton).
    apply Forall_cons in Hf as [[_ ?] Hf]. apply Forall_cons in Hf as [[_ ?] Hf].
    assert (NL ∉ str "(none)") by (by apply (bool_decide_unpack _)).
    apply join_not_elem; [done|]. do 4 (apply Forall_cons; split; [done|]).
    eapply Forall_impl; [exact Hf|]. by intros ? [].
  - destruct key; [done|]. by destruct rest.
Qed.

Lemma strip_newlines_body t :
  t <> [] -> head t <> Some NL -> last t <> Some NL -> strip_newlines (t ++ [NL]) = t.
Proof.
  intros Hne Hh Hl. unfold strip_newlines.
  destruct t as [|c t]; [done|]. cbn in Hh.
  assert (Hl1 : lstrip_newlines ((c :: t) ++ [NL]) = (c :: t) ++ [NL]).
  { cbn. rewrite decide_False; [done|congruence]. }
  rewrite Hl1, reverse_snoc. cbn [lstrip_newlines]. rewrite decide_True by done.
  destruct (reverse (c :: t)) as [|c' t'] eqn:Hr; [by apply (f_equal length) in Hr; rewrite length_reverse in Hr|].
  assert (last (c :: t) = Some c') by (by rewrite <- head_reverse, Hr).
  cbn. rewrite decide_False by congruence. rewrite <- Hr. apply reverse_involutive.
Qed.

Lemma join_ends sep ls :
  Forall (fun l => l <> [] /\ sep ∉ l) ls -> ls <> [] ->
  join [sep] ls <> [] /\ head (join [sep] ls) <> Some sep /\ last (join [sep] ls) <> Some sep.
Proof.
  intros H Hne. induction ls as [|l ls IH]; [done|]. apply Forall_cons in H as [[Hl Hs] Hls].
  assert (Hh : head l <> Some sep).
  { intros Hc. destruct l; [done|]. cbn in Hc. simplify_eq. apply Hs. by left. }
  assert (Ht : last l <> Some sep).
  { intros Hc. apply last_Some in Hc as [l' ->]. apply Hs, elem_of_app. right. by left. }
  destruct ls as [|l' ls]; [done|]. destruct (IH Hls) as (IH1 & _ & IH3); [done|].
  change (join [sep] (l :: l' :: ls)) with (l ++ [sep] ++ join [sep] (l' :: ls)).
  destruct l as [|c l]; [done|]. split; [done|]. split; [done|].
  rewrite last_app, last_app. by destruct (last (join [sep] (l' :: ls))) eqn:?; [|apply last_None in Heqo].
Qed.

Lemma parse_dump_row acc r :
  row_ok r -> parse_dump_line acc (row_line r) = dict_set r.1.1 r.1.2 acc.
Proof.
  destruct r as [[key ips] rest]. intros Hr. pose proof (row_line_ok _ Hr) as [_ Hne].
  unfold parse_dump_line. destruct (row_line (key, ips, rest)) eqn:Hl; [done|]. rewrite <- Hl.
  destruct Hr as [_ Hf]. apply Forall_cons in Hf as [[? _] Hf]. apply Forall_cons in Hf as [[? _] Hf].
  assert (TAB ∉ str "(none)") by (by apply (bool_decide_unpack _)).
  unfold row_line. rewrite split_on_join; [done|done|].
  do 4 (apply Forall_cons; split; [done|]). eapply Forall_impl; [exact Hf|]. by intros ? [].
Qed.

(** Parsing the dump gives the peer table it shows. *)
Lemma parse_show_dump_table header rows :
  header <> [] -> NL ∉ header -> Forall row_ok rows -> NoDup (table rows).*1 ->
  parse_show_dump (dump_text header rows) = table rows.
Proof.
  intros Hh Hnl Hrows Hnd.
  assert (Hls : Forall (fun l => l <> [] /\ NL ∉ l) (header :: (row_line <$> rows))).
  { apply Forall_cons; split; [done|]. apply Forall_fmap. eapply Forall_impl; [exact Hrows|].
    intros r Hr. by apply row_line_ok in Hr as [? ?]. }
  unfold parse_show_dump, dump_text.
  destruct (join_ends _ _ Hls) as (? & ? & ?); [done|].
  rewrite strip_newlines_body by done. rewrite split_on_join; [|done|].
  2: { eapply Forall_impl; [exact Hls|]. by intros ? []. }
  cbn [tail]. rewrite <- (dict_of_nodup (table rows) Hnd) at 1. unfold dict_of, table.
  clear -Hrows. generalize (@nil (text * text)). induction Hrows as [|r rows Hr Hrows IH]; [done|].
  intros acc. rewrite !fmap_cons. cbn [foldl]. by rewrite parse_dump_row.
Qed.

(** *** The interface follows the record *)

(** The allowed-IPs entry a peer set asks for. *)
Definition wanted (s : DesiredInterfaceState) (key : text) : option text :=
  (fun p => expected_allowed_ips (assigned_address p)) <$> peer key s.

(** No two peers share a key or an address ([wg] moves an address that is
    given twice to the peer named last). *)
Definition distinct (s : DesiredInterfaceState) : Prop :=
  NoDup (keys s) /\ NoDup (assigned_address <$> peers s).

(** What [wg] documents: a [syncconf] that exits 0 makes the peer table that
    of the file, and [show dump] prints the peer table. *)
Class WgToolOk (K : Type) `{WgTool K} := {
  serves : K -> text -> option text;
  syncconf_serves s i k out k' :
    Forall peer_ok (peers s) -> distinct s -> identity_wf (Some i) ->
    wg_syncconf (render_wireguard_config s (Some i)) k = (Completed 0 out, k') ->
    forall key, serves k' key = wanted s key;
  show_dump_serves k out : wg_show_dump k = Completed 0 out ->
    exists header rows, out = dump_text header rows /\ header <> [] /\ NL ∉ header /\
      Forall row_ok rows /\ NoDup (table rows).*1 /\
      forall key, dict_get key (table rows) = serves k key;
}.

Section Kernel.
Context {K : Type} `{WgToolOk K} (cfg : Settings).

(** Record and interface agree on the peer set [s]. *)
Definition agrees (h : host K) (s : DesiredInterfaceState) : Prop :=
  native_records cfg h s /\ distinct s /\ forall key, serves (kernel h) key = wanted s key.

Lemma rollback_text_records (h : host K) s :
  native_records cfg h s ->
  exists i, identity_wf (Some i) /\
    rollback_text (Some (identity_of cfg h)) (store h) = render_wireguard_config s (Some i).
Proof.
  intros [[_ Hl] Hi]. unfold rollback_text. destruct (last_known_good (store h)); [done|].
  subst. eauto.
Qed.

(** C33: applying a peer set to the interface either succeeds, and then the
    live peer table and the last-known-good record are both the new set; or
    fails with [ApplyError], and then both are the old set again; or the
    rollback itself failed or [wg] timed out, and then the record is still
    the old set.  No other exception leaves it. *)
Theorem apply_delta_all_or_nothing (h : host K) s desired :
  native_records cfg h s -> distinct s -> Forall peer_ok (peers desired) -> distinct desired ->
  match _apply_delta cfg desired h with
  | (Ok _, h') => agrees h' desired
  | (Err ApplyError, h') => agrees h' s
  | (Err RollbackFailedError, h') | (Err SubprocessTimeoutError, h') => native_records cfg h' s
  | (Err _, _) => False
  end.
Proof.
  intros Hrec Hd Hok Hd'. pose proof (apply_delta_records cfg h s desired Hrec Hok) as Hr.
  rewrite apply_delta_eq in *. cbv zeta in *.
  destruct (wg_syncconf _ (kernel h)) as [[rc o|] k1] eqn:H1; [|done].
  destruct (rc =? 0) eqn:Hrc.
  - boolP. subst. split; [done|]. split; [done|].
    eapply syncconf_serves; [done|done| |exact H1]. apply Hrec.
  - destruct (rollback_text_records h s Hrec) as (i & Hi & Ht). rewrite Ht in *.
    destruct (wg_syncconf _ k1) as [[rc2 o2|] k2] eqn:H2; [|done].
    destruct (rc2 =? 0) eqn:Hrc2; [|done]. boolP. subst. split; [done|]. split; [done|].
    eapply syncconf_serves; [apply Hrec|done|done|exact H2].
Qed.

Lemma distinct_with_peer p s :
  distinct s -> (forall q, q ∈ peers s -> assigned_address q = assigned_address p ->
                           public_key q = public_key p) ->
  distinct (with_peer p s).
Proof.
  intros [Hk Ha] Hp. unfold distinct, keys, with_peer. cbn.
  rewrite !fmap_app, !NoDup_app. cbn. repeat split.
  - rewrite keys_filter. by apply NoDup_filter.
  - intros x Hx Hx2. apply list_elem_of_singleton in Hx2 as ->.
    rewrite keys_filter in Hx. by apply list_elem_of_filter in Hx as [].
  - apply NoDup_singleton.
  - eapply sublist_NoDup; [exact Ha|]. apply fmap_sublist, sublist_filter.
  - intros x Hx Hx2. apply list_elem_of_singleton in Hx2 as ->.
    apply list_elem_of_fmap in Hx as (q & Hq & Hin). apply list_elem_of_filter in Hin as [Hne Hin].
    by apply Hne, Hp.
  - apply NoDup_singleton.
Qed.

Lemma distinct_without_peer key s : distinct s -> distinct (without_peer key s).
Proof.
  intros [Hk Ha]. split.
  - unfold keys, without_peer. cbn. rewrite keys_filter. by apply NoDup_filter.
  - eapply sublist_NoDup; [exact Ha|]. apply fmap_sublist, sublist_filter.
Qed.

(** A change that says it was made was made, on both sides. *)
Lemma change_agrees {A} (state_of : A -> op_state) h s desired good bad resp h' :
  native_records cfg h s -> Forall peer_ok (peers desired) -> distinct s -> distinct desired ->
  state_of bad = failed -> state_of resp <> failed ->
  try_except (_apply_delta cfg desired;; mret good) (caught bad) h = (Ok resp, h') ->
  resp = good /\ agrees h' desired.
Proof.
  intros Hrec Hok Hd Hd' Hbad Hresp Heq.
  pose proof (apply_delta_records cfg h s desired Hrec Hok) as Hr.
  unfold try_except, mbind, prog_bind in Heq. rewrite apply_delta_eq in *. cbv zeta in *.
  destruct (wg_syncconf _ (kernel h)) as [[rc o|] k1] eqn:H1; [|done].
  destruct (rc =? 0) eqn:Hrc.
  - boolP. unfold mret, prog_ret in Heq. simplify_eq. split; [done|]. split; [done|]. split; [done|].
    eapply syncconf_serves; [done|done| |exact H1]. apply Hrec.
  - destruct (wg_syncconf _ k1) as [[rc2 o2|] k2] eqn:H2; [|done].
    destruct (rc2 =? 0); [|done]. unfold caught, mret, prog_ret in Heq. congruence.
Qed.

Definition address_free (key : text) (a : IPAddress) (s : DesiredInterfaceState) : Prop :=
  forall q, q ∈ peers s -> assigned_address q = a -> public_key q = key.

Lemma provision_agrees r h s resp h' :
  native_records cfg h s -> distinct s -> key_ok (p_public_key r) ->
  address_ok (p_assigned_address r) -> address_free (p_public_key r) (p_assigned_address r) s ->
  provision_device cfg r h = (Ok resp, h') -> p_state resp <> failed ->
  p_applied_generation resp = p_desired_generation r /\
  agrees h' (with_peer (peer_of_provision r) s).
Proof.
  intros Hrec Hd Hk Ha Hf Heq Hst. unfold provision_device, validate_address_in_client_pool in Heq.
  destruct (in_network _ _); [|done]. rewrite (bind_ok _ _ h tt h) in Heq by done.
  rewrite (bind_ok _ _ _ _ _ (read_state_spec cfg h s Hrec)) in Heq.
  pose proof (server_pubkey_records cfg h s Hrec) as Hpub.
  destruct (_server_pubkey h) as [[pub|e] h1] eqn:Hp.
  - rewrite (bind_ok _ _ _ _ _ Hp) in Heq.
    eapply (change_agrees p_state) in Heq as [-> Hag]; [done|exact Hpub| |exact Hd| |done|done].
    + apply with_peer_ok; [done|apply Hrec].
    + by apply distinct_with_peer.
  - by rewrite (bind_err _ _ _ _ _ Hp) in Heq.
Qed.

(** Reconciling against an agreeing host answers from the peer set alone. *)
Lemma reconcile_agrees r h s out :
  agrees h s -> wg_show_dump (kernel h) = Completed 0 out ->
  reconcile r h =
    (Ok match peer (q_public_key r) s with
        | None => {| q_outcome := drift_detected; observed_generation := None; q_error_code := None |}
        | Some p =>
            {| q_outcome := if bool_decide (assigned_address p = q_assigned_address r)
                            then in_sync else ambiguous;
               observed_generation := Some (generation p); q_error_code := None |}
        end, h).
Proof.
  intros (Hrec & _ & Hserves) Hout. unfold reconcile. rewrite (bind_ok _ _ h h h) by done.
  rewrite Hout. cbn [Z.eqb]. rewrite (bind_ok _ _ _ _ _ (read_state_spec cfg h s Hrec)).
  destruct (show_dump_serves _ _ Hout) as (header & rows & -> & ? & ? & ? & ? & Ht).
  rewrite parse_show_dump_table by done. rewrite Ht, Hserves. unfold wanted.
  destruct (peer (q_public_key r) s) as [p|]; [|done]. cbn.
  destruct (bool_decide (assigned_address p = _)) eqn:Hb.
  - boolP. rewrite Hb. by rewrite bool_decide_true.
  - by rewrite andb_false_r.
Qed.

(** A device the agent reports active is served: the interface lists its
    key with exactly its host route, and a reconcile of the same device
    answers in_sync with the generation that was asked for. *)
Theorem provisioned_device_is_in_sync r h s resp h' out :
  native_records cfg h s -> distinct s -> key_ok (p_public_key r) ->
  address_ok (p_assigned_address r) -> address_free (p_public_key r) (p_assigned_address r) s ->
  provision_device cfg r h = (Ok resp, h') -> p_state resp = active ->
  wg_show_dump (kernel h') = Completed 0 out ->
  p_applied_generation resp = p_desired_generation r /\
  serves (kernel h') (p_public_key r) = Some (expected_allowed_ips (p_assigned_address r)) /\
  forall g, reconcile {| q_public_key := p_public_key r;
                         q_assigned_address := p_assigned_address r;
                         q_desired_generation := g |} h'
    = (Ok {| q_outcome := in_sync; observed_generation := Some (p_desired_generation r);
             q_error_code := None |}, h').
Proof.
  intros Hrec Hd Hk Ha Hf Heq Hst Hout.
  eapply provision_agrees in Heq as [Hg Hag]; [|done..|congruence].
  pose proof Hag as (_ & _ & Hserves).
  assert (Hp : peer (p_public_key r) (with_peer (peer_of_provision r) s) = Some (peer_of_provision r)).
  { unfold peer, with_peer. cbn. rewrite find_peer_app, find_peer_filter_eq. cbn. by rewrite decide_True. }
  split; [done|]. split.
  - rewrite Hserves. unfold wanted. by rewrite Hp.
  - intros g. rewrite (reconcile_agrees _ _ _ _ Hag Hout). cbn [q_public_key q_assigned_address].
    rewrite Hp. cbn. by rewrite bool_decide_true.
Qed.

(** A device the agent reports revoked is gone: the interface no longer
    lists its key, every other peer is served as before, and a reconcile of
    the device answers drift_detected. *)
Theorem revoked_device_is_not_served now r h s resp h' out :
  native_records cfg h s -> distinct s ->
  revoke_device cfg now r h = (Ok resp, h') -> o_state resp = revoked ->
  wg_show_dump (kernel h') = Completed 0 out ->
  serves (kernel h') (r_public_key r) = None /\
  (forall key, key <> r_public_key r -> serves (kernel h') key = wanted s key) /\
  forall q, q_public_key q = r_public_key r ->
    reconcile q h' = (Ok {| q_outcome := drift_detected; observed_generation := None;
                            q_error_code := None |}, h').
Proof.
  intros Hrec Hd Heq Hst Hout. unfold revoke_device, change_device in Heq.
  rewrite (bind_ok _ _ _ _ _ (read_state_spec cfg h s Hrec)) in Heq.
  eapply (change_agrees o_state) in Heq as [_ Hag];
    [|exact Hrec|apply without_peer_ok, Hrec|exact Hd|by apply distinct_without_peer|done|congruence].
  pose proof Hag as (_ & _ & Hserves).
  assert (Hp : peer (r_public_key r) (without_peer (r_public_key r) s) = None)
    by apply find_peer_filter_eq.
  split; [rewrite Hserves; unfold wanted; by rewrite Hp|]. split.
  - intros key Hne. rewrite Hserves. unfold wanted. f_equal. by apply find_peer_filter_ne.
  - intros q Hq. rewrite (reconcile_agrees _ _ _ _ Hag Hout), Hq. by rewrite Hp.
Qed.
End Kernel.

(** ** A concrete [wg], for examples

    It holds a peer set and the fate of the next [syncconf] runs: work,
    refuse, or be killed by the timeout after the change was made. *)

Inductive fate := works | refuses | hangs.
Record interface := { peer_table : DesiredInterfaceState; fates : list fate }.

Definition interface_syncconf (t : text) (k : interface) : exec * interface :=
  match parse_wireguard_config t, fates k with
  | Some s, [] | Some s, works :: _ =>
      (Completed 0 [], {| peer_table := s; fates := tail (fates k) |})
  | Some s, hangs :: r => (TimedOut, {| peer_table := s; fates := r |})
  | _, _ => (Completed 1 [], {| peer_table := peer_table k; fates := tail (fates k) |})
  end.

Definition row_of (p : RenderedPeer) : text * text * list text :=
  (public_key p, expected_allowed_ips (assigned_address p), [str "0"; str "0"; str "0"; str "off"]).

#[global] Instance row_ok_dec r : Decision (row_ok r).
Proof. destruct r as [[? ?] ?]. unfold row_ok. apply _. Defined.

Definition interface_show (k : interface) : exec :=
  let rows := row_of <$> peers (peer_table k) in
  if bool_decide (Forall row_ok rows /\ NoDup (table rows).*1)
  then Completed 0 (dump_text (str "(hidden)") rows) else Completed 1 [].

#[export] Instance interface_tool : WgTool interface := {
  wg_syncconf := interface_syncconf;
  wg_show_dump := interface_show;
  wg_pubkey t := Completed 0 (example_key "s"%char ++ [NL]);
}.

Lemma interface_syncconf_serves s i k out k' :
  Forall peer_ok (peers s) -> distinct s -> identity_wf (Some i) ->
  wg_syncconf (render_wireguard_config s (Some i)) k = (Completed 0 out, k') ->
  forall key, wanted (peer_table k') key = wanted s key.
Proof.
  intros Hok _ Hi Heq key.
  change (interface_syncconf (render_wireguard_config s (Some i)) k = (Completed 0 out, k')) in Heq.
  unfold interface_syncconf in Heq.
  rewrite parse_rendered in Heq by (done || by apply peers_ok_wf).
  destruct (fates k) as [|[] r]; by simplify_eq.
Qed.

Lemma table_rows ps key :
  dict_get key (table (row_of <$> ps)) = wanted {| peers := ps |} key.
Proof.
  unfold wanted, peer. cbn. induction ps as [|p ps IH]; [done|]. cbn.
  destruct (decide (public_key p = key)); [done|]. exact IH.
Qed.

Lemma interface_show_serves k out :
  wg_show_dump k = Completed 0 out ->
  exists header rows, out = dump_text header rows /\ header <> [] /\ NL ∉ header /\
    Forall row_ok rows /\ NoDup (table rows).*1 /\
    forall key, dict_get key (table rows) = wanted (peer_table k) key.
Proof.
  cbn. unfold interface_show. case_bool_decide as Hb; [|done]. intros. simplify_eq.
  exists (str "(hidden)"), (row_of <$> peers (peer_table k)).
  destruct Hb as [? ?]. split; [done|]. split; [done|].
  split; [by apply (bool_decide_unpack _)|]. split; [done|]. split; [done|].
  intros key. rewrite table_rows. by destruct (peer_table k).
Qed.

#[export] Instance interface_ok : WgToolOk interface := {
  serves k := wanted (peer_table k);
  syncconf_serves := interface_syncconf_serves;
  show_dump_serves := interface_show_serves;
}.

Definition example_settings : Settings := {|
  wg_client_pool := {| net_version := 4; net_address := 172818432; net_prefixlen := 24 |};
  wg_listen_port := 51820; wg_public_endpoint := str "vpn.test:51820";
  wg_client_dns := str "1.1.1.1"; wg_client_allowed_ips := str "0.0.0.0/0,::/0";
  wg_persistent_keepalive_seconds := 25 |}.

Definition example_host (plan : list fate) : host interface := {|
  store := {| last_known_good := None; candidate := None |};
  kernel := {| peer_table := empty_state; fates := plan |};
  private_key_file := example_key "k"%char ++ [NL];
  cached_public_key := None |}.

Definition example_request : ProvisionDeviceRequest := {|
  p_public_key := public_key example_peer; p_assigned_address := assigned_address example_peer;
  p_desired_generation := 7; p_keepalive := Some 25 |}.

Lemma example_host_records plan : native_records example_settings (example_host plan) empty_state.
Proof.
  split; [by split; [apply Forall_nil|]|].
  replace (identity_of example_settings (example_host plan)) with example_identity
    by (vm_compute; reflexivity).
  split; [done|]. by repeat constructor.
Qed.

Lemma empty_distinct : distinct empty_state.
Proof. split; apply NoDup_nil_2. Qed.

Lemma example_peer_ok : peer_ok example_peer.
Proof. split; [by vm_compute|]. split; [by vm_compute|done]. Qed.

Lemma example_peer_distinct : distinct {| peers := [example_peer] |}.
Proof. split; apply NoDup_singleton. Qed.

Lemma apply_delta_all_or_nothing_witness :
  (exists h, _apply_delta example_settings {| peers := [example_peer] |} (example_host [works])
             = (Ok tt, h) /\ agrees example_settings h {| peers := [example_peer] |}) /\
  (exists h, _apply_delta example_settings {| peers := [example_peer] |} (example_host [refuses])
             = (Err ApplyError, h) /\ agrees example_settings h empty_state).
Proof.
  split.
  - pose proof (apply_delta_all_or_nothing example_settings (example_host [works]) empty_state
      {| peers := [example_peer] |} (example_host_records _) empty_distinct
      (proj2 (Forall_singleton _ _) example_peer_ok) example_peer_distinct) as H.
    destruct (_apply_delta _ _ _) as [[[]|e] h] eqn:He; [eauto|].
    exfalso. revert He. vm_compute. discriminate.
  - pose proof (apply_delta_all_or_nothing example_settings (example_host [refuses]) empty_state
      {| peers := [example_peer] |} (example_host_records _) empty_distinct
      (proj2 (Forall_singleton _ _) example_peer_ok) example_peer_distinct) as H.
    destruct (_apply_delta _ _ _) as [r h] eqn:He.
    assert (r = Err ApplyError) as ->.
    { change r with (fst (r, h)). rewrite <- He. vm_compute. reflexivity. }
    eauto.
Defined.

Definition example_response : ProvisionDeviceResponse := {|
  p_state := active; p_applied_generation := 7; p_error_code := None;
  p_common := {| server_public_key := example_key "s"%char; c_listen_port := 51820;
                 public_endpoint := str "vpn.test:51820"; client_dns := str "1.1.1.1";
                 client_allowed_ips := str "0.0.0.0/0,::/0"; c_keepalive := 25 |} |}.
Definition example_provisioned : host interface :=
  snd (provision_device example_settings example_request (example_host [])).
Definition example_dump (ps : list RenderedPeer) : text :=
  dump_text (str "(hidden)") (row_of <$> ps).

Lemma provisioned_device_is_in_sync_witness :
  serves (kernel example_provisioned) (public_key example_peer)
    = Some (expected_allowed_ips (assigned_address example_peer)).
Proof.
  apply (provisioned_device_is_in_sync example_settings example_request (example_host [])
           empty_state example_response example_provisioned (example_dump [example_peer])
           (example_host_records _) empty_distinct).
  - apply example_peer_ok.
  - apply example_peer_ok.
  - intros q Hq. by apply not_elem_of_nil in Hq.
  - vm_compute. reflexivity.
  - reflexivity.
  - vm_compute. reflexivity.
Defined.

Definition example_revoke : RevokeDeviceRequest :=
  {| r_public_key := public_key example_peer; r_desired_generation := 8 |}.
Definition example_revoked : host interface :=
  snd (revoke_device example_settings 1000 example_revoke example_provisioned).

Lemma revoked_device_is_not_served_witness :
  serves (kernel example_revoked) (public_key example_peer) = None.
Proof.
  apply (revoked_device_is_not_served example_settings 1000 example_revoke example_provisioned
           {| peers := [example_peer] |}
           {| o_state := revoked; o_applied_generation := 8; o_error_code := None;
              o_revoked_at := Some 1000 |} example_revoked (example_dump [])).
  - split; [|apply (example_host_records [])]. split; [apply Forall_singleton, example_peer_ok|].
    exists example_identity. split; [apply (example_host_records [])|]. vm_compute. reflexivity.
  - apply example_peer_distinct.
  - vm_compute. reflexivity.
  - reflexivity.
  - vm_compute. reflexivity.
Defined.

(** An apply that times out is not rolled back: the exception leaves
    [_apply_delta] after the one [syncconf] run (the fates are not consumed
    further), and the interface serves a peer the record does not have. *)
Theorem apply_timeout_is_not_rolled_back :
  exists h, _apply_delta example_settings {| peers := [example_peer] |} (example_host [hangs; works])
              = (Err SubprocessTimeoutError, h) /\
    fates (kernel h) = [works] /\
    serves (kernel h) (public_key example_peer) <> None /\
    read_last_known_good (store h) = Some empty_state.
Proof. eexists. split; [vm_compute; reflexivity|]. by repeat split. Qed.

(** ** A client of the contract *)

(** Any driver that keeps the contract reports generations the control
    plane can rely on: after a provision reported active, an in_sync
    reconcile of that device observes exactly the generation that was asked
    for; after a revoke reported revoked, no reconcile of it is in_sync. *)
Theorem reconcile_reports_applied_generation {St} `{DriverContract St} st s r now q :
  records st s -> key_ok (p_public_key r) -> address_ok (p_assigned_address r) ->
  q_public_key q = p_public_key r ->
  (forall resp st' ans st'', drv_provision r st = (Ok resp, st') -> p_state resp = active ->
     drv_reconcile q st' = (Ok ans, st'') -> q_outcome ans = in_sync ->
     observed_generation ans = Some (p_desired_generation r)) /\
  (forall rv resp st' ans st'', r_public_key rv = p_public_key r ->
     drv_revoke now rv st = (Ok resp, st') -> o_state resp = revoked ->
     drv_reconcile q st' = (Ok ans, st'') -> q_outcome ans <> in_sync).
Proof.
  intros Hrec Hk Ha Hq. split.
  - intros resp st' ans st'' Hp Hst Hr Ho.
    pose proof (provision_contract st s r Hrec Hk Ha) as Hc. rewrite Hp in Hc.
    destruct Hc as [(_ & _ & Hrec')|(? & _ & _)]; [|congruence].
    destruct (reconcile_contract _ _ _ _ _ Hrec' Hr) as [_ Hin].
    destruct (Hin Ho) as (p & Hpeer & _ & ->). rewrite Hq in Hpeer.
    unfold peer, with_peer in Hpeer. cbn in Hpeer.
    rewrite find_peer_app, find_peer_filter_eq in Hpeer. cbn in Hpeer.
    rewrite decide_True in Hpeer by done. by simplify_eq.
  - intros rv resp st' ans st'' Hkey Hp Hst Hr Ho. rewrite <- Hkey in *.
    pose proof (revoke_contract st s now rv Hrec Hk) as Hc. rewrite Hp in Hc.
    destruct Hc as [(_ & _ & Hrec')|(? & _ & _)]; [|congruence].
    destruct (reconcile_contract _ _ _ _ _ Hrec' Hr) as [_ Hin].
    destruct (Hin Ho) as (p & Hpeer & _). rewrite Hq in Hpeer.
    unfold peer, without_peer in Hpeer. cbn in Hpeer. by rewrite find_peer_filter_eq in Hpeer.
Qed.

Definition example_fake : FakeWireGuardRunner := {|
  f_config_store := None; f_state := empty_state; f_common := p_common example_response;
  fail_next := false |}.

Definition example_query : ReconcileRequest := {|
  q_public_key := public_key example_peer; q_assigned_address := assigned_address example_peer;
  q_desired_generation := 7 |}.

Lemma reconcile_reports_applied_generation_witness :
  let f := snd (drv_provision example_request example_fake) in
  exists ans, drv_reconcile example_query f = (Ok ans, f) /\ observed_generation ans = Some 7.
Proof.
  intros f. eexists. split; [vm_compute; reflexivity|].
  destruct (reconcile_reports_applied_generation (St := FakeWireGuardRunner) example_fake
              empty_state example_request 0 example_query) as [H _].
  - split; [done|]. by split; [apply Forall_nil|].
  - apply example_peer_ok.
  - apply example_peer_ok.
  - reflexivity.
  - refine (H example_response f _ f _ _ _ _); vm_compute; reflexivity.
Defined.

End Wg.
