(* ===== verification/XrayDriver.v ===== *)
(** * The Xray driver

    Models [nebula_agent/drivers/xray.py] and the Xray half of
    [nebula_agent/drivers/fake.py] against the contract of
    [nebula_agent/drivers/xray_base.py].  The [xray] binary, [systemctl], the
    Hysteria2 process, the clock and SHA-256 are outside the repository: they are
    the parameters [XrayTool] and [sha256_hex]. *)

From S2P Require Import Prelude PyText PyBytes Json IpAddress WgConfig WgDriver XrayConfig HysteriaConfig.
Import XrayConfig HysteriaConfig.

Module Xray.

Abbreviation exec := Wg.exec.
Abbreviation op_state := Wg.op_state.
Abbreviation health_state := Wg.health_state.

(** ** Requests and responses (drivers/xray_base.py) *)

Record ClientRequest := {
  q_client_uuid : Z;
  q_profile_code : text;
  q_generation : Z;
}.

(** The connection details of [_response_common] and [_client_fields]. *)
Record Details := {
  d_server_address : text; d_port : Z; d_sni : text; d_transport : text; d_transport_security : text;
  d_path : option text; d_service_name : option text; d_obfs_password : option text;
  d_port_hop : option text; d_reality_public_key : option text; d_reality_short_id : option text;
  d_flow : option text; d_protocol : text; d_method : option text; d_password : option text;
  d_encryption : option text;
}.

Record ProvisionResponse := {
  x_state : op_state;
  x_applied_generation : Z;
  x_error_code : option text;
  x_details : Details;
}.

Inductive prune_state := pruned | prune_failed.
Record PruneResponse := {
  pr_state : prune_state;
  pr_removed : Z;
  pr_kept : Z;
  pr_error_code : option text;
}.

Record XrayHealthResponse := {
  xh_state : health_state;
  listener_up : bool;
  client_count : Z;
  xh_error_code : option text;
}.

(** [Crash] is an exception no one expects: a file or an answer that is JSON of
    another shape.  [OutOfFuel] is no behaviour of the code; see
    [hysteria_wait_ends]. *)
Inductive exn :=
| ValidationError | ApplyError | RollbackFailedError | SubprocessTimeoutError | OSError | Crash | OutOfFuel.
#[global] Instance exn_eq_dec : EqDecision exn.
Proof. solve_decision. Defined.

(** ** What the driver calls *)

Class XrayTool (K : Type) := {
  (** [xray run -test] on a file with this text *)
  xray_test : text -> K -> exec * K;
  (** [systemctl restart nebula-xray], which loads the file *)
  restart_xray : option text -> K -> exec * K;
  (** [xray api <command> --server=... <arguments>] with this standard input *)
  xray_api_call : text -> list text -> option text -> K -> exec * K;
  restart_hysteria : option text -> K -> exec * K;
  hysteria_is_active : K -> exec * K;
  (** the [POST] of [_post_hysteria_kick] to a URL, with a secret and labels *)
  kick : text -> text -> list text -> K -> bool * K;
  (** [time.monotonic()], in milliseconds *)
  monotonic : K -> Z;
  sleep : Z -> K -> K;
  (** connecting to a port of 127.0.0.1 *)
  tcp_connect : Z -> K -> bool;
}.

Record Settings := {
  profiles : list XrayInboundProfile;
  hysteria_profile : option HysteriaServerProfile;
  render_options : RenderOptions;
  xray_public_host : text;
  xray_sni : text;
  xray_public_port : Z;
  xray_local_listen_port : Z;
  xray_hysteria_hop_ports : option text;
}.
Definition live_updates (cfg : Settings) : bool := live_client_updates (render_options cfg).

Record Lingering := { removed_at : Z; baseline : option Z }.

Record host (K : Type) := {
  store : XrayConfigStore;
  hysteria_config : option text;
  lingering : list (text * Lingering);
  linger_task : bool;
  kernel : K;
}.
#[global] Arguments store {K}.
#[global] Arguments hysteria_config {K}.
#[global] Arguments lingering {K}.
#[global] Arguments linger_task {K}.
#[global] Arguments kernel {K}.

(** [sorted(...)] of strings *)
Definition sort_texts (l : list text) : list text := fst <$> sort_by_key ((fun t => (t, tt)) <$> l).

(** [t.split(">>>")] *)
Fixpoint split_arrows_go (fuel : nat) (acc t : text) : list text :=
  match fuel with
  | O => [reverse acc ++ t]
  | S f => match t with
           | [] => [reverse acc]
           | c :: r => if startswith (str ">>>") t then reverse acc :: split_arrows_go f [] (drop 3 t)
                       else split_arrows_go f (c :: acc) r
           end
  end.
Definition split_arrows (t : text) : list text := split_arrows_go (S (length t)) [] t.

(** ** The configuration, read for live updates *)

Definition _LIVE_PROTOCOLS : list text := [str "vless"; str "shadowsocks"; str "vmess"].

Definition is_live_protocol (o : option json) : bool :=
  match o with Some (JStr p) => bool_decide (p ∈ _LIVE_PROTOCOLS) | _ => false end.

(** The body of the loop of [_shape_without_clients]. *)
Definition empty_clients (j : json) : json :=
  match j with
  | JObj kvs =>
      if is_live_protocol (dict_get (str "protocol") kvs) then
        match dict_get (str "settings") kvs with
        | Some (JObj s) => JObj (dict_set (str "settings") (JObj (dict_set (str "clients") (JArr []) s)) kvs)
        | _ => j
        end
      else j
  | _ => j
  end.

Definition _shape_without_clients (t : text) : result read_error (option text) :=
  match loads t with
  | Some (JObj kvs) =>
      match default (JArr []) (dict_get (str "inbounds") kvs) with
      | JArr l =>
          Ok (Some (dumps (sort_keys
            (match dict_get (str "inbounds") kvs with
             | Some _ => JObj (dict_set (str "inbounds") (JArr (empty_clients <$> l)) kvs)
             | None => JObj kvs
             end))))
      | JObj _ | JStr _ => Ok (Some (dumps (sort_keys (JObj kvs))))
      | _ => Err Uncaught
      end
  | _ => Ok None
  end.

Record _LiveInbound := {
  li_port : Z;
  li_protocol : text;
  li_settings : list (text * json);
  li_clients : list (text * list (text * text));
}.

(** One client of an inbound, keyed by its email. *)
Definition live_client (j : json) : result read_error (text * list (text * text)) :=
  match j with
  | JObj kvs =>
      match dict_get (str "email") kvs with
      | Some e => Ok (py_str e, (fun kv => (kv.1, py_str kv.2)) <$> kvs)
      | None => Err Uncaught
      end
  | _ => Err Uncaught
  end.

Definition json_int (j : json) : result read_error Z :=
  match j with
  | JInt n => Ok n
  | JBool b => Ok (if b then 1 else 0)
  | JStr t => match py_int t with Some n => Ok n | None => Err ValueError end
  | _ => Err Uncaught
  end.

(** The body of the loop of [_live_inbounds_by_tag]; [None] is [continue]. *)
Definition live_inbound (j : json) : result read_error (option (text * _LiveInbound)) :=
  match j with
  | JObj kvs =>
      match dict_get (str "protocol") kvs with
      | Some (JStr protocol) =>
          if bool_decide (protocol ∈ _LIVE_PROTOCOLS) then
            match default (JObj []) (dict_get (str "settings") kvs) with
            | JObj settings =>
                cs ← iter_json (default (JArr []) (dict_get (str "clients") settings));
                cl ← map_read live_client cs;
                match dict_get (str "tag") kvs, dict_get (str "port") kvs with
                | Some tag, Some port_ =>
                    p ← json_int port_;
                    Ok (Some (py_str tag,
                              {| li_port := p; li_protocol := protocol;
                                 li_settings := dict_pop (str "clients") settings;
                                 li_clients := dict_of cl |}))
                | _, _ => Err Uncaught
                end
            | _ => Err Uncaught
            end
          else Ok None
      | _ => Ok None
      end
  | _ => Err Uncaught
  end.

Definition _live_inbounds_by_tag (t : text) : result read_error (list (text * _LiveInbound)) :=
  match loads t with
  | Some c =>
      l ← jget "inbounds" c;
      inbs ← iter_json (default (JArr []) l);
      found ← map_read live_inbound inbs;
      Ok (dict_of (omap id found))
  | None => Err ValueError
  end.
(** ** NativeXrayDriver *)

Definition _HYSTERIA_ACTIVE_TIMEOUT_MS : Z := 15000.
Definition _HYSTERIA_ACTIVE_POLL_MS : Z := 500.
Definition _LINGER_WATCH_MS : Z := 330000.
Definition _LINGER_POLL_MS : Z := 10000.

Section Driver.
Context {K : Type} `{XrayTool K} (sha256_hex : text -> text) (cfg : Settings).
Abbreviation host := (host K).
Abbreviation M := (prog host exn).

Definition with_store (f : XrayConfigStore -> XrayConfigStore) (h : host) : host :=
  {| store := f (store h); hysteria_config := hysteria_config h; lingering := lingering h;
     linger_task := linger_task h; kernel := kernel h |}.
Definition with_hysteria (t : text) (h : host) : host :=
  {| store := store h; hysteria_config := Some t; lingering := lingering h;
     linger_task := linger_task h; kernel := kernel h |}.
Definition with_lingering (f : list (text * Lingering) -> list (text * Lingering)) (h : host) : host :=
  {| store := store h; hysteria_config := hysteria_config h; lingering := f (lingering h);
     linger_task := linger_task h; kernel := kernel h |}.
Definition with_task (b : bool) (h : host) : host :=
  {| store := store h; hysteria_config := hysteria_config h; lingering := lingering h;
     linger_task := b; kernel := kernel h |}.
Definition with_kernel (k : K) (h : host) : host :=
  {| store := store h; hysteria_config := hysteria_config h; lingering := lingering h;
     linger_task := linger_task h; kernel := k |}.

(** A subprocess: what it printed, or [err] for a non-zero exit. *)
Definition run (call : host -> exec * K) : M (Z * text) := fun h =>
  let '(out, k) := call h in
  match out with
  | Wg.TimedOut => (Err SubprocessTimeoutError, with_kernel k h)
  | Wg.Completed rc stdout => (Ok (rc, stdout), with_kernel k h)
  end.
Definition run_or (err : exn) (call : host -> exec * K) : M text :=
  '(rc, stdout) ← run call; if rc =? 0 then mret stdout else raise err.

Definition of_read {A} (r : result read_error A) : M A :=
  match r with Ok a => mret a | Err _ => raise Crash end.

Definition read_state : M DesiredXrayState := fun h =>
  match read_last_known_good (store h) with Some s => (Ok s, h) | None => (Err Crash, h) end.

Definition _serves (code_ : text) : bool :=
  match hysteria_profile cfg with
  | Some p => bool_decide (h_profile_code p = code_)
  | None => false
  end || existsb (fun p => bool_decide (profile_code p = code_)) (profiles cfg).

Definition find_profile (code_ : text) : option XrayInboundProfile :=
  head (filter (fun p => profile_code p = code_) (profiles cfg)).
Definition _profile_for (code_ : text) : result exn XrayInboundProfile :=
  of_option ValidationError (find_profile code_).

Definition _last_applied_generation (current : DesiredXrayState) (u : Z) : Z :=
  match client u current with None => 0 | Some c => generation c end.

Definition _render (s : DesiredXrayState) : text :=
  render_xray_server_config sha256_hex s (profiles cfg) (render_options cfg).

Definition _validate (config : text) : M unit :=
  modify (with_store (write_validate_scratch_atomically config));;
  run_or ValidationError (fun h => xray_test config (kernel h));; mret tt.

Definition _reload : M unit :=
  run_or ApplyError (fun h => restart_xray (xray_config (store h)) (kernel h));; mret tt.

Definition _hysteria_auth_url : text :=
  str "http://" ++ api_host (render_options cfg) ++ str ":" ++ show_Z HYSTERIA_AUTH_PORT ++ HYSTERIA_AUTH_PATH.

Definition _render_hysteria (p : HysteriaServerProfile) (s : DesiredXrayState) : text :=
  render_hysteria_server_config sha256_hex (client_uuid <$> clients_for (h_profile_code p) s) p
    (api_host (render_options cfg))
    (if live_updates cfg then Some _hysteria_auth_url else None) (dns_redirect (render_options cfg)).

(** The polling of [_apply_hysteria]: until the unit is active, has failed, or
    the deadline has passed. *)
Fixpoint wait_active (fuel : nat) (deadline : Z) : M unit :=
  match fuel with
  | O => raise OutOfFuel
  | S f =>
      '(rc, stdout) ← run (fun h => hysteria_is_active (kernel h));
      if rc =? 0 then mret tt
      else
        h ← get;
        if bool_decide (strip stdout = str "failed") || (deadline <=? monotonic (kernel h))
        then raise ApplyError
        else modify (fun h => with_kernel (sleep _HYSTERIA_ACTIVE_POLL_MS (kernel h)) h);; wait_active f deadline
  end.

(** One look at the start and one after each pause. *)
Definition wait_fuel : nat := 32.

Definition _apply_hysteria (s : DesiredXrayState) : M unit :=
  match hysteria_profile cfg with
  | None => mret tt
  | Some p =>
      let rendered := _render_hysteria p s in
      h ← get;
      if bool_decide (hysteria_config h = Some rendered) then mret tt
      else
        modify (with_hysteria rendered);;
        run_or ApplyError (fun h => restart_hysteria (hysteria_config h) (kernel h));;
        h ← get;
        wait_active wait_fuel (monotonic (kernel h) + _HYSTERIA_ACTIVE_TIMEOUT_MS)
  end.

Definition _rollback : M unit :=
  s ← read_state;
  modify (with_store (write_xray_config_atomically (_render s)));;
  try_except (_reload;; _apply_hysteria s)
    (fun e => match e with ApplyError => Some (raise RollbackFailedError) | _ => None end).

(** *** Live updates *)

Definition _xray_api (command : text) (arguments : list text) (stdin : option text) : M text :=
  run_or ApplyError (fun h => xray_api_call command arguments stdin (kernel h)).

(** [json.loads(output or "{}")] *)
Definition loads_answer (output : text) : M json :=
  match loads (match output with [] => str "{}" | _ => output end) with
  | Some j => mret j
  | None => raise ApplyError
  end.

Definition user_email (j : json) : option text :=
  match j with
  | JObj kvs => match dict_get (str "email") kvs with
                | Some e => if truthy e then Some (py_str e) else None
                | None => None
                end
  | _ => None
  end.

Definition emails_of (payload : json) : result read_error (gset text) :=
  match payload with
  | JObj kvs => us ← iter_json (default (JArr []) (dict_get (str "users") kvs));
                Ok (list_to_set (omap user_email us))
  | _ => Ok ∅
  end.

Definition _live_emails (tag : text) : M (gset text) :=
  output ← _xray_api (str "inbounduser") [str "-tag=" ++ tag] None;
  payload ← loads_answer output;
  of_read (emails_of payload).

Definition email_set (li : _LiveInbound) : gset text := list_to_set (li_clients li).*1.

(** The new clients of an inbound as [adu] takes them. *)
Definition addition (tag : text) (li : _LiveInbound) (new : list text) : json :=
  JObj [(str "tag", JStr tag); (str "protocol", JStr (li_protocol li)); (str "port", JInt (li_port li));
        (str "settings",
         JObj (dict_set (str "clients")
           (JArr ((fun e => JObj ((fun kv => (kv.1, JStr kv.2)) <$> default [] (dict_get e (li_clients li)))) <$> new))
           (li_settings li)))].

(** The first loop: remove what should be gone, collect what is new. *)
Fixpoint remove_gone (wanted : list (text * _LiveInbound)) : M (gset text * list json) :=
  match wanted with
  | [] => mret (∅, [])
  | (tag, li) :: wanted' =>
      live ← _live_emails tag;
      let gone := live ∖ email_set li in
      (if bool_decide (gone = ∅) then mret tt
       else _xray_api (str "rmu") ((str "-tag=" ++ tag) :: sort_texts (elements gone)) None;; mret tt);;
      let new := sort_texts (elements (email_set li ∖ live)) in
      '(removed, additions) ← remove_gone wanted';
      mret (gone ∪ removed, (match new with [] => [] | _ => [addition tag li new] end) ++ additions)
  end.

(** The second: what Xray holds now is the only evidence. *)
Fixpoint confirm (wanted : list (text * _LiveInbound)) : M unit :=
  match wanted with
  | [] => mret tt
  | (tag, li) :: wanted' =>
      live ← _live_emails tag;
      if bool_decide (live = email_set li) then
        modify (with_lingering (filter (fun el => el.1 ∉ email_set li)));; confirm wanted'
      else raise ApplyError
  end.

Definition _apply_clients_live (rendered : text) : M (gset text) :=
  wanted ← of_read (_live_inbounds_by_tag rendered);
  '(removed, additions) ← remove_gone wanted;
  match additions with
  | [] => mret tt
  | _ => _xray_api (str "adu") [str "stdin:"] (Some (dumps (JObj [(str "inbounds", JArr additions)])));; mret tt
  end;;
  confirm wanted;;
  mret removed.

Definition _apply_xray (served : option text) (rendered : text) : M (gset text) :=
  if negb (live_updates cfg) then _reload;; mret ∅
  else
    before ← match served with Some t => of_read (_shape_without_clients t) | None => mret None end;
    after ← of_read (_shape_without_clients rendered);
    match before with
    | Some b =>
        if bool_decide (Some b = after) then
          try_except (_apply_clients_live rendered)
            (fun e => match e with ApplyError => Some (_reload;; mret ∅) | _ => None end)
        else _reload;; mret ∅
    | None => _reload;; mret ∅
    end.

(** *** Clients whose connections outlive them *)

Definition _watch_for_lingering (removed : gset text) : M unit :=
  if bool_decide (removed = ∅) then mret tt
  else
    modify (fun h => with_lingering (fun l =>
      foldl (fun l e => dict_set e {| removed_at := monotonic (kernel h); baseline := None |} l) l
        (elements removed)) h);;
    modify (with_task true).

Definition traffic_row (totals : list (text * Z)) (row : json) : result read_error (list (text * Z)) :=
  match row with
  | JObj kvs =>
      match split_arrows (py_str (default (JStr []) (dict_get (str "name") kvs))) with
      | [u; email; w; _] =>
          if bool_decide (u = str "user") && bool_decide (w = str "traffic") then
            n ← match dict_get (str "value") kvs with
                | Some v => if truthy v then json_int v else Ok 0
                | None => Ok 0
                end;
            Ok (dict_set email (default 0 (dict_get email totals) + n) totals)
          else Ok totals
      | _ => Ok totals
      end
  | _ => Ok totals
  end.

Fixpoint traffic_rows (totals : list (text * Z)) (rows : list json) : result read_error (list (text * Z)) :=
  match rows with
  | [] => Ok totals
  | row :: rows' => totals' ← traffic_row totals row; traffic_rows totals' rows'
  end.

Definition totals_of (payload : json) : result read_error (list (text * Z)) :=
  match payload with
  | JObj kvs => rows ← iter_json (default (JArr []) (dict_get (str "stat") kvs)); traffic_rows [] rows
  | _ => Ok []
  end.

Definition _user_traffic_totals : M (list (text * Z)) :=
  output ← _xray_api (str "statsquery") [str "-pattern"; str "user>>>"] None;
  payload ← loads_answer output;
  of_read (totals_of payload).

(** One client watched: kept as it is, kept with its baseline, seen to move, or
    let go. *)
Definition watch_one (totals : list (text * Z)) (now : Z) (el : text * Lingering) :
    bool * option (text * Lingering) :=
  let total := default 0 (dict_get el.1 totals) in
  match baseline el.2 with
  | None => (false, Some (el.1, {| removed_at := removed_at el.2; baseline := Some total |}))
  | Some b =>
      if b <? total then (true, Some el)
      else if _LINGER_WATCH_MS <=? now - removed_at el.2 then (false, None)
      else (false, Some el)
  end.

Definition _restart_for_lingering : M unit :=
  h ← get;
  match lingering h with
  | [] => mret tt
  | _ =>
      modify (with_lingering (fun _ => []));;
      try_except _reload (fun e => match e with ApplyError => Some (mret tt) | _ => None end)
  end.

(** One turn of the loop of [_cut_off_lingering], [false] when it returns. *)
Definition linger_turn : M bool :=
  modify (fun h => with_kernel (sleep _LINGER_POLL_MS (kernel h)) h);;
  answer ← try_except (totals ← _user_traffic_totals; mret (Some totals))
             (fun e => match e with ApplyError => Some (mret None) | _ => None end);
  match answer with
  | None => mret true
  | Some totals =>
      h ← get;
      let seen := watch_one totals (monotonic (kernel h)) <$> lingering h in
      put (with_lingering (fun _ => omap snd seen) h);;
      if existsb fst seen then _restart_for_lingering;; mret false else mret true
  end.

Fixpoint _cut_off_lingering (turns : nat) : M unit :=
  h ← get;
  match lingering h, turns with
  | [], _ => modify (with_task false)
  | _, O => mret tt
  | _, S n => go_on ← linger_turn; if (go_on : bool) then _cut_off_lingering n else modify (with_task false)
  end.
(** *** Applying a client set *)

Definition _served_xray_config : M (option text) := h ← get; mret (xray_config (store h)).

Definition write_candidate (t : text) : M unit := modify (with_store (write_candidate_atomically t)).

Definition promote : M unit := fun h =>
  match promote_candidate_to_last_known_good (store h) with
  | Some st => (Ok tt, with_store (fun _ => st) h)
  | None => (Err OSError, h)
  end.

Definition _kick_removed_hysteria_clients (previous desired : DesiredXrayState) : M unit :=
  match hysteria_profile cfg with
  | None => mret tt
  | Some p =>
      if negb (live_updates cfg) then mret tt
      else
        let kept := client_uuid <$> clients_for (h_profile_code p) desired in
        let labels := sort_texts (client_email sha256_hex <$>
          filter (fun u => u ∉ kept) (client_uuid <$> clients_for (h_profile_code p) previous)) in
        match labels with
        | [] => mret tt
        | _ =>
            let url := str "http://" ++ api_host (render_options cfg) ++ str ":" ++ show_Z TRAFFIC_STATS_PORT
                       ++ str "/kick" in
            modify (fun h => with_kernel (kick url (traffic_stats_secret sha256_hex p) labels (kernel h)).2 h)
        end
  end.

Definition _apply_delta (desired : DesiredXrayState) : M unit :=
  previous ← read_state;
  write_candidate (render_state_json desired);;
  _validate (_render desired);;
  served ← _served_xray_config;
  modify (with_store (write_xray_config_atomically (_render desired)));;
  removed ← try_except (removed ← _apply_xray served (_render desired); _apply_hysteria desired;; mret removed)
              (fun e => match e with ApplyError => Some (_rollback;; raise ApplyError) | _ => None end);
  promote;;
  _watch_for_lingering removed;;
  _kick_removed_hysteria_clients previous desired.

(** *** The operations *)

(** [x or y] on optional strings *)
Definition or_text (a b : option text) : option text :=
  match a with None | Some [] => b | _ => a end.

Definition _response_common (code_ : text) : result exn Details :=
  let hysteria_details p :=
    {| d_server_address := xray_public_host cfg; d_port := h_port p; d_sni := xray_sni cfg;
       d_transport := str "hysteria"; d_transport_security := str "tls"; d_path := None;
       d_service_name := None; d_obfs_password := Some (obfs_password p);
       d_port_hop := xray_hysteria_hop_ports cfg; d_reality_public_key := None;
       d_reality_short_id := None; d_flow := None; d_protocol := str "vless"; d_method := None;
       d_password := None; d_encryption := None |} in
  let inbound_details p :=
    let fronted := bool_decide (security p = plain) && negb (direct p) in
    let is_reality := bool_decide (security p = reality) in
    {| d_server_address := xray_public_host cfg;
       d_port := if fronted then xray_public_port cfg else port p;
       d_sni := if is_reality then default [] (reality_server_name p) else xray_sni cfg;
       d_transport := transport_name (transport p);
       d_transport_security := if fronted then str "tls" else security_name (security p);
       d_path := or_text (xhttp_path p) (ws_path p);
       d_service_name := grpc_service_name p;
       d_obfs_password := hysteria_obfs_password p;
       d_port_hop := None;
       d_reality_public_key := if is_reality then reality_public_key p else None;
       d_reality_short_id := if is_reality then reality_short_id p else None;
       d_flow := if vision p then Some VISION_FLOW else None;
       d_protocol := str "vless"; d_method := None; d_password := None; d_encryption := None |} in
  match hysteria_profile cfg with
  | Some p => if bool_decide (h_profile_code p = code_) then Ok (hysteria_details p)
              else inbound_details <$> _profile_for code_
  | None => inbound_details <$> _profile_for code_
  end.

(** [{**common, **self._client_fields(...)}] *)
Definition _client_fields (code_ : text) (u : Z) (d : Details) : Details :=
  let with_protocol protocol method_ password_ encryption_ :=
    {| d_server_address := d_server_address d; d_port := d_port d; d_sni := d_sni d;
       d_transport := d_transport d; d_transport_security := d_transport_security d; d_path := d_path d;
       d_service_name := d_service_name d; d_obfs_password := d_obfs_password d; d_port_hop := d_port_hop d;
       d_reality_public_key := d_reality_public_key d; d_reality_short_id := d_reality_short_id d;
       d_flow := d_flow d; d_protocol := protocol; d_method := method_; d_password := password_;
       d_encryption := encryption_ |} in
  match find_profile code_ with
  | None => d
  | Some p =>
      match ss2022_server_key p with
      | Some key => with_protocol (str "shadowsocks") (Some SS2022_METHOD)
                      (Some (key ++ str ":" ++ ss2022_user_key u)) (d_encryption d)
      | None =>
          if vmess p then with_protocol (str "vmess") (d_method d) (d_password d) (d_encryption d)
          else match vless_encryption p with
               | Some e => with_protocol (d_protocol d) (d_method d) (d_password d) (Some e)
               | None => d
               end
      end
  end.

(** [except (ValidationError, ApplyError): return response] *)
Definition caught {A} (response : A) (e : exn) : option (M A) :=
  match e with ValidationError | ApplyError => Some (mret response) | _ => None end.

Definition requested_client (r : ClientRequest) : RenderedXrayClient :=
  {| client_uuid := q_client_uuid r; protocol_profile_code := q_profile_code r; generation := q_generation r |}.

Definition provision_client (r : ClientRequest) : M ProvisionResponse :=
  if negb (_serves (q_profile_code r)) then raise ValidationError
  else
    current ← read_state;
    common ← lift (_response_common (q_profile_code r));
    let details := _client_fields (q_profile_code r) (q_client_uuid r) common in
    try_except
      (_apply_delta (with_client (requested_client r) current);;
       mret {| x_state := Wg.active; x_applied_generation := q_generation r; x_error_code := None;
               x_details := details |})
      (caught {| x_state := Wg.failed; x_applied_generation := _last_applied_generation current (q_client_uuid r);
                 x_error_code := Wg.apply_failed; x_details := details |}).

Definition revoke_client (now : Z) (r : ClientRequest) : M Wg.DeviceResponse :=
  if negb (_serves (q_profile_code r)) then raise ValidationError
  else
    current ← read_state;
    try_except
      (_apply_delta (without_client (q_client_uuid r) current);;
       mret {| Wg.o_state := Wg.revoked; Wg.o_applied_generation := q_generation r;
               Wg.o_error_code := None; Wg.o_revoked_at := Some now |})
      (caught {| Wg.o_state := Wg.failed;
                 Wg.o_applied_generation := _last_applied_generation current (q_client_uuid r);
                 Wg.o_error_code := Wg.apply_failed; Wg.o_revoked_at := Some now |}).

(** [_live_client_uuids]: [None] for [OSError] and [ValueError], which callers
    catch. *)
Definition _live_client_uuids (p : XrayInboundProfile) : M (option (list text)) := fun h =>
  match xray_config (store h) with
  | None => (Ok None, h)
  | Some t => match live_client_uuids p t with
              | Ok l => (Ok (Some l), h)
              | Err ValueError => (Ok None, h)
              | Err Uncaught => (Err Crash, h)
              end
  end.
Definition _live_hysteria_uuids : M (option (list text)) := fun h =>
  match hysteria_config h with
  | None => (Ok None, h)
  | Some t => match live_hysteria_uuids (hysteria_profile cfg) (read_last_known_good (store h)) t with
              | Ok l => (Ok (Some l), h)
              | Err _ => (Err Crash, h)
              end
  end.

(** The loop over [self._profiles]; [None] is the early [return set()]. *)
Fixpoint live_of_profiles (ps : list XrayInboundProfile) : M (option (list text)) :=
  match ps with
  | [] => mret (Some [])
  | p :: ps' =>
      l ← _live_client_uuids p;
      match l with
      | None => mret None
      | Some l => rest ← live_of_profiles ps'; mret (app l <$> rest)
      end
  end.

Definition _unaccounted_live_uuids (keep : list Z) (recorded : list RenderedXrayClient) : M (gset text) :=
  let known : gset text := list_to_set ((str_uuid <$> keep) ++ ((fun c => str_uuid (client_uuid c)) <$> recorded)) in
  live ← live_of_profiles (profiles cfg);
  match live with
  | None => mret ∅
  | Some live =>
      match hysteria_profile cfg with
      | None => mret (list_to_set live ∖ known)
      | Some _ =>
          hl ← _live_hysteria_uuids;
          match hl with
          | None => mret ∅
          | Some hl => mret (list_to_set (live ++ hl) ∖ known)
          end
      end
  end.

(** [expected] is the list of UUIDs and profile codes of the request. *)
Definition prune_clients (expected : list (Z * text)) : M PruneResponse :=
  current ← read_state;
  let keep := expected.*1 in
  let survivors := filter (fun c => client_uuid c ∈ keep) (clients current) in
  let removed := Z.of_nat (length (clients current)) - Z.of_nat (length survivors) in
  unaccounted ← _unaccounted_live_uuids keep (clients current);
  if (removed =? 0) && bool_decide (unaccounted = ∅) then
    mret {| pr_state := pruned; pr_removed := 0; pr_kept := Z.of_nat (length survivors); pr_error_code := None |}
  else
    try_except
      (_apply_delta {| clients := survivors |};;
       mret {| pr_state := pruned; pr_removed := removed + Z.of_nat (size unaccounted);
               pr_kept := Z.of_nat (length survivors); pr_error_code := None |})
      (caught {| pr_state := prune_failed; pr_removed := 0; pr_kept := Z.of_nat (length (clients current));
                 pr_error_code := Wg.apply_failed |}).

Definition is_hysteria_code (code_ : text) : bool :=
  match hysteria_profile cfg with Some p => bool_decide (h_profile_code p = code_) | None => false end.

Definition response (o : Wg.outcome) (g : option Z) (e : option text) : Wg.ReconcileResponse :=
  {| Wg.q_outcome := o; Wg.observed_generation := g; Wg.q_error_code := e |}.

(** The second half of [reconcile_client]: the recorded client against what the
    file lists. *)
Definition compare_views (r : ClientRequest) (live : option (list text)) (recorded : option RenderedXrayClient) :
    Wg.ReconcileResponse :=
  match live with
  | None => response Wg.ambiguous None (Some (str "config_unreadable"))
  | Some live =>
      let present_live := bool_decide (str_uuid (q_client_uuid r) ∈ live) in
      match recorded, present_live with
      | None, false => response Wg.drift_detected None None
      | None, true => response Wg.ambiguous None None
      | Some c, false => response Wg.ambiguous (Some (generation c)) None
      | Some c, true =>
          if bool_decide (protocol_profile_code c = q_profile_code r)
          then response Wg.in_sync (Some (generation c)) None
          else response Wg.ambiguous (Some (generation c)) None
      end
  end.

Definition reconcile_client (r : ClientRequest) : M Wg.ReconcileResponse :=
  if is_hysteria_code (q_profile_code r) then
    s ← read_state; live ← _live_hysteria_uuids; mret (compare_views r live (client (q_client_uuid r) s))
  else
    match find_profile (q_profile_code r) with
    | None => mret (response Wg.ambiguous None None)
    | Some p => s ← read_state; live ← _live_client_uuids p; mret (compare_views r live (client (q_client_uuid r) s))
    end.

Definition _resync_served_config : M bool :=
  desired ← read_state;
  let rendered := _render desired in
  h ← get;
  if bool_decide (xray_config (store h) = Some rendered) then _apply_hysteria desired;; mret false
  else
    _validate rendered;;
    h ← get;
    let previous := xray_config (store h) in
    modify (with_store (write_xray_config_atomically rendered));;
    try_except _reload
      (fun e => match e with
                | ApplyError =>
                    Some (match previous with
                          | Some t => modify (with_store (write_xray_config_atomically t));; _reload
                          | None => mret tt
                          end;; raise ApplyError)
                | _ => None
                end);;
    _apply_hysteria desired;;
    mret true.

(** [str.lower()] *)
Definition lower (c : ascii) : ascii :=
  let n := code c in
  if ((65 <=? n) && (n <=? 90)) || ((192 <=? n) && (n <=? 222) && negb (n =? 215)) then chr (n + 32) else c.

Definition authorize_hysteria (auth : text) : M (option text) :=
  match hysteria_profile cfg with
  | None => mret None
  | Some p =>
      let '(user, separator, password) := partition ":"%char auth in
      if separator && negb (bool_decide (user = password)) then mret None
      else match uuid_of_text user with
           | None => mret None
           | Some u =>
               if negb (bool_decide (str_uuid u = lower <$> user)) then mret None
               else
                 s ← read_state;
                 match client u s with
                 | Some c => if bool_decide (protocol_profile_code c = h_profile_code p)
                             then mret (Some (client_email sha256_hex u)) else mret None
                 | None => mret None
                 end
           end
  end.

Definition advertised_endpoints : result exn (list (text * text * Z * text)) :=
  (fix go codes :=
     match codes with
     | [] => Ok []
     | c :: codes' => d ← _response_common c; rest ← go codes';
                      Ok ((c, d_server_address d, d_port d, d_transport d) :: rest)
     end)
  ((profile_code <$> profiles cfg) ++ match hysteria_profile cfg with Some p => [h_profile_code p] | None => [] end).

Definition health : M XrayHealthResponse :=
  s ← read_state;
  h ← get;
  let up := tcp_connect (xray_local_listen_port cfg) (kernel h) in
  mret {| xh_state := if up then Wg.healthy else Wg.unreachable; listener_up := up;
          client_count := Z.of_nat (length (clients s));
          xh_error_code := if up then None else Some (str "listener_unreachable") |}.
End Driver.

(** ** What the rendered configuration offers for live updates *)

Lemma dict_set_keys {V} (k : text) (v : V) d x : x ∈ (dict_set k v d).*1 <-> x = k \/ x ∈ d.*1.
Proof. rewrite dict_keys_set. case_decide; [set_solver|]. rewrite elem_of_app. set_solver. Qed.

Lemma dict_of_keys {V} (d : list (text * V)) x : x ∈ (dict_of d).*1 <-> x ∈ d.*1.
Proof.
  unfold dict_of. enough (Hg : forall acc, x ∈ (foldl (fun acc kv => dict_set kv.1 kv.2 acc) acc d).*1 <->
    x ∈ acc.*1 \/ x ∈ d.*1) by (rewrite Hg; set_solver).
  induction d as [|[k v] d IH]; intros acc; cbn [foldl]; [set_solver|].
  rewrite IH, dict_set_keys. cbn. set_solver.
Qed.

Section Rendered.
Context (sha256_hex : text -> text).
Abbreviation emails cs := (list_to_set ((fun c => client_email sha256_hex (client_uuid c)) <$> cs) : gset text).

Lemma map_live_clients (kvs : RenderedXrayClient -> list (string * json)) cs :
  (forall c, dict_get (str "email") ((fun kv => (str kv.1, kv.2)) <$> kvs c)
             = Some (JStr (client_email sha256_hex (client_uuid c)))) ->
  exists l, map_read live_client ((fun c => jobj (kvs c)) <$> cs) = Ok l /\
    l.*1 = (fun c => client_email sha256_hex (client_uuid c)) <$> cs.
Proof.
  intros Hk. induction cs as [|c cs (l & IH & Hl)]; [by exists []|]. rewrite fmap_cons. cbn [map_read].
  assert (Hc : exists fs, live_client (jobj (kvs c)) = Ok (client_email sha256_hex (client_uuid c), fs)).
  { unfold live_client, jobj. rewrite Hk. eexists. reflexivity. }
  destruct Hc as (fs & ->). cbn [mbind result_bind]. rewrite IH. cbn [mbind result_bind].
  eexists. split; [reflexivity|]. rewrite fmap_cons. by rewrite Hl.
Qed.

Lemma live_inbound_rendered p cs cert key :
  if bool_decide (transport p = hysteria) then live_inbound (inbound sha256_hex p cs cert key) = Ok None
  else exists li, live_inbound (inbound sha256_hex p cs cert key) = Ok (Some (profile_code p, li)) /\
         email_set li = emails cs.
Proof.
  unfold inbound, protocol_settings. destruct (bool_decide (transport p = hysteria)); [reflexivity|].
  assert (Hgen : forall protocol settings kvs,
    str protocol ∈ _LIVE_PROTOCOLS ->
    dict_get (str "clients") ((fun kv => (str kv.1, kv.2)) <$> settings) = Some (JArr ((fun c => jobj (kvs c)) <$> cs)) ->
    (forall c, dict_get (str "email") ((fun kv => (str kv.1, kv.2)) <$> kvs c)
               = Some (JStr (client_email sha256_hex (client_uuid c)))) ->
    exists li, live_inbound (jobj [("tag"%string, JStr (profile_code p)); ("listen"%string, JStr (listen p));
        ("port"%string, JInt (port p)); ("protocol"%string, jstr protocol);
        ("settings"%string, jobj settings);
        ("streamSettings"%string, jobj (_stream_settings p ++ tls_settings p cert key))])
      = Ok (Some (profile_code p, li)) /\ email_set li = emails cs).
  { intros protocol settings kvs Hp Hc He. destruct (map_live_clients kvs cs He) as (l & Hl & Hk).
    unfold live_inbound, jobj at 1.
    change (dict_get (str "protocol") _) with (Some (jstr protocol)). cbv beta iota delta [jstr].
    rewrite bool_decide_eq_true_2 by done.
    change (dict_get (str "settings") _) with (Some (jobj settings)). unfold default, id, jobj at 1.
    rewrite Hc. cbn [iter_json mbind result_bind]. rewrite Hl. cbn [mbind result_bind].
    eexists. split; [reflexivity|]. unfold email_set. cbn [li_clients]. apply set_eq. intros e.
    rewrite !elem_of_list_to_set, dict_of_keys, Hk. done. }
  destruct (vmess p); [apply (Hgen _ _ (fun c => [("id"%string, JStr (str_uuid (client_uuid c)));
                             ("email"%string, JStr (client_email sha256_hex (client_uuid c)))])); [set_solver|done|done]|].
  destruct (ss2022_server_key p) as [k|].
  - apply (Hgen _ _ (fun c => [("password"%string, JStr (ss2022_user_key (client_uuid c)));
                                 ("email"%string, JStr (client_email sha256_hex (client_uuid c)))])); [set_solver|done|done].
  - apply (Hgen _ _ (fun c => [("id"%string, JStr (str_uuid (client_uuid c)));
                                  ("email"%string, JStr (client_email sha256_hex (client_uuid c)))] ++
                                 (if vision p then [("flow"%string, JStr VISION_FLOW)] else []))); [set_solver|done|].
    intros c. by destruct (vision p).
Qed.

(** Every inbound but a Hysteria2 one is there under its code, with the emails
    of its clients. *)
Lemma live_inbounds_rendered s ps o :
  NoDup (profile_code <$> ps) ->
  exists wanted, _live_inbounds_by_tag (render_xray_server_config sha256_hex s ps o) = Ok wanted /\
    (forall tag li, (tag, li) ∈ wanted -> exists p, p ∈ ps /\ profile_code p = tag /\
       email_set li = emails (clients_for tag s)) /\
    (forall p, p ∈ ps -> transport p <> hysteria -> exists li, (profile_code p, li) ∈ wanted).
Proof.
  intros Hnd. unfold _live_inbounds_by_tag, render_xray_server_config.
  rewrite loads_dumps_indent by apply server_config_wf.
  change (jget "inbounds" (server_config sha256_hex s ps o)) with
    (Ok (Some (JArr (((fun p => inbound sha256_hex p (clients_for (profile_code p) s) (tls_cert_file o) (tls_key_file o))
       <$> ps) ++ [_stats_api_inbound (api_host o)]))) : result read_error _).
  cbn [mbind result_bind default id iter_json].
  assert (Hm : exists found,
    map_read live_inbound (((fun p => inbound sha256_hex p (clients_for (profile_code p) s) (tls_cert_file o) (tls_key_file o))
       <$> ps) ++ [_stats_api_inbound (api_host o)]) = Ok found /\
    (omap id found).*1 `sublist_of` (profile_code <$> ps) /\
    (forall tag li, (tag, li) ∈ omap id found -> exists p, p ∈ ps /\ profile_code p = tag /\
       email_set li = emails (clients_for tag s)) /\
    (forall p, p ∈ ps -> transport p <> hysteria -> exists li, (profile_code p, li) ∈ omap id found)).
  { clear Hnd. induction ps as [|p ps (found & Hf & Hsub & Hin & Hout)].
    - exists [None]. split; [reflexivity|]. split; [constructor|]. split; [set_solver|]. set_solver.
    - rewrite fmap_cons. cbn [app map_read].
      pose proof (live_inbound_rendered p (clients_for (profile_code p) s) (tls_cert_file o) (tls_key_file o)) as Hp.
      case_bool_decide as Ht.
      + rewrite Hp. cbn [mbind result_bind]. rewrite Hf. cbn [mbind result_bind]. exists (None :: found).
        split; [done|]. cbn. split; [by apply sublist_cons|]. split.
        * intros tag li Hli. destruct (Hin tag li Hli) as (q & Hq & He). exists q. split; [by right|done].
        * intros q Hq Hqt. apply elem_of_cons in Hq as [->|Hq]; [done|]. by apply Hout.
      + destruct Hp as (li & Hp & He). rewrite Hp. cbn [mbind result_bind]. rewrite Hf. cbn [mbind result_bind].
        exists (Some (profile_code p, li) :: found). split; [done|]. cbn. split; [by apply sublist_skip|]. split.
        * intros tag li' Hli. apply elem_of_cons in Hli as [[= -> ->]|Hli].
          { exists p. split; [by left|done]. }
          destruct (Hin tag li' Hli) as (q & Hq & He'). exists q. split; [by right|done].
        * intros q Hq Hqt. apply elem_of_cons in Hq as [->|Hq]; [exists li; by left|].
          destruct (Hout q Hq Hqt) as (li' & Hli'). exists li'. by right. }
  destruct Hm as (found & -> & Hsub & Hin & Hout). cbn [mbind result_bind].
  exists (omap id found). rewrite dict_of_nodup by (by eapply sublist_NoDup). done.
Qed.

Lemma shape_rendered s ps o :
  exists t, _shape_without_clients (render_xray_server_config sha256_hex s ps o) = Ok (Some t).
Proof.
  unfold _shape_without_clients, render_xray_server_config. rewrite loads_dumps_indent by apply server_config_wf.
  eexists. reflexivity.
Qed.
End Rendered.

(** ** What the driver relies on *)

Class XrayToolOk (K : Type) `{XrayTool K} := {
  (** the emails the Xray process accepts on an inbound *)
  serving : K -> text -> gset text;
  (** a restart that succeeds loads the file *)
  restart_serves t wanted k out k' :
    restart_xray (Some t) k = (Wg.Completed 0 out, k') -> _live_inbounds_by_tag t = Ok wanted ->
    forall tag li, (tag, li) ∈ wanted -> serving k' tag = email_set li;
  (** [inbounduser] lists the users of an inbound and changes nothing *)
  inbounduser_lists tag k out k' :
    xray_api_call (str "inbounduser") [str "-tag=" ++ tag] None k = (Wg.Completed 0 out, k') ->
    k' = k /\ exists j, loads (match out with [] => str "{}" | _ => out end) = Some j /\
      emails_of j = Ok (serving k tag);
  (** testing a file, and Hysteria2's processes, leave Xray alone *)
  test_quiet t k : serving (xray_test t k).2 = serving k;
  hysteria_quiet o k : serving (restart_hysteria o k).2 = serving k;
  active_quiet k : serving (hysteria_is_active k).2 = serving k;
  sleep_quiet d k : serving (sleep d k) = serving k;
  kick_quiet u s l k : serving (kick u s l k).2 = serving k;
  (** the clock runs on *)
  active_clock k : monotonic k <= monotonic (hysteria_is_active k).2;
  sleep_clock d k : 0 <= d -> monotonic k + d <= monotonic (sleep d k);
  api_clock c a i k : monotonic k <= monotonic (xray_api_call c a i k).2;
  (** the configuration Hysteria2 was last started with, and the one the process
      that is up runs with *)
  proxy_loaded : K -> option text;
  proxy_serving : K -> option text;
  (** a restart that succeeds starts it with the file; once it is reported active
      it runs with what it was started with *)
  hysteria_starts o k out k' : restart_hysteria o k = (Wg.Completed 0 out, k') -> proxy_loaded k' = o;
  active_serves k out k' : hysteria_is_active k = (Wg.Completed 0 out, k') -> proxy_serving k' = proxy_loaded k;
  active_keeps k : proxy_loaded (hysteria_is_active k).2 = proxy_loaded k;
  sleep_keeps d k : proxy_loaded (sleep d k) = proxy_loaded k;
  (** Xray's commands, and disconnecting clients, leave it alone *)
  test_proxy t k : proxy_serving (xray_test t k).2 = proxy_serving k;
  restart_proxy o k : proxy_serving (restart_xray o k).2 = proxy_serving k;
  api_proxy c a i k : proxy_serving (xray_api_call c a i k).2 = proxy_serving k;
  kick_proxy u s l k : proxy_serving (kick u s l k).2 = proxy_serving k;
}.

Section Apply.
Context {K : Type} `{TK : XrayTool K} `{TOk : !XrayToolOk K} (sha256_hex : text -> text) (cfg : Settings).
Context (Hcodes : NoDup (profile_code <$> profiles cfg)).
Implicit Types (h : host K) (s : DesiredXrayState).
Abbreviation render := (_render sha256_hex cfg).

(** The files that matter are as they were. *)
Record same_files (h h' : host K) : Prop := {
  same_good : last_known_good (store h') = last_known_good (store h);
  same_candidate : candidate (store h') = candidate (store h);
  same_xray : xray_config (store h') = xray_config (store h);
  same_hysteria : hysteria_config h' = hysteria_config h;
}.
Lemma same_files_refl h : same_files h h.
Proof. done. Qed.
Lemma same_files_trans h1 h2 h3 : same_files h1 h2 -> same_files h2 h3 -> same_files h1 h3.
Proof. intros [] []. split; congruence. Qed.

(** Every inbound accepts exactly the clients of the set. *)
Definition serves (h : host K) (s : DesiredXrayState) : Prop :=
  forall p, p ∈ profiles cfg -> transport p <> hysteria ->
    serving (kernel h) (profile_code p) =
    list_to_set ((fun c => client_email sha256_hex (client_uuid c)) <$> clients_for (profile_code p) s).

Lemma run_spec (call : host K -> exec * K) h :
  wp (run call) (fun r h' => same_files h h' /\ lingering h' = lingering h /\ linger_task h' = linger_task h /\
    kernel h' = (call h).2 /\
    match r with
    | Ok (rc, out) => call h = (Wg.Completed rc out, kernel h')
    | Err e => e = SubprocessTimeoutError
    end) h.
Proof using TOk. unfold wp, run. destruct (call h) as [[rc out|] k]; cbn; done. Qed.

Lemma run_or_spec err (call : host K -> exec * K) h :
  wp (run_or err call) (fun r h' => same_files h h' /\ lingering h' = lingering h /\ linger_task h' = linger_task h /\
    kernel h' = (call h).2 /\
    match r with
    | Ok out => call h = (Wg.Completed 0 out, kernel h')
    | Err e => e = SubprocessTimeoutError \/ e = err
    end) h.
Proof using TOk.
  unfold run_or. apply wp_bind. eapply wp_mono; [apply run_spec|]. cbn beta.
  intros [[rc out]|e] h' (Hf & Hl & Ht & Hk & Hr); [|auto 10].
  unfold wp. destruct (Z.eqb_spec rc 0) as [->|]; cbn; auto 10.
Qed.

Lemma validate_spec t h :
  wp (_validate t) (fun r h' => same_files h h' /\ serving (kernel h') = serving (kernel h) /\
    lingering h' = lingering h /\ linger_task h' = linger_task h /\
    match r with Ok _ => True | Err e => e = SubprocessTimeoutError \/ e = ValidationError end) h.
Proof using TOk.
  unfold _validate. apply wp_bind. unfold wp at 1. cbn. apply wp_bind.
  eapply wp_mono; [apply run_or_spec|]. cbn beta. intros [out|e] h' ([] & Hl & Ht & Hk & Hr); unfold wp; cbn in *;
    rewrite Hk, test_quiet; repeat split; auto 10.
Qed.

Lemma reload_spec s h :
  xray_config (store h) = Some (render s) ->
  wp _reload (fun r h' => same_files h h' /\ lingering h' = lingering h /\ linger_task h' = linger_task h /\
    match r with
    | Ok _ => serves h' s
    | Err e => e = SubprocessTimeoutError \/ e = ApplyError
    end) h.
Proof using Hcodes TOk.
  intros Hx. unfold _reload. apply wp_bind. eapply wp_mono; [apply run_or_spec|]. cbn beta.
  intros [out|e] h' (Hf & Hl & Ht & Hk & Hr); [|auto 10]. unfold wp. cbn. repeat split; try apply Hf; auto 10.
  intros p Hp Htr. rewrite Hx in Hr.
  destruct (live_inbounds_rendered sha256_hex s (profiles cfg) (render_options cfg) Hcodes) as (wanted & Hw & Hin & Hout).
  destruct (Hout p Hp Htr) as (li & Hli). rewrite (restart_serves _ _ _ _ _ Hr Hw _ _ Hli).
  by destruct (Hin _ _ Hli) as (q & _ & _ & ->).
Qed.

(** The wait ends: it is given one look more than pauses fit before the
    deadline. *)
Lemma hysteria_wait_ends n deadline h :
  deadline <= monotonic (kernel h) + _HYSTERIA_ACTIVE_POLL_MS * Z.of_nat n ->
  wp (wait_active (S n) deadline) (fun r h' => same_files h h' /\ serving (kernel h') = serving (kernel h) /\
    lingering h' = lingering h /\ linger_task h' = linger_task h /\
    match r with Ok _ => True | Err e => e = SubprocessTimeoutError \/ e = ApplyError end) h.
Proof using TOk.
  revert h. induction n as [|n IH]; intros h Hd; cbn [wait_active].
  all: apply wp_bind; eapply wp_mono; [apply run_spec|]; cbn beta.
  all: intros [[rc out]|e] h' (Hf & Hl & Ht & Hk & Hr); [|rewrite Hk, active_quiet; auto 10].
  all: assert (Hs : serving (kernel h') = serving (kernel h)) by (by rewrite Hk, active_quiet).
  all: assert (Hc : monotonic (kernel h) <= monotonic (kernel h')) by (rewrite Hk; apply active_clock).
  all: destruct (rc =? 0); [unfold wp; cbn; auto 10|].
  all: apply wp_get.
  all: destruct (_ || _) eqn:Hend; [unfold wp; cbn; auto 10|].
  all: apply orb_false_iff in Hend as [_ Hend]; apply Z.leb_gt in Hend.
  - exfalso. unfold _HYSTERIA_ACTIVE_POLL_MS in Hd. lia.
  - apply wp_modify.
    set (h2 := with_kernel (sleep _HYSTERIA_ACTIVE_POLL_MS (kernel h')) h').
    eapply wp_mono; [apply (IH h2)|].
    + pose proof (sleep_clock _HYSTERIA_ACTIVE_POLL_MS (kernel h') ltac:(done)). subst h2. cbn.
      unfold _HYSTERIA_ACTIVE_POLL_MS in *. lia.
    + cbn beta. intros r h3 (Hf3 & Hs3 & Hl3 & Ht3 & Hr3). subst h2. cbn in Hs3, Hl3, Ht3.
      rewrite sleep_quiet in Hs3. split; [|split; [congruence|split; [congruence|split; [congruence|exact Hr3]]]].
      eapply same_files_trans; [exact Hf|]. eapply same_files_trans; [|exact Hf3]. done.
Qed.

(** The Hysteria2 file is what the set renders to, if it is served at all. *)
Definition hysteria_of (h : host K) (s : DesiredXrayState) : Prop :=
  forall p, hysteria_profile cfg = Some p -> hysteria_config h = Some (_render_hysteria sha256_hex cfg p s).

(** The same, the Hysteria2 file apart. *)
Record same_store (h h' : host K) : Prop := {
  ss_good : last_known_good (store h') = last_known_good (store h);
  ss_candidate : candidate (store h') = candidate (store h);
  ss_xray : xray_config (store h') = xray_config (store h);
}.
Lemma same_files_store h h' : same_files h h' -> same_store h h'.
Proof. intros []. done. Qed.
Lemma same_store_trans h1 h2 h3 : same_store h1 h2 -> same_store h2 h3 -> same_store h1 h3.
Proof. intros [] []. split; congruence. Qed.

Lemma apply_hysteria_spec s h :
  wp (_apply_hysteria sha256_hex cfg s) (fun r h' =>
    same_store h h' /\ serving (kernel h') = serving (kernel h) /\
    lingering h' = lingering h /\ linger_task h' = linger_task h /\
    match r with
    | Ok _ => hysteria_of h' s
    | Err e => e = SubprocessTimeoutError \/ e = ApplyError
    end) h.
Proof using TOk.
  unfold _apply_hysteria, hysteria_of. destruct (hysteria_profile cfg) as [p|].
  2: { unfold wp. cbn. repeat split; auto. by intros ? ?. }
  apply wp_get. case_bool_decide as Hm.
  { unfold wp. cbn. repeat split; auto. intros ? [= <-]. done. }
  apply wp_modify. set (h1 := with_hysteria _ h).
  assert (H01 : same_store h h1) by done. apply wp_bind.
  eapply wp_mono; [apply run_or_spec|]. cbn beta. intros [out|e] h2 (Hf & Hl & Ht & Hk & Hr).
  all: assert (H02 : same_store h h2) by (eapply same_store_trans; [exact H01|by apply same_files_store]).
  all: assert (Hs : serving (kernel h2) = serving (kernel h)) by (by rewrite Hk, hysteria_quiet).
  all: change (lingering h1) with (lingering h) in Hl; change (linger_task h1) with (linger_task h) in Ht.
  2: { split; [exact H02|]. split; [exact Hs|]. split; [exact Hl|]. split; [exact Ht|]. exact Hr. }
  apply wp_get.
  eapply wp_mono; [apply (hysteria_wait_ends 31)|].
  { unfold _HYSTERIA_ACTIVE_TIMEOUT_MS, _HYSTERIA_ACTIVE_POLL_MS. lia. }
  cbn beta. intros r h3 (Hf3 & Hs3 & Hl3 & Ht3 & Hr3).
  split; [eapply same_store_trans; [exact H02|by apply same_files_store]|].
  split; [congruence|]. split; [congruence|]. split; [congruence|]. destruct r; [|exact Hr3].
  intros ? [= <-]. rewrite (same_hysteria _ _ Hf3), (same_hysteria _ _ Hf). done.
Qed.

(** *** Live updates *)

Lemma api_spec command arguments stdin h :
  wp (_xray_api command arguments stdin) (fun r h' => same_files h h' /\
    match r with
    | Ok out => xray_api_call command arguments stdin (kernel h) = (Wg.Completed 0 out, kernel h')
    | Err e => e = SubprocessTimeoutError \/ e = ApplyError
    end) h.
Proof using TOk. eapply wp_mono; [apply run_or_spec|]. cbn beta. intros r h' (Hf & _ & _ & _ & Hr). done. Qed.

Lemma live_emails_spec tag h :
  wp (_live_emails tag) (fun r h' => same_files h h' /\
    match r with
    | Ok live => kernel h' = kernel h /\ live = serving (kernel h) tag
    | Err e => e = SubprocessTimeoutError \/ e = ApplyError
    end) h.
Proof using TOk.
  unfold _live_emails. apply wp_bind. eapply wp_mono; [apply api_spec|]. cbn beta.
  intros [out|e] h' [Hf Hr]; [|done].
  destruct (inbounduser_lists _ _ _ _ Hr) as (Hk & j & Hj & He).
  apply wp_bind. unfold loads_answer. rewrite Hj. unfold wp at 1. cbn [mret prog_ret fst snd].
  rewrite He. unfold wp. cbn. done.
Qed.

Lemma remove_gone_spec wanted h :
  wp (remove_gone wanted) (fun r h' => same_files h h' /\
    match r with Ok _ => True | Err e => e = SubprocessTimeoutError \/ e = ApplyError end) h.
Proof using TOk.
  revert h. induction wanted as [|[tag li] wanted IH]; intros h; cbn [remove_gone]; [by unfold wp; cbn|].
  apply wp_bind. eapply wp_mono; [apply live_emails_spec|]. cbn beta. intros [live|e] h1 [H1 Hr]; [|done].
  apply wp_bind. apply (wp_mono _ (fun r h2 => same_files h1 h2 /\
    match r with Ok _ => True | Err e => e = SubprocessTimeoutError \/ e = ApplyError end)).
  { case_bool_decide; [by unfold wp; cbn|]. apply wp_bind. eapply wp_mono; [apply api_spec|]. cbn beta.
    intros [out|e] h2 [H2 Hr2]; [|done]. by unfold wp; cbn. }
  intros [[]|e] h2 [H2 Hr2]; [|split; [by eapply same_files_trans|done]].
  apply wp_bind. eapply wp_mono; [apply IH|]. cbn beta. intros [[removed additions]|e] h3 [H3 Hr3];
    unfold wp; cbn; (split; [|done]); eapply same_files_trans; [|exact H3| |exact H3]; by eapply same_files_trans.
Qed.

Lemma confirm_spec wanted h :
  wp (confirm wanted) (fun r h' => same_files h h' /\
    match r with
    | Ok _ => kernel h' = kernel h /\ forall tag li, (tag, li) ∈ wanted -> serving (kernel h') tag = email_set li
    | Err e => e = SubprocessTimeoutError \/ e = ApplyError
    end) h.
Proof using TOk.
  revert h. induction wanted as [|[tag li] wanted IH]; intros h; cbn [confirm].
  { unfold wp. cbn. repeat split; auto. by intros ? ? ?%not_elem_of_nil. }
  apply wp_bind. eapply wp_mono; [apply live_emails_spec|]. cbn beta. intros [live|e] h1 [H1 Hr]; [|done].
  destruct Hr as [Hk ->]. case_bool_decide as Hl; [|unfold wp; cbn; auto].
  apply wp_modify. eapply wp_mono; [apply IH|]. cbn beta.
  intros r h3 [H3 Hr3].
  split; [eapply same_files_trans; [exact H1|]; eapply same_files_trans; [|exact H3]; done|].
  destruct r as [[]|e]; [|done]. destruct Hr3 as [Hk3 Hs]. cbn in Hk3. split; [congruence|].
  intros tag' li' Hin. apply elem_of_cons in Hin as [[= -> ->]|Hin]; [congruence|by apply Hs].
Qed.

Lemma apply_clients_live_spec s h :
  wp (_apply_clients_live (render s)) (fun r h' => same_files h h' /\
    match r with Ok _ => serves h' s | Err e => e = SubprocessTimeoutError \/ e = ApplyError end) h.
Proof using Hcodes TOk.
  destruct (live_inbounds_rendered sha256_hex s (profiles cfg) (render_options cfg) Hcodes) as (wanted & Hw & Hin & Hout).
  unfold _apply_clients_live, _render. rewrite Hw. apply wp_ret.
  apply wp_bind. eapply wp_mono; [apply remove_gone_spec|]. cbn beta. intros [[removed additions]|e] h1 [H1 Hr1]; [|done].
  apply wp_bind. apply (wp_mono _ (fun r h2 => same_files h1 h2 /\
    match r with Ok _ => True | Err e => e = SubprocessTimeoutError \/ e = ApplyError end)).
  { destruct additions; [by unfold wp; cbn|]. apply wp_bind. eapply wp_mono; [apply api_spec|]. cbn beta.
    intros [out|e] h2 [H2 Hr2]; [|done]. by unfold wp; cbn. }
  intros [[]|e] h2 [H2 Hr2]; [|split; [by eapply same_files_trans|done]].
  apply wp_bind. eapply wp_mono; [apply confirm_spec|]. cbn beta. intros [[]|e] h3 [H3 Hr3].
  2: { split; [|done]. eapply same_files_trans; [exact H1|]. by eapply same_files_trans. }
  destruct Hr3 as [_ Hr3]. unfold wp. cbn. split; [eapply same_files_trans; [exact H1|]; by eapply same_files_trans|].
  intros p Hp Htr. destruct (Hout p Hp Htr) as (li & Hli). rewrite (Hr3 _ _ Hli).
  by destruct (Hin _ _ Hli) as (q & _ & _ & ->).
Qed.

(** A served file that reads as a configuration, or does not read at all. *)
Definition readable (served : option text) : Prop :=
  match served with Some t => is_ok (_shape_without_clients t) = true | None => True end.

Lemma readable_render s : readable (Some (render s)).
Proof using TOk.
  destruct (shape_rendered sha256_hex s (profiles cfg) (render_options cfg)) as (t & Ht).
  cbn. unfold _render. by rewrite Ht.
Qed.

Lemma apply_xray_spec served s h :
  xray_config (store h) = Some (render s) -> readable served ->
  wp (_apply_xray cfg served (render s)) (fun r h' => same_files h h' /\
    match r with Ok _ => serves h' s | Err e => e = SubprocessTimeoutError \/ e = ApplyError end) h.
Proof using Hcodes TOk.
  intros Hx Hread.
  assert (Hre : forall h1, same_files h h1 -> wp (_reload;; mret (∅ : gset text)) (fun r h' => same_files h h' /\
    match r with Ok _ => serves h' s | Err e => e = SubprocessTimeoutError \/ e = ApplyError end) h1).
  { intros h1 H1. apply wp_bind. eapply wp_mono; [apply (reload_spec s)|].
    - by rewrite (same_xray _ _ H1).
    - cbn beta. intros [[]|e] h2 (H2 & _ & _ & Hr2); unfold wp; cbn; (split; [by eapply same_files_trans|done]). }
  destruct (shape_rendered sha256_hex s (profiles cfg) (render_options cfg)) as (after & Ha).
  unfold _apply_xray. destruct (live_updates cfg); cbn [negb]; [|by apply Hre].
  assert (Hb : exists before, (match served with Some t => of_read (_shape_without_clients t) | None => mret None end :
      prog (host K) exn (option text)) = mret before).
  { unfold readable in Hread. destruct served as [t|]; [|by exists None].
    destruct (_shape_without_clients t) as [b|]; [by exists b|done]. }
  destruct Hb as (before & ->). apply wp_ret.
  unfold _render in *. rewrite Ha. apply wp_ret.
  destruct before as [b|]; [|by apply Hre]. case_bool_decide; [|by apply Hre].
  apply wp_try. eapply wp_mono; [apply apply_clients_live_spec|]. cbn beta. intros [removed|e] h1 [H1 Hr1]; [done|].
  destruct Hr1 as [->| ->]; [auto|]. by apply Hre.
Qed.
(** *** A client set applied *)

(** The set [s] is recorded, rendered into every file and served. *)
Record settled (h : host K) (s : DesiredXrayState) : Prop := {
  st_recorded : read_last_known_good (store h) = Some s;
  st_ok : state_ok s;
  st_xray : xray_config (store h) = Some (render s);
  st_hysteria : hysteria_of h s;
  st_serves : serves h s;
}.

Lemma serves_kernel h h' s : serving (kernel h') = serving (kernel h) -> serves h s -> serves h' s.
Proof using Type. unfold serves. intros ->. done. Qed.

Lemma recorded_same h h' : last_known_good (store h') = last_known_good (store h) ->
  read_last_known_good (store h') = read_last_known_good (store h).
Proof using Type. unfold read_last_known_good. by intros ->. Qed.

(** Putting the recorded set back: files and process as it wants them, or the
    rollback reported failed. *)
Lemma rollback_spec s h :
  read_last_known_good (store h) = Some s ->
  wp (_rollback sha256_hex cfg) (fun r h' =>
    last_known_good (store h') = last_known_good (store h) /\ xray_config (store h') = Some (render s) /\
    match r with
    | Ok _ => hysteria_of h' s /\ serves h' s
    | Err e => e = SubprocessTimeoutError \/ e = RollbackFailedError
    end) h.
Proof using Hcodes TOk.
  intros Hr. unfold _rollback. apply wp_bind. unfold wp at 1, read_state. rewrite Hr. cbn [fst snd].
  apply wp_modify. set (h1 := with_store _ h).
  assert (Hg1 : last_known_good (store h1) = last_known_good (store h)) by done.
  assert (Hx1 : xray_config (store h1) = Some (render s)) by done.
  apply wp_try. apply wp_bind. eapply wp_mono; [by apply (reload_spec s)|]. cbn beta.
  intros [[]|e] h2 (Hf & _ & _ & Hr2).
  2: { destruct Hr2 as [->| ->]; unfold wp; cbn; rewrite (same_good _ _ Hf), (same_xray _ _ Hf); auto. }
  eapply wp_mono; [apply apply_hysteria_spec|]. cbn beta. intros [[]|e] h3 (Hss & Hk & _ & _ & Hr3).
  - rewrite (ss_good _ _ Hss), (ss_xray _ _ Hss), (same_good _ _ Hf), (same_xray _ _ Hf).
    repeat split; auto. by eapply serves_kernel.
  - destruct Hr3 as [->| ->]; unfold wp; cbn;
      rewrite (ss_good _ _ Hss), (ss_xray _ _ Hss), (same_good _ _ Hf), (same_xray _ _ Hf); auto.
Qed.

(** What [_apply_delta] leaves behind, whichever way it ends. *)
Definition delta_outcome (h : host K) (s desired : DesiredXrayState) (r : result exn unit) (h' : host K) : Prop :=
  match r with
  | Ok _ => settled h' desired
  | Err e =>
      last_known_good (store h') = last_known_good (store h) /\ readable (xray_config (store h')) /\
      match e with
      | ValidationError =>
          xray_config (store h') = xray_config (store h) /\ hysteria_config h' = hysteria_config h /\
          serving (kernel h') = serving (kernel h)
      | ApplyError => xray_config (store h') = Some (render s) /\ hysteria_of h' s /\ serves h' s
      | RollbackFailedError | SubprocessTimeoutError => True
      | _ => False
      end
  end.

Lemma finish_spec removed previous desired h :
  wp (_watch_for_lingering removed;; _kick_removed_hysteria_clients sha256_hex cfg previous desired) (fun r h' =>
    store h' = store h /\ hysteria_config h' = hysteria_config h /\ serving (kernel h') = serving (kernel h) /\
    r = Ok tt) h.
Proof using TOk.
  apply wp_bind. apply (wp_mono _ (fun r h' => store h' = store h /\ hysteria_config h' = hysteria_config h /\
    serving (kernel h') = serving (kernel h) /\ r = Ok tt)).
  { unfold _watch_for_lingering. case_bool_decide; unfold wp; cbn; auto. }
  intros r h1 (Hs & Hh & Hk & ->). unfold _kick_removed_hysteria_clients.
  destruct (hysteria_profile cfg) as [p|]; [|by unfold wp; cbn].
  destruct (live_updates cfg); cbn [negb]; [|by unfold wp; cbn].
  destruct (sort_texts _); unfold wp; cbn; [done|]. by rewrite kick_quiet.
Qed.

(** The middle of [_apply_delta]: both processes brought to the new set, or the
    recorded one put back. *)
Lemma apply_or_undo_spec served s desired h :
  read_last_known_good (store h) = Some s -> xray_config (store h) = Some (render desired) -> readable served ->
  wp (try_except (removed ← _apply_xray cfg served (render desired); _apply_hysteria sha256_hex cfg desired;; mret removed)
        (fun e => match e with ApplyError => Some (_rollback sha256_hex cfg;; raise ApplyError) | _ => None end))
    (fun r h' => match r with
                 | Ok _ => same_store h h' /\ hysteria_of h' desired /\ serves h' desired
                 | Err e => e <> ValidationError /\ delta_outcome h s desired (Err e) h'
                 end) h.
Proof using Hcodes TOk.
  intros Hr Hx Hread.
  assert (Hundo : forall h1, last_known_good (store h1) = last_known_good (store h) ->
    wp (_rollback sha256_hex cfg;; raise ApplyError : prog (host K) exn (gset text)) (fun r h' =>
      match r with
      | Ok _ => same_store h h' /\ hysteria_of h' desired /\ serves h' desired
      | Err e => e <> ValidationError /\ delta_outcome h s desired (Err e) h'
      end) h1).
  { intros h1 Hg. apply wp_bind. eapply wp_mono; [apply (rollback_spec s); by rewrite (recorded_same h)|].
    cbn beta. intros [[]|e] h2 (Hg2 & Hx2 & Hr2); unfold wp; cbn -[readable]; rewrite Hg2, Hx2.
    - pose proof (readable_render s). done.
    - pose proof (readable_render s). by destruct Hr2 as [->| ->]. }
  apply wp_try, wp_bind. eapply wp_mono; [by apply (apply_xray_spec _ desired)|]. cbn beta.
  intros [removed|e] h1 [Hf Hr1].
  2: { destruct Hr1 as [->| ->]; [|apply Hundo; apply Hf]. split; [done|]. split; [apply Hf|]. split; [|done].
       rewrite (same_xray _ _ Hf), Hx. apply readable_render. }
  apply wp_bind. eapply wp_mono; [apply apply_hysteria_spec|]. cbn beta. intros [[]|e] h2 (Hss & Hk & _ & _ & Hr2).
  - unfold wp. cbn. split; [by eapply same_store_trans; [apply same_files_store|]|]. split; [done|].
    by eapply serves_kernel.
  - assert (Hg : last_known_good (store h2) = last_known_good (store h))
      by (by rewrite (ss_good _ _ Hss), (same_good _ _ Hf)).
    destruct Hr2 as [->| ->]; [|by apply Hundo]. split; [done|]. split; [done|]. split; [|done].
    rewrite (ss_xray _ _ Hss), (same_xray _ _ Hf), Hx. apply readable_render.
Qed.

Lemma apply_delta_spec s desired h :
  read_last_known_good (store h) = Some s -> readable (xray_config (store h)) -> state_ok desired ->
  wp (_apply_delta sha256_hex cfg desired) (delta_outcome h s desired) h.
Proof using Hcodes TOk.
  intros Hr Hread Hok. unfold _apply_delta. apply wp_bind. unfold wp at 1, read_state. rewrite Hr. cbn [fst snd].
  apply wp_modify. set (h1 := with_store _ h).
  apply wp_bind. eapply wp_mono; [apply validate_spec|]. cbn beta. intros [[]|e] h2 (Hf & Hk2 & _ & _ & Hr2).
  2: { unfold delta_outcome. rewrite (same_good _ _ Hf), (same_xray _ _ Hf), (same_hysteria _ _ Hf), Hk2.
       split; [done|]. split; [done|]. by destruct Hr2 as [->| ->]. }
  apply wp_bind, wp_get. unfold wp at 1.
  cbn [mret prog_ret fst snd].
  apply wp_modify. set (h3 := with_store _ h2).
  apply wp_bind. eapply wp_mono; [apply (apply_or_undo_spec _ s); [|done|]|].
  { rewrite (recorded_same h); [done|]. apply Hf. }
  { by rewrite (same_xray _ _ Hf). }
  cbn beta. intros [removed|e] h4 Hr4.
  2: { destruct Hr4 as (He & Hg & Hre & Hr4). split; [|split; [done|by destruct e]].
       rewrite Hg. change (last_known_good (store h3)) with (last_known_good (store h2)). by rewrite (same_good _ _ Hf). }
  destruct Hr4 as (Hss & Hhy & Hsv). apply wp_bind. unfold wp at 1, promote, promote_candidate_to_last_known_good.
  rewrite (ss_candidate _ _ Hss). change (candidate (store h3)) with (candidate (store h2)).
  rewrite (same_candidate _ _ Hf). cbn [candidate store h1 with_store write_candidate_atomically fst snd].
  eapply wp_mono; [apply finish_spec|]. cbn beta. intros r h5 (Hs5 & Hh5 & Hk5 & ->).
  split.
  - rewrite Hs5. cbn. by apply parse_render_state.
  - done.
  - rewrite Hs5. cbn. by rewrite (ss_xray _ _ Hss).
  - intros p Hp. rewrite Hh5. cbn. by apply Hhy.
  - eapply serves_kernel; [exact Hk5|]. done.
Qed.
End Apply.

End Xray.
