(* ===== verification/XrayContract.v ===== *)
(** * What the control plane may rely on from an Xray driver

    The [XrayDriver] protocol of [nebula_agent/drivers/xray_base.py] as a class,
    the in-memory [FakeXrayRunner] of [drivers/fake.py], and a contract both it
    and the native driver of XrayDriver.v keep. *)

From S2P Require Import Prelude PyText PyBytes Json IpAddress WgConfig WgDriver XrayConfig HysteriaConfig XrayDriver.
Import XrayConfig HysteriaConfig Xray.

Module XrayContract.

(** ** The protocol *)

Class XrayDriver (St : Type) := {
  drv_provision_client : ClientRequest -> prog St exn ProvisionResponse;
  drv_revoke_client : Z -> ClientRequest -> prog St exn Wg.DeviceResponse;
  drv_prune_clients : list (Z * text) -> prog St exn PruneResponse;
  drv_reconcile_client : ClientRequest -> prog St exn Wg.ReconcileResponse;
  drv_health : prog St exn XrayHealthResponse;
  drv_resync_served_config : prog St exn bool;
  drv_authorize_hysteria : text -> prog St exn (option text);
}.

#[export] Instance native_driver {K} `{XrayTool K} (sha256_hex : text -> text) (cfg : Settings) :
    XrayDriver (host K) := {
  drv_provision_client := provision_client sha256_hex cfg;
  drv_revoke_client := revoke_client sha256_hex cfg;
  drv_prune_clients := prune_clients sha256_hex cfg;
  drv_reconcile_client := reconcile_client cfg;
  drv_health := health cfg;
  drv_resync_served_config := _resync_served_config sha256_hex cfg;
  drv_authorize_hysteria := authorize_hysteria sha256_hex cfg;
}.

(** ** FakeXrayRunner *)

Record FakeXrayRunner := {
  fx_state : DesiredXrayState;
  fx_server_address : text;
  fx_sni : text;
  fx_profiles : list XrayInboundProfile;
  fx_fail_next : bool;
}.
Abbreviation F := (prog FakeXrayRunner exn).

Definition fx_set (s : DesiredXrayState) (fail : bool) (f : FakeXrayRunner) : FakeXrayRunner :=
  {| fx_state := s; fx_server_address := fx_server_address f; fx_sni := fx_sni f;
     fx_profiles := fx_profiles f; fx_fail_next := fail |}.

Definition fail_next_apply : F unit := modify (fun f => fx_set (fx_state f) true f).

Definition fx_profile_for (code_ : text) : F XrayInboundProfile := fun f =>
  (of_option ValidationError (head (filter (fun p => profile_code p = code_) (fx_profiles f))), f).

Definition fx_apply (new_state : DesiredXrayState) : F unit := fun f =>
  if fx_fail_next f then (Err ApplyError, fx_set (fx_state f) false f)
  else (Ok tt, fx_set new_state (fx_fail_next f) f).

Definition fx_response_common (p : XrayInboundProfile) (f : FakeXrayRunner) : Details :=
  {| d_server_address := fx_server_address f; d_port := port p; d_sni := fx_sni f;
     d_transport := transport_name (transport p); d_transport_security := security_name (security p);
     d_path := or_text (xhttp_path p) (ws_path p); d_service_name := grpc_service_name p;
     d_obfs_password := None; d_port_hop := None; d_reality_public_key := None; d_reality_short_id := None;
     d_flow := None; d_protocol := str "vless"; d_method := None; d_password := None; d_encryption := None |}.

(** [except ApplyError: return ...], the response built from the state then. *)
Definition fx_caught {A} (response : FakeXrayRunner -> A) (e : exn) : option (F A) :=
  match e with ApplyError => Some (f ← get; mret (response f)) | _ => None end.

Definition fx_provision_client (r : ClientRequest) : F ProvisionResponse :=
  p ← fx_profile_for (q_profile_code r);
  f ← get;
  let common := fx_response_common p f in
  try_except
    (fx_apply (with_client (requested_client r) (fx_state f));;
     mret {| x_state := Wg.active; x_applied_generation := q_generation r; x_error_code := None;
             x_details := common |})
    (fx_caught (fun f =>
       {| x_state := Wg.failed; x_applied_generation := _last_applied_generation (fx_state f) (q_client_uuid r);
          x_error_code := Wg.apply_failed; x_details := common |})).

Definition fx_revoke_client (now : Z) (r : ClientRequest) : F Wg.DeviceResponse :=
  fx_profile_for (q_profile_code r);;
  f ← get;
  try_except
    (fx_apply (without_client (q_client_uuid r) (fx_state f));;
     mret {| Wg.o_state := Wg.revoked; Wg.o_applied_generation := q_generation r;
             Wg.o_error_code := None; Wg.o_revoked_at := Some now |})
    (fx_caught (fun f =>
       {| Wg.o_state := Wg.failed;
          Wg.o_applied_generation := _last_applied_generation (fx_state f) (q_client_uuid r);
          Wg.o_error_code := Wg.apply_failed; Wg.o_revoked_at := Some now |})).

Definition fx_prune_clients (expected : list (Z * text)) : F PruneResponse :=
  f ← get;
  let cs := clients (fx_state f) in
  let survivors := filter (fun c => client_uuid c ∈ expected.*1) cs in
  let removed := Z.of_nat (length cs) - Z.of_nat (length survivors) in
  if removed =? 0 then
    mret {| pr_state := pruned; pr_removed := 0; pr_kept := Z.of_nat (length survivors); pr_error_code := None |}
  else
    try_except
      (fx_apply {| clients := survivors |};;
       mret {| pr_state := pruned; pr_removed := removed; pr_kept := Z.of_nat (length survivors);
               pr_error_code := None |})
      (fx_caught (fun f =>
         {| pr_state := prune_failed; pr_removed := 0; pr_kept := Z.of_nat (length (clients (fx_state f)));
            pr_error_code := Wg.apply_failed |})).

Definition fx_reconcile_client (r : ClientRequest) : F Wg.ReconcileResponse :=
  known ← try_except (fx_profile_for (q_profile_code r);; mret true)
            (fun e => match e with ValidationError => Some (mret false) | _ => None end);
  if negb known then mret (response Wg.ambiguous None None)
  else
    f ← get;
    match client (q_client_uuid r) (fx_state f) with
    | None => mret (response Wg.drift_detected None None)
    | Some c =>
        if bool_decide (protocol_profile_code c = q_profile_code r)
        then mret (response Wg.in_sync (Some (generation c)) None)
        else mret (response Wg.ambiguous (Some (generation c)) None)
    end.

Definition fx_health : F XrayHealthResponse :=
  f ← get;
  mret {| xh_state := Wg.healthy; listener_up := true;
          client_count := Z.of_nat (length (clients (fx_state f))); xh_error_code := None |}.

Definition fx_resync_served_config : F bool := mret false.
Definition fx_authorize_hysteria (auth : text) : F (option text) := mret None.

#[export] Instance fake_driver : XrayDriver FakeXrayRunner := {
  drv_provision_client := fx_provision_client;
  drv_revoke_client := fx_revoke_client;
  drv_prune_clients := fx_prune_clients;
  drv_reconcile_client := fx_reconcile_client;
  drv_health := fx_health;
  drv_resync_served_config := fx_resync_served_config;
  drv_authorize_hysteria := fx_authorize_hysteria;
}.

(** ** The contract *)

(** A set no two clients of which share a UUID. *)
Definition state_wf (s : DesiredXrayState) : Prop := state_ok s /\ NoDup (uuids s).

Lemma state_wf_with c s : state_wf s -> is_uuid (client_uuid c) -> state_wf (with_client c s).
Proof. intros [? ?] ?. split; [by apply state_ok_with|by apply uuids_with]. Qed.
Lemma state_wf_without u s : state_wf s -> state_wf (without_client u s).
Proof. intros [? ?]. split; [by apply state_ok_without|by apply uuids_without]. Qed.

Lemma client_elem s c : NoDup (uuids s) -> c ∈ clients s -> client (client_uuid c) s = Some c.
Proof.
  destruct s as [cs]. unfold uuids, client. cbn. induction cs as [|x cs IH]; intros Hnd Hc; [by apply not_elem_of_nil in Hc|].
  rewrite fmap_cons in Hnd. apply NoDup_cons in Hnd as [Hx Hnd]. cbn. apply elem_of_cons in Hc as [->|Hc].
  - by rewrite Z.eqb_refl.
  - destruct (Z.eqb_spec (client_uuid x) (client_uuid c)) as [He|]; [|by apply IH].
    destruct Hx. rewrite He. by apply list_elem_of_fmap_2.
Qed.

(** A UUID is listed for a profile exactly when its client is recorded there. *)
Lemma listed_iff s code_ u : state_wf s -> is_uuid u ->
  str_uuid u ∈ (fun c => str_uuid (client_uuid c)) <$> clients_for code_ s <->
  exists c, client u s = Some c /\ protocol_profile_code c = code_.
Proof.
  intros [Hok Hnd] Hu. unfold state_ok in Hok. rewrite Forall_forall in Hok. rewrite list_elem_of_fmap. split.
  - intros (c & He & Hc). apply list_elem_of_filter in Hc as [Hp Hc]. exists c.
    apply str_uuid_inj in He as ->; [|done|by apply Hok]. by rewrite client_elem.
  - intros (c & Hc & Hp). apply find_client_elem in Hc as [Hc <-]. exists c. split; [done|].
    by apply list_elem_of_filter.
Qed.

Definition survivors (expected : list (Z * text)) (s : DesiredXrayState) : DesiredXrayState :=
  {| clients := filter (fun c => client_uuid c ∈ expected.*1) (clients s) |}.

Lemma state_wf_survivors expected s : state_wf s -> state_wf (survivors expected s).
Proof.
  intros [Hok Hnd]. split; [by apply Forall_filter_list|].
  unfold uuids in *. cbn. eapply sublist_NoDup; [exact Hnd|]. apply fmap_sublist, sublist_filter.
Qed.

Lemma find_survivor u cs (keep : list Z) :
  find_client u (filter (fun c => client_uuid c ∈ keep) cs) = if bool_decide (u ∈ keep) then find_client u cs else None.
Proof.
  induction cs as [|c cs IH]; [by case_bool_decide|]. rewrite filter_cons. cbn [find_client].
  destruct (decide (client_uuid c ∈ keep)) as [Hk|Hk]; cbn [find_client]; rewrite ?IH;
    destruct (Z.eqb_spec (client_uuid c) u) as [He|Hne]; try done; subst u.
  - by rewrite bool_decide_eq_true_2.
  - rewrite bool_decide_eq_false_2 by done. done.
Qed.
Lemma client_survivors u expected s :
  client u (survivors expected s) = if bool_decide (u ∈ expected.*1) then client u s else None.
Proof. apply find_survivor. Qed.

Lemma survivors_twice expected s : survivors expected (survivors expected s) = survivors expected s.
Proof. unfold survivors. cbn. f_equal. rewrite list_filter_filter_l; [done|by auto]. Qed.

(** What a driver answers about a client when the set [s] is in force. *)
Definition reconcile_answer (offered : bool) (s : DesiredXrayState) (r : ClientRequest) : Wg.ReconcileResponse :=
  if offered then
    match client (q_client_uuid r) s with
    | None => response Wg.drift_detected None None
    | Some c => response (if bool_decide (protocol_profile_code c = q_profile_code r)
                          then Wg.in_sync else Wg.ambiguous) (Some (generation c)) None
    end
  else response Wg.ambiguous None None.

Section ContractShape.
Context {St : Type} (offers : St -> text -> bool) (holds in_force : St -> DesiredXrayState -> Prop).

(** A change of one client: refused without effect for a profile the driver does
    not have; done and in force; reported failed, at the generation there was;
    or raised, with the record as it was. *)
Definition client_change {A} (state_of : A -> op_state) (gen_of : A -> Z) (ok : op_state)
    (r : ClientRequest) (s s' : DesiredXrayState) (st : St) (out : result exn A * St) : Prop :=
  let '(res, st') := out in
  offers st' = offers st /\
  if offers st (q_profile_code r) then
    match res with
    | Ok resp =>
        (state_of resp = ok /\ gen_of resp = q_generation r /\ in_force st' s') \/
        (state_of resp = Wg.failed /\ gen_of resp = _last_applied_generation s (q_client_uuid r) /\
         holds st' s /\ (in_force st s -> in_force st' s))
    | Err e => (e = RollbackFailedError \/ e = SubprocessTimeoutError) /\ holds st' s
    end
  else res = Err ValidationError /\ st' = st.

Definition prune_change (expected : list (Z * text)) (s : DesiredXrayState) (st : St)
    (out : result exn PruneResponse * St) : Prop :=
  let '(res, st') := out in
  let total := Z.of_nat (length (clients s)) in
  let kept := Z.of_nat (length (clients (survivors expected s))) in
  offers st' = offers st /\
  match res with
  | Ok resp =>
      (pr_state resp = pruned /\ pr_removed resp = total - kept /\ pr_kept resp = kept /\
       in_force st' (survivors expected s)) \/
      (pr_state resp = prune_failed /\ pr_removed resp = 0 /\ pr_kept resp = total /\ in_force st' s)
  | Err e => (e = RollbackFailedError \/ e = SubprocessTimeoutError) /\ holds st' s
  end.
End ContractShape.

(** [holds] is the record; [in_force] is the record and what is served. *)
Class XrayDriverContract (St : Type) `{XrayDriver St} := {
  offers : St -> text -> bool;
  holds : St -> DesiredXrayState -> Prop;
  in_force : St -> DesiredXrayState -> Prop;
  in_force_holds st s : in_force st s -> holds st s;
  holds_wf st s : holds st s -> state_wf s;
  provision_client_contract st s r : holds st s -> is_uuid (q_client_uuid r) ->
    client_change offers holds in_force x_state x_applied_generation Wg.active r s
      (with_client (requested_client r) s) st (drv_provision_client r st);
  revoke_client_contract st s now r : holds st s ->
    client_change offers holds in_force Wg.o_state Wg.o_applied_generation Wg.revoked r s
      (without_client (q_client_uuid r) s) st (drv_revoke_client now r st);
  prune_clients_contract st s expected : in_force st s ->
    prune_change offers holds in_force expected s st (drv_prune_clients expected st);
  prune_nothing_contract st s expected : in_force st s -> survivors expected s = s ->
    drv_prune_clients expected st =
      (Ok {| pr_state := pruned; pr_removed := 0; pr_kept := Z.of_nat (length (clients s)); pr_error_code := None |}, st);
  reconcile_client_contract st s r : in_force st s -> is_uuid (q_client_uuid r) ->
    drv_reconcile_client r st = (Ok (reconcile_answer (offers st (q_profile_code r)) s r), st);
}.

(** *** The fake driver keeps it *)

Definition fx_offers (f : FakeXrayRunner) (code_ : text) : bool :=
  match filter (fun p => profile_code p = code_) (fx_profiles f) with [] => false | _ => true end.
Definition fx_holds (f : FakeXrayRunner) (s : DesiredXrayState) : Prop := fx_state f = s /\ state_wf s.

Lemma fx_offers_existsb f code_ :
  fx_offers f code_ = existsb (fun p => bool_decide (profile_code p = code_)) (fx_profiles f).
Proof.
  unfold fx_offers. induction (fx_profiles f) as [|p ps IH]; [done|]. rewrite filter_cons. cbn [existsb].
  case_decide; [by rewrite bool_decide_eq_true_2|]. by rewrite bool_decide_eq_false_2.
Qed.

Lemma fx_profile_spec code_ f :
  if fx_offers f code_ then exists p, fx_profile_for code_ f = (Ok p, f)
  else fx_profile_for code_ f = (Err ValidationError, f).
Proof.
  unfold fx_offers, fx_profile_for. destruct (filter _ _) as [|p l]; cbn; [done|]. by exists p.
Qed.

(** [fx_apply] followed by an answer, the failure caught. *)
Lemma fx_apply_answer {A} (good : A) (bad : FakeXrayRunner -> A) new f :
  try_except (fx_apply new;; mret good) (fx_caught bad) f =
  if fx_fail_next f then (Ok (bad (fx_set (fx_state f) false f)), fx_set (fx_state f) false f)
  else (Ok good, fx_set new false f).
Proof.
  unfold try_except, fx_apply, mbind, prog_bind, fx_caught. destruct (fx_fail_next f) eqn:Hf; [done|]. by rewrite ?Hf.
Qed.

Lemma fx_provision_contract f s r : fx_holds f s -> is_uuid (q_client_uuid r) ->
  client_change fx_offers fx_holds fx_holds x_state x_applied_generation Wg.active r s
    (with_client (requested_client r) s) f (fx_provision_client r f).
Proof.
  intros [<- Hwf] Hu. unfold client_change, fx_provision_client.
  pose proof (fx_profile_spec (q_profile_code r) f) as Hp. destruct (fx_offers f _).
  - destruct Hp as [p Hp]. rewrite (bind_ok _ _ _ _ _ Hp), (bind_ok get _ f f f) by done.
    rewrite fx_apply_answer. destruct (fx_fail_next f); (split; [done|]); [right|left]; [done|].
    split; [done|]. split; [done|]. split; [done|]. by apply state_wf_with.
  - by rewrite (bind_err _ _ _ _ _ Hp).
Qed.

Lemma fx_revoke_contract f s now r : fx_holds f s ->
  client_change fx_offers fx_holds fx_holds Wg.o_state Wg.o_applied_generation Wg.revoked r s
    (without_client (q_client_uuid r) s) f (fx_revoke_client now r f).
Proof.
  intros [<- Hwf]. unfold client_change, fx_revoke_client.
  pose proof (fx_profile_spec (q_profile_code r) f) as Hp. destruct (fx_offers f _).
  - destruct Hp as [p Hp]. rewrite (bind_ok _ _ _ _ _ Hp), (bind_ok get _ f f f) by done.
    rewrite fx_apply_answer. destruct (fx_fail_next f); (split; [done|]); [right|left]; [done|].
    split; [done|]. split; [done|]. split; [done|]. by apply state_wf_without.
  - by rewrite (bind_err _ _ _ _ _ Hp).
Qed.

(** Nothing to remove is nothing to change. *)
Lemma survivors_all expected s :
  Z.of_nat (length (clients s)) - Z.of_nat (length (clients (survivors expected s))) = 0 -> survivors expected s = s.
Proof.
  destruct s as [cs]. unfold survivors. cbn. intros Hl. f_equal.
  induction cs as [|c cs IH]; [done|]. rewrite filter_cons in *. case_decide; cbn in *.
  - f_equal. apply IH. lia.
  - pose proof (sublist_length _ _ (sublist_filter (fun c => client_uuid c ∈ expected.*1) cs)). lia.
Qed.

Lemma fx_prune_contract f s expected : fx_holds f s ->
  prune_change fx_offers fx_holds fx_holds expected s f (fx_prune_clients expected f).
Proof.
  intros [<- Hwf]. unfold prune_change, fx_prune_clients. rewrite (bind_ok get _ f f f) by done.
  change (filter _ (clients (fx_state f))) with (clients (survivors expected (fx_state f))).
  destruct (Z.eqb_spec (Z.of_nat (length (clients (fx_state f))) -
    Z.of_nat (length (clients (survivors expected (fx_state f))))) 0) as [Hz|Hz].
  - split; [done|]. left. split; [done|]. split; [by rewrite Hz|]. split; [done|]. by rewrite survivors_all.
  - rewrite fx_apply_answer. destruct (fx_fail_next f); (split; [done|]); [by right|left].
    repeat split; try done; by apply state_wf_survivors.
Qed.

Lemma fx_prune_nothing f s expected : fx_holds f s -> survivors expected s = s ->
  fx_prune_clients expected f =
    (Ok {| pr_state := pruned; pr_removed := 0; pr_kept := Z.of_nat (length (clients s)); pr_error_code := None |}, f).
Proof.
  intros [<- _] Hs. unfold fx_prune_clients. rewrite (bind_ok get _ f f f) by done.
  change (filter _ (clients (fx_state f))) with (clients (survivors expected (fx_state f))).
  by rewrite Hs, Z.sub_diag.
Qed.

Lemma fx_reconcile_contract f s r : fx_holds f s ->
  fx_reconcile_client r f = (Ok (reconcile_answer (fx_offers f (q_profile_code r)) s r), f).
Proof.
  intros [<- Hwf]. unfold fx_reconcile_client, reconcile_answer.
  pose proof (fx_profile_spec (q_profile_code r) f) as Hp. destruct (fx_offers f _).
  - destruct Hp as [p Hp]. rewrite (bind_ok _ _ f true f).
    + cbn [negb]. rewrite (bind_ok get _ f f f) by done. destruct (client _ _) as [c|]; [|done].
      by case_bool_decide.
    + unfold try_except. by rewrite (bind_ok _ _ _ _ _ Hp).
  - rewrite (bind_ok _ _ f false f); [done|]. unfold try_except. by rewrite (bind_err _ _ _ _ _ Hp).
Qed.

#[export] Instance fake_contract : XrayDriverContract FakeXrayRunner := {
  offers := fx_offers;
  holds := fx_holds;
  in_force := fx_holds;
  in_force_holds _ _ := id;
  holds_wf _ _ H := proj2 H;
  provision_client_contract := fx_provision_contract;
  revoke_client_contract := fx_revoke_contract;
  prune_clients_contract := fx_prune_contract;
  prune_nothing_contract := fx_prune_nothing;
  reconcile_client_contract f s r H _ := fx_reconcile_contract f s r H;
}.

(** *** The native driver keeps it *)

(** What [settings.py] is to provide. *)
Record settings_ok (cfg : Settings) : Prop := {
  sok_profiles : profiles_ok (profiles cfg);
  sok_hysteria p : hysteria_profile cfg = Some p ->
    hysteria_ok p (api_host (render_options cfg)) (dns_redirect (render_options cfg));
}.

Section Native.
Context {K : Type} `{TK : XrayTool K} `{TOk : !XrayToolOk K}.
Context (sha256_hex : text -> text) (Hsha : forall t, no_break (sha256_hex t)).
Context (cfg : Settings) (Hcfg : settings_ok cfg).
Implicit Types (h : host K) (s : DesiredXrayState).

Abbreviation settled := (settled sha256_hex cfg).

Definition native_holds h s : Prop :=
  read_last_known_good (store h) = Some s /\ state_wf s /\ readable (xray_config (store h)).
Definition native_in_force h s : Prop := settled h s /\ state_wf s.

Lemma native_in_force_holds h s : native_in_force h s -> native_holds h s.
Proof using Type.
  intros [[] ?]. split; [done|]. split; [done|]. rewrite st_xray0. apply readable_render.
Qed.

(** A change applied, the two failures caught. *)
Lemma native_apply {A} (good bad : A) s desired h :
  native_holds h s -> state_wf desired ->
  wp (try_except (_apply_delta sha256_hex cfg desired;; mret good) (caught bad)) (fun r h' =>
    match r with
    | Ok a => (a = good /\ native_in_force h' desired) \/
              (a = bad /\ native_holds h' s /\ (native_in_force h s -> native_in_force h' s))
    | Err e => (e = RollbackFailedError \/ e = SubprocessTimeoutError) /\ native_holds h' s
    end) h.
Proof using Hcfg TOk.
  intros (Hr & Hwf & Hread) Hd. apply wp_try, wp_bind.
  eapply wp_mono; [apply (apply_delta_spec sha256_hex cfg) with (s := s); [apply Hcfg|done|done|apply Hd]|].
  intros [[]|e] h' Ho; [by left|]. destruct Ho as (Hg & Hre & Ho).
  assert (Hh : native_holds h' s) by (split; [by rewrite (recorded_same h)|done]).
  destruct e; cbn; try done; auto.
  - right. split; [done|]. split; [done|]. intros [Hset _]. split; [|done]. destruct Ho as (Hx & Hy & Hk). split.
    + by rewrite (recorded_same h).
    + apply Hwf.
    + rewrite Hx. apply Hset.
    + intros p Hp. rewrite Hy. by apply Hset.
    + eapply serves_kernel; [exact Hk|]. apply Hset.
  - right. split; [done|]. split; [done|]. intros _. split; [|done]. destruct Ho as (Hx & Hy & Hk). split; try done.
    + apply Hh.
    + apply Hwf.
Qed.

Lemma xray_read_state h s : native_holds h s -> read_state h = (Ok s, h).
Proof using Type. intros (Hr & _). unfold read_state. by rewrite Hr. Qed.

Lemma serves_common code_ : _serves cfg code_ = true -> exists d, _response_common cfg code_ = Ok d.
Proof using Type.
  unfold _serves, _response_common, _profile_for, find_profile. intros Hs. destruct (hysteria_profile cfg) as [p|].
  1: case_bool_decide; [by eexists|]. all: cbn [orb] in Hs.
  all: apply existsb_exists in Hs as (q & Hq & Hc); apply bool_decide_eq_true in Hc.
  all: assert (Hin : q ∈ filter (fun p => profile_code p = code_) (profiles cfg))
         by (apply list_elem_of_filter; split; [done|by apply list_elem_of_In]).
  all: destruct (filter _ _) as [|x l]; [by apply not_elem_of_nil in Hin|]; by eexists.
Qed.

Definition native_offers h : text -> bool := _serves cfg.

Lemma xray_native_change {A} (state_of : A -> op_state) gen_of ok r s desired h good bad :
  native_holds h s -> state_wf desired -> _serves cfg (q_profile_code r) = true ->
  state_of good = ok -> gen_of good = q_generation r ->
  state_of bad = Wg.failed -> gen_of bad = _last_applied_generation s (q_client_uuid r) ->
  client_change native_offers native_holds native_in_force state_of gen_of ok r s desired h
    (try_except (_apply_delta sha256_hex cfg desired;; mret good) (caught bad) h).
Proof using Hcfg TOk.
  intros Hh Hd Hs Hg1 Hg2 Hb1 Hb2. pose proof (native_apply good bad s desired h Hh Hd) as Ha. unfold wp in Ha.
  unfold client_change. destruct (try_except _ _ h) as [r' h']. split; [done|]. unfold native_offers. rewrite Hs.
  destruct r' as [a|e]; [|done]. destruct Ha as [[-> ?]|(-> & ? & ?)]; auto.
Qed.

Lemma xray_native_provision h s r : native_holds h s -> is_uuid (q_client_uuid r) ->
  client_change native_offers native_holds native_in_force x_state x_applied_generation Wg.active r s
    (with_client (requested_client r) s) h (provision_client sha256_hex cfg r h).
Proof using Hcfg TOk.
  intros Hh Hu. unfold provision_client. destruct (_serves cfg _) eqn:Hs; cbn [negb].
  - destruct (serves_common _ Hs) as [d Hd].
    rewrite (bind_ok _ _ _ _ _ (xray_read_state _ _ Hh)), (bind_ok _ _ h d h) by (by unfold lift; rewrite Hd).
    apply xray_native_change; try done. apply state_wf_with; [apply Hh|done].
  - unfold client_change, native_offers. by rewrite Hs.
Qed.

Lemma xray_native_revoke h s now r : native_holds h s ->
  client_change native_offers native_holds native_in_force Wg.o_state Wg.o_applied_generation Wg.revoked r s
    (without_client (q_client_uuid r) s) h (revoke_client sha256_hex cfg now r h).
Proof using Hcfg TOk.
  intros Hh. unfold revoke_client. destruct (_serves cfg _) eqn:Hs; cbn [negb].
  - rewrite (bind_ok _ _ _ _ _ (xray_read_state _ _ Hh)).
    apply xray_native_change; try done. apply state_wf_without, Hh.
  - unfold client_change, native_offers. by rewrite Hs.
Qed.

(** What the files list: [s] is the record, [f] the set they were rendered from. *)
Record listing h s (f : DesiredXrayState) : Prop := {
  ls_recorded : read_last_known_good (store h) = Some s;
  ls_ok : state_ok f;
  ls_xray : xray_config (store h) = Some (_render sha256_hex cfg f);
  ls_hysteria : hysteria_of sha256_hex cfg h f;
}.

Lemma in_force_listing h s : native_in_force h s -> listing h s s.
Proof using Type. by intros [[] _]. Qed.

Abbreviation texts cs := ((fun c => str_uuid (client_uuid c)) <$> cs).

Lemma live_inbound_uuids p h s f : listing h s f -> p ∈ profiles cfg ->
  _live_client_uuids p h = (Ok (Some (texts (clients_for (profile_code p) f))), h).
Proof using Hcfg.
  intros Hl Hp. unfold _live_client_uuids. rewrite (ls_xray _ _ _ Hl). unfold _render.
  rewrite live_clients_rendered; [done|apply Hcfg|done|apply Hl].
Qed.

(** Hysteria2's users: listed in its file, or asked of the record. *)
Lemma live_hysteria_users p h s f : listing h s f -> hysteria_profile cfg = Some p ->
  exists l, _live_hysteria_uuids cfg h = (Ok (Some l), h) /\
    forall t, t ∈ l <-> t ∈ texts (clients_for (h_profile_code p) (if live_updates cfg then s else f)).
Proof using Hcfg Hsha.
  intros Hl Hp. unfold _live_hysteria_uuids. rewrite (ls_hysteria _ _ _ Hl p Hp), Hp.
  rewrite (ls_recorded _ _ _ Hl). unfold _render_hysteria. destruct (live_updates cfg).
  - rewrite live_hysteria_asked. eexists. split; [reflexivity|done].
  - rewrite live_hysteria_listed; [|done|by apply Hcfg|].
    + eexists. split; [reflexivity|]. intros t. rewrite !list_elem_of_fmap. split.
      * intros (u & -> & Hu). rewrite sort_uuids_elem, list_elem_of_fmap in Hu. naive_solver.
      * intros (c & -> & Hc). exists (client_uuid c). split; [done|]. rewrite sort_uuids_elem.
        by apply list_elem_of_fmap_2.
    + apply Forall_fmap, Forall_filter_list. apply Hl.
Qed.

Lemma compare_in_force s r l : state_wf s -> is_uuid (q_client_uuid r) ->
  (forall t, t ∈ l <-> t ∈ (fun c => str_uuid (client_uuid c)) <$> clients_for (q_profile_code r) s) ->
  compare_views r (Some l) (client (q_client_uuid r) s) = reconcile_answer true s r.
Proof using Type.
  intros Hwf Hu Hl. unfold compare_views, reconcile_answer.
  assert (Hp := listed_iff s (q_profile_code r) (q_client_uuid r) Hwf Hu). rewrite <- Hl in Hp.
  destruct (client (q_client_uuid r) s) as [c|]; repeat case_bool_decide; try done; naive_solver.
Qed.

Lemma find_profile_spec code_ :
  match find_profile cfg code_ with
  | Some p => p ∈ profiles cfg /\ profile_code p = code_
  | None => existsb (fun p => bool_decide (profile_code p = code_)) (profiles cfg) = false
  end.
Proof using Type.
  unfold find_profile. destruct (filter _ _) as [|p l] eqn:Hp; cbn.
  - apply not_true_iff_false. intros (q & Hq & Hc)%existsb_exists. apply bool_decide_eq_true in Hc.
    apply (not_elem_of_nil q). rewrite <- Hp. apply list_elem_of_filter. split; [done|by apply list_elem_of_In].
  - assert (Hin : p ∈ filter (fun p => profile_code p = code_) (profiles cfg)) by (rewrite Hp; by left).
    apply list_elem_of_filter in Hin. naive_solver.
Qed.

Lemma xray_native_reconcile h s r : native_in_force h s -> is_uuid (q_client_uuid r) ->
  reconcile_client cfg r h = (Ok (reconcile_answer (_serves cfg (q_profile_code r)) s r), h).
Proof using Hcfg Hsha.
  intros Hf Hu. pose proof (xray_read_state _ _ (native_in_force_holds _ _ Hf)) as Hr.
  unfold reconcile_client, is_hysteria_code, _serves. destruct (hysteria_profile cfg) as [p|] eqn:Hp.
  1: case_bool_decide as Hc.
  { destruct (live_hysteria_users p h s s (in_force_listing _ _ Hf) Hp) as (l & Hl & Hin).
    rewrite (bind_ok _ _ _ _ _ Hr), (bind_ok _ _ _ _ _ Hl). unfold mret, prog_ret. cbn [orb].
    assert (Hl' : (if live_updates cfg then s else s) = s) by (by destruct (live_updates cfg)). rewrite Hl', Hc in Hin.
    rewrite (compare_in_force s); [done|apply Hf|done|done]. }
  all: cbn [orb]; pose proof (find_profile_spec (q_profile_code r)) as Hfp;
    destruct (find_profile cfg _) as [q|]; [|by rewrite Hfp]; destruct Hfp as [Hq Hqc].
  all: rewrite (bind_ok _ _ _ _ _ Hr), (bind_ok _ _ _ _ _ (live_inbound_uuids _ _ _ _ (in_force_listing _ _ Hf) Hq)); unfold mret, prog_ret;
    rewrite Hqc, (compare_in_force s) by (done || apply Hf).
  all: replace (existsb _ (profiles cfg)) with true; [done|].
  all: symmetry; apply existsb_exists; exists q; split; [by apply list_elem_of_In|by apply bool_decide_eq_true].
Qed.

Lemma texts_for code_ f t : t ∈ texts (clients_for code_ f) -> t ∈ texts (clients f).
Proof using Type.
  intros (c & -> & Hc)%list_elem_of_fmap. apply list_elem_of_filter in Hc as [_ Hc].
  apply list_elem_of_fmap. by exists c.
Qed.

Lemma live_of_profiles_listing ps h s f : listing h s f -> (forall p, p ∈ ps -> p ∈ profiles cfg) ->
  exists l, live_of_profiles ps h = (Ok (Some l), h) /\ (forall t, t ∈ l -> t ∈ texts (clients f)) /\
    (forall p t, p ∈ ps -> t ∈ texts (clients_for (profile_code p) f) -> t ∈ l).
Proof using Hcfg Hsha.
  intros Hl. induction ps as [|p ps IH]; intros Hin; [exists []; split; [done|set_solver]|].
  destruct IH as (l & Hl' & Hk & Ha); [set_solver|]. cbn [live_of_profiles].
  rewrite (bind_ok _ _ _ _ _ (live_inbound_uuids _ _ _ _ Hl (Hin p ltac:(by left)))), (bind_ok _ _ _ _ _ Hl').
  eexists. split; [reflexivity|]. split.
  - intros t [Ht|Ht]%elem_of_app; [by eapply texts_for|by apply Hk].
  - intros q t [->|Hq]%elem_of_cons Ht; apply elem_of_app; [by left|right; by eapply Ha].
Qed.

(** What is listed and neither kept nor recorded is found. *)
Lemma unaccounted_spec h s f keep : listing h s f ->
  exists found, _unaccounted_live_uuids cfg keep (clients s) h = (Ok found, h) /\
    (forall t, t ∈ found -> t ∉ texts (clients s) /\ (t ∈ texts (clients s) \/ t ∈ texts (clients f))) /\
    (forall p t, p ∈ profiles cfg -> t ∈ texts (clients_for (profile_code p) f) ->
       t ∈ found \/ t ∈ str_uuid <$> keep \/ t ∈ texts (clients s)).
Proof using Hcfg Hsha.
  intros Hl. unfold _unaccounted_live_uuids.
  destruct (live_of_profiles_listing (profiles cfg) h s f Hl ltac:(done)) as (l & Hlive & Hk & Ha).
  rewrite (bind_ok _ _ _ _ _ Hlive).
  assert (Hd : forall l' : list text, (forall t, t ∈ l' -> t ∈ texts (clients s) \/ t ∈ texts (clients f)) ->
    let found : gset text := list_to_set (l ++ l') ∖ list_to_set ((str_uuid <$> keep) ++ texts (clients s)) in
    (forall t, t ∈ found -> t ∉ texts (clients s) /\ (t ∈ texts (clients s) \/ t ∈ texts (clients f))) /\
    (forall p t, p ∈ profiles cfg -> t ∈ texts (clients_for (profile_code p) f) ->
       t ∈ found \/ t ∈ str_uuid <$> keep \/ t ∈ texts (clients s))).
  { intros l' Hl' found. split.
    - intros t. unfold found. rewrite elem_of_difference, !elem_of_list_to_set, !elem_of_app.
      intros [[Ht|Ht] Hn]; split; naive_solver.
    - intros p t Hp Ht. specialize (Ha p t Hp Ht).
      destruct (decide (t ∈ (str_uuid <$> keep) ++ texts (clients s))) as [Hin|Hn].
      + apply elem_of_app in Hin. by right.
      + left. unfold found. rewrite elem_of_difference, !elem_of_list_to_set, elem_of_app. auto. }
  destruct (hysteria_profile cfg) as [p|] eqn:Hp.
  - destruct (live_hysteria_users p h s f Hl Hp) as (l' & Hl' & Hin). rewrite (bind_ok _ _ _ _ _ Hl').
    eexists. split; [reflexivity|]. apply Hd. intros t Ht. apply Hin, texts_for in Ht. destruct (live_updates cfg); auto.
  - specialize (Hd [] ltac:(set_solver)). rewrite app_nil_r in Hd. eexists. split; [reflexivity|done].
Qed.

(** Nothing is listed that is not recorded. *)
Lemma native_accounted h s keep : native_in_force h s ->
  _unaccounted_live_uuids cfg keep (clients s) h = (Ok ∅, h).
Proof using Hcfg Hsha.
  intros Hf. destruct (unaccounted_spec h s s keep (in_force_listing _ _ Hf)) as (found & -> & Hnone & _).
  replace found with (∅ : gset text); [done|]. symmetry. apply set_eq. set_solver.
Qed.

Lemma xray_native_prune h s expected : native_in_force h s ->
  prune_change native_offers native_holds native_in_force expected s h (prune_clients sha256_hex cfg expected h).
Proof using Hcfg Hsha TOk.
  intros Hf. pose proof (native_in_force_holds _ _ Hf) as Hh. unfold prune_clients.
  rewrite (bind_ok _ _ _ _ _ (xray_read_state _ _ Hh)), (bind_ok _ _ _ _ _ (native_accounted _ _ _ Hf)).
  change (filter _ (clients s)) with (clients (survivors expected s)). rewrite bool_decide_eq_true_2, andb_true_r by done.
  change {| clients := clients (survivors expected s) |} with (survivors expected s).
  set (n := Z.of_nat (length (clients s)) - _).
  destruct (Z.eqb_spec n 0) as [Hz|Hz].
  - split; [done|]. left. split; [done|]. split; [by fold n; rewrite Hz|]. split; [done|]. by rewrite survivors_all.
  - rewrite size_empty, Z.add_0_r.
    match goal with |- context [try_except (_;; mret ?good) (caught ?bad) h] =>
      pose proof (native_apply good bad s (survivors expected s) h Hh ltac:(apply state_wf_survivors, Hf)) as Ha end.
    unfold wp in Ha. unfold prune_change. destruct (try_except _ _ h) as [[a|e] h']; (split; [done|]); [|done].
    cbn [fst snd] in Ha. destruct Ha as [[-> ?]|(-> & _ & Hg)]; [by left|right]. auto.
Qed.

Lemma native_prune_nothing h s expected : native_in_force h s -> survivors expected s = s ->
  prune_clients sha256_hex cfg expected h =
    (Ok {| pr_state := pruned; pr_removed := 0; pr_kept := Z.of_nat (length (clients s)); pr_error_code := None |}, h).
Proof using Hcfg Hsha.
  intros Hf Hs. pose proof (native_in_force_holds _ _ Hf) as Hh. unfold prune_clients.
  rewrite (bind_ok _ _ _ _ _ (xray_read_state _ _ Hh)), (bind_ok _ _ _ _ _ (native_accounted _ _ _ Hf)).
  change (filter _ (clients s)) with (clients (survivors expected s)).
  rewrite Hs, Z.sub_diag, bool_decide_eq_true_2 by done. done.
Qed.

Definition native_contract : @XrayDriverContract (host K) (native_driver sha256_hex cfg).
Proof using Hcfg Hsha TOk.
  refine (@Build_XrayDriverContract _ (native_driver sha256_hex cfg) native_offers native_holds native_in_force _ _ _ _ _ _ _).
  - apply native_in_force_holds.
  - intros h s Hh. apply Hh.
  - apply xray_native_provision.
  - apply xray_native_revoke.
  - apply xray_native_prune.
  - apply native_prune_nothing.
  - apply xray_native_reconcile.
Defined.
End Native.

End XrayContract.
