(* ===== verification/XrayServing.v ===== *)
(** * What an Xray server serves

    An Xray process that behaves as the driver expects, small enough to run; and
    the theorems on the driver of XrayDriver.v: a client set is applied whole or
    not at all, live updates and restarts agree, Hysteria2 admits the recorded
    clients, removed clients are cut off, and, for any driver that keeps the
    contract of XrayContract.v, what its answers mean. *)

From S2P Require Import Prelude PyText PyBytes Json IpAddress WgConfig WgDriver XrayConfig HysteriaConfig XrayDriver XrayContract.
Import XrayConfig HysteriaConfig Xray XrayContract.

Module XrayServing.

(** ** A process *)

(** The users of each inbound, what becomes of the next restarts, the clock and
    the counters it reports; then what Hysteria2 runs with, and what becomes of its
    next restarts. *)
Record process := {
  users : list (text * list text);
  fates : list Wg.fate;
  clock : Z;
  counters : list (text * Z);
  proxy : option text;
  proxy_fates : list Wg.fate;
}.

Definition set_users (u : list (text * list text)) (k : process) : process :=
  {| users := u; fates := fates k; clock := clock k; counters := counters k; proxy := proxy k; proxy_fates := proxy_fates k |}.
Definition next_fate (k : process) : process :=
  {| users := users k; fates := tail (fates k); clock := clock k; counters := counters k; proxy := proxy k;
     proxy_fates := proxy_fates k |}.

Definition named (es : list text) : bool := forallb (fun e => negb (bool_decide (e = []))) es.

Definition inbound_users (w : text * _LiveInbound) : text * list text := (w.1, (li_clients w.2).*1).

Definition restart_process (file : option text) (k : process) : exec * process :=
  let rest := next_fate k in
  match fates k, file with
  | Wg.refuses :: _, _ | _, None => (Wg.Completed 1 [], rest)
  | Wg.hangs :: _, _ => (Wg.TimedOut, rest)
  | _, Some t => match _live_inbounds_by_tag t with
                 | Ok wanted => (Wg.Completed 0 [], set_users (inbound_users <$> wanted) rest)
                 | Err _ => (Wg.Completed 1 [], rest)
                 end
  end.

Definition restart_proxy_process (file : option text) (k : process) : exec * process :=
  let rest p := {| users := users k; fates := fates k; clock := clock k; counters := counters k; proxy := p;
                   proxy_fates := tail (proxy_fates k) |} in
  match proxy_fates k with
  | Wg.refuses :: _ => (Wg.Completed 1 [], rest (proxy k))
  | Wg.hangs :: _ => (Wg.TimedOut, rest (proxy k))
  | _ => (Wg.Completed 0 [], rest file)
  end.

Definition user_list (es : list text) : json :=
  JObj [(str "users", JArr ((fun e => JObj [(str "email", JStr e)]) <$> es))].

Definition counter_list (cs : list (text * Z)) : json :=
  JObj [(str "stat", JArr ((fun c => JObj [(str "name", JStr (str "user>>>" ++ c.1 ++ str ">>>traffic>>>uplink"));
                                           (str "value", JInt c.2)]) <$> cs))].

Definition users_of (tag : text) (k : process) : list text := default [] (dict_get tag (users k)).

Definition call_process (command : text) (arguments : list text) (stdin : option text) (k : process) :
    exec * process :=
  if bool_decide (command = str "inbounduser") then
    match arguments with
    | [a] => let es := users_of (drop 5 a) k in
             if named es then (Wg.Completed 0 (dumps (user_list es)), k) else (Wg.Completed 1 [], k)
    | _ => (Wg.Completed 1 [], k)
    end
  else if bool_decide (command = str "rmu") then
    match arguments with
    | a :: gone => let tag := drop 5 a in
                   (Wg.Completed 0 [], set_users (dict_set tag (filter (fun e => e ∉ gone) (users_of tag k)) (users k)) k)
    | [] => (Wg.Completed 1 [], k)
    end
  else if bool_decide (command = str "adu") then
    match _live_inbounds_by_tag (default [] stdin) with
    | Ok new => (Wg.Completed 0 [],
                 foldl (fun k w => set_users (dict_set w.1 (users_of w.1 k ++ (li_clients w.2).*1) (users k)) k) k new)
    | Err _ => (Wg.Completed 1 [], k)
    end
  else if bool_decide (command = str "statsquery") then (Wg.Completed 0 (dumps (counter_list (counters k))), k)
  else (Wg.Completed 1 [], k).

#[export] Instance process_tool : XrayTool process := {
  xray_test t k := (Wg.Completed (if loads t then 0 else 1) [], k);
  restart_xray := restart_process;
  xray_api_call := call_process;
  restart_hysteria := restart_proxy_process;
  hysteria_is_active k := (Wg.Completed 0 [], k);
  kick _ _ _ k := (true, k);
  monotonic := clock;
  sleep d k := {| users := users k; fates := fates k; clock := clock k + d; counters := counters k; proxy := proxy k;
                  proxy_fates := proxy_fates k |};
  tcp_connect _ _ := true;
}.

Lemma dict_of_NoDup {V} (d : list (text * V)) : NoDup (dict_of d).*1.
Proof.
  unfold dict_of. enough (Hg : forall acc, NoDup acc.*1 -> NoDup (foldl (fun acc kv => dict_set kv.1 kv.2 acc) acc d).*1)
    by (apply Hg; constructor).
  induction d as [|[k v] d IH]; intros acc Hacc; cbn [foldl fst snd]; [done|]. apply IH. rewrite dict_keys_set.
  case_decide; [done|]. apply NoDup_app. split; [done|]. split; [|apply NoDup_singleton].
  intros x Hx ->%list_elem_of_singleton. done.
Qed.

Lemma wanted_NoDup t wanted : _live_inbounds_by_tag t = Ok wanted -> NoDup wanted.*1.
Proof.
  unfold _live_inbounds_by_tag. destruct (loads t) as [c|]; [|done]. destruct (jget "inbounds" c); [|done]. cbn.
  destruct (iter_json _); [|done]. cbn. destruct (map_read _ _) as [l|]; [|done]. cbn. intros [= <-]. apply dict_of_NoDup.
Qed.

Lemma user_list_wf es : json_wf (user_list es).
Proof.
  apply json_wf_obj. split; [apply NoDup_singleton|]. apply Forall_singleton. apply json_wf_arr, Forall_fmap, Forall_true.
  intros e. apply json_wf_obj. split; [apply NoDup_singleton|]. by apply Forall_singleton.
Qed.

Lemma user_list_emails es : named es = true -> emails_of (user_list es) = Ok (list_to_set es).
Proof.
  intros Hn. unfold emails_of, user_list.
  change (dict_get (str "users") _) with (Some (JArr ((fun e => JObj [(str "email", JStr e)]) <$> es))).
  cbn [default id iter_json mbind result_bind]. f_equal. f_equal.
  induction es as [|e es IH]; [done|]. cbn in Hn. apply andb_true_iff in Hn as [He Hn].
  rewrite fmap_cons. cbn [omap list_omap]. rewrite (IH Hn). by destruct e.
Qed.

Lemma call_process_keeps c a i k :
  clock (call_process c a i k).2 = clock k /\ proxy (call_process c a i k).2 = proxy k.
Proof.
  unfold call_process. repeat case_bool_decide; try done.
  - destruct a as [|? [|]]; try done. by destruct (named _).
  - by destruct a.
  - destruct (_live_inbounds_by_tag _) as [new|]; [|done]. cbn [snd].
    revert k. induction new as [|w new IH]; intros k; [done|]. cbn [foldl]. by destruct (IH (set_users
      (dict_set w.1 (users_of w.1 k ++ (li_clients w.2).*1) (users k)) k)) as [-> ->].
Qed.

#[export] Instance process_ok : XrayToolOk process.
Proof.
  refine {| serving k tag := list_to_set (users_of tag k); proxy_loaded := proxy; proxy_serving := proxy |};
    try done; try (cbn; lia).
  - intros t wanted k out k' Hr Hw tag li Hin. cbn in Hr. unfold restart_process in Hr. rewrite Hw in Hr.
    assert (Hu : users k' = inbound_users <$> wanted) by (destruct (fates k) as [|[] ?]; by simplify_eq).
    unfold users_of. rewrite Hu, (dict_get_elem tag _ (li_clients li).*1); [done| |].
    + rewrite <- list_fmap_compose. by apply wanted_NoDup in Hw.
    + apply list_elem_of_fmap. by exists (tag, li).
  - intros tag k out k' Hr. cbn in Hr. unfold call_process in Hr. rewrite bool_decide_eq_true_2 in Hr by done.
    change (drop 5 (str "-tag=" ++ tag)) with tag in Hr. destruct (named _) eqn:Hn; [|done].
    injection Hr as <- <-. split; [done|]. exists (user_list (users_of tag k)).
    rewrite user_list_emails by done. split; [|done].
    replace (match dumps (user_list (users_of tag k)) with [] => str "{}" | _ => _ end)
      with (dumps (user_list (users_of tag k))).
    + apply loads_dumps, user_list_wf.
    + unfold user_list. done.
  - intros o k. cbn. unfold restart_proxy_process. by destruct (proxy_fates k) as [|[] ?].
  - intros c a i k. exact (Z.eq_le_incl _ _ (eq_sym (proj1 (call_process_keeps c a i k)))).
  - intros o k out k' Hr. cbn in Hr. unfold restart_proxy_process in Hr. destruct (proxy_fates k) as [|[] ?]; by simplify_eq.
  - intros k out k' Hr. cbn in Hr. by simplify_eq.
  - intros o k. cbn. unfold restart_process. destruct (fates k) as [|[] ?], o as [t|]; try done;
      by destruct (_live_inbounds_by_tag t).
  - intros c a i k. exact (proj2 (call_process_keeps c a i k)).
Defined.

(** An agent with three inbounds, with or without Hysteria2 and live updates. *)
Definition example_inbound (code_ : string) (t : Transport) (p : Z) (key : option text) (vm : bool) : XrayInboundProfile := {|
  profile_code := str code_; transport := t; listen := str "127.0.0.1"; port := p; security := plain;
  xhttp_path := Some (str "/x"); grpc_service_name := None; ws_path := None; hysteria_up_mbps := None;
  hysteria_down_mbps := None; hysteria_obfs_password := None; ss2022_server_key := key;
  vless_decryption := None; vless_encryption := None; vmess := vm; reality_private_key := None;
  reality_public_key := None; reality_dest := None; reality_server_name := None; reality_short_id := None;
  vision := false |}.

Definition example_hysteria : HysteriaServerProfile := {|
  h_profile_code := str "hysteria2"; h_port := 8443; h_tls_cert_file := str "/c.pem"; h_tls_key_file := str "/k.pem";
  obfs_password := str "salt"; up_mbps := 100; down_mbps := 100; masquerade_url := str "https://example.org" |}.

Definition example_settings (hy live : bool) : Settings := {|
  profiles := [example_inbound "vless-xhttp-tls" xhttp 10001 None false;
               example_inbound "shadowsocks" raw 10002 (Some (str "a2V5")) false;
               example_inbound "vmess-ws" websocket 10003 None true];
  hysteria_profile := if hy then Some example_hysteria else None;
  render_options := {| tls_cert_file := None; tls_key_file := None; api_host := str "127.0.0.1";
                       live_client_updates := live; dns_redirect := Some (str "10.0.0.1", str "10.0.0.1:53") |};
  xray_public_host := str "vpn.example.org"; xray_sni := str "vpn.example.org"; xray_public_port := 443;
  xray_local_listen_port := 10001; xray_hysteria_hop_ports := None |}.

Definition example_sha (t : text) : text := show_Z (from_bytes t).

Lemma example_sha_ok t : no_break (example_sha t).
Proof. apply show_Z_no_break. Qed.

Lemma example_settings_ok hy live : settings_ok (example_settings hy live).
Proof.
  split.
  - split.
    + by apply (bool_decide_unpack _).
    + by apply (bool_decide_unpack _).
    + by apply (bool_decide_unpack _).
    + repeat (apply Forall_cons; split; [by intros|]). by apply Forall_nil.
  - destruct hy; [|done]. intros p [= <-]. split; try (by apply str_no_break). intros a r [= <- <-]. by split; repeat constructor.
Qed.

Definition fresh_host (plan : list Wg.fate) : host process := {|
  store := {| last_known_good := None; candidate := None; validate_scratch := None; xray_config := None |};
  hysteria_config := None; lingering := []; linger_task := false;
  kernel := {| users := []; fates := Wg.works :: plan; clock := 0; counters := []; proxy := None; proxy_fates := [] |} |}.

(** The host once the empty set was applied, the later restarts as planned. *)
Definition example_host (hy live : bool) (plan : list Wg.fate) : host process :=
  snd (_apply_delta example_sha (example_settings hy live) empty_state (fresh_host plan)).

Lemma empty_wf : state_wf empty_state.
Proof. split; constructor. Qed.

Lemma example_in_force hy live plan :
  native_in_force example_sha (example_settings hy live) (example_host hy live plan) empty_state.
Proof.
  split; [|apply empty_wf].
  assert (Hr : fst (_apply_delta example_sha (example_settings hy live) empty_state (fresh_host plan)) = Ok tt)
    by (destruct hy, live; vm_compute; reflexivity).
  pose proof (apply_delta_spec example_sha (example_settings hy live) (codes_distinct _ (sok_profiles _ (example_settings_ok hy live)))
                empty_state empty_state (fresh_host plan) eq_refl I (proj1 empty_wf)) as Ha.
  apply wp_run in Ha. unfold example_host. destruct (_apply_delta _ _ _ _) as [r h']. cbn [fst snd] in *.
  subst r. exact Ha.
Qed.

(** ** A client set is applied whole or not at all *)

Section Hysteria.
Context {K : Type} `{TK : XrayTool K} `{TOk : !XrayToolOk K} (sha256_hex : text -> text) (cfg : Settings).
Context (Hcodes : NoDup (profile_code <$> profiles cfg)).
Implicit Types (h : host K) (s : DesiredXrayState).

(** Hysteria2, where there is one, runs with what its file says. *)
Definition hysteria_runs h : Prop := forall p, hysteria_profile cfg = Some p -> proxy_serving (kernel h) = hysteria_config h.

(** *** What has no effect on its process *)

Definition leaves_proxy {A} (m : prog (host K) exn A) : Prop :=
  forall h, proxy_serving (kernel (m h).2) = proxy_serving (kernel h).

Lemma lp_ret {A} (a : A) : leaves_proxy (mret a).
Proof. done. Qed.
Lemma lp_raise {A} e : leaves_proxy (raise e : prog (host K) exn A).
Proof. done. Qed.
Lemma lp_read {A} (r : result read_error A) : leaves_proxy (of_read r).
Proof. by destruct r. Qed.
Lemma lp_modify f : (forall h, kernel (f h) = kernel h) -> leaves_proxy (modify f).
Proof. intros Hf h. cbn. by rewrite Hf. Qed.
Lemma lp_get : leaves_proxy get.
Proof. done. Qed.
Lemma lp_bind {A B} (m : prog (host K) exn A) (f : A -> prog (host K) exn B) :
  leaves_proxy m -> (forall a, leaves_proxy (f a)) -> leaves_proxy (m ≫= f).
Proof.
  intros Hm Hf h. specialize (Hm h). unfold mbind, prog_bind. destruct (m h) as [[a|e] h1]; [|done]. by rewrite Hf.
Qed.
Lemma lp_try {A} (m : prog (host K) exn A) g :
  leaves_proxy m -> (forall e m', g e = Some m' -> leaves_proxy m') -> leaves_proxy (try_except m g).
Proof.
  intros Hm Hg h. specialize (Hm h). unfold try_except. destruct (m h) as [[a|e] h1]; [done|].
  destruct (g e) as [m'|] eqn:He; [|done]. by rewrite (Hg e m' He).
Qed.
Lemma lp_run_or err (call : host K -> exec * K) :
  (forall h, proxy_serving (call h).2 = proxy_serving (kernel h)) -> leaves_proxy (run_or err call).
Proof.
  intros Hc. apply lp_bind; [|intros [rc out]; by destruct (rc =? 0)]. intros h. specialize (Hc h). unfold run.
  by destruct (call h) as [[|] k].
Qed.

Create HintDb proxy.
#[local] Hint Resolve lp_ret lp_raise lp_read lp_get lp_bind lp_try lp_run_or test_proxy restart_proxy api_proxy : proxy.
Lemma lp_reload : leaves_proxy _reload.
Proof using TOk. unfold _reload. auto with proxy. Qed.
Lemma lp_api command arguments stdin : leaves_proxy (_xray_api command arguments stdin).
Proof using TOk. unfold _xray_api. auto with proxy. Qed.
#[local] Hint Resolve lp_reload lp_api : proxy.
Lemma lp_live_emails tag : leaves_proxy (_live_emails tag).
Proof using TOk. unfold _live_emails, loads_answer. apply lp_bind; [auto with proxy|]. intros out. by case_match; auto with proxy. Qed.
#[local] Hint Resolve lp_live_emails : proxy.
Lemma lp_remove_gone wanted : leaves_proxy (remove_gone wanted).
Proof using TOk.
  induction wanted as [|[tag li] wanted IH]; cbn [remove_gone]; [auto with proxy|].
  apply lp_bind; [auto with proxy|]. intros live. apply lp_bind; [case_bool_decide; auto with proxy|]. intros _.
  apply lp_bind; [done|]. intros [? ?]. auto with proxy.
Qed.
Lemma lp_confirm wanted : leaves_proxy (confirm wanted).
Proof using TOk.
  induction wanted as [|[tag li] wanted IH]; cbn [confirm]; [auto with proxy|].
  apply lp_bind; [auto with proxy|]. intros live. case_bool_decide; [|auto with proxy].
  apply lp_bind; [by apply lp_modify|]. auto.
Qed.
#[local] Hint Resolve lp_remove_gone lp_confirm : proxy.
Lemma lp_apply_xray served rendered : leaves_proxy (_apply_xray cfg served rendered).
Proof using TOk.
  assert (leaves_proxy (_reload;; mret (∅ : gset text))) as Hre by auto with proxy.
  unfold _apply_xray. destruct (negb _); [done|]. apply lp_bind; [destruct served; auto with proxy|]. intros b.
  apply lp_bind; [auto with proxy|]. intros a. destruct b as [b|]; [|done]. case_bool_decide; [|done].
  apply lp_try; [|by intros [] ? [= <-]]. unfold _apply_clients_live. apply lp_bind; [auto with proxy|]. intros wanted.
  apply lp_bind; [auto with proxy|]. intros [removed additions]. apply lp_bind; [destruct additions; auto with proxy|]. auto with proxy.
Qed.
Lemma lp_validate t : leaves_proxy (_validate t).
Proof using TOk. unfold _validate. apply lp_bind; [by apply lp_modify|]. auto with proxy. Qed.
Lemma lp_finish removed previous desired :
  leaves_proxy (_watch_for_lingering removed;; _kick_removed_hysteria_clients sha256_hex cfg previous desired).
Proof using TOk.
  apply lp_bind.
  - unfold _watch_for_lingering. case_bool_decide; [auto with proxy|]. apply lp_bind; [by apply lp_modify|]. intros _. by apply lp_modify.
  - intros _. unfold _kick_removed_hysteria_clients. destruct (hysteria_profile cfg) as [p|]; [|auto with proxy].
    destruct (negb _); [auto with proxy|]. destruct (sort_texts _); [auto with proxy|]. intros h. cbn. apply kick_proxy.
Qed.

Lemma wp_leaves {A} (m : prog (host K) exn A) Q h :
  leaves_proxy m -> wp m Q h -> wp m (fun r h' => Q r h' /\ proxy_serving (kernel h') = proxy_serving (kernel h)) h.
Proof. intros Hm HQ. split; [exact HQ|apply Hm]. Qed.

(** *** Its own restart *)

Lemma wait_active_runs n deadline h :
  wp (wait_active n deadline) (fun r h' => is_ok r = true -> proxy_serving (kernel h') = proxy_loaded (kernel h)) h.
Proof using TOk.
  revert h. induction n as [|n IH]; intros h; cbn [wait_active]; [done|].
  apply wp_bind. eapply wp_mono; [apply run_spec|]. cbn beta. intros [[rc out]|e] h' (_ & _ & _ & Hk & Hr); [|done].
  destruct (Z.eqb_spec rc 0) as [->|]; [intros _; exact (active_serves _ _ _ Hr)|].
  apply wp_get. destruct (_ || _); [done|]. apply wp_modify. eapply wp_mono; [apply IH|]. cbn beta. intros r h2 Hr2 Hok.
  rewrite (Hr2 Hok). cbn. by rewrite sleep_keeps, Hk, active_keeps.
Qed.

(** An application that returns leaves it running with the file, unless it was
    not and the file already read as wanted; one that fails has written the file,
    which read differently before. *)
Lemma apply_hysteria_runs s h :
  wp (_apply_hysteria sha256_hex cfg s) (fun r h' => forall p, hysteria_profile cfg = Some p ->
    let wanted := Some (_render_hysteria sha256_hex cfg p s) in
    (is_ok r = true -> hysteria_runs h \/ hysteria_config h <> wanted -> hysteria_runs h') /\
    (is_ok r = false -> hysteria_config h <> wanted /\ hysteria_config h' = wanted)) h.
Proof using TOk.
  unfold _apply_hysteria, hysteria_runs. destruct (hysteria_profile cfg) as [p|]; [|done].
  apply wp_get. case_bool_decide as Hm.
  { intros q [= <-]. split; [|done]. intros _ [Hr|]; [exact Hr|done]. }
  apply wp_modify. set (h1 := with_hysteria _ h). apply wp_bind.
  eapply wp_mono; [apply run_or_spec|]. cbn beta. intros [out|e] h2 (Hf & _ & _ & _ & Hr).
  2: { intros q [= <-]. split; [done|]. intros _. by rewrite (same_hysteria _ _ Hf). }
  apply wp_get. pose proof (hysteria_wait_ends 31 (monotonic (kernel h2) + _HYSTERIA_ACTIVE_TIMEOUT_MS) h2) as Hw.
  specialize (Hw ltac:(unfold _HYSTERIA_ACTIVE_TIMEOUT_MS, _HYSTERIA_ACTIVE_POLL_MS; lia)).
  pose proof (wait_active_runs 32 (monotonic (kernel h2) + _HYSTERIA_ACTIVE_TIMEOUT_MS) h2) as Hru.
  unfold wp, wait_fuel in *. destruct (wait_active 32 _ h2) as [r h3]. cbn [fst snd] in *.
  destruct Hw as (Hf3 & _). intros q [= <-]. rewrite (same_hysteria _ _ Hf3), (same_hysteria _ _ Hf). cbn [h1 with_hysteria hysteria_config].
  split; [|done]. intros Hok _ q [= <-]. rewrite (Hru Hok). exact (hysteria_starts _ _ _ _ Hr).
Qed.

(** Hysteria2 runs with its file, or the file is not what [s] renders to. *)
Definition hysteria_stale h s : Prop :=
  forall p, hysteria_profile cfg = Some p -> hysteria_config h <> Some (_render_hysteria sha256_hex cfg p s).

Lemma rollback_hysteria s h :
  read_last_known_good (store h) = Some s -> hysteria_runs h \/ hysteria_stale h s ->
  wp (_rollback sha256_hex cfg) (fun r h' => is_ok r = true -> hysteria_runs h') h.
Proof using Hcodes TOk.
  intros Hr HJ. unfold _rollback. apply wp_bind. unfold wp at 1, read_state. rewrite Hr. cbn [fst snd].
  apply wp_modify. set (h1 := with_store _ h). apply wp_try. apply wp_bind.
  eapply wp_mono; [apply wp_leaves; [apply lp_reload|by apply (reload_spec sha256_hex cfg Hcodes s)]|]. cbn beta.
  intros [[]|e] h2 [(Hf & _) Hp].
  2: { by destruct e. }
  eapply wp_mono; [apply apply_hysteria_runs|]. cbn beta. intros [[]|e] h3 Hh; [|by destruct e].
  intros _ p Hprof. destruct (Hh p Hprof) as [Hok _]. refine (Hok eq_refl _ p Hprof).
  change (hysteria_config h1) with (hysteria_config h) in *. rewrite (same_hysteria _ _ Hf).
  destruct HJ as [HJ|HJ]; [left|right; exact (HJ p Hprof)]. intros q Hq. rewrite Hp, (same_hysteria _ _ Hf). exact (HJ q Hq).
Qed.

(** The middle of [_apply_delta], for Hysteria2. *)
Lemma apply_or_undo_hysteria served s desired h :
  read_last_known_good (store h) = Some s -> xray_config (store h) = Some (_render sha256_hex cfg desired) -> readable served ->
  hysteria_of sha256_hex cfg h s -> hysteria_runs h ->
  wp (try_except (removed ← _apply_xray cfg served (_render sha256_hex cfg desired); _apply_hysteria sha256_hex cfg desired;; mret removed)
        (fun e => match e with ApplyError => Some (_rollback sha256_hex cfg;; raise ApplyError) | _ => None end))
    (fun r h' => match r with
                 | Ok _ | Err ValidationError | Err ApplyError => hysteria_runs h'
                 | Err _ => True
                 end) h.
Proof using Hcodes TOk.
  intros Hr Hx Hread Hof Hrun.
  assert (Hundo : forall h1, last_known_good (store h1) = last_known_good (store h) -> hysteria_runs h1 \/ hysteria_stale h1 s ->
    wp (_rollback sha256_hex cfg;; raise ApplyError : prog (host K) exn (gset text)) (fun r h' =>
      match r with Ok _ | Err ValidationError | Err ApplyError => hysteria_runs h' | Err _ => True end) h1).
  { intros h1 Hg HJ. assert (Hr1 : read_last_known_good (store h1) = Some s) by by rewrite (recorded_same h).
    apply wp_bind. pose proof (rollback_spec sha256_hex cfg Hcodes s h1 Hr1) as Hs. pose proof (rollback_hysteria s h1 Hr1 HJ) as Hh.
    unfold wp in *. destruct (_rollback sha256_hex cfg h1) as [[[]|e] h2]; cbn [fst snd] in *; [by apply Hh|].
    destruct Hs as (_ & _ & [->| ->]); done. }
  apply wp_try, wp_bind.
  eapply wp_mono; [apply wp_leaves; [apply lp_apply_xray|by apply (apply_xray_spec sha256_hex cfg Hcodes _ desired)]|]. cbn beta.
  intros [removed|e] h1 [[Hf Hr1] Hp]; assert (hysteria_runs h1) as Hrun1
    by (intros p Hprof; rewrite Hp, (same_hysteria _ _ Hf); exact (Hrun p Hprof)).
  2: { destruct Hr1 as [->| ->]; [done|]. apply Hundo; [apply Hf|by left]. }
  apply wp_bind. pose proof (apply_hysteria_spec sha256_hex cfg desired h1) as Hs. pose proof (apply_hysteria_runs desired h1) as Hh.
  unfold wp at 1 in Hs. unfold wp at 1 in Hh. unfold wp at 1. destruct (_apply_hysteria sha256_hex cfg desired h1) as [[[]|e] h2]; cbn [fst snd] in *.
  - intros p Hprof. destruct (Hh p Hprof) as [Hok _]. exact (Hok eq_refl (or_introl Hrun1) p Hprof).
  - destruct Hs as (Hss & _ & _ & _ & [->| ->]); [done|]. apply Hundo; [by rewrite (ss_good _ _ Hss), (same_good _ _ Hf)|].
    right. intros p Hprof. destruct (Hh p Hprof) as [_ Herr]. destruct (Herr eq_refl) as [Hne ->].
    rewrite (same_hysteria _ _ Hf), (Hof p Hprof) in Hne. congruence.
Qed.

Lemma apply_delta_hysteria s desired h :
  settled sha256_hex cfg h s -> hysteria_runs h ->
  wp (_apply_delta sha256_hex cfg desired) (fun r h' =>
    match r with Ok _ | Err ValidationError | Err ApplyError => hysteria_runs h' | Err _ => True end) h.
Proof using Hcodes TOk.
  intros Hset Hrun. pose proof (st_recorded _ _ _ _ Hset) as Hr. pose proof (st_hysteria _ _ _ _ Hset) as Hof.
  unfold _apply_delta. apply wp_bind. unfold wp at 1, read_state. rewrite Hr. cbn [fst snd].
  apply wp_modify. set (h1 := with_store _ h). apply wp_bind.
  eapply wp_mono; [apply wp_leaves; [apply lp_validate|apply validate_spec]|]. cbn beta. intros [[]|e] h2 [(Hf & _) Hp];
    assert (hysteria_runs h2) as Hrun2 by (intros p Hprof; rewrite Hp, (same_hysteria _ _ Hf); exact (Hrun p Hprof)).
  2: { by destruct e. }
  apply wp_bind, wp_get. unfold wp at 1. cbn [mret prog_ret fst snd]. apply wp_modify. set (h3 := with_store _ h2).
  apply wp_bind. eapply wp_mono; [apply (apply_or_undo_hysteria _ s desired h3)|].
  - rewrite (recorded_same h); [done|]. apply Hf.
  - done.
  - rewrite (same_xray _ _ Hf). change (xray_config (store h1)) with (xray_config (store h)).
    rewrite (st_xray _ _ _ _ Hset). apply readable_render.
  - intros p Hprof. change (hysteria_config h3) with (hysteria_config h2). rewrite (same_hysteria _ _ Hf). exact (Hof p Hprof).
  - exact Hrun2.
  - cbn beta. intros [removed|e] h4 Hr4; [|done]. apply wp_bind. unfold wp at 1, promote.
    destruct (promote_candidate_to_last_known_good (store h4)) as [st|]; cbn [fst snd]; [|done].
    eapply wp_mono; [apply wp_leaves; [apply lp_finish|apply finish_spec]|]. cbn beta.
    intros r h5 [(_ & Hh5 & _ & ->) Hp5] p Hprof. rewrite Hp5, Hh5. exact (Hr4 p Hprof).
Qed.
End Hysteria.

(** C34: applying a client set to an agent whose record, files and processes agree
    on a set either brings all of them to the new one, or leaves or puts all of
    them back to the old one and says so (the configuration was refused, or a
    restart failed): the record, Xray's file and the clients it accepts on every
    inbound, Hysteria2's file and the configuration its process, reported active,
    runs with.  If even the restart of the old one failed, or a subprocess hung,
    the record is still the old set.  It never ends in any other way, and the wait
    for Hysteria2 always ends. *)
Theorem xray_apply_all_or_nothing {K} `{TK : XrayTool K} `{!XrayToolOk K} sha256_hex cfg s desired (h : host K) :
  NoDup (profile_code <$> profiles cfg) -> settled sha256_hex cfg h s -> hysteria_runs cfg h -> state_ok desired ->
  let '(r, h') := _apply_delta sha256_hex cfg desired h in
  match r with
  | Ok _ => settled sha256_hex cfg h' desired /\ hysteria_runs cfg h'
  | Err ValidationError | Err ApplyError => settled sha256_hex cfg h' s /\ hysteria_runs cfg h'
  | Err RollbackFailedError | Err SubprocessTimeoutError => read_last_known_good (store h') = Some s
  | Err _ => False
  end.
Proof.
  intros Hc Hs Hrun Hd.
  assert (Hread : readable (xray_config (store h))) by (rewrite (st_xray _ _ _ _ Hs); apply readable_render).
  pose proof (apply_delta_spec sha256_hex cfg Hc s desired h (st_recorded _ _ _ _ Hs) Hread Hd) as Ha. apply wp_run in Ha.
  pose proof (apply_delta_hysteria sha256_hex cfg Hc s desired h Hs Hrun) as Hh. apply wp_run in Hh.
  destruct (_apply_delta _ _ _ _) as [[[]|e] h']; cbn [fst snd] in *; [done|]. destruct Ha as (Hg & _ & Ha).
  pose proof (recorded_same _ _ Hg) as Hr. rewrite (st_recorded _ _ _ _ Hs) in Hr.
  destruct e; try done; split; try done; split; try done; try apply Hs; try apply Ha.
  - destruct Ha as (-> & _). apply Hs.
  - destruct Ha as (_ & Hy & _). intros p. rewrite Hy. apply Hs.
  - destruct Ha as (_ & _ & Hk). eapply serves_kernel; [exact Hk|]. apply Hs.
Qed.

Definition example_client : RenderedXrayClient := {|
  client_uuid := 1234567890; protocol_profile_code := str "shadowsocks"; generation := 3 |}.
Definition example_desired : DesiredXrayState := with_client example_client empty_state.

Lemma example_desired_ok : state_ok example_desired.
Proof. by apply Forall_singleton. Qed.

Lemma example_runs hy live plan : hysteria_runs (example_settings hy live) (example_host hy live plan).
Proof. intros p. destruct hy; [|done]. intros [= <-]. destruct live; vm_compute; reflexivity. Qed.

(** A restart that fails, with live updates off, is undone. *)
Lemma xray_apply_all_or_nothing_witness :
  fst (_apply_delta example_sha (example_settings true false) example_desired (example_host true false [Wg.refuses])) = Err ApplyError /\
  let h' := snd (_apply_delta example_sha (example_settings true false) example_desired (example_host true false [Wg.refuses])) in
  settled example_sha (example_settings true false) h' empty_state /\ hysteria_runs (example_settings true false) h'.
Proof.
  pose proof (xray_apply_all_or_nothing example_sha (example_settings true false) empty_state example_desired
    (example_host true false [Wg.refuses]) (codes_distinct _ (sok_profiles _ (example_settings_ok true false)))
    (proj1 (example_in_force true false [Wg.refuses])) (example_runs true false [Wg.refuses]) example_desired_ok) as Ha.
  destruct (_apply_delta _ _ _ _) as [r h'] eqn:Hr. cbn [fst snd].
  assert (He : r = Err ApplyError) by (change r with (fst (r, h')); rewrite <- Hr; vm_compute; reflexivity).
  subst r. split; [reflexivity|exact Ha].
Defined.

(** When the restart of Hysteria2 hangs, the file has been written: trying again finds
    it as wanted, restarts nothing and reports success, while the process still runs
    without the new client. *)
Definition example_guest : RenderedXrayClient := {|
  client_uuid := 1234567891; protocol_profile_code := str "hysteria2"; generation := 1 |}.
Definition with_guest : DesiredXrayState := with_client example_guest empty_state.
Definition hung_host : host process :=
  let h := example_host true false [Wg.works; Wg.works; Wg.works] in
  with_kernel {| users := users (kernel h); fates := fates (kernel h); clock := clock (kernel h); counters := counters (kernel h);
                 proxy := proxy (kernel h); proxy_fates := [Wg.hangs] |} h.
Example retry_skips_hysteria_restart :
  let first := _apply_delta example_sha (example_settings true false) with_guest hung_host in
  let second := _apply_delta example_sha (example_settings true false) with_guest first.2 in
  first.1 = Err SubprocessTimeoutError /\ second.1 = Ok tt /\
  hysteria_config second.2 = Some (_render_hysteria example_sha (example_settings true false) example_hysteria with_guest) /\
  proxy_serving (kernel second.2) = Some (_render_hysteria example_sha (example_settings true false) example_hysteria empty_state) /\
  _render_hysteria example_sha (example_settings true false) example_hysteria with_guest <>
    _render_hysteria example_sha (example_settings true false) example_hysteria empty_state.
Proof. split_and!; vm_compute; [reflexivity..|discriminate]. Qed.

(** ** What a driver's answers mean *)

Section Clients.
Context {St : Type} `{XrayDriverContract St}.
Implicit Types (st : St) (s : DesiredXrayState) (r : ClientRequest).

Lemma provision_active st s r resp st' :
  holds st s -> is_uuid (q_client_uuid r) -> drv_provision_client r st = (Ok resp, st') -> x_state resp = Wg.active ->
  offers st (q_profile_code r) = true /\ offers st' = offers st /\ x_applied_generation resp = q_generation r /\
  in_force st' (with_client (requested_client r) s).
Proof.
  intros Hh Hu Hp Ha. pose proof (provision_client_contract st s r Hh Hu) as Hc. rewrite Hp in Hc.
  destruct Hc as [Ho Hc]. destruct (offers st _); [|by destruct Hc].
  destruct Hc as [(? & ? & ?)|(Hf & _)]; [auto|congruence].
Qed.

Lemma revoke_revoked st s now r resp st' :
  holds st s -> drv_revoke_client now r st = (Ok resp, st') -> Wg.o_state resp = Wg.revoked ->
  offers st (q_profile_code r) = true /\ offers st' = offers st /\ Wg.o_applied_generation resp = q_generation r /\
  in_force st' (without_client (q_client_uuid r) s).
Proof.
  intros Hh Hp Ha. pose proof (revoke_client_contract st s now r Hh) as Hc. rewrite Hp in Hc.
  destruct Hc as [Ho Hc]. destruct (offers st _); [|by destruct Hc].
  destruct Hc as [(? & ? & ?)|(Hf & _)]; [auto|congruence].
Qed.
End Clients.

(** What a provision, a revoke and a reconcile say of each other: after a provision
    reported active the client reconciles as in sync, at the generation asked for;
    after a revoke reported revoked it reconciles as missing; and after either
    reports failure every client reconciles as it did before. *)
Definition relied_on {St} (provision : ClientRequest -> prog St exn ProvisionResponse)
    (revoke : Z -> ClientRequest -> prog St exn Wg.DeviceResponse)
    (reconcile : ClientRequest -> prog St exn Wg.ReconcileResponse) (st : St) (r : ClientRequest) (now : Z) : Prop :=
  (forall resp st', provision r st = (Ok resp, st') ->
     (x_state resp = Wg.active -> reconcile r st' = (Ok (response Wg.in_sync (Some (q_generation r)) None), st')) /\
     (x_state resp = Wg.failed -> forall q, is_uuid (q_client_uuid q) -> fst (reconcile q st') = fst (reconcile q st))) /\
  (forall resp st', revoke now r st = (Ok resp, st') ->
     (Wg.o_state resp = Wg.revoked -> reconcile r st' = (Ok (response Wg.drift_detected None None), st')) /\
     (Wg.o_state resp = Wg.failed -> forall q, is_uuid (q_client_uuid q) -> fst (reconcile q st') = fst (reconcile q st))).

Lemma contract_relied_on {St} `{XrayDriverContract St} (st : St) s r now :
  in_force st s -> is_uuid (q_client_uuid r) ->
  relied_on drv_provision_client drv_revoke_client drv_reconcile_client st r now.
Proof.
  intros Hf Hu. pose proof (in_force_holds _ _ Hf) as Hh.
  assert (Hsame : forall st' q, in_force st' s -> offers st' = offers st -> is_uuid (q_client_uuid q) ->
    fst (drv_reconcile_client q st') = fst (drv_reconcile_client q st)).
  { intros st' q Hf' Ho Hq. by rewrite !(reconcile_client_contract _ s), Ho. }
  split; intros resp st' Hp; split; intros Hs.
  - destruct (provision_active _ _ _ _ _ Hh Hu Hp Hs) as (Ho & Ho' & _ & Hf').
    rewrite (reconcile_client_contract _ _ _ Hf' Hu), Ho', Ho. unfold reconcile_answer. rewrite client_with.
    cbn. by rewrite Z.eqb_refl, bool_decide_eq_true_2.
  - intros q Hq. pose proof (provision_client_contract st s r Hh Hu) as Hc. rewrite Hp in Hc.
    destruct Hc as [Ho Hc]. destruct (offers st _); [|by destruct Hc].
    destruct Hc as [(? & _)|(_ & _ & _ & Hk)]; [congruence|]. by apply Hsame; [apply Hk|..].
  - destruct (revoke_revoked _ _ _ _ _ _ Hh Hp Hs) as (Ho & Ho' & _ & Hf').
    rewrite (reconcile_client_contract _ _ _ Hf' Hu), Ho', Ho. unfold reconcile_answer.
    by rewrite client_without, Z.eqb_refl.
  - intros q Hq. pose proof (revoke_client_contract st s now r Hh) as Hc. rewrite Hp in Hc.
    destruct Hc as [Ho Hc]. destruct (offers st _); [|by destruct Hc].
    destruct Hc as [(? & _)|(_ & _ & _ & Hk)]; [congruence|]. by apply Hsame; [apply Hk|..].
Qed.

Definition example_request : ClientRequest := {|
  q_client_uuid := 1234567890; q_profile_code := str "shadowsocks"; q_generation := 3 |}.

Definition example_fake (s : DesiredXrayState) : FakeXrayRunner := {|
  fx_state := s; fx_server_address := []; fx_sni := []; fx_profiles := profiles (example_settings false true);
  fx_fail_next := false |}.

(** C35: the answers of both of the agent's drivers can be relied on.  Of the native
    driver, on a host whose files and processes have a well-formed client set in
    force, and of the in-memory double: after a provision reported active the client
    reconciles as in sync, at the generation asked for; after a revoke reported
    revoked it reconciles as missing; and after either reports failure every client
    reconciles as it did before. *)
Theorem xray_answers_can_be_relied_on :
  (forall K (TK : XrayTool K) (TOk : XrayToolOk K) sha256_hex cfg (h : host K) s r now,
     (forall t, no_break (sha256_hex t)) -> settings_ok cfg -> settled sha256_hex cfg h s -> state_wf s ->
     is_uuid (q_client_uuid r) ->
     relied_on (provision_client sha256_hex cfg) (revoke_client sha256_hex cfg) (reconcile_client cfg) h r now) /\
  (forall f r now, state_wf (fx_state f) -> is_uuid (q_client_uuid r) ->
     relied_on fx_provision_client fx_revoke_client fx_reconcile_client f r now).
Proof.
  split.
  - intros K TK TOk sha256_hex cfg h s r now Hsha Hcfg Hset Hwf Hu.
    exact (@contract_relied_on _ (native_driver sha256_hex cfg) (native_contract sha256_hex Hsha cfg Hcfg) h s r now (conj Hset Hwf) Hu).
  - intros f r now Hwf Hu. exact (contract_relied_on f (fx_state f) r now (conj eq_refl Hwf) Hu).
Qed.

(** The client is provisioned on the native driver's host and on the double. *)
Lemma xray_answers_can_be_relied_on_witness :
  let h := snd (provision_client example_sha (example_settings true true) example_request (example_host true true [])) in
  let f := snd (fx_provision_client example_request (example_fake empty_state)) in
  reconcile_client (example_settings true true) example_request h = (Ok (response Wg.in_sync (Some 3) None), h) /\
  fx_reconcile_client example_request f = (Ok (response Wg.in_sync (Some 3) None), f).
Proof.
  intros h f. split.
  - destruct (proj1 xray_answers_can_be_relied_on process process_tool process_ok example_sha (example_settings true true)
      (example_host true true []) empty_state example_request 0 example_sha_ok (example_settings_ok true true)
      (proj1 (example_in_force true true [])) empty_wf) as [Hp _]; [done|].
    destruct (provision_client example_sha (example_settings true true) example_request (example_host true true [])) as [r h'] eqn:Hr.
    cbn [snd] in h. assert (exists resp, r = Ok resp /\ x_state resp = Wg.active) as (resp & -> & Ha).
    { change r with (fst (r, h')). rewrite <- Hr. eexists. split; vm_compute; reflexivity. }
    exact (proj1 (Hp resp h' eq_refl) Ha).
  - destruct (proj2 xray_answers_can_be_relied_on (example_fake empty_state) example_request 0) as [Hp _]; [apply empty_wf|done|].
    refine (proj1 (Hp {| x_state := Wg.active; x_applied_generation := 3; x_error_code := None;
      x_details := fx_response_common (example_inbound "shadowsocks" raw 10002 (Some (str "a2V5")) false)
                     (example_fake empty_state) |} f _) _); vm_compute; reflexivity.
Defined.

(** For any driver that keeps the contract, pruning to an expected list.
    When it reports success every expected client reconciles exactly as before,
    every other as missing; the counts add up to the clients there were; and
    pruning to the same list again changes nothing and removes nobody. *)
Theorem xray_prune_keeps_expected {St} `{XrayDriverContract St} (st : St) s expected resp st' :
  in_force st s -> drv_prune_clients expected st = (Ok resp, st') -> pr_state resp = pruned ->
  (forall q, is_uuid (q_client_uuid q) -> offers st (q_profile_code q) = true ->
     fst (drv_reconcile_client q st') =
     if bool_decide (q_client_uuid q ∈ expected.*1) then fst (drv_reconcile_client q st)
     else Ok (response Wg.drift_detected None None)) /\
  pr_removed resp + pr_kept resp = Z.of_nat (length (clients s)) /\
  drv_prune_clients expected st' =
    (Ok {| pr_state := pruned; pr_removed := 0; pr_kept := pr_kept resp; pr_error_code := None |}, st').
Proof.
  intros Hf Hp Hs. pose proof (prune_clients_contract st s expected Hf) as Hc. rewrite Hp in Hc.
  destruct Hc as [Ho [(_ & Hr & Hk & Hf')|(? & _)]]; [|congruence]. split; [|split].
  - intros q Hq Hoff. rewrite (reconcile_client_contract _ _ _ Hf' Hq), (reconcile_client_contract _ _ _ Hf Hq), Ho, Hoff.
    cbn [fst]. unfold reconcile_answer. rewrite client_survivors. by case_bool_decide.
  - lia.
  - rewrite (prune_nothing_contract _ _ _ Hf'), Hk; [done|apply survivors_twice].
Qed.

Lemma xray_prune_keeps_expected_witness :
  fst (fx_reconcile_client example_request (snd (fx_prune_clients [] (example_fake example_desired))))
    = Ok (response Wg.drift_detected None None).
Proof.
  destruct (xray_prune_keeps_expected (example_fake example_desired) example_desired []
    {| pr_state := pruned; pr_removed := 1; pr_kept := 0; pr_error_code := None |} (example_fake empty_state))
    as [Hq _].
  - split; [done|]. apply state_wf_with; [apply empty_wf|done].
  - vm_compute. reflexivity.
  - reflexivity.
  - apply (Hq example_request); [done|]. vm_compute. reflexivity.
Defined.

(** ** Two drivers, the same answers *)

Inductive operation :=
| Provision (r : ClientRequest) | Revoke (now : Z) (r : ClientRequest)
| Prune (expected : list (Z * text)) | Reconcile (r : ClientRequest).

(** What of an answer the control plane acts on. *)
Inductive answer :=
| Changed (state : op_state) (applied_generation : Z)
| Removed (state : prune_state) (removed kept : Z)
| Seen (resp : Wg.ReconcileResponse).

Section Perform.
Context {St : Type} `{XrayDriver St}.

Definition perform (o : operation) : prog St exn answer :=
  match o with
  | Provision r => resp ← drv_provision_client r; mret (Changed (x_state resp) (x_applied_generation resp))
  | Revoke now r => resp ← drv_revoke_client now r; mret (Changed (Wg.o_state resp) (Wg.o_applied_generation resp))
  | Prune expected => resp ← drv_prune_clients expected; mret (Removed (pr_state resp) (pr_removed resp) (pr_kept resp))
  | Reconcile r => resp ← drv_reconcile_client r; mret (Seen resp)
  end.

Fixpoint perform_all (os : list operation) (st : St) : list (result exn answer) * St :=
  match os with
  | [] => ([], st)
  | o :: os' => let '(a, st') := perform o st in let '(l, st'') := perform_all os' st' in (a :: l, st'')
  end.
End Perform.

(** Not a failure of the machine: done, answered, or refused as a request. *)
Definition went_through (a : result exn answer) : bool :=
  match a with
  | Ok (Changed Wg.failed _) | Ok (Removed prune_failed _ _) => false
  | Ok _ => true
  | Err e => bool_decide (e = ValidationError)
  end.

Definition well_asked (o : operation) : Prop :=
  match o with Provision r | Reconcile r => is_uuid (q_client_uuid r) | _ => True end.

(** The answer and the set afterwards, when nothing fails. *)
Definition expected_answer (offered : text -> bool) (s : DesiredXrayState) (o : operation) :
    result exn answer * DesiredXrayState :=
  match o with
  | Provision r => if offered (q_profile_code r)
                   then (Ok (Changed Wg.active (q_generation r)), with_client (requested_client r) s)
                   else (Err ValidationError, s)
  | Revoke _ r => if offered (q_profile_code r)
                  then (Ok (Changed Wg.revoked (q_generation r)), without_client (q_client_uuid r) s)
                  else (Err ValidationError, s)
  | Prune expected =>
      let n := Z.of_nat (length (clients (survivors expected s))) in
      (Ok (Removed pruned (Z.of_nat (length (clients s)) - n) n), survivors expected s)
  | Reconcile r => (Ok (Seen (reconcile_answer (offered (q_profile_code r)) s r)), s)
  end.

Lemma perform_expected {St} `{XrayDriverContract St} (st : St) s o a st' :
  in_force st s -> well_asked o -> perform o st = (a, st') -> went_through a = true ->
  offers st' = offers st /\ a = fst (expected_answer (offers st) s o) /\
  in_force st' (snd (expected_answer (offers st) s o)).
Proof.
  intros Hf Hw Hp Ha. pose proof (in_force_holds _ _ Hf) as Hh.
  destruct o as [r|now r|expected|r]; unfold perform, mbind, prog_bind, mret, prog_ret in Hp; cbn [expected_answer].
  - pose proof (provision_client_contract st s r Hh Hw) as Hc. unfold client_change in Hc.
    destruct (drv_provision_client r st) as [[resp|e] st1]; injection Hp as <- <-; destruct Hc as [Ho Hc];
      destruct (offers st (q_profile_code r)).
    + destruct Hc as [(-> & -> & ?)|(Hfail & _)]; [done|]. by rewrite Hfail in Ha.
    + by destruct Hc.
    + cbn in Ha. apply bool_decide_eq_true in Ha. destruct Hc as [[] _]; congruence.
    + destruct Hc as [[= ->] ->]. done.
  - pose proof (revoke_client_contract st s now r Hh) as Hc. unfold client_change in Hc.
    destruct (drv_revoke_client now r st) as [[resp|e] st1]; injection Hp as <- <-; destruct Hc as [Ho Hc];
      destruct (offers st (q_profile_code r)).
    + destruct Hc as [(-> & -> & ?)|(Hfail & _)]; [done|]. by rewrite Hfail in Ha.
    + by destruct Hc.
    + cbn in Ha. apply bool_decide_eq_true in Ha. destruct Hc as [[] _]; congruence.
    + destruct Hc as [[= ->] ->]. done.
  - pose proof (prune_clients_contract st s expected Hf) as Hc. unfold prune_change in Hc.
    destruct (drv_prune_clients expected st) as [[resp|e] st1]; injection Hp as <- <-; destruct Hc as [Ho Hc].
    + destruct Hc as [(-> & -> & -> & ?)|(Hfail & _)]; [done|]. by rewrite Hfail in Ha.
    + cbn in Ha. apply bool_decide_eq_true in Ha. destruct Hc as [[] _]; congruence.
  - rewrite (reconcile_client_contract _ _ _ Hf Hw) in Hp. by injection Hp as <- <-.
Qed.

Fixpoint expected_answers (offered : text -> bool) (s : DesiredXrayState) (os : list operation) :
    list (result exn answer) :=
  match os with
  | [] => []
  | o :: os' => fst (expected_answer offered s o) :: expected_answers offered (snd (expected_answer offered s o)) os'
  end.

Lemma perform_all_expected {St} `{XrayDriverContract St} os (st : St) s :
  in_force st s -> Forall well_asked os -> forallb went_through (fst (perform_all os st)) = true ->
  fst (perform_all os st) = expected_answers (offers st) s os.
Proof.
  revert st s. induction os as [|o os IH]; intros st s Hf Hw Hok; [done|]. cbn [perform_all expected_answers] in *.
  apply Forall_cons in Hw as [Ho Hw]. destruct (perform o st) as [a st1] eqn:Hp.
  specialize (IH st1). destruct (perform_all os st1) as [l st2]. cbn [fst] in *. cbn in Hok.
  apply andb_true_iff in Hok as [Ha Hl].
  destruct (perform_expected st s o a st1 Hf Ho Hp Ha) as (Hoff & -> & Hf1).
  f_equal. rewrite <- Hoff in *. by apply IH.
Qed.

(** The test double stands for the real driver.  Two drivers that keep the
    contract, offering the same profiles and with the same client set in force,
    give the same answers to any sequence of operations as long as neither fails
    to apply a change. *)
Theorem xray_drivers_agree {A B} `{XrayDriverContract A} `{XrayDriverContract B} (a : A) (b : B) s os :
  in_force a s -> in_force b s -> (forall code_, offers a code_ = offers b code_) -> Forall well_asked os ->
  forallb went_through (fst (perform_all os a)) = true -> forallb went_through (fst (perform_all os b)) = true ->
  fst (perform_all os a) = fst (perform_all os b).
Proof.
  intros Ha Hb Ho Hw Hoka Hokb. rewrite (perform_all_expected os a s), (perform_all_expected os b s) by done.
  clear - Ho. revert s. induction os as [|o os IH]; intros s; [done|]. cbn [expected_answers].
  assert (He : expected_answer (offers a) s o = expected_answer (offers b) s o)
    by (destruct o; cbn; by rewrite ?Ho). by rewrite He, IH.
Qed.

Definition example_operations : list operation :=
  [Provision example_request; Reconcile example_request;
   Provision {| q_client_uuid := 77; q_profile_code := str "vmess-ws"; q_generation := 1 |};
   Provision {| q_client_uuid := 78; q_profile_code := str "no-such-profile"; q_generation := 1 |};
   Prune [(77, str "vmess-ws")]; Reconcile example_request; Revoke 0 example_request].

Lemma xray_drivers_agree_witness :
  fst (@perform_all _ (native_driver example_sha (example_settings false true)) example_operations
         (example_host false true [])) =
  fst (perform_all example_operations (example_fake empty_state)).
Proof.
  apply (@xray_drivers_agree _ _ _
    (native_contract example_sha example_sha_ok (example_settings false true) (example_settings_ok false true))
    _ _ _ _ empty_state).
  - apply (example_in_force false true []).
  - split; [done|apply empty_wf].
  - intros code_. cbn [offers fake_contract]. rewrite fx_offers_existsb. reflexivity.
  - by repeat constructor.
  - vm_compute. reflexivity.
  - vm_compute. reflexivity.
Defined.

(** ** Who Hysteria2 admits *)

Lemma lower_uuid u : is_uuid u -> lower <$> str_uuid u = str_uuid u.
Proof.
  intros Hu. assert (Hl : Forall (fun c => lower c = c) (str_uuid u)).
  { apply str_uuid_Forall; [done| |done]. intros d Hd.
    assert (Hc : d ∈ seqZ 0 16) by (apply elem_of_seqZ; lia). clear Hd. revert d Hc.
    apply Forall_forall. by repeat constructor. }
  induction Hl as [|c t Hc Hl IH]; [done|]. rewrite fmap_cons. by f_equal.
Qed.

Section Authorize.
Context {K : Type} `{XrayTool K} (sha256_hex : text -> text) (cfg : Settings) (p : HysteriaServerProfile).
Context (Hp : hysteria_profile cfg = Some p) (h : host K) (s : DesiredXrayState).
Context (Hr : read_last_known_good (store h) = Some s).

(** Whoever is let in is recorded for the Hysteria2 profile. *)
Lemma authorized_recorded auth label h' :
  authorize_hysteria sha256_hex cfg auth h = (Ok (Some label), h') ->
  h' = h /\ exists u c user, client u s = Some c /\ protocol_profile_code c = h_profile_code p /\
    label = client_email sha256_hex u /\ lower <$> user = str_uuid u /\ (auth = user \/ auth = user ++ str ":" ++ user).
Proof using Hp Hr.
  unfold authorize_hysteria, mret, prog_ret. rewrite Hp. intros Ha.
  destruct (partition ":"%char auth) as [[user found] password] eqn:Hpart.
  destruct (found && negb (bool_decide (user = password))) eqn:Hsep; [by simplify_eq|].
  destruct (uuid_of_text user) as [u|]; [|by simplify_eq]. case_bool_decide as Hl; cbn [negb] in Ha; [|by simplify_eq].
  rewrite (bind_ok read_state _ h s h) in Ha by (unfold read_state; by rewrite Hr).
  destruct (client u s) as [c|] eqn:Hc; [|by simplify_eq]. case_bool_decide as Hcode; [|by simplify_eq].
  injection Ha as <- <-.
  split; [done|]. exists u, c, user. repeat split; try done.
  apply partition_inv in Hpart. destruct found.
  - apply andb_false_iff in Hsep as [|Hsep]; [done|]. apply negb_false_iff, bool_decide_eq_true in Hsep as <-. by right.
  - by left.
Qed.

(** Every recorded client is let in, with its UUID once or as name and password. *)
Lemma recorded_authorized u c :
  is_uuid u -> client u s = Some c -> protocol_profile_code c = h_profile_code p ->
  authorize_hysteria sha256_hex cfg (str_uuid u) h = (Ok (Some (client_email sha256_hex u)), h) /\
  authorize_hysteria sha256_hex cfg (str_uuid u ++ str ":" ++ str_uuid u) h = (Ok (Some (client_email sha256_hex u)), h).
Proof using Hp Hr.
  intros Hu Hc Hcode. unfold authorize_hysteria. rewrite Hp. assert (Hcolon : ":"%char ∉ str_uuid u) by (by apply str_uuid_not_elem).
  change (str ":" ++ str_uuid u) with (":"%char :: str_uuid u). rewrite partition_none, partition_app by done.
  rewrite (bool_decide_eq_true_2 (str_uuid u = str_uuid u)) by done. cbn [andb negb].
  rewrite uuid_of_str, lower_uuid, bool_decide_eq_true_2 by done. cbn [negb].
  rewrite (bind_ok read_state _ h s h) by (unfold read_state; by rewrite Hr). rewrite Hc, bool_decide_eq_true_2 by done.
  done.
Qed.
End Authorize.

(** Hysteria2 asks the agent who may connect.  The agent lets in exactly the
    clients recorded for the Hysteria2 profile, whatever the case of the letters:
    whoever is let in presented such a client's UUID, alone or as both name and
    password, and is known by the label of that client; and each of them is let
    in either way. *)
Theorem hysteria_admits_recorded_clients {K} `{XrayTool K} sha256_hex cfg p (h : host K) s :
  hysteria_profile cfg = Some p -> read_last_known_good (store h) = Some s ->
  (forall auth label h', authorize_hysteria sha256_hex cfg auth h = (Ok (Some label), h') ->
     h' = h /\ exists u c user, client u s = Some c /\ protocol_profile_code c = h_profile_code p /\
       label = client_email sha256_hex u /\ lower <$> user = str_uuid u /\
       (auth = user \/ auth = user ++ str ":" ++ user)) /\
  (forall u c, is_uuid u -> client u s = Some c -> protocol_profile_code c = h_profile_code p ->
     authorize_hysteria sha256_hex cfg (str_uuid u) h = (Ok (Some (client_email sha256_hex u)), h) /\
     authorize_hysteria sha256_hex cfg (str_uuid u ++ str ":" ++ str_uuid u) h =
       (Ok (Some (client_email sha256_hex u)), h)).
Proof.
  intros Hp Hr. split; [intros auth label h'; by apply authorized_recorded|intros u c; by apply recorded_authorized].
Qed.

Definition hysteria_host : host process := {|
  store := {| last_known_good := Some (render_state_json {| clients := [
                {| client_uuid := 99; protocol_profile_code := str "hysteria2"; generation := 1 |}; example_client] |});
              candidate := None; validate_scratch := None; xray_config := None |};
  hysteria_config := None; lingering := []; linger_task := false;
  kernel := {| users := []; fates := []; clock := 0; counters := []; proxy := None; proxy_fates := [] |} |}.

Lemma hysteria_admits_recorded_clients_witness :
  fst (authorize_hysteria example_sha (example_settings true true) (str_uuid 99) hysteria_host)
    = Ok (Some (client_email example_sha 99)).
Proof.
  destruct (hysteria_admits_recorded_clients example_sha (example_settings true true) example_hysteria hysteria_host
    {| clients := [{| client_uuid := 99; protocol_profile_code := str "hysteria2"; generation := 1 |}; example_client] |})
    as [_ Hin].
  - reflexivity.
  - vm_compute. reflexivity.
  - destruct (Hin 99 {| client_uuid := 99; protocol_profile_code := str "hysteria2"; generation := 1 |}) as [-> _]; done.
Defined.

(** ** Live updates *)

Section Live.
Context (sha256_hex : text -> text).

Lemma empty_clients_inbound p cs cs' cert key :
  transport p <> hysteria ->
  empty_clients (inbound sha256_hex p cs cert key) = empty_clients (inbound sha256_hex p cs' cert key).
Proof.
  intros Ht. unfold inbound, protocol_settings. rewrite bool_decide_eq_false_2 by done.
  destruct (vmess p); [reflexivity|]. by destruct (ss2022_server_key p).
Qed.

Lemma shape_of l rest (t := dumps_indent (JObj ((str "inbounds", JArr l) :: rest))) :
  json_wf (JObj ((str "inbounds", JArr l) :: rest)) ->
  _shape_without_clients t = Ok (Some (dumps (sort_keys (JObj ((str "inbounds", JArr (empty_clients <$> l)) :: rest))))).
Proof.
  intros Hwf. unfold _shape_without_clients, t. rewrite loads_dumps_indent by done.
  cbn [dict_get]. rewrite decide_True by done. cbn [default id]. rewrite dict_set_head; [done|].
  apply json_wf_obj in Hwf as [Hnd _]. by apply NoDup_cons in Hnd as [? _].
Qed.

(** Which clients there are does not show in the shape. *)
Lemma shape_same s s' ps o :
  (forall p, p ∈ ps -> transport p = hysteria -> clients_for (profile_code p) s = clients_for (profile_code p) s') ->
  _shape_without_clients (render_xray_server_config sha256_hex s ps o) =
  _shape_without_clients (render_xray_server_config sha256_hex s' ps o).
Proof.
  intros Hsame.
  unfold render_xray_server_config. etrans; [apply shape_of, (server_config_wf sha256_hex s ps o)|].
  symmetry. etrans; [apply shape_of, (server_config_wf sha256_hex s' ps o)|].
  do 6 f_equal. symmetry. rewrite !fmap_app. do 3 f_equal. rewrite <- !list_fmap_compose. apply list_fmap_ext. intros n p Hn.
  apply list_elem_of_lookup_2 in Hn. cbn. destruct (decide (transport p = hysteria)) as [Ht|Ht].
  - by rewrite (Hsame p).
  - by apply empty_clients_inbound.
Qed.
End Live.

(** With live updates on, a change of clients (of inbounds other than Xray's
    own Hysteria2) is sent to the running process, and Xray is restarted only if
    that fails; and however the change went through, every inbound then accepts
    exactly the clients it would accept after a restart with the new file. *)
Theorem xray_live_update_matches_restart {K} `{TK : XrayTool K} `{!XrayToolOk K} sha256_hex cfg s s' (h : host K) :
  NoDup (profile_code <$> profiles cfg) -> live_updates cfg = true ->
  xray_config (store h) = Some (_render sha256_hex cfg s') ->
  (forall p, p ∈ profiles cfg -> transport p = hysteria ->
     clients_for (profile_code p) s = clients_for (profile_code p) s') ->
  let change := _apply_xray cfg (Some (_render sha256_hex cfg s)) (_render sha256_hex cfg s') in
  change h = try_except (_apply_clients_live (_render sha256_hex cfg s'))
               (fun e => match e with ApplyError => Some (_reload;; mret ∅) | _ => None end) h /\
  (forall gone h1 h2, change h = (Ok gone, h1) -> _reload h = (Ok tt, h2) ->
     forall p, p ∈ profiles cfg -> transport p <> hysteria ->
       serving (kernel h1) (profile_code p) = serving (kernel h2) (profile_code p)).
Proof.
  intros Hc Hlive Hx Hsame change. split.
  - unfold change, _apply_xray. rewrite Hlive. cbn [negb].
    destruct (shape_rendered sha256_hex s' (profiles cfg) (render_options cfg)) as [t Ht].
    unfold _render. rewrite (shape_same sha256_hex s s'), Ht by done.
    rewrite (bind_ok _ _ h (Some t) h), (bind_ok _ _ h (Some t) h), bool_decide_eq_true_2 by done. done.
  - intros gone h1 h2 H1 H2 p Hp Ht.
    pose proof (wp_elim _ _ _ _ _ (apply_xray_spec sha256_hex cfg Hc _ s' h Hx (readable_render sha256_hex cfg s)) H1) as [_ Hs1].
    pose proof (wp_elim _ _ _ _ _ (reload_spec sha256_hex cfg Hc s' h Hx) H2) as (_ & _ & _ & Hs2).
    by rewrite (Hs1 p Hp Ht), (Hs2 p Hp Ht).
Qed.

(** One client in force, another file to come. *)
Definition live_host : host process :=
  with_store (write_xray_config_atomically (_render example_sha (example_settings true true) example_desired))
    (example_host true true []).

Lemma xray_live_update_matches_restart_witness :
  serving (kernel (snd (_apply_xray (example_settings true true) (Some (_render example_sha (example_settings true true) empty_state))
     (_render example_sha (example_settings true true) example_desired) live_host))) (str "shadowsocks") =
  serving (kernel (snd (_reload live_host))) (str "shadowsocks").
Proof.
  destruct (xray_live_update_matches_restart example_sha (example_settings true true) empty_state example_desired live_host
    (codes_distinct _ (sok_profiles _ (example_settings_ok true true)))) as [_ Hs].
  - reflexivity.
  - reflexivity.
  - by repeat (intros p [->|H]%elem_of_cons; [done|revert p H]); intros p ?%not_elem_of_nil.
  - destruct (_apply_xray _ _ _ live_host) as [r1 h1] eqn:H1. destruct (_reload live_host) as [r2 h2] eqn:H2.
    assert (Hr1 : r1 = Ok ∅) by (change r1 with (fst (r1, h1)); rewrite <- H1; vm_compute; reflexivity).
    assert (Hr2 : r2 = Ok tt) by (change r2 with (fst (r2, h2)); rewrite <- H2; vm_compute; reflexivity).
    subst r1 r2. cbn [snd].
    apply (Hs ∅ h1 h2 eq_refl eq_refl (example_inbound "shadowsocks" raw 10002 (Some (str "a2V5")) false)); [|done].
    right. by left.
Defined.

(** ** Start-up *)

Section Resync.
Context {K : Type} `{TK : XrayTool K} `{TOk : !XrayToolOk K} (sha256_hex : text -> text) (cfg : Settings).
Context (Hcodes : NoDup (profile_code <$> profiles cfg)).
Implicit Types (h : host K) (s : DesiredXrayState).
Abbreviation render := (_render sha256_hex cfg).

(** What a resync leaves behind. *)
Definition resync_outcome h s (r : result exn bool) h' : Prop :=
  last_known_good (store h') = last_known_good (store h) /\
  match r with
  | Ok moved =>
      xray_config (store h') = Some (render s) /\ hysteria_of sha256_hex cfg h' s /\
      if moved then serves sha256_hex cfg h' s
      else xray_config (store h) = Some (render s) /\ serving (kernel h') = serving (kernel h)
  | Err ValidationError =>
      xray_config (store h') = xray_config (store h) /\ hysteria_config h' = hysteria_config h /\
      serving (kernel h') = serving (kernel h)
  | Err ApplyError =>
      xray_config (store h') = xray_config (store h) \/
      xray_config (store h') = Some (render s) /\ (xray_config (store h) = None \/ serves sha256_hex cfg h' s)
  | Err SubprocessTimeoutError => True
  | Err _ => False
  end.

(** A reload of whatever file there is. *)
Lemma reload_any h :
  wp _reload (fun r h' => same_files h h' /\
    match r with Ok _ => True | Err e => e = SubprocessTimeoutError \/ e = ApplyError end) h.
Proof using TOk.
  unfold _reload. apply wp_bind. eapply wp_mono; [apply run_or_spec|]. cbn beta.
  intros [out|e] h' (Hf & _ & _ & _ & Hr); unfold wp; cbn; auto.
Qed.

(** The reload of the new file, the old one put back if it fails. *)
Lemma resync_reload_spec previous s h :
  xray_config (store h) = Some (render s) ->
  wp (try_except _reload
        (fun e => match e with
                  | ApplyError =>
                      Some (match previous with
                            | Some t => modify (with_store (write_xray_config_atomically t));; _reload
                            | None => mret tt
                            end;; raise ApplyError)
                  | _ => None
                  end))
    (fun r h' => last_known_good (store h') = last_known_good (store h) /\
       match r with
       | Ok _ => xray_config (store h') = Some (render s) /\ serves sha256_hex cfg h' s
       | Err ApplyError => xray_config (store h') = previous \/ xray_config (store h') = Some (render s) /\ previous = None
       | Err e => e = SubprocessTimeoutError
       end) h.
Proof using Hcodes TOk.
  intros Hx. apply wp_try. eapply wp_mono; [by apply (reload_spec sha256_hex cfg Hcodes s)|]. cbn beta.
  intros [[]|e] h1 (Hf & _ & _ & Hr1).
  { split; [apply Hf|]. split; [|done]. by rewrite (same_xray _ _ Hf). }
  destruct Hr1 as [->| ->]; [split; [apply Hf|done]|]. destruct previous as [t|].
  - apply wp_bind, wp_modify. set (h2 := with_store _ h1). eapply wp_mono; [apply (reload_any h2)|]. cbn beta.
    intros [[]|e] h3 [H3 Hr3]; unfold wp; cbn; (split; [by rewrite (same_good _ _ H3); apply Hf|]).
    + left. by rewrite (same_xray _ _ H3).
    + destruct Hr3 as [->| ->]; [done|]. left. by rewrite (same_xray _ _ H3).
  - unfold wp. cbn. split; [apply Hf|]. right. split; [|done]. exact (eq_trans (same_xray _ _ Hf) Hx).
Qed.

Lemma resync_spec s h :
  read_last_known_good (store h) = Some s -> wp (_resync_served_config sha256_hex cfg) (resync_outcome h s) h.
Proof using Hcodes TOk.
  intros Hr. unfold _resync_served_config. apply wp_bind. unfold wp at 1, read_state. rewrite Hr. cbn [fst snd].
  apply wp_get. case_bool_decide as Hm.
  - apply wp_bind. eapply wp_mono; [apply apply_hysteria_spec|]. cbn beta.
    intros [[]|e] h1 (Hss & Hk & _ & _ & Hr1); unfold wp; cbn; (split; [apply Hss|]).
    + rewrite (ss_xray _ _ Hss). done.
    + destruct Hr1 as [->| ->]; [done|]. left. apply Hss.
  - apply wp_bind. eapply wp_mono; [apply validate_spec|]. cbn beta. intros [[]|e] h1 (Hf & Hk & _ & _ & Hr1).
    2: { split; [apply Hf|]. destruct Hr1 as [->| ->]; [done|]. split; [apply Hf|]. split; [apply Hf|done]. }
    apply wp_get. apply wp_modify. set (h2 := with_store _ h1). apply wp_bind.
    eapply wp_mono; [by apply (resync_reload_spec _ s h2)|]. cbn beta. intros [[]|e] h3 [Hg3 Hr3].
    2: { split; [rewrite Hg3; apply Hf|]. rewrite (same_xray _ _ Hf) in Hr3. destruct e; try done. naive_solver. }
    destruct Hr3 as [Hx3 Hs3]. apply wp_bind. eapply wp_mono; [apply apply_hysteria_spec|]. cbn beta.
    intros [[]|e] h4 (Hss & Hk4 & _ & _ & Hr4); unfold wp; cbn;
      (split; [rewrite (ss_good _ _ Hss), Hg3; apply Hf|]).
    + rewrite (ss_xray _ _ Hss). split; [done|]. split; [done|]. by eapply serves_kernel.
    + destruct Hr4 as [->| ->]; [done|]. right. rewrite (ss_xray _ _ Hss). split; [done|]. right. by eapply serves_kernel.
Qed.
End Resync.

(** Bringing what is served up to date when the agent starts.  Done, both
    files are what the recorded set renders to, and if Xray's had to change the
    process serves the set; a configuration Xray refuses changes nothing; if Xray
    does not come up with the new file the old file is back, unless there was
    none.  The record never changes. *)
Theorem xray_resync_serves_the_record {K} `{TK : XrayTool K} `{!XrayToolOk K} sha256_hex cfg s (h : host K) :
  NoDup (profile_code <$> profiles cfg) -> read_last_known_good (store h) = Some s ->
  let '(r, h') := _resync_served_config sha256_hex cfg h in
  last_known_good (store h') = last_known_good (store h) /\
  match r with
  | Ok moved =>
      xray_config (store h') = Some (_render sha256_hex cfg s) /\ hysteria_of sha256_hex cfg h' s /\
      if moved then serves sha256_hex cfg h' s
      else xray_config (store h) = Some (_render sha256_hex cfg s) /\ serving (kernel h') = serving (kernel h)
  | Err ValidationError =>
      xray_config (store h') = xray_config (store h) /\ hysteria_config h' = hysteria_config h /\
      serving (kernel h') = serving (kernel h)
  | Err ApplyError =>
      xray_config (store h') = xray_config (store h) \/
      xray_config (store h') = Some (_render sha256_hex cfg s) /\
        (xray_config (store h) = None \/ serves sha256_hex cfg h' s)
  | Err SubprocessTimeoutError => True
  | Err _ => False
  end.
Proof.
  intros Hc Hr. pose proof (wp_run _ _ _ (resync_spec sha256_hex cfg Hc s h Hr)) as Ho.
  destruct (_resync_served_config sha256_hex cfg h) as [r h']. exact Ho.
Qed.

Lemma xray_resync_serves_the_record_witness :
  let '(r, h') := _resync_served_config example_sha (example_settings true true) hysteria_host in
  r = Ok true /\ serves example_sha (example_settings true true) h'
    {| clients := [{| client_uuid := 99; protocol_profile_code := str "hysteria2"; generation := 1 |}; example_client] |}.
Proof.
  pose proof (xray_resync_serves_the_record example_sha (example_settings true true)
    {| clients := [{| client_uuid := 99; protocol_profile_code := str "hysteria2"; generation := 1 |}; example_client] |}
    hysteria_host (codes_distinct _ (sok_profiles _ (example_settings_ok true true)))
    ltac:(vm_compute; reflexivity)) as Ho.
  destruct (_resync_served_config _ _ _) as [r h'] eqn:Hr.
  assert (Hok : r = Ok true) by (change r with (fst (r, h')); rewrite <- Hr; vm_compute; reflexivity).
  subst r. split; [done|]. apply Ho.
Defined.

(** When there was no file and Xray does not start with the first one, the file
    stays: the next resync takes it for served and starts nothing. *)
Theorem failed_first_start_is_taken_for_served :
  let h0 := with_kernel {| users := []; fates := [Wg.refuses; Wg.works]; clock := 0; counters := [];
                           proxy := None; proxy_fates := [] |} hysteria_host in
  let '(r1, h1) := _resync_served_config example_sha (example_settings true true) h0 in
  let '(r2, h2) := _resync_served_config example_sha (example_settings true true) h1 in
  r1 = Err ApplyError /\ r2 = Ok false /\ users (kernel h2) = [] /\ fates (kernel h2) = [Wg.works].
Proof. vm_compute. done. Qed.

(** ** Removed clients are cut off *)

Section Linger.
Context {K : Type} `{TK : XrayTool K} `{TOk : !XrayToolOk K}.
Implicit Types (h : host K).











End Linger.


Definition lingering_host : host process := {|
  store := store hysteria_host; hysteria_config := None;
  lingering := [(str "someone", {| removed_at := 0; baseline := Some 10 |})]; linger_task := true;
  kernel := {| users := []; fates := [Wg.works]; clock := 5000; counters := [(str "someone", 25)]; proxy := None;
              proxy_fates := [] |} |}.


(** A restart that fails is not tried again: the clients are forgotten first. *)
Theorem failed_cut_off_is_forgotten :
  let h := with_kernel {| users := [(str "vless-xhttp-tls", [str "someone"])]; fates := [Wg.refuses; Wg.works];
                          clock := 5000; counters := [(str "someone", 25)]; proxy := None; proxy_fates := [] |} lingering_host in
  let '(r, h') := _cut_off_lingering 33 h in
  r = Ok tt /\ lingering h' = [] /\ fates (kernel h') = [Wg.works] /\
  users (kernel h') = [(str "vless-xhttp-tls", [str "someone"])].
Proof. vm_compute. done. Qed.

(** ** What an interrupted change left behind *)

(** The files may list clients the record does not have, after a change whose
    subprocess hung or an agent that died halfway.  A prune that reports success
    has then either put record, files and process to the expected clients, or
    found nobody listed who is neither expected nor recorded. *)
Theorem xray_prune_clears_leftovers {K} `{TK : XrayTool K} `{!XrayToolOk K} sha256_hex cfg (h : host K) s f expected resp h' :
  (forall t, no_break (sha256_hex t)) -> settings_ok cfg -> state_wf s -> Forall is_uuid expected.*1 ->
  listing sha256_hex cfg h s f ->
  prune_clients sha256_hex cfg expected h = (Ok resp, h') -> pr_state resp = pruned ->
  native_in_force sha256_hex cfg h' (survivors expected s) \/
  (h' = h /\ survivors expected s = s /\
   forall p c, p ∈ profiles cfg -> c ∈ clients_for (profile_code p) f ->
     client_uuid c ∈ expected.*1 \/ client_uuid c ∈ uuids s).
Proof.
  intros Hsha Hcfg Hwf Hexp Hl Hp Hs.
  assert (Hh : native_holds h s).
  { split; [apply Hl|]. split; [done|]. rewrite (ls_xray _ _ _ _ _ Hl). apply readable_render. }
  unfold prune_clients in Hp. rewrite (bind_ok _ _ _ _ _ (xray_read_state _ _ Hh)) in Hp.
  destruct (unaccounted_spec sha256_hex Hsha cfg Hcfg h s f expected.*1 Hl) as (found & Hf & _ & Hall).
  rewrite (bind_ok _ _ _ _ _ Hf) in Hp.
  change (filter _ (clients s)) with (clients (survivors expected s)) in Hp.
  destruct (andb _ _) eqn:Hnone.
  - apply andb_true_iff in Hnone as [Hz%Z.eqb_eq Hnone%bool_decide_eq_true]. injection Hp as <- <-. right.
    split; [done|]. split; [by apply survivors_all|]. intros p c Hin Hc.
    assert (Hu : is_uuid (client_uuid c)).
    { pose proof (ls_ok _ _ _ _ _ Hl) as Hok. unfold state_ok in Hok. rewrite Forall_forall in Hok. apply Hok.
      by apply list_elem_of_filter in Hc as [_ Hc]. }
    destruct (Hall p (str_uuid (client_uuid c)) Hin) as [Hd|[Hd|Hd]].
    + apply list_elem_of_fmap. by exists c.
    + subst found. by apply not_elem_of_empty in Hd.
    + left. apply list_elem_of_fmap in Hd as (u & He & Hd). rewrite Forall_forall in Hexp.
      apply str_uuid_inj in He as ->; [done|done|by apply Hexp].
    + right. apply list_elem_of_fmap in Hd as (c' & He & Hd). destruct Hwf as [Hok _]. unfold state_ok in Hok.
      rewrite Forall_forall in Hok. apply str_uuid_inj in He as ->; [by apply list_elem_of_fmap_2|done|by apply Hok].
  - left. change {| clients := clients (survivors expected s) |} with (survivors expected s) in Hp.
    eapply wp_elim in Hp; [|apply (native_apply sha256_hex cfg Hcfg _ _ s); [done|by apply state_wf_survivors]].
    cbn beta iota in Hp. destruct Hp as [[_ ?]|[-> _]]; [done|by cbn in Hs].
Qed.

Lemma xray_prune_clears_leftovers_witness :
  listing example_sha (example_settings true true) live_host empty_state example_desired /\
  native_in_force example_sha (example_settings true true)
    (snd (prune_clients example_sha (example_settings true true) [] live_host)) empty_state.
Proof.
  pose proof (proj1 (example_in_force true true [])) as He.
  assert (Hl : listing example_sha (example_settings true true) live_host empty_state example_desired).
  { split.
    - exact (st_recorded _ _ _ _ He).
    - apply example_desired_ok.
    - reflexivity.
    - intros p Hp. pose proof (st_hysteria _ _ _ _ He p Hp) as Hh. injection Hp as <-. exact Hh. }
  split; [exact Hl|].
  destruct (prune_clients _ _ [] live_host) as [r h'] eqn:Hr.
  assert (Hok : match r with Ok resp => pr_state resp = pruned /\ pr_removed resp = 1 | Err _ => False end)
    by (change r with (fst (r, h')); rewrite <- Hr; vm_compute; split; reflexivity).
  destruct r as [resp|]; [|destruct Hok].
  destruct (xray_prune_clears_leftovers example_sha (example_settings true true) live_host empty_state example_desired []
    resp h' example_sha_ok (example_settings_ok true true) empty_wf ltac:(by apply Forall_nil) Hl Hr (proj1 Hok))
    as [Hf|(_ & _ & Hn)]; [exact Hf|].
  destruct (Hn (example_inbound "shadowsocks" raw 10002 (Some (str "a2V5")) false) example_client) as [H|H].
  - right. left.
  - apply list_elem_of_filter. split; [reflexivity|left].
  - destruct (not_elem_of_nil _ H).
  - destruct (not_elem_of_nil _ H).
Defined.
End XrayServing.
