(* ===== verification/Usage.v ===== *)
(** * Traffic accounting

    Models [nebula_api/usage/service.py] (the running totals) and [usage/counters.py]
    (keeping them across changes that restart a serving process).  The reading of a server's counters and
    the change itself are calls to a VPN agent: they are programs of an
    arbitrary world, with the exceptions the agent client raises. *)

From stdpp Require Import sorting.
From S2P Require Import Prelude PyText.

Module Usage.

(** ** Running totals (usage/service.py, models/usage.py)

    Instants are integers.  A row is found by its protocol and identity; its
    [updated_at] column, which nothing here reads, is left out. *)

Record UsageSample := {
  protocol : text;
  identity : text;
  s_rx_bytes : Z;
  s_tx_bytes : Z;
  sampled_at : Z;
  collected_at : Z;
}.

Record CredentialUsage := {
  rx_bytes : Z;
  tx_bytes : Z;
  last_rx_reading : Z;
  last_tx_reading : Z;
  last_collected_at : option Z;
  last_active_at : option Z;
}.

Abbreviation usage_key := (text * text)%type.
Abbreviation ledger := (gmap usage_key CredentialUsage).

Definition key_of (s : UsageSample) : usage_key := (protocol s, identity s).

Definition _delta (reading last_reading : Z) : Z :=
  if last_reading <=? reading then reading - last_reading else reading.

Definition _older (at_ : Z) (last : option Z) : bool :=
  match last with None => false | Some t => at_ <? t end.

Definition _latest (a b : option Z) : option Z :=
  match a, b with
  | None, _ => b
  | _, None => a
  | Some x, Some y => Some (Z.max x y)
  end.

(** The row [ON CONFLICT DO NOTHING] makes sure is there. *)
Definition new_row : CredentialUsage := {|
  rx_bytes := 0; tx_bytes := 0; last_rx_reading := 0; last_tx_reading := 0;
  last_collected_at := None; last_active_at := None |}.

Definition apply_row (s : UsageSample) (row : CredentialUsage) : bool * CredentialUsage :=
  if _older (collected_at s) (last_collected_at row) then (false, row)
  else
    let rx_delta := _delta (s_rx_bytes s) (last_rx_reading row) in
    let tx_delta := _delta (s_tx_bytes s) (last_tx_reading row) in
    let moved := negb (rx_delta =? 0) || negb (tx_delta =? 0) in
    (moved,
     {| rx_bytes := rx_bytes row + rx_delta; tx_bytes := tx_bytes row + tx_delta;
        last_rx_reading := s_rx_bytes s; last_tx_reading := s_tx_bytes s;
        last_collected_at := Some (collected_at s);
        last_active_at := if moved then Some (sampled_at s) else last_active_at row |}).

Definition _apply (s : UsageSample) (L : ledger) : bool * ledger :=
  let '(moved, row) := apply_row s (default new_row (L !! key_of s)) in
  (moved, <[key_of s := row]> L).

(** The number of credentials whose totals moved, and the new totals. *)
Definition record (samples : list UsageSample) (L : ledger) : Z * ledger :=
  foldl (fun '(n, L) s => let '(moved, L') := _apply s L in ((if moved then n + 1 else n), L'))
    (0, L) samples.

Definition forget_row (at_ : Z) (row : CredentialUsage) : CredentialUsage :=
  {| rx_bytes := rx_bytes row; tx_bytes := tx_bytes row;
     last_rx_reading := 0; last_tx_reading := 0; last_collected_at := Some at_;
     last_active_at := last_active_at row |}.

Definition forget_one (at_ : Z) (acc : Z * ledger) (k : usage_key) : Z * ledger :=
  let '(n, L) := acc in
  match L !! k with
  | None => (n, L)
  | Some row => if _older at_ (last_collected_at row) then (n, L)
                else (n + 1, <[k := forget_row at_ row]> L)
  end.

Definition forget_readings (gone : list usage_key) (at_ : Z) (L : ledger) : Z * ledger :=
  foldl (forget_one at_) (0, L) gone.

(** [AccountUsage] and its properties. *)
Record AccountUsage := {
  a_rx_bytes : Z;
  a_tx_bytes : Z;
  quota_bytes : option Z;
  baseline_bytes : Z;
  exhausted_at : option Z;
}.
Definition lifetime_bytes (a : AccountUsage) : Z := a_rx_bytes a + a_tx_bytes a.
Definition total_bytes (a : AccountUsage) : Z := Z.max (lifetime_bytes a - baseline_bytes a) 0.
Definition remaining_bytes (a : AccountUsage) : option Z :=
  (fun q => Z.max (q - total_bytes a) 0) <$> quota_bytes a.
Definition is_exhausted (a : AccountUsage) : bool :=
  match quota_bytes a with None => false | Some q => q <=? total_bytes a end.

(** [sum] over the rows whose identity is one of the digests. *)
Definition rows_for (digests : list text) (L : ledger) : list CredentialUsage :=
  snd <$> filter (fun kr => kr.1.2 ∈ digests) (map_to_list L).
Definition sum_rx (rows : list CredentialUsage) : Z := foldr Z.add 0 (rx_bytes <$> rows).
Definition sum_tx (rows : list CredentialUsage) : Z := foldr Z.add 0 (tx_bytes <$> rows).

(** [activity_for_devices]: the newest activity and reading over a device's
    credentials. *)
Record DeviceActivity := { tunnel_active_at : option Z; tunnel_checked_at : option Z }.

Definition by_digest (L : ledger) (digest : text) : option CredentialUsage :=
  last (rows_for [digest] L).

Definition add_activity (L : ledger) (acc : list (Z * DeviceActivity)) (owner : Z * text) :
    list (Z * DeviceActivity) :=
  match by_digest L owner.2 with
  | None => acc
  | Some row =>
      let seen := default {| tunnel_active_at := None; tunnel_checked_at := None |}
                    (dict_get owner.1 acc) in
      dict_set owner.1
        {| tunnel_active_at := _latest (tunnel_active_at seen) (last_active_at row);
           tunnel_checked_at := _latest (tunnel_checked_at seen) (last_collected_at row) |} acc
  end.

Definition activity_for_devices (owners : list (Z * text)) (L : ledger) : list (Z * DeviceActivity) :=
  foldl (add_activity L) [] owners.

(** ** Keeping counters across a change (usage/counters.py) *)

Record CounterReading := {
  samples : list UsageSample;
  sources_read : list text;
  sources_failed : list text;
  r_collected_at : Z;
}.

(** What a call raises: the agent client's exceptions (the agent was never
    reached, or any other of them), an [OSError], a database error. *)
Inductive exn := AgentUnreachable | AgentClientError | OSError | SQLAlchemyError | OtherError.
#[global] Instance exn_eq_dec : EqDecision exn.
Proof. solve_decision. Defined.

(** [read_counters]: every sample carries the instant the read was asked for. *)
Definition stamp (at_ : Z) (s : UsageSample) : UsageSample :=
  {| protocol := protocol s; identity := identity s; s_rx_bytes := s_rx_bytes s;
     s_tx_bytes := s_tx_bytes s; sampled_at := sampled_at s; collected_at := at_ |}.

Definition read_counters {W} (clock : prog W exn Z)
    (collect_usage : prog W exn (list UsageSample * list text * list text)) :
    prog W exn CounterReading :=
  at_ ← clock;
  '(ss, ok, failed) ← collect_usage;
  mret {| samples := stamp at_ <$> ss; sources_read := ok; sources_failed := failed;
          r_collected_at := at_ |}.

(** What the bracket needs of a ledger (the [CounterLedger] protocol). *)
Class CounterLedger (W : Type) := {
  l_record : list UsageSample -> prog W exn Z;
  l_forget_readings : list usage_key -> Z -> prog W exn Z;
}.

Definition AFTER_CHANGE_READ_ATTEMPTS : nat := 6.

Section Counters.
Context {W R : Type} `{CounterLedger W}.
Context (read : prog W exn CounterReading) (sleep : prog W exn unit).

(** [_read]: no reading on an agent or connection error. *)
Definition _read : prog W exn (option CounterReading) :=
  try_except (r ← read; mret (Some r))
    (fun e => match e with
              | AgentUnreachable | AgentClientError | OSError => Some (mret None)
              | _ => None
              end).

(** [_write]: a database error is swallowed. *)
Definition _write (write : prog W exn Z) : prog W exn unit :=
  try_except (write;; mret tt)
    (fun e => match e with SQLAlchemyError => Some (mret tt) | _ => None end).

Definition covers (before after : CounterReading) : bool :=
  forallb (fun s => bool_decide (s ∈ sources_read after)) (sources_read before).

(** The retry loop: at most [left] more reads. *)
Fixpoint read_after (before : CounterReading) (left : nat) (after : option CounterReading) :
    prog W exn (option CounterReading) :=
  match after, left with
  | Some a, S left' =>
      if covers before a then mret after
      else sleep;; next ← _read; read_after before left' next
  | _, _ => mret after
  end.

Definition gone_since (before after : CounterReading) : list usage_key :=
  filter (fun k => k.1 ∈ sources_read after /\ k ∉ (key_of <$> samples after))
    (key_of <$> samples before).

Definition _after_change (before : CounterReading) : prog W exn unit :=
  first ← _read;
  after ← read_after before (AFTER_CHANGE_READ_ATTEMPTS - 1) first;
  match after with
  | None => mret tt
  | Some a =>
      _write (l_record (samples a));;
      _write (l_forget_readings (gone_since before a) (r_collected_at a))
  end.

Definition keep_counters_across (change : prog W exn R) : prog W exn R :=
  before ← _read;
  match before with
  | Some b => _write (l_record (samples b))
  | None => mret tt
  end;;
  result ← try_except change
    (fun e => match e with
              | AgentClientError =>
                  Some (match before with Some b => _after_change b | None => mret tt end;;
                        raise AgentClientError)
              | _ => None
              end);
  match before with Some b => _after_change b | None => mret tt end;;
  mret result.
End Counters.

(** ** Totals never exceed what was served

    A serving process counts what it serves; a restart or a removed peer ends
    the counter, which comes back from zero with the next traffic.  Looking at
    it gives an observation: the instant asked for, the counter if it is
    there, and (for the statement only) what had been served by then. *)

Inductive event := Serve (rx tx : Z) | Restart | Look (at_ : Z).
Record source := { served : Z * Z; counter : option (Z * Z) }.
Record observation := { ob_at : Z; ob_counter : option (Z * Z); ob_served : Z * Z }.

Definition source0 : source := {| served := (0, 0); counter := None |}.

Definition step (e : event) (s : source) : source * list observation :=
  match e with
  | Serve rx tx =>
      let c := default (0, 0) (counter s) in
      ({| served := ((served s).1 + rx, (served s).2 + tx); counter := Some (c.1 + rx, c.2 + tx) |}, [])
  | Restart => ({| served := served s; counter := None |}, [])
  | Look at_ => (s, [{| ob_at := at_; ob_counter := counter s; ob_served := served s |}])
  end.

Fixpoint watch (es : list event) (s : source) : source * list observation :=
  match es with
  | [] => (s, [])
  | e :: es' =>
      let '(s1, o1) := step e s in
      let '(s2, o2) := watch es' s1 in (s2, o1 ++ o2)
  end.

(** Traffic is not negative, and looks are asked for in order. *)
Fixpoint plausible (since : Z) (es : list event) : Prop :=
  match es with
  | [] => True
  | Serve rx tx :: es' => 0 <= rx /\ 0 <= tx /\ plausible since es'
  | Restart :: es' => plausible since es'
  | Look at_ :: es' => since < at_ /\ plausible at_ es'
  end.

(** A ledger write: a poll's or a bracket's samples, or readings to forget. *)
Inductive write := Record_ (ss : list UsageSample) | Forget (gone : list usage_key) (at_ : Z).
Definition write_ledger (L : ledger) (w : write) : ledger :=
  match w with
  | Record_ ss => (record ss L).2
  | Forget gone at_ => (forget_readings gone at_ L).2
  end.

(** The write says of [k] only what was observed. *)
Definition observed_by (k : usage_key) (obs : list observation) (w : write) : Prop :=
  match w with
  | Record_ ss => Forall (fun s => key_of s = k ->
      exists o, o ∈ obs /\ ob_at o = collected_at s /\
        ob_counter o = Some (s_rx_bytes s, s_tx_bytes s)) ss
  | Forget gone at_ => k ∈ gone ->
      exists o, o ∈ obs /\ ob_at o = at_ /\ ob_counter o = None
  end.

(** From counter [v] with [a] served to counter [v'] with [a'] served. *)
Definition grows (v a v' a' : Z) : Prop :=
  0 <= v /\ 0 <= v' /\ a <= a' /\ (v' = v + (a' - a) \/ v' <= a' - a).

Definition counts (o : option (Z * Z)) : Z * Z := default (0, 0) o.

Definition leads_to (c a : Z * Z) (o : observation) : Prop :=
  grows c.1 a.1 (counts (ob_counter o)).1 (ob_served o).1 /\
  grows c.2 a.2 (counts (ob_counter o)).2 (ob_served o).2.

Lemma delta_grows v a v' a' : grows v a v' a' -> 0 <= _delta v' v <= a' - a.
Proof. unfold grows, _delta. destruct (v <=? v') eqn:?; boolP; lia. Qed.

Lemma watch_cons e es s :
  (watch (e :: es) s).2 = (step e s).2 ++ (watch es (step e s).1).2 /\
  (watch (e :: es) s).1 = (watch es (step e s).1).1.
Proof. cbn. destruct (step e s) as [s1 o1]. cbn. by destruct (watch es s1). Qed.

Lemma step_leads_to e s since o :
  plausible since [e] -> 0 <= (counts (counter s)).1 -> 0 <= (counts (counter s)).2 ->
  let s1 := (step e s).1 in
  (0 <= (counts (counter s1)).1 /\ 0 <= (counts (counter s1)).2) /\
  (leads_to (counts (counter s1)) (served s1) o -> leads_to (counts (counter s)) (served s) o).
Proof.
  unfold leads_to, grows, counts. destruct e; cbn; intros; intuition lia.
Qed.

Lemma plausible_cons e es since :
  plausible since (e :: es) -> plausible since [e] /\ exists since', plausible since' es.
Proof. destruct e; cbn; naive_solver. Qed.

Lemma watch_leads_to es s since :
  plausible since es -> 0 <= (counts (counter s)).1 -> 0 <= (counts (counter s)).2 ->
  Forall (leads_to (counts (counter s)) (served s)) (watch es s).2.
Proof.
  revert s since. induction es as [|e es IH]; intros s since Hp H1 H2; [constructor|].
  rewrite (proj1 (watch_cons e es s)). apply plausible_cons in Hp as (He & since' & Hp).
  apply Forall_app. split.
  - destruct e; try constructor; [|constructor]. unfold leads_to, grows, counts in *. cbn in *. lia.
  - apply Forall_forall. intros o Ho.
    destruct (step_leads_to e s since o He H1 H2) as ((? & ?) & Hback). apply Hback.
    specialize (IH (step e s).1 since' Hp). rewrite Forall_forall in IH. by apply IH.
Qed.

(** Later observations are later in time, and grew from the earlier ones. *)
Definition ordered (o o' : observation) : Prop :=
  ob_at o < ob_at o' /\ leads_to (counts (ob_counter o)) (ob_served o) o'.

Lemma watch_after es s since :
  plausible since es -> Forall (fun o => since < ob_at o) (watch es s).2.
Proof.
  revert s since. induction es as [|e es IH]; intros s since Hp; [constructor|].
  rewrite (proj1 (watch_cons e es s)). apply Forall_app. destruct e; cbn in Hp |- *.
  - destruct Hp as (_ & _ & Hp). split; [constructor|auto].
  - split; [constructor|auto].
  - destruct Hp as [Ht Hp]. split; [by apply Forall_singleton|].
    eapply Forall_impl; [apply (IH s at_ Hp)|]. cbn. lia.
Qed.

Lemma watch_ordered es s since :
  plausible since es -> 0 <= (counts (counter s)).1 -> 0 <= (counts (counter s)).2 ->
  StronglySorted ordered (watch es s).2.
Proof.
  revert s since. induction es as [|e es IH]; intros s since Hp H1 H2; [constructor|].
  pose proof (plausible_cons _ _ _ Hp) as (He & since' & Hp').
  destruct (step_leads_to e s since {| ob_at := 0; ob_counter := None; ob_served := (0, 0) |} He H1 H2)
    as ((Hc1 & Hc2) & _).
  rewrite (proj1 (watch_cons e es s)). destruct e; cbn in *.
  - eapply IH; [exact Hp'|done|done].
  - eapply IH; [exact Hp'|done|done].
  - constructor; [eapply IH; [exact Hp'|done|done]|].
    apply Forall_forall. intros o Ho. destruct Hp as [_ Hp]. split.
    + pose proof (watch_after es s at_ Hp) as Ha. rewrite Forall_forall in Ha. by apply Ha.
    + pose proof (watch_leads_to es s _ Hp H1 H2) as Hl. rewrite Forall_forall in Hl. by apply Hl.
Qed.

Lemma sorted_pair {A} (R : A -> A -> Prop) (l : list A) x y :
  StronglySorted R l -> x ∈ l -> y ∈ l -> x = y \/ R x y \/ R y x.
Proof.
  induction 1 as [|z l Hl IH Hz]; intros Hx Hy; [by apply not_elem_of_nil in Hx|].
  rewrite Forall_forall in Hz. apply elem_of_cons in Hx as [->|Hx], Hy as [->|Hy]; auto.
Qed.

(** What a row holds: nothing yet, or the figures of one observation, with
    totals no higher than what had been served by then. *)
Definition row_bounded (obs : list observation) (row : CredentialUsage) : Prop :=
  0 <= rx_bytes row /\ 0 <= tx_bytes row /\
  match last_collected_at row with
  | None => rx_bytes row = 0 /\ tx_bytes row = 0 /\ last_rx_reading row = 0 /\ last_tx_reading row = 0
  | Some at_ => exists o, o ∈ obs /\ ob_at o = at_ /\
      (last_rx_reading row, last_tx_reading row) = counts (ob_counter o) /\
      rx_bytes row <= (ob_served o).1 /\ tx_bytes row <= (ob_served o).2
  end.

Section Bounded.
Context (obs : list observation).
Hypothesis sorted : StronglySorted ordered obs.
Hypothesis from_zero : Forall (leads_to (0, 0) (0, 0)) obs.

(** A row that took in one observation takes in another that is not older. *)
Lemma row_bounded_next row o :
  row_bounded obs row -> o ∈ obs -> _older (ob_at o) (last_collected_at row) = false ->
  0 <= _delta (counts (ob_counter o)).1 (last_rx_reading row) /\
  0 <= _delta (counts (ob_counter o)).2 (last_tx_reading row) /\
  rx_bytes row + _delta (counts (ob_counter o)).1 (last_rx_reading row) <= (ob_served o).1 /\
  tx_bytes row + _delta (counts (ob_counter o)).2 (last_tx_reading row) <= (ob_served o).2.
Proof.
  intros (_ & _ & Hrow) Ho Hold. destruct (last_collected_at row) as [t|] eqn:Ht; cbn in Hold.
  - destruct Hrow as (o1 & Ho1 & <- & Heq & Hrx & Htx). boolP.
    assert (Hl : leads_to (counts (ob_counter o1)) (ob_served o1) o).
    { destruct (sorted_pair _ _ _ _ sorted Ho1 Ho) as [->|[[_ Hl]|[Hlt _]]]; [|done|lia].
      rewrite Forall_forall in from_zero. specialize (from_zero o Ho).
      unfold leads_to, grows in *. cbn in *. lia. }
    rewrite <- Heq in Hl. destruct Hl as [H1 H2]. apply delta_grows in H1, H2. cbn in *. lia.
  - destruct Hrow as (-> & -> & -> & ->). rewrite Forall_forall in from_zero.
    destruct (from_zero o Ho) as [H1 H2]. apply delta_grows in H1, H2. cbn in *. lia.
Qed.

Lemma apply_row_bounded row s o :
  row_bounded obs row -> o ∈ obs -> ob_at o = collected_at s ->
  ob_counter o = Some (s_rx_bytes s, s_tx_bytes s) ->
  row_bounded obs (apply_row s row).2.
Proof.
  intros Hrow Ho Hat Hc. unfold apply_row. destruct (_older _ _) eqn:Hold; [done|].
  rewrite <- Hat in Hold. pose proof (row_bounded_next row o Hrow Ho Hold) as Hn.
  rewrite Hc in Hn. cbn in Hn. destruct Hrow as (? & ? & _).
  unfold row_bounded. cbn. split; [lia|]. split; [lia|].
  exists o. rewrite Hc. cbn. repeat split; try done; lia.
Qed.

Lemma forget_row_bounded row at_ o :
  row_bounded obs row -> o ∈ obs -> ob_at o = at_ -> ob_counter o = None ->
  _older at_ (last_collected_at row) = false -> row_bounded obs (forget_row at_ row).
Proof.
  intros Hrow Ho Hat Hc Hold. subst at_. pose proof (row_bounded_next row o Hrow Ho Hold) as Hn.
  destruct Hrow as (? & ? & _). unfold row_bounded. cbn. split; [done|]. split; [done|].
  exists o. rewrite Hc in *. cbn in *. repeat split; try done; lia.
Qed.

Lemma new_row_bounded : row_bounded obs new_row.
Proof. by repeat split. Qed.

(** A ledger whose row for [k], if any, is bounded. *)
Definition bounded_at (k : usage_key) (L : ledger) : Prop :=
  match L !! k with Some row => row_bounded obs row | None => True end.

Lemma write_bounded k L w :
  bounded_at k L -> observed_by k obs w -> bounded_at k (write_ledger L w).
Proof.
  destruct w as [ss|gone at_]; cbn.
  - unfold record. intros HL Hss. generalize 0.
    revert L HL. induction Hss as [|s ss Hs Hss IH]; intros L HL n; [done|]. cbn [foldl].
    unfold _apply. destruct (apply_row s _) as [moved row] eqn:Happ. apply IH.
    unfold bounded_at. destruct (decide (key_of s = k)) as [Hk|Hk].
    + rewrite Hk. rewrite lookup_insert_eq. destruct (Hs Hk) as (o & Ho & Hat & Hc).
      assert (Hb : row_bounded obs (default new_row (L !! key_of s))).
      { rewrite Hk. unfold bounded_at in HL. destruct (L !! k); [done|apply new_row_bounded]. }
      pose proof (apply_row_bounded _ s o Hb Ho Hat Hc) as Hr. by rewrite Happ in Hr.
    + by rewrite lookup_insert_ne.
  - unfold forget_readings. intros HL Hg. generalize 0.
    revert L HL Hg. induction gone as [|k' gone IH]; intros L HL Hg n; [done|]. cbn [foldl forget_one].
    assert (Hg' : k ∈ gone -> exists o, o ∈ obs /\ ob_at o = at_ /\ ob_counter o = None).
    { intros. apply Hg. by right. }
    destruct (L !! k') as [row|] eqn:Hrow; [|by apply IH].
    destruct (_older at_ _) eqn:Hold; [by apply IH|]. apply IH; [|done].
    unfold bounded_at in *. destruct (decide (k' = k)) as [->|Hne].
    + rewrite lookup_insert_eq. rewrite Hrow in HL. destruct Hg as (o & Ho & Hat & Hc); [by left|].
      by apply (forget_row_bounded row at_ o).
    + by rewrite lookup_insert_ne.
Qed.
End Bounded.

Lemma watch_served es s since :
  plausible since es ->
  (served s).1 <= (served (watch es s).1).1 /\ (served s).2 <= (served (watch es s).1).2 /\
  Forall (fun o => (ob_served o).1 <= (served (watch es s).1).1 /\
                   (ob_served o).2 <= (served (watch es s).1).2) (watch es s).2.
Proof.
  revert s since. induction es as [|e es IH]; intros s since Hp; [by repeat split|].
  destruct (watch_cons e es s) as [-> ->]. pose proof (plausible_cons _ _ _ Hp) as (_ & since' & Hp').
  destruct (IH (step e s).1 since' Hp') as (H1 & H2 & H3).
  destruct e; cbn in *; [destruct Hp as (? & ? & _)| |]; split_and!; try lia; try done.
  apply Forall_cons. by repeat split.
Qed.

(** C39: the totals never exceed what was really transferred.  Whatever a
    serving process did (serve, restart, lose a peer), and whatever subset of
    what was seen of its counter is written, in whatever order and however
    often, by polls and by the bracket around changes, the totals of the row
    are at most the bytes served; provided a read asked for later also saw
    the counter later. *)
Theorem recorded_never_exceeds_served k since es ws row :
  plausible since es ->
  Forall (observed_by k (watch es source0).2) ws ->
  foldl write_ledger ∅ ws !! k = Some row ->
  0 <= rx_bytes row <= (served (watch es source0).1).1 /\
  0 <= tx_bytes row <= (served (watch es source0).1).2.
Proof.
  intros Hp Hws Hrow.
  pose proof (watch_ordered es source0 since Hp ltac:(done) ltac:(done)) as Hs.
  pose proof (watch_leads_to es source0 since Hp ltac:(done) ltac:(done)) as Hz.
  destruct (watch_served es source0 since Hp) as (Hs1 & Hs2 & Hle).
  assert (Hb : bounded_at (watch es source0).2 k (foldl write_ledger ∅ ws)).
  { clear Hrow. assert (H0 : bounded_at (watch es source0).2 k ∅) by done.
    revert H0. generalize (∅ : ledger). induction Hws as [|w ws Hw Hws IH]; intros L HL; [done|].
    cbn. apply IH. by apply write_bounded. }
  unfold bounded_at in Hb. rewrite Hrow in Hb. destruct Hb as (? & ? & Hb).
  destruct (last_collected_at row) as [at_|].
  - destruct Hb as (o & Ho & _ & _ & ? & ?). rewrite Forall_forall in Hle. specialize (Hle o Ho). lia.
  - destruct Hb as (-> & -> & _). cbn in *. lia.
Qed.

Definition example_key : usage_key := (str "xray", str "d1").
Definition example_sample (at_ rx : Z) : UsageSample :=
  {| protocol := str "xray"; identity := str "d1"; s_rx_bytes := rx; s_tx_bytes := 0;
     sampled_at := at_; collected_at := at_ |}.

Lemma recorded_never_exceeds_served_witness :
  rx_bytes (default new_row
    (foldl write_ledger ∅ [Record_ [example_sample 1 70]; Forget [example_key] 2;
                           Record_ [example_sample 3 90]] !! example_key)) <= 160.
Proof.
  destruct (recorded_never_exceeds_served example_key 0
    [Serve 70 0; Look 1; Restart; Look 2; Serve 90 0; Look 3]
    [Record_ [example_sample 1 70]; Forget [example_key] 2; Record_ [example_sample 3 90]]
    {| rx_bytes := 160; tx_bytes := 0; last_rx_reading := 90; last_tx_reading := 0;
       last_collected_at := Some 3; last_active_at := Some 3 |}) as [H _].
  - cbn. lia.
  - repeat (constructor; cbn).
    + intros _. exists {| ob_at := 1; ob_counter := Some (70, 0); ob_served := (70, 0) |}. by repeat constructor.
    + intros _. exists {| ob_at := 2; ob_counter := None; ob_served := (70, 0) |}. by repeat constructor.
    + intros _. exists {| ob_at := 3; ob_counter := Some (90, 0); ob_served := (160, 0) |}. by repeat constructor.
  - vm_compute. reflexivity.
  - vm_compute. discriminate.
Defined.

(** Reads are ordered by when they were asked for, not by when the counter
    was seen, so two overlapping reads of one counter can still count twice:
    of a counter that went from 90 to 100 and never reset, the read asked for
    first saw 100 and the one asked for second saw 90.  Recorded in the order
    asked, the 90 is taken for a restarted process, and the row holds 190. *)
Theorem overlapping_reads_count_twice :
  rx_bytes <$> (foldl write_ledger ∅ [Record_ [example_sample 1 100]; Record_ [example_sample 2 90]]
                !! example_key) = Some 190.
Proof. vm_compute. reflexivity. Qed.

(** ** The bracket loses nothing *)

Lemma record_cons s ss n L :
  foldl (fun '(n, L) s => let '(moved, L') := _apply s L in ((if moved then n + 1 else n), L'))
    (n, L) (s :: ss) =
  foldl (fun '(n, L) s => let '(moved, L') := _apply s L in ((if moved then n + 1 else n), L'))
    (if (_apply s L).1 then n + 1 else n, (_apply s L).2) ss.
Proof. cbn. by destruct (_apply s L). Qed.

Lemma apply_lookup_eq s L :
  (_apply s L).2 !! key_of s = Some (apply_row s (default new_row (L !! key_of s))).2.
Proof. unfold _apply. destruct (apply_row s _). cbn. by rewrite lookup_insert_eq. Qed.

Lemma apply_lookup_ne s L k : key_of s <> k -> (_apply s L).2 !! k = L !! k.
Proof. intros. unfold _apply. destruct (apply_row s _). cbn. by rewrite lookup_insert_ne. Qed.

Lemma record_lookup_out ss L k : k ∉ key_of <$> ss -> (record ss L).2 !! k = L !! k.
Proof.
  unfold record. generalize 0. revert L. induction ss as [|s ss IH]; intros L n Hk; [done|].
  rewrite fmap_cons, not_elem_of_cons in Hk. rewrite record_cons, IH by naive_solver.
  apply apply_lookup_ne. naive_solver.
Qed.

Lemma record_lookup_in ss L s :
  NoDup (key_of <$> ss) -> s ∈ ss ->
  (record ss L).2 !! key_of s = Some (apply_row s (default new_row (L !! key_of s))).2.
Proof.
  unfold record. generalize 0. revert L. induction ss as [|s' ss IH]; intros L n Hnd Hin;
    [by apply not_elem_of_nil in Hin|].
  rewrite fmap_cons in Hnd. apply NoDup_cons in Hnd as [Hs Hnd]. rewrite record_cons.
  apply elem_of_cons in Hin as [->|Hin].
  - pose proof (record_lookup_out ss (_apply s' L).2 _ Hs) as Ho. unfold record in Ho.
    transitivity ((_apply s' L).2 !! key_of s'); [|apply apply_lookup_eq].
    rewrite <- Ho. clear. generalize (_apply s' L).2. generalize (if (_apply s' L).1 then n + 1 else n).
    generalize 0. induction ss as [|s ss IH]; intros; [done|]. rewrite !record_cons. apply IH.
  - rewrite IH by done. rewrite apply_lookup_ne; [done|]. intros Heq. apply Hs. rewrite Heq.
    by apply list_elem_of_fmap_2.
Qed.

Lemma forget_lookup_out gone at_ L k : k ∉ gone -> (forget_readings gone at_ L).2 !! k = L !! k.
Proof.
  unfold forget_readings. generalize 0. revert L. induction gone as [|k' gone IH]; intros L n Hk; [done|].
  rewrite not_elem_of_cons in Hk. cbn [foldl forget_one]. destruct (L !! k') as [row|]; [|naive_solver].
  destruct (_older _ _); [naive_solver|]. rewrite IH by naive_solver.
  rewrite lookup_insert_ne by naive_solver. done.
Qed.

Lemma forget_lookup_in gone at_ L k row :
  NoDup gone -> k ∈ gone -> L !! k = Some row -> _older at_ (last_collected_at row) = false ->
  (forget_readings gone at_ L).2 !! k = Some (forget_row at_ row).
Proof.
  unfold forget_readings. generalize 0. revert L. induction gone as [|k' gone IH]; intros L n Hnd Hk Hrow Hold;
    [by apply not_elem_of_nil in Hk|].
  apply NoDup_cons in Hnd as [Hn Hnd]. cbn [foldl forget_one].
  destruct (decide (k = k')) as [<-|Hne].
  - rewrite Hrow, Hold. pose proof (forget_lookup_out gone at_ (<[k:=forget_row at_ row]> L) k Hn) as Ho.
    rewrite lookup_insert_eq in Ho. rewrite <- Ho. unfold forget_readings. clear.
    generalize (<[k:=forget_row at_ row]> L). generalize (n + 1). generalize 0.
    induction gone as [|k1 gone IH]; intros; [done|]. cbn [foldl forget_one].
    destruct (_ !! k1); [|apply IH]. destruct (_older _ _); apply IH.
  - apply elem_of_cons in Hk as [->|Hk]; [done|].
    destruct (L !! k') as [row'|]; [|by apply IH]. destruct (_older at_ (last_collected_at row')); [by apply IH|].
    apply IH; [done|done| |done]. by rewrite lookup_insert_ne.
Qed.

(** A server whose counters are read whole, a ledger that does not fail, and
    a clock that never stands still. *)
Record world := {
  w_counters : gmap usage_key (Z * Z);
  w_sources : list text;
  w_ledger : ledger;
  w_clock : Z;
}.

Definition with_ledger (L : ledger) (w : world) : world :=
  {| w_counters := w_counters w; w_sources := w_sources w; w_ledger := L; w_clock := w_clock w |}.

Definition world_clock : prog world exn Z := fun w =>
  (Ok (w_clock w), {| w_counters := w_counters w; w_sources := w_sources w;
                      w_ledger := w_ledger w; w_clock := w_clock w + 1 |}).
Definition counter_sample (kc : usage_key * (Z * Z)) : UsageSample :=
  {| protocol := kc.1.1; identity := kc.1.2; s_rx_bytes := kc.2.1; s_tx_bytes := kc.2.2;
     sampled_at := 0; collected_at := 0 |}.
Definition world_collect : prog world exn (list UsageSample * list text * list text) := fun w =>
  (Ok (counter_sample <$> map_to_list (w_counters w), w_sources w, []), w).
Definition world_read : prog world exn CounterReading := read_counters world_clock world_collect.
Definition world_sleep : prog world exn unit := mret tt.

#[export] Instance world_ledger : CounterLedger world := {
  l_record ss w := let '(n, L) := record ss (w_ledger w) in (Ok n, with_ledger L w);
  l_forget_readings gone at_ w :=
    let '(n, L) := forget_readings gone at_ (w_ledger w) in (Ok n, with_ledger L w);
}.

Definition row_at (w : world) (k : usage_key) : CredentialUsage := default new_row (w_ledger w !! k).

(** Between the two reads a counter went on by [n], or was reset and then
    counted [n], not yet as far as it had been; gone, it counted nothing. *)
Definition went_on (b : Z) (a : option Z) (n : Z) : Prop :=
  0 <= n /\ (a = Some (b + n) \/ (a = None /\ n = 0) \/ (a = Some n /\ (n < b \/ b = 0))).

Definition world_ok (w : world) : Prop :=
  (forall k row, w_ledger w !! k = Some row -> _older (w_clock w) (last_collected_at row) = false) /\
  (forall k c, w_counters w !! k = Some c -> k.1 ∈ w_sources w /\ 0 <= c.1 /\ 0 <= c.2).

Definition reading_of (at_ : Z) (cs : gmap usage_key (Z * Z)) (sources : list text) : CounterReading :=
  {| samples := stamp at_ <$> (counter_sample <$> map_to_list cs); sources_read := sources;
     sources_failed := []; r_collected_at := at_ |}.

Lemma world_read_eq w :
  _read world_read w =
    (Ok (Some (reading_of (w_clock w) (w_counters w) (w_sources w))), (world_clock w).2).
Proof. done. Qed.

Lemma covers_refl at1 at2 c1 c2 src :
  covers (reading_of at1 c1 src) (reading_of at2 c2 src) = true.
Proof.
  unfold covers. cbn. apply forallb_forall. intros x Hx.
  apply bool_decide_eq_true_2. by apply list_elem_of_In.
Qed.

Lemma reading_keys at_ cs src : key_of <$> samples (reading_of at_ cs src) = (map_to_list cs).*1.
Proof.
  cbn. rewrite <- !list_fmap_compose. apply list_fmap_ext. by intros _ [[] ?] _.
Qed.

Lemma reading_keys_NoDup at_ cs src : NoDup (key_of <$> samples (reading_of at_ cs src)).
Proof. rewrite reading_keys. apply NoDup_fst_map_to_list. Qed.

Lemma reading_sample at_ cs src k c :
  cs !! k = Some c -> exists s, s ∈ samples (reading_of at_ cs src) /\ key_of s = k /\
    s_rx_bytes s = c.1 /\ s_tx_bytes s = c.2 /\ collected_at s = at_.
Proof.
  intros Hc. exists (stamp at_ (counter_sample (k, c))). split.
  - cbn. do 2 apply list_elem_of_fmap_2. by apply elem_of_map_to_list.
  - by destruct k.
Qed.

Lemma reading_key_in at_ cs src k : k ∈ key_of <$> samples (reading_of at_ cs src) <-> is_Some (cs !! k).
Proof.
  rewrite reading_keys, list_elem_of_fmap. split.
  - intros ([k' c] & -> & Hin). apply elem_of_map_to_list in Hin. by eexists.
  - intros [c Hc]. exists (k, c). split; [done|]. by apply elem_of_map_to_list.
Qed.

Lemma write_record_eq ss w :
  _write (l_record ss) w = (Ok tt, with_ledger (record ss (w_ledger w)).2 w).
Proof. unfold _write, try_except, mbind, prog_bind, mret, prog_ret. cbn. by destruct (record ss (w_ledger w)). Qed.

Lemma write_forget_eq gone at_ w :
  _write (l_forget_readings gone at_) w =
    (Ok tt, with_ledger (forget_readings gone at_ (w_ledger w)).2 w).
Proof.
  unfold _write, try_except, mbind, prog_bind, mret, prog_ret. cbn.
  by destruct (forget_readings gone at_ (w_ledger w)).
Qed.

Lemma after_change_eq at_ cs w :
  let b := reading_of at_ cs (w_sources w) in
  let a := reading_of (w_clock w) (w_counters w) (w_sources w) in
  _after_change world_read world_sleep b w =
    (Ok tt, with_ledger (forget_readings (gone_since b a) (w_clock w)
                           (record (samples a) (w_ledger w)).2).2 (world_clock w).2).
Proof.
  intros b a. unfold _after_change. rewrite (bind_ok _ _ _ _ _ (world_read_eq w)). fold a.
  cbn [AFTER_CHANGE_READ_ATTEMPTS Nat.sub read_after].
  rewrite (bind_ok _ _ _ (Some a) (world_clock w).2).
  2: { unfold b, a. by rewrite covers_refl. }
  rewrite (bind_ok _ _ _ _ _ (write_record_eq _ _)). by rewrite write_forget_eq.
Qed.

(** The whole bracket over a change, as one step of the ledger. *)
Lemma keep_counters_eq {R} (change : prog world exn R) w out cs :
  let b := reading_of (w_clock w) (w_counters w) (w_sources w) in
  let a := reading_of (w_clock w + 1) cs (w_sources w) in
  let w1 := with_ledger (record (samples b) (w_ledger w)).2 (world_clock w).2 in
  let w2 := {| w_counters := cs; w_sources := w_sources w1; w_ledger := w_ledger w1;
               w_clock := w_clock w1 |} in
  change w1 = (out, w2) -> (forall e, out = Err e -> e = AgentClientError) ->
  keep_counters_across world_read world_sleep change w =
    (out, with_ledger (forget_readings (gone_since b a) (w_clock w + 1)
                         (record (samples a) (w_ledger w1)).2).2 (world_clock w2).2).
Proof.
  intros b a w1 w2 Hch Herr. unfold keep_counters_across.
  rewrite (bind_ok _ _ _ _ _ (world_read_eq w)). fold b.
  rewrite (bind_ok _ _ _ _ _ (write_record_eq _ _)). fold w1.
  assert (Hafter := after_change_eq (w_clock w) (w_counters w) w2). cbv zeta in Hafter.
  destruct out as [r|e].
  - assert (Ht : forall h, try_except change h w1 = (Ok r, w2))
      by (intros h; unfold try_except; by rewrite Hch).
    rewrite (bind_ok _ _ _ _ _ (Ht _)). rewrite (bind_ok _ _ _ _ _ Hafter). done.
  - rewrite (Herr e) in * by done. apply (bind_err _ _ w1). unfold try_except.
    rewrite Hch, (bind_ok _ _ _ _ _ Hafter). done.
Qed.

Definition value (dir : Z * Z -> Z) (c : option (Z * Z)) : option Z := dir <$> c.

(** The ledger after both records and the forgetting. *)
Definition bracketed (w : world) (cs : gmap usage_key (Z * Z)) : ledger :=
  let b := reading_of (w_clock w) (w_counters w) (w_sources w) in
  let a := reading_of (w_clock w + 1) cs (w_sources w) in
  (forget_readings (gone_since b a) (w_clock w + 1)
     (record (samples a) (record (samples b) (w_ledger w)).2).2).2.

(** One row, after the first record. *)
Definition recorded_row (at_ : Z) (c : Z * Z) (row : CredentialUsage) : CredentialUsage :=
  (apply_row (stamp at_ (counter_sample ([], [], c))) row).2.

Lemma record_reading at_ cs src L k c :
  cs !! k = Some c ->
  (record (samples (reading_of at_ cs src)) L).2 !! k
    = Some (recorded_row at_ c (default new_row (L !! k))).
Proof.
  intros Hc. set (s := stamp at_ (counter_sample (k, c))).
  assert (Hk : key_of s = k) by (by destruct k).
  rewrite <- Hk at 1. rewrite record_lookup_in.
  - rewrite Hk. unfold recorded_row, apply_row. cbn. by destruct (_older _ _).
  - apply reading_keys_NoDup.
  - cbn. do 2 apply list_elem_of_fmap_2. by apply elem_of_map_to_list.
Qed.

Lemma bracketed_present w cs k b a :
  w_counters w !! k = Some b -> cs !! k = Some a ->
  bracketed w cs !! k = Some (recorded_row (w_clock w + 1) a (recorded_row (w_clock w) b (row_at w k))).
Proof.
  intros Hb Ha. unfold bracketed. rewrite forget_lookup_out.
  - rewrite (record_reading _ _ _ _ _ _ Ha), (record_reading _ _ _ _ _ _ Hb). done.
  - unfold gone_since. intros Hin. apply list_elem_of_filter in Hin as [[_ Hn] _].
    apply Hn, reading_key_in. by eexists.
Qed.

Lemma bracketed_gone w cs k b :
  world_ok w -> w_counters w !! k = Some b -> cs !! k = None ->
  bracketed w cs !! k = Some (forget_row (w_clock w + 1) (recorded_row (w_clock w) b (row_at w k))).
Proof.
  intros [Hclock Hsrc] Hb Ha. unfold bracketed. apply forget_lookup_in.
  - apply NoDup_filter, reading_keys_NoDup.
  - unfold gone_since. apply list_elem_of_filter. rewrite !reading_key_in, Ha.
    split; [split; [apply (Hsrc k b Hb)|by intros [? ?]]|by eexists].
  - rewrite record_lookup_out; [by apply record_reading|]. rewrite reading_key_in, Ha. by intros [? ?].
  - unfold recorded_row, apply_row, row_at. cbn.
    destruct (w_ledger w !! k) as [row|] eqn:Hr; cbn; [|apply Z.ltb_ge; lia].
    rewrite (Hclock k row Hr). cbn. apply Z.ltb_ge. lia.
Qed.

(** Recording a counter that is newer than the row. *)
Lemma recorded_row_fields at_ c row :
  _older at_ (last_collected_at row) = false ->
  rx_bytes (recorded_row at_ c row) = rx_bytes row + _delta c.1 (last_rx_reading row) /\
  tx_bytes (recorded_row at_ c row) = tx_bytes row + _delta c.2 (last_tx_reading row) /\
  last_rx_reading (recorded_row at_ c row) = c.1 /\ last_tx_reading (recorded_row at_ c row) = c.2 /\
  last_collected_at (recorded_row at_ c row) = Some at_.
Proof. intros Hold. unfold recorded_row, apply_row. cbn. by rewrite Hold. Qed.

Lemma went_on_delta b a n : 0 <= b -> went_on b (Some a) n -> _delta a b = n.
Proof.
  unfold went_on, _delta. intros ? (? & [?|[[? ?]|[? ?]]]); simplify_eq;
    destruct (_ <=? _) eqn:?; boolP; lia.
Qed.

(** The bracket loses nothing.  When the reads and the writes succeed,
    and between the two reads every counter either ran on or was reset (by
    the change) without overtaking its old value again, then whether the
    change succeeded or failed after it may have been applied, afterwards
    each row's totals have grown by exactly the bytes not recorded before
    plus the bytes served since, and its last readings are the counter's
    values now, zero where the counter is gone, so that nothing is counted
    twice or subtracted later.  The change's own outcome is passed on. *)
Theorem bracket_keeps_every_byte {R} (change : prog world exn R) w out cs :
  world_ok w ->
  let w1 := with_ledger (record (samples (reading_of (w_clock w) (w_counters w) (w_sources w)))
                           (w_ledger w)).2 (world_clock w).2 in
  change w1 = (out, {| w_counters := cs; w_sources := w_sources w1; w_ledger := w_ledger w1;
                       w_clock := w_clock w1 |}) ->
  (forall e, out = Err e -> e = AgentClientError) ->
  exists w', keep_counters_across world_read world_sleep change w = (out, w') /\
    w_counters w' = cs /\
    forall k b nrx ntx, w_counters w !! k = Some b ->
      went_on b.1 (value fst (cs !! k)) nrx -> went_on b.2 (value snd (cs !! k)) ntx ->
      rx_bytes (row_at w' k) = rx_bytes (row_at w k) + _delta b.1 (last_rx_reading (row_at w k)) + nrx /\
      tx_bytes (row_at w' k) = tx_bytes (row_at w k) + _delta b.2 (last_tx_reading (row_at w k)) + ntx /\
      last_rx_reading (row_at w' k) = default 0 (value fst (cs !! k)) /\
      last_tx_reading (row_at w' k) = default 0 (value snd (cs !! k)).
Proof.
  intros [Hclock Hsrc] w1 Hch Herr. rewrite (keep_counters_eq change w out cs Hch Herr).
  eexists. split; [done|]. split; [done|]. intros k b nrx ntx Hb Hrx Htx.
  unfold row_at at 1 4 7 8. cbn [w_ledger with_ledger]. fold (bracketed w cs).
  destruct (Hsrc k b Hb) as (_ & Hb1 & Hb2).
  assert (Hold : _older (w_clock w) (last_collected_at (row_at w k)) = false).
  { unfold row_at. destruct (w_ledger w !! k) as [row|] eqn:Hr; [by apply (Hclock k)|done]. }
  destruct (recorded_row_fields _ b _ Hold) as (E1 & E2 & E3 & E4 & E5).
  destruct (cs !! k) as [a|] eqn:Ha; cbn [value fmap option_fmap option_map] in *.
  - rewrite (bracketed_present w cs k b a Hb Ha). cbn [from_option id].
    destruct (recorded_row_fields (w_clock w + 1) a (recorded_row (w_clock w) b (row_at w k)))
      as (-> & -> & -> & -> & _); [rewrite E5; cbn; apply Z.ltb_ge; lia|].
    rewrite E1, E2, E3, E4, (went_on_delta _ _ _ Hb1 Hrx), (went_on_delta _ _ _ Hb2 Htx). done.
  - rewrite (bracketed_gone w cs k b (conj Hclock Hsrc) Hb Ha). cbn. rewrite E1, E2.
    destruct Hrx as (? & [?|[[_ ->]|[? ?]]]), Htx as (? & [?|[[_ ->]|[? ?]]]); try done. lia.
Qed.

Definition example_world : world := {|
  w_counters := {[ example_key := (70, 5) ]}; w_sources := [str "xray"];
  w_ledger := ∅; w_clock := 10 |}.
(** A change that restarts the serving process. *)
Definition restart_all : prog world exn unit := fun w =>
  (Ok tt, {| w_counters := ∅; w_sources := w_sources w; w_ledger := w_ledger w; w_clock := w_clock w |}).

Lemma bracket_keeps_every_byte_witness :
  exists w', keep_counters_across world_read world_sleep restart_all example_world = (Ok tt, w') /\
    rx_bytes (row_at w' example_key) = 70 /\ last_rx_reading (row_at w' example_key) = 0.
Proof.
  destruct (bracket_keeps_every_byte restart_all example_world (Ok tt) ∅) as (w' & Hw & _ & Hk).
  - split; [by intros ?? [=]|]. intros k c Hc. unfold example_world in Hc. cbn [w_counters] in Hc.
    apply (lookup_singleton_Some example_key) in Hc as [<- <-].
    split; [by left|]. cbn. lia.
  - done.
  - done.
  - exists w'. split; [exact Hw|].
    destruct (Hk example_key (70, 5) 0 0) as (H1 & _ & H3 & _).
    + vm_compute. reflexivity.
    + clear. rewrite lookup_empty. split; [lia|]. by right; left.
    + clear. rewrite lookup_empty. split; [lia|]. by right; left.
    + rewrite H1, H3, lookup_empty. unfold row_at. cbn [w_ledger example_world].
      rewrite lookup_empty. clear. by split.
Defined.

End Usage.
