(* ===== verification/ApiStore.v ===== *)
(** * The control plane's database

    The tables of [nebula_api/models/] that provisioning, reconciliation, access
    expiry, quota enforcement, sign-in and account review read and write, with
    the unique indexes PostgreSQL enforces on them, and transactions over them.  A table is the
    list of its rows; an identifier ([uuid4()]) and an instant are integers.
    Columns nothing here reads are left out. *)

From S2P Require Import Prelude PyText IpAddress.

(** ** Closed vocabularies (models/types.py) *)

Module AccountState.
Inductive t := PENDING_ACTIVATION | ACTIVE | SUSPENDED | DISABLED.
#[global] Instance eq_dec : EqDecision t.
Proof. solve_decision. Defined.
End AccountState.

Module LifecycleState.
Inductive t := ACTIVE | REVOKED.
#[global] Instance eq_dec : EqDecision t.
Proof. solve_decision. Defined.
End LifecycleState.

Module ProfileState.
Inductive t := DRAFT | VALIDATED | IMPLEMENTED | DEPRECATED.
#[global] Instance eq_dec : EqDecision t.
Proof. solve_decision. Defined.
End ProfileState.

Module ServerState.
Inductive t := ACTIVE | MAINTENANCE | DISABLED.
#[global] Instance eq_dec : EqDecision t.
Proof. solve_decision. Defined.
End ServerState.

Module CapabilityState.
Inductive t := ENABLED | DISABLED.
#[global] Instance eq_dec : EqDecision t.
Proof. solve_decision. Defined.
End CapabilityState.

Module ProvisioningState.
Inductive t := REQUESTED | APPLYING | ACTIVE | REVOKING | REVOKED | FAILED.
#[global] Instance eq_dec : EqDecision t.
Proof. solve_decision. Defined.
End ProvisioningState.

Module OperationState.
Inductive t := PENDING | RUNNING | SUCCEEDED | FAILED | CANCELLED.
#[global] Instance eq_dec : EqDecision t.
Proof. solve_decision. Defined.
End OperationState.

Module AdminRole.
Inductive t := OWNER | OPERATOR | AUDITOR.
#[global] Instance eq_dec : EqDecision t.
Proof. solve_decision. Defined.
End AdminRole.

Module AdminState.
Inductive t := ACTIVE | DISABLED.
#[global] Instance eq_dec : EqDecision t.
Proof. solve_decision. Defined.
End AdminState.

Module DevicePlatform.
Inductive t := ANDROID | WINDOWS.
#[global] Instance eq_dec : EqDecision t.
Proof. solve_decision. Defined.
End DevicePlatform.

Module TokenState.
Inductive t := ACTIVE | CONSUMED | REVOKED | EXPIRED.
#[global] Instance eq_dec : EqDecision t.
Proof. solve_decision. Defined.
End TokenState.

(** The state vocabulary of [admin_totp_credentials]. *)
Module TotpState.
Inductive t := pending | active | revoked.
#[global] Instance eq_dec : EqDecision t.
Proof. solve_decision. Defined.
End TotpState.

Module RequestState.
Inductive t := PENDING | APPROVED | REJECTED | EXPIRED.
#[global] Instance eq_dec : EqDecision t.
Proof. solve_decision. Defined.
End RequestState.

Module Db.

(** ** Rows *)

Record User := {
  user_id : Z;
  email : text;
  email_normalized : text;
  username : option text;
  username_normalized : option text;
  password_hash : option text;
  user_state : AccountState.t;
  device_limit : Z;
  user_expires_at : option Z;
  activated_at : option Z;
  disabled_at : option Z;
  traffic_quota_bytes : option Z;
  traffic_baseline_bytes : Z;
  quota_exhausted_at : option Z;
  user_dns_profile : text;
}.

Record Device := {
  device_id : Z;
  device_user : Z;
  device_state : LifecycleState.t;
  device_name : text;
  platform : DevicePlatform.t;
  client_version : text;
  device_revoked_at : option Z;
  hardware_key_version : option Z;
  hardware_hash : option text;
  device_dns_profile : option text;
}.

(** *** Sessions, tokens, requests and mail *)

Record UserSession := {
  session_id : Z;
  session_user : Z;
  session_device : Z;
  family_id : Z;
  session_state : LifecycleState.t;
  session_expires_at : Z;
  last_seen_at : option Z;
  session_revoked_at : option Z;
  session_created_at : Z;
}.

(** [RefreshToken], [PasswordResetToken] and [UserActivation] share all columns
    but the owner, a session for the first and a user for the others, and
    [token_link]: the token that replaced this one, or the request activated. *)
Record Token := {
  token_id : Z;
  token_owner : Z;
  token_version : Z;
  token_digest : text;
  token_state : TokenState.t;
  token_expires_at : Z;
  token_consumed_at : option Z;
  token_revoked_at : option Z;
  token_link : option Z;
  token_created_at : Z;
}.

Record AccountRequest := {
  request_id : Z;
  request_email : text;
  request_email_normalized : text;
  request_username : option text;
  request_username_normalized : option text;
  request_state : RequestState.t;
  request_expires_at : Z;
  decided_at : option Z;
  reviewed_by_admin_id : option Z;
  request_user : option Z;
  request_created_at : Z;
}.

Record AccountRequestEvent := {
  event_request : Z;
  from_state : option RequestState.t;
  to_state : RequestState.t;
  actor_admin_id : option Z;
  event_reason : option text;
}.

Record EmailDelivery := {
  delivery_id : Z;
  deduplication_key : Z;
  template_code : text;
  recipient_address : text;
  subject_kind : text;
  subject_id : Z;
  delivery_state : text;
  delivery_attempts : Z;
  available_at : Z;
  leased_until : option Z;
  sent_at : option Z;
  provider_message_id : option text;
  delivery_result : option text;
}.

Record AdminUser := {
  admin_user_id : Z;
  admin_email : text;
  admin_email_normalized : text;
  admin_username_normalized : option text;
  admin_password_hash : text;
  admin_role : AdminRole.t;
  admin_state : AdminState.t;
  sessions_valid_after : option Z;
}.

Record AdminTotpCredential := {
  totp_id : Z;
  totp_admin : Z;
  totp_state : TotpState.t;
  secret_ciphertext : option text;
  secret_nonce : option text;
  secret_version : option Z;
  confirmed_at : option Z;
  totp_revoked_at : option Z;
  last_accepted_timestep : option Z;
}.

Record AdminMfaRecoveryCode := {
  code_id : Z;
  code_credential : Z;
  code_digest : text;
  code_version : Z;
  code_state : TokenState.t;
  code_consumed_at : option Z;
  code_revoked_at : option Z;
}.

Record AdminPasskey := {
  passkey_id : Z;
  passkey_admin : Z;
  passkey_credential : text;
  passkey_public_key : text;
  sign_count : Z;
  passkey_name : text;
  passkey_created_at : Z;
  passkey_last_used_at : option Z;
}.

(** The second factors of administrators. *)
Record FactorTables := {
  totp_credentials : list AdminTotpCredential;
  recovery_codes : list AdminMfaRecoveryCode;
  passkeys : list AdminPasskey;
}.

Record AuthTables := {
  sessions : list UserSession;
  refresh_tokens : list Token;
  password_reset_tokens : list Token;
  user_activations : list Token;
  account_requests : list AccountRequest;
  account_request_events : list AccountRequestEvent;
  email_deliveries : list EmailDelivery;
  admins : list AdminUser;
  factors : FactorTables;
}.

Record ProtocolProfile := {
  profile_id : Z;
  profile_code : text;
  profile_display_name : text;
  agent_profile_code : option text;
  profile_state : ProfileState.t;
  ad_block : bool;
}.

(** [agent_host] and [agent_port] are the server's agent: it is addressed by
    the server here. *)
Record VPNServer := {
  server_id : Z;
  server_code : text;
  server_display_name : text;
  server_state : ServerState.t;
  maximum_devices : Z;
  wireguard_client_pool : option IPNetwork;
  wireguard_gateway_address : option IPAddress;
}.

Record ServerProtocolCapability := {
  cap_server : Z;
  cap_profile : Z;
  cap_state : CapabilityState.t;
  capacity_limit : option Z;
}.

Record UserProtocolPermission := {
  perm_id : Z;
  perm_user : Z;
  perm_profile : Z;
  perm_granted_by : option Z;
  perm_state : CapabilityState.t;
  perm_granted_at : Z;
  perm_expires_at : option Z;
  perm_revoked_at : option Z;
}.

Record UserServerAssignment := {
  asg_id : Z;
  asg_user : Z;
  asg_server : Z;
  asg_assigned_by : option Z;
  asg_state : LifecycleState.t;
  asg_assigned_at : Z;
  asg_expires_at : option Z;
  asg_revoked_at : option Z;
}.

Inductive cred_kind := wireguard_public | xray_bearer.
(** The encrypted client UUID of an Xray credential. *)
Record Envelope := { key_version : Z; nonce : text; ciphertext : text }.
Record DeviceProtocolCredential := {
  cred_id : Z;
  cred_device : Z;
  cred_profile : Z;
  cred_server : Z;
  kind : cred_kind;
  cred_state : ProvisioningState.t;
  envelope : option Envelope;
  key_material_lost_at : option Z;
  cred_revoked_at : option Z;
}.

(** [WireGuardPeer] and [XrayClient] share all columns but the last two. *)
Inductive target_kind := wireguard_peer | xray_client | device_credential | agent_operation
                       | user_target | vpn_server | auth_attempt | user_session | refresh_token
                       | password_reset_token | account_request | admin_target | admin_session
                       | admin_totp_credential | admin_recovery_code | email_delivery
                       | device_target | permission_target | assignment_target.
#[global] Instance target_kind_eq_dec : EqDecision target_kind.
Proof. solve_decision. Defined.

Inductive model := WireGuardPeer | XrayClient.
#[global] Instance model_eq_dec : EqDecision model.
Proof. solve_decision. Defined.
Definition kind_of (m : model) : target_kind :=
  match m with WireGuardPeer => wireguard_peer | XrayClient => xray_client end.

Inductive payload :=
| WireGuardColumns (public_key : text) (assigned_address : IPAddress)
| XrayColumns (opaque_label : text).

Record Row := {
  row_id : Z;
  credential_id : Z;
  row_device : Z;
  row_profile : Z;
  row_server : Z;
  columns : payload;
  state : ProvisioningState.t;
  applied_generation : Z;
  applied_at : option Z;
  revoked_at : option Z;
  updated_at : Z;
}.

Definition public_key (r : Row) : option text :=
  match columns r with WireGuardColumns k _ => Some k | XrayColumns _ => None end.
Definition assigned_address (r : Row) : option IPAddress :=
  match columns r with WireGuardColumns _ a => Some a | XrayColumns _ => None end.

Inductive operation_kind := provision_device | revoke_device.
#[global] Instance operation_kind_eq_dec : EqDecision operation_kind.
Proof. solve_decision. Defined.

Record AgentOperation := {
  op_id : Z;
  op_server : Z;
  idempotency_key : Z;
  op_kind : operation_kind;
  op_target_kind : target_kind;
  op_target_id : Z;
  op_state : OperationState.t;
  op_desired_generation : Z;
  attempt_count : Z;
  finished_at : option Z;
  op_error_code : option text;
}.

Inductive actor_of := by_system | by_user (id : Z) | by_admin (id : Z) | by_anonymous | by_bootstrap | by_worker.
Record AuditLog := {
  actor : actor_of;
  ev_target_kind : target_kind;
  ev_target_id : Z;
  event_code : text;
  outcome : text;
  reason_code : option text;
}.

Record ReconciliationRecord := {
  rec_server : Z;
  rec_operation : option Z;
  rec_kind : target_kind;
  rec_target : Z;
  rec_desired : Z;
  rec_observed : option Z;
  rec_outcome : text;
  rec_error_code : option text;
}.

(** ** The database

    [db_now] is the database's own clock ([func.now()]), [next_id] the next
    identifier [uuid4()] draws: draws never repeat. *)

Record DB := {
  users : list User;
  devices : list Device;
  profiles : list ProtocolProfile;
  servers : list VPNServer;
  capabilities : list ServerProtocolCapability;
  permissions : list UserProtocolPermission;
  assignments : list UserServerAssignment;
  credentials : list DeviceProtocolCredential;
  wireguard_peers : list Row;
  xray_clients : list Row;
  operations : list AgentOperation;
  audit : list AuditLog;
  records : list ReconciliationRecord;
  auth : AuthTables;
  db_now : Z;
  next_id : Z;
}.

Definition table (m : model) (db : DB) : list Row :=
  match m with WireGuardPeer => wireguard_peers db | XrayClient => xray_clients db end.

Definition with_users (us : list User) (db : DB) : DB :=
  {| users := us; devices := devices db; profiles := profiles db; servers := servers db;
     capabilities := capabilities db; permissions := permissions db; assignments := assignments db;
     credentials := credentials db; wireguard_peers := wireguard_peers db;
     xray_clients := xray_clients db; operations := operations db; audit := audit db;
     records := records db; auth := auth db; db_now := db_now db; next_id := next_id db |}.
Definition with_credentials (cs : list DeviceProtocolCredential) (db : DB) : DB :=
  {| users := users db; devices := devices db; profiles := profiles db; servers := servers db;
     capabilities := capabilities db; permissions := permissions db; assignments := assignments db;
     credentials := cs; wireguard_peers := wireguard_peers db;
     xray_clients := xray_clients db; operations := operations db; audit := audit db;
     records := records db; auth := auth db; db_now := db_now db; next_id := next_id db |}.
Definition with_table (m : model) (rows : list Row) (db : DB) : DB :=
  {| users := users db; devices := devices db; profiles := profiles db; servers := servers db;
     capabilities := capabilities db; permissions := permissions db; assignments := assignments db;
     credentials := credentials db;
     wireguard_peers := match m with WireGuardPeer => rows | _ => wireguard_peers db end;
     xray_clients := match m with XrayClient => rows | _ => xray_clients db end;
     operations := operations db; audit := audit db;
     records := records db; auth := auth db; db_now := db_now db; next_id := next_id db |}.
Definition with_operations (ops : list AgentOperation) (db : DB) : DB :=
  {| users := users db; devices := devices db; profiles := profiles db; servers := servers db;
     capabilities := capabilities db; permissions := permissions db; assignments := assignments db;
     credentials := credentials db; wireguard_peers := wireguard_peers db;
     xray_clients := xray_clients db; operations := ops; audit := audit db;
     records := records db; auth := auth db; db_now := db_now db; next_id := next_id db |}.
Definition with_audit (evs : list AuditLog) (db : DB) : DB :=
  {| users := users db; devices := devices db; profiles := profiles db; servers := servers db;
     capabilities := capabilities db; permissions := permissions db; assignments := assignments db;
     credentials := credentials db; wireguard_peers := wireguard_peers db;
     xray_clients := xray_clients db; operations := operations db; audit := evs;
     records := records db; auth := auth db; db_now := db_now db; next_id := next_id db |}.
Definition with_records (rs : list ReconciliationRecord) (db : DB) : DB :=
  {| users := users db; devices := devices db; profiles := profiles db; servers := servers db;
     capabilities := capabilities db; permissions := permissions db; assignments := assignments db;
     credentials := credentials db; wireguard_peers := wireguard_peers db;
     xray_clients := xray_clients db; operations := operations db; audit := audit db;
     records := rs; auth := auth db; db_now := db_now db; next_id := next_id db |}.
Definition with_next_id (n : Z) (db : DB) : DB :=
  {| users := users db; devices := devices db; profiles := profiles db; servers := servers db;
     capabilities := capabilities db; permissions := permissions db; assignments := assignments db;
     credentials := credentials db; wireguard_peers := wireguard_peers db;
     xray_clients := xray_clients db; operations := operations db; audit := audit db;
     records := records db; auth := auth db; db_now := db_now db; next_id := n |}.

Definition with_devices (ds : list Device) (db : DB) : DB :=
  {| users := users db; devices := ds; profiles := profiles db; servers := servers db;
     capabilities := capabilities db; permissions := permissions db; assignments := assignments db;
     credentials := credentials db; wireguard_peers := wireguard_peers db;
     xray_clients := xray_clients db; operations := operations db; audit := audit db;
     records := records db; auth := auth db; db_now := db_now db; next_id := next_id db |}.
Definition with_permissions (ps : list UserProtocolPermission) (db : DB) : DB :=
  {| users := users db; devices := devices db; profiles := profiles db; servers := servers db;
     capabilities := capabilities db; permissions := ps; assignments := assignments db;
     credentials := credentials db; wireguard_peers := wireguard_peers db;
     xray_clients := xray_clients db; operations := operations db; audit := audit db;
     records := records db; auth := auth db; db_now := db_now db; next_id := next_id db |}.
Definition with_assignments (asgs : list UserServerAssignment) (db : DB) : DB :=
  {| users := users db; devices := devices db; profiles := profiles db; servers := servers db;
     capabilities := capabilities db; permissions := permissions db; assignments := asgs;
     credentials := credentials db; wireguard_peers := wireguard_peers db;
     xray_clients := xray_clients db; operations := operations db; audit := audit db;
     records := records db; auth := auth db; db_now := db_now db; next_id := next_id db |}.
Definition with_auth (t : AuthTables) (db : DB) : DB :=
  {| users := users db; devices := devices db; profiles := profiles db; servers := servers db;
     capabilities := capabilities db; permissions := permissions db; assignments := assignments db;
     credentials := credentials db; wireguard_peers := wireguard_peers db;
     xray_clients := xray_clients db; operations := operations db; audit := audit db;
     records := records db; auth := t; db_now := db_now db; next_id := next_id db |}.
Definition with_sessions (rows : list UserSession) (db : DB) : DB :=
  with_auth {| sessions := rows; refresh_tokens := refresh_tokens (auth db);
               password_reset_tokens := password_reset_tokens (auth db); user_activations := user_activations (auth db);
               account_requests := account_requests (auth db); account_request_events := account_request_events (auth db);
               email_deliveries := email_deliveries (auth db); admins := admins (auth db);
               factors := factors (auth db) |} db.
Definition with_refresh_tokens (rows : list Token) (db : DB) : DB :=
  with_auth {| sessions := sessions (auth db); refresh_tokens := rows;
               password_reset_tokens := password_reset_tokens (auth db); user_activations := user_activations (auth db);
               account_requests := account_requests (auth db); account_request_events := account_request_events (auth db);
               email_deliveries := email_deliveries (auth db); admins := admins (auth db);
               factors := factors (auth db) |} db.
Definition with_password_reset_tokens (rows : list Token) (db : DB) : DB :=
  with_auth {| sessions := sessions (auth db); refresh_tokens := refresh_tokens (auth db);
               password_reset_tokens := rows; user_activations := user_activations (auth db);
               account_requests := account_requests (auth db); account_request_events := account_request_events (auth db);
               email_deliveries := email_deliveries (auth db); admins := admins (auth db);
               factors := factors (auth db) |} db.
Definition with_user_activations (rows : list Token) (db : DB) : DB :=
  with_auth {| sessions := sessions (auth db); refresh_tokens := refresh_tokens (auth db);
               password_reset_tokens := password_reset_tokens (auth db); user_activations := rows;
               account_requests := account_requests (auth db); account_request_events := account_request_events (auth db);
               email_deliveries := email_deliveries (auth db); admins := admins (auth db);
               factors := factors (auth db) |} db.
Definition with_account_requests (rows : list AccountRequest) (db : DB) : DB :=
  with_auth {| sessions := sessions (auth db); refresh_tokens := refresh_tokens (auth db);
               password_reset_tokens := password_reset_tokens (auth db); user_activations := user_activations (auth db);
               account_requests := rows; account_request_events := account_request_events (auth db);
               email_deliveries := email_deliveries (auth db); admins := admins (auth db);
               factors := factors (auth db) |} db.
Definition with_account_request_events (rows : list AccountRequestEvent) (db : DB) : DB :=
  with_auth {| sessions := sessions (auth db); refresh_tokens := refresh_tokens (auth db);
               password_reset_tokens := password_reset_tokens (auth db); user_activations := user_activations (auth db);
               account_requests := account_requests (auth db); account_request_events := rows;
               email_deliveries := email_deliveries (auth db); admins := admins (auth db);
               factors := factors (auth db) |} db.
Definition with_email_deliveries (rows : list EmailDelivery) (db : DB) : DB :=
  with_auth {| sessions := sessions (auth db); refresh_tokens := refresh_tokens (auth db);
               password_reset_tokens := password_reset_tokens (auth db); user_activations := user_activations (auth db);
               account_requests := account_requests (auth db); account_request_events := account_request_events (auth db);
               email_deliveries := rows; admins := admins (auth db);
               factors := factors (auth db) |} db.
Definition with_admins (rows : list AdminUser) (db : DB) : DB :=
  with_auth {| sessions := sessions (auth db); refresh_tokens := refresh_tokens (auth db);
               password_reset_tokens := password_reset_tokens (auth db); user_activations := user_activations (auth db);
               account_requests := account_requests (auth db); account_request_events := account_request_events (auth db);
               email_deliveries := email_deliveries (auth db); admins := rows; factors := factors (auth db) |} db.
Definition with_factors (f : FactorTables) (db : DB) : DB :=
  with_auth {| sessions := sessions (auth db); refresh_tokens := refresh_tokens (auth db);
               password_reset_tokens := password_reset_tokens (auth db); user_activations := user_activations (auth db);
               account_requests := account_requests (auth db); account_request_events := account_request_events (auth db);
               email_deliveries := email_deliveries (auth db); admins := admins (auth db); factors := f |} db.
Definition with_totp (rows : list AdminTotpCredential) (db : DB) : DB :=
  with_factors {| totp_credentials := rows; recovery_codes := recovery_codes (factors (auth db));
                  passkeys := passkeys (factors (auth db)) |} db.
Definition with_codes (rows : list AdminMfaRecoveryCode) (db : DB) : DB :=
  with_factors {| totp_credentials := totp_credentials (factors (auth db)); recovery_codes := rows;
                  passkeys := passkeys (factors (auth db)) |} db.
Definition with_passkeys (rows : list AdminPasskey) (db : DB) : DB :=
  with_factors {| totp_credentials := totp_credentials (factors (auth db));
                  recovery_codes := recovery_codes (factors (auth db)); passkeys := rows |} db.

(** ** Queries: the first row a [WHERE] matches, in the table's order *)

Fixpoint scalar {A} (where_ : A -> bool) (rows : list A) : option A :=
  match rows with
  | [] => None
  | r :: rows' => if where_ r then Some r else scalar where_ rows'
  end.
Definition scalars {A} (where_ : A -> bool) (rows : list A) : list A :=
  filter (fun r => where_ r = true) rows.

Definition in_states (ss : list ProvisioningState.t) (s : ProvisioningState.t) : bool :=
  bool_decide (s ∈ ss).

Definition _LIVE_PEER_STATES : list ProvisioningState.t :=
  [ProvisioningState.REQUESTED; ProvisioningState.APPLYING; ProvisioningState.ACTIVE;
   ProvisioningState.REVOKING].
Definition live (r : Row) : bool := in_states _LIVE_PEER_STATES (state r).

Definition get_user (id : Z) (db : DB) : option User := scalar (fun u => user_id u =? id) (users db).
Definition get_device (id : Z) (db : DB) : option Device :=
  scalar (fun d => device_id d =? id) (devices db).
Definition get_row (m : model) (id : Z) (db : DB) : option Row :=
  scalar (fun r => row_id r =? id) (table m db).
Definition get_credential (id : Z) (db : DB) : option DeviceProtocolCredential :=
  scalar (fun c => cred_id c =? id) (credentials db).
Definition get_operation (id : Z) (db : DB) : option AgentOperation :=
  scalar (fun o => op_id o =? id) (operations db).

(** ** Updates *)

Definition update {A} (id_of : A -> Z) (id : Z) (f : A -> A) (rows : list A) : list A :=
  (fun r => if id_of r =? id then f r else r) <$> rows.

(** [UPDATE ... WHERE] and [DELETE ... WHERE] *)
Definition update_where {A} (where_ : A -> bool) (f : A -> A) (rows : list A) : list A :=
  (fun r => if where_ r then f r else r) <$> rows.
Definition delete_where {A} (where_ : A -> bool) (rows : list A) : list A :=
  filter (fun r => where_ r = false) rows.
#[global] Arguments update_where : simpl never.
#[global] Arguments delete_where : simpl never.

(** The ORM's [onupdate=func.now()]. *)
Definition touch (now : Z) (r : Row) : Row :=
  {| row_id := row_id r; credential_id := credential_id r; row_device := row_device r;
     row_profile := row_profile r; row_server := row_server r; columns := columns r;
     state := state r; applied_generation := applied_generation r; applied_at := applied_at r;
     revoked_at := revoked_at r; updated_at := now |}.
Definition set_state (s : ProvisioningState.t) (r : Row) : Row :=
  {| row_id := row_id r; credential_id := credential_id r; row_device := row_device r;
     row_profile := row_profile r; row_server := row_server r; columns := columns r;
     state := s; applied_generation := applied_generation r; applied_at := applied_at r;
     revoked_at := revoked_at r; updated_at := updated_at r |}.
Definition set_applied (g : Z) (at_ : Z) (r : Row) : Row :=
  {| row_id := row_id r; credential_id := credential_id r; row_device := row_device r;
     row_profile := row_profile r; row_server := row_server r; columns := columns r;
     state := state r; applied_generation := g; applied_at := Some at_;
     revoked_at := revoked_at r; updated_at := updated_at r |}.
Definition set_revoked_at (at_ : Z) (r : Row) : Row :=
  {| row_id := row_id r; credential_id := credential_id r; row_device := row_device r;
     row_profile := row_profile r; row_server := row_server r; columns := columns r;
     state := state r; applied_generation := applied_generation r; applied_at := applied_at r;
     revoked_at := Some at_; updated_at := updated_at r |}.
Definition set_columns (c : payload) (profile : Z) (r : Row) : Row :=
  {| row_id := row_id r; credential_id := credential_id r; row_device := row_device r;
     row_profile := profile; row_server := row_server r; columns := c;
     state := state r; applied_generation := applied_generation r; applied_at := applied_at r;
     revoked_at := revoked_at r; updated_at := updated_at r |}.

Definition update_row (m : model) (now id : Z) (f : Row -> Row) (db : DB) : DB :=
  with_table m (update row_id id (fun r => touch now (f r)) (table m db)) db.

Definition set_cred_state (s : ProvisioningState.t) (c : DeviceProtocolCredential) :
    DeviceProtocolCredential :=
  {| cred_id := cred_id c; cred_device := cred_device c; cred_profile := cred_profile c;
     cred_server := cred_server c; kind := kind c; cred_state := s; envelope := envelope c;
     key_material_lost_at := key_material_lost_at c; cred_revoked_at := cred_revoked_at c |}.
Definition set_cred_revoked_at (at_ : Z) (c : DeviceProtocolCredential) : DeviceProtocolCredential :=
  {| cred_id := cred_id c; cred_device := cred_device c; cred_profile := cred_profile c;
     cred_server := cred_server c; kind := kind c; cred_state := cred_state c; envelope := envelope c;
     key_material_lost_at := key_material_lost_at c; cred_revoked_at := Some at_ |}.
Definition set_cred_profile (p : Z) (c : DeviceProtocolCredential) : DeviceProtocolCredential :=
  {| cred_id := cred_id c; cred_device := cred_device c; cred_profile := p;
     cred_server := cred_server c; kind := kind c; cred_state := cred_state c; envelope := envelope c;
     key_material_lost_at := key_material_lost_at c; cred_revoked_at := cred_revoked_at c |}.
Definition update_credential (id : Z) (f : DeviceProtocolCredential -> DeviceProtocolCredential)
    (db : DB) : DB :=
  with_credentials (update cred_id id f (credentials db)) db.

(** A row and the credential behind it, changed in one transaction. *)
Definition settle (m : model) (now id cid : Z) (f : Row -> Row)
    (g : DeviceProtocolCredential -> DeviceProtocolCredential) (db : DB) : DB :=
  update_credential cid g (update_row m now id f db).

(** [err]: the error code to set, or to leave as it is. *)
Definition finish_op (s : OperationState.t) (at_ : Z) (err : option (option text)) (o : AgentOperation) :
    AgentOperation :=
  {| op_id := op_id o; op_server := op_server o; idempotency_key := idempotency_key o;
     op_kind := op_kind o; op_target_kind := op_target_kind o; op_target_id := op_target_id o;
     op_state := s; op_desired_generation := op_desired_generation o;
     attempt_count := attempt_count o; finished_at := Some at_;
     op_error_code := default (op_error_code o) err |}.
Definition update_operation (id : Z) (f : AgentOperation -> AgentOperation) (db : DB) : DB :=
  with_operations (update op_id id f (operations db)) db.

Definition add_audit_event (ev : AuditLog) (db : DB) : DB := with_audit (audit db ++ [ev]) db.

(** ** Constraints and transactions *)

(** A partial unique index: no two rows in its scope agree on its columns. *)
Definition unique {A K} `{EqDecision K} (scope : A -> bool) (key : A -> K) (rows : list A) : bool :=
  bool_decide (NoDup (key <$> scalars scope rows)).

Definition cred_live (c : DeviceProtocolCredential) : bool :=
  in_states _LIVE_PEER_STATES (cred_state c).
Definition op_inflight (o : AgentOperation) : bool :=
  bool_decide (op_state o = OperationState.PENDING) || bool_decide (op_state o = OperationState.RUNNING).

Definition constraints (db : DB) : bool :=
  unique live (fun r => (row_server r, public_key r)) (wireguard_peers db) &&
  unique live (fun r => (row_server r, assigned_address r)) (wireguard_peers db) &&
  unique live (fun r => (row_device r, row_server r)) (wireguard_peers db) &&
  unique live (fun r => (row_device r, row_profile r, row_server r)) (xray_clients db) &&
  unique cred_live (fun c => (cred_device c, cred_profile c, cred_server c)) (credentials db) &&
  unique op_inflight (fun o => (op_server o, op_target_kind o, op_target_id o)) (operations db).

(** [async with session_factory() as session: ...; await session.commit()]:
    an exception, or a constraint violated, leaves the database as it was. *)
Definition transaction {E A} (integrity : E) (body : prog DB E A) : prog DB E A := fun db =>
  match body db with
  | (Ok a, db') => if constraints db' then (Ok a, db')
                   else (Err integrity, with_next_id (next_id db') db)
  | (Err e, db') => (Err e, with_next_id (next_id db') db)
  end.

Definition uuid4 {E} : prog DB E Z := fun db => (Ok (next_id db), with_next_id (next_id db + 1) db).

(** ** Lemmas *)

Section Tables.
Context {A : Type}.
Implicit Types (rows : list A) (p : A -> bool).

Lemma scalar_Some p rows r : scalar p rows = Some r -> r ∈ rows /\ p r = true.
Proof.
  induction rows as [|x rows IH]; cbn; [done|]. destruct (p x) eqn:Hp; intros H.
  - simplify_eq. split; [by left|done].
  - destruct (IH H). split; [by right|done].
Qed.

Lemma scalar_None p rows : scalar p rows = None <-> Forall (fun r => p r = false) rows.
Proof.
  induction rows as [|x rows IH]; cbn; [by split; [constructor|]|]. destruct (p x) eqn:Hp.
  - split; [done|]. intros H. apply Forall_cons in H as [? _]. congruence.
  - rewrite IH, Forall_cons. naive_solver.
Qed.

Lemma scalar_fmap p (h : A -> A) rows :
  (forall r, p (h r) = p r) -> scalar p (h <$> rows) = h <$> scalar p rows.
Proof. intros Hh. induction rows as [|x rows IH]; cbn; [done|]. rewrite Hh. by destruct (p x). Qed.

Lemma scalars_fmap p (h : A -> A) rows :
  (forall r, p (h r) = p r) -> scalars p (h <$> rows) = h <$> scalars p rows.
Proof.
  intros Hh. unfold scalars. induction rows as [|x rows IH]; [done|].
  rewrite fmap_cons, !filter_cons, Hh. case_decide; [|done]. by rewrite fmap_cons, IH.
Qed.

Lemma elem_of_scalars p rows r : r ∈ scalars p rows <-> r ∈ rows /\ p r = true.
Proof. unfold scalars. rewrite list_elem_of_filter. naive_solver. Qed.

Lemma scalar_update (id_of : A -> Z) id id' f rows :
  (forall r, id_of (f r) = id_of r) ->
  scalar (fun r => id_of r =? id') (update id_of id f rows) =
  (if id' =? id then f <$> scalar (fun r => id_of r =? id') rows
   else scalar (fun r => id_of r =? id') rows).
Proof.
  intros Hf. induction rows as [|x rows IH]; cbn; [by destruct (id' =? id)|].
  fold (update id_of id f rows). destruct (id_of x =? id) eqn:Hx; rewrite ?Hf.
  - boolP. destruct (id_of x =? id') eqn:Hx'; [|done]. boolP.
    replace (id' =? id) with true by (symmetry; apply Z.eqb_eq; congruence). done.
  - destruct (id_of x =? id') eqn:Hx'; [|done]. boolP.
    replace (id' =? id) with false by (symmetry; apply Z.eqb_neq; congruence). done.
Qed.
End Tables.

Lemma get_row_settle m now id cid f g m' id' db :
  (forall r, row_id (f r) = row_id r) ->
  get_row m' id' (settle m now id cid f g db) =
    if bool_decide (m' = m) && (id' =? id) then (fun r => touch now (f r)) <$> get_row m' id' db
    else get_row m' id' db.
Proof.
  intros Hf. unfold get_row, settle, update_credential, update_row.
  assert (Hm : forall rows, table m' (with_credentials (update cred_id cid g (credentials db))
                              (with_table m rows db)) = if decide (m' = m) then rows else table m' db)
    by (intros; by destruct m, m').
  change (credentials (with_table m _ db)) with (credentials db). rewrite Hm.
  destruct (decide (m' = m)) as [->|Hne].
  - rewrite bool_decide_eq_true_2 by done. cbn [andb].
    rewrite (scalar_update row_id id id' (fun r => touch now (f r))); done.
  - by rewrite bool_decide_eq_false_2.
Qed.

Lemma get_credential_settle m now id cid f g cid' db :
  (forall c, cred_id (g c) = cred_id c) ->
  get_credential cid' (settle m now id cid f g db) =
    if cid' =? cid then g <$> get_credential cid' db else get_credential cid' db.
Proof.
  intros Hg. unfold get_credential, settle, update_credential, with_credentials, update_row, with_table.
  cbn [credentials]. by rewrite scalar_update.
Qed.

(** *** Well-formedness

    Identifiers are primary keys, drawn before; a row's credential is there,
    is no other row's, and is live exactly when the row is. *)

Definition all_rows (db : DB) : list Row := wireguard_peers db ++ xray_clients db.

Record wf_core (db : DB) : Prop := {
  wf_rows : NoDup (row_id <$> all_rows db);
  wf_credentials : NoDup (cred_id <$> credentials db);
  wf_operations : NoDup (op_id <$> operations db);
  wf_fresh : Forall (fun n => n < next_id db)
               ((row_id <$> all_rows db) ++ (cred_id <$> credentials db) ++ (op_id <$> operations db));
  wf_own_credential : NoDup (credential_id <$> all_rows db);
  wf_paired : Forall (fun r => exists c, get_credential (credential_id r) db = Some c /\
                                 cred_live c = live r) (all_rows db);
}.
Record db_wf (db : DB) : Prop := {
  db_wf_core :> wf_core db;
  wf_constraints : constraints db = true;
}.

Lemma unique_update {A K} `{EqDecision K} (scope : A -> bool) (key : A -> K) id_of id f rows :
  (forall r, r ∈ rows -> id_of r = id -> scope (f r) = true -> scope r = true /\ key (f r) = key r) ->
  unique scope key rows = true -> unique scope key (update id_of id f rows) = true.
Proof.
  unfold unique, scalars. intros Hf Hu. boolP. apply bool_decide_eq_true_2.
  eapply sublist_NoDup; [exact Hu|]. clear Hu. unfold update.
  induction rows as [|r rows IH]; [done|]. rewrite fmap_cons, !filter_cons.
  assert (IH' : (key <$> filter (fun r0 => scope r0 = true)
                   ((fun r0 => if id_of r0 =? id then f r0 else r0) <$> rows))
                `sublist_of` (key <$> filter (fun r0 => scope r0 = true) rows)).
  { apply IH. intros. apply Hf; [by right|done|done]. }
  destruct (id_of r =? id) eqn:Hid.
  - boolP. destruct (decide (scope (f r) = true)) as [Hs|Hs].
    + destruct (Hf r ltac:(by left) Hid Hs) as [Hr Hk]. rewrite decide_True by done.
      rewrite !fmap_cons, Hk. by apply sublist_skip.
    + destruct (decide (scope r = true)); [|done]. rewrite fmap_cons. by apply sublist_cons.
  - destruct (decide (scope r = true)); [|done]. rewrite !fmap_cons. by apply sublist_skip.
Qed.

Section Keyed.
Context {A : Type} (id_of : A -> Z).

Lemma update_ids id f rows : (forall r, id_of (f r) = id_of r) -> id_of <$> update id_of id f rows = id_of <$> rows.
Proof.
  intros Hf. unfold update. rewrite <- list_fmap_compose. apply list_fmap_ext. intros _ r _. cbn.
  by destruct (id_of r =? id).
Qed.

Lemma update_absent id f rows : id ∉ id_of <$> rows -> update id_of id f rows = rows.
Proof.
  induction rows as [|r rows IH]; [done|]. rewrite fmap_cons, not_elem_of_cons. intros [Hr Hrows].
  unfold update. cbn. destruct (id_of r =? id) eqn:He; boolP; [congruence|].
  f_equal. by apply IH.
Qed.

Lemma update_app id f l1 l2 :
  update id_of id f (l1 ++ l2) = update id_of id f l1 ++ update id_of id f l2.
Proof. apply fmap_app. Qed.

Lemma elem_of_update id f rows r :
  r ∈ update id_of id f rows ->
  (exists r0, r0 ∈ rows /\ id_of r0 = id /\ r = f r0) \/ (r ∈ rows /\ id_of r <> id).
Proof.
  intros Hin. apply list_elem_of_fmap in Hin as (r0 & -> & Hin).
  destruct (id_of r0 =? id) eqn:He; boolP; [left; eauto|by right].
Qed.

Lemma scalar_id rows r :
  NoDup (id_of <$> rows) -> r ∈ rows -> scalar (fun x => id_of x =? id_of r) rows = Some r.
Proof.
  induction rows as [|x rows IH]; intros Hnd Hin; [by apply not_elem_of_nil in Hin|].
  rewrite fmap_cons in Hnd. apply NoDup_cons in Hnd as [Hx Hnd]. cbn.
  apply elem_of_cons in Hin as [->|Hin]; [by rewrite Z.eqb_refl|].
  destruct (id_of x =? id_of r) eqn:He; boolP; [|auto]. exfalso. apply Hx. rewrite He.
  by apply list_elem_of_fmap_2.
Qed.

Lemma same_id rows r r' :
  NoDup (id_of <$> rows) -> r ∈ rows -> r' ∈ rows -> id_of r = id_of r' -> r = r'.
Proof.
  intros Hnd Hr Hr' He. pose proof (scalar_id _ _ Hnd Hr) as H1. pose proof (scalar_id _ _ Hnd Hr') as H2.
  rewrite He in H1. congruence.
Qed.
End Keyed.

Lemma table_all_rows m db r : r ∈ table m db -> r ∈ all_rows db.
Proof. unfold all_rows. rewrite elem_of_app. destruct m; auto. Qed.

Lemma get_row_elem m id db r : get_row m id db = Some r -> r ∈ table m db /\ row_id r = id.
Proof. unfold get_row. intros H. apply scalar_Some in H as [? ?]. by boolP. Qed.

Lemma wf_table_ids db m : wf_core db -> NoDup (row_id <$> table m db).
Proof.
  intros Hwf. pose proof (wf_rows _ Hwf) as H. unfold all_rows in H. rewrite fmap_app in H.
  apply NoDup_app in H as (? & _ & ?). by destruct m.
Qed.

Lemma get_row_wf db m r : wf_core db -> r ∈ table m db -> get_row m (row_id r) db = Some r.
Proof. intros Hwf Hr. by apply scalar_id; [apply wf_table_ids|]. Qed.

(** What a change of a row and its credential may do: keep what the indexes
    are over, and not bring a dead row back to life. *)
Definition keeps_row (f : Row -> Row) : Prop :=
  forall r, row_id (f r) = row_id r /\ credential_id (f r) = credential_id r /\
    row_device (f r) = row_device r /\ row_profile (f r) = row_profile r /\
    row_server (f r) = row_server r /\ columns (f r) = columns r.
Definition keeps_credential (g : DeviceProtocolCredential -> DeviceProtocolCredential) : Prop :=
  forall c, cred_id (g c) = cred_id c /\ cred_device (g c) = cred_device c /\
    cred_profile (g c) = cred_profile c /\ cred_server (g c) = cred_server c.

Lemma settle_all_rows m now id cid f g db :
  wf_core db -> is_Some (get_row m id db) ->
  all_rows (settle m now id cid f g db) = update row_id id (fun r => touch now (f r)) (all_rows db).
Proof.
  intros Hwf [r Hr]. apply get_row_elem in Hr as [Hr <-].
  pose proof (wf_rows _ Hwf) as Hnd. unfold all_rows in *. rewrite fmap_app in Hnd.
  apply NoDup_app in Hnd as (_ & Hdis & _). rewrite update_app.
  assert (row_id r ∈ row_id <$> table m db) by (by apply list_elem_of_fmap_2).
  destruct m; cbn in *; f_equal; symmetry; apply update_absent; [apply Hdis; done|].
  intros Hin. by apply (Hdis (row_id r)).
Qed.

Lemma keeps_row_touch now f : keeps_row f -> keeps_row (fun r => touch now (f r)).
Proof. intros Hf r. exact (Hf r). Qed.

Lemma public_key_columns r r' : columns r = columns r' -> public_key r = public_key r'.
Proof. unfold public_key. by intros ->. Qed.
Lemma assigned_address_columns r r' : columns r = columns r' -> assigned_address r = assigned_address r'.
Proof. unfold assigned_address. by intros ->. Qed.

Lemma settle_constraints m now id cid f g db r c :
  db_wf db -> get_row m id db = Some r -> get_credential cid db = Some c ->
  keeps_row f -> keeps_credential g ->
  (live (f r) = true -> live r = true) -> (cred_live (g c) = true -> cred_live c = true) ->
  constraints (settle m now id cid f g db) = true.
Proof.
  intros Hwf Hr Hc Hf Hg Hl Hcl. pose proof (wf_constraints _ Hwf) as Hcs. unfold constraints in *.
  repeat (apply andb_true_iff in Hcs as [Hcs ?]).
  assert (Hcred : forall c', c' ∈ credentials db -> cred_id c' = cid -> c' = c).
  { intros c' Hin Hid. apply scalar_Some in Hc as [Hin' Hid']. boolP.
    apply (same_id cred_id (credentials db)); [apply wf_credentials, Hwf|done|done|congruence]. }
  assert (Hrow : forall r', r' ∈ table m db -> row_id r' = id -> r' = r).
  { intros r' Hin Hid. apply get_row_elem in Hr as [Hin' Hid'].
    apply (same_id row_id (table m db)); [apply wf_table_ids, Hwf|done|done|congruence]. }
  assert (Hu : forall K (HK : EqDecision K) (key : Row -> K),
    (forall r, key (touch now (f r)) = key r) -> unique live key (table m db) = true ->
    unique live key (update row_id id (fun r => touch now (f r)) (table m db)) = true).
  { intros K HK key Hkey. apply unique_update. intros r' Hin Hid Hlive.
    rewrite (Hrow r' Hin Hid) in *. split; [by apply Hl|apply Hkey]. }
  assert (Hcu : unique cred_live (fun c => (cred_device c, cred_profile c, cred_server c))
                  (update cred_id cid g (credentials db)) = true).
  { apply unique_update; [|done]. intros c' Hin Hid Hlive. rewrite (Hcred c' Hin Hid) in *.
    destruct (Hg c) as (_ & -> & -> & ->). split; [by apply Hcl|done]. }
  assert (Hkeys : forall r, columns (touch now (f r)) = columns r /\ row_server (touch now (f r)) = row_server r
    /\ row_device (touch now (f r)) = row_device r /\ row_profile (touch now (f r)) = row_profile r).
  { intros r'. destruct (Hf r') as (_ & _ & ? & ? & ? & ?). done. }
  destruct m; cbn [settle update_credential with_credentials update_row with_table wireguard_peers
                   xray_clients credentials operations table] in *;
    repeat (apply andb_true_iff; split); try done; apply Hu; try done; intros r';
    destruct (Hkeys r') as (Hcol & Hs & Hd & Hp);
    by rewrite ?Hs, ?Hd, ?Hp, ?(public_key_columns _ _ Hcol), ?(assigned_address_columns _ _ Hcol).
Qed.

Lemma settle_core m now id f g db r c :
  wf_core db -> get_row m id db = Some r -> get_credential (credential_id r) db = Some c ->
  (forall r, row_id (f r) = row_id r /\ credential_id (f r) = credential_id r) ->
  (forall c, cred_id (g c) = cred_id c) -> cred_live (g c) = live (f r) ->
  wf_core (settle m now id (credential_id r) f g db).
Proof.
  intros Hwf Hr Hc Hf Hg Hpair.
  pose proof (settle_all_rows m now id (credential_id r) f g db Hwf ltac:(by eexists)) as Hall.
  pose proof (get_row_elem _ _ _ _ Hr) as [Hin Hid]. apply table_all_rows in Hin.
  assert (Hids : row_id <$> all_rows (settle m now id (credential_id r) f g db) = row_id <$> all_rows db).
  { rewrite Hall. apply update_ids. intros r'. apply Hf. }
  assert (Hcids : cred_id <$> credentials (settle m now id (credential_id r) f g db) = cred_id <$> credentials db).
  { destruct m; apply update_ids; apply Hg. }
  constructor.
  - rewrite Hids. apply Hwf.
  - rewrite Hcids. apply Hwf.
  - destruct m; apply Hwf.
  - rewrite Hids, Hcids. destruct m; apply Hwf.
  - rewrite Hall. replace (credential_id <$> update _ _ _ _) with (credential_id <$> all_rows db); [apply Hwf|].
    unfold update. rewrite <- list_fmap_compose. apply list_fmap_ext. intros _ r' _. cbn.
    destruct (row_id r' =? id); [symmetry; apply Hf|done].
  - rewrite Hall. apply Forall_forall. intros r' Hr'.
    apply elem_of_update in Hr' as [(r0 & Hr0 & Hid0 & ->)|[Hr' Hne]].
    + assert (r0 = r) as -> by (apply (same_id row_id (all_rows db)); [apply Hwf|done|done|congruence]).
      exists (g c). cbn [touch credential_id]. destruct (Hf r) as (_ & ->).
      rewrite get_credential_settle by apply Hg. rewrite Z.eqb_refl, Hc. split; [done|].
      exact Hpair.
    + destruct (proj1 (Forall_forall _ _) (wf_paired _ Hwf) r' Hr') as (c' & Hc' & Hl').
      exists c'. rewrite get_credential_settle by apply Hg.
      destruct (credential_id r' =? credential_id r) eqn:He; [|done]. boolP. exfalso. apply Hne.
      assert (r' = r) as -> by (by apply (same_id credential_id (all_rows db)); [apply Hwf|..]). done.
Qed.

(** The credential of a row is there and as live as the row. *)
Lemma wf_credential db m r :
  wf_core db -> r ∈ table m db ->
  exists c, get_credential (credential_id r) db = Some c /\ cred_live c = live r.
Proof.
  intros Hwf Hr. apply (proj1 (Forall_forall _ _) (wf_paired _ Hwf) r). by eapply table_all_rows.
Qed.

Lemma settle_wf m now id f g db r c :
  db_wf db -> get_row m id db = Some r -> get_credential (credential_id r) db = Some c ->
  keeps_row f -> keeps_credential g ->
  (live (f r) = true -> live r = true) -> cred_live (g c) = live (f r) ->
  db_wf (settle m now id (credential_id r) f g db).
Proof.
  intros Hwf Hr Hc Hf Hg Hl Hpair. split.
  - eapply settle_core; try done; [apply Hwf|intros r'; split; apply Hf|apply Hg].
  - eapply settle_constraints; try done. rewrite Hpair.
    destruct (wf_credential db m r Hwf) as (c0 & Hc0 & Hlc); [by apply get_row_elem in Hr as []|].
    assert (c0 = c) as -> by congruence. by rewrite Hlc.
Qed.

(** *** Finishing an operation *)

Lemma finish_operation_wf id st at_ err db :
  db_wf db -> st <> OperationState.PENDING -> st <> OperationState.RUNNING ->
  db_wf (update_operation id (finish_op st at_ err) db).
Proof.
  intros Hwf H1 H2. split.
  - destruct Hwf as [[] _]. constructor; try done; cbn; by rewrite (update_ids op_id).
  - pose proof (wf_constraints _ Hwf) as Hcs. unfold constraints in *. apply andb_true_iff in Hcs as [Hcs Hop].
    apply andb_true_iff. split; [done|]. apply unique_update; [|done]. intros o _ _ Hin. exfalso.
    unfold op_inflight in Hin. cbn in Hin.
    rewrite (bool_decide_eq_false_2 (st = OperationState.PENDING)) in Hin by done.
    rewrite (bool_decide_eq_false_2 (st = OperationState.RUNNING)) in Hin by done. done.
Qed.

Lemma db_wf_audit ev db : db_wf db -> db_wf (add_audit_event ev db).
Proof. intros [[] ?]. by repeat constructor. Qed.

(** *** New rows *)

Lemma scalar_app_None {A} (p : A -> bool) l1 l2 : scalar p l1 = None -> scalar p (l1 ++ l2) = scalar p l2.
Proof. induction l1 as [|x l1 IH]; cbn; [done|]. destruct (p x); [done|auto]. Qed.

Lemma scalar_app_Some {A} (p : A -> bool) l1 l2 x : scalar p l1 = Some x -> scalar p (l1 ++ l2) = Some x.
Proof. induction l1 as [|y l1 IH]; cbn; [done|]. destruct (p y); [done|auto]. Qed.

Lemma scalar_fresh {A} (id_of : A -> Z) rows n :
  Forall (fun i => i < n) (id_of <$> rows) -> scalar (fun r => id_of r =? n) rows = None.
Proof.
  intros Hf. apply scalar_None. apply Forall_fmap in Hf. eapply Forall_impl; [exact Hf|].
  intros r Hr. cbn in Hr. apply Z.eqb_neq. lia.
Qed.

(** Where the fresh identifiers come from. *)
Lemma wf_fresh_parts db :
  wf_core db ->
  Forall (fun i => i < next_id db) (row_id <$> all_rows db) /\
  Forall (fun i => i < next_id db) (cred_id <$> credentials db) /\
  Forall (fun i => i < next_id db) (op_id <$> operations db).
Proof. intros Hwf. pose proof (wf_fresh _ Hwf) as H. apply Forall_app in H as [? H]. by apply Forall_app in H as [? ?]. Qed.

Lemma lt_weaken n m (l : list Z) : n <= m -> Forall (fun i => i < n) l -> Forall (fun i => i < m) l.
Proof. intros ? H. eapply Forall_impl; [exact H|]. cbn. lia. Qed.

Lemma not_elem_fresh n (l : list Z) : Forall (fun i => i < n) l -> n ∉ l.
Proof. intros H Hin. rewrite Forall_forall in H. specialize (H n Hin). cbn in H. lia. Qed.

(** A credential and its row, under the next two identifiers. *)
Definition add_pair (m : model) (c : DeviceProtocolCredential) (r : Row) (db : DB) : DB :=
  with_next_id (next_id db + 2) (with_table m (table m db ++ [r]) (with_credentials (credentials db ++ [c]) db)).

Lemma add_pair_rows m c r db : all_rows (add_pair m c r db) ≡ₚ r :: all_rows db.
Proof.
  unfold all_rows. destruct m; cbn.
  - rewrite <- app_assoc. symmetry. apply Permutation_middle.
  - rewrite app_assoc. symmetry. apply Permutation_cons_append.
Qed.

Lemma add_pair_core m c r db :
  wf_core db -> cred_id c = next_id db -> row_id r = next_id db + 1 -> credential_id r = next_id db ->
  cred_live c = live r -> wf_core (add_pair m c r db).
Proof.
  intros Hwf Hc Hr Hrc Hl. destruct (wf_fresh_parts _ Hwf) as (F1 & F2 & F3).
  pose proof (add_pair_rows m c r db) as Hp.
  assert (Hcs : credentials (add_pair m c r db) = credentials db ++ [c]) by (by destruct m).
  assert (Hgc : forall k, k <> next_id db -> get_credential k (add_pair m c r db) = get_credential k db).
  { intros k Hk. unfold get_credential. rewrite Hcs. destruct (scalar _ (credentials db)) eqn:Hs.
    - by apply scalar_app_Some.
    - rewrite (scalar_app_None _ _ _ Hs). cbn. rewrite Hc. by destruct (next_id db =? k) eqn:He; boolP. }
  assert (Hold : Forall (fun r0 => credential_id r0 <> next_id db) (all_rows db)).
  { eapply Forall_impl; [apply (wf_paired _ Hwf)|]. intros r0 (c0 & Hc0 & _) He.
    apply scalar_Some in Hc0 as [Hin He']. boolP.
    apply (not_elem_fresh _ _ F2). rewrite <- He, <- He'. by apply list_elem_of_fmap_2. }
  assert (Hops : operations (add_pair m c r db) = operations db) by (by destruct m).
  assert (Hnx : next_id (add_pair m c r db) = next_id db + 2) by (by destruct m).
  constructor.
  - rewrite Hp, fmap_cons, Hr. apply NoDup_cons. split; [|apply Hwf].
    apply not_elem_fresh. eapply lt_weaken; [|exact F1]. lia.
  - rewrite Hcs, fmap_app, NoDup_app. split; [apply Hwf|]. split; [|apply NoDup_singleton].
    intros x Hx Hx2. apply list_elem_of_singleton in Hx2 as ->. rewrite Hc in Hx. by apply (not_elem_fresh _ _ F2).
  - rewrite Hops. apply Hwf.
  - rewrite Hp, Hcs, Hops, Hnx, fmap_cons, fmap_app, !Forall_app.
    repeat split; repeat constructor; cbn; try lia; eapply lt_weaken; try eassumption; lia.
  - rewrite Hp, fmap_cons, Hrc. apply NoDup_cons. split; [|apply Hwf].
    intros Hin. apply list_elem_of_fmap in Hin as (r0 & He & Hin).
    by apply (proj1 (Forall_forall _ _) Hold r0 Hin).
  - rewrite Hp. apply Forall_cons. split.
    + exists c. split; [|done]. unfold get_credential. rewrite Hcs, scalar_app_None.
      * cbn. by rewrite Hc, Hrc, Z.eqb_refl.
      * rewrite Hrc. by apply scalar_fresh.
    + apply Forall_forall. intros r0 Hr0.
      destruct (proj1 (Forall_forall _ _) (wf_paired _ Hwf) r0 Hr0) as (c0 & Hc0 & Hl0).
      exists c0. rewrite Hgc; [done|]. by apply (proj1 (Forall_forall _ _) Hold r0).
Qed.

(** An operation under the next identifier but one (its own key is drawn too). *)
Definition add_op (o : AgentOperation) (db : DB) : DB :=
  with_next_id (next_id db + 2) (with_operations (operations db ++ [o]) db).

Lemma add_op_core o db : wf_core db -> op_id o = next_id db -> wf_core (add_op o db).
Proof.
  intros Hwf Ho. destruct (wf_fresh_parts _ Hwf) as (F1 & F2 & F3).
  constructor; try apply Hwf.
  - cbn. rewrite fmap_app, NoDup_app. split; [apply Hwf|]. split; [|apply NoDup_singleton].
    intros x Hx Hx2. apply list_elem_of_singleton in Hx2 as ->. rewrite Ho in Hx. by apply (not_elem_fresh _ _ F3).
  - cbn [add_op with_next_id with_operations operations credentials all_rows wireguard_peers xray_clients next_id].
    change (wireguard_peers db ++ xray_clients db) with (all_rows db).
    rewrite (fmap_app op_id), !Forall_app.
    repeat split; repeat constructor; cbn; try lia; eapply lt_weaken; try eassumption; lia.
Qed.

(** Well-formedness is decidable. *)
Definition db_wfb (db : DB) : bool :=
  bool_decide (NoDup (row_id <$> all_rows db)) && bool_decide (NoDup (cred_id <$> credentials db)) &&
  bool_decide (NoDup (op_id <$> operations db)) &&
  forallb (fun n => n <? next_id db)
    ((row_id <$> all_rows db) ++ (cred_id <$> credentials db) ++ (op_id <$> operations db)) &&
  bool_decide (NoDup (credential_id <$> all_rows db)) &&
  forallb (fun r => match get_credential (credential_id r) db with
                    | Some c => Bool.eqb (cred_live c) (live r) | None => false end) (all_rows db) &&
  constraints db.

Lemma db_wfb_ok db : db_wfb db = true -> db_wf db.
Proof.
  unfold db_wfb. rewrite !andb_true_iff, !forallb_forall. intros ((((((H1 & H2) & H3) & H4) & H5) & H6) & H7).
  split; [|done]. constructor; try (by eapply bool_decide_eq_true_1).
  - apply Forall_forall. intros n Hn%list_elem_of_In. by apply Z.ltb_lt, H4.
  - apply Forall_forall. intros r Hr%list_elem_of_In. specialize (H6 r Hr). destruct (get_credential _ db) as [c|]; [|done].
    apply Bool.eqb_prop in H6. by exists c.
Qed.

(** ** Tables under [UPDATE ... WHERE] *)

Section Where.
Context {A : Type}.
Implicit Types (p : A -> bool) (f : A -> A) (rows : list A).

Lemma update_where_ids (id_of : A -> Z) p f rows :
  (forall r, id_of (f r) = id_of r) -> id_of <$> update_where p f rows = id_of <$> rows.
Proof.
  intros Hf. unfold update_where. rewrite <- list_fmap_compose. apply list_fmap_ext. intros _ r _. cbn. by destruct (p r).
Qed.
Lemma elem_of_update_where p f rows x :
  x ∈ update_where p f rows <-> exists r, r ∈ rows /\ x = if p r then f r else r.
Proof. unfold update_where. rewrite list_elem_of_fmap. naive_solver. Qed.
Lemma Forall_update_where (P : A -> Prop) p f rows :
  (forall r, P r -> p r = true -> P (f r)) -> Forall P rows -> Forall P (update_where p f rows).
Proof.
  intros Hf H. apply Forall_forall. intros x (r & Hr & ->)%elem_of_update_where. rewrite Forall_forall in H.
  destruct (p r) eqn:Hp; auto.
Qed.
Lemma update_is_where (id_of : A -> Z) id f rows : update id_of id f rows = update_where (fun r => id_of r =? id) f rows.
Proof. done. Qed.
Lemma elem_of_delete_where p rows x : x ∈ delete_where p rows <-> x ∈ rows /\ p x = false.
Proof. unfold delete_where. rewrite list_elem_of_filter. naive_solver. Qed.
Lemma Forall_delete (P : A -> Prop) p rows : Forall P rows -> Forall P (delete_where p rows).
Proof.
  intros Hl. apply Forall_forall. intros x [Hx _]%elem_of_delete_where. rewrite Forall_forall in Hl. auto.
Qed.
Lemma NoDup_delete {B} (g : A -> B) p rows : NoDup (g <$> rows) -> NoDup (g <$> delete_where p rows).
Proof. intros Hd. eapply sublist_NoDup; [exact Hd|]. unfold delete_where. apply fmap_sublist, sublist_filter. Qed.
Lemma NoDup_add (g : A -> Z) rows x n :
  NoDup (g <$> rows) -> Forall (fun r => g r < n) rows -> n <= g x -> NoDup (g <$> rows ++ [x]).
Proof.
  intros Hd Hf Hx. rewrite fmap_app. apply NoDup_app. split; [done|]. split; [|apply NoDup_singleton].
  intros i (r & -> & Hr)%list_elem_of_fmap Hi%list_elem_of_singleton. rewrite Forall_forall in Hf. specialize (Hf r Hr).
  cbn in Hf. lia.
Qed.
End Where.

(** The row a unique index names. *)
Lemma unique_key {A K} `{EqDecision K} (scope : A -> bool) (key : A -> K) rows r r' :
  unique scope key rows = true -> r ∈ rows -> r' ∈ rows -> scope r = true -> scope r' = true ->
  key r = key r' -> r = r'.
Proof.
  unfold unique. intros Hu Hr Hr' Hs Hs' Hk. boolP. rename Hu into Hnd.
  assert (H1 : r ∈ scalars scope rows) by (by apply elem_of_scalars).
  assert (H2 : r' ∈ scalars scope rows) by (by apply elem_of_scalars).
  apply list_elem_of_lookup in H1 as [i Hi], H2 as [j Hj].
  assert (i = j) as ->; [|congruence].
  eapply NoDup_lookup; [exact Hnd| |]; rewrite list_lookup_fmap, ?Hi, ?Hj; cbn; [done|]. by rewrite Hk.
Qed.

(** A unique index survives an update that keeps its key. *)
Lemma unique_update_where {A K} `{EqDecision K} (scope : A -> bool) (key : A -> K) p f rows :
  (forall r, key (f r) = key r) -> (forall r, p r = true -> scope (f r) = true -> scope r = true) ->
  unique scope key rows = true -> unique scope key (update_where p f rows) = true.
Proof.
  intros Hkey Hsc Hu. unfold unique in *. boolP. apply bool_decide_eq_true_2. eapply sublist_NoDup; [exact Hu|].
  clear Hu. unfold scalars, update_where. induction rows as [|r rows IH]; [done|]. rewrite fmap_cons, !filter_cons.
  specialize (Hsc r). destruct (p r) eqn:Hp; [|destruct (decide (scope r = true)); [rewrite !fmap_cons; by apply sublist_skip|done]].
  destruct (decide (scope (f r) = true)), (decide (scope r = true)).
  - rewrite !fmap_cons, Hkey. by apply sublist_skip.
  - by exfalso; auto.
  - rewrite fmap_cons. by apply sublist_cons.
  - done.
Qed.

(** ** Tables that only grow: every row kept or stepped on, new ones last *)

Section Grows.
Context {A : Type} (R : A -> A -> Prop) `{!PreOrder R}.

Definition grows (l l' : list A) : Prop := exists old new, l' = old ++ new /\ Forall2 R l old.

#[export] Instance grows_preorder : PreOrder grows.
Proof using PreOrder0.
  split.
  - intros l. exists l, []. split; [by rewrite app_nil_r|]. by apply Forall_Forall2_diag, Forall_true.
  - intros l1 l2 l3 (o1 & n1 & -> & H1) (o2 & n2 & -> & H2).
    apply Forall2_app_inv_l in H2 as (p & q & Hp & Hq & ->). exists p, (q ++ n2). split; [by rewrite app_assoc|].
    by transitivity o1.
Qed.
Lemma grows_add l x : grows l (l ++ [x]).
Proof using PreOrder0. exists l, [x]. split; [done|]. by apply Forall_Forall2_diag, Forall_true. Qed.
Lemma grows_update_where p f l : (forall r, r ∈ l -> p r = true -> R r (f r)) -> grows l (update_where p f l).
Proof using PreOrder0.
  intros Hf. exists (update_where p f l), []. split; [by rewrite app_nil_r|]. unfold update_where.
  apply Forall2_fmap_r, Forall_Forall2_diag, Forall_forall. intros r Hr. cbn. destruct (p r) eqn:Hp; [by apply Hf|reflexivity].
Qed.
Lemma grows_elem l l' x : grows l l' -> x ∈ l -> exists y, y ∈ l' /\ R x y.
Proof.
  intros (old & new & -> & Hf) Hx. apply list_elem_of_lookup in Hx as [i Hi].
  destruct (Forall2_lookup_l _ _ _ _ _ Hf Hi) as (y & Hy & Hr). exists y. split; [|done].
  apply elem_of_app. left. by apply list_elem_of_lookup_2 in Hy.
Qed.
End Grows.

(** ** An example: one account with one active peer on one server *)

Definition example_public_key (c : ascii) : text := replicate 43 c ++ ["="%char].
Definition example_pool : IPNetwork :=
  {| net_version := 4; net_address := 172818432; net_prefixlen := 24 |}.
Definition no_auth : AuthTables :=
  {| sessions := []; refresh_tokens := []; password_reset_tokens := []; user_activations := [];
     account_requests := []; account_request_events := []; email_deliveries := []; admins := [];
     factors := {| totp_credentials := []; recovery_codes := []; passkeys := [] |} |}.
Definition example_user : User :=
  {| user_id := 1; email := str "A@example.org"; email_normalized := str "a@example.org";
     username := Some (str "ada"); username_normalized := Some (str "ada"); password_hash := Some (str "$argon2id$0");
     user_state := AccountState.ACTIVE; device_limit := 2;
     user_expires_at := Some 5000; activated_at := Some 10; disabled_at := None; traffic_quota_bytes := Some 100; traffic_baseline_bytes := 0;
     quota_exhausted_at := None; user_dns_profile := str "default" |}.
Definition example_device : Device :=
  {| device_id := 2; device_user := 1; device_state := LifecycleState.ACTIVE; device_name := str "phone";
     platform := DevicePlatform.ANDROID; client_version := str "1.0"; device_revoked_at := None;
     hardware_key_version := None; hardware_hash := None; device_dns_profile := None |}.
Definition example_server : VPNServer :=
  {| server_id := 3; server_code := str "nl-1"; server_display_name := str "Amsterdam"; server_state := ServerState.ACTIVE;
     maximum_devices := 2; wireguard_client_pool := Some example_pool;
     wireguard_gateway_address := Some (IPv4Address 172818433) |}.
Definition example_profile : ProtocolProfile :=
  {| profile_id := 4; profile_code := str "wireguard-native"; profile_display_name := str "WireGuard"; agent_profile_code := None;
     profile_state := ProfileState.IMPLEMENTED; ad_block := false |}.
Definition example_row (s : ProvisioningState.t) (at_ : Z) : Row :=
  {| row_id := 6; credential_id := 5; row_device := 2; row_profile := 4; row_server := 3;
     columns := WireGuardColumns (example_public_key "p"%char) (IPv4Address 172818434);
     state := s; applied_generation := 1; applied_at := Some 900; revoked_at := None; updated_at := at_ |}.
Definition example_credential (s : ProvisioningState.t) : DeviceProtocolCredential :=
  {| cred_id := 5; cred_device := 2; cred_profile := 4; cred_server := 3; kind := wireguard_public;
     cred_state := s; envelope := None; key_material_lost_at := None; cred_revoked_at := None |}.
Definition example_db (s : ProvisioningState.t) : DB :=
  {| users := [example_user];
     devices := [example_device];
     profiles := [example_profile]; servers := [example_server];
     capabilities := [{| cap_server := 3; cap_profile := 4; cap_state := CapabilityState.ENABLED;
                         capacity_limit := None |}];
     permissions := [{| perm_id := 7; perm_user := 1; perm_profile := 4; perm_granted_by := None; perm_state := CapabilityState.ENABLED;
                        perm_granted_at := 800; perm_expires_at := None; perm_revoked_at := None |}];
     assignments := [{| asg_id := 8; asg_user := 1; asg_server := 3; asg_assigned_by := None; asg_state := LifecycleState.ACTIVE;
                        asg_assigned_at := 800; asg_expires_at := None; asg_revoked_at := None |}];
     credentials := [example_credential s]; wireguard_peers := [example_row s 900]; xray_clients := [];
     operations := []; audit := []; records := []; auth := no_auth; db_now := 1000; next_id := 100 |}.

Lemma example_db_wf s : db_wf (example_db s).
Proof.
  split; [constructor|].
  - apply NoDup_singleton.
  - apply NoDup_singleton.
  - apply NoDup_nil_2.
  - by repeat constructor.
  - apply NoDup_singleton.
  - constructor; [|constructor]. exists (example_credential s). by split.
  - destruct s; vm_compute; reflexivity.
Qed.

End Db.
