(* ===== verification/AuditChain.v ===== *)
(** * The audit chain

    Models [nebula_api/audit/chain.py]: the hash-chained export of the audit log
    and its verification.  SHA-256 is a parameter.  The main result is a
    reduction: whoever makes an altered history verify has a collision between
    two of the texts that were hashed for it.  An exported event holds strings and
    nulls only; a float in a line made by hand is hashed as it is written, where
    Python hashes its [repr]. *)

From S2P Require Import Prelude PyText PyBytes PyTime Json.

Module AuditChain.

(** [hashlib.sha256(text.encode()).hexdigest()], for ASCII texts. *)
Class SHA256 := {
  sha256_hex : text -> text;
  sha256_length t : length (sha256_hex t) = 64%nat;
}.

Record AuditLogEntry := {
  id : Z; actor_kind : text; actor_id : option Z; target_kind : text; target_id : Z; event_code : text;
  outcome : text; reason_code : option text; request_id : option Z; recorded_at : Z;
}.
Record ChainSummary := { count : Z; head : text; until : option json; hashes : list text }.

Definition FORMAT : text := str "nebula-audit-chain/1".
Definition GENESIS : text := replicate 64 "0"%char.

Definition of_text (o : option text) : json := match o with Some t => JStr t | None => JNull end.
Definition _canonical (e : AuditLogEntry) : list (text * json) :=
  [(str "id", JStr (str_uuid (id e)));
   (str "recorded_at", JStr (PyTime.isoformat (recorded_at e)));
   (str "actor_kind", JStr (actor_kind e));
   (str "actor_id", of_text (str_uuid <$> actor_id e));
   (str "target_kind", JStr (target_kind e));
   (str "target_id", JStr (str_uuid (target_id e)));
   (str "event_code", JStr (event_code e));
   (str "outcome", JStr (outcome e));
   (str "reason_code", of_text (reason_code e));
   (str "request_id", of_text (str_uuid <$> request_id e))].

Definition _dump (value : json) : text := dumps_compact (sort_keys value).

Section Chain.
Context `{SHA256}.

Definition _link (prev : text) (event : list (text * json)) : text := sha256_hex (prev ++ _dump (JObj event)).

(** *** Export *)

Definition event_line (prev : text) (event : list (text * json)) : text :=
  _dump (JObj (dict_set (str "hash") (JStr (_link prev event)) (dict_set (str "prev") (JStr prev) event))) ++ [NL].
Fixpoint event_lines (prev : text) (entries : list AuditLogEntry) : list text * text :=
  match entries with
  | [] => ([], prev)
  | e :: rest =>
      let '(ls, last) := event_lines (_link prev (_canonical e)) rest in (event_line prev (_canonical e) :: ls, last)
  end.
Definition closing_line (n : Z) (last : text) (until_ : Z) : text :=
  _dump (JObj [(str "format", JStr FORMAT); (str "count", JInt n); (str "head", JStr last);
               (str "until", JStr (PyTime.isoformat until_))]) ++ [NL].
Definition chain_lines (entries : list AuditLogEntry) (until_ : Z) : list text :=
  let '(ls, last) := event_lines GENESIS entries in ls ++ [closing_line (Z.of_nat (length entries)) last until_].

(** *** Verification *)

(** [AuditChainError]; the number of the line it names. *)
Inductive exn := AuditChainError (line : option Z).

Record progress := { prev : text; seen : list text; trailer : option (list (text * json)) }.

Definition verify_line (p : progress) (number : Z) (line : text) : result exn progress :=
  match trailer p with
  | Some _ => Err (AuditChainError (Some number))
  | None =>
      match loads line with
      | Some (JObj record) =>
          if decide (str "format" ∈ record.*1) then Ok {| prev := prev p; seen := seen p; trailer := Some record |}
          else
            match dict_get (str "prev") record, dict_get (str "hash") record with
            | Some (JStr claimed_prev), Some (JStr claimed) =>
                if decide (claimed_prev = prev p /\
                           claimed = _link (prev p) (dict_pop (str "hash") (dict_pop (str "prev") record)))
                then Ok {| prev := claimed; seen := seen p ++ [claimed]; trailer := None |}
                else Err (AuditChainError (Some number))
            | _, _ => Err (AuditChainError (Some number))
            end
      | _ => Err (AuditChainError (Some number))
      end
  end.
Fixpoint verify_all (p : progress) (number : Z) (lines : list text) : result exn progress :=
  match lines with
  | [] => Ok p
  | l :: rest => p' ← verify_line p number l; verify_all p' (number + 1) rest
  end.
Definition not_blank (l : text) : bool := negb (bool_decide (strip l = [])).
Definition start : progress := {| prev := GENESIS; seen := []; trailer := None |}.

(** The value of a float literal, as a quotient of integers; [None] for [NaN] and
    the infinities. *)
Definition literal_value (raw : text) : option (Z * Z) :=
  let '(neg, t) := match raw with c :: r => if code c =? 45 then (true, r) else (false, raw) | [] => (false, []) end in
  let '(ds, t2) := take_digits t in
  let '(fr, t3) := take_frac t2 in
  let '(ex, _) := take_exp t3 in
  let e := match ex with
           | _ :: c :: ds' => if code c =? 45 then - digits_value ds'
                              else if code c =? 43 then digits_value ds' else digits_value (c :: ds')
           | _ => 0
           end - Z.of_nat (length (tail fr)) in
  let m := (if neg then -1 else 1) * digits_value (ds ++ tail fr) in
  match ds with
  | [] => None
  | _ => Some (m * 10 ^ Z.max 0 e, 10 ^ Z.max 0 (- e))
  end.
(** [float(raw) == n] for [n >= 0]: [n] is a double, and the nearest one to the
    literal, ties to the even significand. *)
Definition float_is (n : Z) (raw : text) : bool :=
  match literal_value raw with
  | None => false
  | Some (a, b) =>
      if n =? 0 then Z.abs a * 2 ^ 1075 <=? b
      else
        let e := Z.log2 n in
        let quarters := 4 * n * 2 ^ Z.max 0 (52 - e) / 2 ^ Z.max 0 (e - 52) in
        let below := if quarters =? 2 ^ 54 then 1 else 2 in
        let x := a * 2 ^ Z.max 0 (54 - e) in
        let y := b * 2 ^ Z.max 0 (e - 54) in
        (e <? 1024) && (n mod 2 ^ Z.max 0 (e - 52) =? 0) &&
        (if quarters mod 8 =? 0 then ((quarters - below) * y <=? x) && (x <=? (quarters + 2) * y)
         else ((quarters - below) * y <? x) && (x <? (quarters + 2) * y))
  end.
(** [trailer.get("count") != len(hashes)]: [True] counts as 1, and [2.0] as 2. *)
Definition is_count (n : Z) (o : option json) : bool :=
  match o with
  | Some (JInt m) => m =? n
  | Some (JFloat raw) => float_is n raw
  | Some (JBool b) => Z.b2z b =? n
  | _ => false
  end.
Definition is_text (t : text) (o : option json) : bool :=
  match o with Some (JStr s) => bool_decide (s = t) | _ => false end.

Definition verify (lines : list text) : result exn ChainSummary :=
  p ← verify_all start 1 (filter (fun l => not_blank l = true) lines);
  match trailer p with
  | None => Err (AuditChainError None)
  | Some t =>
      if negb (is_text FORMAT (dict_get (str "format") t)) then Err (AuditChainError None)
      else if negb (is_count (Z.of_nat (length (seen p))) (dict_get (str "count") t)) ||
              negb (is_text (prev p) (dict_get (str "head") t)) then Err (AuditChainError None)
      else Ok {| count := Z.of_nat (length (seen p)); head := prev p; until := dict_get (str "until") t; hashes := seen p |}
  end.

Definition verify_extends (older newer : list text) : result exn ChainSummary :=
  old ← verify older;
  new ← verify newer;
  if negb (count old =? 0) &&
     ((count new <? count old) || negb (bool_decide (hashes new !! Z.to_nat (count old - 1) = Some (head old))))
  then Err (AuditChainError None)
  else Ok new.

(** ** What verification establishes *)

(** The events an export holds, as the chain hashes them. *)
Definition event_of (line : text) : option text :=
  match loads line with
  | Some (JObj record) =>
      if decide (str "format" ∈ record.*1) then None
      else Some (_dump (JObj (dict_pop (str "hash") (dict_pop (str "prev") record))))
  | _ => None
  end.
Definition events (lines : list text) : list text := omap event_of (filter (fun l => not_blank l = true) lines).

Definition extend (h e : text) : text := sha256_hex (h ++ e).
(** The hashes after each event. *)
Fixpoint trail (h : text) (es : list text) : list text :=
  match es with [] => [] | e :: es' => extend h e :: trail (extend h e) es' end.

Lemma trail_length h es : length (trail h es) = length es.
Proof. revert h. induction es as [|e es IH]; intros h; cbn; [done|]. by rewrite IH. Qed.
Lemma trail_app h es1 es2 : trail h (es1 ++ es2) = trail h es1 ++ trail (foldl extend h es1) es2.
Proof. revert h. induction es1 as [|e es IH]; intros h; cbn; [done|]. by rewrite IH. Qed.
Lemma trail_last h es i x : trail h es !! i = Some x -> x = foldl extend h (take (S i) es).
Proof.
  revert h i. induction es as [|e es IH]; intros h i; cbn; [done|]. destruct i as [|i]; cbn.
  - intros [= <-]. by destruct es.
  - intros Hx. by apply IH in Hx.
Qed.

Lemma verify_line_ok p n l p' :
  verify_line p n l = Ok p' ->
  (exists t, trailer p' = Some t /\ prev p' = prev p /\ seen p' = seen p /\ event_of l = None) \/
  (exists e, event_of l = Some e /\ prev p' = extend (prev p) e /\ seen p' = seen p ++ [extend (prev p) e] /\ trailer p' = None).
Proof.
  unfold verify_line, event_of. destruct (trailer p); [done|]. destruct (loads l) as [[| | | | | |record]|]; try done.
  case_decide; [intros [= <-]; left; eauto|].
  destruct (dict_get (str "prev") record) as [[| | | |cp| |]|]; try done.
  destruct (dict_get (str "hash") record) as [[| | | |c| |]|]; try done.
  case_decide as Hd; [|done]. destruct Hd as [-> ->]. intros [= <-]. right. eauto.
Qed.

Lemma verify_all_ok p n ls p' :
  verify_all p n ls = Ok p' ->
  let es := omap event_of ls in
  seen p' = seen p ++ trail (prev p) es /\ prev p' = foldl extend (prev p) es.
Proof.
  revert p n. induction ls as [|l ls IH]; intros p n; cbn [verify_all].
  { intros [= <-]. cbn. by rewrite app_nil_r. }
  destruct (verify_line p n l) as [p1|e] eqn:Hl; [|done]. cbn [mbind result_bind]. intros Hr.
  apply IH in Hr as [Hs Hp]. cbn. apply verify_line_ok in Hl as [(t & _ & E1 & E2 & ->)|(e & -> & E1 & E2 & _)].
  - by rewrite Hs, Hp, E1, E2.
  - cbn. by rewrite Hs, Hp, E1, E2, <- app_assoc.
Qed.

Lemma verify_ok ls s :
  verify ls = Ok s ->
  hashes s = trail GENESIS (events ls) /\ head s = foldl extend GENESIS (events ls) /\
  count s = Z.of_nat (length (events ls)).
Proof.
  unfold verify, events. destruct (verify_all start 1 _) as [p|e] eqn:Hv; [|done]. cbn [mbind result_bind].
  apply verify_all_ok in Hv as [Hs Hp]. cbn in Hs, Hp. destruct (trailer p) as [t|]; [|done].
  destruct (negb _); [done|]. destruct (_ || _); [done|]. intros [= <-]. cbn. rewrite Hs, Hp, trail_length. done.
Qed.

(** ** Tampering *)

(** The texts hashed along a chain: each event after the hash before it. *)
Fixpoint inputs (h : text) (es : list text) : list text :=
  match es with [] => [] | e :: es' => (h ++ e) :: inputs (extend h e) es' end.
Definition preimages (lines : list text) : list text := inputs GENESIS (events lines).

(** Two different texts with one hash, at the same place of two lists of texts. *)
Definition collide (xs ys : list text) : Prop :=
  exists i x y, xs !! i = Some x /\ ys !! i = Some y /\ x <> y /\ sha256_hex x = sha256_hex y.

Lemma inputs_length h es : length (inputs h es) = length es.
Proof. revert h. induction es as [|e es IH]; intros h; cbn; [done|]. by rewrite IH. Qed.
Lemma inputs_app h es1 es2 : inputs h (es1 ++ es2) = inputs h es1 ++ inputs (foldl extend h es1) es2.
Proof. revert h. induction es1 as [|e es IH]; intros h; cbn; [done|]. by rewrite IH. Qed.
Lemma collide_app xs ys xs' ys' : collide xs ys -> collide (xs ++ xs') (ys ++ ys').
Proof. intros (i & x & y & Hx & Hy & Hc). exists i, x, y. eauto using lookup_app_l_Some. Qed.

Lemma extend_length h e : length (extend h e) = 64%nat.
Proof. apply sha256_length. Qed.
Lemma chain_length es : length (foldl extend GENESIS es) = 64%nat.
Proof.
  destruct es as [|e es] using rev_ind; [done|]. rewrite foldl_app. apply extend_length.
Qed.

(** Two histories of one length that hash alike are one history, or collide. *)
Lemma same_head es1 es2 :
  length es1 = length es2 -> foldl extend GENESIS es1 = foldl extend GENESIS es2 ->
  es1 = es2 \/ collide (inputs GENESIS es1) (inputs GENESIS es2).
Proof.
  revert es2. induction es1 as [|e1 es1 IH] using rev_ind; intros es2 Hl Hh.
  { destruct es2; [by left|done]. }
  destruct es2 as [|e2 es2 _] using rev_ind; [rewrite length_app in Hl; cbn in Hl; lia|].
  rewrite !foldl_app in Hh. cbn in Hh. rewrite !length_app in Hl. cbn in Hl. rewrite !inputs_app.
  destruct (decide (foldl extend GENESIS es1 ++ e1 = foldl extend GENESIS es2 ++ e2)) as [He|Hne].
  - apply app_inj_1 in He as [Hp ->]; [|by rewrite !chain_length].
    destruct (IH es2) as [->|Hc]; [lia|done|by left|right; by apply collide_app].
  - right. exists (length es1), (foldl extend GENESIS es1 ++ e1), (foldl extend GENESIS es2 ++ e2). cbn [inputs].
    split_and!; [|assert (length es1 = length es2) as -> by lia| |]; [apply list_lookup_middle..|done|done];
      by rewrite inputs_length.
Qed.

(** C21: an intact export fixes its history: two exports that verify with the same
    head and count hold the same events, in the same order, unless two different
    texts hashed at the same place of the two chains have the same SHA-256. *)
Theorem head_fixes_history ls1 ls2 s1 s2 :
  verify ls1 = Ok s1 -> verify ls2 = Ok s2 -> head s1 = head s2 -> count s1 = count s2 ->
  events ls1 = events ls2 \/ collide (preimages ls1) (preimages ls2).
Proof.
  intros (_ & H1 & C1)%verify_ok (_ & H2 & C2)%verify_ok Hh Hc. apply same_head; [lia|congruence].
Qed.

(** An export accepted as an extension of an older one holds the older one's
    events, unchanged, first, unless the two chains collide. *)
Theorem extension_keeps_history older newer s :
  verify_extends older newer = Ok s -> events older `prefix_of` events newer \/ collide (preimages older) (preimages newer).
Proof.
  unfold verify_extends. destruct (verify older) as [old|] eqn:Ho; [|done]. destruct (verify newer) as [new|] eqn:Hn; [|done].
  cbn [mbind result_bind]. apply verify_ok in Ho as (_ & Hh & Hc), Hn as (Hs & _ & Hc').
  destruct (count old =? 0) eqn:Hz; cbn [negb andb].
  { boolP. intros _. left. destruct (events older); [apply prefix_nil|cbn in *; lia]. }
  destruct (count new <? count old) eqn:Hlt; cbn [orb]; [done|]. case_bool_decide as Hl; [|done]. cbn [negb]. intros _. boolP.
  rewrite Hs in Hl. apply trail_last in Hl. rewrite Hh in Hl.
  replace (S (Z.to_nat (count old - 1))) with (length (events older)) in Hl by lia.
  destruct (same_head (events older) (take (length (events older)) (events newer))) as [He|Hcol]; [|done| |].
  - rewrite length_take. lia.
  - left. rewrite He. apply prefix_take.
  - right. unfold preimages. rewrite <- (take_drop (length (events older)) (events newer)), inputs_app.
    rewrite <- (app_nil_r (inputs GENESIS (events older))). by apply collide_app.
Qed.

(** ** The export verifies *)

Lemma lstrip_nil t : lstrip t = [] -> Forall (fun c => is_space c = true) t.
Proof. induction t as [|c t IH]; cbn; [constructor|]. destruct (is_space c) eqn:Hc; [|done]. constructor; auto. Qed.
Lemma not_blank_cons c t : is_space c = false -> not_blank (c :: t) = true.
Proof.
  intros Hc. unfold not_blank. apply negb_true_iff, bool_decide_eq_false_2. unfold strip. rewrite lstrip_id by done.
  unfold rstrip. intros He. apply (f_equal reverse) in He. rewrite reverse_involutive in He. change (reverse []) with (@nil ascii) in He.
  apply lstrip_nil in He. rewrite reverse_cons in He. apply Forall_app in He as [_ He]. apply Forall_cons in He as [He _]. congruence.
Qed.

(** The event, and the event with its link, in the order of their keys. *)
Definition sorted_event (e : AuditLogEntry) : list (text * json) :=
  [(str "actor_id", of_text (str_uuid <$> actor_id e)); (str "actor_kind", JStr (actor_kind e));
   (str "event_code", JStr (event_code e)); (str "id", JStr (str_uuid (id e))); (str "outcome", JStr (outcome e));
   (str "reason_code", of_text (reason_code e)); (str "recorded_at", JStr (PyTime.isoformat (recorded_at e)));
   (str "request_id", of_text (str_uuid <$> request_id e)); (str "target_id", JStr (str_uuid (target_id e)));
   (str "target_kind", JStr (target_kind e))].
Definition sorted_record (e : AuditLogEntry) (p h : text) : list (text * json) :=
  [(str "actor_id", of_text (str_uuid <$> actor_id e)); (str "actor_kind", JStr (actor_kind e));
   (str "event_code", JStr (event_code e)); (str "hash", JStr h); (str "id", JStr (str_uuid (id e)));
   (str "outcome", JStr (outcome e)); (str "prev", JStr p);
   (str "reason_code", of_text (reason_code e)); (str "recorded_at", JStr (PyTime.isoformat (recorded_at e)));
   (str "request_id", of_text (str_uuid <$> request_id e)); (str "target_id", JStr (str_uuid (target_id e)));
   (str "target_kind", JStr (target_kind e))].

Lemma sort_flat kvs :
  Forall (fun kv => sort_keys kv.2 = kv.2) kvs -> sort_keys (JObj kvs) = JObj (sort_by_key kvs).
Proof.
  intros Hf. cbn. do 2 f_equal. induction Hf as [|[k v] kvs Hv _ IH]; [done|]. cbn in *. by rewrite Hv, IH.
Qed.
Lemma sort_of_text o : sort_keys (of_text o) = of_text o.
Proof. by destruct o. Qed.
Ltac flat := repeat first [apply Forall_nil_2 | apply Forall_cons_2; [first [reflexivity|apply sort_of_text]|]].

Lemma sorted_canonical e : sort_keys (JObj (_canonical e)) = JObj (sorted_event e).
Proof.
  rewrite sort_flat by (unfold _canonical; flat). unfold _canonical, sorted_event.
  generalize (str_uuid (id e)), (PyTime.isoformat (recorded_at e)), (of_text (str_uuid <$> actor_id e)),
    (str_uuid (target_id e)), (of_text (reason_code e)), (of_text (str_uuid <$> request_id e)). intros. vm_compute. reflexivity.
Qed.
Lemma sorted_sorted e : sort_keys (JObj (sorted_event e)) = JObj (sorted_event e).
Proof.
  rewrite sort_flat by (unfold sorted_event; flat). unfold sorted_event.
  generalize (str_uuid (id e)), (PyTime.isoformat (recorded_at e)), (of_text (str_uuid <$> actor_id e)),
    (str_uuid (target_id e)), (of_text (reason_code e)), (of_text (str_uuid <$> request_id e)). intros. vm_compute. reflexivity.
Qed.
Lemma sorted_linked e p h :
  sort_keys (JObj (dict_set (str "hash") (JStr h) (dict_set (str "prev") (JStr p) (_canonical e)))) = JObj (sorted_record e p h).
Proof.
  assert (Hd : dict_set (str "hash") (JStr h) (dict_set (str "prev") (JStr p) (_canonical e)) =
    _canonical e ++ [(str "prev", JStr p); (str "hash", JStr h)]).
  { unfold _canonical.
    generalize (str_uuid (id e)), (PyTime.isoformat (recorded_at e)), (of_text (str_uuid <$> actor_id e)),
      (str_uuid (target_id e)), (of_text (reason_code e)), (of_text (str_uuid <$> request_id e)). intros. vm_compute. reflexivity. }
  rewrite Hd, sort_flat by (unfold _canonical; cbn [app]; flat). unfold _canonical, sorted_record.
  generalize (str_uuid (id e)), (PyTime.isoformat (recorded_at e)), (of_text (str_uuid <$> actor_id e)),
    (str_uuid (target_id e)), (of_text (reason_code e)), (of_text (str_uuid <$> request_id e)). intros. vm_compute. reflexivity.
Qed.

Lemma wf_of_text o : json_wf (of_text o).
Proof. by destruct o. Qed.
Lemma wf_record e p h : json_wf (JObj (sorted_record e p h)).
Proof.
  split; [apply (bool_decide_unpack _); vm_compute; exact I|]. cbn [foldr snd sorted_record].
  repeat (split; [first [exact I|apply wf_of_text]|]). exact I.
Qed.

Lemma verify_event_line q n e :
  trailer q = None ->
  verify_line q n (event_line (prev q) (_canonical e)) =
    Ok {| prev := _link (prev q) (_canonical e); seen := seen q ++ [_link (prev q) (_canonical e)]; trailer := None |}.
Proof.
  intros Ht. unfold verify_line, event_line. rewrite Ht. unfold _dump at 1. rewrite sorted_linked.
  rewrite loads_dumps_compact_line by apply wf_record. set (h := _link (prev q) (_canonical e)).
  assert (Hp : dict_pop (str "hash") (dict_pop (str "prev") (sorted_record e (prev q) h)) = sorted_event e).
  { unfold sorted_record, sorted_event. generalize (prev q), h, (str_uuid (id e)), (PyTime.isoformat (recorded_at e)),
      (of_text (str_uuid <$> actor_id e)), (str_uuid (target_id e)), (of_text (reason_code e)),
      (of_text (str_uuid <$> request_id e)). intros. vm_compute. reflexivity. }
  rewrite decide_False by (apply (bool_decide_unpack _); vm_compute; exact I).
  change (dict_get (str "prev") (sorted_record e (prev q) h)) with (Some (JStr (prev q))).
  change (dict_get (str "hash") (sorted_record e (prev q) h)) with (Some (JStr h)). rewrite Hp.
  rewrite decide_True; [done|]. split; [done|]. subst h. unfold _link, _dump. by rewrite sorted_canonical, sorted_sorted.
Qed.

Lemma verify_events q n entries rest :
  trailer q = None ->
  verify_all q n ((event_lines (prev q) entries).1 ++ rest) =
    verify_all {| prev := (event_lines (prev q) entries).2;
                  seen := seen q ++ trail (prev q) ((fun e => _dump (JObj (_canonical e))) <$> entries); trailer := None |}
      (n + Z.of_nat (length entries)) rest.
Proof.
  revert q n. induction entries as [|e entries IH]; intros q n Ht.
  { cbn. rewrite app_nil_r, Z.add_0_r. destruct q as [? ? ?]. cbn in *. by rewrite Ht. }
  cbn [event_lines]. destruct (event_lines (_link (prev q) (_canonical e)) entries) as [ls last_] eqn:He. cbn [fst app].
  cbn [verify_all]. rewrite verify_event_line by done. cbn [mbind result_bind].
  set (q1 := {| prev := _link (prev q) (_canonical e); seen := _; trailer := None |}).
  specialize (IH q1 (n + 1) eq_refl). cbn [prev q1] in IH. rewrite He in IH. cbn [fst snd] in IH. rewrite IH. cbn.
  rewrite <- app_assoc. f_equal. lia.
Qed.

Lemma closing_ok n last_ until_ :
  loads (closing_line n last_ until_) =
    Some (JObj [(str "count", JInt n); (str "format", JStr FORMAT); (str "head", JStr last_);
                (str "until", JStr (PyTime.isoformat until_))]).
Proof.
  unfold closing_line, _dump. rewrite sort_flat by flat.
  assert (Hs : sort_by_key [(str "format", JStr FORMAT); (str "count", JInt n); (str "head", JStr last_);
      (str "until", JStr (PyTime.isoformat until_))] =
    [(str "count", JInt n); (str "format", JStr FORMAT); (str "head", JStr last_); (str "until", JStr (PyTime.isoformat until_))]).
  { generalize (PyTime.isoformat until_). intros. vm_compute. reflexivity. }
  rewrite Hs. apply loads_dumps_compact_line. split; [apply (bool_decide_unpack _); vm_compute; exact I|]. by cbn.
Qed.

Lemma obj_line_not_blank kvs : not_blank (_dump (JObj kvs) ++ [NL]) = true.
Proof. by apply not_blank_cons. Qed.
Lemma lines_not_blank h entries : Forall (fun l => not_blank l = true) (event_lines h entries).1.
Proof.
  revert h. induction entries as [|e entries IH]; intros h; cbn [event_lines]; [constructor|].
  specialize (IH (_link h (_canonical e))). destruct (event_lines (_link h (_canonical e)) entries) as [ls last_]. cbn in *.
  constructor; [apply obj_line_not_blank|done].
Qed.
Lemma event_lines_last h entries :
  (event_lines h entries).2 = foldl extend h ((fun e => _dump (JObj (_canonical e))) <$> entries).
Proof.
  revert h. induction entries as [|e entries IH]; intros h; cbn [event_lines]; [done|].
  specialize (IH (_link h (_canonical e))). by destruct (event_lines (_link h (_canonical e)) entries).
Qed.

(** C22: every export verifies, and its summary counts the events, names the time
    it was taken, and carries the hash after each event. *)
Theorem export_verifies entries until_ :
  let es := (fun e => _dump (JObj (_canonical e))) <$> entries in
  verify (chain_lines entries until_) =
    Ok {| count := Z.of_nat (length entries); head := foldl extend GENESIS es;
          until := Some (JStr (PyTime.isoformat until_)); hashes := trail GENESIS es |}.
Proof.
  intros es. unfold verify, chain_lines.
  pose proof (verify_events start 1 entries [closing_line (Z.of_nat (length entries)) (foldl extend GENESIS es) until_] eq_refl) as Hv.
  pose proof (lines_not_blank GENESIS entries) as Hb. pose proof (event_lines_last GENESIS entries) as Hlast.
  change (prev start) with GENESIS in Hv. destruct (event_lines GENESIS entries) as [ls last_]. cbn [fst snd] in *. subst last_.
  rewrite filter_id by (apply Forall_app; split; [done|]; rewrite Forall_singleton; apply obj_line_not_blank).
  fold es. rewrite Hv. cbn [verify_all]. unfold verify_line at 1. cbn [trailer]. rewrite closing_ok.
  rewrite decide_True by (apply (bool_decide_unpack _); vm_compute; exact I). cbn [mbind result_bind trailer prev seen].
  change (seen start) with (@nil text). cbn [app]. rewrite trail_length. unfold es at 1. rewrite length_fmap.
  set (t := [(str "count", _); _; _; _]).
  change (dict_get (str "format") t) with (Some (JStr FORMAT)).
  change (dict_get (str "count") t) with (Some (JInt (Z.of_nat (length entries)))).
  change (dict_get (str "head") t) with (Some (JStr (foldl extend GENESIS es))).
  change (dict_get (str "until") t) with (Some (JStr (PyTime.isoformat until_))).
  unfold is_text, is_count. rewrite Z.eqb_refl, !bool_decide_eq_true_2 by done. done.
Qed.

End Chain.
(** ** An example

    Any function to 64 characters is enough to run the export. *)

Definition example_digest (t : text) : text :=
  take 64 (reverse (show_hex (foldl (fun h c => (h * 257 + code c) mod 16777213) 7 t)) ++ replicate 64 "0"%char).
#[local] Instance example_sha256 : SHA256 := {|
  sha256_hex := example_digest;
  sha256_length t := ltac:(unfold example_digest; rewrite length_take, length_app, length_replicate; lia);
|}.
Definition example_entry (n : Z) (code_ : text) : AuditLogEntry :=
  {| id := n; actor_kind := str "admin"; actor_id := Some 9; target_kind := str "user"; target_id := 1; event_code := code_;
     outcome := str "succeeded"; reason_code := None; request_id := Some (900 + n); recorded_at := 1785000000500 + n |}.
Definition monday := chain_lines [example_entry 1 (str "identity_state_changed")] 1785000001000.
Definition tuesday :=
  chain_lines [example_entry 1 (str "identity_state_changed"); example_entry 2 (str "password_changed")] 1785086400000.
(** The first event rewritten on the way out, its hashes left as they were. *)
Definition forged : list text :=
  match chain_lines [example_entry 1 (str "session_revoked")] 0, tuesday with l :: _, _ :: rest => l :: rest | _, _ => [] end.

Example forgery_is_caught : verify forged = Err (AuditChainError (Some 2)).
Proof. vm_compute. reflexivity. Qed.

(** Counts written as floats, as [json.loads] reads them and [==] compares them. *)
Example float_counts :
  (float_is 2 (str "2.0"), float_is 2 (str "20e-1"), float_is 2 (str "2.00000000000000000001"), float_is 2 (str "2.5"),
   float_is 0 (str "-0.0"), float_is 3 (str "Infinity"), float_is 9007199254740993 (str "9007199254740993.0"))
  = (true, true, true, false, true, false, false).
Proof. vm_compute. reflexivity. Qed.

Lemma extension_keeps_history_witness :
  exists s, verify_extends monday tuesday = Ok s /\ (events monday `prefix_of` events tuesday \/ collide (preimages monday) (preimages tuesday)).
Proof.
  assert (exists s, verify_extends monday tuesday = Ok s) as [s Hs] by (eexists; vm_compute; reflexivity).
  exists s. split; [exact Hs|]. exact (extension_keeps_history monday tuesday s Hs).
Defined.

(** Blank lines change nothing. *)
Lemma head_fixes_history_witness :
  exists s1 s2, verify tuesday = Ok s1 /\ verify (tuesday ++ [[NL]]) = Ok s2 /\
    (events tuesday = events (tuesday ++ [[NL]]) \/ collide (preimages tuesday) (preimages (tuesday ++ [[NL]]))).
Proof.
  assert (exists s, verify tuesday = Ok s /\ verify (tuesday ++ [[NL]]) = Ok s) as (s & H1 & H2)
    by (eexists; split; vm_compute; reflexivity).
  exists s, s. split; [exact H1|]. split; [exact H2|].
  exact (head_fixes_history tuesday (tuesday ++ [[NL]]) s s H1 H2 eq_refl eq_refl).
Defined.

End AuditChain.
