(* ===== verification/AccessToken.v ===== *)
(** * Access tokens

    Models [nebula_api/auth/access_tokens.py].  The [jwt] package and Ed25519 are
    the class [JWT]: what signing and verifying promise.  Instants are in
    milliseconds, [now] is what the clock read. *)

From S2P Require Import Prelude PyText PyBytes Json.

(** A payload or a header: a JSON object. *)
Notation claims := (list (text * json)).

(** The claims a decoded token must have. *)
Definition REQUIRED_CLAIMS : list text :=
  str <$> ["iss"; "aud"; "sub"; "sid"; "jti"; "iat"; "nbf"; "exp"; "token_use"]%string.
Definition is_str (o : option json) (t : text) : bool :=
  match o with Some (JStr u) => bool_decide (u = t) | _ => false end.
Definition a_str (o : option json) : bool := match o with Some (JStr _) => true | _ => false end.
(** What [jwt.decode] checks of a payload it has verified. *)
Definition jwt_accepts (p : claims) (audience issuer : text) : bool :=
  forallb (fun n => bool_decide (n ∈ p.*1)) REQUIRED_CLAIMS &&
  is_str (dict_get (str "aud") p) audience && is_str (dict_get (str "iss") p) issuer &&
  a_str (dict_get (str "sub") p) && a_str (dict_get (str "jti") p).

(** EdDSA tokens.  [jwt_encode] signs a payload under a key identifier and a
    media type; [jwt_header] reads the header without verifying;
    [jwt_decode token key audience issuer] verifies the signature and the
    required claims.  A verified token is one the key's owner signed. *)
Class JWT := {
  signing_key : Type;
  verification_key : Type;
  public_of : signing_key -> verification_key;
  jwt_encode : claims -> signing_key -> text -> text -> text;
  jwt_header : text -> option claims;
  jwt_decode : text -> verification_key -> text -> text -> option claims;
  jwt_header_encode p k kid typ :
    json_wf (JObj p) ->
    jwt_header (jwt_encode p k kid typ) =
      Some [(str "typ", JStr typ); (str "alg", JStr (str "EdDSA")); (str "kid", JStr kid)];
  jwt_decode_encode p k kid typ audience issuer :
    json_wf (JObj p) -> jwt_accepts p audience issuer = true ->
    jwt_decode (jwt_encode p k kid typ) (public_of k) audience issuer = Some p;
  jwt_authentic t k audience issuer p :
    jwt_decode t (public_of k) audience issuer = Some p -> exists kid typ, t = jwt_encode p k kid typ;
}.

Module AccessToken.

Inductive exn := ValueError | AccessTokenError.

Definition ACCESS_TOKEN_TYPE : text := str "at+jwt".
Definition ACCESS_TOKEN_USE : text := str "access".
Definition ACCESS_TOKEN_ALGORITHM : text := str "EdDSA".
Definition _MAXIMUM_ACCESS_TOKEN_TTL_SECONDS : Z := 86400.
Definition _MAXIMUM_ENCODED_TOKEN_CHARACTERS : nat := 4096.
Definition _REQUIRED_CLAIMS : list text := REQUIRED_CLAIMS.
Definition _REQUIRED_HEADERS : list text := str <$> ["alg"; "kid"; "typ"]%string.

(** [_KEY_ID_PATTERN]: [[A-Za-z0-9][A-Za-z0-9._-]{0,63}] *)
Definition key_alnum (c : ascii) : bool :=
  let n := code c in
  ((65 <=? n) && (n <=? 90)) || ((97 <=? n) && (n <=? 122)) || ((48 <=? n) && (n <=? 57)).
Definition key_id_match (t : text) : bool :=
  match t with
  | c :: r => key_alnum c && forallb (fun d => key_alnum d || bool_decide (d ∈ str "._-")) r
              && Nat.leb (length r) 63
  | [] => false
  end.

Record AccessTokenClaims := {
  issuer : text;
  audience : text;
  subject_id : Z;
  session_id : Z;
  token_id : Z;
  issued_at : Z;
  not_before : Z;
  expires_at : Z;
}.

(** [set(d) == names] *)
Definition same_keys (d : claims) (names : list text) : bool :=
  forallb (fun n => bool_decide (n ∈ d.*1)) names && forallb (fun k => bool_decide (k ∈ names)) d.*1.

Definition valid_party (t : text) : bool :=
  negb (bool_decide (t = [])) && Nat.leb (length t) 256 && bool_decide (strip t = t).
Definition _validate_issuer_and_audience (iss aud : text) : result exn unit :=
  if valid_party iss && valid_party aud then Ok tt else Err ValueError.
Definition _validate_key_id (key_id : text) : result exn unit :=
  if key_id_match key_id then Ok tt else Err ValueError.

Definition _canonical_uuid (j : option json) : result exn Z :=
  match j with
  | Some (JStr t) =>
      match uuid_of_text t with
      | Some u => if decide (str_uuid u = t) then Ok u else Err AccessTokenError
      | None => Err AccessTokenError
      end
  | _ => Err AccessTokenError
  end.
Definition _numeric_date (j : option json) : result exn Z :=
  match j with
  | Some (JInt n) => if n <? 0 then Err AccessTokenError else Ok n
  | _ => Err AccessTokenError
  end.

(** [int(value.timestamp())] *)
Definition epoch (now : Z) : Z := now / 1000.

Definition _validated_claims (payload : claims) (iss aud : text) (now : Z) : result exn AccessTokenClaims :=
  if negb (same_keys payload _REQUIRED_CLAIMS) then Err AccessTokenError
  else if is_str (dict_get (str "iss") payload) iss && is_str (dict_get (str "aud") payload) aud
          && is_str (dict_get (str "token_use") payload) ACCESS_TOKEN_USE then
    subject_id ← _canonical_uuid (dict_get (str "sub") payload);
    session_id ← _canonical_uuid (dict_get (str "sid") payload);
    token_id ← _canonical_uuid (dict_get (str "jti") payload);
    issued_epoch ← _numeric_date (dict_get (str "iat") payload);
    not_before_epoch ← _numeric_date (dict_get (str "nbf") payload);
    expires_epoch ← _numeric_date (dict_get (str "exp") payload);
    let now_epoch := epoch now in
    if (not_before_epoch <? issued_epoch) || (now_epoch <? not_before_epoch)
       || (expires_epoch <=? now_epoch) || (expires_epoch <=? not_before_epoch)
    then Err AccessTokenError
    else Ok {| issuer := iss; audience := aud; subject_id := subject_id; session_id := session_id;
               token_id := token_id; issued_at := issued_epoch * 1000; not_before := not_before_epoch * 1000;
               expires_at := expires_epoch * 1000 |}
  else Err AccessTokenError.

Section Tokens.
Context `{JWT}.

Definition payload_of (subject session token : Z) (iss aud : text) (ttl issued_epoch : Z) : claims :=
  [(str "iss", JStr iss); (str "aud", JStr aud); (str "sub", JStr (str_uuid subject));
   (str "sid", JStr (str_uuid session)); (str "jti", JStr (str_uuid token)); (str "iat", JInt issued_epoch);
   (str "nbf", JInt issued_epoch); (str "exp", JInt (issued_epoch + ttl));
   (str "token_use", JStr ACCESS_TOKEN_USE)].

(** [token] is what [identifier_factory] drew. *)
Definition issue_access_token (subject session : Z) (iss aud : text) (signer : signing_key) (key_id : text)
    (ttl_seconds now token : Z) : result exn text :=
  _ ← _validate_issuer_and_audience iss aud;
  _ ← _validate_key_id key_id;
  if negb ((1 <=? ttl_seconds) && (ttl_seconds <=? _MAXIMUM_ACCESS_TOKEN_TTL_SECONDS)) then Err ValueError
  else Ok (jwt_encode (payload_of subject session token iss aud ttl_seconds (epoch now)) signer key_id
             ACCESS_TOKEN_TYPE).

Definition decode_access_token (token iss aud : text) (verification_keys : list (text * verification_key))
    (now : Z) : result exn AccessTokenClaims :=
  _ ← _validate_issuer_and_audience iss aud;
  if bool_decide (token = []) || negb (Nat.leb (length token) _MAXIMUM_ENCODED_TOKEN_CHARACTERS)
  then Err AccessTokenError
  else
    match jwt_header token with
    | None => Err AccessTokenError
    | Some header =>
        if negb (same_keys header _REQUIRED_HEADERS) then Err AccessTokenError
        else if is_str (dict_get (str "alg") header) ACCESS_TOKEN_ALGORITHM
                && is_str (dict_get (str "typ") header) ACCESS_TOKEN_TYPE then
          match dict_get (str "kid") header with
          | Some (JStr key_id) =>
              if negb (key_id_match key_id) then Err AccessTokenError
              else match dict_get key_id verification_keys with
                   | None => Err AccessTokenError
                   | Some key =>
                       match jwt_decode token key aud iss with
                       | None => Err AccessTokenError
                       | Some payload => _validated_claims payload iss aud now
                       end
                   end
          | _ => Err AccessTokenError
          end
        else Err AccessTokenError
    end.

(** ** What they guarantee *)

Lemma canonical_str u : is_uuid u -> _canonical_uuid (Some (JStr (str_uuid u))) = Ok u.
Proof. intros Hu. unfold _canonical_uuid. by rewrite uuid_of_str, decide_True by done. Qed.

Lemma is_str_refl t : is_str (Some (JStr t)) t = true.
Proof. cbn. by apply bool_decide_eq_true_2. Qed.

Lemma payload_keys subject session token iss aud ttl e :
  (payload_of subject session token iss aud ttl e).*1 = REQUIRED_CLAIMS.
Proof. reflexivity. Qed.

Lemma payload_wf subject session token iss aud ttl e :
  json_wf (JObj (payload_of subject session token iss aud ttl e)).
Proof. split; [rewrite payload_keys; apply (bool_decide_unpack _); by vm_compute|]. cbn. tauto. Qed.

Lemma payload_accepted subject session token iss aud ttl e :
  jwt_accepts (payload_of subject session token iss aud ttl e) aud iss = true.
Proof.
  unfold jwt_accepts. change (dict_get (str "aud") (payload_of subject session token iss aud ttl e)) with (Some (JStr aud)).
  change (dict_get (str "iss") (payload_of subject session token iss aud ttl e)) with (Some (JStr iss)).
  by rewrite payload_keys, !is_str_refl.
Qed.

(** The checks on the payload of an issued token. *)
Lemma validated_payload subject session token iss aud ttl e now :
  is_uuid subject -> is_uuid session -> is_uuid token -> 0 <= e -> 0 < ttl ->
  _validated_claims (payload_of subject session token iss aud ttl e) iss aud now =
    if (e <=? epoch now) && (epoch now <? e + ttl)
    then Ok {| issuer := iss; audience := aud; subject_id := subject; session_id := session; token_id := token;
               issued_at := e * 1000; not_before := e * 1000; expires_at := (e + ttl) * 1000 |}
    else Err AccessTokenError.
Proof.
  intros Hs Hi Ht He Httl. unfold _validated_claims. set (p := payload_of subject session token iss aud ttl e).
  replace (same_keys p _REQUIRED_CLAIMS) with true by (unfold same_keys, p; rewrite payload_keys; by vm_compute).
  change (dict_get (str "iss") p) with (Some (JStr iss)). change (dict_get (str "aud") p) with (Some (JStr aud)).
  change (dict_get (str "token_use") p) with (Some (JStr ACCESS_TOKEN_USE)).
  change (dict_get (str "sub") p) with (Some (JStr (str_uuid subject))).
  change (dict_get (str "sid") p) with (Some (JStr (str_uuid session))).
  change (dict_get (str "jti") p) with (Some (JStr (str_uuid token))).
  change (dict_get (str "iat") p) with (Some (JInt e)). change (dict_get (str "nbf") p) with (Some (JInt e)).
  change (dict_get (str "exp") p) with (Some (JInt (e + ttl))).
  rewrite !is_str_refl, !canonical_str by done. cbn [negb andb mbind result_bind _numeric_date].
  rewrite !(proj2 (Z.ltb_ge _ 0)) by lia. cbn [mbind result_bind].
  rewrite (Z.ltb_irrefl e), (proj2 (Z.leb_gt (e + ttl) e)) by lia. cbn [orb]. rewrite orb_false_r.
  destruct (Z.leb_spec e (epoch now)), (Z.ltb_spec (epoch now) (e + ttl)); cbn [andb].
  - by rewrite (proj2 (Z.ltb_ge _ _)), (proj2 (Z.leb_gt _ _)) by lia.
  - by rewrite (proj2 (Z.ltb_ge _ _)), (proj2 (Z.leb_le _ _)) by lia.
  - by rewrite (proj2 (Z.ltb_lt _ _)) by lia.
  - by rewrite (proj2 (Z.ltb_lt _ _)) by lia.
Qed.

(** An access token is good for exactly its lifetime: issued and verified
    under matching keys, it decodes to the account and session it was issued
    for from the second it was issued until [ttl_seconds] later, and at no
    other time. *)
Theorem access_token_lifetime subject session iss aud signer key_id ttl_seconds now token keys t later :
  is_uuid subject -> is_uuid session -> is_uuid token -> 0 <= now ->
  issue_access_token subject session iss aud signer key_id ttl_seconds now token = Ok t ->
  t <> [] -> (length t <= _MAXIMUM_ENCODED_TOKEN_CHARACTERS)%nat ->
  dict_get key_id keys = Some (public_of signer) ->
  decode_access_token t iss aud keys later =
    if (epoch now <=? epoch later) && (epoch later <? epoch now + ttl_seconds)
    then Ok {| issuer := iss; audience := aud; subject_id := subject; session_id := session; token_id := token;
               issued_at := epoch now * 1000; not_before := epoch now * 1000;
               expires_at := (epoch now + ttl_seconds) * 1000 |}
    else Err AccessTokenError.
Proof.
  intros Hs Hi Ht Hn Hissue Hne Hlen Hkey. unfold issue_access_token in Hissue.
  destruct (_validate_issuer_and_audience iss aud) as [[]|] eqn:Hp; [|done]. cbn [mbind result_bind] in Hissue.
  unfold _validate_key_id in Hissue. destruct (key_id_match key_id) eqn:Hk; [|done]. cbn [mbind result_bind] in Hissue.
  destruct (negb _) eqn:Httl in Hissue; [done|]. boolP. injection Hissue as <-.
  unfold decode_access_token. rewrite Hp. cbn [mbind result_bind].
  rewrite bool_decide_eq_false_2, (proj2 (Nat.leb_le _ _)) by done. cbn [negb orb].
  rewrite jwt_header_encode by apply payload_wf.
  set (h := [(str "typ", JStr ACCESS_TOKEN_TYPE); (str "alg", JStr (str "EdDSA")); (str "kid", JStr key_id)]).
  change (same_keys h _REQUIRED_HEADERS) with true.
  change (dict_get (str "alg") h) with (Some (JStr ACCESS_TOKEN_ALGORITHM)).
  change (dict_get (str "typ") h) with (Some (JStr ACCESS_TOKEN_TYPE)).
  change (dict_get (str "kid") h) with (Some (JStr key_id)). rewrite !is_str_refl. cbn [negb andb].
  rewrite Hk, Hkey. cbn [negb]. rewrite jwt_decode_encode by (apply payload_accepted || apply payload_wf).
  apply (validated_payload subject session token iss aud ttl_seconds (epoch now) later Hs Hi Ht); [|lia].
  unfold epoch. apply Z.div_pos; lia.
Qed.

(** Nothing but a token signed by the holder of one of the keys decodes,
    and it decodes to the very account and session that were signed, while it
    is current. *)
Theorem access_token_sound t iss aud keys now c :
  (forall key_id key, dict_get key_id keys = Some key -> exists signer, key = public_of signer) ->
  decode_access_token t iss aud keys now = Ok c ->
  exists signer kid p typ, (exists key_id, dict_get key_id keys = Some (public_of signer)) /\
    t = jwt_encode p signer kid typ /\
    dict_get (str "sub") p = Some (JStr (str_uuid (subject_id c))) /\
    dict_get (str "sid") p = Some (JStr (str_uuid (session_id c))) /\
    not_before c <= now < expires_at c.
Proof.
  intros Hkeys. unfold decode_access_token.
  destruct (_validate_issuer_and_audience iss aud); [|done]. cbn [mbind result_bind].
  destruct (_ || _); [done|]. destruct (jwt_header t) as [h|]; [|done]. destruct (negb _); [done|].
  destruct (_ && _); [|done]. destruct (dict_get (str "kid") h) as [[| | | |key_id| |]|]; try done.
  destruct (negb _); [done|]. destruct (dict_get key_id keys) as [key|] eqn:Hk; [|done].
  destruct (Hkeys _ _ Hk) as [signer ->]. destruct (jwt_decode t (public_of signer) aud iss) as [p|] eqn:Hd; [|done].
  destruct (jwt_authentic _ _ _ _ _ Hd) as (kid & typ & Ht). unfold _validated_claims.
  destruct (negb _); [done|]. destruct (_ && _); [|done]. intros Hc.
  assert (Huuid : forall o u, _canonical_uuid o = Ok u -> o = Some (JStr (str_uuid u))).
  { intros [[| | | |x| |]|] u; try done. unfold _canonical_uuid. destruct (uuid_of_text x) as [v|]; [|done].
    case_decide; [|done]. intros [= <-]. by subst. }
  destruct (_canonical_uuid (dict_get (str "sub") p)) as [sub|] eqn:H1; [|done]. cbn [mbind result_bind] in Hc.
  destruct (_canonical_uuid (dict_get (str "sid") p)) as [sid|] eqn:H2; [|done]. cbn [mbind result_bind] in Hc.
  destruct (_canonical_uuid (dict_get (str "jti") p)) as [jti|]; [|done]. cbn [mbind result_bind] in Hc.
  destruct (_numeric_date (dict_get (str "iat") p)) as [iat|]; [|done]. cbn [mbind result_bind] in Hc.
  destruct (_numeric_date (dict_get (str "nbf") p)) as [nbf|]; [|done]. cbn [mbind result_bind] in Hc.
  destruct (_numeric_date (dict_get (str "exp") p)) as [ex|]; [|done]. cbn [mbind result_bind] in Hc.
  destruct (_ || _) eqn:Hw; [done|]. boolP. injection Hc as <-. cbn.
  exists signer, kid, p, typ. split; [eauto|]. split; [done|]. split; [by apply Huuid|]. split; [by apply Huuid|].
  unfold epoch in *. pose proof (Z.div_mod now 1000 ltac:(lia)). pose proof (Z.mod_pos_bound now 1000 ltac:(lia)). lia.
Qed.

End Tokens.
(** ** An instance, and the properties on it *)

(** The signed object in clear, with the key in it. *)
Definition example_object (p : claims) (k : Z) (kid typ : text) : json :=
  JObj [(str "header", JObj [(str "typ", JStr typ); (str "alg", JStr (str "EdDSA")); (str "kid", JStr kid)]);
        (str "payload", JObj p); (str "key", JInt k)].
Definition example_parts (t : text) : option (claims * Z * text * text) :=
  match loads t with
  | Some (JObj [(_, JObj [(_, JStr typ); _; (_, JStr kid)]); (_, JObj p); (_, JInt k)]) =>
      if decide (dumps (example_object p k kid typ) = t) then Some (p, k, kid, typ) else None
  | _ => None
  end.
Lemma example_parts_object p k kid typ :
  json_wf (JObj p) -> example_parts (dumps (example_object p k kid typ)) = Some (p, k, kid, typ).
Proof.
  intros Hwf. unfold example_parts. rewrite loads_dumps.
  - cbn [example_object]. by rewrite decide_True.
  - split; [apply (bool_decide_unpack _); by vm_compute|]. cbn [foldr snd]. split; [|split; [done|by split]].
    split; [apply (bool_decide_unpack _); by vm_compute|]. cbn. tauto.
Qed.
Lemma example_parts_inv t p k kid typ : example_parts t = Some (p, k, kid, typ) -> t = dumps (example_object p k kid typ).
Proof.
  unfold example_parts. intros Ht. repeat case_match; simplify_eq; done.
Qed.

Definition example_jwt : JWT.
Proof.
  refine {| signing_key := Z; verification_key := Z; public_of := id;
    jwt_encode p k kid typ := dumps (example_object p k kid typ);
    jwt_header t := match example_parts t with
      | Some (_, _, kid, typ) => Some [(str "typ", JStr typ); (str "alg", JStr (str "EdDSA")); (str "kid", JStr kid)]
      | None => None end;
    jwt_decode t key aud iss := match example_parts t with
      | Some (p, k, _, _) => if (k =? key) && jwt_accepts p aud iss then Some p else None
      | None => None end |}.
  - intros p k kid typ Hwf. by rewrite example_parts_object.
  - intros p k kid typ aud iss Hwf Ha. rewrite example_parts_object by done. unfold id. by rewrite Z.eqb_refl, Ha.
  - intros t k aud iss p Hd. destruct (example_parts t) as [[[[p' k'] kid] typ]|] eqn:Ht; [|done].
    destruct (_ && _) eqn:Hb; [|done]. injection Hd as ->. boolP. unfold id in *. subst k'.
    exists kid, typ. by apply example_parts_inv.
Defined.
#[local] Existing Instance example_jwt.

Definition example_now : Z := 1785000000500.
Definition example_issue : result exn text :=
  issue_access_token 1 7 (str "nebula") (str "nebula-clients") (42 : @signing_key example_jwt) (str "k1") 900 example_now 9.
Definition example_token : text := match example_issue with Ok t => t | Err _ => [] end.
Definition example_keys : list (text * @verification_key example_jwt) := [(str "k0", 41); (str "k1", 42)].

Lemma small_uuid n : 0 <= n <= 1000 -> is_uuid n.
Proof. intros Hn. unfold is_uuid. change (256 ^ Z.of_nat 16) with (2 ^ 128). lia. Qed.

Lemma access_token_lifetime_witness :
  (exists c, decode_access_token example_token (str "nebula") (str "nebula-clients") example_keys (example_now + 899000) = Ok c /\
     subject_id c = 1 /\ session_id c = 7) /\
  decode_access_token example_token (str "nebula") (str "nebula-clients") example_keys (example_now + 900000) = Err AccessTokenError.
Proof.
  split; [eexists; split; [|split]|];
    [eapply (access_token_lifetime 1 7 (str "nebula") (str "nebula-clients") (42 : @signing_key example_jwt) (str "k1") 900
       example_now 9 example_keys example_token (example_now + 899000))|reflexivity|reflexivity|
     apply (access_token_lifetime 1 7 (str "nebula") (str "nebula-clients") (42 : @signing_key example_jwt) (str "k1") 900
       example_now 9 example_keys example_token (example_now + 900000))].
  all: try (apply small_uuid; lia).
  all: try (apply Nat.leb_le; vm_compute; reflexivity).
  all: vm_compute; try congruence; try reflexivity.
Defined.

Lemma access_token_sound_witness :
  exists signer kid p typ, (exists key_id, dict_get key_id example_keys = Some (public_of signer)) /\
    example_token = jwt_encode p signer kid typ /\ dict_get (str "sub") p = Some (JStr (str_uuid 1)).
Proof.
  destruct (decode_access_token example_token (str "nebula") (str "nebula-clients") example_keys example_now) as [c|] eqn:Hd;
    [|by vm_compute in Hd].
  destruct (access_token_sound example_token (str "nebula") (str "nebula-clients") example_keys example_now c)
    as (signer & kid & p & typ & Hk & Ht & Hs & _); [|exact Hd|].
  - intros key_id key _. by exists key.
  - exists signer, kid, p, typ. split; [exact Hk|]. split; [exact Ht|]. rewrite Hs. do 3 f_equal.
    vm_compute in Hd. injection Hd as <-. reflexivity.
Defined.

End AccessToken.
