(* ===== verification/OpaqueToken.v ===== *)
(** * Opaque tokens and device identity

    Models [nebula_api/auth/opaque_tokens.py] and
    [nebula_api/auth/device_identity.py].  HMAC-SHA-256 is the class [HMAC]; the
    bytes [secrets.token_bytes] returned are an argument. *)

From S2P Require Import Prelude PyText PyBytes.

(** ** More of Python's bytes *)

(** [t.encode("utf-8")] of code points below 256. *)
Definition utf8_char (c : ascii) : text :=
  if code c <? 128 then [c] else [chr (192 + code c / 64); chr (128 + code c mod 64)].
Definition utf8 (t : text) : text := t ≫= utf8_char.

(** [b.hex()] *)
Definition hex_char (c : ascii) : text := [digit_char (code c / 16); digit_char (code c mod 16)].
Definition bytes_hex (b : text) : text := b ≫= hex_char.

(** [bytes.fromhex(t)], [None] for [ValueError]; white space is allowed
    between bytes. *)
Definition ascii_space (c : ascii) : bool := ((9 <=? code c) && (code c <=? 13)) || (code c =? 32).
Fixpoint fromhex (t : text) : option text :=
  match t with
  | [] => Some []
  | c :: r =>
      if ascii_space c then fromhex r
      else match r with
           | d :: r' =>
               match hex_digit c, hex_digit d with
               | Some x, Some y => cons (chr (x * 16 + y)) <$> fromhex r'
               | _, _ => None
               end
           | [] => None
           end
  end.

(** [base64.urlsafe_b64encode(b)] and
    [base64.b64decode(t, altchars=b"-_", validate=True)]: [padding] says a ["="]
    was met. *)
Definition url_char (c : ascii) : ascii :=
  if decide (c = "+"%char) then "-"%char else if decide (c = "/"%char) then "_"%char else c.
Definition std_char (c : ascii) : ascii :=
  if decide (c = "-"%char) then "+"%char else if decide (c = "_"%char) then "/"%char else c.
Definition urlsafe_b64encode (b : text) : text := url_char <$> b64encode b.
Fixpoint b64_strict (q : nat) (left : Z) (pads : nat) (padding : bool) (t : text) : option text :=
  match t with
  | [] => if Nat.eqb q 0 then Some [] else None
  | c :: r =>
      if bool_decide (c = "="%char) then
        if Nat.leb 2 q && Nat.leb 4 (q + S pads) then
          match r with [] => Some [] | _ => None end
        else b64_strict q left (if Nat.leb 2 q then S pads else pads) true r
      else match b64_value c with
           | None => None
           | Some v =>
               if padding then None
               else match q with
                    | 0%nat => b64_strict 1 v 0 false r
                    | 1%nat => cons (chr (left * 4 + v / 16)) <$> b64_strict 2 (v mod 16) 0 false r
                    | 2%nat => cons (chr (left * 16 + v / 4)) <$> b64_strict 3 (v mod 4) 0 false r
                    | _ => cons (chr (left * 64 + v)) <$> b64_strict 0 0 0 false r
                    end
           end
  end.
Definition urlsafe_b64decode_strict (t : text) : option text :=
  match t with
  | c :: _ => if decide (c = "="%char) then None else b64_strict 0 0 0 false (std_char <$> t)
  | [] => Some []
  end.

(** [b.rstrip(b"=")] *)
Definition rstrip_of (chars t : text) : text := reverse (lstrip_of chars (reverse t)).

(** ** Facts about the text of numbers and of Base64 *)

Definition canonical (b : Z) (ds : list Z) : Prop :=
  Forall (fun d => 0 <= d < b) ds /\ forall d r, ds = d :: r -> 0 < d.

Lemma undigits_last b ds d : undigits b (ds ++ [d]) = undigits b ds * b + d.
Proof. unfold undigits. by rewrite foldl_app. Qed.

Lemma canonical_snoc b ds d : canonical b (ds ++ [d]) -> canonical b ds /\ 0 <= d < b.
Proof.
  intros [Hf Hh]. apply Forall_app in Hf as [Hf Hd]. rewrite Forall_singleton in Hd. split; [|exact Hd].
  split; [done|]. intros x r ->. by apply (Hh x (r ++ [d])).
Qed.

Lemma undigits_pos b ds : 2 <= b -> canonical b ds -> ds <> [] -> 0 < undigits b ds.
Proof.
  intros Hb. induction ds as [|d ds IH] using rev_ind; intros Hc Hne; [done|].
  rewrite undigits_last. pose proof (canonical_snoc _ _ _ Hc) as [Hc' Hd].
  destruct ds as [|x r].
  - cbn. apply (proj2 Hc d []). done.
  - specialize (IH Hc' ltac:(done)). nia.
Qed.

(** A number has one text without leading zeros. *)
Lemma undigits_inj b ds es :
  2 <= b -> canonical b ds -> canonical b es -> undigits b ds = undigits b es -> ds = es.
Proof.
  intros Hb. revert es. induction ds as [|d ds IH] using rev_ind; intros es Hd He Heq.
  - destruct es as [|e r]; [done|]. pose proof (undigits_pos b (e :: r) Hb He ltac:(done)).
    change (undigits b []) with 0 in Heq. lia.
  - destruct es as [|e es _] using rev_ind.
    + pose proof (undigits_pos b (ds ++ [d]) Hb Hd ltac:(by destruct ds)).
      change (undigits b []) with 0 in Heq. lia.
    + rewrite !undigits_last in Heq. apply canonical_snoc in Hd as [Hd Hd'], He as [He He'].
      assert (undigits b ds = undigits b es /\ d = e) as [Hu ->].
      { pose proof (f_equal (fun z => z / b) Heq) as Hq. cbn beta in Hq.
        rewrite !Z.div_add_l, !Z.div_small in Hq by lia. split; [lia|]. nia. }
      by rewrite (IH es).
Qed.

Lemma show_canonical n : 0 < n -> canonical 10 (digits 10 n).
Proof.
  intros Hn. split; [apply digits_bound; lia|]. intros d r Hd.
  destruct (digits_head 10 n) as (d' & r' & Hd' & Hp); [lia|done|]. congruence.
Qed.

(** The URL-safe alphabet. *)
Lemma std_url_char n : 0 <= n < 64 -> std_char (url_char (b64_char n)) = b64_char n.
Proof.
  intros H. assert (Hall : forallb (fun k => bool_decide
    (std_char (url_char (b64_char (Z.of_nat k))) = b64_char (Z.of_nat k))) (seq 0 64) = true)
    by (vm_compute; reflexivity).
  rewrite forallb_forall in Hall. specialize (Hall (Z.to_nat n)). rewrite Z2Nat.id in Hall by lia.
  apply bool_decide_eq_true in Hall; [done|]. apply in_seq. lia.
Qed.

(** A whole number of groups and two bytes encode to that many characters,
    three more and one pad. *)
Lemma b64encode_two k b :
  length b = (3 * k + 2)%nat ->
  exists ns, b64encode b = (b64_char <$> ns) ++ str "=" /\ Forall (fun n => 0 <= n < 64) ns /\
    length ns = (4 * k + 3)%nat.
Proof.
  revert b. induction k as [|k IH]; intros b Hl.
  - destruct b as [|x [|y [|]]]; cbn in Hl; try lia. pose proof (code_range x). pose proof (code_range y).
    exists [code x / 4; code x mod 4 * 16 + code y / 16; code y mod 16 * 4]. split; [done|]. split; [|done].
    repeat constructor; Z.to_euclidean_division_equations; lia.
  - destruct b as [|x [|y [|z b]]]; cbn in Hl; try lia. destruct (IH b ltac:(lia)) as (ns & Hb & Hf & Hn).
    pose proof (code_range x). pose proof (code_range y). pose proof (code_range z).
    exists (code x / 4 :: code x mod 4 * 16 + code y / 16 :: code y mod 16 * 4 + code z / 64 :: code z mod 64 :: ns).
    split; [|split].
    + rewrite !fmap_cons, <- !app_comm_cons, <- Hb. done.
    + repeat (constructor; [Z.to_euclidean_division_equations; lia|]). done.
    + cbn. lia.
Qed.

Lemma rstrip_one t : "="%char ∉ t -> rstrip_of (str "=") (t ++ str "=") = t.
Proof.
  intros Ht. unfold rstrip_of. rewrite reverse_app. change (reverse (str "=")) with ["="%char].
  change (["="%char] ++ reverse t) with ("="%char :: reverse t). cbn [lstrip_of].
  rewrite bool_decide_eq_true_2 by (by left). rewrite lstrip_of_none; [apply reverse_involutive|].
  apply Forall_reverse, Forall_forall. intros c Hc Hin. apply list_elem_of_singleton in Hin. by subst.
Qed.

(** A full strict group, and the last one, of three characters and a pad. *)
Lemma b64_strict_group a b c d r :
  is_Some (b64_value a) -> is_Some (b64_value b) -> is_Some (b64_value c) -> is_Some (b64_value d) ->
  exists x y z, b64_strict 0 0 0 false (a :: b :: c :: d :: r) =
    (fun s => x :: y :: z :: s) <$> b64_strict 0 0 0 false r.
Proof.
  assert (Hpad : forall e, is_Some (b64_value e) -> e <> "="%char) by (intros e [v Hv] ->; by vm_compute in Hv).
  intros Ha Hb Hc Hd. cbn [b64_strict].
  rewrite !bool_decide_eq_false_2 by auto.
  destruct Ha as [va ->], Hb as [vb ->], Hc as [vc ->], Hd as [vd ->].
  eexists _, _, _. by destruct (b64_strict 0 0 0 false r).
Qed.

Lemma b64_strict_length k t :
  Forall (fun c => is_Some (b64_value c)) t -> length t = (4 * k + 3)%nat ->
  exists b, b64_strict 0 0 0 false (t ++ str "=") = Some b /\ length b = (3 * k + 2)%nat.
Proof.
  assert (Hpad : forall e, is_Some (b64_value e) -> e <> "="%char) by (intros e [v Hv] ->; by vm_compute in Hv).
  revert t. induction k as [|k IH]; intros t Ht Hl.
  - destruct t as [|a [|b [|c [|]]]]; cbn in Hl; try lia.
    rewrite !Forall_cons in Ht. destruct Ht as (Ha & Hb & Hc & _). cbn.
    rewrite !bool_decide_eq_false_2 by auto.
    destruct Ha as [va ->], Hb as [vb ->], Hc as [vc ->]. cbn. eauto.
  - destruct t as [|a [|b [|c [|d t]]]]; cbn in Hl; try lia.
    rewrite !Forall_cons in Ht. destruct Ht as (Ha & Hb & Hc & Hd & Ht).
    destruct (IH t Ht ltac:(lia)) as (s & Hs & Hsl).
    destruct (b64_strict_group a b c d (t ++ str "=")) as (x & y & z & Hg); [done..|].
    exists (x :: y :: z :: s). rewrite <- !app_comm_cons, Hg, Hs. split; [done|]. cbn. lia.
Qed.

Lemma b64encode_values b c : c ∈ b64encode b -> std_char (url_char c) = c.
Proof.
  remember (length b) as n eqn:Hn. assert (Hle : (length b <= n)%nat) by lia. clear Hn. revert b Hle.
  induction n as [|n IH]; intros b Hle Hc; [destruct b; [by apply not_elem_of_nil in Hc|cbn in Hle; lia]|].
  assert (Hcode : forall x, 0 <= code x < 256) by apply code_range.
  destruct b as [|x [|y [|z r]]]; cbn [b64encode] in Hc;
    repeat (apply elem_of_cons in Hc as [->|Hc];
      [first [reflexivity
             |apply std_url_char; pose proof (Hcode x); try pose proof (Hcode y); try pose proof (Hcode z);
              Z.to_euclidean_division_equations; lia]|]);
    try (by apply not_elem_of_nil in Hc).
  apply (IH r); [cbn in Hle; lia|done].
Qed.

Lemma urlsafe_inj a b : urlsafe_b64encode a = urlsafe_b64encode b -> a = b.
Proof.
  intros Heq. unfold urlsafe_b64encode in Heq. apply (f_equal (fmap std_char)) in Heq.
  rewrite <- !list_fmap_compose in Heq.
  assert (Hid : forall x, std_char ∘ url_char <$> b64encode x = b64encode x).
  { intros x. rewrite <- (list_fmap_id (b64encode x)) at 2. apply list_fmap_ext.
    intros i c Hc. apply list_elem_of_lookup_2 in Hc. by apply (b64encode_values x). }
  rewrite !Hid in Heq. apply (f_equal b64decode) in Heq. rewrite !b64decode_encode in Heq. congruence.
Qed.

(** ** HMAC *)

(** [hmac.new(key, message, sha256).digest()]: 32 bytes. *)
Class HMAC := {
  hmac_sha256 : text -> text -> text;
  hmac_length k m : length (hmac_sha256 k m) = 32%nat;
}.

Module OpaqueToken.

Definition TOKEN_RANDOM_BYTES : nat := 32.
Definition TOKEN_DIGEST_BYTES : nat := 32.
Definition _MINIMUM_HMAC_KEY_BYTES : nat := 32.
Definition _MAXIMUM_KEY_VERSION : Z := 2147483647.
Definition _ENCODED_RANDOM_CHARACTERS : nat := 43.
Definition _DIGEST_PREFIX : text := str "nebula:opaque-token-digest:v1" ++ [chr 0].

Notation KeyRing := (list (Z * text)).

(** [OpaqueTokenError] is a [ValueError]. *)
Inductive exn := ValueError | OpaqueTokenError | RuntimeError | KeyError.

Record OpaqueTokenDigest := { key_version : Z; value : text }.
#[global] Instance OpaqueTokenDigest_eq_dec : EqDecision OpaqueTokenDigest.
Proof. solve_decision. Defined.

Definition _valid_key_version (v : Z) : bool := (1 <=? v) && (v <=? _MAXIMUM_KEY_VERSION).

Definition is_digit (c : ascii) : bool := (48 <=? code c) && (code c <=? 57).
Definition is_lower (c : ascii) : bool := (97 <=? code c) && (code c <=? 122).
Definition is_upper (c : ascii) : bool := (65 <=? code c) && (code c <=? 90).
Definition url_alphabet (c : ascii) : bool :=
  is_upper c || is_lower c || is_digit c || bool_decide (c = "_"%char) || bool_decide (c = "-"%char).

(** [[1-9][0-9]{0,9}] *)
Definition version_text (t : text) : bool :=
  match t with
  | c :: r => is_digit c && negb (code c =? 48) && forallb is_digit r && Nat.leb (length r) 9
  | [] => false
  end.

(** [_TOKEN_PATTERN.fullmatch]: its two groups.  The version holds no dot, so
    the first dot is the separator. *)
Definition token_match (t : text) : option (text * text) :=
  match t with
  | c :: r =>
      if decide (c = "v"%char) then
        let '(version, found, encoded) := partition "."%char r in
        if found && version_text version && forallb url_alphabet encoded
           && Nat.eqb (length encoded) _ENCODED_RANDOM_CHARACTERS
        then Some (version, encoded) else None
      else None
  | [] => None
  end.

(** [_NAMESPACE_PATTERN.fullmatch]: [[a-z][a-z0-9-]{0,63}] *)
Definition namespace_match (most : nat) (t : text) : bool :=
  match t with
  | c :: r => is_lower c && forallb (fun d => is_lower d || is_digit d || bool_decide (d = "-"%char)) r
              && Nat.leb (length r) most
  | [] => false
  end.

(** *** What is a token *)

Definition well_formed (version : Z) (encoded token : text) : Prop :=
  token = str "v" ++ show_Z version ++ str "." ++ encoded /\
  1 <= version <= _MAXIMUM_KEY_VERSION /\
  Forall (fun c => url_alphabet c = true) encoded /\ length encoded = _ENCODED_RANDOM_CHARACTERS.

Lemma is_digit_char c : is_digit c = true <-> exists d, 0 <= d < 10 /\ c = digit_char d.
Proof.
  unfold is_digit. split.
  - intros H. boolP. exists (code c - 48). split; [lia|]. apply code_inj. rewrite digit_char_code by lia.
    case_match; boolP; lia.
  - intros (d & Hd & ->). rewrite digit_char_code by lia. case_match; boolP; [|lia].
    apply andb_true_intro. split; apply Z.leb_le; lia.
Qed.

Lemma version_text_spec t :
  version_text t = true <-> exists ds, t = digit_char <$> ds /\ ds <> [] /\ canonical 10 ds /\ (length ds <= 10)%nat.
Proof.
  split.
  - destruct t as [|c r]; [done|]. cbn. intros H. boolP.
    apply is_digit_char in H as (d & Hd & ->). rewrite digit_char_code in H2 by lia.
    rewrite forallb_forall in H1.
    assert (exists ds, r = digit_char <$> ds /\ Forall (fun d => 0 <= d < 10) ds) as (ds & -> & Hds).
    { clear -H1. induction r as [|c r IH]; [by exists []|].
      destruct IH as (ds & -> & Hds); [intros x Hx; apply H1; by right|].
      destruct (proj1 (is_digit_char c)) as (e & He & ->); [apply H1; by left|].
      exists (e :: ds). split; [done|by constructor]. }
    rewrite length_fmap in H0. apply Nat.leb_le in H0.
    exists (d :: ds). split; [done|]. split; [done|]. split; [split; [by constructor|]|cbn; lia].
    intros x y [= <- <-]. revert H2. case_match; boolP; lia.
  - intros (ds & -> & Hne & [Hf Hh] & Hl). destruct ds as [|d ds]; [done|]. cbn in Hl |- *.
    apply Forall_cons in Hf as [Hd Hf]. specialize (Hh d ds ltac:(done)).
    rewrite (proj2 (is_digit_char _)) by eauto. rewrite digit_char_code by lia.
    rewrite length_fmap. rewrite (proj2 (Nat.leb_le _ _)) by lia. rewrite andb_true_r. cbn.
    apply andb_true_intro. split.
    + case_match; boolP; apply negb_true_iff, Z.eqb_neq; lia.
    + apply forallb_forall. intros c Hc. apply list_elem_of_In, list_elem_of_fmap in Hc as (e & -> & He).
      rewrite Forall_forall in Hf. apply is_digit_char. eauto.
Qed.

Lemma url_alphabet_value c : url_alphabet c = true -> is_Some (b64_value (std_char c)) /\ c <> "="%char.
Proof.
  intros H. split.
  - unfold url_alphabet, is_upper, is_lower, is_digit in H. unfold std_char.
    destruct (decide (c = "-"%char)) as [->|]; [by vm_compute; eauto|].
    destruct (decide (c = "_"%char)) as [->|]; [by vm_compute; eauto|].
    rewrite !(bool_decide_eq_false_2 (c = _)), !orb_false_r in H by done. unfold b64_value.
    repeat (case_match; [eauto|]); boolP; lia.
  - intros ->. by vm_compute in H.
Qed.

Lemma url_char_alphabet n : 0 <= n < 64 -> url_alphabet (url_char (b64_char n)) = true.
Proof.
  intros H. assert (Hall : forallb (fun k => url_alphabet (url_char (b64_char (Z.of_nat k)))) (seq 0 64) = true)
    by (vm_compute; reflexivity).
  rewrite forallb_forall in Hall. specialize (Hall (Z.to_nat n)). rewrite Z2Nat.id in Hall by lia.
  apply Hall, in_seq. lia.
Qed.

Lemma encoded_decodes encoded :
  Forall (fun c => url_alphabet c = true) encoded -> length encoded = _ENCODED_RANDOM_CHARACTERS ->
  exists raw, urlsafe_b64decode_strict (encoded ++ str "=") = Some raw /\ length raw = TOKEN_RANDOM_BYTES.
Proof.
  intros Hf Hl. destruct encoded as [|c r]; [done|]. unfold urlsafe_b64decode_strict.
  rewrite <- app_comm_cons. apply Forall_cons in Hf as Hc. destruct Hc as [Hc _].
  rewrite decide_False by (by apply url_alphabet_value).
  rewrite app_comm_cons, fmap_app. change (std_char <$> str "=") with (str "=").
  apply (b64_strict_length 10).
  - apply Forall_fmap. eapply Forall_impl; [exact Hf|]. intros x Hx. by apply url_alphabet_value.
  - by rewrite length_fmap.
Qed.

Lemma show_version_text v : 1 <= v <= _MAXIMUM_KEY_VERSION -> version_text (show_Z v) = true.
Proof.
  unfold _MAXIMUM_KEY_VERSION. intros Hv. unfold show_Z. rewrite (proj2 (Z.ltb_ge v 0)) by lia.
  apply version_text_spec. exists (digits 10 v). split; [done|].
  destruct (digits_cons 10 v) as (d & ds & Hd); [lia..|]. repeat split.
  - by rewrite Hd.
  - apply digits_bound; lia.
  - apply show_canonical. lia.
  - apply digits_length; [lia| |lia]. change (10 ^ Z.of_nat 10) with 10000000000. lia.
Qed.

(** A version without a leading zero is the text of its value. *)
Lemma version_text_show t v : version_text t = true -> py_int t = Some v -> t = show_Z v /\ 0 < v.
Proof.
  intros Ht Hv. apply version_text_spec in Ht as (ds & -> & Hne & Hc & _).
  pose proof (undigits_pos 10 ds ltac:(lia) Hc Hne) as Hp.
  assert (undigits 10 ds = v) as <-.
  { revert Hv. unfold py_int. destruct Hc as [Hf _]. rewrite strip_id.
    2:{ apply alnum_no_space, Forall_fmap. eapply Forall_impl; [exact Hf|]. intros d Hd; cbn beta in Hd; apply digit_char_alnum; lia. }
    destruct ds as [|d ds]; [done|]. rewrite fmap_cons.
    assert (is_alnum (digit_char d) = true) by (apply Forall_cons in Hf as [??]; apply digit_char_alnum; lia).
    rewrite !decide_False by (by apply alnum_ne). rewrite <- fmap_cons, uint_go_digits by done. cbn. congruence. }
  split; [|done]. unfold show_Z. rewrite (proj2 (Z.ltb_ge _ 0)) by lia. unfold show_nat. f_equal.
  apply (undigits_inj 10); [lia|done|by apply show_canonical|].
  symmetry. apply undigits_digits; lia.
Qed.

Lemma dot_not_version t : version_text t = true -> "."%char ∉ t.
Proof.
  intros Ht. apply version_text_spec in Ht as (ds & -> & _ & [Hf _] & _).
  apply alnum_not_elem; [|done]. apply Forall_fmap. eapply Forall_impl; [exact Hf|].
  intros d Hd; cbn beta in Hd; apply digit_char_alnum; lia.
Qed.

Lemma token_match_spec t version encoded :
  token_match t = Some (version, encoded) <->
  t = str "v" ++ version ++ str "." ++ encoded /\ version_text version = true /\
  Forall (fun c => url_alphabet c = true) encoded /\ length encoded = _ENCODED_RANDOM_CHARACTERS.
Proof.
  split.
  - destruct t as [|c r]; [done|]. cbn. case_decide as Hc; [|done]. subst c.
    destruct (partition "."%char r) as [[v found] e] eqn:Hp. destruct found; [|done].
    cbn. case_match eqn:Hb; [|done]. intros [= <- <-]. boolP. apply Nat.eqb_eq in H0.
    split; [|split; [done|split; [|done]]].
    + f_equal. apply partition_inv in Hp. by rewrite Hp.
    + apply Forall_forall. intros x Hx. rewrite forallb_forall in H1. apply H1. by apply list_elem_of_In.
  - intros (-> & Hv & Hf & Hl). cbn. rewrite partition_app by (by apply dot_not_version).
    rewrite Hv, Hl, Nat.eqb_refl, (proj2 (forallb_forall _ _)); [done|].
    intros x Hx. rewrite Forall_forall in Hf. apply Hf. by apply list_elem_of_In.
Qed.

Section Tokens.
Context `{HMAC}.

(** [OpaqueTokenDigest.__post_init__] *)
Definition make_digest (version : Z) (v : text) : result exn OpaqueTokenDigest :=
  if negb (_valid_key_version version) || negb (Nat.eqb (length v) TOKEN_DIGEST_BYTES) then Err ValueError
  else Ok {| key_version := version; value := v |}.

(** [random] is what the random source returned. *)
Definition issue_opaque_token (version : Z) (random : text) : result exn text :=
  if negb (_valid_key_version version) then Err ValueError
  else if negb (Nat.eqb (length random) TOKEN_RANDOM_BYTES) then Err RuntimeError
  else Ok (str "v" ++ show_Z version ++ str "." ++ rstrip_of (str "=") (urlsafe_b64encode random)).

Definition _parse_token (token : text) : result exn Z :=
  match token_match token with
  | None => Err OpaqueTokenError
  | Some (version, encoded) =>
      match py_int version with
      | None => Err ValueError
      | Some key_version =>
          if negb (_valid_key_version key_version) then Err OpaqueTokenError
          else match urlsafe_b64decode_strict (encoded ++ str "=") with
               | None => Err OpaqueTokenError
               | Some raw_value =>
                   if negb (Nat.eqb (length raw_value) TOKEN_RANDOM_BYTES) then Err OpaqueTokenError
                   else Ok key_version
               end
      end
  end.

Definition _key_for_version (key_ring : KeyRing) (version : Z) : result exn text :=
  match dict_get version key_ring with
  | None => Err OpaqueTokenError
  | Some key => if Nat.ltb (length key) _MINIMUM_HMAC_KEY_BYTES then Err ValueError else Ok key
  end.

Definition _validated_namespace (namespace : text) : result exn text :=
  if namespace_match 63 namespace then Ok namespace else Err ValueError.

Definition message (namespace token : text) : text := _DIGEST_PREFIX ++ namespace ++ [chr 0] ++ token.

Definition digest_opaque_token (token : text) (key_ring : KeyRing) (namespace : text)
  : result exn OpaqueTokenDigest :=
  version ← _parse_token token;
  key ← _key_for_version key_ring version;
  namespace_bytes ← _validated_namespace namespace;
  make_digest version (hmac_sha256 key (message namespace_bytes token)).

Definition verify_opaque_token (token : text) (expected : OpaqueTokenDigest) (key_ring : KeyRing)
    (namespace : text) : bool :=
  match digest_opaque_token token key_ring namespace with
  | Ok candidate =>
      (key_version candidate =? key_version expected) && bool_decide (value candidate = value expected)
  | Err _ => false
  end.

(** *** [device_identity.py] *)

Definition _NAMESPACE : text := str "nebula.device.hardware" ++ [chr 0].

Definition hash_hardware_id (hardware_id : text) (key_ring : KeyRing) (version : Z)
  : result exn (Z * text) :=
  match dict_get version key_ring with
  | None => Err KeyError
  | Some key => Ok (version, hmac_sha256 key (_NAMESPACE ++ utf8 hardware_id))
  end.

Definition hardware_id_matches (hardware_id stored_hash : text) (stored_version : Z)
    (key_ring : KeyRing) : bool :=
  match dict_get stored_version key_ring with
  | None => false
  | Some key => bool_decide (hmac_sha256 key (_NAMESPACE ++ utf8 hardware_id) = stored_hash)
  end.

(** ** What they guarantee *)

(** The parser accepts exactly the texts [v<version>.<43 characters>] with a
    version in range and no leading zero: its Base64 check refuses nothing more. *)
Lemma parse_token_spec token version :
  _parse_token token = Ok version <-> exists encoded, well_formed version encoded token.
Proof.
  unfold _parse_token, well_formed. split.
  - destruct (token_match token) as [[vt encoded]|] eqn:Hm; [|done].
    apply token_match_spec in Hm as (-> & Hvt & Hf & Hl).
    destruct (py_int vt) as [v|] eqn:Hv; [|done]. destruct (_valid_key_version v) eqn:Hval; [|done]. cbn [negb].
    destruct (encoded_decodes encoded Hf Hl) as (raw & -> & ->). intros [= <-].
    apply (version_text_show _ _ Hvt) in Hv as [-> _]. unfold _valid_key_version in Hval. boolP. eauto 10.
  - intros (encoded & -> & Hv & Hf & Hl).
    rewrite (proj2 (token_match_spec _ (show_Z version) encoded)); [|by split_and!; try apply show_version_text].
    rewrite py_int_show. unfold _valid_key_version. rewrite !(proj2 (Z.leb_le _ _)) by lia.
    by destruct (encoded_decodes encoded Hf Hl) as (raw & -> & ->).
Qed.

(** What an issued token is: the version, and 43 characters that stand for the
    random bytes. *)
Lemma issue_shape version random token :
  issue_opaque_token version random = Ok token ->
  exists encoded, well_formed version encoded token /\
    urlsafe_b64encode random = encoded ++ str "=".
Proof.
  unfold issue_opaque_token. destruct (_valid_key_version version) eqn:Hv; [|done]. cbn [negb].
  destruct (Nat.eqb_spec (length random) TOKEN_RANDOM_BYTES) as [Hl|]; [|done]. cbn [negb]. intros [= <-].
  destruct (b64encode_two 10 random Hl) as (ns & Hb & Hf & Hn).
  unfold urlsafe_b64encode. rewrite Hb, fmap_app. change (url_char <$> str "=") with (str "=").
  assert (Hu : Forall (fun c => url_alphabet c = true) (url_char <$> (b64_char <$> ns))).
  { apply Forall_fmap, Forall_fmap. eapply Forall_impl; [exact Hf|]. intros n Hr. by apply url_char_alphabet. }
  rewrite rstrip_one.
  - eexists. split; [|done]. unfold _valid_key_version in Hv. boolP.
    repeat split; [lia..|done|]. by rewrite !length_fmap.
  - intros Hin. rewrite Forall_forall in Hu. by apply Hu, url_alphabet_value in Hin as [_ ?].
Qed.

Lemma issue_parse version random token :
  issue_opaque_token version random = Ok token -> _parse_token token = Ok version.
Proof. intros (encoded & Hw & _)%issue_shape. apply parse_token_spec. eauto. Qed.

(** No two random values give one token. *)
Lemma issue_inj version version' random random' token :
  issue_opaque_token version random = Ok token -> issue_opaque_token version' random' = Ok token ->
  version = version' /\ random = random'.
Proof.
  intros H1 H2. assert (version = version') as <-.
  { apply issue_parse in H1, H2. congruence. }
  split; [done|]. apply issue_shape in H1 as (e1 & (Ht1 & _) & Hr1), H2 as (e2 & (Ht2 & _) & Hr2).
  assert (e1 = e2) as -> by (rewrite Ht1 in Ht2; by apply app_inv_head, app_inv_head, app_inv_head in Ht2).
  assert (Heq : urlsafe_b64encode random = urlsafe_b64encode random') by congruence.
  apply (urlsafe_inj _ _ Heq).
Qed.

(** *** Digests *)

Definition key_usable (key_ring : KeyRing) (version : Z) (key : text) : Prop :=
  dict_get version key_ring = Some key /\ (_MINIMUM_HMAC_KEY_BYTES <= length key)%nat.

Lemma key_for_version_spec key_ring version key :
  _key_for_version key_ring version = Ok key <-> key_usable key_ring version key.
Proof.
  unfold _key_for_version, key_usable. destruct (dict_get version key_ring) as [k|]; [|split; [done|by intros [? _]]].
  destruct (Nat.ltb_spec (length k) _MINIMUM_HMAC_KEY_BYTES); split.
  - done.
  - intros [[= ->] ?]. lia.
  - by intros [= ->].
  - by intros [[= ->] _].
Qed.

Lemma digest_spec token key_ring namespace d :
  digest_opaque_token token key_ring namespace = Ok d <->
  exists key encoded, well_formed (key_version d) encoded token /\ key_usable key_ring (key_version d) key /\
    namespace_match 63 namespace = true /\ value d = hmac_sha256 key (message namespace token).
Proof.
  unfold digest_opaque_token, mbind, result_bind. split.
  - destruct (_parse_token token) as [v|] eqn:Hp; [|done]. apply parse_token_spec in Hp as (encoded & Hw).
    destruct (_key_for_version key_ring v) as [key|] eqn:Hk; [|done]. apply key_for_version_spec in Hk.
    unfold _validated_namespace. destruct (namespace_match 63 namespace) eqn:Hn; [|done].
    unfold make_digest. rewrite hmac_length. case_match; [done|]. intros [= <-]. cbn. eauto 10.
  - destruct d as [v x]. cbn. intros (key & encoded & Hw & Hk & Hn & ->).
    rewrite (proj2 (parse_token_spec token v)) by eauto. rewrite (proj2 (key_for_version_spec _ _ _) Hk).
    unfold _validated_namespace. rewrite Hn. unfold make_digest, _valid_key_version. rewrite hmac_length.
    destruct Hw as (_ & Hv & _). by rewrite !(proj2 (Z.leb_le _ _)) by lia.
Qed.

Lemma namespace_no_nul most namespace : namespace_match most namespace = true -> chr 0 ∉ namespace.
Proof.
  assert (Hz : forall c, is_lower c || is_digit c || bool_decide (c = "-"%char) = true -> chr 0 <> c)
    by (intros c Hc <-; by vm_compute in Hc).
  destruct namespace as [|c r]; [done|]. unfold namespace_match. intros Hm. boolP.
  apply not_elem_of_cons. split; [apply Hz; by rewrite H0|]. intros Hin.
  rewrite forallb_forall in H2. apply list_elem_of_In in Hin. by apply (Hz _ (H2 _ Hin)).
Qed.

Lemma nul_terminated_inj a b r s :
  chr 0 ∉ a -> chr 0 ∉ b -> a ++ [chr 0] ++ r = b ++ [chr 0] ++ s -> a = b /\ r = s.
Proof.
  intros Ha Hb Heq. apply (f_equal (partition (chr 0))) in Heq. cbn [app] in Heq.
  rewrite !partition_app in Heq by done. by injection Heq as -> ->.
Qed.

(** The bytes under the keyed digest determine the namespace and the token. *)
Lemma message_inj ns ns' t t' :
  namespace_match 63 ns = true -> namespace_match 63 ns' = true ->
  message ns t = message ns' t' -> ns = ns' /\ t = t'.
Proof.
  intros Hn Hn' Heq. unfold message in Heq. apply app_inv_head in Heq.
  apply nul_terminated_inj in Heq; eauto using namespace_no_nul.
Qed.

Lemma digest_version token key_ring namespace d :
  digest_opaque_token token key_ring namespace = Ok d -> _parse_token token = Ok (key_version d).
Proof. intros (key & encoded & Hw & _)%digest_spec. apply parse_token_spec. eauto. Qed.

(** A token issued under a version the ring has a key for always has a digest. *)
Lemma issued_digest version random token key_ring namespace key :
  issue_opaque_token version random = Ok token -> key_usable key_ring version key ->
  namespace_match 63 namespace = true ->
  digest_opaque_token token key_ring namespace =
    Ok {| key_version := version; value := hmac_sha256 key (message namespace token) |}.
Proof.
  intros (encoded & Hw & _)%issue_shape Hk Hn. apply digest_spec. cbn. eauto 10.
Qed.

Lemma verify_spec token expected key_ring namespace :
  verify_opaque_token token expected key_ring namespace = true <->
  digest_opaque_token token key_ring namespace = Ok expected.
Proof.
  unfold verify_opaque_token. destruct (digest_opaque_token token key_ring namespace) as [[v x]|]; [|done]. cbn.
  rewrite andb_true_iff, Z.eqb_eq, bool_decide_eq_true. destruct expected as [v' x']. cbn.
  split; [by intros [-> ->]|by intros [= -> ->]].
Qed.

(** A token the server issues is recognised later, and only by the purpose
    it was made for: whatever else verifies against its stored digest, under
    the same keys, is either the same token in the same namespace or a pair of
    distinct messages with one HMAC under the key the digest names. *)
Theorem only_the_token_verifies version random token key_ring namespace key token' namespace' :
  issue_opaque_token version random = Ok token -> key_usable key_ring version key ->
  namespace_match 63 namespace = true ->
  exists digest, digest_opaque_token token key_ring namespace = Ok digest /\ key_version digest = version /\
    verify_opaque_token token digest key_ring namespace = true /\
    (verify_opaque_token token' digest key_ring namespace' = true ->
     (token' = token /\ namespace' = namespace) \/
     (message namespace' token' <> message namespace token /\
      hmac_sha256 key (message namespace' token') = hmac_sha256 key (message namespace token))).
Proof.
  intros Hi Hk Hn. pose proof (issued_digest _ _ _ _ _ _ Hi Hk Hn) as Hd. eexists. split; [exact Hd|].
  split; [done|]. split; [by apply verify_spec|].
  intros (key' & encoded' & Hw' & Hk' & Hn' & Hv')%verify_spec%digest_spec. cbn in *.
  assert (key' = key) as -> by (destruct Hk, Hk'; congruence).
  destruct (decide (message namespace' token' = message namespace token)) as [Heq|]; [left|right; done].
  apply message_inj in Heq as [-> ->]; done.
Qed.

(** Hardware hashes and token digests are made of different messages. *)
Lemma hardware_message_separate hardware_id namespace token :
  _NAMESPACE ++ utf8 hardware_id <> message namespace token.
Proof. unfold message, _NAMESPACE, _DIGEST_PREFIX. by rewrite <- !app_assoc. Qed.

Lemma hardware_round_trip hardware_id key_ring version v h :
  hash_hardware_id hardware_id key_ring version = Ok (v, h) ->
  hardware_id_matches hardware_id h v key_ring = true.
Proof.
  unfold hash_hardware_id, hardware_id_matches. destruct (dict_get version key_ring) as [key|] eqn:Hk; [|done].
  intros [= <- <-]. rewrite Hk. by apply bool_decide_eq_true.
Qed.

End Tokens.

(** ** An instance, and the property on it *)

(** A keyed sum of the bytes, reduced to 32. *)
Definition example_hmac_value (key msg : text) : text :=
  to_bytes 32 ((from_bytes (take 16 key) + from_bytes msg) mod (2 ^ 255 - 19)).
Definition example_hmac : HMAC := {|
  hmac_sha256 := example_hmac_value;
  hmac_length k m := to_bytes_length 32 _;
|}.
#[local] Existing Instance example_hmac.

Definition example_ring : KeyRing := [(1, str "0123456789abcdef0123456789abcdef"); (2, str "fedcba9876543210fedcba9876543210")].
Definition example_random : text := to_bytes 32 123456789012345678901234567890.

Lemma only_the_token_verifies_witness :
  exists token digest,
    issue_opaque_token 2 example_random = Ok token /\
    digest_opaque_token token example_ring (str "refresh") = Ok digest /\ key_version digest = 2 /\
    verify_opaque_token token digest example_ring (str "password-reset") = false.
Proof.
  destruct (issue_opaque_token 2 example_random) as [token|] eqn:Hi; [|by vm_compute in Hi].
  destruct (only_the_token_verifies 2 example_random token example_ring (str "refresh")
    (str "fedcba9876543210fedcba9876543210") token (str "password-reset") Hi) as (digest & Hd & Hv & _ & Hneg).
  - split; vm_compute; [reflexivity|lia].
  - reflexivity.
  - exists token, digest. split; [done|]. split; [done|]. split; [done|].
    destruct (verify_opaque_token token digest example_ring (str "password-reset")) eqn:Hver; [|done].
    exfalso. destruct (Hneg eq_refl) as [[_ Hns]|[_ Hh]]; [by vm_compute in Hns|].
    vm_compute in Hi. injection Hi as <-. by vm_compute in Hh.
Defined.

End OpaqueToken.
