(* ===== verification/RedisState.v ===== *)
(** * Abuse controls and administrator sessions

    Models [nebula_api/auth/redis_state.py].  Module [Redis]: the commands its
    scripts call, over keys with deadlines on the server's clock, and the Lua
    scripts themselves.  Module [RedisState]: the methods of [RedisAuthState],
    over a connection that may lose a script or its reply.

    Instants and durations are in milliseconds; [now] is what [self._clock]
    read.  A Lua number is an integer here: the scripts add instants, far below
    [2 ^ 53]. *)

From S2P Require Import Prelude PyText PyBytes OpaqueToken.

(** [b.decode("utf-8")], on what encodes code points below 256. *)
Fixpoint utf8_decode (b : text) : option text :=
  match b with
  | [] => Some []
  | c :: r =>
      if code c <? 128 then cons c <$> utf8_decode r
      else match r with
           | d :: r' =>
               if (194 <=? code c) && (code c <=? 195) && (128 <=? code d) && (code d <=? 191)
               then cons (chr ((code c - 192) * 64 + (code d - 128))) <$> utf8_decode r'
               else None
           | [] => None
           end
  end.

Module Redis.

(** ** The server *)

Notation hash := (list (text * text)).
(** A string holds a counter, or text that is not a number. *)
Inductive value := Counter (n : Z) | Hash (fields : hash) | Plain (b : text).
Record entry := { content : value; deadline : option Z }.
Record server := { keys : list (text * entry); time : Z }.

(** A script that uses a key of another type, or compares what is not a
    number, stops there; what it did stays done. *)
Inductive script_error := WrongType | NotANumber.
Notation script := (prog server script_error).

(** What a script returns to the client. *)
Inductive reply := Int (n : Z) | Bulk (b : text) | Nil | Array (l : list reply).

Definition expired (t : Z) (e : entry) : bool :=
  match deadline e with Some d => d <? t | None => false end.
Definition find (s : server) (k : text) : option entry :=
  match dict_get k (keys s) with
  | Some e => if expired (time s) e then None else Some e
  | None => None
  end.
Definition with_keys (ks : list (text * entry)) (s : server) : server := {| keys := ks; time := time s |}.
Definition store (k : text) (e : entry) (s : server) : server := with_keys (dict_set k e (keys s)) s.
Definition drop_key (k : text) (s : server) : server := with_keys (dict_pop k (keys s)) s.
Definition tick (d : Z) (s : server) : server := {| keys := keys s; time := time s + d |}.

(** ** Commands *)

(** [SET k b EX seconds NX] *)
Definition set_nx_ex (k b : text) (seconds : Z) : script bool := fun s =>
  match find s k with
  | Some _ => (Ok false, s)
  | None => (Ok true, store k {| content := Plain b; deadline := Some (time s + 1000 * seconds) |} s)
  end.

Definition exists_ (k : text) : script bool := gets (fun s => bool_decide (is_Some (find s k))).
Definition del (k : text) : script Z := fun s =>
  match find s k with
  | Some _ => (Ok 1, drop_key k s)
  | None => (Ok 0, drop_key k s)
  end.
Definition hgetall (k : text) : script hash := fun s =>
  match find s k with
  | Some e => match content e with Hash h => (Ok h, s) | _ => (Err WrongType, s) end
  | None => (Ok [], s)
  end.
Definition hget (k f : text) : script (option text) := h ← hgetall k; mret (dict_get f h).
Definition set_fields (fields : hash) (h : hash) : hash := foldl (fun h kv => dict_set kv.1 kv.2 h) h fields.
Definition hset (k : text) (fields : hash) : script unit := fun s =>
  match find s k with
  | Some e =>
      match content e with
      | Hash h => (Ok tt, store k {| content := Hash (set_fields fields h); deadline := deadline e |} s)
      | _ => (Err WrongType, s)
      end
  | None => (Ok tt, store k {| content := Hash (set_fields fields []); deadline := None |} s)
  end.
Definition pexpire (k : text) (ms : Z) : script unit := fun s =>
  match find s k with
  | Some e =>
      if ms <=? 0 then (Ok tt, drop_key k s)
      else (Ok tt, store k {| content := content e; deadline := Some (time s + ms) |} s)
  | None => (Ok tt, s)
  end.
(** [PTTL]: -2 for no key, -1 for no deadline. *)
Definition pttl (k : text) : script Z := gets (fun s =>
  match find s k with
  | Some e => match deadline e with Some d => d - time s | None => -1 end
  | None => -2
  end).
Definition incr (k : text) : script Z := fun s =>
  match find s k with
  | Some e =>
      match content e with
      | Counter n => (Ok (n + 1), store k {| content := Counter (n + 1); deadline := deadline e |} s)
      | Hash _ => (Err WrongType, s)
      | Plain _ => (Err NotANumber, s)
      end
  | None => (Ok 1, store k {| content := Counter 1; deadline := None |} s)
  end.
(** The keys [SCAN ... MATCH "<prefix>*"] goes through. *)
Definition scan (prefix : text) : script (list text) := gets (fun s =>
  (filter (fun kv => startswith prefix kv.1 = true /\ expired (time s) kv.2 = false) (keys s)).*1).

(** [tonumber(value or '0')] of the decimal integers the fields hold. *)
Definition tonumber (o : option text) : script Z :=
  match o with
  | None => mret 0
  | Some t => match py_int t with Some n => mret n | None => raise NotANumber end
  end.

(** ** The scripts *)

(** [_RATE_LIMIT_LUA] *)
Fixpoint rate_loop (ks : list text) (limit window : Z) (allowed : bool) : script bool :=
  match ks with
  | [] => mret allowed
  | k :: ks' =>
      count ← incr k;
      ttl ← pttl k;
      _ ← (if (count =? 1) || (ttl <? 0) then pexpire k window else mret tt);
      rate_loop ks' limit window (allowed && (count <=? limit))
  end.
Definition RATE_LIMIT (ks : list text) (limit window : Z) : script reply :=
  allowed ← rate_loop ks limit window true; mret (Int (if allowed : bool then 1 else 0)).

Definition locked_until_ms := str "locked_until_ms".
Definition failures_ := str "failures".

(** [_LOCKOUT_STATUS_LUA] *)
Definition LOCKOUT_STATUS (k : text) (now_ms : Z) : script reply :=
  v ← hget k locked_until_ms;
  until_ms ← tonumber v;
  if now_ms <? until_ms then mret (Int (until_ms - now_ms))
  else _ ← (if 0 <? until_ms then del k else mret 0); mret (Int 0).

(** [_LOCKOUT_FAILURE_LUA] *)
Definition LOCKOUT_FAILURE (k : text) (now_ms threshold lock_ms : Z) : script reply :=
  v ← hget k locked_until_ms;
  until_ms ← tonumber v;
  if now_ms <? until_ms then mret (Array [Int 1; Int (until_ms - now_ms)])
  else
    f ← hget k failures_;
    n ← tonumber f;
    if threshold <=? n + 1 then
      _ ← hset k [(failures_, show_Z threshold); (locked_until_ms, show_Z (now_ms + lock_ms))];
      _ ← pexpire k lock_ms;
      mret (Array [Int 1; Int lock_ms])
    else
      _ ← hset k [(failures_, show_Z (n + 1)); (locked_until_ms, show_Z 0)];
      _ ← pexpire k lock_ms;
      mret (Array [Int 0; Int 0]).

(** [_SET_HASH_WITH_TTL_LUA], one [HSET] per field. *)
Fixpoint hset_each (k : text) (fields : hash) : script unit :=
  match fields with
  | [] => mret tt
  | kv :: r => _ ← hset k [kv]; hset_each k r
  end.
Definition SET_HASH_WITH_TTL (k : text) (fields : hash) (ttl : Z) : script reply :=
  present ← exists_ k;
  if present : bool then mret (Int 0)
  else
    _ ← hset_each k fields;
    _ ← pexpire k ttl;
    mret (Int 1).

Definition bulk_of (o : option text) : reply := match o with Some b => Bulk b | None => Nil end.
Definition flat (h : hash) : reply := Array (h ≫= fun kv => [Bulk kv.1; Bulk kv.2]).
Definition empty_table : reply := Array [].

(** [_CONSUME_PREAUTH_LUA] *)
Definition CONSUME_PREAUTH (k purpose context_digest : text) : script reply :=
  present ← exists_ k;
  if negb present then mret empty_table
  else
    p ← hget k (str "purpose");
    if decide (p = Some purpose) then
      c ← hget k (str "context_digest");
      if decide (c = Some context_digest) then
        values ← hgetall k;
        _ ← del k;
        mret (flat values)
      else mret empty_table
    else mret empty_table.

(** [_PEEK_PREAUTH_LUA] *)
Definition PEEK_PREAUTH (k purpose context_digest : text) : script reply :=
  p ← hget k (str "purpose");
  if decide (p = Some purpose) then
    c ← hget k (str "context_digest");
    if decide (c = Some context_digest) then
      a ← hget k (str "admin_id"); mret (bulk_of a)
    else mret Nil
  else mret Nil.

Definition absolute_expires_ms := str "absolute_expires_ms".

(** [_GET_SESSION_LUA] *)
Definition GET_SESSION (k : text) (now_ms idle_ms : Z) : script reply :=
  present ← exists_ k;
  if negb present then mret empty_table
  else
    v ← hget k absolute_expires_ms;
    absolute_ms ← tonumber v;
    if absolute_ms <=? now_ms then _ ← del k; mret empty_table
    else
      _ ← hset k [(str "last_seen_ms", show_Z now_ms)];
      _ ← pexpire k (Z.min idle_ms (absolute_ms - now_ms));
      h ← hgetall k;
      mret (flat h).

(** [_ROTATE_CSRF_LUA] *)
Definition ROTATE_CSRF (k : text) (now_ms idle_ms : Z) (current replacement : text) : script reply :=
  present ← exists_ k;
  if negb present then mret (Int 0)
  else
    v ← hget k absolute_expires_ms;
    absolute_ms ← tonumber v;
    if absolute_ms <=? now_ms then _ ← del k; mret (Int 0)
    else
      c ← hget k (str "csrf_digest");
      if decide (c = Some current) then
        _ ← hset k [(str "csrf_digest", replacement); (str "last_seen_ms", show_Z now_ms)];
        _ ← pexpire k (Z.min idle_ms (absolute_ms - now_ms));
        mret (Int 1)
      else mret (Int 0).

(** [_LIST_ADMIN_SESSIONS_LUA] *)
Fixpoint list_loop (ks : list text) (admin_id : text) : script (list reply) :=
  match ks with
  | [] => mret []
  | k :: ks' =>
      a ← hget k (str "admin_id");
      if decide (a = Some admin_id) then
        h ← hgetall k; rest ← list_loop ks' admin_id; mret (flat h :: rest)
      else list_loop ks' admin_id
  end.
Definition LIST_ADMIN_SESSIONS (prefix admin_id : text) : script reply :=
  ks ← scan prefix; l ← list_loop ks admin_id; mret (Array l).

(** [_REVOKE_ADMIN_SESSION_BY_ID_LUA] *)
Fixpoint revoke_loop (ks : list text) (admin_id session_id : text) : script reply :=
  match ks with
  | [] => mret (Int 0)
  | k :: ks' =>
      a ← hget k (str "admin_id");
      i ← hget k (str "session_id");
      if decide (a = Some admin_id /\ i = Some session_id) then n ← del k; mret (Int n)
      else revoke_loop ks' admin_id session_id
  end.
Definition REVOKE_ADMIN_SESSION_BY_ID (prefix admin_id session_id : text) : script reply :=
  ks ← scan prefix; revoke_loop ks admin_id session_id.

(** [HSET] with a missing value: Lua passes [false], which the command refuses. *)
Definition required (o : option text) : script text :=
  match o with Some t => mret t | None => raise WrongType end.

(** [_ROTATE_SESSION_LUA] *)
Definition ROTATE_SESSION (k k2 : text) (now_ms idle_ms : Z) (session_id step_up csrf_digest : text)
  : script reply :=
  present ← exists_ k;
  taken ← (if negb present then mret true else exists_ k2);
  if taken : bool then mret empty_table
  else
    v ← hget k absolute_expires_ms;
    absolute_ms ← tonumber v;
    if absolute_ms <=? now_ms then _ ← del k; mret empty_table
    else
      a ← hget k (str "admin_id");
      m ← hget k (str "mfa_method");
      _ ← del k;
      admin_id ← required a;
      mfa_method ← required m;
      _ ← hset k2
        [(str "admin_id", admin_id); (str "session_id", session_id); (str "created_ms", show_Z now_ms);
         (str "last_seen_ms", show_Z now_ms); (absolute_expires_ms, show_Z absolute_ms);
         (str "mfa_method", mfa_method); (str "step_up_ms", step_up); (str "csrf_digest", csrf_digest)];
      _ ← pexpire k2 (Z.min idle_ms (absolute_ms - now_ms));
      h ← hgetall k2;
      mret (flat h).

(** ** What the commands do *)

Lemma find_store_eq k e s : find (store k e s) k = if expired (time s) e then None else Some e.
Proof. unfold find, store. cbn. by rewrite dict_get_set_eq. Qed.
Lemma find_store_ne k k' e s : k <> k' -> find (store k e s) k' = find s k'.
Proof. intros Hk. unfold find, store. cbn. by rewrite dict_get_set_ne. Qed.
Lemma find_drop_eq k s : find (drop_key k s) k = None.
Proof. unfold find, drop_key. cbn. by rewrite dict_get_pop_eq. Qed.
Lemma find_drop_ne k k' s : k <> k' -> find (drop_key k s) k' = find s k'.
Proof. intros Hk. unfold find, drop_key. cbn. by rewrite dict_get_pop_ne. Qed.
Lemma find_live s k e : find s k = Some e -> expired (time s) e = false.
Proof. unfold find. destruct (dict_get k (keys s)) as [x|]; [|done]. destruct (expired (time s) x) eqn:He; congruence. Qed.

(** Waiting: a key is there until its deadline, and never comes back. *)
Lemma find_tick s k e d :
  0 <= d -> find s k = Some e ->
  find (tick d s) k = if expired (time s + d) e then None else Some e.
Proof.
  intros Hd. unfold find. cbn. destruct (dict_get k (keys s)) as [x|]; [|done].
  destruct (expired (time s) x); [done|]. by intros [= ->].
Qed.
Lemma find_tick_None s k d : 0 <= d -> find s k = None -> find (tick d s) k = None.
Proof.
  intros Hd. unfold find. cbn [keys time tick]. destruct (dict_get k (keys s)) as [x|]; [|done].
  destruct (expired (time s) x) eqn:He; [|done]. intros _. unfold expired in *.
  destruct (deadline x); [|done]. boolP. by rewrite (proj2 (Z.ltb_lt _ _)) by lia.
Qed.

Lemma time_store k e s : time (store k e s) = time s.
Proof. done. Qed.
Lemma time_drop k s : time (drop_key k s) = time s.
Proof. done. Qed.

Definition entry_of (h : hash) (d : option Z) : entry := {| content := Hash h; deadline := d |}.
#[global] Arguments entry_of : simpl never.

Section Commands.
Context (s : server) (k : text) (h : hash) (d : option Z).
Hypothesis Hfind : find s k = Some (entry_of h d).

Lemma exists_found : exists_ k s = (Ok true, s).
Proof using Hfind. unfold exists_, gets. by rewrite Hfind, bool_decide_eq_true_2 by eauto. Qed.
Lemma hgetall_found : hgetall k s = (Ok h, s).
Proof using Hfind. unfold hgetall. by rewrite Hfind. Qed.
Lemma hget_found f : hget k f s = (Ok (dict_get f h), s).
Proof using Hfind. unfold hget, mbind, prog_bind. by rewrite hgetall_found. Qed.
Lemma hset_found fields : hset k fields s = (Ok tt, store k (entry_of (set_fields fields h) d) s).
Proof using Hfind. unfold hset. by rewrite Hfind. Qed.
Lemma pexpire_found ms : 0 < ms -> pexpire k ms s = (Ok tt, store k (entry_of h (Some (time s + ms))) s).
Proof using Hfind. intros Hms. unfold pexpire. rewrite Hfind. by rewrite (proj2 (Z.leb_gt _ _)) by lia. Qed.
Lemma del_found : del k s = (Ok 1, drop_key k s).
Proof using Hfind. unfold del. by rewrite Hfind. Qed.
End Commands.

Lemma hget_absent s k f : find s k = None -> hget k f s = (Ok None, s).
Proof. intros Hf. unfold hget, mbind, prog_bind, hgetall. by rewrite Hf. Qed.
Lemma hset_absent s k fields :
  find s k = None -> hset k fields s = (Ok tt, store k (entry_of (set_fields fields []) None) s).
Proof. intros Hf. unfold hset. by rewrite Hf. Qed.
Lemma exists_absent s k : find s k = None -> exists_ k s = (Ok false, s).
Proof. intros Hf. unfold exists_, gets. rewrite Hf. by rewrite bool_decide_eq_false_2 by (by intros [? ?]). Qed.
Lemma del_absent s k : find s k = None -> del k s = (Ok 0, drop_key k s).
Proof. intros Hf. unfold del. by rewrite Hf. Qed.
Lemma tonumber_show s n : tonumber (Some (show_Z n)) s = (Ok n, s).
Proof. unfold tonumber. by rewrite py_int_show. Qed.

Lemma find_entry_store s k h d :
  (forall t, d = Some t -> time s <= t) -> find (store k (entry_of h d) s) k = Some (entry_of h d).
Proof.
  intros Hd. rewrite find_store_eq. unfold expired, entry_of. cbn [deadline]. destruct d as [t|]; [|done].
  by rewrite (proj2 (Z.ltb_ge _ _)) by (by apply Hd).
Qed.

(** A change of one key. *)
Definition sets (k : text) (o : option entry) (s s' : server) : Prop :=
  find s' k = o /\ (forall k', k' <> k -> find s' k' = find s k') /\ time s' = time s.

Lemma sets_refl k s : sets k (find s k) s s.
Proof. done. Qed.
Lemma sets_trans k o o' s s' s'' : sets k o s s' -> sets k o' s' s'' -> sets k o' s s''.
Proof.
  intros (_ & H1 & T1) (H2 & H3 & T2). split; [done|]. split; [|congruence].
  intros k' Hk. by rewrite H3, H1.
Qed.
Lemma sets_store k h d s :
  (forall t, d = Some t -> time s <= t) -> sets k (Some (entry_of h d)) s (store k (entry_of h d) s).
Proof. intros Hd. split; [by apply find_entry_store|]. split; [|done]. intros k' Hk. by apply find_store_ne. Qed.
Lemma sets_drop k s : sets k None s (drop_key k s).
Proof. split; [apply find_drop_eq|]. split; [|done]. intros k' Hk. by apply find_drop_ne. Qed.

Lemma live_deadline s k h d t : find s k = Some (entry_of h d) -> d = Some t -> time s <= t.
Proof. intros Hf%find_live ->. unfold expired, entry_of in Hf. cbn [deadline] in Hf. by boolP. Qed.

(** Fields and a new deadline. *)
Lemma update_sets s k h d fields ms :
  find s k = Some (entry_of h d) -> 0 < ms ->
  exists s', (_ ← hset k fields; pexpire k ms) s = (Ok tt, s') /\
    sets k (Some (entry_of (set_fields fields h) (Some (time s + ms)))) s s'.
Proof.
  intros Hf Hms. unfold mbind, prog_bind. rewrite (hset_found s k h d Hf).
  pose proof (sets_store k (set_fields fields h) d s (fun t => live_deadline s k h d t Hf)) as Hs.
  erewrite pexpire_found; [|apply Hs|done]. eexists. split; [done|].
  eapply sets_trans; [exact Hs|]. apply sets_store. intros t [= <-]. cbn. lia.
Qed.
Lemma create_sets s k fields ms :
  find s k = None -> 0 < ms ->
  exists s', (_ ← hset k fields; pexpire k ms) s = (Ok tt, s') /\
    sets k (Some (entry_of (set_fields fields []) (Some (time s + ms)))) s s'.
Proof.
  intros Hf Hms. unfold mbind, prog_bind. rewrite (hset_absent s k fields Hf).
  pose proof (sets_store k (set_fields fields []) None s ltac:(done)) as Hs.
  erewrite pexpire_found; [|apply Hs|done]. eexists. split; [done|].
  eapply sets_trans; [exact Hs|]. apply sets_store. intros t [= <-]. cbn. lia.
Qed.

End Redis.

Module RedisState.
Import Redis.

(** ** The connection *)

Inductive exn := AuthStateUnavailable | ValueError | RuntimeError.
#[global] Instance exn_eq_dec : EqDecision exn.
Proof. solve_decision. Defined.

(** What becomes of one call of the client. *)
Inductive fate := Delivered | RequestLost | AnswerLost.
Record conn := { redis : server; fates : list fate }.
Notation M := (prog conn exn).

Definition next_fate (c : conn) : fate := hd Delivered (fates c).
Definition after_call (s : server) (c : conn) : conn := {| redis := s; fates := tl (fates c) |}.

(** [client.eval]; any failure is an exception, [AuthStateUnavailable] once
    caught. *)
Definition eval {A} (sc : script A) : M A := fun c =>
  match next_fate c with
  | RequestLost => (Err AuthStateUnavailable, after_call (redis c) c)
  | f =>
      let '(r, s) := sc (redis c) in
      match r, f with
      | Ok a, Delivered => (Ok a, after_call s c)
      | _, _ => (Err AuthStateUnavailable, after_call s c)
      end
  end.
Definition delete (k : text) : M unit := _ ← eval (del k); mret tt.

(** [try: ... except Exception: raise AuthStateUnavailable] *)
Definition guarded {A} (m : M A) : M A := try_except m (fun _ => Some (raise AuthStateUnavailable)).

Record RateBucket := { namespace : text; subject : text }.
#[global] Instance RateBucket_eq_dec : EqDecision RateBucket.
Proof. solve_decision. Defined.
Record LockoutState := { locked : bool; retry_after_seconds : Z }.
#[global] Instance LockoutState_eq_dec : EqDecision LockoutState.
Proof. solve_decision. Defined.
Record PreAuthChallenge := { token : text; expires_in_seconds : Z }.
Record ConsumedPreAuth := { consumed_admin : Z; consumed_purpose : text }.
Inductive SessionMethod := totp | recovery | passkey.
#[global] Instance SessionMethod_eq_dec : EqDecision SessionMethod.
Proof. solve_decision. Defined.
Record AdminSessionRecord := {
  admin_id : Z;
  session_id : Z;
  mfa_method : SessionMethod;
  created_at : Z;
  last_seen_at : Z;
  absolute_expires_at : Z;
  step_up_at : option Z;
}.
#[global] Instance AdminSessionRecord_eq_dec : EqDecision AdminSessionRecord.
Proof. solve_decision. Defined.
Record IssuedAdminSession := { session_token : text; csrf_token : text; record : AdminSessionRecord }.

Definition method_text (m : SessionMethod) : text :=
  str match m with totp => "totp" | recovery => "recovery" | passkey => "passkey" end.
Definition method_of (t : text) : option SessionMethod :=
  if decide (t = str "totp") then Some totp
  else if decide (t = str "recovery") then Some recovery
  else if decide (t = str "passkey") then Some passkey
  else None.

(** ** Reading replies *)

Definition _strict_integer (r : reply) : result exn Z :=
  match r with
  | Int n => Ok n
  | Bulk b => of_option AuthStateUnavailable (py_int b)
  | _ => Err AuthStateUnavailable
  end.

Definition _decode_text (r : reply) : result exn text :=
  match r with
  | Bulk b => of_option AuthStateUnavailable (utf8_decode b)
  | _ => Err AuthStateUnavailable
  end.

Fixpoint decode_pairs (l : list reply) (decoded : hash) : result exn hash :=
  match l with
  | k :: v :: r =>
      key ← _decode_text k;
      item ← _decode_text v;
      decode_pairs r (dict_set key item decoded)
  | [] => Ok decoded
  | _ :: [] => Err AuthStateUnavailable
  end.
Definition _decode_hash (r : reply) : result exn hash :=
  match r with
  | Nil => Ok []
  | Array l => if Nat.odd (length l) then Err AuthStateUnavailable else decode_pairs l []
  | _ => Err AuthStateUnavailable
  end.

(** The milliseconds of the first instant of year 10000. *)
Definition MAX_MS : Z := 253402300800000.
Definition _datetime_from_ms (t : text) : option Z :=
  match py_int t with
  | Some ms => if (ms <? 0) || (MAX_MS <=? ms) then None else Some ms
  | None => None
  end.

Definition _session_record (values : hash) : result exn AdminSessionRecord :=
  of_option AuthStateUnavailable
    (method ← dict_get (str "mfa_method") values;
     m ← method_of method;
     step_up_ms ← dict_get (str "step_up_ms") values;
     a ← dict_get (str "admin_id") values ≫= uuid_of_text;
     i ← dict_get (str "session_id") values ≫= uuid_of_text;
     created ← dict_get (str "created_ms") values ≫= _datetime_from_ms;
     seen ← dict_get (str "last_seen_ms") values ≫= _datetime_from_ms;
     absolute ← dict_get (str "absolute_expires_ms") values ≫= _datetime_from_ms;
     step_up ← (if decide (step_up_ms = []) then Some None else Some <$> _datetime_from_ms step_up_ms);
     mret {| admin_id := a; session_id := i; mfa_method := m; created_at := created;
             last_seen_at := seen; absolute_expires_at := absolute; step_up_at := step_up |}).

Definition _duration_ms (ms : Z) : result exn Z :=
  if (1000 <=? ms) && (ms <=? 86400000) then Ok ms else Err ValueError.

Definition _ceil_seconds (ms : Z) : Z := Z.max 0 ((ms + 999) / 1000).

(** ** [RedisAuthState] *)

Section State.
Context {H : HMAC} (key_ring : list (Z * text)) (current_key_version : Z) (prefix : text).

Definition token_exn (e : OpaqueToken.exn) : exn :=
  match e with OpaqueToken.RuntimeError => RuntimeError | _ => ValueError end.
Definition of_token {A} (r : result OpaqueToken.exn A) : M A :=
  lift match r with Ok a => Ok a | Err e => Err (token_exn e) end.
Definition issue_token (random : text) : M text :=
  of_token (OpaqueToken.issue_opaque_token current_key_version random).
Definition digest_token (t namespace : text) : M OpaqueToken.OpaqueTokenDigest :=
  of_token (OpaqueToken.digest_opaque_token t key_ring namespace).

(** [digest_opaque_token], [None] where the caller catches [ValueError]. *)
Definition digest_or_none (t namespace : text) : option OpaqueToken.OpaqueTokenDigest :=
  match OpaqueToken.digest_opaque_token t key_ring namespace with Ok d => Some d | Err _ => None end.

Definition _derive (namespace subject : text) : result exn text :=
  if negb (OpaqueToken.namespace_match 31 namespace) || bool_decide (subject = []) then Err ValueError
  else match dict_get current_key_version key_ring with
       | None => Err ValueError
       | Some key =>
           Ok (hmac_sha256 key (str "nebula:redis-key:v1" ++ [chr 0] ++ namespace ++ [chr 0] ++ utf8 subject))
       end.

Definition key_text (namespace digest : text) : text :=
  prefix ++ str ":" ++ namespace ++ str ":" ++ bytes_hex digest.
Definition _derived_key (namespace subject : text) : result exn text :=
  d ← _derive namespace subject; Ok (key_text namespace d).

Definition _digest_key (namespace digest : text) : result exn text :=
  if negb (OpaqueToken.namespace_match 31 namespace) || negb (Nat.eqb (length digest) 32) then Err ValueError
  else Ok (key_text namespace digest).

Definition _session_key (t : text) : M (option text) :=
  match digest_or_none t (str "admin-session") with
  | None => mret None
  | Some d => k ← lift (_digest_key (str "session") (OpaqueToken.value d)); mret (Some k)
  end.

Definition _set_hash_once (k : text) (fields : hash) (ttl_seconds : Z) : M unit :=
  created ← guarded (r ← eval (SET_HASH_WITH_TTL k fields (ttl_seconds * 1000)); lift (_strict_integer r));
  if decide (created = 1) then mret tt else raise AuthStateUnavailable.

(** [RedisAuthState.__init__] *)
Definition init : result exn unit :=
  match dict_get current_key_version key_ring with
  | None => Err ValueError
  | Some key =>
      if Nat.ltb (length key) 32 then Err ValueError
      else if bool_decide (prefix = []) || existsb is_space prefix then Err ValueError
      else Ok tt
  end.

(** *** Abuse controls *)

Fixpoint derived_keys (buckets : list RateBucket) : result exn (list text) :=
  match buckets with
  | [] => Ok []
  | b :: r =>
      k ← _derived_key (str "rate-" ++ namespace b) (subject b);
      ks ← derived_keys r;
      Ok (k :: ks)
  end.

Definition rate_limit (buckets : list RateBucket) (limit window_seconds : Z) : M bool :=
  if bool_decide (buckets = []) || negb ((1 <=? limit) && (limit <=? 100000))
     || negb ((1 <=? window_seconds) && (window_seconds <=? 86400))
  then raise ValueError
  else
    ks ← lift (derived_keys buckets);
    r ← guarded (eval (RATE_LIMIT ks limit (window_seconds * 1000)));
    match r with
    | Int n => if (n =? 0) || (n =? 1) then mret (n =? 1) else raise AuthStateUnavailable
    | _ => raise AuthStateUnavailable
    end.

Definition lockout_status (account_key : text) (now_ms : Z) : M LockoutState :=
  remaining_ms ← guarded (
    k ← lift (_derived_key (str "admin-lockout") account_key);
    r ← eval (LOCKOUT_STATUS k now_ms);
    lift (_strict_integer r));
  mret {| locked := 0 <? remaining_ms; retry_after_seconds := _ceil_seconds remaining_ms |}.

Definition record_admin_failure (account_key : text) (threshold lock_seconds now_ms : Z) : M LockoutState :=
  if negb ((2 <=? threshold) && (threshold <=? 100)) || negb ((1 <=? lock_seconds) && (lock_seconds <=? 86400))
  then raise ValueError
  else
    p ← guarded (
      k ← lift (_derived_key (str "admin-lockout") account_key);
      r ← eval (LOCKOUT_FAILURE k now_ms threshold (lock_seconds * 1000));
      match r with
      | Array [l; m] =>
          locked ← lift (_strict_integer l);
          remaining_ms ← lift (_strict_integer m);
          if (locked =? 0) || (locked =? 1) then mret (locked, remaining_ms)
          else raise AuthStateUnavailable
      | _ => raise AuthStateUnavailable
      end);
    mret {| locked := p.1 =? 1; retry_after_seconds := _ceil_seconds p.2 |}.

Definition clear_admin_failures (account_key : text) : M unit :=
  guarded (k ← lift (_derived_key (str "admin-lockout") account_key); delete k).

(** *** Pre-authentication challenges *)

(** [random] is what the random source returned. *)
Definition issue_preauth (admin : Z) (purpose context : text) (ttl_seconds now_ms : Z) (random : text)
  : M PreAuthChallenge :=
  if negb (bool_decide (purpose = str "login" \/ purpose = str "enroll" \/ purpose = str "step-up"))
     || negb ((1 <=? ttl_seconds) && (ttl_seconds <=? 3600))
  then raise ValueError
  else
    t ← issue_token random;
    digest ← digest_token t (str "admin-preauth");
    k ← lift (_digest_key (str "preauth") (OpaqueToken.value digest));
    context_digest ← lift (_derive (str "preauth-context") context);
    _ ← _set_hash_once k
      [(str "admin_id", str_uuid admin); (str "purpose", purpose);
       (str "context_digest", bytes_hex context_digest); (str "created_ms", show_Z now_ms)] ttl_seconds;
    mret {| token := t; expires_in_seconds := ttl_seconds |}.

Definition consume_preauth (t purpose context : text) : M (option ConsumedPreAuth) :=
  match digest_or_none t (str "admin-preauth") with
  | None => mret None
  | Some digest =>
      values ← guarded (
        k ← lift (_digest_key (str "preauth") (OpaqueToken.value digest));
        context_digest ← lift (_derive (str "preauth-context") context);
        r ← eval (CONSUME_PREAUTH k purpose (bytes_hex context_digest));
        lift (_decode_hash r));
      if decide (values = []) then mret None
      else
        match dict_get (str "admin_id") values ≫= uuid_of_text, dict_get (str "purpose") values with
        | Some a, Some stored_purpose =>
            if decide (stored_purpose = purpose)
            then mret (Some {| consumed_admin := a; consumed_purpose := purpose |})
            else raise AuthStateUnavailable
        | _, _ => raise AuthStateUnavailable
        end
  end.

Definition peek_preauth (t purpose context : text) : M (option Z) :=
  match digest_or_none t (str "admin-preauth") with
  | None => mret None
  | Some digest =>
      r ← guarded (
        k ← lift (_digest_key (str "preauth") (OpaqueToken.value digest));
        context_digest ← lift (_derive (str "preauth-context") context);
        eval (PEEK_PREAUTH k purpose (bytes_hex context_digest)));
      match r with
      | Nil | Bulk [] | Array [] | Int 0 => mret None
      | Bulk b =>
          match utf8_decode b ≫= uuid_of_text with
          | Some a => mret (Some a)
          | None => raise AuthStateUnavailable
          end
      | _ => raise AuthStateUnavailable
      end
  end.

(** *** WebAuthn challenges *)

Definition put_webauthn_challenge (subject : text) (admin : Z) (challenge : text) (ttl_seconds : Z) : M unit :=
  k ← lift (_derived_key (str "webauthn") subject);
  _ ← guarded (delete k);
  _set_hash_once k
    [(str "admin_id", str_uuid admin); (str "purpose", str "webauthn");
     (str "context_digest", str_uuid admin); (str "challenge", bytes_hex challenge)] ttl_seconds.

Definition take_webauthn_challenge (subject : text) (admin : Z) : M (option text) :=
  values ← guarded (
    k ← lift (_derived_key (str "webauthn") subject);
    r ← eval (CONSUME_PREAUTH k (str "webauthn") (str_uuid admin));
    lift (_decode_hash r));
  if decide (values = []) then mret None
  else match dict_get (str "challenge") values ≫= fromhex with
       | Some c => mret (Some c)
       | None => raise AuthStateUnavailable
       end.

(** *** Administrator sessions *)

Definition step_up_text (stepped_up : bool) (now_ms : Z) : text := if stepped_up then show_Z now_ms else [].

(** [new_id] is what [uuid4] drew; [random] and [random'] are the random bytes
    of the two tokens. *)
Definition issue_admin_session (admin : Z) (method : SessionMethod) (idle_ttl absolute_ttl : Z)
    (stepped_up : bool) (now : Z) (random random' : text) (new_id : Z) : M IssuedAdminSession :=
  idle_ms ← lift (_duration_ms idle_ttl);
  absolute_ms ← lift (_duration_ms absolute_ttl);
  if absolute_ms <? idle_ms then raise ValueError
  else
    session_token ← issue_token random;
    csrf_token ← issue_token random';
    session_digest ← digest_token session_token (str "admin-session");
    csrf_digest ← digest_token csrf_token (str "admin-csrf");
    k ← lift (_digest_key (str "session") (OpaqueToken.value session_digest));
    _ ← _set_hash_once k
      [(str "admin_id", str_uuid admin); (str "session_id", str_uuid new_id);
       (str "created_ms", show_Z now); (str "last_seen_ms", show_Z now);
       (str "absolute_expires_ms", show_Z (now + absolute_ms));
       (str "mfa_method", method_text method); (str "step_up_ms", step_up_text stepped_up now);
       (str "csrf_digest", bytes_hex (OpaqueToken.value csrf_digest))]
      (Z.max 1 (Z.min idle_ms absolute_ms / 1000));
    mret {| session_token := session_token; csrf_token := csrf_token;
            record := {| admin_id := admin; session_id := new_id; mfa_method := method; created_at := now;
                         last_seen_at := now; absolute_expires_at := now + absolute_ttl;
                         step_up_at := if stepped_up then Some now else None |} |}.

Definition get_admin_session (t : text) (idle_ttl now_ms : Z) : M (option AdminSessionRecord) :=
  key ← _session_key t;
  match key with
  | None => mret None
  | Some k =>
      values ← guarded (
        idle_ms ← lift (_duration_ms idle_ttl);
        r ← eval (GET_SESSION k now_ms idle_ms);
        lift (_decode_hash r));
      if decide (values = []) then mret None
      else r ← lift (_session_record values); mret (Some r)
  end.

Definition validate_and_rotate_csrf (t csrf : text) (idle_ttl now_ms : Z) (random : text) : M (option text) :=
  key ← _session_key t;
  match key with
  | None => mret None
  | Some session_key =>
      match digest_or_none csrf (str "admin-csrf") with
      | None => mret None
      | Some current =>
          replacement_token ← issue_token random;
          replacement ← digest_token replacement_token (str "admin-csrf");
          accepted ← guarded (
            idle_ms ← lift (_duration_ms idle_ttl);
            r ← eval (ROTATE_CSRF session_key now_ms idle_ms (bytes_hex (OpaqueToken.value current))
                        (bytes_hex (OpaqueToken.value replacement)));
            lift (_strict_integer r));
          if negb ((accepted =? 0) || (accepted =? 1)) then raise AuthStateUnavailable
          else mret (if accepted =? 1 then Some replacement_token else None)
      end
  end.

Definition rotate_admin_session (t : text) (idle_ttl : Z) (stepped_up : bool) (now_ms : Z)
    (random random' : text) (new_id : Z) : M (option IssuedAdminSession) :=
  key ← _session_key t;
  match key with
  | None => mret None
  | Some old_key =>
      new_session_token ← issue_token random;
      new_csrf_token ← issue_token random';
      new_session_digest ← digest_token new_session_token (str "admin-session");
      new_csrf_digest ← digest_token new_csrf_token (str "admin-csrf");
      values ← guarded (
        k2 ← lift (_digest_key (str "session") (OpaqueToken.value new_session_digest));
        idle_ms ← lift (_duration_ms idle_ttl);
        r ← eval (ROTATE_SESSION old_key k2 now_ms idle_ms (str_uuid new_id) (step_up_text stepped_up now_ms)
                    (bytes_hex (OpaqueToken.value new_csrf_digest)));
        lift (_decode_hash r));
      if decide (values = []) then mret None
      else
        r ← lift (_session_record values);
        mret (Some {| session_token := new_session_token; csrf_token := new_csrf_token; record := r |})
  end.

Definition revoke_admin_session (t : text) : M unit :=
  key ← _session_key t;
  match key with
  | None => mret tt
  | Some k => guarded (delete k)
  end.

(** [sorted(records, key=last_seen_at, reverse=True)], which is stable. *)
Fixpoint insert_newest (r : AdminSessionRecord) (l : list AdminSessionRecord) : list AdminSessionRecord :=
  match l with
  | [] => [r]
  | x :: l' => if last_seen_at x <=? last_seen_at r then r :: x :: l' else x :: insert_newest r l'
  end.
Definition newest_first (l : list AdminSessionRecord) : list AdminSessionRecord := foldr insert_newest [] l.

Fixpoint records_of (items : list reply) : result exn (list AdminSessionRecord) :=
  match items with
  | [] => Ok []
  | i :: r =>
      h ← _decode_hash i;
      x ← _session_record h;
      l ← records_of r;
      mret (x :: l)
  end.

Definition list_admin_sessions (admin now : Z) : M (list AdminSessionRecord) :=
  r ← guarded (eval (LIST_ADMIN_SESSIONS (prefix ++ str ":session:") (str_uuid admin)));
  match r with
  | Array items =>
      l ← lift (records_of items);
      mret (newest_first (filter (fun x => now < absolute_expires_at x) l))
  | _ => raise AuthStateUnavailable
  end.

Definition revoke_admin_session_by_id (admin session : Z) : M bool :=
  r ← guarded (eval (REVOKE_ADMIN_SESSION_BY_ID (prefix ++ str ":session:") (str_uuid admin) (str_uuid session)));
  match r with Int n => mret (n =? 1) | _ => mret false end.

End State.
End RedisState.
