(* ===== verification/AbuseControl.v ===== *)
(** * Abuse controls: what they guarantee

    The rate limit and the administrator lockout of
    [nebula_api/auth/redis_state.py], over every interleaving of attempts, waits
    and lost messages. *)

From S2P Require Import Prelude PyText PyBytes OpaqueToken RedisState.
Import Redis RedisState.

Module AbuseControl.

Definition counter (n d : Z) : entry := {| content := Counter n; deadline := Some d |}.

(** ** One key under the rate-limit script *)

Section OneKey.
Context (k : text) (limit window E : Z).
Hypothesis Hwindow : 0 < window.

(** [n] attempts counted, and the count stays at least until [E]. *)
Definition tracked (n : Z) (s : server) : Prop :=
  time s <= E /\
  ((n = 0 /\ find s k = None /\ E <= time s + window) \/
   (1 <= n /\ exists d, find s k = Some (counter n d) /\ E <= d)).

Lemma tracked_nonneg n s : tracked n s -> 0 <= n.
Proof. intros [_ [[-> _]|[? _]]]; lia. Qed.

(** A command on another key. *)
Definition untouched (s s' : server) : Prop := find s' k = find s k /\ time s' = time s.
Lemma untouched_tracked n s s' : untouched s s' -> tracked n s -> tracked n s'.
Proof. intros [Hf Ht] H. unfold tracked. by rewrite Hf, Ht. Qed.

Lemma incr_other k0 s r s' : k0 <> k -> incr k0 s = (r, s') -> untouched s s'.
Proof.
  intros Hk. unfold incr. destruct (find s k0) as [e|]; [destruct (content e)|]; intros [= <- <-];
    split; try done; by apply find_store_ne.
Qed.
Lemma pexpire_other k0 ms s r s' : k0 <> k -> pexpire k0 ms s = (r, s') -> untouched s s'.
Proof.
  intros Hk. unfold pexpire. destruct (find s k0) as [e|]; [destruct (ms <=? 0)|]; intros [= <- <-];
    split; try done; [by apply find_drop_ne|by apply find_store_ne].
Qed.

(** The body of the loop for the key itself: one more, with a deadline. *)
Definition count_one (k0 : text) : script Z :=
  count ← incr k0; ttl ← pttl k0;
  _ ← (if (count =? 1) || (ttl <? 0) then pexpire k0 window else mret tt); mret count.

Lemma count_one_self n s :
  tracked n s -> exists s', count_one k s = (Ok (n + 1), s') /\ tracked (n + 1) s' /\ time s' = time s.
Proof using Hwindow.
  intros [Ht [(-> & Hf & He)|(Hn & d & Hf & He)]]; unfold count_one, mbind, prog_bind, incr; rewrite Hf.
  - pose proof (find_store_eq k {| content := Counter 1; deadline := None |} s) as Hs.
    unfold expired in Hs. cbn [deadline] in Hs.
    unfold pttl, gets. rewrite Hs, Z.eqb_refl. cbn [orb].
    unfold pexpire. rewrite Hs. rewrite (proj2 (Z.leb_gt window 0)) by lia.
    eexists. split; [done|]. split; [|done]. split; [done|]. right. split; [lia|].
    exists (time s + window). split; [|done]. rewrite find_store_eq. unfold expired. cbn [deadline time store with_keys].
    by rewrite (proj2 (Z.ltb_ge _ _)) by lia.
  - cbn [content counter deadline]. pose proof (find_store_eq k (counter (n + 1) d) s) as Hs.
    unfold counter in Hs. cbn [expired deadline] in Hs. unfold expired in Hs. cbn [deadline] in Hs.
    rewrite (proj2 (Z.ltb_ge d (time s))) in Hs by lia.
    unfold pttl, gets. rewrite Hs. cbn [deadline time store with_keys].
    rewrite (proj2 (Z.eqb_neq (n + 1) 1)), (proj2 (Z.ltb_ge (d - time s) 0)) by lia. cbn [orb].
    eexists. split; [done|]. split; [|done]. split; [done|]. right. split; [lia|]. eauto.
Qed.

Lemma count_one_untouched k0 s r s' : k0 <> k -> count_one k0 s = (r, s') -> untouched s s'.
Proof.
  intros Hk. unfold count_one, mbind, prog_bind.
  destruct (incr k0 s) as [[c|e] s1] eqn:Hi; pose proof (incr_other _ _ _ _ Hk Hi) as Hu; [|by intros [= <- <-]].
  unfold pttl, gets. set (ttl := match find s1 k0 with Some _ => _ | None => _ end).
  destruct ((c =? 1) || (ttl <? 0)); [|by intros [= <- <-]].
  destruct (pexpire k0 window s1) as [[u|e] s2] eqn:Hp; pose proof (pexpire_other _ _ _ _ _ Hk Hp) as Hu2;
    intros [= <- <-]; destruct Hu, Hu2; split; congruence.
Qed.
Lemma count_one_other n k0 s r s' :
  k0 <> k -> tracked n s -> count_one k0 s = (r, s') -> tracked n s' /\ time s' = time s.
Proof. intros Hk Ht Hu%count_one_untouched; [|done]. split; [by eapply untouched_tracked|apply Hu]. Qed.

(** The loop is [count_one] for each key. *)
Lemma rate_loop_cons k0 ks allowed s :
  rate_loop (k0 :: ks) limit window allowed s =
  (count ← count_one k0; rate_loop ks limit window (allowed && (count <=? limit))) s.
Proof.
  unfold count_one, mbind, prog_bind. cbn [rate_loop]. unfold mbind, prog_bind.
  destruct (incr k0 s) as [[c|e] s1]; [|done]. destruct (pttl k0 s1) as [[t|e] s2]; [|done].
  destruct ((c =? 1) || (t <? 0)); [|done]. by destruct (pexpire k0 window s2) as [[u|e] s3].
Qed.

Lemma rate_loop_untouched ks allowed s r s' : k ∉ ks -> rate_loop ks limit window allowed s = (r, s') -> untouched s s'.
Proof.
  revert allowed s. induction ks as [|k0 ks IH]; intros allowed s Hk; [by intros [= <- <-]|].
  apply not_elem_of_cons in Hk as [Hne Hk]. rewrite rate_loop_cons. unfold mbind at 1, prog_bind at 1.
  destruct (count_one k0 s) as [[c|e] s1] eqn:H1; pose proof (count_one_untouched _ _ _ _ (not_eq_sym Hne) H1) as [Hf Ht].
  - intros [Hf2 Ht2]%IH; [|done]. split; congruence.
  - by intros [= <- <-].
Qed.

Lemma rate_loop_false ks s r s' : rate_loop ks limit window false s = (Ok r, s') -> r = false.
Proof.
  revert s. induction ks as [|k0 ks IH]; intros s; [by intros [= <- <-]|].
  rewrite rate_loop_cons. intros (c & s1 & _ & Hr)%bind_ok_inv. by apply IH in Hr.
Qed.

Lemma rate_loop_tracked ks allowed n s r s' :
  tracked n s -> rate_loop ks limit window allowed s = (r, s') ->
  exists m, n <= m /\ tracked m s' /\ time s' = time s /\ (k ∉ ks -> m = n) /\
    (r = Ok true -> k ∈ ks -> n < m <= limit).
Proof using Hwindow.
  revert allowed n s. induction ks as [|k0 ks IH]; intros allowed n s Ht.
  - intros [= <- <-]. exists n. do 4 (split; [lia || done|]). by intros _ ?%not_elem_of_nil.
  - rewrite rate_loop_cons. destruct (decide (k0 = k)) as [->|Hk].
    + destruct (count_one_self n s Ht) as (s1 & H1 & Ht1 & Htm).
      unfold mbind at 1, prog_bind at 1. rewrite H1. intros Hr.
      destruct (IH _ _ _ Ht1 Hr) as (m & Hm & Htr & Htime & Hnot & Hin).
      exists m. split; [lia|]. split; [done|]. split; [congruence|]. split; [intros Hn; exfalso; apply Hn; by left|].
      intros -> _. split; [lia|]. destruct (decide (k ∈ ks)) as [Hk|Hk]; [by apply Hin|].
      rewrite (Hnot Hk). destruct (Z.leb_spec (n + 1) limit); [lia|]. exfalso.
      rewrite andb_false_r in Hr. by apply rate_loop_false in Hr.
    + unfold mbind at 1, prog_bind at 1. destruct (count_one k0 s) as [[c|e] s1] eqn:H1;
        destruct (count_one_other n k0 s _ s1 Hk Ht H1) as [Ht1 Htm]; intros Hr.
      * destruct (IH _ _ _ Ht1 Hr) as (m & Hm & Htr & Htime & Hnot & Hin).
        exists m. split; [lia|]. split; [done|]. split; [congruence|].
        split; [intros Hn; apply Hnot; set_solver|]. intros Ho Hi. apply Hin; [done|]. set_solver.
      * injection Hr as <- <-. exists n. do 4 (split; [lia || done|]). done.
Qed.

Lemma tick_tracked n d s : 0 <= d -> time s + d <= E -> tracked n s -> tracked n (tick d s).
Proof.
  intros Hd He [_ [(-> & Hf & Hw)|(Hn & d0 & Hf & Hd0)]]; (split; [done|]).
  - left. split; [done|]. split; [by apply find_tick_None|]. cbn. lia.
  - right. split; [done|]. exists d0. split; [|done]. rewrite (find_tick _ _ _ _ Hd Hf).
    unfold expired. cbn [deadline counter]. by rewrite (proj2 (Z.ltb_ge _ _)) by lia.
Qed.
End OneKey.

(** ** The connection *)

(** A call either never reached the server, or ran the script there; it
    answers only what the script returned. *)
Lemma eval_cases {A} (sc : script A) c r c' :
  eval sc c = (r, c') ->
  (redis c' = redis c /\ r = Err AuthStateUnavailable) \/
  (exists r0, sc (redis c) = (r0, redis c') /\ forall a, r = Ok a -> r0 = Ok a).
Proof.
  unfold eval. destruct (next_fate c).
  - destruct (sc (redis c)) as [[a|e] s]; intros [= <- <-]; right; eexists; (split; [done|]); naive_solver.
  - intros [= <- <-]. by left.
  - destruct (sc (redis c)) as [[a|e] s]; intros [= <- <-]; right; eexists; (split; [done|]); naive_solver.
Qed.

Lemma guarded_ok {A} (m : M A) c a c' : guarded m c = (Ok a, c') -> m c = (Ok a, c').
Proof. unfold guarded, try_except. destruct (m c) as [[x|e] s]; [done|]. intros. simplify_eq. Qed.
Lemma guarded_state {A} (m : M A) c : (guarded m c).2 = (m c).2.
Proof. unfold guarded, try_except. by destruct (m c) as [[x|e] s]. Qed.

Lemma guarded_eval_cases {A} (sc : script A) c r c' :
  guarded (eval sc) c = (r, c') ->
  (redis c' = redis c /\ r = Err AuthStateUnavailable) \/
  (exists r0, sc (redis c) = (r0, redis c') /\ forall a, r = Ok a -> r0 = Ok a).
Proof.
  intros Hg. pose proof (guarded_state (eval sc) c) as Hs. rewrite Hg in Hs. cbn in Hs.
  destruct (eval sc c) as [r1 c1] eqn:He. cbn in Hs. subst c1.
  apply eval_cases in He as Hc. destruct Hc as [[Hr ->]|(r0 & Hsc & Hr)].
  - left. split; [done|]. unfold guarded, try_except in Hg. rewrite He in Hg. by injection Hg.
  - right. exists r0. split; [done|]. intros a ->. apply guarded_ok in Hg. rewrite He in Hg.
    injection Hg as ->. by apply Hr.
Qed.

Definition wait (d : Z) (c : conn) : conn := {| redis := tick d (redis c); fates := fates c |}.

Section Limits.
Context {H : HMAC} (key_ring : list (Z * text)) (current_key_version : Z) (prefix : text).
Notation rate_limit := (rate_limit key_ring current_key_version prefix).
Notation derived_keys := (derived_keys key_ring current_key_version prefix).
Notation _derived_key := (_derived_key key_ring current_key_version prefix).

(** The key a bucket is counted under. *)
Definition bucket_key (b : RateBucket) : result exn text :=
  _derived_key (str "rate-" ++ namespace b) (subject b).

Lemma derived_keys_elem bs ks b k : derived_keys bs = Ok ks -> b ∈ bs -> bucket_key b = Ok k -> k ∈ ks.
Proof.
  revert ks. induction bs as [|b0 bs IH]; intros ks; [by intros _ ?%not_elem_of_nil|].
  cbn [RedisState.derived_keys]. unfold mbind, result_bind. fold (bucket_key b0).
  destruct (bucket_key b0) as [k0|] eqn:Hk0; [|done].
  destruct (derived_keys bs) as [ks'|]; [|done]. intros [= <-] [->|Hin]%elem_of_cons Hk.
  - assert (k = k0) as -> by congruence. by left.
  - right. by apply IH.
Qed.

(** What is stored elsewhere is out of its reach. *)
Lemma derived_keys_rate bs ks : derived_keys bs = Ok ks -> Forall (fun k => exists t, k = prefix ++ str ":rate-" ++ t) ks.
Proof.
  revert ks. induction bs as [|b bs IH]; intros ks; [by intros [= <-]|]. cbn [RedisState.derived_keys].
  unfold mbind, result_bind, RedisState._derived_key, mbind, result_bind. destruct (_derive _ _ _ _) as [d|]; [|done].
  destruct (derived_keys bs) as [ks'|]; [|done]. intros [= <-]. constructor; [|by apply IH].
  unfold key_text. by exists (namespace b ++ str ":" ++ bytes_hex d).
Qed.
Lemma rate_limit_untouched k bs limit window_seconds c r c' :
  (forall t, k <> prefix ++ str ":rate-" ++ t) -> rate_limit bs limit window_seconds c = (r, c') -> untouched k (redis c) (redis c').
Proof.
  intros Hk. unfold RedisState.rate_limit. destruct (_ || _ || _); [by intros [= <- <-]|].
  unfold mbind, prog_bind, lift at 1. destruct (derived_keys bs) as [ks|] eqn:Hks; [|by intros [= <- <-]].
  destruct (guarded (eval (RATE_LIMIT ks limit (window_seconds * 1000))) c) as [r0 c0] eqn:Hg.
  assert (untouched k (redis c) (redis c0)) as Hu.
  { apply guarded_eval_cases in Hg as [[Hs ->]|(r2 & Hsc & Hr)]; [by rewrite Hs|].
    unfold RATE_LIMIT, mbind, prog_bind, mret, prog_ret in Hsc.
    destruct (rate_loop ks limit (window_seconds * 1000) true (redis c)) as [rl sl] eqn:Hl.
    assert (sl = redis c0) as -> by (destruct rl; cbn in Hsc; congruence).
    eapply rate_loop_untouched; [|exact Hl]. intros Hin.
    apply derived_keys_rate in Hks. rewrite Forall_forall in Hks. destruct (Hks k Hin) as [t Ht]. by apply (Hk t). }
  intros Hr. assert (c' = c0) as ->; [|done].
  destruct r0 as [[z|u| |l]|e]; try (by injection Hr as <- <-). destruct ((z =? 0) || (z =? 1)); by injection Hr as <- <-.
Qed.

(** ** Attempts *)

(** A history: each entry waits, then calls [rate_limit]; a call that raises
    lets nobody through. *)
Fixpoint attempts (l : list (Z * list RateBucket)) (limit window_seconds : Z) (c : conn)
  : list (list RateBucket * bool) :=
  match l with
  | [] => []
  | (d, bs) :: l' =>
      let '(r, c') := rate_limit bs limit window_seconds (wait d c) in
      (bs, match r with Ok b => b | Err _ => false end) :: attempts l' limit window_seconds c'
  end.

Definition passed (b : RateBucket) (l : list (list RateBucket * bool)) : list (list RateBucket * bool) :=
  filter (fun a => b ∈ a.1 /\ a.2 = true) l.

Lemma rate_limit_tracked b k bs limit window_seconds E n c r c' :
  bucket_key b = Ok k -> tracked k (window_seconds * 1000) E n (redis c) ->
  rate_limit bs limit window_seconds c = (r, c') ->
  exists m, n <= m /\ tracked k (window_seconds * 1000) E m (redis c') /\ time (redis c') = time (redis c) /\
    (r = Ok true -> b ∈ bs -> n < m <= limit).
Proof.
  intros Hk Ht. unfold RedisState.rate_limit. destruct (_ || _ || _) eqn:Hpol.
  { intros [= <- <-]. exists n. do 3 (split; [lia || done|]). done. }
  boolP. unfold mbind, prog_bind, lift at 1. destruct (derived_keys bs) as [ks|] eqn:Hks.
  2:{ intros [= <- <-]. exists n. do 3 (split; [lia || done|]). done. }
  destruct (guarded (eval (RATE_LIMIT ks limit (window_seconds * 1000))) c) as [r0 c0] eqn:Hg.
  assert (Hc0 : exists m, n <= m /\ tracked k (window_seconds * 1000) E m (redis c0) /\
    time (redis c0) = time (redis c) /\ (r0 = Ok (Int 1) -> b ∈ bs -> n < m <= limit)).
  { apply guarded_eval_cases in Hg as [[Hs ->]|(r2 & Hsc & Hr)].
    - exists n. rewrite Hs. by do 3 (split; [lia || done|]).
    - unfold RATE_LIMIT, mbind, prog_bind, mret, prog_ret in Hsc.
      destruct (rate_loop ks limit (window_seconds * 1000) true (redis c)) as [rl sl] eqn:Hl.
      destruct (rate_loop_tracked k limit (window_seconds * 1000) E ltac:(lia) ks true n (redis c) rl sl Ht Hl)
        as (m & Hm & Htm & Htime & _ & Hin).
      assert (sl = redis c0) as -> by (destruct rl; cbn in Hsc; congruence).
      exists m. do 3 (split; [done|]). intros -> Hb. specialize (Hr _ eq_refl). subst r2.
      apply Hin; [|by eapply derived_keys_elem]. destruct rl as [[]|]; cbn in Hsc; congruence. }
  destruct Hc0 as (m & Hm & Htm & Htime & Hin). intros Hr. exists m.
  assert (c' = c0 /\ (r = Ok true -> r0 = Ok (Int 1))) as [-> Hr0].
  { destruct r0 as [[z|u| |l]|e]; try (by injection Hr as <- <-). destruct ((z =? 0) || (z =? 1)); injection Hr as <- <-; [|done].
    split; [done|]. intros [= Hz]. boolP. by subst. }
  do 3 (split; [done|]). auto.
Qed.

Lemma attempts_bound b k limit window_seconds E l n c :
  bucket_key b = Ok k -> tracked k (window_seconds * 1000) E n (redis c) ->
  Forall (fun a => 0 <= a.1) l -> time (redis c) + foldr Z.add 0 l.*1 <= E ->
  Z.of_nat (length (passed b (attempts l limit window_seconds c))) <= Z.max 0 (limit - n).
Proof.
  intros Hk. revert n c. induction l as [|[d bs] l IH]; intros n c Ht Hf He; [cbn; lia|].
  apply Forall_cons in Hf as [Hd Hf]. rewrite fmap_cons in He. cbn [fst foldr] in Hd, He. cbn [attempts].
  assert (Hsum : 0 <= foldr Z.add 0 l.*1).
  { clear -Hf. induction Hf as [|x l Hx _ IH]; cbn in *; lia. }
  assert (Ht' : tracked k (window_seconds * 1000) E n (redis (wait d c))) by (apply tick_tracked; [done|lia|done]).
  destruct (rate_limit bs limit window_seconds (wait d c)) as [r c'] eqn:Hr.
  destruct (rate_limit_tracked b k bs limit window_seconds E n (wait d c) r c' Hk Ht' Hr)
    as (m & Hm & Htm & Htime & Hin).
  assert (He' : time (redis c') + foldr Z.add 0 l.*1 <= E) by (rewrite Htime; cbn; lia).
  specialize (IH m c' Htm Hf He'). unfold passed in *. rewrite filter_cons. case_decide as Hp; [|lia].
  cbn in Hp. destruct Hp as [Hb Hp]. destruct r as [[]|]; try done. specialize (Hin eq_refl Hb).
  rewrite length_cons. lia.
Qed.

(** C23: At most [limit] attempts of one subject get through per window: from
    the first attempt on an unused bucket until the window has passed, whatever
    other buckets the same calls count, however long they wait in between, and
    whether or not the connection loses requests or answers. *)
Theorem rate_limit_bound b k limit window_seconds l c :
  bucket_key b = Ok k -> find (redis c) k = None ->
  1 <= window_seconds -> 0 <= limit -> Forall (fun a => 0 <= a.1) l ->
  foldr Z.add 0 l.*1 <= window_seconds * 1000 ->
  Z.of_nat (length (passed b (attempts l limit window_seconds c))) <= limit.
Proof.
  intros Hk Hf Hw Hl Hd Hs.
  pose proof (attempts_bound b k limit window_seconds (time (redis c) + window_seconds * 1000) l 0 c Hk) as Hb.
  rewrite Z.sub_0_r, Z.max_r in Hb by lia. apply Hb; [|done|lia].
  split; [lia|]. left. split; [done|]. split; [done|lia].
Qed.
(** ** The lockout, as a machine *)

(** Failures so far, until when it is locked (on the API's clock), and when it
    is all forgotten (on the server's). *)
Record strikes := { fails : Z; until : Z; forgotten : Z }.

Definition remembered (o : option strikes) (t : Z) : option strikes :=
  match o with Some x => if forgotten x <? t then None else Some x | None => None end.

Section Lockout.
Context (account_key k : text) (threshold lock_seconds : Z).
Notation lock_ms := (lock_seconds * 1000).
Notation record_admin_failure := (record_admin_failure key_ring current_key_version prefix account_key threshold lock_seconds).
Notation lockout_status := (lockout_status key_ring current_key_version prefix account_key).
Notation clear_admin_failures := (clear_admin_failures key_ring current_key_version prefix account_key).

Definition unlocked : LockoutState := {| locked := false; retry_after_seconds := 0 |}.
Definition locked_for (ms : Z) : LockoutState := {| locked := true; retry_after_seconds := _ceil_seconds ms |}.

Definition spec_failure (now t : Z) (o : option strikes) : LockoutState * option strikes :=
  let n := match remembered o t with Some x => fails x | None => 0 end in
  let u := match remembered o t with Some x => until x | None => 0 end in
  if now <? u then (locked_for (u - now), o)
  else if threshold <=? n + 1 then
    (locked_for lock_ms, Some {| fails := threshold; until := now + lock_ms; forgotten := t + lock_ms |})
  else (unlocked, Some {| fails := n + 1; until := 0; forgotten := t + lock_ms |}).

Definition spec_status (now t : Z) (o : option strikes) : LockoutState * option strikes :=
  let u := match remembered o t with Some x => until x | None => 0 end in
  if now <? u then (locked_for (u - now), o) else (unlocked, if 0 <? u then None else o).

Inductive event := Wait (d : Z) | Failure (now : Z) | Status (now : Z) | Clear.

(** What each method answers, in the machine and in the code. *)
Fixpoint spec_answers (es : list event) (t : Z) (o : option strikes) : list LockoutState :=
  match es with
  | [] => []
  | Wait d :: es' => spec_answers es' (t + d) o
  | Failure now :: es' => let '(a, o') := spec_failure now t o in a :: spec_answers es' t o'
  | Status now :: es' => let '(a, o') := spec_status now t o in a :: spec_answers es' t o'
  | Clear :: es' => spec_answers es' t None
  end.

Fixpoint answers (es : list event) (c : conn) : list (result exn LockoutState) :=
  match es with
  | [] => []
  | Wait d :: es' => answers es' (wait d c)
  | Failure now :: es' => let '(r, c') := record_admin_failure now c in r :: answers es' c'
  | Status now :: es' => let '(r, c') := lockout_status now c in r :: answers es' c'
  | Clear :: es' => let '(_, c') := clear_admin_failures c in answers es' c'
  end.

(** *** The scripts follow the machine *)

Definition lock_hash (x : strikes) : hash :=
  [(failures_, show_Z (fails x)); (locked_until_ms, show_Z (until x))].
#[local] Arguments lock_hash : simpl never.
#[local] Arguments str : simpl never.
Definition sim (o : option strikes) (s : server) : Prop :=
  find s k = (fun x => entry_of (lock_hash x) (Some (forgotten x))) <$> remembered o (time s).

Lemma set_lock_hash n u x : 
  set_fields [(failures_, show_Z n); (locked_until_ms, show_Z u)] (lock_hash x) =
  [(failures_, show_Z n); (locked_until_ms, show_Z u)].
Proof. reflexivity. Qed.

Lemma sim_wait o d s : 0 <= d -> sim o s -> sim o (tick d s).
Proof.
  intros Hd. unfold sim. cbn [time tick]. unfold remembered. destruct o as [x|]; cbn.
  - destruct (forgotten x <? time s) eqn:Hx; cbn; intros Hf.
    + boolP. rewrite (proj2 (Z.ltb_lt _ _)) by lia. cbn. by apply find_tick_None.
    + rewrite (find_tick _ _ _ _ Hd Hf). unfold expired, entry_of. cbn [deadline].
      by destruct (forgotten x <? time s + d).
  - by apply find_tick_None.
Qed.

Definition fails_of (o : option strikes) (t : Z) : Z :=
  match remembered o t with Some x => fails x | None => 0 end.
Definition until_of (o : option strikes) (t : Z) : Z :=
  match remembered o t with Some x => until x | None => 0 end.

Lemma sim_reads o s :
  sim o s ->
  (v ← hget k locked_until_ms; tonumber v) s = (Ok (until_of o (time s)), s) /\
  (v ← hget k failures_; tonumber v) s = (Ok (fails_of o (time s)), s).
Proof.
  unfold sim, until_of, fails_of. destruct (remembered o (time s)) as [x|]; cbn; intros Hs.
  - rewrite !(bind_ok _ _ _ _ _ (hget_found s k _ _ Hs _)).
    change (dict_get locked_until_ms (lock_hash x)) with (Some (show_Z (until x))).
    change (dict_get failures_ (lock_hash x)) with (Some (show_Z (fails x))). by rewrite !tonumber_show.
  - by rewrite !(bind_ok _ _ _ _ _ (hget_absent s k _ Hs)).
Qed.

Lemma sim_writes o x s :
  sim o s -> 0 < lock_ms -> forgotten x = time s + lock_ms ->
  exists s', (_ ← hset k (lock_hash x); pexpire k lock_ms) s = (Ok tt, s') /\
    sim (Some x) s' /\ time s' = time s.
Proof.
  intros Hs Hl Hx.
  assert (exists s', (_ ← hset k (lock_hash x); pexpire k lock_ms) s = (Ok tt, s') /\
    sets k (Some (entry_of (lock_hash x) (Some (time s + lock_ms)))) s s') as (s' & Hr & Hset & _ & Ht).
  { unfold sim in Hs. destruct (remembered o (time s)) as [y|]; cbn in Hs.
    - destruct (update_sets s k _ _ (lock_hash x) lock_ms Hs Hl) as (s' & Hr & Hset). eauto.
    - destruct (create_sets s k (lock_hash x) lock_ms Hs Hl) as (s' & Hr & Hset). eauto. }
  exists s'. split; [done|]. split; [|done]. unfold sim, remembered. rewrite Hset, Ht.
  rewrite (proj2 (Z.ltb_ge _ _)) by lia. cbn. by rewrite Hx.
Qed.

Lemma failure_script now o s :
  0 < lock_ms -> sim o s ->
  exists s' l m, LOCKOUT_FAILURE k now threshold lock_ms s = (Ok (Array [Int l; Int m]), s') /\
    sim (spec_failure now (time s) o).2 s' /\ time s' = time s /\ (l = 0 \/ l = 1) /\
    (spec_failure now (time s) o).1 = {| locked := l =? 1; retry_after_seconds := _ceil_seconds m |}.
Proof.
  intros Hl Hs. destruct (sim_reads o s Hs) as [Hu Hn]. unfold LOCKOUT_FAILURE, spec_failure.
  fold (fails_of o (time s)) (until_of o (time s)). rewrite (bind2_ok _ _ _ _ _ _ Hu).
  destruct (now <? until_of o (time s)).
  { exists s, 1, (until_of o (time s) - now). by split_and!; try right. }
  rewrite (bind2_ok _ _ _ _ _ _ Hn). destruct (threshold <=? fails_of o (time s) + 1).
  - destruct (sim_writes o {| fails := threshold; until := now + lock_ms; forgotten := time s + lock_ms |} s Hs Hl eq_refl)
      as (s' & Hw & Hs' & Ht).
    exists s', 1, lock_ms. rewrite (bind2_ok _ _ _ _ _ _ Hw). by split_and!; try right.
  - destruct (sim_writes o {| fails := fails_of o (time s) + 1; until := 0; forgotten := time s + lock_ms |} s Hs Hl eq_refl)
      as (s' & Hw & Hs' & Ht).
    exists s', 0, 0. rewrite (bind2_ok _ _ _ _ _ _ Hw). by split_and!; try left.
Qed.

Lemma status_script now o s :
  sim o s ->
  exists s' m, LOCKOUT_STATUS k now s = (Ok (Int m), s') /\
    sim (spec_status now (time s) o).2 s' /\ time s' = time s /\
    (spec_status now (time s) o).1 = {| locked := 0 <? m; retry_after_seconds := _ceil_seconds m |}.
Proof.
  intros Hs. destruct (sim_reads o s Hs) as [Hu _]. unfold LOCKOUT_STATUS, spec_status.
  fold (until_of o (time s)). rewrite (bind2_ok _ _ _ _ _ _ Hu).
  destruct (Z.ltb_spec now (until_of o (time s))) as [Hlt|Hge].
  { exists s, (until_of o (time s) - now). split; [done|]. split; [done|]. split; [done|].
    unfold locked_for. cbn. by rewrite (proj2 (Z.ltb_lt _ _)) by lia. }
  destruct (0 <? until_of o (time s)).
  - unfold mbind, prog_bind, del. destruct (sets_drop k s) as (Hd & _ & Ht). exists (drop_key k s), 0.
    destruct (find s k); (split; [done|]; split; [done|]; done).
  - exists s, 0. done.
Qed.

(** *** The methods *)

Hypothesis Hkey : _derived_key (str "admin-lockout") account_key = Ok k.
Hypothesis Hpolicy : 2 <= threshold <= 100 /\ 1 <= lock_seconds <= 86400.

Lemma eval_delivered {A} (sc : script A) c a s' :
  fates c = [] -> sc (redis c) = (Ok a, s') -> eval sc c = (Ok a, {| redis := s'; fates := [] |}).
Proof. intros Hf Hs. unfold eval, next_fate, after_call. by rewrite Hf, Hs. Qed.

Lemma failure_refines now o c :
  fates c = [] -> sim o (redis c) ->
  exists c', record_admin_failure now c = (Ok (spec_failure now (time (redis c)) o).1, c') /\
    fates c' = [] /\ sim (spec_failure now (time (redis c)) o).2 (redis c') /\ time (redis c') = time (redis c).
Proof using Hkey Hpolicy.
  intros Hf Hs. destruct (failure_script now o (redis c) ltac:(lia) Hs) as (s' & l & m & Hr & Hs' & Ht & Hl & Ha).
  exists {| redis := s'; fates := [] |}. split; [|done]. unfold RedisState.record_admin_failure.
  rewrite !(proj2 (Z.leb_le _ _)) by lia. cbn [andb negb orb]. unfold guarded, try_except, mbind, prog_bind, lift.
  rewrite Hkey, (eval_delivered _ c _ _ Hf Hr). cbn [_strict_integer].
  rewrite Ha. destruct Hl as [-> | ->]; done.
Qed.

Lemma status_refines now o c :
  fates c = [] -> sim o (redis c) ->
  exists c', lockout_status now c = (Ok (spec_status now (time (redis c)) o).1, c') /\
    fates c' = [] /\ sim (spec_status now (time (redis c)) o).2 (redis c') /\ time (redis c') = time (redis c).
Proof using Hkey.
  intros Hf Hs. destruct (status_script now o (redis c) Hs) as (s' & m & Hr & Hs' & Ht & Ha).
  exists {| redis := s'; fates := [] |}. split; [|done]. unfold RedisState.lockout_status.
  unfold guarded, try_except, mbind, prog_bind, lift. rewrite Hkey, (eval_delivered _ c _ _ Hf Hr).
  cbn [_strict_integer]. by rewrite Ha.
Qed.

Lemma clear_refines o c :
  fates c = [] -> sim o (redis c) ->
  exists c', clear_admin_failures c = (Ok tt, c') /\
    fates c' = [] /\ sim None (redis c') /\ time (redis c') = time (redis c).
Proof using Hkey.
  intros Hf Hs. destruct (sets_drop k (redis c)) as (Hd & _ & Ht).
  exists {| redis := drop_key k (redis c); fates := [] |}. split; [|done].
  unfold RedisState.clear_admin_failures, delete, guarded, try_except, mbind, prog_bind, lift. rewrite Hkey.
  assert (exists n, del k (redis c) = (Ok n, drop_key k (redis c))) as [n Hn]
    by (unfold del; destruct (find (redis c) k); eauto).
  by rewrite (eval_delivered _ c _ _ Hf Hn).
Qed.

Lemma answers_refine es o c :
  Forall (fun e => match e with Wait d => 0 <= d | _ => True end) es ->
  fates c = [] -> sim o (redis c) ->
  answers es c = Ok <$> spec_answers es (time (redis c)) o.
Proof using Hkey Hpolicy.
  intros Hes. revert o c. induction Hes as [|e es He _ IH]; intros o c Hf Hs; [done|].
  destruct e as [d|now|now|]; cbn [answers spec_answers].
  - rewrite (IH o); [done..|]. by apply sim_wait.
  - destruct (failure_refines now o c Hf Hs) as (c' & -> & Hf' & Hs' & Ht).
    destruct (spec_failure now (time (redis c)) o) as [a o']. cbn in *. by rewrite (IH o'), Ht.
  - destruct (status_refines now o c Hf Hs) as (c' & -> & Hf' & Hs' & Ht).
    destruct (spec_status now (time (redis c)) o) as [a o']. cbn in *. by rewrite (IH o'), Ht.
  - destruct (clear_refines o c Hf Hs) as (c' & -> & Hf' & Hs' & Ht). by rewrite (IH None), Ht.
Qed.

(** C24: The lockout scripts and the methods around them follow a machine of
    three numbers: for every history of failures, checks, resets and waits, the
    code answers exactly what the machine does. *)
Theorem lockout_refines es c :
  Forall (fun e => match e with Wait d => 0 <= d | _ => True end) es ->
  fates c = [] -> find (redis c) k = None ->
  answers es c = Ok <$> spec_answers es (time (redis c)) None.
Proof using Hkey Hpolicy. intros Hes Hf Hn. by apply answers_refine. Qed.

(** *** What the machine does *)

(** [n] failures count for as long as a lock lasts after the last of them. *)
Definition counted (n t : Z) (o : option strikes) : Prop :=
  forall t', t <= t' <= t + lock_ms -> fails_of o t' = n /\ until_of o t' = 0.

Lemma counted_start t : counted 0 t None.
Proof. done. Qed.

Lemma failure_counts n t d now o :
  counted n t o -> 0 <= d <= lock_ms -> 0 <= now -> n + 1 < threshold ->
  exists o', spec_failure now (t + d) o = (unlocked, o') /\ counted (n + 1) (t + d) o'.
Proof.
  intros Hc Hd Hn Ht. destruct (Hc (t + d) ltac:(lia)) as [Hfails Huntil]. unfold spec_failure.
  fold (fails_of o (t + d)) (until_of o (t + d)). rewrite Hfails, Huntil.
  rewrite (proj2 (Z.ltb_ge now 0)), (proj2 (Z.leb_gt threshold (n + 1))) by lia. eexists. split; [done|].
  intros t' Ht'. unfold fails_of, until_of, remembered. cbn [forgotten].
  by rewrite (proj2 (Z.ltb_ge (t + d + lock_ms) t')) by lia.
Qed.

Lemma last_failure_locks t d now o :
  counted (threshold - 1) t o -> 0 <= d <= lock_ms -> 0 <= now ->
  exists o', spec_failure now (t + d) o = (locked_for lock_ms, o') /\
    forall t', t + d <= t' <= t + d + lock_ms -> until_of o' t' = now + lock_ms.
Proof.
  intros Hc Hd Hn. destruct (Hc (t + d) ltac:(lia)) as [Hfails Huntil]. unfold spec_failure.
  fold (fails_of o (t + d)) (until_of o (t + d)). rewrite Hfails, Huntil.
  rewrite (proj2 (Z.ltb_ge now 0)), (proj2 (Z.leb_le threshold _)) by lia. eexists. split; [done|].
  intros t' Ht'. unfold until_of, remembered. cbn [forgotten].
  by rewrite (proj2 (Z.ltb_ge (t + d + lock_ms) t')) by lia.
Qed.

(** A run of failures, each [gap] after the one before it. *)
Definition failures_run (l : list (Z * Z)) : list event := l ≫= fun p => [Wait p.1; Failure p.2].
Definition soon (p : Z * Z) : Prop := 0 <= p.1 <= lock_ms /\ 0 <= p.2.

Lemma failures_run_spec l n t o es :
  counted n t o -> Forall soon l -> n + Z.of_nat (length l) < threshold ->
  exists t' o', counted (n + Z.of_nat (length l)) t' o' /\
    spec_answers (failures_run l ++ es) t o = replicate (length l) unlocked ++ spec_answers es t' o'.
Proof.
  intros Hc Hl. revert n t o Hc. induction Hl as [|[d now] l [Hd Hn] _ IH]; intros n t o Hc Hlt.
  - exists t, o. cbn. by rewrite Z.add_0_r.
  - cbn [length] in Hlt. destruct (failure_counts n t d now o Hc Hd Hn ltac:(lia)) as (o1 & H1 & Hc1).
    destruct (IH (n + 1) (t + d) o1 Hc1 ltac:(lia)) as (t' & o' & Hc' & Ha).
    exists t', o'. split; [by replace (n + Z.of_nat (length ((d, now) :: l))) with (n + 1 + Z.of_nat (length l)) by (cbn [length]; lia)|].
    change (failures_run ((d, now) :: l) ++ es) with (Wait d :: Failure now :: (failures_run l ++ es)).
    cbn [spec_answers length replicate app]. rewrite H1. by rewrite Ha.
Qed.

(** An account is locked by its [threshold]-th failure in a row and not
    before; every check until the lock runs out says how long is left. *)
Theorem lock_after_threshold l d now later now' c :
  fates c = [] -> find (redis c) k = None ->
  Z.of_nat (length l) = threshold - 1 -> Forall soon l -> soon (d, now) ->
  0 <= later <= lock_ms -> now' < now + lock_ms ->
  answers (failures_run l ++ [Wait d; Failure now; Wait later; Status now']) c =
    Ok <$> (replicate (length l) unlocked ++ [locked_for lock_ms; locked_for (now + lock_ms - now')]).
Proof using Hkey Hpolicy.
  intros Hf Hn Hlen Hl Hlast Hlater Hnow. rewrite (answers_refine _ None); [f_equal|..|done|done].
  - destruct (failures_run_spec l 0 (time (redis c)) None [Wait d; Failure now; Wait later; Status now']
      (counted_start _) Hl ltac:(lia)) as (t & o & Hc & ->).
    f_equal. rewrite Z.add_0_l, Hlen in Hc.
    destruct (last_failure_locks t d now o Hc (proj1 Hlast) (proj2 Hlast)) as (o' & Ho & Hu).
    cbn [spec_answers]. rewrite Ho. unfold spec_status.
    fold (until_of o' (t + d + later)). rewrite (Hu (t + d + later)) by lia.
    by rewrite (proj2 (Z.ltb_lt _ _)) by lia.
  - apply Forall_app. split.
    + apply Forall_bind. eapply Forall_impl; [exact Hl|]. intros p [Hp _]. repeat constructor. apply Hp.
    + destruct Hlast as [Hlast _]. cbn in Hlast. repeat constructor; lia.
Qed.

End Lockout.
End Limits.

(** ** The properties on an example *)

Section Example.
#[local] Existing Instance OpaqueToken.example_hmac.
Notation ring := OpaqueToken.example_ring.

Definition empty_redis : conn := {| redis := {| keys := []; time := 1000000 |}; fates := [] |}.
Definition alice : RateBucket := {| namespace := str "user-account"; subject := str "alice" |}.
Definition office : RateBucket := {| namespace := str "user-login-network"; subject := str "192.0.2.0/24" |}.
Definition example_prefix : text := str "nebula:auth:v1".

(** Four attempts, of which the second never reaches the server: two pass. *)
Definition lossy : conn := {| redis := redis empty_redis; fates := [Delivered; RequestLost] |}.
Definition example_attempts : list (Z * list RateBucket) :=
  [(0, [alice; office]); (1000, [alice]); (2000, [alice; office]); (500, [alice])].

Lemma rate_limit_bound_witness :
  (attempts ring 1 example_prefix example_attempts 2 900 lossy).*2 = [true; false; true; false] /\
  Z.of_nat (length (passed alice (attempts ring 1 example_prefix example_attempts 2 900 lossy))) <= 2.
Proof.
  split; [vm_compute; reflexivity|].
  assert (exists k, bucket_key ring 1 example_prefix alice = Ok k) as [k Hk] by (eexists; vm_compute; reflexivity).
  apply (rate_limit_bound ring 1 example_prefix alice k); [exact Hk|reflexivity|lia|lia| |].
  - repeat constructor; cbn; lia.
  - vm_compute. discriminate.
Defined.

Definition example_history : list event := [Failure 5000; Wait 100; Failure 5100; Status 5200; Clear; Status 5300].
Lemma lockout_refines_witness :
  exists k, answers ring 1 example_prefix (str "admin") 2 60 example_history empty_redis =
    Ok <$> spec_answers 2 60 example_history 1000000 None /\
  spec_answers 2 60 example_history 1000000 None =
    [unlocked; locked_for 60000; locked_for 59900; unlocked] /\
  _derived_key ring 1 example_prefix (str "admin-lockout") (str "admin") = Ok k.
Proof.
  assert (exists k, _derived_key ring 1 example_prefix (str "admin-lockout") (str "admin") = Ok k) as [k Hk]
    by (eexists; vm_compute; reflexivity).
  exists k. split; [|split; [vm_compute; reflexivity|exact Hk]].
  apply (lockout_refines ring 1 example_prefix (str "admin") k 2 60 Hk ltac:(lia) example_history empty_redis);
    [|reflexivity|reflexivity]. repeat constructor; lia.
Defined.

Lemma lock_after_threshold_witness :
  answers ring 1 example_prefix (str "admin") 2 60
    (failures_run [(0, 5000)] ++ [Wait 100; Failure 5100; Wait 100; Status 5200]) empty_redis =
    Ok <$> [unlocked; locked_for 60000; locked_for 59900].
Proof.
  assert (exists k, _derived_key ring 1 example_prefix (str "admin-lockout") (str "admin") = Ok k) as [k Hk]
    by (eexists; vm_compute; reflexivity).
  apply (lock_after_threshold ring 1 example_prefix (str "admin") k 2 60 Hk ltac:(lia)
    [(0, 5000)] 100 5100 100 5200 empty_redis); [reflexivity|reflexivity|reflexivity| | |lia|lia].
  - repeat constructor; cbn; lia.
  - repeat constructor; cbn; lia.
Defined.
End Example.

End AbuseControl.
