(* ===== verification/AdminSessions.v ===== *)
(** * Administrator sessions and one-time challenges: what they guarantee

    The pre-authentication challenges and the administrator sessions of
    [nebula_api/auth/redis_state.py]. *)

From Stdlib Require Import Sorted.
From S2P Require Import Prelude PyText PyBytes OpaqueToken RedisState AbuseControl.
Import Redis RedisState.

Module AdminSessions.
Import AbuseControl.

#[local] Arguments str : simpl never.

(** ** What the hashes hold reads back *)

Definition is_ascii (t : text) : Prop := Forall (fun c => code c < 128) t.

Lemma utf8_decode_ascii t : is_ascii t -> utf8_decode t = Some t.
Proof.
  induction 1 as [|c t Hc _ IH]; [done|]. cbn [utf8_decode]. cbn beta in Hc.
  rewrite (proj2 (Z.ltb_lt _ _)) by lia. by rewrite IH.
Qed.

Lemma digit_char_ascii d : 0 <= d < 16 -> code (digit_char d) < 128.
Proof. intros Hd. rewrite digit_char_code by done. case_match; boolP; lia. Qed.

Lemma show_Z_ascii n : is_ascii (show_Z n).
Proof.
  assert (Hd : forall m, 0 <= m -> is_ascii (show_nat m)).
  { intros m Hm. apply Forall_fmap. eapply Forall_impl; [apply (digits_bound 10 m); lia|].
    intros d Hd. cbn in *. apply digit_char_ascii. lia. }
  unfold show_Z. case_match; boolP; [constructor; [by vm_compute|]|]; apply Hd; lia.
Qed.

Lemma str_uuid_ascii u : is_uuid u -> is_ascii (str_uuid u).
Proof. intros Hu. apply str_uuid_Forall; [done| |by vm_compute]. intros d Hd. by apply digit_char_ascii. Qed.

Lemma bytes_hex_ascii b : is_ascii (bytes_hex b).
Proof.
  apply Forall_bind, Forall_forall. intros c _. pose proof (code_range c). unfold hex_char.
  repeat constructor; apply digit_char_ascii; Z.to_euclidean_division_equations; lia.
Qed.

Lemma fromhex_hex b : fromhex (bytes_hex b) = Some b.
Proof.
  induction b as [|c b IH]; [done|]. pose proof (code_range c).
  assert (0 <= code c / 16 < 16 /\ 0 <= code c mod 16 < 16) as [H1 H2]
    by (Z.to_euclidean_division_equations; lia).
  change (bytes_hex (c :: b)) with (digit_char (code c / 16) :: digit_char (code c mod 16) :: bytes_hex b).
  cbn [fromhex]. assert (ascii_space (digit_char (code c / 16)) = false) as ->.
  { unfold ascii_space. rewrite digit_char_code by done. case_match; boolP.
    - rewrite (proj2 (Z.leb_gt _ 13)), (proj2 (Z.eqb_neq _ 32)) by lia. by rewrite andb_false_r.
    - rewrite (proj2 (Z.leb_gt _ 13)), (proj2 (Z.eqb_neq _ 32)) by lia. by rewrite andb_false_r. }
  rewrite !hex_digit_char by done. rewrite IH. cbn. do 2 f_equal. apply chr_code_eq.
  Z.to_euclidean_division_equations; lia.
Qed.

Lemma bytes_hex_inj a b : bytes_hex a = bytes_hex b -> a = b.
Proof. intros Heq. apply (f_equal fromhex) in Heq. rewrite !fromhex_hex in Heq. congruence. Qed.

Definition ascii_hash (h : hash) : Prop := Forall (fun kv => is_ascii kv.1 /\ is_ascii kv.2) h.

Lemma decode_pairs_flat h acc :
  ascii_hash h -> NoDup (acc.*1 ++ h.*1) ->
  decode_pairs (h ≫= fun kv => [Bulk kv.1; Bulk kv.2]) acc = Ok (acc ++ h).
Proof.
  intros Ha. revert acc. induction Ha as [|[k v] h [Hk Hv] _ IH]; intros acc Hnd.
  - cbn. by rewrite app_nil_r.
  - change (((k, v) :: h) ≫= (fun kv => [Bulk kv.1; Bulk kv.2]))
      with (Bulk k :: Bulk v :: (h ≫= fun kv => [Bulk kv.1; Bulk kv.2])).
    cbn [decode_pairs]. cbn [fst snd] in *. unfold _decode_text.
    rewrite !utf8_decode_ascii by done. cbn [of_option mbind result_bind].
    rewrite fmap_cons in Hnd. cbn [fst] in Hnd.
    assert (k ∉ acc.*1) by (apply NoDup_app in Hnd as (_ & Hd & _); intros Hin; apply (Hd k Hin); by left).
    rewrite dict_set_fresh by done.
    rewrite IH; [by rewrite <- app_assoc|]. by rewrite fmap_app, <- app_assoc.
Qed.

Lemma decode_flat h : ascii_hash h -> NoDup h.*1 -> _decode_hash (flat h) = Ok h.
Proof.
  intros Ha Hnd. unfold flat, _decode_hash.
  replace (Nat.odd (length (h ≫= fun kv => [Bulk kv.1; Bulk kv.2]))) with false.
  - by rewrite (decode_pairs_flat h []).
  - clear Ha Hnd. induction h as [|kv h IH]; [done|]. cbn. by rewrite Nat.odd_succ_succ, <- IH.
Qed.

(** *** Sessions *)

Definition step_up_field (o : option Z) : text := match o with Some ms => show_Z ms | None => [] end.
Definition session_fields (r : AdminSessionRecord) (csrf : text) : hash :=
  [(str "admin_id", str_uuid (admin_id r)); (str "session_id", str_uuid (session_id r));
   (str "created_ms", show_Z (created_at r)); (str "last_seen_ms", show_Z (last_seen_at r));
   (str "absolute_expires_ms", show_Z (absolute_expires_at r));
   (str "mfa_method", method_text (mfa_method r)); (str "step_up_ms", step_up_field (step_up_at r));
   (str "csrf_digest", csrf)].
#[local] Arguments session_fields : simpl never.

Definition is_instant (ms : Z) : Prop := 0 <= ms < MAX_MS.
Definition record_wf (r : AdminSessionRecord) : Prop :=
  is_uuid (admin_id r) /\ is_uuid (session_id r) /\ is_instant (created_at r) /\
  is_instant (last_seen_at r) /\ is_instant (absolute_expires_at r) /\
  forall ms, step_up_at r = Some ms -> is_instant ms.

Lemma datetime_from_show ms : is_instant ms -> _datetime_from_ms (show_Z ms) = Some ms.
Proof.
  intros [H1 H2]. unfold _datetime_from_ms. rewrite py_int_show.
  by rewrite (proj2 (Z.ltb_ge _ _)), (proj2 (Z.leb_gt _ _)) by lia.
Qed.

Lemma show_Z_differs n : show_Z n <> [].
Proof. intros He. pose proof (py_int_show n) as Hp. rewrite He in Hp. by vm_compute in Hp. Qed.

Lemma method_of_text m : method_of (method_text m) = Some m.
Proof. by destruct m; vm_compute. Qed.

Lemma session_record_fields r csrf : record_wf r -> _session_record (session_fields r csrf) = Ok r.
Proof.
  intros (Ha & Hs & Hc & Hl & Hx & Hu). unfold _session_record.
  change (dict_get (str "mfa_method") (session_fields r csrf)) with (Some (method_text (mfa_method r))).
  change (dict_get (str "step_up_ms") (session_fields r csrf)) with (Some (step_up_field (step_up_at r))).
  change (dict_get (str "admin_id") (session_fields r csrf)) with (Some (str_uuid (admin_id r))).
  change (dict_get (str "session_id") (session_fields r csrf)) with (Some (str_uuid (session_id r))).
  change (dict_get (str "created_ms") (session_fields r csrf)) with (Some (show_Z (created_at r))).
  change (dict_get (str "last_seen_ms") (session_fields r csrf)) with (Some (show_Z (last_seen_at r))).
  change (dict_get (str "absolute_expires_ms") (session_fields r csrf)) with (Some (show_Z (absolute_expires_at r))).
  cbn [mbind option_bind]. rewrite method_of_text. cbn [mbind option_bind].
  rewrite !uuid_of_str, !datetime_from_show by done. cbn [mbind option_bind].
  destruct (step_up_at r) as [ms|] eqn:Hms; cbn [step_up_field].
  - rewrite decide_False by apply show_Z_differs. rewrite datetime_from_show by auto. cbn. rewrite <- Hms. by destruct r.
  - rewrite decide_True by done. cbn. rewrite <- Hms. by destruct r.
Qed.

Lemma session_fields_ascii r csrf :
  record_wf r -> is_ascii csrf -> ascii_hash (session_fields r csrf) /\ NoDup (session_fields r csrf).*1.
Proof.
  intros (Ha & Hs & Hc & Hl & Hx & Hu) Hcsrf. split.
  - assert (Hk : Forall (fun kv => is_ascii kv.1) (session_fields r csrf)).
    { unfold session_fields. repeat constructor. }
    unfold session_fields in *. repeat (apply Forall_cons in Hk as [? Hk]; constructor; [split; [done|]|]); [..|done]; cbn [snd].
    1,2: by apply str_uuid_ascii.
    1-3: by apply show_Z_ascii.
    + destruct (mfa_method r); repeat constructor.
    + destruct (step_up_at r); [by apply show_Z_ascii|constructor].
    + done.
  - apply (bool_decide_unpack _). by vm_compute.
Qed.

(** ** The session scripts *)

Definition seen (now : Z) (r : AdminSessionRecord) : AdminSessionRecord :=
  {| admin_id := admin_id r; session_id := session_id r; mfa_method := mfa_method r; created_at := created_at r;
     last_seen_at := now; absolute_expires_at := absolute_expires_at r; step_up_at := step_up_at r |}.
Definition rotated (new_id now : Z) (stepped_up : bool) (r : AdminSessionRecord) : AdminSessionRecord :=
  {| admin_id := admin_id r; session_id := new_id; mfa_method := mfa_method r; created_at := now;
     last_seen_at := now; absolute_expires_at := absolute_expires_at r;
     step_up_at := if stepped_up then Some now else None |}.

(** How long a session lives on without being used. *)
Definition idle_for (r : AdminSessionRecord) (idle now : Z) : Z := Z.min idle (absolute_expires_at r - now).
Definition session_entry (r : AdminSessionRecord) (csrf : text) (d : Z) : entry :=
  entry_of (session_fields r csrf) (Some d).

Section Scripts.
Context (s : server) (k : text) (r : AdminSessionRecord) (csrf : text) (d now idle : Z).
Hypothesis Hfind : find s k = Some (session_entry r csrf d).
Hypothesis Hidle : 0 < idle.

Lemma read_absolute :
  (v ← hget k absolute_expires_ms; tonumber v) s = (Ok (absolute_expires_at r), s).
Proof using Hfind.
  rewrite (bind_ok _ _ _ _ _ (hget_found s k _ _ Hfind _)).
  change (dict_get absolute_expires_ms (session_fields r csrf)) with (Some (show_Z (absolute_expires_at r))).
  apply tonumber_show.
Qed.

Lemma get_script :
  now < absolute_expires_at r ->
  exists s', GET_SESSION k now idle s = (Ok (flat (session_fields (seen now r) csrf)), s') /\
    sets k (Some (session_entry (seen now r) csrf (time s + idle_for r idle now))) s s'.
Proof using Hfind Hidle.
  intros Hn. unfold GET_SESSION. rewrite (bind_ok _ _ _ _ _ (exists_found s k _ _ Hfind)). cbn [negb].
  rewrite (bind2_ok _ _ _ _ _ _ read_absolute), (proj2 (Z.leb_gt _ _)) by lia.
  destruct (update_sets s k _ _ [(str "last_seen_ms", show_Z now)] (idle_for r idle now) Hfind
    ltac:(unfold idle_for; lia)) as (s' & Hr & Hs).
  rewrite (bind2_ok _ _ _ _ _ _ Hr). exists s'. split; [|exact Hs].
  by rewrite (bind_ok _ _ _ _ _ (hgetall_found s' k _ _ (proj1 Hs))).
Qed.

Lemma get_script_expired :
  absolute_expires_at r <= now -> GET_SESSION k now idle s = (Ok empty_table, drop_key k s).
Proof using Hfind.
  intros Hn. unfold GET_SESSION. rewrite (bind_ok _ _ _ _ _ (exists_found s k _ _ Hfind)). cbn [negb].
  rewrite (bind2_ok _ _ _ _ _ _ read_absolute), (proj2 (Z.leb_le _ _)) by lia.
  by rewrite (bind_ok _ _ _ _ _ (del_found s k _ _ Hfind)).
Qed.

Lemma csrf_script replacement :
  now < absolute_expires_at r ->
  exists s', ROTATE_CSRF k now idle csrf replacement s = (Ok (Int 1), s') /\
    sets k (Some (session_entry (seen now r) replacement (time s + idle_for r idle now))) s s'.
Proof using Hfind Hidle.
  intros Hn. unfold ROTATE_CSRF. rewrite (bind_ok _ _ _ _ _ (exists_found s k _ _ Hfind)). cbn [negb].
  rewrite (bind2_ok _ _ _ _ _ _ read_absolute), (proj2 (Z.leb_gt _ _)) by lia.
  rewrite (bind_ok _ _ _ _ _ (hget_found s k _ _ Hfind _)). rewrite decide_True by done.
  destruct (update_sets s k _ _ [(str "csrf_digest", replacement); (str "last_seen_ms", show_Z now)]
    (idle_for r idle now) Hfind ltac:(unfold idle_for; lia)) as (s' & Hr & Hs).
  rewrite (bind2_ok _ _ _ _ _ _ Hr). exists s'. split; [done|exact Hs].
Qed.

Lemma csrf_script_wrong current replacement :
  now < absolute_expires_at r -> current <> csrf ->
  ROTATE_CSRF k now idle current replacement s = (Ok (Int 0), s).
Proof using Hfind.
  intros Hn Hc. unfold ROTATE_CSRF. rewrite (bind_ok _ _ _ _ _ (exists_found s k _ _ Hfind)). cbn [negb].
  rewrite (bind2_ok _ _ _ _ _ _ read_absolute), (proj2 (Z.leb_gt _ _)) by lia.
  rewrite (bind_ok _ _ _ _ _ (hget_found s k _ _ Hfind _)). rewrite decide_False; [done|].
  intros He. apply Hc. change (Some csrf = Some current) in He. congruence.
Qed.

Lemma csrf_script_expired current replacement :
  absolute_expires_at r <= now -> ROTATE_CSRF k now idle current replacement s = (Ok (Int 0), drop_key k s).
Proof using Hfind.
  intros Hn. unfold ROTATE_CSRF. rewrite (bind_ok _ _ _ _ _ (exists_found s k _ _ Hfind)). cbn [negb].
  rewrite (bind2_ok _ _ _ _ _ _ read_absolute), (proj2 (Z.leb_le _ _)) by lia.
  by rewrite (bind_ok _ _ _ _ _ (del_found s k _ _ Hfind)).
Qed.

Lemma rotate_script k2 new_id stepped_up csrf' :
  now < absolute_expires_at r -> find s k2 = None ->
  exists s', ROTATE_SESSION k k2 now idle (str_uuid new_id) (step_up_text stepped_up now) csrf' s =
      (Ok (flat (session_fields (rotated new_id now stepped_up r) csrf')), s') /\
    find s' k2 = Some (session_entry (rotated new_id now stepped_up r) csrf' (time s + idle_for r idle now)) /\
    find s' k = None /\ time s' = time s.
Proof using Hfind Hidle.
  intros Hn Hk2. assert (Hne : k <> k2) by (intros ->; congruence). unfold ROTATE_SESSION.
  rewrite (bind_ok _ _ _ _ _ (exists_found s k _ _ Hfind)). cbn [negb].
  rewrite (bind_ok _ _ _ _ _ (exists_absent s k2 Hk2)).
  rewrite (bind2_ok _ _ _ _ _ _ read_absolute), (proj2 (Z.leb_gt _ _)) by lia.
  rewrite !(bind_ok _ _ _ _ _ (hget_found s k _ _ Hfind _)), (bind_ok _ _ _ _ _ (del_found s k _ _ Hfind)).
  change (required (dict_get (str "admin_id") (session_fields r csrf))) with (mret (M:=script) (str_uuid (admin_id r))).
  change (required (dict_get (str "mfa_method") (session_fields r csrf))) with (mret (M:=script) (method_text (mfa_method r))).
  rewrite !(bind_ok (mret _) _ _ _ _ eq_refl).
  destruct (sets_drop k s) as (Hd & Ho & Ht).
  destruct (create_sets (drop_key k s) k2 (session_fields (rotated new_id now stepped_up r) csrf')
    (idle_for r idle now)) as (s' & Hr & Hs); [by rewrite Ho|unfold idle_for; lia|].
  assert (step_up_text stepped_up now = step_up_field (step_up_at (rotated new_id now stepped_up r))) as ->
    by (by destruct stepped_up).
  rewrite (bind2_ok _ _ _ _ _ _ Hr).
  exists s'. split_and!.
  - by rewrite (bind_ok _ _ _ _ _ (hgetall_found s' k2 _ _ (proj1 Hs))).
  - apply Hs.
  - destruct Hs as (_ & Hs & _). by rewrite Hs.
  - destruct Hs as (_ & _ & Hs). by rewrite Hs.
Qed.

Lemma rotate_script_refused k2 i u csrf' :
  now < absolute_expires_at r -> is_Some (find s k2) ->
  ROTATE_SESSION k k2 now idle i u csrf' s = (Ok empty_table, s).
Proof using Hfind.
  intros _ Hk2. unfold ROTATE_SESSION. rewrite (bind_ok _ _ _ _ _ (exists_found s k _ _ Hfind)). cbn [negb].
  assert (exists_ k2 s = (Ok true, s)) as He.
  { unfold exists_, gets. by rewrite bool_decide_eq_true_2. }
  by rewrite (bind_ok _ _ _ _ _ He).
Qed.

Lemma rotate_script_expired k2 i u csrf' :
  absolute_expires_at r <= now -> find s k2 = None ->
  ROTATE_SESSION k k2 now idle i u csrf' s = (Ok empty_table, drop_key k s).
Proof using Hfind.
  intros Hn Hk2. unfold ROTATE_SESSION. rewrite (bind_ok _ _ _ _ _ (exists_found s k _ _ Hfind)). cbn [negb].
  rewrite (bind_ok _ _ _ _ _ (exists_absent s k2 Hk2)).
  rewrite (bind2_ok _ _ _ _ _ _ read_absolute), (proj2 (Z.leb_le _ _)) by lia.
  by rewrite (bind_ok _ _ _ _ _ (del_found s k _ _ Hfind)).
Qed.
End Scripts.

(** Nothing there: nothing happens. *)
Lemma absent_scripts s k :
  find s k = None ->
  (forall now idle, GET_SESSION k now idle s = (Ok empty_table, s)) /\
  (forall now idle a b, ROTATE_CSRF k now idle a b s = (Ok (Int 0), s)) /\
  (forall k2 now idle i u x, ROTATE_SESSION k k2 now idle i u x s = (Ok empty_table, s)) /\
  (forall p x, CONSUME_PREAUTH k p x s = (Ok empty_table, s)).
Proof.
  intros Hf. split_and!; intros; unfold GET_SESSION, ROTATE_CSRF, ROTATE_SESSION, CONSUME_PREAUTH;
    by rewrite (bind_ok _ _ _ _ _ (exists_absent s k Hf)).
Qed.

(** Creating a hash, one field at a time. *)
Lemma hset_each_found fields h s k :
  find s k = Some (entry_of h None) ->
  exists s', hset_each k fields s = (Ok tt, s') /\ sets k (Some (entry_of (set_fields fields h) None)) s s'.
Proof.
  revert h s. induction fields as [|kv fields IH]; intros h s Hf.
  - exists s. split; [done|]. change (sets k (Some (entry_of h None)) s s). rewrite <- Hf. apply sets_refl.
  - cbn [hset_each]. rewrite (bind_ok _ _ _ _ _ (hset_found s k h None Hf [kv])).
    pose proof (sets_store k (set_fields [kv] h) None s ltac:(done)) as Hs.
    destruct (IH (set_fields [kv] h) _ (proj1 Hs)) as (s' & Hr & Hs'). exists s'. split; [done|].
    eapply sets_trans; [exact Hs|exact Hs'].
Qed.
Lemma hset_each_absent kv fields s k :
  find s k = None ->
  exists s', hset_each k (kv :: fields) s = (Ok tt, s') /\ sets k (Some (entry_of (set_fields (kv :: fields) []) None)) s s'.
Proof.
  intros Hf. cbn [hset_each]. rewrite (bind_ok _ _ _ _ _ (hset_absent s k [kv] Hf)).
  pose proof (sets_store k (set_fields [kv] []) None s ltac:(done)) as Hs.
  destruct (hset_each_found fields (set_fields [kv] []) _ k (proj1 Hs)) as (s' & Hr & Hs'). exists s'. split; [done|].
  eapply sets_trans; [exact Hs|exact Hs'].
Qed.

Lemma set_hash_once_fates k fields ttl c c' : _set_hash_once k fields ttl c = (Ok tt, c') -> fates c' = tl (fates c).
Proof.
  assert (Hf : forall sc c r c', eval (A := reply) sc c = (r, c') -> fates c' = tl (fates c)).
  { intros sc c0 r c1. unfold eval, after_call. destruct (next_fate c0);
      [destruct (sc (redis c0)) as [[]]| |destruct (sc (redis c0)) as [[]]]; by intros [= <- <-]. }
  unfold _set_hash_once. intros (n & c1 & (rep & c2 & He & Hr)%guarded_ok%bind_ok_inv & Hn)%bind_ok_inv.
  injection Hr as _ <-. case_decide; [|done]. injection Hn as <-. by eapply Hf.
Qed.

(** ** A session through its life *)

(** What never changes about a session, from token to token. *)
Record identity := { who : Z; how : SessionMethod; ends : Z }.
Definition identity_of (r : AdminSessionRecord) : identity :=
  {| who := admin_id r; how := mfa_method r; ends := absolute_expires_at r |}.

(** The key is gone, or holds a well-formed session of that identity. *)
Definition holds (i : identity) (s : server) (k : text) : Prop :=
  find s k = None \/
  exists r csrf d, find s k = Some (session_entry r csrf d) /\ record_wf r /\ is_ascii csrf /\ identity_of r = i.

Lemma seen_wf now r : record_wf r -> is_instant now -> record_wf (seen now r).
Proof. by intros (? & ? & ? & ? & ? & ?) Hn. Qed.
Lemma rotated_wf new_id now stepped_up r :
  record_wf r -> is_instant now -> is_uuid new_id -> record_wf (rotated new_id now stepped_up r).
Proof.
  intros (? & ? & ? & ? & ? & ?) Hn Hi. do 5 (split; [done|]). cbn. destruct stepped_up; by intros ms [= <-].
Qed.

Lemma holds_wait i s k d : 0 <= d -> holds i s k -> holds i (tick d s) k.
Proof.
  intros Hd [Hf|(r & x & e & Hf & Hr)]; [left; by apply find_tick_None|].
  unfold holds. rewrite (find_tick _ _ _ _ Hd Hf). destruct (expired _ _); [by left|right]. eauto 10.
Qed.

(** What a script that answers with a session may answer. *)
Definition answer_ok (i : identity) (now : Z) (rep : reply) : Prop :=
  rep = empty_table \/
  exists r csrf, rep = flat (session_fields r csrf) /\ record_wf r /\ is_ascii csrf /\ identity_of r = i /\ now < ends i.

Lemma get_effect i s k now idle :
  holds i s k -> 0 < idle -> is_instant now ->
  exists rep s', GET_SESSION k now idle s = (Ok rep, s') /\ holds i s' k /\ answer_ok i now rep.
Proof.
  intros [Hf|(r & x & d & Hf & Hwf & Hx & <-)] Hi Hn.
  - exists empty_table, s. split; [by apply absent_scripts|]. split; [by left|by left].
  - destruct (decide (now < absolute_expires_at r)) as [Hlt|Hge].
    + destruct (get_script s k r x d now idle Hf Hi Hlt) as (s' & Hr & Hs & _).
      eexists _, s'. split; [exact Hr|]. split; right; eauto 10 using seen_wf.
    + rewrite (get_script_expired s k r x d now idle Hf) by lia. eexists _, _. split; [done|].
      split; [left; apply find_drop_eq|by left].
Qed.

Lemma csrf_effect i s k now idle a b :
  holds i s k -> 0 < idle -> is_instant now -> is_ascii b ->
  exists rep s', ROTATE_CSRF k now idle a b s = (Ok rep, s') /\ holds i s' k.
Proof.
  intros [Hf|(r & x & d & Hf & Hwf & Hx & <-)] Hi Hn Hb.
  - exists (Int 0), s. split; [by apply absent_scripts|by left].
  - destruct (decide (now < absolute_expires_at r)) as [Hlt|Hge].
    + destruct (decide (a = x)) as [->|Ha].
      * destruct (csrf_script s k r x d now idle Hf Hi b Hlt) as (s' & Hr & Hs & _).
        eexists _, s'. split; [exact Hr|]. right. eauto 10 using seen_wf.
      * rewrite (csrf_script_wrong s k r x d now idle Hf) by done. eexists _, _. split; [done|]. right. eauto 10.
    + rewrite (csrf_script_expired s k r x d now idle Hf) by lia. eexists _, _. split; [done|].
      left. apply find_drop_eq.
Qed.

Lemma rotate_effect i s k k2 now idle new_id stepped_up csrf' :
  holds i s k -> 0 < idle -> is_instant now -> is_uuid new_id -> is_ascii csrf' ->
  exists rep s', ROTATE_SESSION k k2 now idle (str_uuid new_id) (step_up_text stepped_up now) csrf' s = (Ok rep, s') /\
    holds i s' k /\ answer_ok i now rep /\ (rep <> empty_table -> holds i s' k2 /\ find s' k = None).
Proof.
  intros [Hf|(r & x & d & Hf & Hwf & Hx & <-)] Hi Hn Hid Hc.
  - exists empty_table, s. split; [by apply absent_scripts|]. split; [by left|]. split; [by left|done].
  - destruct (find s k2) as [e|] eqn:Hk2.
    { exists empty_table, s. split; [|split; [right; eauto 10|split; [by left|done]]].
      unfold ROTATE_SESSION. rewrite (bind_ok _ _ _ _ _ (exists_found s k _ _ Hf)). cbn [negb].
      assert (exists_ k2 s = (Ok true, s)) as He by (unfold exists_, gets; by rewrite Hk2, bool_decide_eq_true_2 by eauto).
      by rewrite (bind_ok _ _ _ _ _ He). }
    destruct (decide (now < absolute_expires_at r)) as [Hlt|Hge].
    + destruct (rotate_script s k r x d now idle Hf Hi k2 new_id stepped_up csrf' Hlt Hk2) as (s' & Hr & H2 & H1 & _).
      eexists _, s'. split; [exact Hr|]. split; [by left|]. split.
      * right. eexists _, _. eauto 10 using rotated_wf.
      * intros _. split; [|done]. right. eexists _, _, _. split; [exact H2|]. eauto using rotated_wf.
    + rewrite (rotate_script_expired s k r x d now idle Hf) by (lia || done). eexists _, _. split; [done|].
      split; [left; apply find_drop_eq|]. split; [by left|done].
Qed.

(** *** The methods *)

Section Sessions.
Context {H : HMAC} (key_ring : list (Z * text)) (current_key_version : Z) (prefix : text).
Notation digest_or_none := (digest_or_none key_ring).
Notation _session_key := (_session_key key_ring prefix).
Notation get_admin_session := (get_admin_session key_ring prefix).
Notation validate_and_rotate_csrf := (validate_and_rotate_csrf key_ring current_key_version prefix).
Notation rotate_admin_session := (rotate_admin_session key_ring current_key_version prefix).
Notation issue_admin_session := (issue_admin_session key_ring current_key_version prefix).

(** The key of a session token, if it is one. *)
Definition session_key_of (t : text) : option text :=
  (fun d => key_text prefix (str "session") (OpaqueToken.value d)) <$> digest_or_none t (str "admin-session").

Lemma digest_length t ns d : OpaqueToken.digest_opaque_token t key_ring ns = Ok d -> length (OpaqueToken.value d) = 32%nat.
Proof. intros (key & enc & _ & _ & _ & ->)%OpaqueToken.digest_spec. apply hmac_length. Qed.

Lemma digest_key_ok ns d : OpaqueToken.namespace_match 31 ns = true -> length d = 32%nat ->
  _digest_key prefix ns d = Ok (key_text prefix ns d).
Proof. intros Hn Hl. unfold _digest_key. by rewrite Hn, Hl. Qed.

Lemma session_key_prefix t k : session_key_of t = Some k -> startswith (prefix ++ str ":session:") k = true.
Proof.
  unfold session_key_of. destruct (digest_or_none t (str "admin-session")) as [dg|]; [|done]. intros [= <-].
  apply startswith_spec. eexists. unfold key_text. by rewrite <- app_assoc.
Qed.

Lemma session_key_run t c : _session_key t c = (Ok (session_key_of t), c).
Proof.
  unfold RedisState._session_key, session_key_of, RedisState.digest_or_none.
  destruct (OpaqueToken.digest_opaque_token t key_ring (str "admin-session")) as [d|] eqn:Hd; [|done].
  unfold mbind, prog_bind, lift. rewrite digest_key_ok; [done|reflexivity|by eapply digest_length].
Qed.

(** A reply that is read: lost, or read from what the script answered. *)
Lemma guarded_read {B} (sc : script reply) (read : reply -> result exn B) c r c' :
  guarded (rep ← eval sc; lift (read rep)) c = (r, c') ->
  (redis c' = redis c /\ r = Err AuthStateUnavailable) \/
  (exists r0, sc (redis c) = (r0, redis c') /\ forall b, r = Ok b -> exists rep, r0 = Ok rep /\ read rep = Ok b).
Proof.
  unfold guarded, try_except, raise. destruct ((rep ← eval sc; lift (read rep)) c) as [r1 c1] eqn:Hm.
  intros Hr. assert (c' = c1) as -> by (destruct r1; congruence). revert Hm.
  unfold mbind, prog_bind, lift. destruct (eval sc c) as [[rep|e] c2] eqn:He; intros Hm; cbn in Hm.
  - injection Hm as Hrd ->. apply eval_cases in He as [[_ ?]|(r0 & Hsc & Hok)]; [done|]. right. exists r0. split; [done|].
    intros b ->. exists rep. split; [by apply Hok|]. destruct r1 as [b1|e1]; cbn in Hr; congruence.
  - injection Hm as <- <-. cbn in Hr. injection Hr as <-.
    apply eval_cases in He as [[Hs _]|(r0 & Hsc & _)]; [by left|]. right. exists r0. by split.
Qed.

Lemma duration_pos ttl ms : _duration_ms ttl = Ok ms -> 0 < ms /\ ms = ttl.
Proof. unfold _duration_ms. destruct (_ && _) eqn:He; [|done]. boolP. intros [= <-]. lia. Qed.

Lemma answer_record i now rep values :
  answer_ok i now rep -> _decode_hash rep = Ok values -> values <> [] ->
  exists r, _session_record values = Ok r /\ identity_of r = i /\ now < ends i /\ rep <> empty_table.
Proof.
  intros [->|(r & x & -> & Hwf & Hx & Hid & Hn)] Hd Hne; [by injection Hd as <-|].
  destruct (session_fields_ascii r x Hwf Hx) as [Ha Hnd]. rewrite decode_flat in Hd by done. injection Hd as <-.
  exists r. rewrite session_record_fields by done. done.
Qed.

Lemma get_session_effect i t k idle_ttl now c r c' :
  session_key_of t = Some k -> holds i (redis c) k -> is_instant now ->
  get_admin_session t idle_ttl now c = (r, c') ->
  holds i (redis c') k /\ forall x, r = Ok (Some x) -> identity_of x = i /\ now < ends i.
Proof.
  intros Hk Hh Hn. unfold RedisState.get_admin_session. rewrite (bind_ok _ _ _ _ _ (session_key_run t c)), Hk.
  destruct (_duration_ms idle_ttl) as [idle|] eqn:Hd; [|by intros [= <- <-]]. apply duration_pos in Hd as [Hi _].
  change (idle_ms ← lift (Ok idle); rep ← eval (GET_SESSION k now idle_ms); lift (_decode_hash rep)) with
    (rep ← eval (GET_SESSION k now idle); lift (_decode_hash rep)).
  destruct (get_effect i (redis c) k now idle Hh Hi Hn) as (rep & s' & Hsc & Hh' & Ha).
  unfold mbind at 1, prog_bind at 1. destruct (guarded _ c) as [r1 c1] eqn:Hg. intros Hr.
  assert (Hc : holds i (redis c1) k /\ forall v, r1 = Ok v -> _decode_hash rep = Ok v).
  { apply guarded_read in Hg as [[Hs ->]|(r0 & Hrun & Hok)]; [by rewrite Hs|].
    rewrite Hsc in Hrun. injection Hrun as <- <-. split; [done|].
    intros v Hv. destruct (Hok v Hv) as (rep' & [= <-] & ?). done. }
  destruct Hc as [Hc Hv]. destruct r1 as [values|e]; [|injection Hr as <- <-; by split].
  specialize (Hv values eq_refl). revert Hr. case_decide as Hne; [intros [= <- <-]; by split|].
  destruct (answer_record i now rep values Ha Hv Hne) as (x & Hx & Hid & Hend & _).
  unfold mbind, prog_bind, lift. rewrite Hx. intros [= <- <-]. split; [done|]. by intros y [= <-].
Qed.

Lemma csrf_session_effect i t k csrf idle_ttl now random c r c' :
  session_key_of t = Some k -> holds i (redis c) k -> is_instant now ->
  validate_and_rotate_csrf t csrf idle_ttl now random c = (r, c') -> holds i (redis c') k.
Proof.
  intros Hk Hh Hn. unfold RedisState.validate_and_rotate_csrf. rewrite (bind_ok _ _ _ _ _ (session_key_run t c)), Hk.
  destruct (digest_or_none csrf (str "admin-csrf")) as [current|]; [|by intros [= <- <-]].
  unfold issue_token, digest_token, of_token. unfold mbind at 1, prog_bind at 1, lift at 1.
  destruct (OpaqueToken.issue_opaque_token current_key_version random) as [t2|]; [|by intros [= <- <-]].
  unfold mbind at 1, prog_bind at 1, lift at 1.
  destruct (OpaqueToken.digest_opaque_token t2 key_ring (str "admin-csrf")) as [d2|]; [|by intros [= <- <-]].
  destruct (_duration_ms idle_ttl) as [idle|] eqn:Hd; [|by intros [= <- <-]]. apply duration_pos in Hd as [Hi _].
  set (a := bytes_hex (OpaqueToken.value current)). set (b := bytes_hex (OpaqueToken.value d2)).
  change (idle_ms ← lift (Ok idle); rep ← eval (ROTATE_CSRF k now idle_ms a b); lift (_strict_integer rep)) with
    (rep ← eval (ROTATE_CSRF k now idle a b); lift (_strict_integer rep)).
  destruct (csrf_effect i (redis c) k now idle a b Hh Hi Hn (bytes_hex_ascii _)) as (rep & s' & Hsc & Hh').
  unfold mbind at 1, prog_bind at 1. destruct (guarded _ c) as [r1 c1] eqn:Hg. intros Hr.
  assert (c' = c1) as -> by (destruct r1 as [z|]; [destruct (negb _)|]; by injection Hr).
  apply guarded_read in Hg as [[Hs ->]|(r0 & Hrun & _)]; [by rewrite Hs|].
  rewrite Hsc in Hrun. by injection Hrun as <- <-.
Qed.

Lemma rotate_session_effect i t k idle_ttl stepped_up now random random' new_id c r c' :
  session_key_of t = Some k -> holds i (redis c) k -> is_instant now -> is_uuid new_id ->
  rotate_admin_session t idle_ttl stepped_up now random random' new_id c = (r, c') ->
  holds i (redis c') k /\
  forall j, r = Ok (Some j) -> identity_of (record j) = i /\ now < ends i /\ find (redis c') k = None /\
    exists k2, session_key_of (session_token j) = Some k2 /\ holds i (redis c') k2.
Proof.
  intros Hk Hh Hn Hid. unfold RedisState.rotate_admin_session. rewrite (bind_ok _ _ _ _ _ (session_key_run t c)), Hk.
  unfold issue_token, digest_token, of_token. unfold mbind at 1, prog_bind at 1, lift at 1.
  destruct (OpaqueToken.issue_opaque_token current_key_version random) as [t2|]; [|by intros [= <- <-]].
  unfold mbind at 1, prog_bind at 1, lift at 1.
  destruct (OpaqueToken.issue_opaque_token current_key_version random') as [x2|]; [|by intros [= <- <-]].
  unfold mbind at 1, prog_bind at 1, lift at 1.
  destruct (OpaqueToken.digest_opaque_token t2 key_ring (str "admin-session")) as [d2|] eqn:Hd2; [|by intros [= <- <-]].
  unfold mbind at 1, prog_bind at 1, lift at 1.
  destruct (OpaqueToken.digest_opaque_token x2 key_ring (str "admin-csrf")) as [e2|]; [|by intros [= <- <-]].
  rewrite digest_key_ok by first [reflexivity | by eapply digest_length].
  destruct (_duration_ms idle_ttl) as [idle|] eqn:Hd; [|by intros [= <- <-]]. apply duration_pos in Hd as [Hi _].
  set (b := bytes_hex (OpaqueToken.value e2)). set (k2 := key_text prefix (str "session") (OpaqueToken.value d2)).
  change (k2' ← lift (Ok k2); idle_ms ← lift (Ok idle);
          rep ← eval (ROTATE_SESSION k k2' now idle_ms (str_uuid new_id) (step_up_text stepped_up now) b);
          lift (_decode_hash rep)) with
    (rep ← eval (ROTATE_SESSION k k2 now idle (str_uuid new_id) (step_up_text stepped_up now) b); lift (_decode_hash rep)).
  destruct (rotate_effect i (redis c) k k2 now idle new_id stepped_up b Hh Hi Hn Hid (bytes_hex_ascii _))
    as (rep & s' & Hsc & Hh' & Ha & H2).
  unfold mbind at 1, prog_bind at 1. destruct (guarded _ c) as [r1 c1] eqn:Hg. intros Hr.
  assert (Hc : holds i (redis c1) k /\ forall v, r1 = Ok v -> redis c1 = s' /\ _decode_hash rep = Ok v).
  { apply guarded_read in Hg as [[Hs ->]|(r0 & Hrun & Hok)]; [by rewrite Hs|].
    rewrite Hsc in Hrun. injection Hrun as <- <-. split; [done|].
    intros v Hv. destruct (Hok v Hv) as (rep' & [= <-] & ?). done. }
  destruct Hc as [Hc Hv]. destruct r1 as [values|e]; [|injection Hr as <- <-; by split].
  destruct (Hv values eq_refl) as [Hs' Hdec]. revert Hr. case_decide as Hne; [intros [= <- <-]; by split|].
  destruct (answer_record i now rep values Ha Hdec Hne) as (x & Hx & Hident & Hend & Hrep).
  unfold mbind, prog_bind, lift. rewrite Hx. intros [= <- <-]. split; [done|]. intros j [= <-]. cbn [record session_token].
  destruct (H2 Hrep) as [Hk2 Hgone]. rewrite Hs'. do 3 (split; [done|]). exists k2. split; [|done].
  unfold session_key_of, RedisState.digest_or_none. by rewrite Hd2.
Qed.

(** *** Any use of a session *)

Inductive use :=
| Pause (d : Z)
| Get (idle_ttl now : Z)
| Csrf (csrf : text) (idle_ttl now : Z) (random : text)
| Rotate (idle_ttl : Z) (stepped_up : bool) (now : Z) (random random' : text) (new_id : Z)
| Revoke.

(** The records a holder of the token is given, each with the time it was
    asked for; after a rotation the holder goes on with the new token. *)
Fixpoint follow (us : list use) (t : text) (c : conn) : list (Z * AdminSessionRecord) :=
  match us with
  | [] => []
  | Pause d :: us' => follow us' t (wait d c)
  | Get idle_ttl now :: us' =>
      let '(r, c') := get_admin_session t idle_ttl now c in
      match r with Ok (Some x) => (now, x) :: follow us' t c' | _ => follow us' t c' end
  | Csrf csrf idle_ttl now random :: us' =>
      let '(_, c') := validate_and_rotate_csrf t csrf idle_ttl now random c in follow us' t c'
  | Rotate idle_ttl stepped_up now random random' new_id :: us' =>
      let '(r, c') := rotate_admin_session t idle_ttl stepped_up now random random' new_id c in
      match r with
      | Ok (Some j) => (now, record j) :: follow us' (session_token j) c'
      | _ => follow us' t c'
      end
  | Revoke :: us' => let '(_, c') := revoke_admin_session key_ring prefix t c in follow us' t c'
  end.

Definition use_ok (u : use) : Prop :=
  match u with
  | Pause d => 0 <= d
  | Get _ now | Csrf _ _ now _ => is_instant now
  | Rotate _ _ now _ _ new_id => is_instant now /\ is_uuid new_id
  | Revoke => True
  end.

Lemma revoke_effect i t k c r c' :
  session_key_of t = Some k -> holds i (redis c) k ->
  revoke_admin_session key_ring prefix t c = (r, c') ->
  holds i (redis c') k /\ (r = Ok tt -> find (redis c') k = None).
Proof.
  intros Hk Hh. unfold revoke_admin_session. rewrite (bind_ok _ _ _ _ _ (session_key_run t c)), Hk.
  intros Hr. assert (Hx : (redis c' = redis c /\ r <> Ok tt) \/ find (redis c') k = None).
  { assert (Hdel : forall s, (del k s).2 = drop_key k s) by (intros s; unfold del; by destruct (find s k)).
    unfold guarded, try_except, delete, mbind, prog_bind, raise, mret, prog_ret in Hr.
    destruct (eval (del k) c) as [r1 c1] eqn:He. assert (c' = c1) as -> by (destruct r1; by injection Hr).
    apply eval_cases in He as [[Hs ->]|(r0 & Hsc & _)].
    - left. split; [done|]. by injection Hr as <-.
    - right. pose proof (Hdel (redis c)) as Hd. rewrite Hsc in Hd. cbn in Hd. rewrite Hd. apply find_drop_eq. }
  destruct Hx as [[Hs Hne]|Hn]; [rewrite Hs; by split|]. split; [by left|done].
Qed.

Lemma follow_no_key us t c : session_key_of t = None -> follow us t c = [].
Proof.
  intros Hk. revert c. induction us as [|u us IH]; intros c; [done|].
  destruct u; cbn [follow]; [apply IH|..];
    unfold RedisState.get_admin_session, RedisState.validate_and_rotate_csrf, RedisState.rotate_admin_session,
      revoke_admin_session; rewrite (bind_ok _ _ _ _ _ (session_key_run t c)), Hk; apply IH.
Qed.

Lemma follow_identity i us t c :
  Forall use_ok us -> (forall k, session_key_of t = Some k -> holds i (redis c) k) ->
  Forall (fun nr => identity_of nr.2 = i /\ nr.1 < ends i) (follow us t c).
Proof.
  intros Hus. revert t c. induction Hus as [|u us Hu _ IH]; intros t c Ht; [constructor|].
  destruct (session_key_of t) as [k|] eqn:Hk; [specialize (Ht k eq_refl)|].
  - assert (Hstay : forall c', holds i (redis c') k -> Forall (fun nr => identity_of nr.2 = i /\ nr.1 < ends i) (follow us t c')).
    { intros c' Hc. apply IH. intros k' Hk'. rewrite Hk in Hk'. by injection Hk' as <-. }
    destruct u as [d|idle now|csrf idle now random|idle su now random random' new_id|]; cbn [follow].
    + apply Hstay. by apply holds_wait.
    + destruct (get_admin_session t idle now c) as [r c'] eqn:Hr.
      destruct (get_session_effect i t k idle now c r c' Hk Ht Hu Hr) as [Hh Hx].
      destruct r as [[x|]|]; [|by apply Hstay..]. constructor; [by apply Hx|by apply Hstay].
    + destruct (validate_and_rotate_csrf t csrf idle now random c) as [r c'] eqn:Hr.
      apply Hstay. by eapply csrf_session_effect.
    + destruct (rotate_admin_session t idle su now random random' new_id c) as [r c'] eqn:Hr.
      destruct (rotate_session_effect i t k idle su now random random' new_id c r c' Hk Ht (proj1 Hu) (proj2 Hu) Hr)
        as [Hh Hx]. destruct r as [[j|]|]; [|by apply Hstay..].
      destruct (Hx j eq_refl) as (Hi & Hn & _ & k2 & Hk2 & Hh2). constructor; [done|].
      apply IH. intros k' Hk'. rewrite Hk2 in Hk'. by injection Hk' as <-.
    + destruct (revoke_admin_session key_ring prefix t c) as [r c'] eqn:Hr.
      apply Hstay. by eapply revoke_effect.
  - by rewrite follow_no_key.
Qed.

(** *** Issuing *)

Lemma set_hash_once_ok k kv fields ttl c c' :
  0 < ttl -> _set_hash_once k (kv :: fields) ttl c = (Ok tt, c') ->
  find (redis c) k = None /\
  sets k (Some (entry_of (set_fields (kv :: fields) []) (Some (time (redis c) + ttl * 1000)))) (redis c) (redis c').
Proof.
  intros Ht. unfold _set_hash_once. intros (n & c1 & Hg & Hr)%bind_ok_inv.
  case_decide as Hn; [|done]. subst n. injection Hr as ->.
  apply guarded_read in Hg as [[_ ?]|(r0 & Hsc & Hok)]; [done|].
  destruct (Hok 1 eq_refl) as (rep & -> & Hrep). clear Hok. revert Hsc. unfold SET_HASH_WITH_TTL.
  destruct (find (redis c) k) as [e|] eqn:Hf.
  { unfold exists_, gets. unfold mbind at 1, prog_bind at 1. rewrite Hf, bool_decide_eq_true_2 by eauto.
    intros [= <- _]. by injection Hrep. }
  rewrite (bind_ok _ _ _ _ _ (exists_absent _ _ Hf)).
  destruct (hset_each_absent kv fields (redis c) k Hf) as (s1 & H1 & Hs1).
  rewrite (bind_ok _ _ _ _ _ H1). rewrite (bind_ok _ _ _ _ _ (pexpire_found s1 k _ _ (proj1 Hs1) (ttl * 1000) ltac:(lia))).
  intros [= _ <-]. split; [done|]. eapply sets_trans; [exact Hs1|]. destruct Hs1 as (_ & _ & <-).
  apply sets_store. intros t [= <-]. lia.
Qed.

Lemma issue_session_ok admin method idle_ttl absolute_ttl stepped_up now random random' new_id c j c' :
  issue_admin_session admin method idle_ttl absolute_ttl stepped_up now random random' new_id c = (Ok j, c') ->
  exists k csrf, session_key_of (session_token j) = Some k /\ is_ascii csrf /\ fates c' = tl (fates c) /\
    record j = {| admin_id := admin; session_id := new_id; mfa_method := method; created_at := now; last_seen_at := now;
                  absolute_expires_at := now + absolute_ttl; step_up_at := if stepped_up then Some now else None |} /\
    sets k (Some (session_entry (record j) csrf (time (redis c) + Z.max 1 (idle_ttl / 1000) * 1000)))
      (redis c) (redis c').
Proof.
  unfold RedisState.issue_admin_session, issue_token, digest_token, of_token, lift. intros Hr.
  apply bind_ok_inv in Hr as (idle & c1 & Hi & Hr). injection Hi as Hi <-. apply duration_pos in Hi as [Hi ->].
  apply bind_ok_inv in Hr as (absolute & c1 & Ha & Hr). injection Ha as Ha <-. apply duration_pos in Ha as [Ha ->].
  destruct (absolute_ttl <? idle_ttl) eqn:Hpol; [done|]. boolP.
  apply bind_ok_inv in Hr as (t & c1 & H1 & Hr). destruct (OpaqueToken.issue_opaque_token _ random) as [t'|] eqn:Ht; [|done]. injection H1 as -> <-.
  apply bind_ok_inv in Hr as (x & c1 & H1 & Hr). destruct (OpaqueToken.issue_opaque_token _ random') as [x'|] eqn:Hx; [|done]. injection H1 as -> <-.
  apply bind_ok_inv in Hr as (d & c1 & H1 & Hr). destruct (OpaqueToken.digest_opaque_token t _ _) as [d'|] eqn:Hd; [|done]. injection H1 as -> <-.
  apply bind_ok_inv in Hr as (e & c1 & H1 & Hr). destruct (OpaqueToken.digest_opaque_token x _ _) as [e'|] eqn:He; [|done]. injection H1 as -> <-.
  apply bind_ok_inv in Hr as (k & c1 & H1 & Hr). rewrite digest_key_ok in H1 by first [reflexivity | by eapply digest_length].
  injection H1 as <- <-.
  apply bind_ok_inv in Hr as ([] & c1 & H1 & Hr). injection Hr as <- <-. cbn [record session_token].
  pose proof (set_hash_once_fates _ _ _ _ _ H1) as Hfates.
  apply set_hash_once_ok in H1 as [_ Hs]; [|lia]. rewrite Z.min_l in Hs by lia.
  eexists _, _. split; [|split; [|split; [exact Hfates|split; [done|]]]].
  - unfold session_key_of, RedisState.digest_or_none. by rewrite Hd.
  - apply (bytes_hex_ascii (OpaqueToken.value e)).
  - destruct stepped_up; exact Hs.
Qed.

(** C25: An administrator session never outlives what was decided when it was
    issued: whoever holds the token, through any use of it, rotations and lost
    messages included, is only ever given records of that administrator,
    signed in that way, with that absolute end, and none once it has passed. *)
Theorem session_never_extended admin method idle_ttl absolute_ttl stepped_up now random random' new_id c j c' us :
  is_uuid admin -> is_uuid new_id -> is_instant now -> is_instant (now + absolute_ttl) ->
  issue_admin_session admin method idle_ttl absolute_ttl stepped_up now random random' new_id c = (Ok j, c') ->
  Forall use_ok us ->
  Forall (fun '(asked, r) => admin_id r = admin /\ mfa_method r = method /\
                             absolute_expires_at r = now + absolute_ttl /\ asked < now + absolute_ttl)
    (follow us (session_token j) c').
Proof.
  intros Ha Hid Hn Hx Hi Hus. apply issue_session_ok in Hi as (k & csrf & Hk & Hc & _ & Hrec & Hs).
  set (i := {| who := admin; how := method; ends := now + absolute_ttl |}).
  eapply Forall_impl; [apply (follow_identity i us (session_token j) c' Hus)|].
  - intros k' Hk'. rewrite Hk in Hk'. injection Hk' as <-. right. eexists _, csrf, _. split; [apply Hs|].
    rewrite Hrec. split; [|done]. do 5 (split; [done|]). cbn. destruct stepped_up; by intros ms [= <-].
  - intros [asked r] [Heq Hend]. cbn in *. unfold identity_of in Heq. injection Heq as -> -> ->. done.
Qed.

(** *** A token that is gone stays gone *)

(** A key that is gone could be anyone's; so nothing is ever read from it. *)
Lemma follow_gone us t k c :
  session_key_of t = Some k -> find (redis c) k = None -> Forall use_ok us -> follow us t c = [].
Proof.
  intros Hk Hf Hus.
  assert (Hi : forall i, Forall (fun nr => identity_of nr.2 = i /\ nr.1 < ends i) (follow us t c)).
  { intros i. apply follow_identity; [done|]. intros k' Hk'. rewrite Hk in Hk'. injection Hk' as <-. by left. }
  destruct (follow us t c) as [|nr l]; [done|].
  pose proof (Hi {| who := 0; how := totp; ends := 0 |}) as H1. pose proof (Hi {| who := 1; how := totp; ends := 0 |}) as H2.
  apply Forall_cons in H1 as [[H1 _] _], H2 as [[H2 _] _]. congruence.
Qed.

(** Rotating a session retires its token: the new one carries the same
    administrator, method and absolute end, and no use of the old one gives a
    record again. *)
Theorem rotation_retires_the_token i t k idle_ttl stepped_up now random random' new_id c j c' us :
  session_key_of t = Some k -> holds i (redis c) k -> is_instant now -> is_uuid new_id ->
  rotate_admin_session t idle_ttl stepped_up now random random' new_id c = (Ok (Some j), c') ->
  Forall use_ok us ->
  identity_of (record j) = i /\ now < ends i /\ follow us t c' = [].
Proof.
  intros Hk Hh Hn Hid Hr Hus.
  destruct (rotate_session_effect i t k idle_ttl stepped_up now random random' new_id c _ c' Hk Hh Hn Hid Hr) as [_ Hj].
  destruct (Hj j eq_refl) as (Hi & He & Hgone & _). split; [done|]. split; [done|]. by eapply follow_gone.
Qed.

(** *** CSRF tokens *)

Lemma validate_csrf_ok t k r x d csrf idle_ttl now random c csrf' c' :
  session_key_of t = Some k -> find (redis c) k = Some (session_entry r x d) ->
  validate_and_rotate_csrf t csrf idle_ttl now random c = (Ok (Some csrf'), c') ->
  exists dg dg' e, OpaqueToken.digest_opaque_token csrf key_ring (str "admin-csrf") = Ok dg /\
    OpaqueToken.digest_opaque_token csrf' key_ring (str "admin-csrf") = Ok dg' /\
    x = bytes_hex (OpaqueToken.value dg) /\ now < absolute_expires_at r /\
    find (redis c') k = Some (session_entry (seen now r) (bytes_hex (OpaqueToken.value dg')) e).
Proof.
  intros Hk Hf. unfold RedisState.validate_and_rotate_csrf. rewrite (bind_ok _ _ _ _ _ (session_key_run t c)), Hk.
  unfold RedisState.digest_or_none. destruct (OpaqueToken.digest_opaque_token csrf key_ring (str "admin-csrf")) as [dg|] eqn:Hdg; [|done].
  unfold issue_token, digest_token, of_token. intros Hr.
  apply bind_ok_inv in Hr as (t2 & c1 & H1 & Hr). unfold lift in H1.
  destruct (OpaqueToken.issue_opaque_token current_key_version random) as [t2'|]; [|done]. injection H1 as -> <-.
  apply bind_ok_inv in Hr as (d2 & c1 & H1 & Hr). unfold lift in H1.
  destruct (OpaqueToken.digest_opaque_token t2 key_ring (str "admin-csrf")) as [d2'|] eqn:Hd2; [|done]. injection H1 as -> <-.
  apply bind_ok_inv in Hr as (n & c1 & Hg & Hr). destruct (negb _); [done|]. destruct (n =? 1) eqn:Hn; [|done].
  injection Hr as <- <-. boolP. subst n. destruct (_duration_ms idle_ttl) as [idle|] eqn:Hd; [|done].
  apply duration_pos in Hd as [Hi _]. exists dg, d2. apply (guarded_read _ _ _ _ _) in Hg as [[_ ?]|(r0 & Hsc & Hok)]; [done|].
  destruct (Hok 1 eq_refl) as (rep & -> & Hrep). clear Hok.
  destruct (decide (now < absolute_expires_at r)) as [Hlt|Hge].
  - destruct (decide (bytes_hex (OpaqueToken.value dg) = x)) as [<-|Hx].
    + destruct (csrf_script (redis c) k r _ d now idle Hf Hi (bytes_hex (OpaqueToken.value d2)) Hlt) as (s' & Hrun & Hs & _).
      rewrite Hrun in Hsc. injection Hsc as _ <-. eexists. split_and!; [done..|exact Hs].
    + rewrite (csrf_script_wrong (redis c) k r x d now idle Hf) in Hsc by done. injection Hsc as <- _. by injection Hrep.
  - rewrite (csrf_script_expired (redis c) k r x d now idle Hf) in Hsc by lia. injection Hsc as <- _. by injection Hrep.
Qed.

(** A CSRF token works once: the request that uses it is given another one
    with its answer, and after that the first is refused, as long as the two
    have different digests. *)
Theorem csrf_token_single_use t k r x d csrf idle_ttl now random c csrf' c' dg dg' :
  session_key_of t = Some k -> find (redis c) k = Some (session_entry r x d) ->
  validate_and_rotate_csrf t csrf idle_ttl now random c = (Ok (Some csrf'), c') ->
  OpaqueToken.digest_opaque_token csrf key_ring (str "admin-csrf") = Ok dg ->
  OpaqueToken.digest_opaque_token csrf' key_ring (str "admin-csrf") = Ok dg' ->
  OpaqueToken.value dg <> OpaqueToken.value dg' ->
  forall idle_ttl2 now2 random2 y c'',
    validate_and_rotate_csrf t csrf idle_ttl2 now2 random2 c' <> (Ok (Some y), c'').
Proof.
  intros Hk Hf H1 Hdg Hdg' Hne idle_ttl2 now2 random2 y c'' H2.
  destruct (validate_csrf_ok t k r x d csrf idle_ttl now random c csrf' c' Hk Hf H1) as (d1 & d1' & e & Hd1 & Hd1' & _ & _ & Hf').
  destruct (validate_csrf_ok t k _ _ _ csrf idle_ttl2 now2 random2 c' y c'' Hk Hf' H2) as (d2 & _ & _ & Hd2 & _ & Hx & _).
  apply Hne, bytes_hex_inj. congruence.
Qed.

(** ** Challenges *)

Notation consume_preauth := (consume_preauth key_ring current_key_version prefix).
Notation issue_preauth := (issue_preauth key_ring current_key_version prefix).

Definition preauth_key_of (t : text) : option text :=
  (fun d => key_text prefix (str "preauth") (OpaqueToken.value d)) <$> digest_or_none t (str "admin-preauth").

(** A challenge that is answered for is deleted in the same script. *)
Lemma consume_script k purpose x s r s' :
  CONSUME_PREAUTH k purpose x s = (r, s') ->
  find s' k = None \/ (s' = s /\ forall rep, r = Ok rep -> rep = empty_table).
Proof.
  unfold CONSUME_PREAUTH. destruct (find s k) as [[[n|h|b] d]|] eqn:Hf.
  1,3: unfold exists_, gets; unfold mbind at 1, prog_bind at 1; rewrite Hf, bool_decide_eq_true_2 by eauto; cbn [negb];
    unfold hget, hgetall, mbind, prog_bind; rewrite Hf; cbn; intros [= <- <-]; right; by split.
  - change {| content := Hash h; deadline := d |} with (entry_of h d) in Hf.
    rewrite (bind_ok _ _ _ _ _ (exists_found s k _ _ Hf)). cbn [negb].
    rewrite (bind_ok _ _ _ _ _ (hget_found s k _ _ Hf _)). case_decide; [|intros [= <- <-]; right; by split; [|intros ? [= <-]]].
    rewrite (bind_ok _ _ _ _ _ (hget_found s k _ _ Hf _)). case_decide; [|intros [= <- <-]; right; by split; [|intros ? [= <-]]].
    rewrite (bind_ok _ _ _ _ _ (hgetall_found s k _ _ Hf)), (bind_ok _ _ _ _ _ (del_found s k _ _ Hf)).
    intros [= <- <-]. left. apply find_drop_eq.
  - intros Hr. left. destruct (absent_scripts s k Hf) as (_ & _ & _ & Hc). unfold CONSUME_PREAUTH in Hc.
    rewrite Hc in Hr. by injection Hr as _ <-.
Qed.

Lemma consume_effect t purpose context c r c' :
  consume_preauth t purpose context c = (r, c') ->
  match preauth_key_of t with
  | None => r = Ok None /\ c' = c
  | Some k => (find (redis c) k = None -> find (redis c') k = None /\ forall x, r <> Ok (Some x)) /\
              (forall x, r = Ok (Some x) -> find (redis c') k = None)
  end.
Proof.
  unfold RedisState.consume_preauth, preauth_key_of, RedisState.digest_or_none.
  destruct (OpaqueToken.digest_opaque_token t key_ring (str "admin-preauth")) as [dg|] eqn:Hdg; cbn [fmap option_fmap option_map];
    [|by intros [= <- <-]].
  set (k := key_text prefix (str "preauth") (OpaqueToken.value dg)).
  rewrite digest_key_ok by first [reflexivity | by eapply digest_length]. fold k.
  destruct (_derive key_ring current_key_version (str "preauth-context") context) as [x|]; [|intros [= <- <-]; by split].
  change (k' ← lift (Ok k); context_digest ← lift (Ok x); rep ← eval (CONSUME_PREAUTH k' purpose (bytes_hex context_digest));
          lift (_decode_hash rep)) with (rep ← eval (CONSUME_PREAUTH k purpose (bytes_hex x)); lift (_decode_hash rep)).
  unfold mbind at 1, prog_bind at 1. destruct (guarded _ c) as [r1 c1] eqn:Hg. intros Hr.
  assert (c' = c1) as ->.
  { destruct r1 as [v|]; [|by injection Hr]. revert Hr. case_decide; [by intros [= <- <-]|].
    destruct (dict_get (str "admin_id") v ≫= uuid_of_text), (dict_get (str "purpose") v); try by intros [= <- <-].
    case_decide; by intros [= <- <-]. }
  assert (Hsome : forall y, r = Ok (Some y) -> exists v, r1 = Ok v /\ v <> []).
  { intros y ->. destruct r1 as [v|]; [|done]. exists v. split; [done|]. intros ->. by rewrite decide_True in Hr. }
  apply guarded_read in Hg as [[Hs ->]|(r0 & Hrun & Hok)].
  { split; [intros Hf; rewrite Hs; split; [done|]|]; intros y Hy; destruct (Hsome y Hy) as (v & ? & _); done. }
  split.
  - intros Hf. destruct (absent_scripts (redis c) k Hf) as (_ & _ & _ & Hc). rewrite Hc in Hrun. injection Hrun as <- <-.
    split; [done|]. intros y Hy. destruct (Hsome y Hy) as (v & Hv & Hne). destruct (Hok v Hv) as (rep & [= <-] & Hd).
    injection Hd as <-. done.
  - intros y Hy. destruct (Hsome y Hy) as (v & Hv & Hne). destruct (Hok v Hv) as (rep & -> & Hd).
    apply consume_script in Hrun as [?|[_ Hrep]]; [done|]. specialize (Hrep rep eq_refl). subst rep. by injection Hd as <-.
Qed.

(** A challenge is outstanding for an administrator: under its key there is a record
    of that administrator, for that purpose and context. *)
Definition outstanding (t : text) (admin : Z) (purpose context : text) (s : server) : Prop :=
  exists k x h d values, preauth_key_of t = Some k /\
    _derive key_ring current_key_version (str "preauth-context") context = Ok x /\ find s k = Some (entry_of h d) /\
    dict_get (str "purpose") h = Some purpose /\ dict_get (str "context_digest") h = Some (bytes_hex x) /\
    _decode_hash (flat h) = Ok values /\ dict_get (str "admin_id") values ≫= uuid_of_text = Some admin.

Lemma outstanding_one t a a' p p' x x' s : outstanding t a p x s -> outstanding t a' p' x' s -> a = a' /\ p = p'.
Proof.
  intros (k & y & h & d & v & Hk & _ & Hf & Hp & _ & Hd & Ha) (k' & y' & h' & d' & v' & Hk' & _ & Hf' & Hp' & _ & Hd' & Ha').
  rewrite Hk in Hk'. injection Hk' as <-. rewrite Hf in Hf'. injection Hf' as <- _. rewrite Hd in Hd'. injection Hd' as <-. split; congruence.
Qed.
Lemma outstanding_same t a p x s s' :
  (forall k, preauth_key_of t = Some k -> find s' k = find s k) -> outstanding t a p x s -> outstanding t a p x s'.
Proof. intros Hs (k & y & h & d & v & Hk & Hx & Hf & Hr). exists k, y, h, d, v. by rewrite Hs. Qed.

(** Only an outstanding challenge is let through, and it no longer is afterwards. *)
Lemma consume_outstanding t purpose context c y c' :
  consume_preauth t purpose context c = (Ok (Some y), c') ->
  outstanding t (consumed_admin y) purpose context (redis c) /\
  forall k, preauth_key_of t = Some k -> find (redis c') k = None.
Proof.
  intros Hr. pose proof (consume_effect _ _ _ _ _ _ Hr) as He.
  destruct (preauth_key_of t) as [k0|] eqn:Hk0; [|by destruct He]. split; [|intros k [= <-]; by apply (proj2 He y)].
  unfold outstanding. rewrite Hk0. clear He. revert Hr Hk0.
  unfold RedisState.consume_preauth, preauth_key_of, RedisState.digest_or_none.
  destruct (OpaqueToken.digest_opaque_token t key_ring (str "admin-preauth")) as [dg|] eqn:Hdg; [|done].
  cbn [fmap option_fmap option_map]. set (k := key_text prefix (str "preauth") (OpaqueToken.value dg)).
  rewrite digest_key_ok by first [reflexivity | by eapply digest_length]. fold k.
  destruct (_derive key_ring current_key_version (str "preauth-context") context) as [x|]; [|done].
  change (k' ← lift (Ok k); context_digest ← lift (Ok x); rep ← eval (CONSUME_PREAUTH k' purpose (bytes_hex context_digest));
          lift (_decode_hash rep)) with (rep ← eval (CONSUME_PREAUTH k purpose (bytes_hex x)); lift (_decode_hash rep)).
  intros (v & c1 & Hg & Hr)%bind_ok_inv [= <-].
  destruct (decide (v = [])) as [->|Hne]; [done|].
  destruct (dict_get (str "admin_id") v ≫= uuid_of_text) as [a|] eqn:Ha; [|done].
  destruct (dict_get (str "purpose") v) as [p|]; [|done]. destruct (decide (p = purpose)); [|done]. injection Hr as <- _.
  apply guarded_read in Hg as [[_ Hx]|(r0 & Hrun & Hok)]; [done|]. destruct (Hok v eq_refl) as (rep & -> & Hd).
  assert (rep <> empty_table) as Hrep by (intros ->; injection Hd as <-; done).
  unfold CONSUME_PREAUTH in Hrun. apply bind_ok_inv in Hrun as (pr & s1 & Hpr & Hrun). unfold exists_, gets in Hpr. injection Hpr as <- <-.
  case_bool_decide as Hex; cbn [negb] in Hrun; [|injection Hrun as <- _; done].
  destruct Hex as [[[n|h|b] d] Hf].
  1,3: unfold hget, hgetall, mbind, prog_bind in Hrun; rewrite Hf in Hrun; done.
  change {| content := Hash h; deadline := d |} with (entry_of h d) in Hf. exists k, x, h, d, v.
  rewrite (bind_ok _ _ _ _ _ (hget_found _ k _ _ Hf _)) in Hrun. destruct (decide _) as [Hp|]; [|injection Hrun as <- _; done].
  rewrite (bind_ok _ _ _ _ _ (hget_found _ k _ _ Hf _)) in Hrun. destruct (decide _) as [Hc|]; [|injection Hrun as <- _; done].
  rewrite (bind_ok _ _ _ _ _ (hgetall_found _ k _ _ Hf)), (bind_ok _ _ _ _ _ (del_found _ k _ _ Hf)) in Hrun.
  injection Hrun as <- _. by split_and!.
Qed.

(** The keys of challenges are nobody else's. *)
Lemma preauth_key_text t k : preauth_key_of t = Some k -> exists d, k = prefix ++ str ":preauth:" ++ d.
Proof.
  unfold preauth_key_of. destruct (digest_or_none t (str "admin-preauth")) as [dg|]; [|done]. intros [= <-].
  by eexists.
Qed.
Lemma preauth_not_rate t k : preauth_key_of t = Some k -> forall u, k <> prefix ++ str ":rate-" ++ u.
Proof. intros [d ->]%preauth_key_text u He. by apply app_inv_head in He. Qed.
Lemma preauth_not_session t k t' k' : preauth_key_of t = Some k -> session_key_of t' = Some k' -> k <> k'.
Proof.
  intros [d ->]%preauth_key_text [u ->]%session_key_prefix%startswith_spec He. rewrite <- app_assoc in He. by apply app_inv_head in He.
Qed.
Lemma clear_untouched t k account c r c' :
  preauth_key_of t = Some k -> clear_admin_failures key_ring current_key_version prefix account c = (r, c') ->
  find (redis c') k = find (redis c) k.
Proof.
  intros [d ->]%preauth_key_text Hr. unfold clear_admin_failures in Hr.
  pose proof (guarded_state (k ← lift (_derived_key key_ring current_key_version prefix (str "admin-lockout") account); delete k) c) as Hs.
  rewrite Hr in Hs. cbn [snd] in Hs. subst c'. unfold mbind at 1, prog_bind at 1, lift.
  unfold _derived_key, mbind, result_bind. destruct (_derive _ _ _ _) as [dg|]; [|done].
  unfold delete, mbind, prog_bind. destruct (eval (del _) c) as [r0 c1] eqn:He.
  assert (find (redis c1) (prefix ++ str ":preauth:" ++ d) = find (redis c) (prefix ++ str ":preauth:" ++ d)) as Hf; [|by destruct r0].
  apply eval_cases in He as [[-> _]|(r1 & Hsc & _)]; [done|]. unfold del in Hsc.
  assert (redis c1 = drop_key (key_text prefix (str "admin-lockout") dg) (redis c)) as -> by (destruct (find _ _); by injection Hsc).
  apply find_drop_ne. unfold key_text. intros Hk. by apply app_inv_head in Hk.
Qed.

(** Attempts on one challenge: what each is told. *)
Fixpoint consumes (l : list (Z * text * text)) (t : text) (c : conn) : list (option ConsumedPreAuth) :=
  match l with
  | [] => []
  | (d, purpose, context) :: l' =>
      let '(r, c') := consume_preauth t purpose context (wait d c) in
      match r with Ok o => o | Err _ => None end :: consumes l' t c'
  end.

Lemma consumes_gone l t k c :
  preauth_key_of t = Some k -> find (redis c) k = None -> Forall (fun a => 0 <= a.1.1) l ->
  omap id (consumes l t c) = [].
Proof.
  intros Hk. revert c. induction l as [|[[d p] x] l IH]; intros c Hf Hl; [done|].
  apply Forall_cons in Hl as [Hd Hl]. cbn [consumes].
  destruct (consume_preauth t p x (wait d c)) as [r c'] eqn:Hr. pose proof (consume_effect _ _ _ _ _ _ Hr) as He.
  rewrite Hk in He. destruct He as [He _]. specialize (He (find_tick_None _ _ _ Hd Hf)) as [Hf' Hn].
  destruct r as [[y|]|]; [by destruct (Hn y)|..]; apply IH; done.
Qed.

(** C26: A challenge is good for one sign-in: whatever is tried with it, and
    whatever is lost on the way, at most one attempt is let through. *)
Theorem challenge_used_at_most_once l t c :
  Forall (fun a => 0 <= a.1.1) l -> (length (omap id (consumes l t c)) <= 1)%nat.
Proof.
  revert c. induction l as [|[[d p] x] l IH]; intros c Hl; [cbn; lia|].
  apply Forall_cons in Hl as [Hd Hl]. cbn [consumes].
  destruct (consume_preauth t p x (wait d c)) as [r c'] eqn:Hr. pose proof (consume_effect _ _ _ _ _ _ Hr) as He.
  destruct r as [[y|]|]; [|by apply IH..]. destruct (preauth_key_of t) as [k|] eqn:Hk; [|by destruct He].
  destruct He as [_ He]. cbn. by rewrite (consumes_gone l t k c' Hk (He y eq_refl) Hl).
Qed.

(** *** Issue, wait, use *)

Lemma guarded_read_delivered {B} (sc : script reply) (read : reply -> result exn B) c rep s' b :
  fates c = [] -> sc (redis c) = (Ok rep, s') -> read rep = Ok b ->
  guarded (x ← eval sc; lift (read x)) c = (Ok b, {| redis := s'; fates := [] |}).
Proof.
  intros Hf Hsc Hr. unfold guarded, try_except, mbind, prog_bind, lift.
  by rewrite (eval_delivered sc c rep s' Hf Hsc), Hr.
Qed.

Definition preauth_fields (admin : Z) (purpose x : text) (now : Z) : hash :=
  [(str "admin_id", str_uuid admin); (str "purpose", purpose); (str "context_digest", x); (str "created_ms", show_Z now)].

Lemma issue_preauth_ok admin purpose context ttl now random c ch c1 :
  issue_preauth admin purpose context ttl now random c = (Ok ch, c1) ->
  exists dg x, OpaqueToken.digest_opaque_token (token ch) key_ring (str "admin-preauth") = Ok dg /\
    _derive key_ring current_key_version (str "preauth-context") context = Ok x /\
    (purpose = str "login" \/ purpose = str "enroll" \/ purpose = str "step-up") /\ 0 < ttl /\
    sets (key_text prefix (str "preauth") (OpaqueToken.value dg))
      (Some (entry_of (preauth_fields admin purpose (bytes_hex x) now) (Some (time (redis c) + ttl * 1000))))
      (redis c) (redis c1).
Proof.
  unfold RedisState.issue_preauth, issue_token, digest_token, of_token, lift. intros Hr.
  destruct (negb _ || negb _) eqn:Hpol; [done|]. boolP.
  apply bind_ok_inv in Hr as (t & c2 & Hb & Hr). destruct (OpaqueToken.issue_opaque_token _ random) as [t'|]; [|done]. injection Hb as -> <-.
  apply bind_ok_inv in Hr as (dg & c2 & Hb & Hr). destruct (OpaqueToken.digest_opaque_token t _ _) as [d'|] eqn:Hd; [|done]. injection Hb as -> <-.
  apply bind_ok_inv in Hr as (k & c2 & Hb & Hr). rewrite digest_key_ok in Hb by first [reflexivity | by eapply digest_length].
  injection Hb as <- <-.
  apply bind_ok_inv in Hr as (x & c2 & Hb & Hr). injection Hb as Hx <-.
  apply bind_ok_inv in Hr as ([] & c2 & Hb & Hr). injection Hr as <- <-. cbn [token].
  apply set_hash_once_ok in Hb as [_ Hs]; [|lia]. exists dg, x. split_and!; [done..|lia|]. exact Hs.
Qed.

Lemma issue_outstanding admin purpose context ttl now random c ch c1 :
  is_uuid admin -> issue_preauth admin purpose context ttl now random c = (Ok ch, c1) ->
  outstanding (token ch) admin purpose context (redis c1).
Proof.
  intros Ha (dg & x & Hdg & Hx & Hp & Ht & Hs & _ & Htime)%issue_preauth_ok.
  eexists _, x, _, _, _. unfold preauth_key_of, RedisState.digest_or_none. rewrite Hdg. cbn [fmap option_fmap option_map].
  split; [done|]. split; [done|]. split; [exact Hs|]. split; [done|]. split; [done|]. split.
  - apply decode_flat; [|apply (bool_decide_unpack _); by vm_compute].
    assert (is_ascii purpose) by (destruct Hp as [->|[->| ->]]; repeat constructor).
    unfold preauth_fields. repeat constructor; eauto using str_uuid_ascii, bytes_hex_ascii, show_Z_ascii.
  - change (uuid_of_text (str_uuid admin) = Some admin). by apply uuid_of_str.
Qed.

(** A challenge that was issued admits the administrator it was issued to,
    for the purpose and in the context it was issued for, until its time is up. *)
Theorem challenge_round_trip admin purpose context ttl now random c ch c1 d :
  is_uuid admin -> issue_preauth admin purpose context ttl now random c = (Ok ch, c1) ->
  fates c1 = [] -> 0 <= d ->
  (consume_preauth (token ch) purpose context (wait d c1)).1 =
    Ok (if d <=? ttl * 1000 then Some {| consumed_admin := admin; consumed_purpose := purpose |} else None).
Proof.
  intros Ha Hi Hf Hd. destruct (issue_preauth_ok _ _ _ _ _ _ _ _ _ Hi) as (dg & x & Hdg & Hx & Hp & Ht & Hs & _ & Htime).
  unfold RedisState.consume_preauth, RedisState.digest_or_none. rewrite Hdg.
  rewrite digest_key_ok by first [reflexivity | by eapply digest_length].
  set (k := key_text prefix (str "preauth") (OpaqueToken.value dg)) in *. rewrite Hx.
  change (k' ← lift (Ok k); context_digest ← lift (Ok x); rep ← eval (CONSUME_PREAUTH k' purpose (bytes_hex context_digest));
          lift (_decode_hash rep)) with (rep ← eval (CONSUME_PREAUTH k purpose (bytes_hex x)); lift (_decode_hash rep)).
  pose proof (find_tick _ _ _ d Hd Hs) as Hfind. unfold expired, entry_of at 1 in Hfind. cbn [deadline] in Hfind.
  rewrite Htime in Hfind. set (h := preauth_fields admin purpose (bytes_hex x) now) in *.
  destruct (Z.leb_spec d (ttl * 1000)) as [Hle|Hgt].
  - rewrite (proj2 (Z.ltb_ge _ _)) in Hfind by lia.
    assert (Hsc : CONSUME_PREAUTH k purpose (bytes_hex x) (redis (wait d c1)) = (Ok (flat h), drop_key k (redis (wait d c1)))).
    { unfold CONSUME_PREAUTH. rewrite (bind_ok _ _ _ _ _ (exists_found _ k _ _ Hfind)). cbn [negb].
      rewrite (bind_ok _ _ _ _ _ (hget_found _ k _ _ Hfind _)), decide_True by done.
      rewrite (bind_ok _ _ _ _ _ (hget_found _ k _ _ Hfind _)), decide_True by done.
      by rewrite (bind_ok _ _ _ _ _ (hgetall_found _ k _ _ Hfind)), (bind_ok _ _ _ _ _ (del_found _ k _ _ Hfind)). }
    assert (Hdec : _decode_hash (flat h) = Ok h).
    { apply decode_flat; [|apply (bool_decide_unpack _); by vm_compute].
      assert (is_ascii purpose) by (destruct Hp as [->|[->| ->]]; repeat constructor).
      unfold h, preauth_fields. repeat constructor; eauto using str_uuid_ascii, bytes_hex_ascii, show_Z_ascii. }
    rewrite (bind_ok _ _ _ _ _ (guarded_read_delivered _ _ (wait d c1) _ _ _ Hf Hsc Hdec)).
    rewrite decide_False by done.
    change (dict_get (str "admin_id") h ≫= uuid_of_text) with (uuid_of_text (str_uuid admin)).
    change (dict_get (str "purpose") h) with (Some purpose). by rewrite uuid_of_str, decide_True by done.
  - rewrite (proj2 (Z.ltb_lt _ _)) in Hfind by lia.
    destruct (absent_scripts _ _ Hfind) as (_ & _ & _ & Hc).
    by rewrite (bind_ok _ _ _ _ _ (guarded_read_delivered _ _ (wait d c1) _ _ [] Hf (Hc purpose (bytes_hex x)) eq_refl)).
Qed.

(** A session that was issued reads back as it was issued, with the time it
    was last seen brought up to date, as long as it is used within its idle
    time and before its absolute end; otherwise it is gone. *)
Theorem session_round_trip admin method idle_ttl absolute_ttl stepped_up now random random' new_id c j c1 d now' :
  is_uuid admin -> is_uuid new_id -> is_instant now -> is_instant (now + absolute_ttl) -> is_instant now' ->
  issue_admin_session admin method idle_ttl absolute_ttl stepped_up now random random' new_id c = (Ok j, c1) ->
  fates c1 = [] -> 0 <= d ->
  (get_admin_session (session_token j) idle_ttl now' (wait d c1)).1 =
    Ok (if (d <=? Z.max 1 (idle_ttl / 1000) * 1000) && (now' <? now + absolute_ttl)
        then Some (seen now' (record j)) else None).
Proof.
  intros Ha Hid Hn Habs Hn' Hi Hf Hd.
  assert (exists idle, _duration_ms idle_ttl = Ok idle) as [idle Hidle].
  { unfold RedisState.issue_admin_session in Hi. apply bind_ok_inv in Hi as (idle & ? & Hx & _). injection Hx as ? _. eauto. }
  apply duration_pos in Hidle as Hpos. destruct Hpos as [Hpos ->].
  destruct (issue_session_ok _ _ _ _ _ _ _ _ _ _ _ _ Hi) as (k & csrf & Hk & Hc & _ & Hrec & Hs & _ & Htime).
  assert (Hwf : record_wf (record j)).
  { rewrite Hrec. do 5 (split; [done|]). cbn. destruct stepped_up; by intros ms [= <-]. }
  assert (Hend : absolute_expires_at (record j) = now + absolute_ttl) by (by rewrite Hrec).
  unfold RedisState.get_admin_session. rewrite (bind_ok _ _ _ _ _ (session_key_run _ (wait d c1))), Hk, Hidle.
  change (idle_ms ← lift (Ok idle_ttl); rep ← eval (GET_SESSION k now' idle_ms); lift (_decode_hash rep)) with
    (rep ← eval (GET_SESSION k now' idle_ttl); lift (_decode_hash rep)).
  pose proof (find_tick _ _ _ d Hd Hs) as Hfind. unfold expired in Hfind.
  change (deadline (session_entry (record j) csrf (time (redis c) + Z.max 1 (idle_ttl / 1000) * 1000)))
    with (Some (time (redis c) + Z.max 1 (idle_ttl / 1000) * 1000)) in Hfind. cbn beta iota in Hfind. rewrite Htime in Hfind.
  destruct (Z.leb_spec d (Z.max 1 (idle_ttl / 1000) * 1000)) as [Hle|Hgt]; cbn [andb].
  - rewrite (proj2 (Z.ltb_ge _ _)) in Hfind by lia. destruct (Z.ltb_spec now' (now + absolute_ttl)) as [Hlt|Hge].
    + destruct (get_script _ _ _ _ _ now' idle_ttl Hfind Hpos ltac:(lia)) as (s' & Hr & _).
      destruct (session_fields_ascii (seen now' (record j)) csrf (seen_wf _ _ Hwf Hn') Hc) as [Hasc Hnd].
      rewrite (bind_ok _ _ _ _ _ (guarded_read_delivered _ _ (wait d c1) _ _ _ Hf Hr (decode_flat _ Hasc Hnd))).
      rewrite decide_False by done. unfold mbind, prog_bind, lift.
      by rewrite (session_record_fields _ _ (seen_wf _ _ Hwf Hn')).
    + pose proof (get_script_expired _ _ _ _ _ now' idle_ttl Hfind ltac:(lia)) as Hr.
      by rewrite (bind_ok _ _ _ _ _ (guarded_read_delivered _ _ (wait d c1) _ _ [] Hf Hr eq_refl)).
  - rewrite (proj2 (Z.ltb_lt _ _)) in Hfind by lia. destruct (absent_scripts _ _ Hfind) as (Hget & _).
    by rewrite (bind_ok _ _ _ _ _ (guarded_read_delivered _ _ (wait d c1) _ _ [] Hf (Hget now' idle_ttl) eq_refl)).
Qed.

(** ** Listing *)

(** Every key of a session holds one. *)
Definition sessions_wf (s : server) : Prop :=
  forall k e, startswith (prefix ++ str ":session:") k = true -> find s k = Some e ->
    exists r x d, e = session_entry r x d /\ record_wf r /\ is_ascii x.

Definition session_pair (p : AdminSessionRecord * text) : reply := flat (session_fields p.1 p.2).

Lemma session_entry_inj r r' x x' d d' :
  record_wf r -> record_wf r' -> session_entry r x d = session_entry r' x' d' -> r = r'.
Proof.
  intros Hr Hr' He. assert (Hh : session_fields r x = session_fields r' x').
  { pose proof (f_equal (fun e => match content e with Hash h => h | _ => [] end) He) as Hh. exact Hh. }
  apply (f_equal _session_record) in Hh. rewrite !session_record_fields in Hh by done. congruence.
Qed.

(** The sessions of [admin] under [ks]. *)
Definition listed (s : server) (admin : Z) (ks : list text) (r : AdminSessionRecord) : Prop :=
  record_wf r /\ admin_id r = admin /\ exists k x d, k ∈ ks /\ find s k = Some (session_entry r x d).

Lemma listed_cons s admin k ks r :
  listed s admin (k :: ks) r <->
  (record_wf r /\ admin_id r = admin /\ exists x d, find s k = Some (session_entry r x d)) \/ listed s admin ks r.
Proof. unfold listed. setoid_rewrite elem_of_cons. naive_solver. Qed.

Lemma list_loop_spec s admin ks :
  is_uuid admin -> (forall k e, k ∈ ks -> find s k = Some e -> exists r x d, e = session_entry r x d /\ record_wf r /\ is_ascii x) ->
  exists ps, list_loop ks (str_uuid admin) s = (Ok (session_pair <$> ps), s) /\
    Forall (fun p => record_wf p.1 /\ is_ascii p.2) ps /\ forall r, r ∈ ps.*1 <-> listed s admin ks r.
Proof.
  intros Ha. induction ks as [|k ks IH]; intros Hwf.
  - exists []. split; [done|]. split; [constructor|]. intros r. split; [by intros ?%not_elem_of_nil|].
    by intros (_ & _ & ? & ? & ? & ?%not_elem_of_nil & _).
  - destruct IH as (ps & Hl & Hps & Hin); [intros k' e Hk'; apply Hwf; by right|]. cbn [list_loop].
    destruct (find s k) as [e|] eqn:Hf.
    + destruct (Hwf k e ltac:(by left) Hf) as (r & x & d & -> & Hr & Hx).
      rewrite (bind_ok _ _ _ _ _ (hget_found s k _ _ Hf _)).
      change (dict_get (str "admin_id") (session_fields r x)) with (Some (str_uuid (admin_id r))).
      case_decide as He.
      * assert (admin_id r = admin) as Heq by (injection He as He; apply str_uuid_inj in He; [done|apply Hr|done]).
        exists ((r, x) :: ps). rewrite (bind_ok _ _ _ _ _ (hgetall_found s k _ _ Hf)), (bind_ok _ _ _ _ _ Hl).
        split; [done|]. split; [by constructor|]. intros r'. rewrite fmap_cons, elem_of_cons, Hin, listed_cons. cbn [fst].
        split; [intros [->|?]; eauto 10|]. intros [(Hr' & _ & x' & d' & Hf')|?]; [left|by right].
        assert (session_entry r x d = session_entry r' x' d') by congruence.
        symmetry. by eapply session_entry_inj.
      * exists ps. split; [done|]. split; [done|]. intros r'. rewrite Hin, listed_cons. split; [by right|].
        intros [(Hr' & Hadm & x' & d' & Hf')|?]; [|done]. exfalso. apply He. assert (session_entry r x d = session_entry r' x' d') by congruence.
        assert (r = r') as -> by (by eapply session_entry_inj). by rewrite Hadm.
    + rewrite (bind_ok _ _ _ _ _ (hget_absent s k _ Hf)), decide_False by done. exists ps. split; [done|]. split; [done|].
      intros r'. rewrite Hin, listed_cons. split; [by right|]. intros [(_ & _ & x' & d' & Hf')|?]; [|done]. congruence.
Qed.

Lemma records_of_pairs ps :
  Forall (fun p => record_wf p.1 /\ is_ascii p.2) ps -> records_of (session_pair <$> ps) = Ok ps.*1.
Proof.
  induction 1 as [|[r x] ps [Hr Hx] _ IH]; [done|]. rewrite !fmap_cons. cbn [records_of fst]. cbn [fst snd] in Hr, Hx.
  destruct (session_fields_ascii r x Hr Hx) as [Ha Hnd].
  change (session_pair (r, x)) with (flat (session_fields r x)). rewrite decode_flat by done. cbn [mbind result_bind].
  rewrite session_record_fields by done. cbn [mbind result_bind]. by rewrite IH.
Qed.

Definition newer (a b : AdminSessionRecord) : Prop := last_seen_at b <= last_seen_at a.
Lemma insert_newest_spec r l :
  StronglySorted newer l -> StronglySorted newer (insert_newest r l) /\ forall x, x ∈ insert_newest r l <-> x = r \/ x ∈ l.
Proof.
  induction 1 as [|y l Hs IH Hf]; cbn [insert_newest].
  - split; [by repeat constructor|]. intros x. set_solver.
  - destruct (Z.leb_spec (last_seen_at y) (last_seen_at r)).
    + split; [|set_solver]. constructor; [by constructor|]. constructor; [done|].
      eapply Forall_impl; [exact Hf|]. unfold newer. intros x Hx. lia.
    + destruct IH as [IH Hin]. split; [|intros x; rewrite !elem_of_cons, Hin; naive_solver].
      constructor; [done|]. apply Forall_forall. intros x Hx. apply Hin in Hx as [->|Hx]; [unfold newer; lia|].
      rewrite Forall_forall in Hf. by apply Hf.
Qed.
Lemma newest_first_spec l : StronglySorted newer (newest_first l) /\ forall x, x ∈ newest_first l <-> x ∈ l.
Proof.
  induction l as [|r l [Hs Hin]]; [split; [constructor|done]|]. destruct (insert_newest_spec r (newest_first l) Hs) as [H1 H2].
  split; [exact H1|]. intros x. cbn. fold (newest_first l). rewrite H2, Hin, elem_of_cons. done.
Qed.

(** An administrator's session list is exactly their live sessions, most
    recently used first, and looking changes nothing. *)
Theorem list_is_the_live_sessions admin now c l c' :
  is_uuid admin -> sessions_wf (redis c) ->
  list_admin_sessions prefix admin now c = (Ok l, c') ->
  redis c' = redis c /\ StronglySorted newer l /\
  forall r, r ∈ l <-> (exists k x d, startswith (prefix ++ str ":session:") k = true /\
    find (redis c) k = Some (session_entry r x d)) /\ record_wf r /\ admin_id r = admin /\ now < absolute_expires_at r.
Proof.
  intros Ha Hwf. unfold list_admin_sessions. intros (rep & c1 & Hg & Hr)%bind_ok_inv.
  apply guarded_eval_cases in Hg as [[_ ?]|(r0 & Hsc & Hok)]; [done|]. rewrite (Hok rep eq_refl) in Hsc. clear Hok.
  set (ks := (filter (fun kv => startswith (prefix ++ str ":session:") kv.1 = true /\ expired (time (redis c)) kv.2 = false)
                (keys (redis c))).*1).
  assert (Hks : forall k, k ∈ ks -> startswith (prefix ++ str ":session:") k = true).
  { intros k Hk. apply list_elem_of_fmap in Hk as (kv & -> & Hkv). by apply list_elem_of_filter in Hkv as [[? _] _]. }
  destruct (list_loop_spec (redis c) admin ks Ha) as (ps & Hl & Hps & Hin); [intros k e Hk; by apply Hwf, Hks|].
  unfold LIST_ADMIN_SESSIONS, scan, gets in Hsc. unfold mbind at 1, prog_bind at 1 in Hsc. fold ks in Hsc.
  rewrite (bind_ok _ _ _ _ _ Hl) in Hsc. injection Hsc as <- Hs. unfold mbind, prog_bind, lift in Hr.
  rewrite records_of_pairs in Hr by done. injection Hr as <- <-.
  destruct (newest_first_spec (filter (fun x => now < absolute_expires_at x) ps.*1)) as [Hsort Hel].
  split; [done|]. split; [done|]. intros r. rewrite Hel, list_elem_of_filter, Hin. unfold listed. split.
  - intros (Hn & Hr & Hadm & k & x & d & Hk & Hf). split; [|done]. exists k, x, d. split; [by apply Hks|done].
  - intros ((k & x & d & Hk & Hf) & Hr & Hadm & Hn). split; [done|]. split; [done|]. split; [done|]. exists k, x, d.
    split; [|done]. unfold find in Hf. destruct (dict_get k (keys (redis c))) as [e|] eqn:He; [|done].
    destruct (expired (time (redis c)) e) eqn:Hexp; [done|]. apply dict_get_Some_elem in He.
    apply list_elem_of_fmap. exists (k, e). split; [done|]. by apply list_elem_of_filter.
Qed.

End Sessions.

(** ** The properties on an example *)

Section Example.
#[local] Existing Instance OpaqueToken.example_hmac.
Notation ring := OpaqueToken.example_ring.

Definition random_of (n : Z) : text := to_bytes 32 (n * 987654321987654321987654321).
Definition T0 : Z := 1785000000000.
Definition MINUTE : Z := 60000.
Definition start : conn := {| redis := {| keys := []; time := 500 |}; fates := [] |}.

Definition unissued : IssuedAdminSession :=
  {| session_token := []; csrf_token := [];
     record := {| admin_id := 0; session_id := 0; mfa_method := totp; created_at := 0; last_seen_at := 0;
                  absolute_expires_at := 0; step_up_at := None |} |}.
Definition issued_run := issue_admin_session ring 1 example_prefix 77 passkey (15 * MINUTE) (60 * MINUTE) true T0
  (random_of 1) (random_of 2) 4242 start.
Definition session1 : IssuedAdminSession := match issued_run.1 with Ok j => j | Err _ => unissued end.
Definition conn1 : conn := issued_run.2.

Lemma session1_issued :
  issue_admin_session ring 1 example_prefix 77 passkey (15 * MINUTE) (60 * MINUTE) true T0
    (random_of 1) (random_of 2) 4242 start = (Ok session1, conn1).
Proof. vm_compute. reflexivity. Qed.
Lemma session1_live :
  exists k csrf d, session_key_of ring example_prefix (session_token session1) = Some k /\ is_ascii csrf /\
    sets k (Some (session_entry (record session1) csrf d)) (redis start) (redis conn1).
Proof.
  pose proof (issue_session_ok ring 1 example_prefix _ _ _ _ _ _ _ _ _ _ _ _ session1_issued) as H.
  destruct H as (k & csrf & Hk & Hc & _ & _ & Hs). eauto 10.
Qed.
Lemma uuid_small n : 0 <= n <= 2 ^ 64 -> is_uuid n.
Proof. intros Hn. unfold is_uuid. change (256 ^ Z.of_nat 16) with (2 ^ 128). lia. Qed.
Lemma instant_near d : 0 <= d <= 10 ^ 9 -> is_instant (T0 + d).
Proof. unfold is_instant, T0, MAX_MS. lia. Qed.
Lemma session1_wf : record_wf (record session1).
Proof.
  pose proof (issue_session_ok ring 1 example_prefix _ _ _ _ _ _ _ _ _ _ _ _ session1_issued) as H.
  destruct H as (_ & _ & _ & _ & _ & -> & _). pose proof (instant_near 0 ltac:(lia)) as H0. rewrite Z.add_0_r in H0.
  split; [apply (uuid_small 77); lia|]. split; [apply (uuid_small 4242); lia|]. split; [exact H0|]. split; [exact H0|].
  split; [apply (instant_near (60 * MINUTE)); unfold MINUTE; lia|]. intros ms [= <-]. exact H0.
Qed.

Definition uses1 : list use :=
  [Get (15 * MINUTE) (T0 + 1000); Pause MINUTE; Rotate (15 * MINUTE) false (T0 + MINUTE) (random_of 3) (random_of 4) 4343;
   Get (15 * MINUTE) (T0 + 2 * MINUTE); Get (15 * MINUTE) (T0 + 60 * MINUTE)].

Lemma session_never_extended_witness :
  length (follow ring 1 example_prefix uses1 (session_token session1) conn1) = 3%nat /\
  Forall (fun '(asked, r) => admin_id r = 77 /\ mfa_method r = passkey /\
                             absolute_expires_at r = T0 + 60 * MINUTE /\ asked < T0 + 60 * MINUTE)
    (follow ring 1 example_prefix uses1 (session_token session1) conn1).
Proof.
  split; [vm_compute; reflexivity|].
  apply (session_never_extended ring 1 example_prefix 77 passkey (15 * MINUTE) (60 * MINUTE) true T0
    (random_of 1) (random_of 2) 4242 start session1 conn1 uses1);
    [apply uuid_small; lia|apply uuid_small; lia|split; vm_compute; congruence|split; vm_compute; congruence|exact session1_issued|].
  repeat constructor; try (apply uuid_small; lia); vm_compute; congruence.
Defined.

Definition rotated_run := rotate_admin_session ring 1 example_prefix (session_token session1) (15 * MINUTE) false
  (T0 + MINUTE) (random_of 3) (random_of 4) 4343 conn1.
Definition session2 : IssuedAdminSession := match rotated_run.1 with Ok (Some j) => j | _ => unissued end.

Lemma rotation_retires_the_token_witness :
  identity_of (record session2) = identity_of (record session1) /\
  follow ring 1 example_prefix [Get (15 * MINUTE) (T0 + 2 * MINUTE)] (session_token session1) rotated_run.2 = [].
Proof.
  destruct session1_live as (k & csrf & d & Hk & Hc & Hf & _).
  destruct (rotation_retires_the_token ring 1 example_prefix (identity_of (record session1)) (session_token session1) k
    (15 * MINUTE) false (T0 + MINUTE) (random_of 3) (random_of 4) 4343 conn1 session2 rotated_run.2
    [Get (15 * MINUTE) (T0 + 2 * MINUTE)]) as (Hi & _ & Hfol).
  - exact Hk.
  - right. exists (record session1), csrf, d. split; [exact Hf|]. split; [|split; [exact Hc|reflexivity]].
    exact session1_wf.
  - split; vm_compute; congruence.
  - apply uuid_small. lia.
  - vm_compute. reflexivity.
  - repeat constructor; vm_compute; congruence.
  - split; [exact Hi|exact Hfol].
Defined.

Definition csrf_run := validate_and_rotate_csrf ring 1 example_prefix (session_token session1) (csrf_token session1)
  (15 * MINUTE) (T0 + MINUTE) (random_of 5) conn1.
Definition csrf2 : text := match csrf_run.1 with Ok (Some x) => x | _ => [] end.
Definition csrf_digest_of (t : text) : OpaqueToken.OpaqueTokenDigest :=
  match OpaqueToken.digest_opaque_token t ring (str "admin-csrf") with
  | Ok d => d | Err _ => {| OpaqueToken.key_version := 0; OpaqueToken.value := [] |} end.

Lemma csrf_token_single_use_witness :
  csrf_run.1 = Ok (Some csrf2) /\
  forall idle_ttl2 now2 random2 y c'',
    validate_and_rotate_csrf ring 1 example_prefix (session_token session1) (csrf_token session1) idle_ttl2 now2 random2
      csrf_run.2 <> (Ok (Some y), c'').
Proof.
  split; [vm_compute; reflexivity|].
  destruct session1_live as (k & csrf & d & Hk & Hc & Hs & _).
  apply (csrf_token_single_use ring 1 example_prefix (session_token session1) k (record session1) csrf d (csrf_token session1) (15 * MINUTE) (T0 + MINUTE) (random_of 5) conn1 csrf2
    csrf_run.2 (csrf_digest_of (csrf_token session1)) (csrf_digest_of csrf2)).
  - exact Hk.
  - exact Hs.
  - vm_compute. reflexivity.
  - vm_compute. reflexivity.
  - vm_compute. reflexivity.
  - vm_compute. congruence.
Defined.

Definition preauth_run := issue_preauth ring 1 example_prefix 77 (str "login") (str "192.0.2.7") 300 T0 (random_of 6) start.
Definition challenge1 : PreAuthChallenge :=
  match preauth_run.1 with Ok ch => ch | Err _ => {| token := []; expires_in_seconds := 0 |} end.

(** Another context is refused and the challenge stays usable; the answer of
    the first good attempt is lost, and with it the challenge. *)
Definition flaky : conn := {| redis := redis preauth_run.2; fates := [Delivered; AnswerLost] |}.
Definition tries : list (Z * text * text) :=
  [(0, str "login", str "198.51.100.1"); (1000, str "login", str "192.0.2.7"); (0, str "login", str "192.0.2.7")].

Lemma challenge_used_at_most_once_witness :
  (length (omap id (consumes ring 1 example_prefix tries (token challenge1) preauth_run.2)) <= 1)%nat /\
  consumes ring 1 example_prefix tries (token challenge1) preauth_run.2 =
    [None; Some {| consumed_admin := 77; consumed_purpose := str "login" |}; None] /\
  consumes ring 1 example_prefix tries (token challenge1) flaky = [None; None; None].
Proof.
  split; [|split; vm_compute; reflexivity].
  apply (challenge_used_at_most_once ring 1 example_prefix tries (token challenge1) preauth_run.2).
  repeat constructor; vm_compute; congruence.
Defined.

Lemma challenge_round_trip_witness :
  (consume_preauth ring 1 example_prefix (token challenge1) (str "login") (str "192.0.2.7") (wait 300000 preauth_run.2)).1 =
    Ok (Some {| consumed_admin := 77; consumed_purpose := str "login" |}).
Proof.
  apply (challenge_round_trip ring 1 example_prefix 77 (str "login") (str "192.0.2.7") 300 T0 (random_of 6) start
    challenge1 preauth_run.2 300000); [apply uuid_small; lia|vm_compute; reflexivity|vm_compute; reflexivity|lia].
Defined.

Lemma session_round_trip_witness :
  (get_admin_session ring example_prefix (session_token session1) (15 * MINUTE) (T0 + 60 * MINUTE - 1) (wait (15 * MINUTE) conn1)).1 =
    Ok (Some (seen (T0 + 60 * MINUTE - 1) (record session1))).
Proof.
  apply (session_round_trip ring 1 example_prefix 77 passkey (15 * MINUTE) (60 * MINUTE) true T0
    (random_of 1) (random_of 2) 4242 start session1 conn1 (15 * MINUTE) (T0 + 60 * MINUTE - 1));
    [apply uuid_small; lia|apply uuid_small; lia|split; vm_compute; congruence..|exact session1_issued|vm_compute; reflexivity|].
  vm_compute. congruence.
Defined.

Lemma list_is_the_live_sessions_witness :
  exists l, list_admin_sessions example_prefix 77 (T0 + 1000) conn1 = (Ok l, conn1) /\ record session1 ∈ l /\ length l = 1%nat.
Proof.
  exists [record session1]. split; [vm_compute; reflexivity|]. split; [|reflexivity].
  destruct session1_live as (k & csrf & d & Hk & Hc & Hs & Ho & _). pose proof session1_wf as Hwf.
  destruct (list_is_the_live_sessions example_prefix 77 (T0 + 1000) conn1 [record session1] conn1) as (_ & _ & Hin).
  - apply uuid_small. lia.
  - intros k' e _ Hf. destruct (decide (k' = k)) as [->|Hne].
    + exists (record session1), csrf, d. split; [|split; [exact session1_wf|exact Hc]].
      exact (f_equal (fun o => default e o) (eq_trans (eq_sym Hf) Hs)).
    + rewrite Ho in Hf by done. discriminate.
  - vm_compute. reflexivity.
  - apply Hin. split; [|split; [exact Hwf|split; [reflexivity|vm_compute; congruence]]].
    exists k, csrf, d. split; [|exact Hs].
    exact (session_key_prefix ring example_prefix _ _ Hk).
Defined.
End Example.

End AdminSessions.
