(* ===== verification/XrayCredential.v ===== *)
(** * Envelope encryption of Xray credentials

    Models [nebula_api/provisioning/xray_credentials.py].  AES-256-GCM is the
    [cryptography] package's: it is the parameter [AEAD], with what GCM
    documents.  A UUID is an integer below [2 ^ 128], bytes are text. *)

From S2P Require Import Prelude PyText PyBytes ApiStore.
Import Db.

Module XrayCredential.

(** ** The module *)

Definition XRAY_CLIENT_UUID_BYTES : nat := 16.
Definition XRAY_NONCE_BYTES : nat := 12.
Definition XRAY_ENCRYPTION_KEY_BYTES : nat := 32.
Definition _AES_GCM_TAG_BYTES : nat := 16.
Definition _XRAY_AAD_PREFIX : text := str "nebula:xray-client-credential:v1" ++ [chr 0].
Definition _MAXIMUM_KEY_VERSION : Z := 2147483647.

Definition _valid_key_version (v : Z) : bool := (1 <=? v) && (v <=? _MAXIMUM_KEY_VERSION).

(** AES-256-GCM: what was encrypted decrypts under the same key, nonce and
    associated data; only a ciphertext that encryption gives decrypts; the
    tag adds sixteen bytes. *)
Class AEAD := {
  aead_encrypt : text -> text -> text -> text -> text;
  aead_decrypt : text -> text -> text -> text -> option text;
  aead_round_trip k n p a : aead_decrypt k n (aead_encrypt k n p a) a = Some p;
  aead_authentic k n c a p : aead_decrypt k n c a = Some p -> c = aead_encrypt k n p a;
  aead_length k n p a : length (aead_encrypt k n p a) = (length p + _AES_GCM_TAG_BYTES)%nat;
}.

Inductive exn := ValueError | XrayCredentialEncryptionError | RuntimeError.

Section Envelope.
Context `{AEAD}.

(** [EncryptedXrayCredential.__init__] *)
Definition EncryptedXrayCredential (version : Z) (nonce_ ct : text) : result exn Envelope :=
  if negb (_valid_key_version version) then Err ValueError
  else if negb (Nat.eqb (length nonce_) XRAY_NONCE_BYTES) then Err ValueError
  else if Nat.ltb (length ct) (XRAY_CLIENT_UUID_BYTES + _AES_GCM_TAG_BYTES) then Err ValueError
  else Ok {| key_version := version; nonce := nonce_; ciphertext := ct |}.

Definition _xray_encryption_key (ring : list (Z * text)) (version : Z) (bad : exn) : result exn text :=
  if negb (_valid_key_version version) then Err bad
  else match dict_get version ring with
       | None => Err bad
       | Some key => if Nat.eqb (length key) XRAY_ENCRYPTION_KEY_BYTES then Ok key else Err bad
       end.

Definition _xray_aad (device_id credential_id version : Z) : text :=
  _XRAY_AAD_PREFIX ++ to_bytes 4 version ++ to_bytes 16 device_id ++ to_bytes 16 credential_id.

(** [random] is what [secrets.token_bytes(12)] returned. *)
Definition encrypt_xray_credential (client_uuid device_id credential_id version : Z)
    (ring : list (Z * text)) (random : text) : result exn Envelope :=
  key ← _xray_encryption_key ring version ValueError;
  if negb (Nat.eqb (length random) XRAY_NONCE_BYTES) then Err RuntimeError
  else EncryptedXrayCredential version random
         (aead_encrypt key random (to_bytes 16 client_uuid) (_xray_aad device_id credential_id version)).

Definition decrypt_xray_credential (env : Envelope) (device_id credential_id : Z)
    (ring : list (Z * text)) : result exn Z :=
  key ← _xray_encryption_key ring (key_version env) XrayCredentialEncryptionError;
  match aead_decrypt key (nonce env) (ciphertext env)
          (_xray_aad device_id credential_id (key_version env)) with
  | None => Err XrayCredentialEncryptionError
  | Some plaintext =>
      if Nat.eqb (length plaintext) XRAY_CLIENT_UUID_BYTES then Ok (from_bytes plaintext)
      else Err XrayCredentialEncryptionError
  end.

Lemma encryption_key_ok ring version bad key :
  _xray_encryption_key ring version bad = Ok key ->
  _valid_key_version version = true /\ length key = XRAY_ENCRYPTION_KEY_BYTES /\
  forall bad', _xray_encryption_key ring version bad' = Ok key.
Proof.
  unfold _xray_encryption_key. destruct (_valid_key_version version); [|done]. cbn.
  destruct (dict_get version ring) as [k|]; [|done].
  destruct (Nat.eqb (length k) _) eqn:Hl; [|done]. intros. simplify_eq.
  apply Nat.eqb_eq in Hl. done.
Qed.

(** The associated data names one device, one credential and one version. *)
Lemma xray_aad_inj d c v d' c' v' :
  is_uuid d -> is_uuid c -> is_uuid d' -> is_uuid c' ->
  _valid_key_version v = true -> _valid_key_version v' = true ->
  _xray_aad d c v = _xray_aad d' c' v' -> d = d' /\ c = c' /\ v = v'.
Proof.
  intros Hd Hc Hd' Hc' Hv Hv' Heq. unfold _xray_aad in Heq. apply app_inv_head in Heq.
  apply app_inj_1 in Heq as [E1 Heq]; [|by rewrite !to_bytes_length].
  apply app_inj_1 in Heq as [E2 E3]; [|by rewrite !to_bytes_length].
  unfold _valid_key_version, _MAXIMUM_KEY_VERSION in *. boolP.
  apply to_bytes_inj in E1; [|lia..]. apply to_bytes_inj in E2; [|done..].
  apply to_bytes_inj in E3; done.
Qed.

Lemma encrypt_ok u d c v ring random env :
  encrypt_xray_credential u d c v ring random = Ok env ->
  key_version env = v /\ nonce env = random /\ _valid_key_version v = true /\
  exists key, _xray_encryption_key ring v XrayCredentialEncryptionError = Ok key /\
    ciphertext env = aead_encrypt key random (to_bytes 16 u) (_xray_aad d c v) /\
    EncryptedXrayCredential v random (ciphertext env) = Ok env.
Proof.
  unfold encrypt_xray_credential.
  destruct (_xray_encryption_key ring v ValueError) as [key|] eqn:Hk; [|done]. cbn.
  destruct (encryption_key_ok _ _ _ _ Hk) as (Hv & _ & Hk').
  destruct (Nat.eqb (length random) _) eqn:Hr; [|done]. cbn [negb]. intros He. pose proof He as He'.
  unfold EncryptedXrayCredential in He'. rewrite Hv, Hr in He'. cbn [negb] in He'.
  destruct (Nat.ltb _ _); [done|]. injection He' as <-. cbn. eauto 10.
Qed.

Lemma encrypt_decrypt u d c v ring random env :
  is_uuid u -> encrypt_xray_credential u d c v ring random = Ok env ->
  decrypt_xray_credential env d c ring = Ok u.
Proof.
  intros Hu (Hv & Hn & _ & key & Hk & Hct & _)%encrypt_ok. unfold decrypt_xray_credential.
  rewrite Hv, Hk, Hn, Hct. cbn. rewrite aead_round_trip, to_bytes_length. cbn. by rewrite from_to_bytes.
Qed.

(** An Xray client UUID survives its envelope, and the envelope is
    bound to its place.  Whatever encrypts under a key ring decrypts under
    any ring holding the same key for that version to the same UUID; and if
    the envelope decrypts as another device's or another credential's, two
    different associated data gave one AES-GCM ciphertext. *)
Theorem xray_envelope_round_trip u d c v ring random env :
  is_uuid u -> is_uuid d -> is_uuid c ->
  encrypt_xray_credential u d c v ring random = Ok env ->
  key_version env = v /\
  decrypt_xray_credential env d c ring = Ok u /\
  forall d' c' u', is_uuid d' -> is_uuid c' -> (d', c') <> (d, c) ->
    decrypt_xray_credential env d' c' ring = Ok u' ->
    exists key p' a', a' <> _xray_aad d c v /\
      aead_encrypt key (nonce env) (to_bytes 16 u) (_xray_aad d c v)
        = aead_encrypt key (nonce env) p' a'.
Proof.
  intros Hu Hd Hc Henc. split; [by apply encrypt_ok in Henc as []|].
  split; [by eapply encrypt_decrypt|]. intros d' c' u' Hd' Hc' Hne.
  apply encrypt_ok in Henc as (Hv & Hn & Hval & key & Hk & Hct & _).
  unfold decrypt_xray_credential. rewrite Hv, Hk, Hn. cbn [mbind result_bind]. intros Hdec.
  destruct (aead_decrypt _ _ _ _) as [p'|] eqn:Hp; [|done].
  apply aead_authentic in Hp. exists key, p', (_xray_aad d' c' v). split; [|congruence].
  intros Haad. apply xray_aad_inj in Haad as (-> & -> & _); done.
Qed.

(** What the code makes of a credential row: [int(row.key_version or 0)],
    [row.nonce or b""], [row.ciphertext or b""], then decrypt. *)
Definition client_uuid_of (ring : list (Z * text)) (c : DeviceProtocolCredential) : option Z :=
  match envelope c with
  | None => None
  | Some e =>
      match EncryptedXrayCredential (key_version e) (nonce e) (ciphertext e) with
      | Err _ => None
      | Ok e' => match decrypt_xray_credential e' (cred_device c) (cred_id c) ring with
                 | Ok u => Some u
                 | Err _ => None
                 end
      end
  end.

(** A credential made with an envelope gives its UUID back. *)
Lemma client_uuid_encrypted u v ring random env c :
  is_uuid u -> encrypt_xray_credential u (cred_device c) (cred_id c) v ring random = Ok env ->
  envelope c = Some env -> client_uuid_of ring c = Some u.
Proof.
  intros Hu Henc He. unfold client_uuid_of. rewrite He.
  pose proof (encrypt_decrypt _ _ _ _ _ _ _ Hu Henc) as Hd.
  apply encrypt_ok in Henc as (-> & -> & _ & key & _ & _ & ->). by rewrite Hd.
Qed.
End Envelope.

(** ** An instance, for examples: the key, nonce and associated data are not
    mixed in, and the tag is sixteen zero bytes. *)

Definition tag0 : text := replicate 16 (chr 0).
Definition plain_decrypt (c : text) : option text :=
  let n := (length c - 16)%nat in
  if decide (drop n c = tag0) then Some (take n c) else None.

Lemma plain_round_trip p : plain_decrypt (p ++ tag0) = Some p.
Proof.
  unfold plain_decrypt. replace (length (p ++ tag0) - 16)%nat with (length p)
    by (rewrite length_app; cbn; lia).
  by rewrite drop_app_length, decide_True, take_app_length.
Qed.

Lemma plain_authentic c p : plain_decrypt c = Some p -> c = p ++ tag0.
Proof.
  unfold plain_decrypt. case_decide as Ht; [|done]. intros [= <-]. rewrite <- Ht.
  by rewrite take_drop.
Qed.

Definition plain_aead : AEAD := {|
  aead_encrypt k n p a := p ++ tag0;
  aead_decrypt k n c a := plain_decrypt c;
  aead_round_trip k n p a := plain_round_trip p;
  aead_authentic k n c a p := plain_authentic c p;
  aead_length k n p a := length_app p tag0;
|}.

Definition example_ring : list (Z * text) := [(1, replicate 32 "k"%char)].
Definition example_envelope : Envelope :=
  {| key_version := 1; nonce := replicate 12 "n"%char; ciphertext := to_bytes 16 99 ++ tag0 |}.

Lemma xray_envelope_round_trip_witness :
  @decrypt_xray_credential plain_aead example_envelope 7 8 example_ring = Ok 99.
Proof.
  apply (@xray_envelope_round_trip plain_aead 99 7 8 1 example_ring (replicate 12 "n"%char) example_envelope).
  - by vm_compute.
  - by vm_compute.
  - by vm_compute.
  - vm_compute. reflexivity.
Defined.

End XrayCredential.
