(* ===== verification/Mfa.v ===== *)
(** * Second factors

    Models [nebula_api/auth/mfa.py]: one-time passwords, encrypted seeds and
    recovery codes.  HMAC-SHA-1 is the class [HMAC1], AES-GCM the class [AEAD];
    random bytes are arguments and [now] is what the clock read, in
    milliseconds. *)

From S2P Require Import Prelude PyText PyBytes PyTime ApiStore OpaqueToken XrayCredential.
Import Db.

Module Mfa.
Import XrayCredential.

Class HMAC1 := {
  hmac_sha1 : text -> text -> text;
  hmac_sha1_length k m : length (hmac_sha1 k m) = 20%nat;
}.

Inductive exn := ValueError | RuntimeError | MfaEncryptionError.
#[global] Instance exn_eq_dec : EqDecision exn.
Proof. solve_decision. Defined.

Definition TOTP_DIGITS : nat := 6.
Definition TOTP_PERIOD_SECONDS : Z := 30.
Definition MFA_SEED_BYTES : nat := 20.
Definition MFA_NONCE_BYTES : nat := 12.
Definition MFA_ENCRYPTION_KEY_BYTES : nat := 32.
Definition DEFAULT_RECOVERY_CODE_COUNT : nat := 10.
Definition _AES_GCM_TAG_BYTES : nat := 16.
Definition _MAXIMUM_MFA_SEED_BYTES : nat := 64.
Definition _MAXIMUM_RECOVERY_CODE_COUNT : nat := 20.
Definition _MFA_AAD_PREFIX : text := str "nebula:admin-mfa-seed:v1" ++ [chr 0].
Definition _RECOVERY_CODE_NAMESPACE : text := str "mfa-recovery".

Definition _valid_key_version (v : Z) : bool := (1 <=? v) && (v <=? 2147483647).
Definition valid_seed (seed : text) : bool :=
  Nat.leb MFA_SEED_BYTES (length seed) && Nat.leb (length seed) _MAXIMUM_MFA_SEED_BYTES.
Definition _validate_mfa_seed (seed : text) : result exn unit := if valid_seed seed then Ok tt else Err ValueError.

Definition generate_mfa_seed (random : text) : result exn text :=
  if Nat.eqb (length random) MFA_SEED_BYTES then Ok random else Err RuntimeError.

(** ** One-time passwords *)

Section Totp.
Context `{HMAC1}.

(** [digest[i]] *)
Definition byte_at (i : nat) (b : text) : Z := match b !! i with Some c => code c | None => 0 end.

Definition truncate (digest : text) : Z :=
  let offset := Z.to_nat (Z.land (byte_at 19 digest) 15) in
  Z.land (from_bytes (take 4 (drop offset digest))) 2147483647.

Definition totp_at_counter (seed : text) (counter : Z) : result exn text :=
  _ ← _validate_mfa_seed seed;
  if negb ((0 <=? counter) && (counter <? 2 ^ 64)) then Err ValueError
  else Ok (PyTime.zpad TOTP_DIGITS (truncate (hmac_sha1 seed (to_bytes 8 counter)) mod 10 ^ 6)).

Definition totp_pattern (t : text) : bool := Nat.eqb (length t) 6 && forallb OpaqueToken.is_digit t.

Definition _totp_counter (now : Z) : result exn Z :=
  let timestamp := Z.quot now 1000 in
  if timestamp <? 0 then Err ValueError else Ok (timestamp / TOTP_PERIOD_SECONDS).

(** [for counter in range(counter, counter - n, -1)] *)
Fixpoint totp_search (seed candidate : text) (counter : Z) (n : nat) : result exn (option Z) :=
  match n with
  | O => Ok None
  | S n' =>
      t ← totp_at_counter seed counter;
      if bool_decide (t = candidate) then Ok (Some counter) else totp_search seed candidate (counter - 1) n'
  end.

Definition verify_totp (seed candidate : text) (now skew : Z) : result exn (option Z) :=
  _ ← _validate_mfa_seed seed;
  if negb ((0 <=? skew) && (skew <=? 10)) then Err ValueError
  else if negb (totp_pattern candidate) then Ok None
  else
    current_counter ← _totp_counter now;
    let minimum_counter := Z.max 0 (current_counter - skew) in
    let maximum_counter := current_counter + skew in
    totp_search seed candidate maximum_counter (Z.to_nat (maximum_counter - minimum_counter + 1)).

Lemma totp_search_spec seed candidate n counter :
  valid_seed seed = true -> Z.of_nat n <= counter + 1 -> counter < 2 ^ 64 ->
  match totp_search seed candidate counter n with
  | Ok (Some c) => counter - Z.of_nat n < c <= counter /\ totp_at_counter seed c = Ok candidate /\
                   forall d, c < d <= counter -> totp_at_counter seed d <> Ok candidate
  | Ok None => forall d, counter - Z.of_nat n < d <= counter -> totp_at_counter seed d <> Ok candidate
  | Err _ => False
  end.
Proof.
  intros Hs. revert counter. induction n as [|n IH]; intros counter Hn Hc; [intros d ?; lia|]. cbn [totp_search].
  destruct (totp_at_counter seed counter) as [t|e] eqn:Ht.
  2: { unfold totp_at_counter, _validate_mfa_seed in Ht. rewrite Hs in Ht. cbn in Ht.
       rewrite (proj2 (Z.leb_le 0 counter)), (proj2 (Z.ltb_lt counter (2 ^ 64))) in Ht by lia. done. }
  cbn. case_bool_decide as Heq.
  - subst t. split; [lia|]. split; [done|]. intros d ?. lia.
  - specialize (IH (counter - 1) ltac:(lia) ltac:(lia)).
    assert (forall d, d = counter -> totp_at_counter seed d <> Ok candidate) as Hhere by (intros d ->; congruence).
    destruct (totp_search seed candidate (counter - 1) n) as [[c|]|]; [|intros d Hd|done].
    + destruct IH as (Hr & Hok & Hmax). split; [lia|]. split; [done|]. intros d Hd.
      destruct (Z.eq_dec d counter); [by apply Hhere|]. apply Hmax. lia.
    + destruct (Z.eq_dec d counter); [by apply Hhere|]. apply IH. lia.
Qed.

Lemma totp_counter_bounds seed c t : totp_at_counter seed c = Ok t -> 0 <= c < 2 ^ 64.
Proof.
  unfold totp_at_counter, _validate_mfa_seed. destruct (valid_seed seed); [|done]. cbn [mbind result_bind].
  destruct ((0 <=? c) && (c <? 2 ^ 64)) eqn:Hc; [|done]. boolP. lia.
Qed.
(** The code is the one of the counter it is accepted for. *)
Lemma verify_totp_sound seed candidate now skew c :
  verify_totp seed candidate now skew = Ok (Some c) -> totp_at_counter seed c = Ok candidate /\ 0 <= c.
Proof.
  unfold verify_totp. destruct (_validate_mfa_seed seed); [|done]. cbn [mbind result_bind].
  destruct (negb _); [done|]. destruct (negb _); [done|]. destruct (_totp_counter now) as [cur|]; [|done]. cbn [mbind result_bind].
  generalize (cur + skew) (Z.to_nat (cur + skew - Z.max 0 (cur - skew) + 1)). intros counter n. revert counter.
  induction n as [|n IH]; intros counter; [done|]. cbn [totp_search].
  destruct (totp_at_counter seed counter) as [t|] eqn:Ht; [|done]. cbn [mbind result_bind].
  case_bool_decide; [|apply IH]. intros [= <-]. subst t. split; [done|]. apply totp_counter_bounds in Ht. lia.
Qed.

(** The counters a code may be for. *)
Definition in_window (now skew c : Z) : Prop :=
  let current := Z.quot now 1000 / TOTP_PERIOD_SECONDS in Z.max 0 (current - skew) <= c <= current + skew.

(** A code is accepted exactly when it is six digits and some counter within the
    allowed skew gives it; the answer is the latest such counter. *)
Theorem totp_accepts_the_window seed candidate now skew :
  valid_seed seed = true -> 0 <= skew <= 10 -> 0 <= now < 2 ^ 64 ->
  exists o, verify_totp seed candidate now skew = Ok o /\
    match o with
    | Some c => totp_pattern candidate = true /\ in_window now skew c /\ totp_at_counter seed c = Ok candidate /\
                forall d, in_window now skew d -> totp_at_counter seed d = Ok candidate -> d <= c
    | None => totp_pattern candidate = true -> forall d, in_window now skew d -> totp_at_counter seed d <> Ok candidate
    end.
Proof.
  intros Hs Hk Hn. unfold verify_totp, _validate_mfa_seed, in_window. rewrite Hs. cbn [mbind result_bind].
  rewrite (proj2 (Z.leb_le 0 skew)), (proj2 (Z.leb_le skew 10)) by lia. cbn [andb negb].
  destruct (totp_pattern candidate) eqn:Hp; [|by exists None]. cbn [negb]. unfold _totp_counter.
  assert (0 <= Z.quot now 1000 <= now) as Hq.
  { rewrite Z.quot_div_nonneg by lia. split; [apply Z.div_pos; lia|]. apply Z.div_le_upper_bound; lia. }
  rewrite (proj2 (Z.ltb_ge (Z.quot now 1000) 0)) by lia. cbn [mbind result_bind].
  set (cur := Z.quot now 1000 / TOTP_PERIOD_SECONDS).
  assert (0 <= cur /\ cur + 10 < 2 ^ 64) as [H0 H1].
  { subst cur. unfold TOTP_PERIOD_SECONDS. split; [apply Z.div_pos; lia|].
    pose proof (Z.mul_div_le (Z.quot now 1000) 30 ltac:(lia)). lia. }
  pose proof (totp_search_spec seed candidate (Z.to_nat (cur + skew - Z.max 0 (cur - skew) + 1)) (cur + skew) Hs ltac:(lia) ltac:(lia)) as Hr.
  destruct (totp_search _ _ _ _) as [[c|]|]; [| |done].
  - exists (Some c). destruct Hr as (Hin & Hok & Hmax). split; [done|]. split; [done|]. split; [lia|]. split; [done|].
    intros d Hd Hdk. destruct (Z.le_gt_cases d c); [done|]. exfalso. apply (Hmax d); [lia|done].
  - exists None. split; [done|]. intros _ d Hd. apply Hr. lia.
Qed.

End Totp.

(** ** Encrypted seeds *)

Section Seeds.
Context `{AEAD}.

Record EncryptedMfaSeed := { seed_version : Z; seed_nonce : text; seed_ciphertext : text }.

(** [EncryptedMfaSeed.__init__] *)
Definition make_envelope (version : Z) (nonce_ ct : text) : result exn EncryptedMfaSeed :=
  if negb (_valid_key_version version) then Err ValueError
  else if negb (Nat.eqb (length nonce_) MFA_NONCE_BYTES) then Err ValueError
  else if Nat.ltb (length ct) (MFA_SEED_BYTES + _AES_GCM_TAG_BYTES) then Err ValueError
  else Ok {| seed_version := version; seed_nonce := nonce_; seed_ciphertext := ct |}.

Definition _mfa_encryption_key (ring : list (Z * text)) (version : Z) (decrypting : bool) : result exn text :=
  let bad := if decrypting then MfaEncryptionError else ValueError in
  if negb (_valid_key_version version) then Err bad
  else match dict_get version ring with
       | None => Err bad
       | Some key => if Nat.eqb (length key) MFA_ENCRYPTION_KEY_BYTES then Ok key else Err bad
       end.

Definition _mfa_aad (admin credential version : Z) : text :=
  _MFA_AAD_PREFIX ++ to_bytes 4 version ++ to_bytes 16 admin ++ to_bytes 16 credential.

(** [random] is what the random source returned. *)
Definition encrypt_mfa_seed (seed : text) (admin credential version : Z) (ring : list (Z * text)) (random : text)
  : result exn EncryptedMfaSeed :=
  _ ← _validate_mfa_seed seed;
  key ← _mfa_encryption_key ring version false;
  if negb (Nat.eqb (length random) MFA_NONCE_BYTES) then Err RuntimeError
  else make_envelope version random (aead_encrypt key random seed (_mfa_aad admin credential version)).

Definition decrypt_mfa_seed (env : EncryptedMfaSeed) (admin credential : Z) (ring : list (Z * text)) : result exn text :=
  key ← _mfa_encryption_key ring (seed_version env) true;
  match aead_decrypt key (seed_nonce env) (seed_ciphertext env) (_mfa_aad admin credential (seed_version env)) with
  | None => Err MfaEncryptionError
  | Some seed => if valid_seed seed then Ok seed else Err MfaEncryptionError
  end.

Lemma mfa_key_ok ring version b key :
  _mfa_encryption_key ring version b = Ok key ->
  _valid_key_version version = true /\ forall b', _mfa_encryption_key ring version b' = Ok key.
Proof.
  unfold _mfa_encryption_key. destruct (_valid_key_version version); [|done]. cbn.
  destruct (dict_get version ring) as [k|]; [|done]. by destruct (Nat.eqb (length k) _).
Qed.

Lemma mfa_aad_inj a c v a' c' :
  is_uuid a -> is_uuid c -> is_uuid a' -> is_uuid c' -> _mfa_aad a c v = _mfa_aad a' c' v -> a = a' /\ c = c'.
Proof.
  intros Ha Hc Ha' Hc' Heq. unfold _mfa_aad in Heq. apply app_inv_head, app_inv_head in Heq.
  apply app_inj_1 in Heq as [E1 E2]; [|by rewrite !to_bytes_length].
  apply to_bytes_inj in E1; [|done..]. by apply to_bytes_inj in E2.
Qed.

Lemma encrypt_seed_ok seed a c v ring random env :
  encrypt_mfa_seed seed a c v ring random = Ok env ->
  valid_seed seed = true /\ seed_version env = v /\ seed_nonce env = random /\
  make_envelope v random (seed_ciphertext env) = Ok env /\
  exists key, _mfa_encryption_key ring v true = Ok key /\
    seed_ciphertext env = aead_encrypt key random seed (_mfa_aad a c v).
Proof.
  unfold encrypt_mfa_seed, _validate_mfa_seed. destruct (valid_seed seed) eqn:Hs; [|done]. cbn [mbind result_bind].
  destruct (_mfa_encryption_key ring v false) as [key|] eqn:Hk; [|done]. cbn [mbind result_bind].
  destruct (mfa_key_ok _ _ _ _ Hk) as [Hv Hk']. destruct (Nat.eqb (length random) _) eqn:Hr; [|done]. cbn [negb].
  intros He. pose proof He as He'. unfold make_envelope in He'. rewrite Hv, Hr in He'. cbn [negb] in He'.
  destruct (Nat.ltb _ _); [done|]. injection He' as <-. cbn in *. repeat split; eauto.
Qed.

(** A seed survives its envelope, and the envelope is bound to its place: it
    decrypts to the seed for the administrator and credential it was made for;
    decrypting as another's takes two associated data with one ciphertext. *)
Theorem mfa_seed_round_trip seed a c v ring random env :
  is_uuid a -> is_uuid c -> encrypt_mfa_seed seed a c v ring random = Ok env ->
  decrypt_mfa_seed env a c ring = Ok seed /\
  forall a' c' seed', is_uuid a' -> is_uuid c' -> (a', c') <> (a, c) -> decrypt_mfa_seed env a' c' ring = Ok seed' ->
    exists key aad', aad' <> _mfa_aad a c v /\
      aead_encrypt key random seed (_mfa_aad a c v) = aead_encrypt key random seed' aad'.
Proof.
  intros Ha Hc (Hs & Hv & Hn & _ & key & Hk & Hct)%encrypt_seed_ok. unfold decrypt_mfa_seed.
  rewrite Hv, Hn, Hk, Hct. cbn [mbind result_bind]. split; [by rewrite aead_round_trip, Hs|].
  intros a' c' seed' Ha' Hc' Hne Hd. destruct (aead_decrypt _ _ _ _) as [p|] eqn:Hp; [|done].
  destruct (valid_seed p); [|done]. injection Hd as ->. apply aead_authentic in Hp.
  exists key, (_mfa_aad a' c' v). split; [|done]. intros Haad. apply mfa_aad_inj in Haad as [-> ->]; done.
Qed.

End Seeds.

(** ** Recovery codes *)

Section Recovery.
Context `{HMAC}.

(** The plaintext codes and their digests; [take_plaintext_codes] is called once
    by each caller, so the codes are a field. *)
Record RecoveryCodeBatch := { plaintext_codes : list text; digests : list OpaqueToken.OpaqueTokenDigest }.

(** [RecoveryCodeBatch.__init__] *)
Definition make_batch (codes : list text) (ds : list OpaqueToken.OpaqueTokenDigest) : result exn RecoveryCodeBatch :=
  if bool_decide (codes = []) || negb (Nat.eqb (length codes) (length ds)) then Err ValueError
  else Ok {| plaintext_codes := codes; digests := ds |}.

Definition of_token {A} (r : result OpaqueToken.exn A) : result exn A :=
  match r with Ok a => Ok a | Err OpaqueToken.RuntimeError => Err RuntimeError | Err _ => Err ValueError end.

(** [random n] is what the random source returned at the [n]-th call. *)
Fixpoint recovery_loop (ring : list (Z * text)) (version : Z) (count attempts : nat) (random : nat -> text) (n : nat)
    (codes : list text) (ds : list OpaqueToken.OpaqueTokenDigest) : result exn RecoveryCodeBatch :=
  match attempts with
  | O => Err RuntimeError
  | S attempts' =>
      c ← of_token (OpaqueToken.issue_opaque_token version (random n));
      if decide (c ∈ codes) then recovery_loop ring version count attempts' random (S n) codes ds
      else
        d ← of_token (OpaqueToken.digest_opaque_token c ring _RECOVERY_CODE_NAMESPACE);
        let codes' := codes ++ [c] in
        let ds' := ds ++ [d] in
        if Nat.eqb (length codes') count then make_batch codes' ds'
        else recovery_loop ring version count attempts' random (S n) codes' ds'
  end.

Definition generate_recovery_codes (ring : list (Z * text)) (version : Z) (count : nat) (random : nat -> text)
  : result exn RecoveryCodeBatch :=
  if negb (Nat.leb 1 count && Nat.leb count _MAXIMUM_RECOVERY_CODE_COUNT) then Err ValueError
  else recovery_loop ring version count (count * 10) random 0 [] [].

Definition verify_recovery_code (c : text) (expected : OpaqueToken.OpaqueTokenDigest) (ring : list (Z * text)) : bool :=
  OpaqueToken.verify_opaque_token c expected ring _RECOVERY_CODE_NAMESPACE.

Definition matched (ring : list (Z * text)) (c : text) (d : OpaqueToken.OpaqueTokenDigest) : Prop :=
  OpaqueToken.digest_opaque_token c ring _RECOVERY_CODE_NAMESPACE = Ok d.

Lemma recovery_loop_ok ring version count attempts random n codes ds b :
  NoDup codes -> Forall2 (matched ring) codes ds -> (length codes < count)%nat ->
  recovery_loop ring version count attempts random n codes ds = Ok b ->
  length (plaintext_codes b) = count /\ NoDup (plaintext_codes b) /\ Forall2 (matched ring) (plaintext_codes b) (digests b).
Proof.
  revert n codes ds. induction attempts as [|k IH]; intros n codes ds Hnd Hm Hl; [done|]. cbn [recovery_loop].
  destruct (of_token _) as [c|]; [|done]. cbn [mbind result_bind]. case_decide as Hc; [by apply IH|].
  destruct (of_token (OpaqueToken.digest_opaque_token c ring _)) as [d|] eqn:Hd; [|done]. cbn [mbind result_bind].
  assert (matched ring c d) as Hcd.
  { unfold matched, of_token in *. destruct (OpaqueToken.digest_opaque_token c ring _) as [x|[]]; by simplify_eq. }
  assert (NoDup (codes ++ [c])) as Hnd'.
  { apply NoDup_app. split; [done|]. split; [|apply NoDup_singleton]. intros x Hx ->%list_elem_of_singleton. done. }
  assert (Forall2 (matched ring) (codes ++ [c]) (ds ++ [d])) as Hm' by (apply Forall2_app; [done|by repeat constructor]).
  destruct (Nat.eqb (length (codes ++ [c])) count) eqn:He.
  - unfold make_batch. case_match; [done|]. intros [= <-]. apply Nat.eqb_eq in He. done.
  - apply IH; [done..|]. rewrite length_app in *. cbn in *. apply Nat.eqb_neq in He. lia.
Qed.

(** Random bytes that do not repeat are enough: no attempt is lost. *)
Lemma recovery_loop_returns ring version key count attempts random codes ds :
  OpaqueToken._valid_key_version version = true -> OpaqueToken.key_usable ring version key ->
  (length codes < count)%nat -> length codes = length ds -> (count <= length codes + attempts)%nat ->
  (forall i, (i < count)%nat -> length (random i) = OpaqueToken.TOKEN_RANDOM_BYTES) ->
  (forall i c, (length codes <= i < count)%nat -> OpaqueToken.issue_opaque_token version (random i) = Ok c -> c ∉ codes) ->
  (forall i j, (i < j < count)%nat -> random i <> random j) ->
  exists b, recovery_loop ring version count attempts random (length codes) codes ds = Ok b.
Proof.
  intros Hv Hk Hl Hlen Hf Hr Hfresh Hd. revert codes ds Hl Hlen Hf Hfresh.
  induction attempts as [|k IH]; intros codes ds Hl Hlen Hf Hfresh; [lia|]. cbn [recovery_loop].
  destruct (OpaqueToken.issue_opaque_token version (random (length codes))) as [c|] eqn:Hi.
  2: { exfalso. unfold OpaqueToken.issue_opaque_token in Hi. rewrite (Hr (length codes)), Nat.eqb_refl in Hi by done.
       by rewrite Hv in Hi. }
  cbn [of_token mbind result_bind]. rewrite decide_False by (eapply Hfresh; [split; [reflexivity|done]|done]).
  rewrite (OpaqueToken.issued_digest version (random (length codes)) c ring _ key) by done.
  cbn [of_token mbind result_bind]. destruct (Nat.eqb (length (codes ++ [c])) count) eqn:He.
  - unfold make_batch. rewrite !length_app, Hlen, Nat.eqb_refl. rewrite bool_decide_eq_false_2 by (by destruct codes).
    cbn. eauto.
  - rewrite length_app in He. cbn in He. apply Nat.eqb_neq in He.
    replace (S (length codes)) with (length (codes ++ [c])) by (rewrite length_app; cbn; lia).
    apply IH; [rewrite length_app; cbn; lia|rewrite !length_app; cbn; lia|rewrite length_app; cbn; lia|].
    intros i c' Hi' Hc'. rewrite length_app in Hi'. cbn in Hi'. rewrite not_elem_of_app, list_elem_of_singleton.
    split; [eapply Hfresh; [|done]; lia|].
    intros ->. destruct (OpaqueToken.issue_inj _ _ _ _ _ Hi Hc') as [_ Hin]. apply (Hd (length codes) i); [lia|done].
Qed.

(** Recovery codes: with a usable key, random bytes that do not repeat give a
    batch of as many codes as asked for; in any batch the codes are all
    different, and each verifies against the digest stored for it. *)
Theorem recovery_codes_are_distinct ring version count random :
  (1 <= count <= _MAXIMUM_RECOVERY_CODE_COUNT)%nat ->
  (forall b, generate_recovery_codes ring version count random = Ok b ->
     length (plaintext_codes b) = count /\ NoDup (plaintext_codes b) /\
     Forall2 (fun c d => verify_recovery_code c d ring = true) (plaintext_codes b) (digests b)) /\
  (forall key, OpaqueToken._valid_key_version version = true -> OpaqueToken.key_usable ring version key ->
     (forall i, (i < count)%nat -> length (random i) = OpaqueToken.TOKEN_RANDOM_BYTES) ->
     (forall i j, (i < j < count)%nat -> random i <> random j) ->
     exists b, generate_recovery_codes ring version count random = Ok b).
Proof.
  intros Hc. unfold generate_recovery_codes. rewrite !(proj2 (Nat.leb_le _ _)) by lia. cbn [andb negb]. split.
  - intros b (Hl & Hn & Hm)%recovery_loop_ok; [|constructor|constructor|cbn; lia].
    split; [done|]. split; [done|]. eapply Forall2_impl; [exact Hm|]. intros c d Hcd. by apply OpaqueToken.verify_spec.
  - intros key Hv Hk Hr Hd. apply (recovery_loop_returns ring version key count (count * 10) random [] []); try done; cbn; [lia|lia|].
    intros i c _ _. apply not_elem_of_nil.
Qed.

End Recovery.

End Mfa.
