(* ===== verification/Access.v ===== *)
(** * Taking access away: revocation, expiry, quotas

    Models [nebula_api/provisioning/revocation.py], [nebula_api/access/expiry.py],
    [nebula_api/usage/enforcement.py], [nebula_api/usage/quota.py] (the grant)
    and the account-level reading of [nebula_api/usage/service.py], over the
    database of [ApiStore].  SHA-256 (behind [usage_digest]) and AES-GCM are
    parameters. *)

From S2P Require Import Prelude PyText PyBytes IpAddress Usage ApiStore XrayCredential.
Import Db XrayCredential.

Module Access.

Inductive exn := UserNotFound | IntegrityError.
#[global] Instance exn_eq_dec : EqDecision exn.
Proof. solve_decision. Defined.

(** ** Revocation (provisioning/revocation.py) *)

Definition _LIVE_CREDENTIAL_STATES : list ProvisioningState.t :=
  [ProvisioningState.REQUESTED; ProvisioningState.APPLYING; ProvisioningState.ACTIVE].

Definition revoke_credential_row (m : model) (now : Z) (db : DB) (r : Row) : DB :=
  settle m now (row_id r) (credential_id r) (set_state ProvisioningState.REVOKING)
    (set_cred_state ProvisioningState.REVOKING) db.

Definition revocable (dev : Z) (r : Row) : bool :=
  (row_device r =? dev) && in_states _LIVE_CREDENTIAL_STATES (state r).

Definition revoke_rows (m : model) (dev now : Z) (db : DB) : Z * DB :=
  let rows := scalars (revocable dev) (table m db) in
  (Z.of_nat (length rows), foldl (revoke_credential_row m now) db rows).

Definition revoke_device_credentials (dev now : Z) (db : DB) : Z * DB :=
  let '(n1, db1) := revoke_rows WireGuardPeer dev now db in
  let '(n2, db2) := revoke_rows XrayClient dev now db1 in
  (n1 + n2, db2).

Definition credentials_awaiting_removal (db : DB) : bool :=
  existsb (fun r => bool_decide (state r = ProvisioningState.REVOKING)) (wireguard_peers db) ||
  existsb (fun r => bool_decide (state r = ProvisioningState.REVOKING)) (xray_clients db).

(** ** Expiry (access/expiry.py) *)

(** [expires_at IS NULL OR expires_at > now] *)
Definition unexpired (now : Z) (e : option Z) : bool :=
  match e with None => true | Some t => now <? t end.

Definition has_assignment (user server now : Z) (db : DB) : bool :=
  existsb (fun a => (asg_user a =? user) && (asg_server a =? server) &&
                    bool_decide (asg_state a = LifecycleState.ACTIVE) &&
                    unexpired now (asg_expires_at a)) (assignments db).

Definition has_permission (user profile now : Z) (db : DB) : bool :=
  existsb (fun p => (perm_user p =? user) && (perm_profile p =? profile) &&
                    bool_decide (perm_state p = CapabilityState.ENABLED) &&
                    unexpired now (perm_expires_at p)) (permissions db).

(** The [WHERE] of [_lapsed] on one joined row. *)
Definition lapsed_row (now : Z) (db : DB) (r : Row) (d : Device) (u : User) : bool :=
  in_states _LIVE_CREDENTIAL_STATES (state r) &&
  (bool_decide (user_state u <> AccountState.ACTIVE) ||
   negb (unexpired now (user_expires_at u)) ||
   bool_decide (device_state d = LifecycleState.REVOKED) ||
   negb (has_assignment (user_id u) (row_server r) now db) ||
   negb (has_permission (user_id u) (row_profile r) now db)).

(** The row joined with its device and the device's user. *)
Definition owner (db : DB) (r : Row) : option (Device * User) :=
  match get_device (row_device r) db with
  | None => None
  | Some d => match get_user (device_user d) db with
              | None => None
              | Some u => Some (d, u)
              end
  end.

Definition lapsed (now : Z) (db : DB) (r : Row) : bool :=
  match owner db r with Some (d, u) => lapsed_row now db r d u | None => false end.

Definition _lapsed (m : model) (now : Z) (db : DB) : list Row := scalars (lapsed now db) (table m db).

Definition owner_id (db : DB) (r : Row) : Z :=
  match owner db r with Some (_, u) => user_id u | None => 0 end.

Record ExpirySummary := { x_credentials_revoked : Z; x_account_ids : list Z }.

Definition access_lapsed_event (uid : Z) : AuditLog :=
  {| actor := by_system; ev_target_kind := user_target; ev_target_id := uid;
     event_code := str "identity_state_changed"; outcome := str "succeeded";
     reason_code := Some (str "access_lapsed") |}.

(** [revoke_lapsed]: the rows of one table, counted per account. *)
Definition revoke_lapsed (m : model) (now : Z) (st : list (Z * Z) * DB) : list (Z * Z) * DB :=
  let '(revoked, db) := st in
  let rows := _lapsed m now db in
  (foldl (fun acc r => let uid := owner_id db r in
                       dict_set uid (default 0 (dict_get uid acc) + 1) acc) revoked rows,
   foldl (revoke_credential_row m now) db rows).

Definition enforce_access_expiry (now : Z) : prog DB exn ExpirySummary :=
  transaction IntegrityError (fun db =>
    let '(revoked, db') := revoke_lapsed XrayClient now (revoke_lapsed WireGuardPeer now ([], db)) in
    (Ok {| x_credentials_revoked := foldr Z.add 0 revoked.*2; x_account_ids := revoked.*1 |},
     foldl (fun db uid => add_audit_event (access_lapsed_event uid) db) db' revoked.*1)).

(** ** Account usage (usage/service.py) *)

Section Usage.
Context `{AEAD} (ring : list (Z * text)) (usage_digest : text -> text).

Definition peer_digests (devs : list Z) (db : DB) : list (Z * text) :=
  (fun r => (row_device r, usage_digest (default [] (public_key r)))) <$>
    scalars (fun r => bool_decide (row_device r ∈ devs)) (wireguard_peers db).

Definition client_digest (db : DB) (r : Row) : list (Z * text) :=
  match get_credential (credential_id r) db with
  | None => []
  | Some c =>
      match key_material_lost_at c with
      | Some _ => []
      | None => match client_uuid_of ring c with
                | Some u => [(row_device r, usage_digest (str_uuid u))]
                | None => []
                end
      end
  end.

Definition _digests_for_devices (devs : list Z) (db : DB) : list (Z * text) :=
  match devs with
  | [] => []
  | _ => peer_digests devs db ++
         concat (client_digest db <$>
                   scalars (fun r => bool_decide (row_device r ∈ devs)) (xray_clients db))
  end.

Definition devices_of (uid : Z) (db : DB) : list Z :=
  device_id <$> scalars (fun d => device_user d =? uid) (devices db).

Definition usage_for_user (uid : Z) (db : DB) (L : gmap (text * text) Usage.CredentialUsage) :
    Usage.AccountUsage :=
  match get_user uid db with
  | None => {| Usage.a_rx_bytes := 0; Usage.a_tx_bytes := 0; Usage.quota_bytes := None;
               Usage.baseline_bytes := 0; Usage.exhausted_at := None |}
  | Some u =>
      let digests := snd <$> _digests_for_devices (devices_of uid db) db in
      let rows := Usage.rows_for digests L in
      {| Usage.a_rx_bytes := Usage.sum_rx rows; Usage.a_tx_bytes := Usage.sum_tx rows;
         Usage.quota_bytes := traffic_quota_bytes u;
         Usage.baseline_bytes := traffic_baseline_bytes u;
         Usage.exhausted_at := quota_exhausted_at u |}
  end.

(** ** Granting an allowance (usage/quota.py) *)

Record QuotaChange := {
  previous_bytes : option Z;
  new_quota_bytes : option Z;
  previous_used_bytes : Z;
  restored_access : bool;
}.

Definition set_quota (q : option Z) (baseline : Z) (u : User) : User :=
  {| user_id := user_id u; email := email u; email_normalized := email_normalized u; username := username u;
     username_normalized := username_normalized u; password_hash := password_hash u; user_state := user_state u;
     device_limit := device_limit u; user_expires_at := user_expires_at u; activated_at := activated_at u;
     disabled_at := disabled_at u; traffic_quota_bytes := q;
     traffic_baseline_bytes := baseline; quota_exhausted_at := None;
     user_dns_profile := user_dns_profile u |}.

Definition update_user (uid : Z) (f : User -> User) (db : DB) : DB :=
  with_users (update user_id uid f (users db)) db.

Definition grant_traffic_quota (uid : Z) (q : option Z)
    (L : gmap (text * text) Usage.CredentialUsage) : prog DB exn QuotaChange := fun db0 =>
  let before := usage_for_user uid db0 L in
  transaction IntegrityError (fun db =>
    match get_user uid db with
    | None => (Err UserNotFound, db)
    | Some u =>
        (Ok {| previous_bytes := traffic_quota_bytes u; new_quota_bytes := q;
               previous_used_bytes := Usage.total_bytes before;
               restored_access := match quota_exhausted_at u with Some _ => true | None => false end |},
         update_user uid (set_quota q (Usage.lifetime_bytes before)) db)
    end) db0.

(** ** Enforcing allowances (usage/enforcement.py) *)

Definition set_exhausted (now : Z) (u : User) : User :=
  {| user_id := user_id u; email := email u; email_normalized := email_normalized u; username := username u;
     username_normalized := username_normalized u; password_hash := password_hash u; user_state := user_state u;
     device_limit := device_limit u; user_expires_at := user_expires_at u; activated_at := activated_at u;
     disabled_at := disabled_at u; traffic_quota_bytes := traffic_quota_bytes u;
     traffic_baseline_bytes := traffic_baseline_bytes u; quota_exhausted_at := Some now;
     user_dns_profile := user_dns_profile u |}.

Definition quota_exhausted_event (uid : Z) : AuditLog :=
  {| actor := by_system; ev_target_kind := user_target; ev_target_id := uid;
     event_code := str "identity_state_changed"; outcome := str "succeeded";
     reason_code := Some (str "traffic_quota_exhausted") |}.

Definition revoke_devices (devs : list Z) (now : Z) (db : DB) : Z * DB :=
  foldl (fun '(n, db) dev => let '(k, db') := revoke_device_credentials dev now db in (n + k, db'))
    (0, db) devs.

Definition _cut_off (uid now : Z) : prog DB exn Z :=
  transaction IntegrityError (fun db =>
    match get_user uid db with
    | None => (Ok 0, db)
    | Some u =>
        match quota_exhausted_at u with
        | Some _ => (Ok 0, db)
        | None =>
            let '(revoked, db') := revoke_devices (devices_of uid db) now db in
            (Ok revoked, add_audit_event (quota_exhausted_event uid)
                           (update_user uid (set_exhausted now) db'))
        end
    end).

Record EnforcementSummary := {
  accounts_checked : Z;
  accounts_exhausted : Z;
  credentials_revoked : Z;
  already_enforced : Z;
  account_ids : list Z;
}.

Definition metered (u : User) : bool :=
  match traffic_quota_bytes u, quota_exhausted_at u with Some _, None => true | _, _ => false end.
Definition enforced (u : User) : bool :=
  match traffic_quota_bytes u, quota_exhausted_at u with Some _, Some _ => true | _, _ => false end.

(** The loop over the metered accounts; what it revoked and whom. *)
Fixpoint enforce_each (now : Z) (L : gmap (text * text) Usage.CredentialUsage) (uids : list Z)
    (revoked : Z) (exhausted : list Z) : prog DB exn (Z * list Z) :=
  match uids with
  | [] => mret (revoked, exhausted)
  | uid :: uids' =>
      db ← get;
      if Usage.is_exhausted (usage_for_user uid db L) then
        n ← _cut_off uid now;
        enforce_each now L uids' (revoked + n) (exhausted ++ [uid])
      else enforce_each now L uids' revoked exhausted
  end.

Definition enforce_traffic_quotas (now : Z) (L : gmap (text * text) Usage.CredentialUsage) :
    prog DB exn EnforcementSummary :=
  db ← get;
  let uids := user_id <$> scalars metered (users db) in
  '(revoked, exhausted) ← enforce_each now L uids 0 [];
  mret {| accounts_checked := Z.of_nat (length uids);
          accounts_exhausted := Z.of_nat (length exhausted);
          credentials_revoked := revoked;
          already_enforced := Z.of_nat (length (scalars enforced (users db)));
          account_ids := exhausted |}.
End Usage.

(** ** Revoking a list of rows *)

Definition revoke_all (m : model) (now : Z) (rows : list Row) (db : DB) : DB :=
  foldl (revoke_credential_row m now) db rows.

Definition to_revoking (now : Z) (r : Row) : Row := touch now (set_state ProvisioningState.REVOKING r).

Lemma revoke_all_table m now rows db :
  table m (revoke_all m now rows db) =
  (fun r => if bool_decide (row_id r ∈ row_id <$> rows) then to_revoking now r else r) <$> table m db.
Proof.
  revert db. induction rows as [|r rows IH]; intros db; cbn.
  - symmetry. apply list_fmap_id.
  - fold (revoke_all m now rows (revoke_credential_row m now db r)). rewrite IH.
    assert (Ht : table m (revoke_credential_row m now db r) =
                 update row_id (row_id r) (to_revoking now) (table m db)) by (by destruct m).
    rewrite Ht. unfold update. rewrite <- list_fmap_compose. apply list_fmap_ext. intros _ x _. cbn.
    rewrite (bool_decide_ext (row_id x ∈ row_id r :: (row_id <$> rows))
               (row_id x = row_id r \/ row_id x ∈ row_id <$> rows)) by apply elem_of_cons.
    destruct (row_id x =? row_id r) eqn:He; boolP.
    + rewrite (bool_decide_eq_true_2 (row_id x = row_id r \/ _)) by auto.
      by destruct (bool_decide _).
    + rewrite (bool_decide_ext (row_id x = row_id r \/ _) (row_id x ∈ row_id <$> rows)) by naive_solver.
      done.
Qed.

Lemma revoke_all_other m m' now rows db : m' <> m -> table m' (revoke_all m now rows db) = table m' db.
Proof.
  intros Hne. revert db. induction rows as [|r rows IH]; intros db; cbn; [done|].
  fold (revoke_all m now rows (revoke_credential_row m now db r)). rewrite IH. by destruct m, m'.
Qed.

Lemma revoke_all_credentials m now rows db :
  credentials (revoke_all m now rows db) =
  (fun c => if bool_decide (cred_id c ∈ credential_id <$> rows)
            then set_cred_state ProvisioningState.REVOKING c else c) <$> credentials db.
Proof.
  revert db. induction rows as [|r rows IH]; intros db; cbn.
  - symmetry. apply list_fmap_id.
  - fold (revoke_all m now rows (revoke_credential_row m now db r)). rewrite IH.
    unfold revoke_credential_row, settle, update_credential, update_row, with_credentials, with_table.
    cbn [credentials]. unfold update. rewrite <- list_fmap_compose. apply list_fmap_ext. intros _ x _. cbn.
    rewrite (bool_decide_ext (cred_id x ∈ credential_id r :: (credential_id <$> rows))
               (cred_id x = credential_id r \/ cred_id x ∈ credential_id <$> rows)) by apply elem_of_cons.
    destruct (cred_id x =? credential_id r) eqn:He; boolP.
    + rewrite (bool_decide_eq_true_2 (cred_id x = credential_id r \/ _)) by auto.
      by destruct (bool_decide _).
    + rewrite (bool_decide_ext (cred_id x = credential_id r \/ _) (cred_id x ∈ credential_id <$> rows))
        by naive_solver. done.
Qed.

(** Everything else stays as it is. *)
Definition same_frame (db db' : DB) : Prop :=
  users db' = users db /\ devices db' = devices db /\ profiles db' = profiles db /\
  servers db' = servers db /\ capabilities db' = capabilities db /\
  permissions db' = permissions db /\ assignments db' = assignments db /\
  operations db' = operations db /\ audit db' = audit db /\ records db' = records db /\
  next_id db' = next_id db.

Lemma same_frame_trans db1 db2 db3 : same_frame db1 db2 -> same_frame db2 db3 -> same_frame db1 db3.
Proof. unfold same_frame. intuition congruence. Qed.

Lemma revoke_all_frame m now rows db : same_frame db (revoke_all m now rows db).
Proof.
  revert db. induction rows as [|r rows IH]; intros db; [by repeat split|].
  change (revoke_all m now (r :: rows) db) with (revoke_all m now rows (revoke_credential_row m now db r)).
  eapply same_frame_trans; [|apply IH]. by repeat split.
Qed.

(** Rows of one table, as it is now, in revocable states. *)
Definition revoke_list_ok (m : model) (rows : list Row) (db : DB) : Prop :=
  Forall (fun r => exists r0, get_row m (row_id r) db = Some r0 /\
                     credential_id r0 = credential_id r /\ live r0 = true) rows.

Lemma revoke_all_wf m now rows db : db_wf db -> revoke_list_ok m rows db -> db_wf (revoke_all m now rows db).
Proof.
  revert db. induction rows as [|r rows IH]; intros db Hwf Hok; [done|].
  change (revoke_all m now (r :: rows) db) with (revoke_all m now rows (revoke_credential_row m now db r)).
  apply Forall_cons in Hok as [(r0 & Hr0 & Hcid & Hl) Hok].
  destruct (proj1 (Forall_forall _ _) (wf_paired _ Hwf) r0) as (c & Hc & Hcl).
  { apply get_row_elem in Hr0 as [? _]. by eapply table_all_rows. }
  assert (Hwf' : db_wf (revoke_credential_row m now db r)).
  { unfold revoke_credential_row. rewrite <- Hcid. eapply settle_wf; try done. }
  apply IH; [done|]. eapply Forall_impl; [exact Hok|]. intros x (x0 & Hx0 & Hxc & Hxl).
  unfold revoke_credential_row. rewrite get_row_settle by done.
  rewrite bool_decide_eq_true_2 by done. cbn [andb]. rewrite Hx0. cbn.
  destruct (row_id x =? row_id r); eexists; by split.
Qed.

Lemma scalars_revoke_ok m p db :
  db_wf db -> (forall r, p r = true -> live r = true) -> revoke_list_ok m (scalars p (table m db)) db.
Proof.
  intros Hwf Hp. apply Forall_forall. intros r Hr. apply elem_of_scalars in Hr as [Hr Hpr].
  exists r. rewrite (get_row_wf db m r Hwf Hr). auto.
Qed.

Lemma revocable_live dev r : revocable dev r = true -> live r = true.
Proof.
  unfold revocable, live, in_states. intros H. boolP. apply bool_decide_eq_true_2.
  revert H0. generalize (state r). intros s. set_solver.
Qed.

(** The rows a predicate selects, revoked; all others as they were. *)
Definition marked (p : Row -> bool) (now : Z) (r : Row) : Row :=
  if p r then to_revoking now r else r.

Lemma selected_ids {A} (id_of : A -> Z) p rows r :
  NoDup (id_of <$> rows) -> r ∈ rows -> bool_decide (id_of r ∈ id_of <$> scalars p rows) = p r.
Proof.
  intros Hnd Hr. destruct (p r) eqn:Hp.
  - apply bool_decide_eq_true_2, list_elem_of_fmap_2. by apply elem_of_scalars.
  - apply bool_decide_eq_false_2. intros Hin. apply list_elem_of_fmap in Hin as (r' & He & Hin).
    apply elem_of_scalars in Hin as [Hin Hp']. rewrite (same_id id_of rows r r') in Hp by done. congruence.
Qed.

Lemma revoke_scalars_table m p now db :
  db_wf db -> table m (revoke_all m now (scalars p (table m db)) db) = marked p now <$> table m db.
Proof.
  intros Hwf. rewrite revoke_all_table. apply list_fmap_ext. intros i r Hr.
  apply list_elem_of_lookup_2 in Hr. unfold marked. rewrite selected_ids; [done| |done].
  apply wf_table_ids, Hwf.
Qed.

(** Both tables, one after the other. *)
Definition revoke_both (p : Row -> bool) (now : Z) (db : DB) : DB :=
  let db1 := revoke_all WireGuardPeer now (scalars p (table WireGuardPeer db)) db in
  revoke_all XrayClient now (scalars p (table XrayClient db)) db1.

Lemma revoke_both_spec p now db :
  db_wf db -> (forall r, p r = true -> live r = true) ->
  db_wf (revoke_both p now db) /\ same_frame db (revoke_both p now db) /\
  (forall m, table m (revoke_both p now db) = marked p now <$> table m db).
Proof.
  intros Hwf Hp. unfold revoke_both. set (db1 := revoke_all WireGuardPeer now _ db).
  assert (Hwf1 : db_wf db1) by (apply revoke_all_wf; [done|by apply scalars_revoke_ok]).
  assert (Hx : table XrayClient db1 = table XrayClient db) by (by apply revoke_all_other).
  rewrite <- Hx. split; [apply revoke_all_wf; [done|by apply scalars_revoke_ok]|]. split.
  - eapply same_frame_trans; apply revoke_all_frame.
  - intros []; [|rewrite revoke_scalars_table by done; by rewrite Hx].
    rewrite revoke_all_other by done. by apply revoke_scalars_table.
Qed.

Lemma revoke_both_credentials p now db :
  credentials (revoke_both p now db) =
  (fun c => if bool_decide (cred_id c ∈ credential_id <$> scalars p (all_rows db))
            then set_cred_state ProvisioningState.REVOKING c else c) <$> credentials db.
Proof.
  unfold revoke_both. rewrite !revoke_all_credentials, <- list_fmap_compose.
  apply list_fmap_ext. intros _ c _. unfold all_rows, scalars. rewrite filter_app, fmap_app. cbn.
  rewrite (bool_decide_ext (_ ∈ _ ++ _) _ (elem_of_app _ _ _)).
  destruct (decide (cred_id c ∈ credential_id <$> filter (fun r => p r = true) (wireguard_peers db))) as [E1|E1].
  - rewrite !(bool_decide_eq_true_2 (_ ∈ _ <$> filter _ (wireguard_peers db))) by done.
    rewrite (bool_decide_eq_true_2 (_ \/ _)) by auto. by destruct (bool_decide _).
  - rewrite !(bool_decide_eq_false_2 (_ ∈ _ <$> filter _ (wireguard_peers db))) by done.
    by rewrite (bool_decide_ext (_ \/ _) (cred_id c ∈ credential_id <$> filter (fun r => p r = true) (xray_clients db)))
      by tauto.
Qed.

(** The credential behind a row goes the row's way. *)
Lemma revoke_both_credential p now db r :
  db_wf db -> r ∈ all_rows db ->
  get_credential (credential_id r) (revoke_both p now db) =
  (fun c => if p r then set_cred_state ProvisioningState.REVOKING c else c) <$>
    get_credential (credential_id r) db.
Proof.
  intros Hwf Hr. unfold get_credential. rewrite revoke_both_credentials, scalar_fmap.
  - destruct (scalar _ (credentials db)) as [c|] eqn:Hc; [|done]. cbn.
    apply scalar_Some in Hc as [_ Hc]. boolP. rewrite Hc.
    by rewrite (selected_ids credential_id p (all_rows db) r (wf_own_credential _ Hwf) Hr).
  - intros c. by destruct (bool_decide _).
Qed.

Lemma revoke_device_both dev now db :
  revoke_device_credentials dev now db =
    (Z.of_nat (length (scalars (revocable dev) (wireguard_peers db))) +
     Z.of_nat (length (scalars (revocable dev) (xray_clients db))),
     revoke_both (revocable dev) now db).
Proof.
  unfold revoke_device_credentials, revoke_rows, revoke_both.
  pose proof (revoke_all_other WireGuardPeer XrayClient now
    (scalars (revocable dev) (table WireGuardPeer db)) db ltac:(done)) as Hx.
  unfold revoke_all in *. rewrite Hx. reflexivity.
Qed.

Lemma revocable_marked dev now r : revocable dev (marked (revocable dev) now r) = false.
Proof.
  unfold marked. destruct (revocable dev r) eqn:Hr; [|done]. unfold revocable. cbn. by destruct (row_device r =? dev).
Qed.
Lemma revoke_device_leaves_none dev now db r :
  db_wf db -> r ∈ all_rows (revoke_both (revocable dev) now db) -> revocable dev r = false.
Proof.
  intros Hwf Hr. destruct (revoke_both_spec (revocable dev) now db Hwf (revocable_live dev)) as (_ & _ & Ht).
  unfold all_rows in Hr. change (wireguard_peers ?d) with (table WireGuardPeer d) in Hr.
  change (xray_clients ?d) with (table XrayClient d) in Hr. rewrite !Ht in Hr.
  apply elem_of_app in Hr as [Hr|Hr]; apply list_elem_of_fmap in Hr as (r0 & -> & _); apply revocable_marked.
Qed.

(** Revoking a device leaves it nothing live.  Afterwards every peer and
    client of the device that was requested, applying or active is revoking,
    together with the credential behind it (so reconciliation takes it off
    its server), every other row and the credential behind it is exactly as it
    was, the count returned is the number of rows marked, and the database is
    still well-formed: the marking cannot fail on a constraint. *)
Theorem revoke_device_marks_everything dev now db :
  db_wf db ->
  let '(n, db') := revoke_device_credentials dev now db in
  db_wf db' /\
  n = Z.of_nat (length (scalars (revocable dev) (all_rows db))) /\
  (forall m, table m db' = marked (revocable dev) now <$> table m db) /\
  (forall r, r ∈ all_rows db -> get_credential (credential_id r) db' =
     (fun c => if revocable dev r then set_cred_state ProvisioningState.REVOKING c else c) <$>
       get_credential (credential_id r) db) /\
  (forall r, r ∈ all_rows db' -> revocable dev r = false) /\
  (0 < n -> credentials_awaiting_removal db' = true).
Proof.
  intros Hwf. rewrite revoke_device_both.
  destruct (revoke_both_spec (revocable dev) now db Hwf (revocable_live dev)) as (Hwf' & _ & Ht).
  split; [done|]. split; [|split; [done|split; [|split]]].
  - unfold all_rows, scalars. rewrite filter_app, length_app. lia.
  - intros r Hr. by apply revoke_both_credential.
  - intros r. by apply revoke_device_leaves_none.
  - intros Hn. assert (Hex : forall m r, r ∈ scalars (revocable dev) (table m db) ->
      existsb (fun r => bool_decide (state r = ProvisioningState.REVOKING))
        (table m (revoke_both (revocable dev) now db)) = true).
    { intros m r Hr. apply elem_of_scalars in Hr as [Hin Hr]. apply existsb_exists.
      exists (marked (revocable dev) now r). rewrite Ht. split.
      - apply list_elem_of_In. by apply list_elem_of_fmap_2.
      - unfold marked. by rewrite Hr. }
    unfold credentials_awaiting_removal. apply orb_true_iff.
    destruct (scalars (revocable dev) (wireguard_peers db)) as [|r rs] eqn:E1.
    + destruct (scalars (revocable dev) (xray_clients db)) as [|r rs] eqn:E2; [cbn in Hn; lia|].
      right. apply (Hex XrayClient r). cbn [table]. rewrite E2. by left.
    + left. apply (Hex WireGuardPeer r). cbn [table]. rewrite E1. by left.
Qed.

(** ** Expiry *)

(** What an account must have to keep a peer or client on a server. *)
Definition valid_until (e : option Z) (now : Z) : Prop := forall t, e = Some t -> now < t.

Definition entitled (now : Z) (db : DB) (r : Row) (d : Device) (u : User) : Prop :=
  user_state u = AccountState.ACTIVE /\ valid_until (user_expires_at u) now /\
  device_state d <> LifecycleState.REVOKED /\
  (exists a, a ∈ assignments db /\ asg_user a = user_id u /\ asg_server a = row_server r /\
     asg_state a = LifecycleState.ACTIVE /\ valid_until (asg_expires_at a) now) /\
  (exists p, p ∈ permissions db /\ perm_user p = user_id u /\ perm_profile p = row_profile r /\
     perm_state p = CapabilityState.ENABLED /\ valid_until (perm_expires_at p) now).

Lemma unexpired_spec now e : unexpired now e = true <-> valid_until e now.
Proof. unfold unexpired, valid_until. destruct e as [t|]; split; intros; simplify_eq; try done; try lia. by apply Z.ltb_lt, H. Qed.

Lemma has_assignment_spec user server now db :
  has_assignment user server now db = true <->
  exists a, a ∈ assignments db /\ asg_user a = user /\ asg_server a = server /\
    asg_state a = LifecycleState.ACTIVE /\ valid_until (asg_expires_at a) now.
Proof.
  unfold has_assignment. rewrite existsb_exists. setoid_rewrite <- list_elem_of_In.
  setoid_rewrite andb_true_iff. setoid_rewrite andb_true_iff. setoid_rewrite andb_true_iff.
  setoid_rewrite Z.eqb_eq. setoid_rewrite bool_decide_eq_true. setoid_rewrite unexpired_spec. naive_solver.
Qed.

Lemma has_permission_spec user profile now db :
  has_permission user profile now db = true <->
  exists p, p ∈ permissions db /\ perm_user p = user /\ perm_profile p = profile /\
    perm_state p = CapabilityState.ENABLED /\ valid_until (perm_expires_at p) now.
Proof.
  unfold has_permission. rewrite existsb_exists. setoid_rewrite <- list_elem_of_In.
  setoid_rewrite andb_true_iff. setoid_rewrite andb_true_iff. setoid_rewrite andb_true_iff.
  setoid_rewrite Z.eqb_eq. setoid_rewrite bool_decide_eq_true. setoid_rewrite unexpired_spec. naive_solver.
Qed.

(** The query's condition is the negation of the entitlement. *)
Lemma lapsed_entitled now db r d u :
  owner db r = Some (d, u) ->
  lapsed now db r = true <-> state r ∈ _LIVE_CREDENTIAL_STATES /\ ~ entitled now db r d u.
Proof.
  intros Ho. unfold lapsed, lapsed_row, entitled. rewrite Ho, andb_true_iff, !orb_true_iff, !negb_true_iff.
  rewrite <- unexpired_spec, <- has_assignment_spec, <- has_permission_spec, <- !not_true_iff_false.
  unfold in_states. rewrite !bool_decide_eq_true.
  destruct (decide (user_state u = AccountState.ACTIVE)), (decide (device_state d = LifecycleState.REVOKED)),
    (unexpired now (user_expires_at u)), (has_assignment (user_id u) (row_server r) now db),
    (has_permission (user_id u) (row_profile r) now db); naive_solver.
Qed.

Lemma lapsed_frame now db db' r : same_frame db db' -> lapsed now db' r = lapsed now db r.
Proof.
  intros (Hu & Hd & _ & _ & _ & Hp & Ha & _).
  unfold lapsed, owner, get_device, get_user, lapsed_row, has_assignment, has_permission.
  by rewrite Hu, Hd, Hp, Ha.
Qed.

Lemma owner_frame db db' r : same_frame db db' -> owner_id db' r = owner_id db r.
Proof.
  intros (Hu & Hd & _). unfold owner_id, owner, get_device, get_user. by rewrite Hu, Hd.
Qed.

Lemma lapsed_live now db r : lapsed now db r = true -> live r = true.
Proof.
  unfold lapsed, lapsed_row. destruct (owner db r) as [[d u]|]; [|done]. intros [H _]%andb_true_iff.
  apply (revocable_live (row_device r)). unfold revocable. by rewrite Z.eqb_refl, H.
Qed.

(** The per-account counters of [enforce_access_expiry]. *)
Definition count_owner (db : DB) (acc : list (Z * Z)) (r : Row) : list (Z * Z) :=
  let uid := owner_id db r in dict_set uid (default 0 (dict_get uid acc) + 1) acc.

Definition total (acc : list (Z * Z)) : Z := foldr Z.add 0 acc.*2.

Lemma total_app a b : total (a ++ b) = total a + total b.
Proof. unfold total. rewrite fmap_app, foldr_app. induction (a.*2); cbn; lia. Qed.

Lemma total_set k acc :
  NoDup acc.*1 -> total (dict_set k (default 0 (dict_get k acc) + 1) acc) = total acc + 1.
Proof.
  intros Hnd. unfold dict_set. case_decide as Hk.
  - induction acc as [|[k' v'] acc IH]; [by apply not_elem_of_nil in Hk|].
    rewrite fmap_cons in Hnd. apply NoDup_cons in Hnd as [Hk' Hnd]. cbn.
    destruct (decide (k' = k)) as [->|Hne].
    + cbn in *. unfold total. cbn. replace ((fun kv => if decide (kv.1 = k) then (k, v' + 1) else kv) <$> acc) with acc.
      * lia.
      * symmetry. rewrite <- list_fmap_id. apply list_fmap_ext. intros i [k1 v1] Hi. cbn.
        rewrite decide_False; [done|]. intros ->. apply Hk'. apply list_elem_of_lookup_2 in Hi.
        by apply (list_elem_of_fmap_2 fst) in Hi.
    + apply elem_of_cons in Hk as [?|Hk]; [done|]. specialize (IH Hnd Hk). unfold total in *. cbn in *. lia.
  - apply dict_get_None in Hk. rewrite Hk, total_app. cbn. unfold total. cbn. lia.
Qed.

Lemma count_owners db rows acc :
  NoDup acc.*1 ->
  let acc' := foldl (count_owner db) acc rows in
  NoDup acc'.*1 /\ total acc' = total acc + Z.of_nat (length rows) /\
  (forall uid, uid ∈ acc'.*1 <-> uid ∈ acc.*1 \/ exists r, r ∈ rows /\ owner_id db r = uid).
Proof.
  revert acc. induction rows as [|r rows IH]; intros acc Hnd; cbn [foldl length]; cbv zeta.
  - split; [done|]. split; [lia|]. intros uid. split; [auto|]. intros [?|(r & Hr & _)]; [done|].
    by apply not_elem_of_nil in Hr.
  - assert (Hnd' : NoDup (count_owner db acc r).*1).
    { unfold count_owner. rewrite dict_keys_set. case_decide as Hk; [done|].
      apply NoDup_app. split; [done|]. split; [|apply NoDup_singleton].
      intros x Hx Hx2. apply list_elem_of_singleton in Hx2. by subst. }
    destruct (IH (count_owner db acc r) Hnd') as (H1 & H2 & H3). split; [done|]. split.
    + rewrite H2. unfold count_owner. rewrite total_set by done. lia.
    + intros uid. rewrite H3. unfold count_owner at 1. rewrite dict_keys_set.
      assert (Hk : uid ∈ (if decide (owner_id db r ∈ acc.*1) then acc.*1 else acc.*1 ++ [owner_id db r])
                   <-> uid ∈ acc.*1 \/ uid = owner_id db r).
      { case_decide; [naive_solver|]. by rewrite elem_of_app, list_elem_of_singleton. }
      rewrite Hk. setoid_rewrite elem_of_cons. naive_solver.
Qed.

Lemma add_events_tables evs db m :
  table m (foldl (fun db uid => add_audit_event (access_lapsed_event uid) db) db evs) = table m db.
Proof. revert db. induction evs as [|u evs IH]; intros db; cbn; [done|]. rewrite IH. by destruct m. Qed.

Lemma add_events_wf evs db :
  db_wf db -> db_wf (foldl (fun db uid => add_audit_event (access_lapsed_event uid) db) db evs).
Proof. revert db. induction evs as [|u evs IH]; intros db Hwf; cbn; [done|]. by apply IH, db_wf_audit. Qed.

Lemma add_events_lapsed evs now db r :
  lapsed now (foldl (fun db uid => add_audit_event (access_lapsed_event uid) db) db evs) r = lapsed now db r.
Proof. revert db. induction evs as [|u evs IH]; intros db; cbn; [done|]. by rewrite IH. Qed.

Lemma revoke_lapsed_both now db :
  revoke_lapsed XrayClient now (revoke_lapsed WireGuardPeer now ([], db)) =
    (foldl (count_owner db) [] (scalars (lapsed now db) (all_rows db)),
     revoke_both (lapsed now db) now db).
Proof.
  unfold revoke_lapsed, _lapsed, revoke_both. fold (revoke_all WireGuardPeer now
    (scalars (lapsed now db) (table WireGuardPeer db)) db).
  set (db1 := revoke_all WireGuardPeer now _ db).
  assert (Hf : same_frame db db1) by apply revoke_all_frame.
  assert (Hx : table XrayClient db1 = table XrayClient db) by (by apply revoke_all_other).
  assert (Hs : scalars (lapsed now db1) (table XrayClient db1) = scalars (lapsed now db) (table XrayClient db)).
  { rewrite Hx. unfold scalars. apply list_filter_iff. intros r. by rewrite (lapsed_frame _ _ _ _ Hf). }
  rewrite Hs. f_equal. unfold all_rows, scalars. rewrite filter_app, foldl_app.
  change (wireguard_peers db) with (table WireGuardPeer db). change (xray_clients db) with (table XrayClient db).
  enough (Hc : forall rows acc, foldl (fun acc r => dict_set (owner_id db1 r)
    (default 0 (dict_get (owner_id db1 r) acc) + 1) acc) acc rows = foldl (count_owner db) acc rows).
  { etransitivity; [apply Hc|]. reflexivity. }
  induction rows as [|r rows IH]; intros acc; cbn [foldl]; [done|]. rewrite IH.
  by rewrite (owner_frame _ _ r Hf).
Qed.

Lemma add_events_grants evs db :
  permissions (foldl (fun db uid => add_audit_event (access_lapsed_event uid) db) db evs) = permissions db /\
  assignments (foldl (fun db uid => add_audit_event (access_lapsed_event uid) db) db evs) = assignments db.
Proof. revert db. induction evs as [|e evs IH]; intros db; [done|]. cbn [foldl]. by destruct (IH (add_audit_event (access_lapsed_event e) db)) as [-> ->]. Qed.

(** The sweep's run, and what it leaves alone. *)
Lemma expiry_run now db : db_wf db ->
  exists s db', enforce_access_expiry now db = (Ok s, db') /\ db_wf db' /\
    (permissions db' = permissions db /\ assignments db' = assignments db) /\
    (forall m, table m db' = marked (lapsed now db) now <$> table m db) /\
    (forall r, lapsed now db' r = lapsed now db r) /\
    s = let revoked := foldl (count_owner db) [] (scalars (lapsed now db) (all_rows db)) in
        {| x_credentials_revoked := foldr Z.add 0 revoked.*2; x_account_ids := revoked.*1 |}.
Proof.
  intros Hwf. unfold enforce_access_expiry, transaction. rewrite revoke_lapsed_both.
  destruct (revoke_both_spec (lapsed now db) now db Hwf (lapsed_live now db)) as (Hwf' & Hf & Ht).
  set (revoked := foldl (count_owner db) [] _) in *. set (db2 := revoke_both (lapsed now db) now db) in *.
  pose proof (add_events_wf revoked.*1 db2 Hwf') as Hwf2. rewrite (wf_constraints _ Hwf2).
  do 2 eexists. split; [done|]. split; [done|]. split; [|split; [|split; [|done]]].
  - destruct Hf as (_ & _ & _ & _ & _ & Hp & Ha & _). rewrite <- Hp, <- Ha. apply add_events_grants.
  - intros m. by rewrite add_events_tables.
  - intros r. by rewrite add_events_lapsed, (lapsed_frame _ _ _ _ Hf).
Qed.
Lemma expiry_leaves_none now db s db' r :
  db_wf db -> enforce_access_expiry now db = (Ok s, db') -> r ∈ all_rows db' -> lapsed now db' r = false.
Proof.
  intros Hwf Hrun Hr. destruct (expiry_run now db Hwf) as (s2 & db2 & Hrun2 & _ & _ & Ht & Hl & _).
  rewrite Hrun in Hrun2. injection Hrun2 as <- <-. rewrite Hl. unfold all_rows in Hr.
  change (wireguard_peers ?d) with (table WireGuardPeer d) in Hr.
  change (xray_clients ?d) with (table XrayClient d) in Hr. rewrite !Ht in Hr.
  apply elem_of_app in Hr as [Hr|Hr]; apply list_elem_of_fmap in Hr as (r0 & -> & _);
    unfold marked; destruct (lapsed now db r0) eqn:Hl0; try done;
    unfold lapsed, lapsed_row, owner; cbn; by destruct (get_device _ _); [destruct (get_user _ _)|].
Qed.

(** C40: the expiry sweep takes away exactly what has lapsed.  It always
    commits; afterwards a peer or client is revoking exactly when it was live
    and its account was not active or had expired, its device was revoked, or
    no active unexpired assignment to the server or permission for the
    profile was left; every other row is untouched, nothing lapsed is left
    live, and the summary counts the rows and names their accounts. *)
Theorem expiry_revokes_exactly_the_lapsed now db :
  db_wf db ->
  exists s db', enforce_access_expiry now db = (Ok s, db') /\ db_wf db' /\
    (forall m, table m db' = marked (lapsed now db) now <$> table m db) /\
    (forall r d u, owner db r = Some (d, u) ->
       lapsed now db r = true <-> state r ∈ _LIVE_CREDENTIAL_STATES /\ ~ entitled now db r d u) /\
    (forall r, r ∈ all_rows db' -> lapsed now db' r = false) /\
    x_credentials_revoked s = Z.of_nat (length (scalars (lapsed now db) (all_rows db))) /\
    (forall uid, uid ∈ x_account_ids s <->
       exists r, r ∈ all_rows db /\ lapsed now db r = true /\ owner_id db r = uid).
Proof.
  intros Hwf. destruct (expiry_run now db Hwf) as (s & db' & Hrun & Hwf' & _ & Ht & _ & Hs).
  destruct (count_owners db (scalars (lapsed now db) (all_rows db)) []) as (_ & Hsum & Hids); [apply NoDup_nil_2|].
  exists s, db'. do 3 (split; [done|]). split; [|split; [|split]].
  - intros r d u Ho. by apply lapsed_entitled.
  - intros r Hr. exact (expiry_leaves_none now db s db' r Hwf Hrun Hr).
  - rewrite Hs. exact Hsum.
  - intros uid. rewrite Hs. cbn. rewrite Hids. setoid_rewrite elem_of_scalars. split.
    + intros [Hn|(r & [? ?] & ?)]; [by apply not_elem_of_nil in Hn|eauto].
    + intros (r & ? & ? & ?). eauto.
Qed.

(** ** Quotas *)

Section Quotas.
Context `{AEAD} (ring : list (Z * text)) (usage_digest : text -> text).
Implicit Types (L : gmap (text * text) Usage.CredentialUsage).

(** Whose a counter is depends on identities, not on states. *)
Record same_identities (db db' : DB) : Prop := {
  si_devices : devices db' = devices db;
  si_rows m : exists h, table m db' = h <$> table m db /\
    forall r, row_device (h r) = row_device r /\ columns (h r) = columns r /\
      credential_id (h r) = credential_id r;
  si_credentials : exists g, credentials db' = g <$> credentials db /\
    forall c, cred_id (g c) = cred_id c /\ cred_device (g c) = cred_device c /\
      envelope (g c) = envelope c /\ key_material_lost_at (g c) = key_material_lost_at c;
}.

Lemma same_identities_trans db1 db2 db3 :
  same_identities db1 db2 -> same_identities db2 db3 -> same_identities db1 db3.
Proof.
  intros [D1 R1 (g1 & C1 & G1)] [D2 R2 (g2 & C2 & G2)]. constructor.
  - congruence.
  - intros m. destruct (R1 m) as (h1 & E1 & H1), (R2 m) as (h2 & E2 & H2). exists (h2 ∘ h1).
    rewrite E2, E1, list_fmap_compose. split; [done|]. intros r. cbn.
    destruct (H2 (h1 r)) as (-> & -> & ->). apply H1.
  - exists (g2 ∘ g1). rewrite C2, C1, list_fmap_compose. split; [done|]. intros c. cbn.
    destruct (G2 (g1 c)) as (-> & -> & -> & ->). apply G1.
Qed.

Lemma client_uuid_similar c c' :
  cred_id c' = cred_id c -> cred_device c' = cred_device c -> envelope c' = envelope c ->
  client_uuid_of ring c' = client_uuid_of ring c.
Proof. intros E1 E2 E3. unfold client_uuid_of. by rewrite E1, E2, E3. Qed.

Lemma digests_same devs db db' :
  same_identities db db' ->
  _digests_for_devices ring usage_digest devs db' = _digests_for_devices ring usage_digest devs db.
Proof.
  intros [_ HR (g & HC & Hg)]. unfold _digests_for_devices. destruct devs as [|d devs]; [done|].
  destruct (HR WireGuardPeer) as (h1 & E1 & H1), (HR XrayClient) as (h2 & E2 & H2). cbn [table] in *.
  f_equal.
  - unfold peer_digests. rewrite E1, scalars_fmap.
    + rewrite <- list_fmap_compose. apply list_fmap_ext. intros _ r _. cbn.
      destruct (H1 r) as (-> & Hc & _). by rewrite (public_key_columns _ _ Hc).
    + intros r. by destruct (H1 r) as (-> & _).
  - rewrite E2, scalars_fmap; [|intros r; by destruct (H2 r) as (-> & _)].
    rewrite <- list_fmap_compose. f_equal. apply list_fmap_ext. intros _ r _. cbn.
    unfold client_digest. destruct (H2 r) as (-> & _ & ->). unfold get_credential. rewrite HC, scalar_fmap.
    + destruct (scalar _ (credentials db)) as [c|]; [|done]. cbn.
      destruct (Hg c) as (G1 & G2 & G3 & ->). by rewrite (client_uuid_similar c (g c)).
    + intros c. by destruct (Hg c) as (-> & _).
Qed.

Lemma usage_same uid db db' L :
  same_identities db db' -> get_user uid db' = get_user uid db ->
  usage_for_user ring usage_digest uid db' L = usage_for_user ring usage_digest uid db L.
Proof.
  intros Hs Hu. unfold usage_for_user. rewrite Hu. destruct (get_user uid db); [|done].
  unfold devices_of. rewrite (si_devices _ _ Hs), (digests_same _ _ _ Hs). done.
Qed.

Lemma revoke_all_identities m now rows db : same_identities db (revoke_all m now rows db).
Proof.
  constructor.
  - apply revoke_all_frame.
  - intros m'. destruct (decide (m' = m)) as [->|Hne].
    + eexists. rewrite revoke_all_table. split; [done|]. intros r. cbv beta. by destruct (bool_decide (row_id r ∈ _)).
    + exists id. rewrite revoke_all_other by done. by rewrite list_fmap_id.
  - eexists. rewrite revoke_all_credentials. split; [done|]. intros c. cbv beta. by destruct (bool_decide (cred_id c ∈ _)).
Qed.

Lemma revoke_both_identities p now db : same_identities db (revoke_both p now db).
Proof. eapply same_identities_trans; apply revoke_all_identities. Qed.

(** *** Cutting one account off *)

Definition held_by (devs : list Z) (r : Row) : bool :=
  bool_decide (row_device r ∈ devs) && in_states _LIVE_CREDENTIAL_STATES (state r).

Lemma marked_twice p q now r :
  (forall r, q (to_revoking now r) = false) ->
  marked q now (marked p now r) = marked (fun r => p r || q r) now r.
Proof. intros Hq. unfold marked. destruct (p r); cbn; [by rewrite Hq|done]. Qed.

Lemma marked_ext p q now (rows : list Row) : (forall r, p r = q r) -> marked p now <$> rows = marked q now <$> rows.
Proof. intros Hpq. apply list_fmap_ext. intros _ r _. unfold marked. by rewrite Hpq. Qed.

Lemma held_by_revoking devs now r : held_by devs (to_revoking now r) = false.
Proof. unfold held_by. cbn. by rewrite andb_false_r. Qed.

Lemma held_by_cons dev devs now r :
  marked (held_by devs) now (marked (revocable dev) now r) = marked (held_by (dev :: devs)) now r.
Proof.
  rewrite marked_twice by apply held_by_revoking. unfold marked, revocable, held_by.
  rewrite (bool_decide_ext (row_device r ∈ dev :: devs) (row_device r = dev \/ row_device r ∈ devs)) by apply elem_of_cons.
  rewrite bool_decide_or, Z_eqb_bool_decide. by rewrite andb_orb_distrib_l.
Qed.

Lemma revoke_devices_spec devs now db n0 :
  db_wf db ->
  let db' := (foldl (fun '(n, db) dev => let '(k, db') := revoke_device_credentials dev now db in
                      (n + k, db')) (n0, db) devs).2 in
  db_wf db' /\ same_frame db db' /\ same_identities db db' /\
  (forall m, table m db' = marked (held_by devs) now <$> table m db).
Proof.
  revert db n0. induction devs as [|dev devs IH]; intros db n0 Hwf; cbn [foldl].
  - split; [done|]. split; [by repeat split|]. split.
    + constructor; [done| |by exists id; rewrite list_fmap_id]. intros m. exists id. by rewrite list_fmap_id.
    + intros m. symmetry. apply list_fmap_id.
  - rewrite revoke_device_both.
    destruct (revoke_both_spec (revocable dev) now db Hwf (revocable_live dev)) as (Hwf1 & Hf1 & Ht1).
    destruct (IH _ (n0 + (Z.of_nat (length (scalars (revocable dev) (wireguard_peers db))) +
      Z.of_nat (length (scalars (revocable dev) (xray_clients db))))) Hwf1) as (Hwf2 & Hf2 & Hi2 & Ht2).
    split; [done|]. split; [by eapply same_frame_trans|].
    split; [eapply same_identities_trans; [apply revoke_both_identities|exact Hi2]|].
    intros m. rewrite Ht2, Ht1, <- list_fmap_compose. apply list_fmap_ext. intros _ r _. apply held_by_cons.
Qed.

(** Access taken from devices, row by row: what was requested, applying or active is
    revoking, for reconciliation to take off its server; anything else is as it was. *)
Definition withdrawn (devs : list Z) (now : Z) (r r' : Row) : Prop :=
  if decide (row_device r ∈ devs /\
             state r ∈ [ProvisioningState.REQUESTED; ProvisioningState.APPLYING; ProvisioningState.ACTIVE])
  then r' = touch now (set_state ProvisioningState.REVOKING r) else r' = r.

Lemma marked_withdrawn devs now rows : Forall2 (withdrawn devs now) rows (marked (held_by devs) now <$> rows).
Proof.
  apply Forall2_fmap_r. apply Forall_Forall2_diag, Forall_forall. intros r _. unfold withdrawn, marked, held_by, in_states.
  cbn. rewrite <- bool_decide_and. by case_decide as Hd; [rewrite bool_decide_eq_true_2|rewrite bool_decide_eq_false_2].
Qed.
Lemma revocable_held dev r : revocable dev r = held_by [dev] r.
Proof.
  unfold revocable, held_by. rewrite Z_eqb_bool_decide. f_equal. apply bool_decide_ext. symmetry. apply list_elem_of_singleton.
Qed.
Lemma revoke_device_withdrawn dev now db m :
  db_wf db -> Forall2 (withdrawn [dev] now) (table m db) (table m (revoke_device_credentials dev now db).2).
Proof.
  intros Hwf. rewrite revoke_device_both. cbn [snd].
  destruct (revoke_both_spec (revocable dev) now db Hwf (revocable_live dev)) as (_ & _ & ->).
  rewrite (marked_ext _ (held_by [dev])) by apply revocable_held. apply marked_withdrawn.
Qed.

Lemma db_wf_users us db : db_wf db -> db_wf (with_users us db).
Proof. intros [[] ?]. by repeat constructor. Qed.

Lemma cut_off_spec uid now db u :
  db_wf db -> get_user uid db = Some u -> quota_exhausted_at u = None ->
  exists n db', _cut_off uid now db = (Ok n, db') /\ db_wf db' /\ same_identities db db' /\
    users db' = update user_id uid (set_exhausted now) (users db) /\
    (forall m, table m db' = marked (held_by (devices_of uid db)) now <$> table m db).
Proof.
  intros Hwf Hu Hx. unfold _cut_off, transaction. rewrite Hu, Hx. unfold revoke_devices.
  pose proof (revoke_devices_spec (devices_of uid db) now db 0 Hwf) as (Hwf1 & Hf & Hi & Ht).
  destruct (foldl _ _ _) as [n db1]. cbn [snd] in *.
  assert (Hwf2 : db_wf (add_audit_event (quota_exhausted_event uid) (update_user uid (set_exhausted now) db1)))
    by (by apply db_wf_audit, db_wf_users).
  rewrite (wf_constraints _ Hwf2). do 2 eexists. split; [done|]. split; [done|].
  destruct Hf as (Hus & _). split; [|split].
  - destruct Hi as [D R C]. constructor; [done| |done]. intros m. destruct (R m) as (h & E & Hh).
    exists h. split; [|done]. by rewrite <- E; destruct m.
  - cbn. by rewrite Hus.
  - intros m. rewrite <- Ht. by destruct m.
Qed.

(** *** The sweep *)

Definition spent L (db : DB) (uid : Z) : bool :=
  match get_user uid db with
  | Some u => metered u && Usage.is_exhausted (usage_for_user ring usage_digest uid db L)
  | None => false
  end.

Definition held_by_spent L (db : DB) (uids : list Z) (r : Row) : bool :=
  existsb (fun uid => spent L db uid && bool_decide (row_device r ∈ devices_of uid db)) uids &&
  in_states _LIVE_CREDENTIAL_STATES (state r).

Definition mark_user L (db : DB) (now : Z) (uids : list Z) (u : User) : User :=
  if bool_decide (user_id u ∈ uids) && spent L db (user_id u) then set_exhausted now u else u.

Lemma get_user_update uid uid' f db :
  (forall u, user_id (f u) = user_id u) ->
  scalar (fun u => user_id u =? uid') (update user_id uid f (users db)) =
    if uid' =? uid then f <$> get_user uid' db else get_user uid' db.
Proof. apply scalar_update. Qed.

Lemma same_identities_refl db : same_identities db db.
Proof.
  constructor; [done| |by exists id; rewrite list_fmap_id]. intros m. exists id. by rewrite list_fmap_id.
Qed.

Lemma held_by_spent_same L db db1 uids r :
  same_identities db db1 -> (forall v, v ∈ uids -> spent L db1 v = spent L db v) ->
  held_by_spent L db1 uids r = held_by_spent L db uids r.
Proof.
  intros Hi Hs. unfold held_by_spent. f_equal. apply existsb_ext_elem. intros v Hv.
  unfold devices_of. by rewrite (Hs v Hv), (si_devices _ _ Hi).
Qed.

(** What one cut-off and the sweep over the others amount to. *)
Lemma cut_off_then L now db db1 uid uids :
  same_identities db db1 -> spent L db uid = true -> uid ∉ uids ->
  (forall v, v ∈ uids -> spent L db1 v = spent L db v) ->
  (forall r, marked (held_by_spent L db1 uids) now (marked (held_by (devices_of uid db)) now r) =
             marked (held_by_spent L db (uid :: uids)) now r) /\
  (forall u, mark_user L db1 now uids (if user_id u =? uid then set_exhausted now u else u) =
             mark_user L db now (uid :: uids) u).
Proof.
  intros Hi Hu Hn Hs. split.
  - intros r. rewrite marked_twice by (intros r'; unfold held_by_spent; cbn; by rewrite andb_false_r).
    unfold marked. rewrite (held_by_spent_same L db db1 uids r Hi Hs).
    unfold held_by_spent, held_by. cbn [existsb]. rewrite Hu. by rewrite <- andb_orb_distrib_l.
  - intros u. unfold mark_user. destruct (user_id u =? uid) eqn:He; boolP.
    + rewrite He. cbn [set_exhausted user_id]. rewrite He.
      rewrite (bool_decide_eq_false_2 (uid ∈ uids)) by done.
      rewrite (bool_decide_eq_true_2 (uid ∈ uid :: uids)) by (by left). by rewrite Hu.
    + rewrite (bool_decide_ext (user_id u ∈ uid :: uids) (user_id u ∈ uids))
        by (rewrite elem_of_cons; naive_solver).
      case_bool_decide; [|done]. by rewrite Hs.
Qed.

Lemma mark_user_skip L now db uid uids u :
  spent L db uid = false -> mark_user L db now (uid :: uids) u = mark_user L db now uids u.
Proof.
  intros Hs. unfold mark_user. destruct (decide (user_id u = uid)) as [He|He].
  - rewrite He, Hs, !andb_false_r. done.
  - by rewrite (bool_decide_ext (user_id u ∈ uid :: uids) (user_id u ∈ uids))
      by (rewrite elem_of_cons; naive_solver).
Qed.

Lemma enforce_each_spec now L uids db rev ex :
  db_wf db -> NoDup (user_id <$> users db) -> NoDup uids ->
  (forall uid, uid ∈ uids -> exists u, get_user uid db = Some u /\ metered u = true) ->
  exists n db', enforce_each ring usage_digest now L uids rev ex db =
      (Ok (rev + n, ex ++ filter (fun uid => spent L db uid = true) uids), db') /\
    db_wf db' /\ same_identities db db' /\
    users db' = mark_user L db now uids <$> users db /\
    (forall m, table m db' = marked (held_by_spent L db uids) now <$> table m db).
Proof.
  revert db rev ex. induction uids as [|uid uids IH]; intros db rev ex Hwf Hnu Hnd Hm.
  { exists 0, db. cbn. rewrite Z.add_0_r, app_nil_r. split; [done|]. split; [done|].
    split; [apply same_identities_refl|].
    split; [symmetry; apply list_fmap_id|]. intros m. symmetry. apply list_fmap_id. }
  apply NoDup_cons in Hnd as [Huid Hnd].
  destruct (Hm uid) as (u & Hu & Hmu); [by left|]. cbn [enforce_each].
  rewrite (bind_ok _ _ db db db) by done. rewrite filter_cons.
  assert (Hsp : spent L db uid = Usage.is_exhausted (usage_for_user ring usage_digest uid db L)).
  { unfold spent. by rewrite Hu, Hmu. }
  destruct (Usage.is_exhausted _) eqn:Hex.
  - rewrite decide_True by done.
    assert (Hxn : quota_exhausted_at u = None).
    { unfold metered in Hmu. by destruct (traffic_quota_bytes u), (quota_exhausted_at u). }
    destruct (cut_off_spec uid now db u Hwf Hu Hxn) as (n & db1 & Hcut & Hwf1 & Hi1 & Hus1 & Ht1).
    rewrite (bind_ok _ _ _ _ _ Hcut).
    assert (Hget : forall v, v ∈ uids -> get_user v db1 = get_user v db).
    { intros v Hv. unfold get_user at 1. rewrite Hus1, get_user_update by done.
      destruct (v =? uid) eqn:He; boolP; [|done]. by subst. }
    assert (Hsame : forall v, v ∈ uids -> spent L db1 v = spent L db v).
    { intros v Hv. unfold spent. rewrite (Hget v Hv). destruct (get_user v db) eqn:Hgv; [|done].
      rewrite (usage_same v db db1); [done|done|]. by apply Hget. }
    destruct (IH db1 (rev + n) (ex ++ [uid]) Hwf1) as (n2 & db2 & Heq & Hwf2 & Hi2 & Hus2 & Ht2);
      [by rewrite Hus1, update_ids|done|intros v Hv; rewrite Hget by done; apply Hm; by right|].
    destruct (cut_off_then L now db db1 uid uids Hi1 Hsp Huid Hsame) as [Htab Husr].
    exists (n + n2), db2. rewrite Heq. split; [|split; [done|split; [by eapply same_identities_trans|split]]].
    + rewrite Z.add_assoc, <- app_assoc. cbn. do 5 f_equal.
      apply filter_ext_elem. intros v Hv. by rewrite Hsame.
    + rewrite Hus2, Hus1. unfold update. rewrite <- list_fmap_compose. apply list_fmap_ext.
      intros _ v _. apply Husr.
    + intros m. rewrite Ht2, Ht1, <- list_fmap_compose. apply list_fmap_ext. intros _ r _. apply Htab.
  - rewrite decide_False by congruence.
    destruct (IH db rev ex Hwf Hnu Hnd) as (n2 & db2 & Heq & Hwf2 & Hi2 & Hus2 & Ht2);
      [intros v Hv; apply Hm; by right|].
    exists n2, db2. split; [done|]. split; [done|]. split; [done|]. split.
    + rewrite Hus2. apply list_fmap_ext. intros _ v _. symmetry. by apply mark_user_skip.
    + intros m. rewrite Ht2. apply marked_ext. intros r. unfold held_by_spent. cbn [existsb].
      by rewrite Hsp.
Qed.

(** A quota is a limit.  One sweep always completes; afterwards every
    account that was metered, not yet marked and had used up its allowance
    is marked exhausted and none of its devices' peers and clients is requested,
    applying or active any more; every other account and every other peer or
    client is exactly as it was; and the summary names exactly the
    accounts that were cut off, in the order of the table. *)
Theorem quota_sweep_cuts_off_exactly_the_spent now L db :
  db_wf db -> NoDup (user_id <$> users db) ->
  let uids := user_id <$> scalars metered (users db) in
  exists s db', enforce_traffic_quotas ring usage_digest now L db = (Ok s, db') /\ db_wf db' /\
    account_ids s = filter (fun uid => spent L db uid = true) uids /\
    accounts_checked s = Z.of_nat (length uids) /\
    (forall uid, get_user uid db' =
       (fun u => if spent L db uid then set_exhausted now u else u) <$> get_user uid db) /\
    (forall m, table m db' = marked (held_by_spent L db uids) now <$> table m db) /\
    (forall uid r, spent L db uid = true -> r ∈ all_rows db' ->
       row_device r ∈ devices_of uid db -> in_states _LIVE_CREDENTIAL_STATES (state r) = false).
Proof.
  intros Hwf Hnu uids.
  assert (Hin : forall u, u ∈ users db -> get_user (user_id u) db = Some u).
  { intros u Hu. by apply scalar_id. }
  assert (Hnd : NoDup uids).
  { eapply sublist_NoDup; [exact Hnu|]. apply fmap_sublist, sublist_filter. }
  assert (Hmet : forall uid, uid ∈ uids -> exists u, get_user uid db = Some u /\ metered u = true).
  { intros uid Hu. apply list_elem_of_fmap in Hu as (u & -> & Hu). apply elem_of_scalars in Hu as [Hu ?].
    exists u. auto. }
  assert (Hsp : forall uid, spent L db uid = true -> uid ∈ uids).
  { intros uid Hs. unfold spent in Hs. destruct (get_user uid db) as [u|] eqn:Hu; [|done]. boolP.
    apply scalar_Some in Hu as [Hu Hid]. boolP. subst. apply list_elem_of_fmap_2. by apply elem_of_scalars. }
  destruct (enforce_each_spec now L uids db 0 [] Hwf Hnu Hnd Hmet)
    as (n & db' & Heq & Hwf' & _ & Hus & Ht).
  unfold enforce_traffic_quotas. rewrite (bind_ok _ _ db db db) by done. fold uids.
  rewrite (bind_ok _ _ _ _ _ Heq). do 2 eexists. split; [done|]. split; [done|].
  split; [done|]. split; [done|]. split; [|split; [done|]].
  - intros uid. unfold get_user at 1. rewrite Hus, scalar_fmap by (intros u; unfold mark_user; by destruct (_ && _)).
    fold (get_user uid db). destruct (get_user uid db) as [u|] eqn:Hu; [|done]. cbn. f_equal.
    apply scalar_Some in Hu as [_ Hid]. boolP. unfold mark_user. rewrite Hid.
    destruct (spent L db uid) eqn:Hs; [|by rewrite andb_false_r].
    by rewrite bool_decide_eq_true_2 by auto.
  - intros uid r Hs Hr Hdev. unfold all_rows in Hr.
    change (wireguard_peers ?d) with (table WireGuardPeer d) in Hr.
    change (xray_clients ?d) with (table XrayClient d) in Hr. rewrite !Ht in Hr.
    apply elem_of_app in Hr as [Hr|Hr]; apply list_elem_of_fmap in Hr as (r0 & -> & _);
      revert Hdev; unfold marked; destruct (held_by_spent L db uids r0) eqn:Hh; try done; intros Hdev;
      unfold held_by_spent in Hh; apply andb_false_iff in Hh as [Hh|Hh]; try done;
      exfalso; apply not_true_iff_false in Hh; apply Hh, existsb_exists; exists uid;
      (split; [by apply list_elem_of_In, Hsp|]); by rewrite Hs, bool_decide_eq_true_2.
Qed.

Lemma update_user_identities uid f db : same_identities db (update_user uid f db).
Proof.
  destruct (same_identities_refl db) as [D R C].
  constructor; [done|intros []; [exact (R WireGuardPeer)|exact (R XrayClient)]|done].
Qed.

Lemma usage_after_grant uid q b L db u :
  get_user uid db = Some u ->
  let a := usage_for_user ring usage_digest uid db L in
  usage_for_user ring usage_digest uid (update_user uid (set_quota q b) db) L =
    {| Usage.a_rx_bytes := Usage.a_rx_bytes a; Usage.a_tx_bytes := Usage.a_tx_bytes a;
       Usage.quota_bytes := q; Usage.baseline_bytes := b; Usage.exhausted_at := None |}.
Proof.
  intros Hu. unfold usage_for_user.
  assert (Hg : get_user uid (update_user uid (set_quota q b) db) = Some (set_quota q b u)).
  { unfold get_user at 1. cbn [update_user with_users users]. rewrite get_user_update by done.
    by rewrite Z.eqb_refl, Hu. }
  rewrite Hg, Hu. unfold devices_of.
  pose proof (update_user_identities uid (set_quota q b) db) as Hi.
  by rewrite (si_devices _ _ Hi), (digests_same _ _ _ Hi).
Qed.

(** A grant is a fresh allowance.  Right after it the account has used
    nothing of it, holds all of it, and is not exhausted unless the
    allowance is zero; the mark of the spent one is gone, so provisioning
    no longer refuses the account; the figures of every other account are
    untouched; an unknown account is refused without a change. *)
Theorem grant_starts_a_fresh_allowance uid q L db :
  db_wf db -> (forall v, q = Some v -> 0 <= v) ->
  match get_user uid db with
  | None => grant_traffic_quota ring usage_digest uid q L db = (Err UserNotFound, db)
  | Some u => exists c db', grant_traffic_quota ring usage_digest uid q L db = (Ok c, db') /\ db_wf db' /\
      let a := usage_for_user ring usage_digest uid db' L in
      Usage.total_bytes a = 0 /\ Usage.remaining_bytes a = q /\
      Usage.is_exhausted a = bool_decide (q = Some 0) /\ Usage.exhausted_at a = None /\
      restored_access c = bool_decide (quota_exhausted_at u <> None) /\
      previous_used_bytes c = Usage.total_bytes (usage_for_user ring usage_digest uid db L) /\
      forall uid', uid' <> uid ->
        usage_for_user ring usage_digest uid' db' L = usage_for_user ring usage_digest uid' db L
  end.
Proof.
  intros Hwf Hq. unfold grant_traffic_quota, transaction.
  destruct (get_user uid db) as [u|] eqn:Hu; [|by destruct db].
  assert (Hwf' : forall b, db_wf (update_user uid (set_quota q b) db)) by (intros; by apply db_wf_users).
  rewrite (wf_constraints _ (Hwf' _)). do 2 eexists. split; [done|]. split; [done|].
  cbv zeta. rewrite (usage_after_grant _ _ _ _ _ u Hu).
  set (a := usage_for_user ring usage_digest uid db L).
  set (a' := {| Usage.a_rx_bytes := Usage.a_rx_bytes a; Usage.a_tx_bytes := Usage.a_tx_bytes a;
                Usage.quota_bytes := q; Usage.baseline_bytes := Usage.lifetime_bytes a;
                Usage.exhausted_at := None |}).
  assert (Ht : Usage.total_bytes a' = 0).
  { unfold Usage.total_bytes, a'. cbn. unfold Usage.lifetime_bytes. cbn. lia. }
  split; [done|]. unfold Usage.remaining_bytes, Usage.is_exhausted. rewrite Ht. cbn.
  split; [|split; [|split; [done|split; [|split; [done|]]]]].
  - destruct q as [v|]; [|done]. cbn. f_equal. specialize (Hq v eq_refl). lia.
  - destruct q as [v|]; [|done]. specialize (Hq v eq_refl).
    case_bool_decide; simplify_eq; [done|]. apply Z.leb_gt. destruct (decide (v = 0)); [congruence|lia].
  - by destruct (quota_exhausted_at u).
  - intros v Hv. apply usage_same; [apply update_user_identities|].
    unfold get_user at 1. cbn [update_user with_users users]. rewrite get_user_update by done.
    by destruct (v =? uid) eqn:He; boolP.
Qed.

End Quotas.

(** ** Examples *)

Lemma revoke_device_marks_everything_witness :
  let db' := (revoke_device_credentials 2 1000 (example_db ProvisioningState.ACTIVE)).2 in
  table WireGuardPeer db' = [example_row ProvisioningState.REVOKING 1000] /\
  credentials_awaiting_removal db' = true.
Proof.
  pose proof (revoke_device_marks_everything 2 1000 (example_db ProvisioningState.ACTIVE)
    (example_db_wf _)) as H.
  destruct (revoke_device_credentials 2 1000 (example_db ProvisioningState.ACTIVE)) as [n db'].
  destruct H as (_ & Hn & Ht & _ & _ & Hw). split; [by rewrite Ht|]. apply Hw. by rewrite Hn.
Defined.

Lemma expiry_revokes_exactly_the_lapsed_witness :
  exists s db', enforce_access_expiry 5000 (example_db ProvisioningState.ACTIVE) = (Ok s, db') /\
    table WireGuardPeer db' = [example_row ProvisioningState.REVOKING 5000] /\
    x_credentials_revoked s = 1.
Proof.
  destruct (expiry_revokes_exactly_the_lapsed 5000 (example_db ProvisioningState.ACTIVE) (example_db_wf _))
    as (s & db' & H & _ & Ht & _ & _ & Hn & _).
  exists s, db'. split; [exact H|]. split; [by rewrite Ht|]. by rewrite Hn.
Defined.

(** The peer of the example has moved [n] bytes. *)
Definition example_usage (n : Z) : gmap (text * text) Usage.CredentialUsage :=
  {[ (str "wireguard", example_public_key "p"%char) :=
       {| Usage.rx_bytes := n; Usage.tx_bytes := 0; Usage.last_rx_reading := n;
          Usage.last_tx_reading := 0; Usage.last_collected_at := Some 1; Usage.last_active_at := Some 1 |} ]}.

Lemma quota_sweep_cuts_off_exactly_the_spent_witness :
  exists s db', @enforce_traffic_quotas plain_aead [] id 1000 (example_usage 120)
                  (example_db ProvisioningState.ACTIVE) = (Ok s, db') /\
    account_ids s = [1] /\ table WireGuardPeer db' = [example_row ProvisioningState.REVOKING 1000].
Proof.
  destruct (@quota_sweep_cuts_off_exactly_the_spent plain_aead [] id 1000 (example_usage 120)
    (example_db ProvisioningState.ACTIVE) (example_db_wf _) (NoDup_singleton _))
    as (s & db' & H & _ & Ha & _ & _ & Ht & _).
  exists s, db'. split; [exact H|]. clear H. rewrite Ha, Ht. split; vm_compute; reflexivity.
Defined.

Lemma grant_starts_a_fresh_allowance_witness :
  exists c db', @grant_traffic_quota plain_aead [] id 1 (Some 500) (example_usage 120)
                  (example_db ProvisioningState.ACTIVE) = (Ok c, db') /\
    Usage.remaining_bytes (@usage_for_user plain_aead [] id 1 db' (example_usage 120)) = Some 500.
Proof.
  pose proof (@grant_starts_a_fresh_allowance plain_aead [] id 1 (Some 500) (example_usage 120)
    (example_db ProvisioningState.ACTIVE) (example_db_wf _)) as H.
  destruct H as (c & db' & H & _ & _ & Hr & _); [intros v [= <-]; lia|]. exists c, db'. split; [exact H|exact Hr].
Defined.

End Access.
