(* ===== verification/AuthStore.v ===== *)
(** * Identities, passwords and the rows behind a sign-in

    Models [nebula_api/identity.py], [nebula_api/passwords.py],
    [nebula_api/auth/session_revocation.py], [nebula_api/account_erasure.py], the
    unique indexes of [nebula_api/models/identity.py] and [models/approval.py],
    and transactions that may also call Redis.  Argon2 and the
    [email_validator] package are parameters. *)

From S2P Require Import Prelude PyText PyBytes IpAddress Usage ApiStore XrayCredential Access OpaqueToken RedisState.
Import Db.

(** ** identity.py *)

Module Identity.

(** [unicodedata.normalize("NFKC", ...)] of one code point below 256.  [wide]
    stands for a code point of 256 or more: what matters of it here is that it
    is neither ASCII nor white space. *)
Definition wide : ascii := chr 255.
Definition nfkc_char (c : ascii) : text :=
  let n := code c in
  if n =? 160 then str " "
  else if (n =? 168) || (n =? 175) || (n =? 180) || (n =? 184) then str " " ++ [wide]
  else if n =? 170 then str "a"
  else if n =? 178 then str "2"
  else if n =? 179 then str "3"
  else if n =? 181 then [wide]
  else if n =? 185 then str "1"
  else if n =? 186 then str "o"
  else if n =? 188 then str "1" ++ [wide] ++ str "4"
  else if n =? 189 then str "1" ++ [wide] ++ str "2"
  else if n =? 190 then str "3" ++ [wide] ++ str "4"
  else [c].

(** [str.casefold]; the Greek letter U+00B5 folds to is left as it is. *)
Definition casefold_char (c : ascii) : text :=
  let n := code c in
  if n =? 223 then str "ss"
  else if ((65 <=? n) && (n <=? 90)) || ((192 <=? n) && (n <=? 222) && negb (n =? 215)) then [chr (n + 32)]
  else [c].
Definition casefold (t : text) : text := t ≫= casefold_char.

Definition user_edge (c : ascii) : bool :=
  ((97 <=? code c) && (code c <=? 122)) || ((48 <=? code c) && (code c <=? 57)).
Definition user_char (c : ascii) : bool := user_edge c || bool_decide (c ∈ str "_.-").

(** [_USERNAME_PATTERN]: [[a-z0-9][a-z0-9_.-]{1,30}[a-z0-9]] *)
Definition username_match (t : text) : bool :=
  match t with
  | c :: r =>
      user_edge c && match last r with Some d => user_edge d | None => false end &&
      forallb user_char r && Nat.leb 2 (length r) && Nat.leb (length r) 31
  | [] => false
  end.

Definition normalize_username (value : text) : option text :=
  let candidate := casefold (strip (value ≫= nfkc_char)) in
  if forallb (fun c => code c <? 128) candidate && username_match candidate then Some candidate else None.

(** [validate_email candidate] is the package's normalised address, or [None]
    for [EmailNotValidError]; NFC leaves code points below 256 as they are. *)
Class EmailValidator := validate_email : text -> option text.
Definition normalize_email `{EmailValidator} (value : text) : option text := casefold <$> validate_email (strip value).

Example username_examples :
  normalize_username (str " Ada.Lovelace ") = Some (str "ada.lovelace") /\
  normalize_username (str "ad") = None /\ normalize_username (str "-ada") = None /\
  normalize_username [chr 170; "D"%char; chr 223] = Some (str "adss").
Proof. vm_compute. done. Qed.

(** A normalised username is 3 to 32 characters and normalises to itself. *)
Lemma casefold_id t : Forall (fun c => user_char c = true) t -> casefold t = t.
Proof.
  induction 1 as [|c t Hc _ IH]; [done|]. change (casefold (c :: t)) with (casefold_char c ++ casefold t).
  rewrite IH. enough (casefold_char c = [c]) as -> by done. unfold user_char, user_edge in Hc. unfold casefold_char.
  assert (code c = 95 \/ code c = 46 \/ code c = 45 \/ 97 <= code c <= 122 \/ 48 <= code c <= 57) as Hr.
  { apply orb_true_iff in Hc as [Hc|Hc]; [apply orb_true_iff in Hc as [Hc|Hc]; boolP; lia|]. boolP.
    repeat (apply elem_of_cons in Hc as [->|Hc]; [vm_compute; tauto|]). by apply not_elem_of_nil in Hc. }
  rewrite (proj2 (Z.eqb_neq _ _)) by lia.
  rewrite (proj2 (Z.leb_gt 192 (code c))) by lia. rewrite andb_false_l, orb_false_r.
  destruct ((65 <=? code c) && (code c <=? 90)) eqn:He; [boolP; lia|done].
Qed.

Lemma normalize_username_shape value t :
  normalize_username value = Some t -> username_match t = true /\ Forall (fun c => user_char c = true) t.
Proof.
  unfold normalize_username. destruct (_ && _) eqn:Hm; [|done]. intros [= <-]. boolP. split; [done|].
  destruct (casefold _) as [|c r]; [constructor|]. cbn in H0. boolP. constructor; [unfold user_char; by rewrite H0|].
  apply Forall_forall. intros d Hd. rewrite forallb_forall in H3. apply H3. by apply list_elem_of_In.
Qed.

End Identity.

(** ** passwords.py *)

Module Passwords.

(** Argon2id: [argon2_hash password salt] is the encoded hash. *)
Class Argon2 := {
  argon2_hash : text -> text -> text;
  argon2_verify : text -> text -> bool;
  argon2_needs_rehash : text -> bool;
  argon2_verify_hash password salt : argon2_verify (argon2_hash password salt) password = true;
  argon2_hash_nonempty password salt : argon2_hash password salt <> [];
}.

Definition _MINIMUM_CHARACTERS : nat := 12.
Definition MAXIMUM_PASSWORD_UTF8_BYTES : nat := 1024.

(** [None] is [ValueError]. *)
Definition validate_password (password : text) : bool :=
  Nat.leb _MINIMUM_CHARACTERS (length password) && Nat.leb (length (utf8 password)) MAXIMUM_PASSWORD_UTF8_BYTES.

Definition hash_password `{Argon2} (password salt : text) : option text :=
  if validate_password password then Some (argon2_hash password salt) else None.

(** [password_hash or _DUMMY_PASSWORD_HASH] *)
Definition verify_password_or_dummy `{Argon2} (dummy : text) (password_hash : option text) (candidate : text) : bool :=
  match password_hash with
  | Some (c :: r) => argon2_verify (c :: r) candidate
  | _ => argon2_verify dummy candidate
  end.

End Passwords.

(** ** auth/session_revocation.py *)

Module SessionRevocation.

Definition set_session_revoked (now : Z) (s : UserSession) : UserSession :=
  {| session_id := session_id s; session_user := session_user s; session_device := session_device s;
     family_id := family_id s; session_state := LifecycleState.REVOKED; session_expires_at := session_expires_at s;
     last_seen_at := last_seen_at s; session_revoked_at := Some now; session_created_at := session_created_at s |}.
Definition set_token_revoked (now : Z) (t : Token) : Token :=
  {| token_id := token_id t; token_owner := token_owner t; token_version := token_version t;
     token_digest := token_digest t; token_state := TokenState.REVOKED; token_expires_at := token_expires_at t;
     token_consumed_at := token_consumed_at t; token_revoked_at := Some now; token_link := token_link t;
     token_created_at := token_created_at t |}.

Definition session_active (s : UserSession) : bool := bool_decide (session_state s = LifecycleState.ACTIVE).
Definition token_active (t : Token) : bool := bool_decide (token_state t = TokenState.ACTIVE).

(** The active refresh tokens of these sessions. *)
Definition revoke_refresh_tokens (ids : list Z) (now : Z) (db : DB) : DB :=
  with_refresh_tokens
    (update_where (fun t => bool_decide (token_owner t ∈ ids) && token_active t) (set_token_revoked now)
       (refresh_tokens (auth db))) db.
Definition revoke_sessions_where (where_ : UserSession -> bool) (now : Z) (db : DB) : DB :=
  with_sessions (update_where where_ (set_session_revoked now) (sessions (auth db))) db.

Definition revoke_active_device_sessions (dev now : Z) (db : DB) : DB :=
  let session_ids := session_id <$> scalars (fun s => (session_device s =? dev) && session_active s) (sessions (auth db)) in
  if bool_decide (session_ids = []) then db
  else revoke_refresh_tokens session_ids now
         (revoke_sessions_where (fun s => bool_decide (session_id s ∈ session_ids)) now db).

Definition revoke_session (s : UserSession) (now : Z) (db : DB) : DB :=
  revoke_refresh_tokens [session_id s] now
    (if session_active s then revoke_sessions_where (fun x => session_id x =? session_id s) now db else db).

Definition revoke_all_user_sessions (user now : Z) (db : DB) : DB :=
  let session_ids := session_id <$> scalars (fun s => session_user s =? user) (sessions (auth db)) in
  if bool_decide (session_ids = []) then db
  else revoke_refresh_tokens session_ids now
         (revoke_sessions_where (fun s => bool_decide (session_id s ∈ session_ids) && session_active s) now db).

End SessionRevocation.

(** ** account_erasure.py *)

Module Erasure.

(** PostgreSQL's [lower], whatever the database's locale makes of it. *)
Class PgLower := pg_lower : text -> text.

Definition erase_device (now : Z) (d : Device) : Device :=
  {| device_id := device_id d; device_user := device_user d; device_state := LifecycleState.REVOKED;
     device_name := str "deleted"; platform := platform d; client_version := client_version d;
     device_revoked_at := if bool_decide (device_state d = LifecycleState.REVOKED) then device_revoked_at d else Some now;
     hardware_key_version := None; hardware_hash := None; device_dns_profile := device_dns_profile d |}.

Definition erase_user (placeholder : text) (now : Z) (u : User) : User :=
  {| user_id := user_id u; email := placeholder; email_normalized := placeholder; username := None;
     username_normalized := None; password_hash := None; user_state := AccountState.DISABLED;
     device_limit := device_limit u; user_expires_at := user_expires_at u; activated_at := activated_at u;
     disabled_at := Some now; traffic_quota_bytes := traffic_quota_bytes u;
     traffic_baseline_bytes := traffic_baseline_bytes u; quota_exhausted_at := quota_exhausted_at u;
     user_dns_profile := user_dns_profile u |}.

Definition erase_one_device (now : Z) (db : DB) (d : Device) : DB :=
  let '(_, db1) := Access.revoke_device_credentials (device_id d) now db in
  with_devices (update device_id (device_id d) (erase_device now) (devices db1)) db1.

Section Erase.
Context `{PgLower}.

Definition names_person (user : User) (r : AccountRequest) : bool :=
  bool_decide (request_user r = Some (user_id user)) ||
  bool_decide (request_email_normalized r = email_normalized user).
Definition mail_of_person (user : User) (e : EmailDelivery) : bool :=
  bool_decide (pg_lower (recipient_address e) = email_normalized user) ||
  (bool_decide (subject_kind e = str "user") && (subject_id e =? user_id user)).

(** [user] is the row as it was read. *)
Definition erase_account {E} (user : User) (now : Z) : prog DB E unit := fun db =>
  let db1 := foldl (erase_one_device now) db (scalars (fun d => device_user d =? user_id user) (devices db)) in
  let session_ids := session_id <$> scalars (fun s => session_user s =? user_id user) (sessions (auth db1)) in
  let db2 := with_refresh_tokens
    (delete_where (fun t => bool_decide (token_owner t ∈ session_ids)) (refresh_tokens (auth db1))) db1 in
  let db3 := with_sessions (delete_where (fun s => session_user s =? user_id user) (sessions (auth db2))) db2 in
  let db4 := with_user_activations
    (delete_where (fun t => token_owner t =? user_id user) (user_activations (auth db3))) db3 in
  let db5 := with_password_reset_tokens
    (delete_where (fun t => token_owner t =? user_id user) (password_reset_tokens (auth db4))) db4 in
  let requests := request_id <$> scalars (names_person user) (account_requests (auth db5)) in
  let db6 := with_account_request_events
    (delete_where (fun e => bool_decide (event_request e ∈ requests)) (account_request_events (auth db5))) db5 in
  let db7 := with_account_requests (delete_where (names_person user) (account_requests (auth db6))) db6 in
  let db8 := with_email_deliveries (delete_where (mail_of_person user) (email_deliveries (auth db7))) db7 in
  let db9 := with_permissions (delete_where (fun p => perm_user p =? user_id user) (permissions db8)) db8 in
  let db10 := with_assignments (delete_where (fun a => asg_user a =? user_id user) (assignments db9)) db9 in
  let placeholder := str "deleted-" ++ pad_hex (next_id db10) ++ str "@deleted.invalid" in
  let db11 := with_next_id (next_id db10 + 1) db10 in
  (Ok tt, Access.update_user (user_id user) (erase_user placeholder now) db11).

End Erase.
End Erasure.

(** ** Unique indexes and transactions *)

Module AuthTx.
Import SessionRevocation.

Definition in_use (u : User) : bool := bool_decide (username_normalized u <> None).
Definition hardware_active (d : Device) : bool :=
  bool_decide (device_state d = LifecycleState.ACTIVE) && bool_decide (hardware_hash d <> None).
Definition request_pending (r : AccountRequest) : bool := bool_decide (request_state r = RequestState.PENDING).
Definition always {A} (_ : A) : bool := true.

Definition totp_in (s : TotpState.t) (c : AdminTotpCredential) : bool := bool_decide (totp_state c = s).
Definition code_active (c : AdminMfaRecoveryCode) : bool := bool_decide (code_state c = TokenState.ACTIVE).
(** The unique indexes of the administrators' tables, and the [CHECK]
    constraints of [admin_passkeys]. *)
Definition admin_constraints (a : AuthTables) : bool :=
  unique always admin_email_normalized (admins a) &&
  unique (fun x => bool_decide (admin_username_normalized x <> None)) admin_username_normalized (admins a) &&
  unique (totp_in TotpState.active) totp_admin (totp_credentials (factors a)) &&
  unique (totp_in TotpState.pending) totp_admin (totp_credentials (factors a)) &&
  unique always code_digest (recovery_codes (factors a)) &&
  unique always passkey_credential (passkeys (factors a)) &&
  forallb (fun p => (0 <=? sign_count p) && Nat.leb 1 (length (passkey_name p)) && Nat.leb (length (passkey_name p)) 64)
    (passkeys (factors a)).

(** [EMAIL_TEMPLATE_CODES], [EMAIL_STATES], [EMAIL_SUBJECT_KINDS] *)
Definition EMAIL_TEMPLATE_CODES : list text :=
  [str "account_request_review"; str "user_activation"; str "password_reset"; str "request_rejected"].
Definition EMAIL_STATES : list text := [str "pending"; str "sending"; str "sent"; str "failed"; str "cancelled"].
Definition EMAIL_SUBJECT_KINDS : list text := [str "account_request"; str "user"; str "admin"].
Definition length_between (lo hi : nat) (t : text) : bool := Nat.leb lo (length t) && Nat.leb (length t) hi.
Definition if_set {A} (p : A -> bool) (o : option A) : bool := match o with Some a => p a | None => true end.
(** [^[a-z0-9][a-z0-9_.-]{0,63}$] *)
Definition result_code_format (t : text) : bool :=
  let alnum c := OpaqueToken.is_lower c || OpaqueToken.is_digit c in
  match t with
  | c :: r => alnum c && Nat.leb (length r) 63 && forallb (fun x => alnum x || bool_decide (x ∈ str "_.-")) r
  | [] => false
  end.
(** The [CHECK] constraints of [email_deliveries]. *)
Definition mail_checks (e : EmailDelivery) : bool :=
  bool_decide (template_code e ∈ EMAIL_TEMPLATE_CODES) && bool_decide (delivery_state e ∈ EMAIL_STATES) &&
  bool_decide (subject_kind e ∈ EMAIL_SUBJECT_KINDS) && (0 <=? delivery_attempts e) && (delivery_attempts e <=? 100) &&
  length_between 3 320 (recipient_address e) && if_set (length_between 1 255) (provider_message_id e) &&
  if_set result_code_format (delivery_result e) && if_set (fun s => available_at e <=? s) (sent_at e) &&
  (negb (bool_decide (delivery_state e = str "sent")) || bool_decide (is_Some (sent_at e))).
Definition mail_constraints (a : AuthTables) : bool :=
  unique always deduplication_key (email_deliveries a) && forallb mail_checks (email_deliveries a).

(** The [CHECK] constraints of [users] and [devices]. *)
Definition DNS_PROFILES : list text := [str "default"; str "ads"; str "family"].
Definition user_checks (u : User) : bool :=
  (0 <? device_limit u) && bool_decide (user_dns_profile u ∈ DNS_PROFILES) &&
  bool_decide (username u = None <-> username_normalized u = None) &&
  (negb (bool_decide (user_state u = AccountState.ACTIVE)) ||
   (bool_decide (is_Some (password_hash u)) && bool_decide (is_Some (activated_at u)))).
Definition device_checks (d : Device) : bool :=
  if_set (fun p => bool_decide (p ∈ DNS_PROFILES)) (device_dns_profile d) &&
  bool_decide (device_state d = LifecycleState.REVOKED <-> is_Some (device_revoked_at d)).
Definition people_constraints (db : DB) : bool := forallb user_checks (users db) && forallb device_checks (devices db).

(** The [CHECK] constraints, unique indexes and foreign keys of
    [user_protocol_permissions] and [user_server_assignments]. *)
Definition permission_checks (p : UserProtocolPermission) : bool :=
  if_set (fun t => perm_granted_at p <? t) (perm_expires_at p) && if_set (fun t => perm_granted_at p <=? t) (perm_revoked_at p) &&
  (bool_decide (perm_state p = CapabilityState.DISABLED) || bool_decide (perm_revoked_at p = None)).
Definition assignment_active (a : UserServerAssignment) : bool := bool_decide (asg_state a = LifecycleState.ACTIVE).
Definition assignment_checks (a : UserServerAssignment) : bool :=
  if_set (fun t => asg_assigned_at a <? t) (asg_expires_at a) && if_set (fun t => asg_assigned_at a <=? t) (asg_revoked_at a) &&
  bool_decide (asg_state a = LifecycleState.REVOKED <-> is_Some (asg_revoked_at a)).
Definition refers {A} (key : A -> Z) (rows : list A) (i : Z) : bool := existsb (fun x => key x =? i) rows.
Definition grant_constraints (db : DB) : bool :=
  forallb permission_checks (permissions db) && unique always (fun p => (perm_user p, perm_profile p)) (permissions db) &&
  forallb assignment_checks (assignments db) && unique assignment_active (fun a => (asg_user a, asg_server a)) (assignments db) &&
  forallb (fun p => refers user_id (users db) (perm_user p) && refers profile_id (profiles db) (perm_profile p) &&
                    if_set (refers admin_user_id (admins (auth db))) (perm_granted_by p)) (permissions db) &&
  forallb (fun a => refers user_id (users db) (asg_user a) && refers server_id (servers db) (asg_server a) &&
                    if_set (refers admin_user_id (admins (auth db))) (asg_assigned_by a)) (assignments db).

Definition auth_constraints (db : DB) : bool :=
  admin_constraints (auth db) &&
  people_constraints db &&
  grant_constraints db &&
  mail_constraints (auth db) &&
  unique always email_normalized (users db) &&
  unique in_use username_normalized (users db) &&
  unique hardware_active (fun d => (device_user d, hardware_hash d)) (devices db) &&
  unique session_active session_device (sessions (auth db)) &&
  unique always token_digest (refresh_tokens (auth db)) &&
  unique token_active token_owner (refresh_tokens (auth db)) &&
  unique always token_digest (password_reset_tokens (auth db)) &&
  unique token_active token_owner (password_reset_tokens (auth db)) &&
  unique always token_digest (user_activations (auth db)) &&
  unique token_active token_owner (user_activations (auth db)) &&
  unique request_pending request_email_normalized (account_requests (auth db)).

(** The services' world: the database and the connection to Redis. *)
Record world := { db : DB; redis : RedisState.conn }.
Definition with_db (d : DB) (w : world) : world := {| db := d; redis := redis w |}.

Section Tx.
Context {E : Type}.

(** Inside [async with session_factory() as session]: an exception raised
    before [commit] undoes what was done, one raised after it does not. *)
Inductive failure := Raised (e : E) | Committed (e : E).
Notation T := (prog world failure).

Definition on_db {A} (m : prog DB failure A) : T A := fun w =>
  let '(r, d) := m (db w) in (r, with_db d w).
Definition on_redis {A} (convert : RedisState.exn -> E) (m : prog RedisState.conn RedisState.exn A) : T A := fun w =>
  let '(r, c) := m (redis w) in
  (match r with Ok a => Ok a | Err e => Err (Raised (convert e)) end, {| db := db w; redis := c |}).
Definition read {A} (f : DB -> A) : T A := gets (fun w => f (db w)).
Definition write (f : DB -> DB) : T unit := modify (fun w => with_db (f (db w)) w).
Definition new_uuid : T Z := on_db uuid4.

Definition commit {A} (integrity : E) (r : result E A) (w0 w : world) : result E A * world :=
  if constraints (db w) && auth_constraints (db w) then (r, w)
  else (Err integrity, with_db (with_next_id (next_id (db w)) (db w0)) w).
Definition transact {A} (integrity : E) (body : T A) : prog world E A := fun w =>
  match body w with
  | (Ok a, w') => commit integrity (Ok a) w w'
  | (Err (Committed e), w') => commit integrity (Err e) w w'
  | (Err (Raised e), w') => (Err e, with_db (with_next_id (next_id (db w')) (db w)) w')
  end.
End Tx.
#[global] Arguments failure : clear implicits.

End AuthTx.

(** ** Reasoning about transactions

    A relation between the database before and after that every step of a
    transaction that may commit keeps. *)

Module TxLogic.
Import AuthTx.

Class TxRel (R : DB -> DB -> Prop) := {
  tx_preorder :: PreOrder R;
  tx_fresh d d' : R d d' -> next_id d <= next_id d';
  tx_draw d n : next_id d <= n -> R d (with_next_id n d);
}.

Section Logic.
Context {E : Type} (R : DB -> DB -> Prop) `{!TxRel R}.
Notation T := (prog world (failure E)).

(** Whatever [m] does, identifiers only grow, and what it may commit is related
    to what it began with. *)
Definition traced {A} (m : T A) (w : world) : Prop :=
  wp m (fun r w' => next_id (db w) <= next_id (db w') /\
                    match r with Err (Raised _) => True | _ => R (db w) (db w') end) w.

Context {A B : Type}.
Lemma traced_ret (a : A) w : traced (mret a) w.
Proof using TxRel0. split; [reflexivity|]. cbn. reflexivity. Qed.
Lemma traced_raised e w : traced (raise (Raised e) : T A) w.
Proof. split; [reflexivity|done]. Qed.
Lemma traced_committed e w : traced (raise (Committed e) : T A) w.
Proof using TxRel0. split; [reflexivity|]. cbn. reflexivity. Qed.
Lemma traced_bind (m : T B) (f : B -> T A) w :
  traced m w -> (forall b w', m w = (Ok b, w') -> R (db w) (db w') -> traced (f b) w') -> traced (m ≫= f) w.
Proof using TxRel0.
  unfold traced, wp, mbind, prog_bind. destruct (m w) as [[b|[e|e]] w1]; cbn; intros [Hn Hs] Hf; [|done..].
  specialize (Hf b w1 eq_refl Hs). destruct (f b w1) as [r w2]. cbn in *. destruct Hf as [Hn' Hf]. split; [lia|].
  destruct r as [a|[e|e]]; [|done|]; by etrans.
Qed.
Lemma traced_read (f : DB -> A) w : traced (read f) w.
Proof using TxRel0. split; [reflexivity|]. cbn. reflexivity. Qed.
Lemma traced_lift (r : result (failure E) A) w : traced (lift r) w.
Proof using TxRel0. split; [reflexivity|]. cbn. destruct r as [a|[e|e]]; [reflexivity|done|reflexivity]. Qed.
Lemma traced_on_redis conv (m : prog RedisState.conn RedisState.exn A) w : traced (on_redis conv m) w.
Proof using TxRel0.
  unfold traced, wp, on_redis. destruct (m (redis w)) as [[a|e] c]; cbn; (split; [reflexivity|]); [reflexivity|done].
Qed.
Lemma traced_write (f : DB -> DB) w : R (db w) (f (db w)) -> traced (write f) w.
Proof using TxRel0. intros Hs. split; [by apply tx_fresh|done]. Qed.
Lemma traced_uuid w : traced new_uuid w.
Proof using TxRel0. split; [cbn; lia|]. apply tx_draw. cbn. lia. Qed.

(** A row made under the identifier just drawn. *)
Lemma traced_draw (f : Z -> DB -> DB) (k : Z -> T A) w :
  R (db w) (f (next_id (db w)) (with_next_id (next_id (db w) + 1) (db w))) ->
  (forall w', traced (k (next_id (db w))) w') ->
  traced (i ← new_uuid; _ ← write (f i); k i) w.
Proof using TxRel0.
  intros Hf Hk. unfold traced, wp, mbind, prog_bind. cbn. specialize (Hk (with_db (f (next_id (db w)) (with_next_id (next_id (db w) + 1) (db w))) w)).
  unfold traced, wp in Hk. cbn in Hk. pose proof (tx_fresh _ _ Hf) as Hn. change (modify ?g ?x) with (Ok (E := failure E) tt, g x).
  cbn. destruct (k (next_id (db w)) _) as [r w2]. cbn in *. destruct Hk as [Hk1 Hk2]. split; [lia|].
  destruct r as [y|[e|e]]; [|done|]; by etrans.
Qed.

Lemma transact_traced (e : E) (m : T A) w : traced m w -> R (db w) (db (transact e m w).2).
Proof using TxRel0.
  intros Hm. unfold traced, wp in Hm. unfold transact, commit.
  destruct (m w) as [[a|[x|x]] w']; cbn in Hm; destruct Hm as [Hn Hm]; [|by apply tx_draw|];
    (destruct (constraints (db w') && auth_constraints (db w')); [done|by apply tx_draw]).
Qed.

(** A program that raises before it commits is judged by what it returns. *)
Definition contained (m : T A) (w : world) : Prop :=
  wp m (fun r w' => next_id (db w) <= next_id (db w') /\ match r with Err (Committed _) => False | _ => True end) w.
Lemma traced_contained (m : T A) w :
  contained m w -> (forall a w', m w = (Ok a, w') -> R (db w) (db w')) -> traced m w.
Proof.
  unfold contained, traced, wp. destruct (m w) as [[a|[e|e]] w'] eqn:Hm; cbn; intros [Hn Hc] Hs; [|done..].
  split; [done|]. by eapply Hs.
Qed.
End Logic.

Section Contained.
Context {E A B : Type}.
Notation T := (prog world (failure E)).
Lemma contained_ret (a : A) w : contained (E := E) (mret a) w.
Proof. by split. Qed.
Lemma contained_raised e w : contained (raise (Raised e) : T A) w.
Proof. by split. Qed.
Lemma contained_read (f : DB -> A) w : contained (E := E) (read f) w.
Proof. by split. Qed.
Lemma contained_write (f : DB -> DB) w : next_id (db w) <= next_id (f (db w)) -> contained (E := E) (write f) w.
Proof. by split. Qed.
Lemma contained_uuid w : contained (E := E) new_uuid w.
Proof. split; [cbn; lia|done]. Qed.
Lemma contained_bind (m : T B) (f : B -> T A) w :
  contained m w -> (forall b w', contained (f b) w') -> contained (m ≫= f) w.
Proof.
  unfold contained, wp, mbind, prog_bind. destruct (m w) as [[b|[e|e]] w1]; cbn; intros [Hn Hs] Hf; [|done..].
  specialize (Hf b w1). destruct (f b w1) as [r w2]. cbn in *. destruct Hf as [Hn' Hf]. split; [lia|done].
Qed.
End Contained.

(** What calls that return have done. *)
Section Ok.
Context {E : Type}.
Notation T := (prog world (failure E)).
Lemma write_ok (f : DB -> DB) w u w' : write (E := E) f w = (Ok u, w') -> w' = with_db (f (db w)) w.
Proof. unfold write, modify. intros. by simplify_eq. Qed.
Lemma uuid_ok w i w' :
  new_uuid (E := E) w = (Ok i, w') -> i = next_id (db w) /\ w' = with_db (with_next_id (next_id (db w) + 1) (db w)) w.
Proof. unfold new_uuid, on_db, uuid4. intros. by simplify_eq. Qed.
Lemma read_ok {A} (f : DB -> A) w a w' : read (E := E) f w = (Ok a, w') -> a = f (db w) /\ w' = w.
Proof. unfold read, gets. intros. by simplify_eq. Qed.
Lemma transact_ok {A} (e : E) (m : T A) w a w' :
  transact e m w = (Ok a, w') -> m w = (Ok a, w') /\ constraints (db w') && auth_constraints (db w') = true.
Proof.
  unfold transact, commit. destruct (m w) as [[x|[x|x]] w1]; [|intros; by simplify_eq|].
  - case_match; intros; by simplify_eq.
  - case_match; intros; by simplify_eq.
Qed.
End Ok.

Create HintDb contained.
#[export] Hint Resolve contained_ret contained_raised contained_read contained_uuid : contained.
#[export] Hint Extern 5 (contained (write _) _) => (apply contained_write; reflexivity) : contained.
Ltac contain :=
  repeat first
    [ solve [auto 2 with contained]
    | apply contained_bind; [|intros ? ?]
    | match goal with |- contained (match ?x with _ => _ end) _ => destruct x end ].

Create HintDb traced.
#[export] Hint Resolve traced_ret traced_raised traced_committed traced_read traced_lift traced_on_redis traced_uuid : traced.
#[export] Hint Extern 1 (TxRel _) => apply _ : traced.
(** Descends through sequencing and branching to the calls. *)
Ltac trace :=
  repeat first
    [ solve [auto with traced]
    | apply traced_bind; [apply _| |intros ? ? ? ?]
    | match goal with |- traced _ (match ?x with _ => _ end) _ => destruct x eqn:? end ].

(** Programs outside a session: what they leave is related to what they found. *)
Section Keeps.
Context {E : Type} (R : DB -> DB -> Prop) `{!PreOrder R}.
Notation M := (prog world E).

Definition keeps {A} (m : M A) (w : world) : Prop := R (db w) (db (m w).2).

Lemma keeps_ret {A} (a : A) w : keeps (mret a) w.
Proof using PreOrder0. unfold keeps. cbn. reflexivity. Qed.
Lemma keeps_raise {A} e w : keeps (raise e : M A) w.
Proof using PreOrder0. unfold keeps. cbn. reflexivity. Qed.
Lemma keeps_bind {A B} (m : M A) (f : A -> M B) w :
  keeps m w -> (forall a w', m w = (Ok a, w') -> keeps (f a) w') -> keeps (m ≫= f) w.
Proof using PreOrder0.
  unfold keeps, mbind, prog_bind. destruct (m w) as [[a|e] w1]; cbn; intros Hm Hf; [|done].
  specialize (Hf a w1 eq_refl). by etrans.
Qed.
Lemma keeps_try {A} (m : M A) h w :
  keeps m w -> (forall e k w', h e = Some k -> keeps k w') -> keeps (try_except m h) w.
Proof using PreOrder0.
  unfold keeps, try_except. destruct (m w) as [[a|e] w1]; cbn; intros Hm Hf; [done|]. destruct (h e) as [k|] eqn:Hk; [|done].
  specialize (Hf e k w1 Hk). by etrans.
Qed.
Lemma keeps_still {A} (m : M A) w : db (m w).2 = db w -> keeps m w.
Proof using PreOrder0. unfold keeps. intros ->. reflexivity. Qed.
End Keeps.
Create HintDb keeps.
#[export] Hint Resolve keeps_ret keeps_raise : keeps.
#[export] Hint Extern 1 (PreOrder _) => apply _ : keeps.
Ltac keep :=
  repeat first
    [ solve [auto 2 with keeps]
    | apply keeps_bind; [apply _| |intros ? ? ?]
    | match goal with |- keeps _ (match ?x with _ => _ end) _ => destruct x eqn:? end ].

(** What transactions commit satisfies the constraints. *)
Definition consistent (d : DB) : Prop := constraints d && auth_constraints d = true.
Definition stays_consistent (d d' : DB) : Prop := consistent d -> consistent d'.
#[export] Instance stays_consistent_preorder : PreOrder stays_consistent.
Proof. split; [intros d Hd; exact Hd|]. intros d1 d2 d3 H1 H2 H. auto. Qed.
Lemma consistent_next n d : consistent d -> consistent (with_next_id n d).
Proof. done. Qed.
Lemma transact_consistent {E A} (e : E) (m : prog world (failure E) A) w : keeps stays_consistent (transact e m) w.
Proof.
  unfold keeps, stays_consistent, transact, commit. intros Hc. destruct (m w) as [[a|[x|x]] w']; [| by apply consistent_next|];
    (destruct (constraints (db w') && auth_constraints (db w')) eqn:Hk; [done|by apply consistent_next]).
Qed.

End TxLogic.
