(* ===== verification/AdminAuth.v ===== *)
(** * Administrator authentication

    Models [nebula_api/auth/admin_service.py]: the password step, the second
    factors (one-time codes, recovery codes, passkeys), sessions, step-up, and
    the changes an administrator makes to their own credentials.  Instants are
    in milliseconds; [now] is what [self._clock] read, the same throughout a
    request; random bytes and salts are arguments.  The [webauthn] package is
    the class [WebAuthn]. *)

From S2P Require Import Prelude PyText PyBytes PyTime IpAddress Usage ApiStore OpaqueToken RedisState XrayCredential Mfa Access AuthStore.
Import Db AuthTx.

Module AdminAuth.

(** What the service uses of [webauthn]: the options with the challenge the
    package drew, and what a browser's answer verifies to, [None] for any of
    [_WEBAUTHN_ERRORS].  [credential] is the object the browser sent. *)
Class WebAuthn := {
  credential : Type;
  raw_id : credential -> option text;
  registration_json (rp_id rp_name user_name user_id : text) (exclude : list text) (challenge : text) : text;
  authentication_json (rp_id : text) (allow : list text) (challenge : text) : text;
  verify_registration_response : credential -> text -> text -> list text -> option (text * text * Z);
  verify_authentication_response : credential -> text -> text -> list text -> text -> Z -> option Z;
}.

Inductive exn :=
| AuthenticationRejected
| AuthenticationRateLimited (retry_after_seconds : Z)
| AdminCredentialRejected (message : text)
| AuthStateUnavailable
| ValueError
| RuntimeError
| IntegrityError.
#[global] Instance exn_eq_dec : EqDecision exn.
Proof. solve_decision. Defined.
Notation M := (prog world exn).
Notation T := (prog world (failure exn)).

Inductive next_step := to_mfa | to_enroll.
Record AdminPasswordChallenge := { challenge_token : text; challenge_next : next_step; challenge_expires : Z }.
Record AdminEnrollment := {
  enrollment_challenge : text; enrollment_expires : Z; enrollment_secret : text; enrollment_uri : text }.
Record AdminAuthentication := { session : RedisState.IssuedAdminSession; recovery_codes_shown : list text }.
Record AdminPrincipal := {
  principal_admin : Z; principal_session : Z; principal_role : AdminRole.t; principal_step_up : bool;
  principal_method : RedisState.SessionMethod }.
Record MfaVerification := { recovery_code_id : option Z }.
Record AdminAuthenticatorSetup := { setup_secret : text; setup_uri : text }.
Record AdminPasskeySummary := {
  summary_id : Z; summary_name : text; summary_created : Z; summary_last_used : option Z }.
Inductive MfaMethod := by_totp | by_recovery.
#[global] Instance MfaMethod_eq_dec : EqDecision MfaMethod.
Proof. solve_decision. Defined.
Definition session_method (m : MfaMethod) : RedisState.SessionMethod :=
  match m with by_totp => RedisState.totp | by_recovery => RedisState.recovery end.

Definition _WEBAUTHN_TTL_SECONDS : Z := 300.

Record Settings := {
  admin_login_rate_limit : Z;
  admin_mfa_rate_limit : Z;
  auth_rate_window_seconds : Z;
  admin_lockout_threshold : Z;
  admin_lockout_seconds : Z;
  admin_preauth_ttl_minutes : Z;
  admin_session_ttl_minutes : Z;
  admin_session_absolute_ttl_hours : Z;
  admin_step_up_ttl_minutes : Z;
  totp_allowed_skew_steps : Z;
  mfa_key_version : Z;
  token_key_version : Z;
  allowed_origins : text;
}.

Definition MINUTE : Z := 60000.
Definition HOUR : Z := 3600000.

(** ** URLs *)

(** [base64.b32encode(b)] *)
Definition b32_alphabet : text := str "ABCDEFGHIJKLMNOPQRSTUVWXYZ234567".
Definition b32_char (n : Z) : ascii := nth (Z.to_nat n) b32_alphabet "A"%char.
Definition b32_group (b : text) : text :=
  let n := from_bytes (b ++ replicate (5 - length b) (chr 0)) in
  (fun i => b32_char (Z.land (Z.shiftr n i) 31)) <$> [35; 30; 25; 20; 15; 10; 5; 0].
(** How many of the eight characters of a group of so many bytes are not padding. *)
Definition b32_kept (n : nat) : nat := nth n [0; 2; 4; 5; 7; 8]%nat 8%nat.
Fixpoint b32encode (b : text) : text :=
  match b with
  | [] => []
  | v :: w :: x :: y :: z :: r => b32_group [v; w; x; y; z] ++ b32encode r
  | short =>
      take (b32_kept (length short)) (b32_group short) ++ replicate (8 - b32_kept (length short)) "="%char
  end.

(** [urllib.parse.quote(t, safe="")] and [quote_plus] *)
Definition unreserved (c : ascii) : bool :=
  OpaqueToken.is_digit c || OpaqueToken.is_lower c || OpaqueToken.is_upper c || bool_decide (c ∈ str "_.-~").
Definition percent (c : ascii) : text :=
  let up (d : Z) := if d <? 10 then chr (48 + d) else chr (55 + d) in ["%"%char; up (code c / 16); up (code c mod 16)].
Definition quote (t : text) : text := utf8 t ≫= fun c => if unreserved c then [c] else percent c.
Definition quote_plus (t : text) : text :=
  utf8 t ≫= fun c => if unreserved c then [c] else if bool_decide (c = " "%char) then str "+" else percent c.
Definition urlencode (l : list (text * text)) : text :=
  join (str "&") ((fun kv => quote_plus kv.1 ++ str "=" ++ quote_plus kv.2) <$> l).

Definition _provisioning_uri (encoded_seed email : text) : text :=
  str "otpauth://totp/" ++ quote (str "Nebula:" ++ email) ++ str "?" ++
  urlencode [(str "secret", encoded_seed); (str "issuer", str "Nebula"); (str "algorithm", str "SHA1");
             (str "digits", str "6"); (str "period", str "30")].
Definition encode_seed (seed : text) : text := rstrip_of (str "=") (b32encode seed).

Example provisioning_uri_example :
  _provisioning_uri (encode_seed (str "12345678901234567890")) (str "a b@example.org") =
  str "otpauth://totp/Nebula%3Aa%20b%40example.org?secret=GEZDGNBVGY3TQOJQGEZDGNBVGY3TQOJQ&issuer=Nebula&algorithm=SHA1&digits=6&period=30".
Proof. vm_compute. reflexivity. Qed.

(** [urlsplit(t).hostname]: the scheme, then the authority up to the path, its
    user and port left out, in lower case.  Control characters at the ends and
    brackets around a literal address as in [urllib.parse]. *)
Definition scheme_char (c : ascii) : bool :=
  OpaqueToken.is_digit c || OpaqueToken.is_lower c || OpaqueToken.is_upper c || bool_decide (c ∈ str "+-.").
Definition drop_scheme (t : text) : text :=
  let '(before, found, after) := partition ":"%char t in
  match before with
  | c :: _ => if found && (OpaqueToken.is_lower c || OpaqueToken.is_upper c) && forallb scheme_char before then after else t
  | [] => t
  end.
Fixpoint take_until (stop : text) (t : text) : text :=
  match t with [] => [] | c :: r => if bool_decide (c ∈ stop) then [] else c :: take_until stop r end.
Definition netloc (t : text) : text :=
  match drop_scheme (filter (fun c => c ∉ [chr 9; chr 10; chr 13]) (lstrip_of (chr <$> seqZ 0 33) t)) with
  | "/"%char :: "/"%char :: r => take_until (str "/?#") r
  | _ => []
  end.
Definition lower_char (c : ascii) : ascii :=
  if OpaqueToken.is_upper c || ((192 <=? code c) && (code c <=? 222) && negb (code c =? 215)) then chr (code c + 32) else c.
Definition hostname (t : text) : option text :=
  let hostinfo := reverse (take_until (str "@") (reverse (netloc t))) in
  let '(_, have_open_br, bracketed) := partition "["%char hostinfo in
  let name := if have_open_br then take_until (str "]") bracketed else take_until (str ":") hostinfo in
  let '(host, percent_, zone) := partition "%"%char name in
  if bool_decide (name = []) then None
  else Some ((lower_char <$> host) ++ (if percent_ then str "%" ++ zone else [])).

Example hostname_examples :
  hostname (str "https://Admin.Example.org:8443/x?y") = Some (str "admin.example.org") /\
  hostname (str "http://u@[2001:DB8::1]:80") = Some (str "2001:db8::1") /\ hostname (str "localhost") = None.
Proof. vm_compute. done. Qed.

(** ** Rows *)

Definition set_admin_password (h : text) (a : AdminUser) : AdminUser :=
  {| admin_user_id := admin_user_id a; admin_email := admin_email a; admin_email_normalized := admin_email_normalized a;
     admin_username_normalized := admin_username_normalized a; admin_password_hash := h; admin_role := admin_role a;
     admin_state := admin_state a; sessions_valid_after := sessions_valid_after a |}.
Definition set_valid_after (now : Z) (a : AdminUser) : AdminUser :=
  {| admin_user_id := admin_user_id a; admin_email := admin_email a; admin_email_normalized := admin_email_normalized a;
     admin_username_normalized := admin_username_normalized a; admin_password_hash := admin_password_hash a;
     admin_role := admin_role a; admin_state := admin_state a; sessions_valid_after := Some now |}.
(** [state="revoked"], the secret cleared. *)
Definition revoke_totp (now : Z) (c : AdminTotpCredential) : AdminTotpCredential :=
  {| totp_id := totp_id c; totp_admin := totp_admin c; totp_state := TotpState.revoked; secret_ciphertext := None;
     secret_nonce := None; secret_version := None; confirmed_at := confirmed_at c; totp_revoked_at := Some now;
     last_accepted_timestep := last_accepted_timestep c |}.
Definition confirm_totp (now step : Z) (c : AdminTotpCredential) : AdminTotpCredential :=
  {| totp_id := totp_id c; totp_admin := totp_admin c; totp_state := TotpState.active;
     secret_ciphertext := secret_ciphertext c; secret_nonce := secret_nonce c; secret_version := secret_version c;
     confirmed_at := Some now; totp_revoked_at := totp_revoked_at c; last_accepted_timestep := Some step |}.
Definition accept_step (step : Z) (c : AdminTotpCredential) : AdminTotpCredential :=
  {| totp_id := totp_id c; totp_admin := totp_admin c; totp_state := totp_state c;
     secret_ciphertext := secret_ciphertext c; secret_nonce := secret_nonce c; secret_version := secret_version c;
     confirmed_at := confirmed_at c; totp_revoked_at := totp_revoked_at c; last_accepted_timestep := Some step |}.
Definition revoke_code (now : Z) (c : AdminMfaRecoveryCode) : AdminMfaRecoveryCode :=
  {| code_id := code_id c; code_credential := code_credential c; code_digest := code_digest c;
     code_version := code_version c; code_state := TokenState.REVOKED; code_consumed_at := code_consumed_at c;
     code_revoked_at := Some now |}.
Definition consume_code (now : Z) (c : AdminMfaRecoveryCode) : AdminMfaRecoveryCode :=
  {| code_id := code_id c; code_credential := code_credential c; code_digest := code_digest c;
     code_version := code_version c; code_state := TokenState.CONSUMED; code_consumed_at := Some now;
     code_revoked_at := code_revoked_at c |}.
Definition use_passkey (count now : Z) (p : AdminPasskey) : AdminPasskey :=
  {| passkey_id := passkey_id p; passkey_admin := passkey_admin p; passkey_credential := passkey_credential p;
     passkey_public_key := passkey_public_key p; sign_count := count; passkey_name := passkey_name p;
     passkey_created_at := passkey_created_at p; passkey_last_used_at := Some now |}.

Notation totps db := (totp_credentials (factors (auth db))).
Notation codes db := (recovery_codes (factors (auth db))).
Notation keys db := (passkeys (factors (auth db))).

Definition update_admin (id : Z) (f : AdminUser -> AdminUser) (db : DB) : DB :=
  with_admins (update admin_user_id id f (admins (auth db))) db.
Definition update_totp (id : Z) (f : AdminTotpCredential -> AdminTotpCredential) (db : DB) : DB :=
  with_totp (update totp_id id f (totps db)) db.
Definition add_totp (c : AdminTotpCredential) (db : DB) : DB := with_totp (totps db ++ [c]) db.
Definition update_code (id : Z) (f : AdminMfaRecoveryCode -> AdminMfaRecoveryCode) (db : DB) : DB :=
  with_codes (update code_id id f (codes db)) db.
Definition add_code (c : AdminMfaRecoveryCode) (db : DB) : DB := with_codes (codes db ++ [c]) db.

(** [update(AdminTotpCredential).where(admin, state == "pending").values(...)] *)
Definition revoke_pending (admin now : Z) (db : DB) : DB :=
  with_totp (update_where (fun c => (totp_admin c =? admin) && totp_in TotpState.pending c) (revoke_totp now) (totps db)) db.
(** [update(AdminMfaRecoveryCode).where(credential, state == "active").values(...)] *)
Definition revoke_codes (credential_id now : Z) (db : DB) : DB :=
  with_codes (update_where (fun c => (code_credential c =? credential_id) && code_active c) (revoke_code now) (codes db)) db.

Definition _find_admin (key : text) (db : DB) : option AdminUser :=
  scalar (fun a => bool_decide (admin_email_normalized a = key) || bool_decide (admin_username_normalized a = Some key))
    (admins (auth db)).
Definition admin_active (a : AdminUser) : bool := bool_decide (admin_state a = AdminState.ACTIVE).
Definition get_admin (id : Z) (db : DB) : option AdminUser := scalar (fun a => admin_user_id a =? id) (admins (auth db)).
Definition _active_admin (id : Z) (db : DB) : option AdminUser :=
  scalar (fun a => (admin_user_id a =? id) && admin_active a) (admins (auth db)).
Definition credential_in (s : TotpState.t) (admin : Z) (db : DB) : option AdminTotpCredential :=
  scalar (fun c => (totp_admin c =? admin) && totp_in s c) (totps db).
Definition _active_credential : Z -> DB -> option AdminTotpCredential := credential_in TotpState.active.

Definition succeeded := str "succeeded".
Definition denied := str "denied".
(** [add_audit_event] *)
Definition audit_event (who : actor_of) (k : target_kind) (target : Z) (code_ out : text) (reason : option text) : T unit :=
  write (add_audit_event {| actor := who; ev_target_kind := k; ev_target_id := target; event_code := code_;
                            outcome := out; reason_code := reason |}).

Definition reject {A} : T A := raise (Raised AuthenticationRejected).

(** [try: commit() except BaseException: undo; raise], at the end of a session. *)
Definition transact_undo {A} (body : T A) (undo : A -> M unit) : M A := fun w =>
  match body w with
  | (Ok a, w1) =>
      match commit IntegrityError (Ok a) w w1 with
      | (Ok a', w2) => (Ok a', w2)
      | (Err e, w2) => (_ ← undo a; raise e) w2
      end
  | _ => transact IntegrityError body w
  end.

Section Service.
Context `{HMAC} `{Mfa.HMAC1} `{XrayCredential.AEAD} `{Passwords.Argon2} `{Identity.EmailValidator} `{WebAuthn}.
Context (settings : Settings) (token_peppers mfa_encryption_keys : list (Z * text)) (dummy_hash : text)
  (redis_keys : list (Z * text)) (redis_version : Z) (redis_prefix : text).

(** *** Redis, identifiers, random values *)

Definition redis_exn (e : RedisState.exn) : exn :=
  match e with
  | RedisState.AuthStateUnavailable => AuthStateUnavailable
  | RedisState.ValueError => ValueError
  | RedisState.RuntimeError => RuntimeError
  end.
(** A call to Redis inside a database session, and outside one. *)
Definition redis_in {A} (m : prog RedisState.conn RedisState.exn A) : T A := on_redis redis_exn m.
Definition outside {A} (m : T A) : M A := fun w =>
  let '(r, w') := m w in
  (match r with Ok a => Ok a | Err (Raised e) | Err (Committed e) => Err e end, w').
Definition redis_out {A} (m : prog RedisState.conn RedisState.exn A) : M A := outside (redis_in m).

Definition bucket (ns subject : text) : RedisState.RateBucket := {| RedisState.namespace := ns; RedisState.subject := subject |}.
Definition rate_limit (buckets : list RedisState.RateBucket) (limit : Z) : prog RedisState.conn RedisState.exn bool :=
  RedisState.rate_limit redis_keys redis_version redis_prefix buckets limit (auth_rate_window_seconds settings).
Definition rate_limited : exn := AuthenticationRateLimited (auth_rate_window_seconds settings).
Definition lockout_status (account_key : text) (now : Z) : prog RedisState.conn RedisState.exn RedisState.LockoutState :=
  RedisState.lockout_status redis_keys redis_version redis_prefix account_key now.
Definition record_admin_failure (account_key : text) (now : Z) : prog RedisState.conn RedisState.exn RedisState.LockoutState :=
  RedisState.record_admin_failure redis_keys redis_version redis_prefix account_key (admin_lockout_threshold settings)
    (admin_lockout_seconds settings) now.
Definition clear_admin_failures (admin : Z) : prog RedisState.conn RedisState.exn unit :=
  RedisState.clear_admin_failures redis_keys redis_version redis_prefix (str_uuid admin).
Definition issue_preauth (admin : Z) (purpose context : text) (now : Z) (random : text) :=
  RedisState.issue_preauth redis_keys redis_version redis_prefix admin purpose context
    (admin_preauth_ttl_minutes settings * 60) now random.
Definition consume_preauth (challenge purpose context : text) :=
  RedisState.consume_preauth redis_keys redis_version redis_prefix challenge purpose context.
Definition idle_ttl : Z := admin_session_ttl_minutes settings * MINUTE.
Definition absolute_ttl : Z := admin_session_absolute_ttl_hours settings * HOUR.
Definition issue_session (admin : Z) (method : RedisState.SessionMethod) (stepped_up : bool) (now : Z)
    (random random' : text) (id : Z) :=
  RedisState.issue_admin_session redis_keys redis_version redis_prefix admin method idle_ttl absolute_ttl stepped_up now
    random random' id.
Definition get_session (token : text) (now : Z) :=
  RedisState.get_admin_session redis_keys redis_prefix token idle_ttl now.
Definition revoke_session (token : text) := RedisState.revoke_admin_session redis_keys redis_prefix token.

Definition _normalize_admin_identifier (identifier : text) : text :=
  default (str "invalid")
    (if bool_decide ("@"%char ∈ identifier) then Identity.normalize_email identifier
     else Identity.normalize_username identifier).

Definition hash_password (password salt : text) : T text :=
  lift match Passwords.hash_password password salt with Some h => Ok h | None => Err (Raised ValueError) end.

Definition mfa_exn (e : Mfa.exn) : exn := match e with Mfa.RuntimeError => RuntimeError | _ => ValueError end.
Definition of_mfa {A} (r : result Mfa.exn A) : T A :=
  lift match r with Ok a => Ok a | Err e => Err (Raised (mfa_exn e)) end.

(** The random bytes of a session's two tokens. *)
Record Randoms := { for_token : text; for_csrf : text }.

(** *** The password step *)

Definition record_denial (account_key : text) (who : actor_of) (k : target_kind) (target now : Z) (reason : text) {A} : T A :=
  failure ← redis_in (record_admin_failure account_key now);
  _ ← audit_event who k target
        (if RedisState.locked failure then str "auth_lockout_changed" else str "admin_authenticated") denied (Some reason);
  raise (Committed AuthenticationRejected).

Definition upgrade_hash (a : AdminUser) (password salt : text) : T unit :=
  if Passwords.argon2_needs_rehash (admin_password_hash a) then
    h ← hash_password password salt; write (update_admin (admin_user_id a) (set_admin_password h))
  else mret tt.

Definition challenge_body (identifier password network_prefix : text) (request now : Z) (random salt : text)
  : T AdminPasswordChallenge :=
  let normalized := _normalize_admin_identifier identifier in
  found ← read (_find_admin normalized);
  let account_key := match found with Some a => str_uuid (admin_user_id a) | None => normalized end in
  allowed ← redis_in (rate_limit [bucket (str "admin-account") account_key;
                                  bucket (str "admin-login-network") network_prefix] (admin_login_rate_limit settings));
  if negb allowed then
    _ ← audit_event by_anonymous auth_attempt request (str "auth_rate_limited") denied (Some (str "rate_limited"));
    raise (Committed rate_limited)
  else
    lockout ← redis_in (lockout_status account_key now);
    let password_valid := Passwords.verify_password_or_dummy dummy_hash (admin_password_hash <$> found) password in
    let refusal : T AdminPasswordChallenge :=
      record_denial account_key by_anonymous auth_attempt request now (str "invalid_credentials") in
    match found with
    | None => refusal
    | Some a =>
        if negb (admin_active a && negb (RedisState.locked lockout) && password_valid) then refusal
        else
          _ ← upgrade_hash a password salt;
          credential ← read (_active_credential (admin_user_id a));
          let next := match credential with Some _ => to_mfa | None => to_enroll end in
          challenge ← redis_in (issue_preauth (admin_user_id a)
                        (match next with to_mfa => str "login" | to_enroll => str "enroll" end) network_prefix now random);
          _ ← audit_event (by_admin (admin_user_id a)) admin_target (admin_user_id a) (str "admin_mfa_challenged") succeeded None;
          mret {| challenge_token := RedisState.token challenge; challenge_next := next;
                  challenge_expires := RedisState.expires_in_seconds challenge |}
    end.
Definition password_challenge (identifier password network_prefix : text) (request now : Z) (random salt : text)
  : M AdminPasswordChallenge :=
  transact IntegrityError (challenge_body identifier password network_prefix request now random salt).

(** *** Checking a second factor *)

Definition _verify_totp_credential (c : AdminTotpCredential) (admin : Z) (candidate : text) (now : Z)
  : result exn (option Z) :=
  match secret_ciphertext c, secret_nonce c, secret_version c with
  | Some ct, Some nonce_, Some version =>
      match (e ← Mfa.make_envelope version nonce_ ct; Mfa.decrypt_mfa_seed e admin (totp_id c) mfa_encryption_keys) with
      | Err _ => Ok None
      | Ok seed =>
          match Mfa.verify_totp seed candidate now (totp_allowed_skew_steps settings) with
          | Err e => Err (mfa_exn e)
          | Ok None => Ok None
          | Ok (Some step) =>
              Ok (if match last_accepted_timestep c with Some l => step <=? l | None => false end then None else Some step)
          end
      end
  | _, _, _ => Ok None
  end.
Definition check_totp (c : AdminTotpCredential) (admin : Z) (candidate : text) (now : Z) : T (option Z) :=
  lift match _verify_totp_credential c admin candidate now with Ok o => Ok o | Err e => Err (Raised e) end.

Definition usable_code (credential_id : Z) (d : OpaqueToken.OpaqueTokenDigest) (c : AdminMfaRecoveryCode) : bool :=
  (code_credential c =? credential_id) && (code_version c =? OpaqueToken.key_version d) &&
  bool_decide (code_digest c = OpaqueToken.value d) && code_active c.
Definition digest_code (c : text) : option OpaqueToken.OpaqueTokenDigest :=
  match OpaqueToken.digest_opaque_token c token_peppers (str "mfa-recovery") with Ok d => Some d | Err _ => None end.

Definition _verify_mfa_method (c : AdminTotpCredential) (admin : Z) (candidate : text) (method : MfaMethod) (now : Z)
  : T (option MfaVerification) :=
  match method with
  | by_totp =>
      accepted ← check_totp c admin candidate now;
      match accepted with
      | None => mret None
      | Some step => _ ← write (update_totp (totp_id c) (accept_step step)); mret (Some {| recovery_code_id := None |})
      end
  | by_recovery =>
      match digest_code candidate with
      | None => mret None
      | Some d =>
          found ← read (fun db => scalar (usable_code (totp_id c) d) (codes db));
          match found with
          | None => mret None
          | Some r => _ ← write (update_code (code_id r) (consume_code now)); mret (Some {| recovery_code_id := Some (code_id r) |})
          end
      end
  end.

Definition _record_mfa_denial {A} (admin now : Z) (reason : text) : T A :=
  record_denial (str_uuid admin) (by_admin admin) admin_target admin now reason.

Definition _consume_mfa_challenge (challenge purpose network_prefix : text) : M RedisState.ConsumedPreAuth :=
  allowed ← redis_out (rate_limit [bucket (str "mfa-challenge") challenge; bucket (str "admin-mfa-network") network_prefix]
                         (admin_mfa_rate_limit settings));
  if negb allowed then raise rate_limited
  else
    consumed ← redis_out (consume_preauth challenge purpose network_prefix);
    match consumed with None => raise AuthenticationRejected | Some c => mret c end.

Definition _new_admin_session (admin : Z) (method : RedisState.SessionMethod) (now : Z) (r : Randoms)
  : T RedisState.IssuedAdminSession :=
  id ← new_uuid;
  redis_in (issue_session admin method false now (for_token r) (for_csrf r) id).

(** *** Setting up a second factor *)

(** [uuid4()] outside a session. *)
Definition draw : M Z := outside new_uuid.

Definition pending_credential (id admin : Z) (env : Mfa.EncryptedMfaSeed) : AdminTotpCredential :=
  {| totp_id := id; totp_admin := admin; totp_state := TotpState.pending;
     secret_ciphertext := Some (Mfa.seed_ciphertext env); secret_nonce := Some (Mfa.seed_nonce env);
     secret_version := Some (Mfa.seed_version env); confirmed_at := None; totp_revoked_at := None;
     last_accepted_timestep := None |}.

(** The seed and its envelope; [random] of the seed, [nonce_] of the envelope. *)
Definition new_seed (admin credential_id : Z) (random nonce_ : text) : T (text * Mfa.EncryptedMfaSeed) :=
  seed ← of_mfa (Mfa.generate_mfa_seed random);
  env ← of_mfa (Mfa.encrypt_mfa_seed seed admin credential_id (mfa_key_version settings) mfa_encryption_keys nonce_);
  mret (seed, env).

Definition replace_pending (id admin now : Z) (env : Mfa.EncryptedMfaSeed) (reason : text) : T unit :=
  _ ← write (revoke_pending admin now);
  _ ← write (add_totp (pending_credential id admin env));
  audit_event (by_admin admin) admin_totp_credential id (str "admin_mfa_changed") succeeded (Some reason).

Definition enrollment_body (id admin now : Z) (env : Mfa.EncryptedMfaSeed) : T text :=
  found ← read (get_admin admin);
  match found with
  | None => reject
  | Some a =>
      if negb (admin_active a) then reject
      else
        active ← read (_active_credential admin);
        match active with
        | Some _ => reject
        | None => _ ← replace_pending id admin now env (str "enrollment_started"); mret (admin_email a)
        end
  end.

(** The new credential, recorded: its seed and the administrator's address. *)
Definition stage_enrollment (admin now : Z) (seed_random nonce_ : text) : M (text * text) :=
  id ← draw;
  s ← outside (new_seed admin id seed_random nonce_);
  email ← transact IntegrityError (enrollment_body id admin now s.2);
  mret (s.1, email).

Definition start_enrollment (challenge network_prefix : text) (request now : Z) (seed_random nonce_ random : text)
  : M AdminEnrollment :=
  found ← redis_out (consume_preauth challenge (str "enroll") network_prefix);
  match found with
  | None => raise AuthenticationRejected
  | Some consumed =>
      let admin := RedisState.consumed_admin consumed in
      s ← stage_enrollment admin now seed_random nonce_;
      confirmation ← redis_out (issue_preauth admin (str "enroll") network_prefix now random);
      mret {| enrollment_challenge := RedisState.token confirmation;
              enrollment_expires := RedisState.expires_in_seconds confirmation;
              enrollment_secret := encode_seed s.1; enrollment_uri := _provisioning_uri (encode_seed s.1) s.2 |}
  end.

Fixpoint add_codes (credential_id : Z) (ds : list OpaqueToken.OpaqueTokenDigest) : T unit :=
  match ds with
  | [] => mret tt
  | d :: r =>
      id ← new_uuid;
      _ ← write (add_code {| code_id := id; code_credential := credential_id; code_digest := OpaqueToken.value d;
                             code_version := OpaqueToken.key_version d; code_state := TokenState.ACTIVE;
                             code_consumed_at := None; code_revoked_at := None |});
      add_codes credential_id r
  end.
(** [generate_recovery_codes] and [session.add_all]; the plaintext codes. *)
Definition issue_codes (credential_id : Z) (draws : nat -> text) : T (list text) :=
  batch ← of_mfa (Mfa.generate_recovery_codes token_peppers (token_key_version settings)
                    Mfa.DEFAULT_RECOVERY_CODE_COUNT draws);
  _ ← add_codes credential_id (Mfa.digests batch);
  mret (Mfa.plaintext_codes batch).

Definition confirm_body (admin : Z) (candidate : text) (now : Z) (r : Randoms) (draws : nat -> text)
  : T (RedisState.IssuedAdminSession * list text) :=
  found ← read (_active_admin admin);
  pending ← read (credential_in TotpState.pending admin);
  match found, pending with
  | Some a, Some c =>
      accepted ← check_totp c admin candidate now;
      match accepted with
      | None => _record_mfa_denial admin now (str "invalid_mfa")
      | Some step =>
          _ ← write (update_totp (totp_id c) (confirm_totp now step));
          shown ← issue_codes (totp_id c) draws;
          issued ← _new_admin_session admin RedisState.totp now r;
          _ ← audit_event (by_admin admin) admin_totp_credential (totp_id c) (str "admin_mfa_changed") succeeded
                (Some (str "enrollment_confirmed"));
          _ ← audit_event (by_admin admin) admin_session (RedisState.session_id (RedisState.record issued))
                (str "admin_authenticated") succeeded None;
          mret (issued, shown)
      end
  | _, _ => reject
  end.
(** Ends an issued session when its transaction does not commit. *)
Definition undo {A} (x : RedisState.IssuedAdminSession * A) : M unit :=
  redis_out (revoke_session (RedisState.session_token x.1)).

Definition confirm_enrollment (challenge candidate network_prefix : text) (request now : Z) (r : Randoms)
    (draws : nat -> text) : M AdminAuthentication :=
  consumed ← _consume_mfa_challenge challenge (str "enroll") network_prefix;
  let admin := RedisState.consumed_admin consumed in
  x ← transact_undo (confirm_body admin candidate now r draws) undo;
  _ ← redis_out (clear_admin_failures admin);
  mret {| session := x.1; recovery_codes_shown := x.2 |}.

(** *** Signing in with the second factor *)

(** The audit of an accepted second factor. *)
Definition audit_accepted (admin : Z) (issued : RedisState.IssuedAdminSession) (code_ : text) (reason : option text)
    (v : MfaVerification) : T unit :=
  _ ← audit_event (by_admin admin) admin_session (RedisState.session_id (RedisState.record issued)) code_ succeeded reason;
  match recovery_code_id v with
  | Some r => audit_event (by_admin admin) admin_recovery_code r (str "admin_recovery_code_used") succeeded None
  | None => mret tt
  end.

Definition mfa_body (admin : Z) (candidate : text) (method : MfaMethod) (now : Z) (r : Randoms)
  : T (RedisState.IssuedAdminSession * unit) :=
  found ← read (_active_admin admin);
  active ← read (_active_credential admin);
  match found, active with
  | Some _, Some c =>
      verification ← _verify_mfa_method c admin candidate method now;
      match verification with
      | None => _record_mfa_denial admin now (str "invalid_mfa")
      | Some v =>
          issued ← _new_admin_session admin (session_method method) now r;
          _ ← audit_accepted admin issued (str "admin_authenticated") None v;
          mret (issued, tt)
      end
  | _, _ => reject
  end.
Definition verify_mfa (challenge candidate : text) (method : MfaMethod) (network_prefix : text) (request now : Z)
    (r : Randoms) : M AdminAuthentication :=
  consumed ← _consume_mfa_challenge challenge (str "login") network_prefix;
  let admin := RedisState.consumed_admin consumed in
  x ← transact_undo (mfa_body admin candidate method now r) undo;
  _ ← redis_out (clear_admin_failures admin);
  mret {| session := x.1; recovery_codes_shown := [] |}.

(** *** Sessions *)

Definition _is_step_up_fresh (r : RedisState.AdminSessionRecord) (now lifetime : Z) : bool :=
  match RedisState.step_up_at r with Some s => now <? s + lifetime | None => false end.

Definition too_old (a : AdminUser) (r : RedisState.AdminSessionRecord) : bool :=
  match sessions_valid_after a with Some v => RedisState.created_at r <? v | None => false end.

Definition principal (session_token : text) (now : Z) : M AdminPrincipal :=
  found ← redis_out (get_session session_token now);
  match found with
  | None => raise AuthenticationRejected
  | Some r =>
      admin ← outside (read (_active_admin (RedisState.admin_id r)));
      let refused : M AdminPrincipal := _ ← redis_out (revoke_session session_token); raise AuthenticationRejected in
      match admin with
      | None => refused
      | Some a =>
          if too_old a r then refused
          else mret {| principal_admin := admin_user_id a; principal_session := RedisState.session_id r;
                       principal_role := admin_role a;
                       principal_step_up := _is_step_up_fresh r now (admin_step_up_ttl_minutes settings * MINUTE);
                       principal_method := RedisState.mfa_method r |}
      end
  end.

Definition validate_and_rotate_csrf (session_token csrf : text) (now : Z) (random : text) : M text :=
  replacement ← redis_out (RedisState.validate_and_rotate_csrf redis_keys redis_version redis_prefix session_token csrf
                             idle_ttl now random);
  match replacement with None => raise AuthenticationRejected | Some t => mret t end.

Definition step_up_body (session_token : text) (admin : Z) (candidate : text) (method : MfaMethod) (now : Z) (r : Randoms)
  : T (RedisState.IssuedAdminSession * unit) :=
  found ← read (_active_admin admin);
  active ← read (_active_credential admin);
  match found, active with
  | Some _, Some c =>
      verification ← _verify_mfa_method c admin candidate method now;
      match verification with
      | None => _record_mfa_denial admin now (str "invalid_step_up")
      | Some v =>
          id ← new_uuid;
          rotated ← redis_in (RedisState.rotate_admin_session redis_keys redis_version redis_prefix session_token idle_ttl
                                true now (for_token r) (for_csrf r) id);
          match rotated with
          | None => reject
          | Some replacement =>
              _ ← audit_accepted admin replacement (str "admin_mfa_challenged") (Some (str "step_up")) v;
              mret (replacement, tt)
          end
      end
  | _, _ => reject
  end.
Definition step_up (session_token candidate : text) (method : MfaMethod) (network_prefix : text) (request now : Z)
    (r : Randoms) : M AdminAuthentication :=
  p ← principal session_token now;
  let account_key := str_uuid (principal_admin p) in
  allowed ← redis_out (rate_limit [bucket (str "admin-step-up-account") account_key;
                                   bucket (str "admin-step-up-network") network_prefix] (admin_mfa_rate_limit settings));
  if negb allowed then raise rate_limited
  else
    lockout ← redis_out (lockout_status account_key now);
    if RedisState.locked lockout then raise AuthenticationRejected
    else
      x ← transact_undo (step_up_body session_token (principal_admin p) candidate method now r) undo;
      _ ← redis_out (clear_admin_failures (principal_admin p));
      mret {| session := x.1; recovery_codes_shown := [] |}.

Definition logout (session_token : text) (now : Z) : M unit :=
  p ← try_except (p ← principal session_token now; mret (Some p))
        (fun e => match e with AuthenticationRejected => Some (mret None) | _ => None end);
  _ ← redis_out (revoke_session session_token);
  match p with
  | None => mret tt
  | Some p =>
      transact IntegrityError
        (audit_event (by_admin (principal_admin p)) admin_session (principal_session p) (str "session_revoked") succeeded None)
  end.

Definition _stepped_up (session_token : text) (now : Z) : M AdminPrincipal :=
  p ← principal session_token now;
  if principal_step_up p then mret p else raise AuthenticationRejected.

Definition _limit_own_change (name : text) (admin : Z) : M unit :=
  allowed ← redis_out (rate_limit [bucket name (str_uuid admin)] (admin_mfa_rate_limit settings));
  if negb allowed then raise rate_limited else mret tt.

(** *** Changing one's own credentials *)

Definition rotate_body (admin now : Z) (draws : nat -> text) : T (list text) :=
  active ← read (_active_credential admin);
  match active with
  | None => reject
  | Some c =>
      _ ← write (revoke_codes (totp_id c) now);
      shown ← issue_codes (totp_id c) draws;
      _ ← audit_event (by_admin admin) admin_totp_credential (totp_id c) (str "admin_mfa_changed") succeeded
            (Some (str "recovery_codes_rotated"));
      mret shown
  end.
Definition rotate_recovery_codes (session_token : text) (now : Z) (draws : nat -> text) : M (list text) :=
  p ← _stepped_up session_token now;
  transact IntegrityError (rotate_body (principal_admin p) now draws).

(** [str(error)] of [validate_password], with a capital and a full stop. *)
Definition password_problem (password : text) : option text :=
  if Nat.ltb (length password) Passwords._MINIMUM_CHARACTERS then
    Some (str "Password must contain at least " ++ show_Z (Z.of_nat Passwords._MINIMUM_CHARACTERS) ++ str " characters.")
  else if Nat.ltb Passwords.MAXIMUM_PASSWORD_UTF8_BYTES (length (utf8 password)) then Some (str "Password is too large.")
  else None.

Definition password_body (admin : Z) (current new_ : text) (now : Z) (salt : text) : T unit :=
  found ← read (_active_admin admin);
  match found with
  | None => reject
  | Some a =>
      if negb (Passwords.verify_password_or_dummy dummy_hash (Some (admin_password_hash a)) current) then
        _ ← audit_event (by_admin admin) admin_target admin (str "password_changed") denied (Some (str "invalid_password"));
        raise (Committed (AdminCredentialRejected (str "The current password is not right.")))
      else
        h ← hash_password new_ salt;
        _ ← write (update_admin admin (fun x => set_valid_after now (set_admin_password h x)));
        audit_event (by_admin admin) admin_target admin (str "password_changed") succeeded None
  end.
Definition change_password (session_token current new_ : text) (now : Z) (salt : text) (r : Randoms)
  : M RedisState.IssuedAdminSession :=
  p ← _stepped_up session_token now;
  match password_problem new_ with
  | Some message => raise (AdminCredentialRejected message)
  | None =>
      _ ← _limit_own_change (str "admin-password-change") (principal_admin p);
      _ ← transact IntegrityError (password_body (principal_admin p) current new_ now salt);
      _ ← redis_out (revoke_session session_token);
      id ← draw;
      redis_out (issue_session (principal_admin p) (principal_method p) true now (for_token r) (for_csrf r) id)
  end.

Definition replacement_body (id admin now : Z) (env : Mfa.EncryptedMfaSeed) : T text :=
  found ← read (_active_admin admin);
  match found with
  | None => reject
  | Some a => _ ← replace_pending id admin now env (str "replacement_started"); mret (admin_email a)
  end.
Definition stage_replacement (admin now : Z) (seed_random nonce_ : text) : M (text * text) :=
  id ← draw;
  s ← outside (new_seed admin id seed_random nonce_);
  email ← transact IntegrityError (replacement_body id admin now s.2);
  mret (s.1, email).
Definition start_authenticator_replacement (session_token : text) (now : Z) (seed_random nonce_ : text)
  : M AdminAuthenticatorSetup :=
  p ← _stepped_up session_token now;
  s ← stage_replacement (principal_admin p) now seed_random nonce_;
  mret {| setup_secret := encode_seed s.1; setup_uri := _provisioning_uri (encode_seed s.1) s.2 |}.

Definition switch_body (admin : Z) (candidate : text) (now : Z) (draws : nat -> text) : T (list text) :=
  pending ← read (credential_in TotpState.pending admin);
  match pending with
  | None => raise (Raised (AdminCredentialRejected (str "Start the new authenticator setup again.")))
  | Some c =>
      accepted ← check_totp c admin candidate now;
      match accepted with
      | None => raise (Raised (AdminCredentialRejected
                  (str "That code is not from the new authenticator, or it has expired.")))
      | Some step =>
          old ← read (_active_credential admin);
          _ ← match old with
              | Some o => _ ← write (revoke_codes (totp_id o) now); write (update_totp (totp_id o) (revoke_totp now))
              | None => mret tt
              end;
          _ ← write (update_totp (totp_id c) (confirm_totp now step));
          shown ← issue_codes (totp_id c) draws;
          _ ← audit_event (by_admin admin) admin_totp_credential (totp_id c) (str "admin_mfa_changed") succeeded
                (Some (str "replacement_confirmed"));
          mret shown
      end
  end.
Definition confirm_authenticator_replacement (session_token candidate : text) (now : Z) (draws : nat -> text) : M (list text) :=
  p ← _stepped_up session_token now;
  _ ← _limit_own_change (str "admin-mfa-replace") (principal_admin p);
  transact IntegrityError (switch_body (principal_admin p) candidate now draws).

(** *** Passkeys *)

Definition _origins : list text := strip <$> split_on ","%char (allowed_origins settings).
(** [... .hostname or "localhost"] *)
Definition _rp_id : text :=
  match hostname (hd [] _origins) with Some (c :: r) => c :: r | _ => str "localhost" end.

Definition _passkey_summary (p : AdminPasskey) : AdminPasskeySummary :=
  {| summary_id := passkey_id p; summary_name := passkey_name p; summary_created := passkey_created_at p;
     summary_last_used := passkey_last_used_at p |}.
(** [ORDER BY created_at] *)
Fixpoint insert_by_creation (p : AdminPasskey) (l : list AdminPasskey) : list AdminPasskey :=
  match l with
  | [] => [p]
  | x :: l' => if passkey_created_at x <=? passkey_created_at p then x :: insert_by_creation p l' else p :: l
  end.
Definition owned (admin : Z) (p : AdminPasskey) : bool := passkey_admin p =? admin.
Definition list_passkeys (admin : Z) : M (list AdminPasskeySummary) :=
  rows ← outside (read (fun db => scalars (owned admin) (keys db)));
  mret (_passkey_summary <$> foldl (fun l p => insert_by_creation p l) [] rows).

(** The subject a prompt's challenge is kept under. *)
Definition register_subject (session_id : Z) : text := str "register:" ++ str_uuid session_id.
Definition login_subject (challenge : text) : text := str "login:" ++ challenge.
Definition put_challenge (subject : text) (admin : Z) (challenge : text) :=
  RedisState.put_webauthn_challenge redis_keys redis_version redis_prefix subject admin challenge _WEBAUTHN_TTL_SECONDS.
Definition take_challenge (subject : text) (admin : Z) :=
  RedisState.take_webauthn_challenge redis_keys redis_version redis_prefix subject admin.

(** [random] is the challenge the package drew. *)
Definition passkey_registration_options (session_token : text) (now : Z) (random : text) : M text :=
  p ← _stepped_up session_token now;
  found ← outside (
    found ← read (_active_admin (principal_admin p));
    match found with
    | None => reject
    | Some a =>
        existing ← read (fun db => scalars (owned (admin_user_id a)) (keys db));
        mret (a, passkey_credential <$> existing)
    end);
  _ ← redis_out (put_challenge (register_subject (principal_session p)) (principal_admin p) random);
  mret (registration_json _rp_id (str "Nebula VPN admin panel") (admin_email found.1)
          (to_bytes 16 (admin_user_id found.1)) found.2 random).

Definition register_body (admin : Z) (name : text) (verified : text * text * Z) (now : Z) : T AdminPasskeySummary :=
  let '(credential_id, public_key, count) := verified in
  taken ← read (fun db => scalar (fun p => bool_decide (passkey_credential p = credential_id)) (keys db));
  match taken with
  | Some _ => raise (Raised (AdminCredentialRejected (str "This passkey is already added.")))
  | None =>
      id ← new_uuid;
      let row := {| passkey_id := id; passkey_admin := admin; passkey_credential := credential_id;
                    passkey_public_key := public_key; sign_count := count; passkey_name := strip name;
                    passkey_created_at := now; passkey_last_used_at := None |} in
      _ ← write (fun db => with_passkeys (keys db ++ [row]) db);
      _ ← audit_event (by_admin admin) admin_target admin (str "admin_mfa_changed") succeeded (Some (str "passkey_added"));
      mret (_passkey_summary row)
  end.
Definition register_passkey (session_token name : text) (cred : credential) (now : Z) : M AdminPasskeySummary :=
  p ← _stepped_up session_token now;
  challenge ← redis_out (take_challenge (register_subject (principal_session p)) (principal_admin p));
  match challenge with
  | None => raise (AdminCredentialRejected (str "The passkey request ran out of time. Start again."))
  | Some expected =>
      match verify_registration_response cred expected _rp_id _origins with
      | None => raise (AdminCredentialRejected (str "This passkey could not be checked. Try again."))
      | Some verified => transact IntegrityError (register_body (principal_admin p) name verified now)
      end
  end.

Definition remove_body (admin id : Z) : T unit :=
  row ← read (fun db => scalar (fun p => (passkey_id p =? id) && owned admin p) (keys db));
  match row with
  | None => raise (Raised (AdminCredentialRejected (str "That passkey is already removed.")))
  | Some _ =>
      _ ← write (fun db => with_passkeys (filter (fun p => passkey_id p <> id) (keys db)) db);
      audit_event (by_admin admin) admin_target admin (str "admin_mfa_changed") succeeded (Some (str "passkey_removed"))
  end.
Definition remove_passkey (session_token : text) (id now : Z) : M unit :=
  p ← _stepped_up session_token now;
  transact IntegrityError (remove_body (principal_admin p) id).

Definition passkey_login_options (challenge network_prefix random : text) : M text :=
  found ← redis_out (RedisState.peek_preauth redis_keys redis_version redis_prefix challenge (str "login") network_prefix);
  match found with
  | None => raise AuthenticationRejected
  | Some admin =>
      credentials ← outside (read (fun db => passkey_credential <$> scalars (owned admin) (keys db)));
      if bool_decide (credentials = []) then
        raise (AdminCredentialRejected (str "No passkey is set up for this account. Use the code."))
      else
        _ ← redis_out (put_challenge (login_subject challenge) admin random);
        mret (authentication_json _rp_id credentials random)
  end.

Definition passkey_body (admin : Z) (expected : option text) (cred : credential) (now : Z) (r : Randoms)
  : T (RedisState.IssuedAdminSession * unit) :=
  found ← read (_active_admin admin);
  match found, expected with
  | Some _, Some challenge =>
      let id := default [] (raw_id cred) in
      row ← read (fun db => scalar (fun p => owned admin p && bool_decide (passkey_credential p = id)) (keys db));
      let verified := p ← row; c ← verify_authentication_response cred challenge _rp_id _origins (passkey_public_key p)
                                     (sign_count p); Some (p, c) in
      match verified with
      | None => _record_mfa_denial admin now (str "invalid_passkey")
      | Some (p, count) =>
          _ ← write (fun db => with_passkeys (update passkey_id (passkey_id p) (use_passkey count now) (keys db)) db);
          issued ← _new_admin_session admin RedisState.passkey now r;
          _ ← audit_event (by_admin admin) admin_session (RedisState.session_id (RedisState.record issued))
                (str "admin_authenticated") succeeded (Some (str "passkey"));
          mret (issued, tt)
      end
  | _, _ => reject
  end.
Definition verify_passkey_login (challenge : text) (cred : credential) (network_prefix : text) (now : Z) (r : Randoms)
  : M AdminAuthentication :=
  consumed ← _consume_mfa_challenge challenge (str "login") network_prefix;
  let admin := RedisState.consumed_admin consumed in
  expected ← redis_out (take_challenge (login_subject challenge) admin);
  x ← transact_undo (passkey_body admin expected cred now r) undo;
  _ ← redis_out (clear_admin_failures admin);
  mret {| session := x.1; recovery_codes_shown := [] |}.
End Service.

End AdminAuth.
