(* ===== verification/AdminFactors.v ===== *)
(** * Administrators' second factors: what the service guarantees

    What the operations of [nebula_api/auth/admin_service.py] do to one-time-code
    credentials and recovery codes: they only ever advance, so that no code works
    twice. *)

From S2P Require Import Prelude PyText PyBytes PyTime IpAddress Usage ApiStore OpaqueToken RedisState AbuseControl AdminSessions XrayCredential Mfa Access AuthStore AdminAuth.
Import Db AuthTx TxLogic AdminAuth.

Module AdminFactors.

(** ** The tables *)

(** The [CHECK] constraints of [admin_totp_credentials]. *)
Definition has_secret (c : AdminTotpCredential) : Prop :=
  is_Some (secret_ciphertext c) /\ is_Some (secret_nonce c) /\ is_Some (secret_version c).
Definition totp_shape (c : AdminTotpCredential) : Prop :=
  match totp_state c with
  | TotpState.pending => confirmed_at c = None /\ totp_revoked_at c = None /\ has_secret c /\ last_accepted_timestep c = None
  | TotpState.active => is_Some (confirmed_at c) /\ totp_revoked_at c = None /\ has_secret c
  | TotpState.revoked => is_Some (totp_revoked_at c) /\ secret_ciphertext c = None /\ secret_nonce c = None /\
                         secret_version c = None
  end.
(** Those of [admin_mfa_recovery_codes]. *)
Definition code_shape (c : AdminMfaRecoveryCode) : Prop :=
  match code_state c with
  | TokenState.ACTIVE => code_consumed_at c = None /\ code_revoked_at c = None
  | TokenState.CONSUMED => is_Some (code_consumed_at c) /\ code_revoked_at c = None
  | TokenState.REVOKED => code_consumed_at c = None /\ is_Some (code_revoked_at c)
  | TokenState.EXPIRED => False
  end.

Record factors_wf (d : DB) : Prop := {
  fw_totp_ids : NoDup (totp_id <$> totps d);
  fw_totp_fresh : Forall (fun c => totp_id c < next_id d) (totps d);
  fw_totp_shape : Forall totp_shape (totps d);
  fw_code_ids : NoDup (code_id <$> codes d);
  fw_code_fresh : Forall (fun c => code_id c < next_id d) (codes d);
  fw_code_shape : Forall code_shape (codes d);
}.

(** How far a credential has come; it never goes back. *)
Definition rank (s : TotpState.t) : nat :=
  match s with TotpState.pending => 0 | TotpState.active => 1 | TotpState.revoked => 2 end.
Definition step_of (c : AdminTotpCredential) : Z := default (-1) (last_accepted_timestep c).

(** What may become of a credential: it advances, counts its steps upwards, and
    keeps its secret until it is revoked. *)
Record totp_step (c c' : AdminTotpCredential) : Prop := {
  ts_id : totp_id c' = totp_id c;
  ts_admin : totp_admin c' = totp_admin c;
  ts_rank : (rank (totp_state c) <= rank (totp_state c'))%nat;
  ts_steps : step_of c <= step_of c';
  ts_secret : totp_state c' <> TotpState.revoked ->
    secret_ciphertext c' = secret_ciphertext c /\ secret_nonce c' = secret_nonce c /\ secret_version c' = secret_version c;
}.
#[export] Instance totp_step_preorder : PreOrder totp_step.
Proof.
  split; [by intros c; constructor|]. intros c1 c2 c3 [I1 A1 R1 S1 K1] [I2 A2 R2 S2 K2].
  constructor; [congruence..|lia|lia|]. intros Hs. destruct (K2 Hs) as (-> & -> & ->). apply K1.
  intros Hr. rewrite Hr in R2. by destruct (totp_state c3); cbn in R2; first [lia|apply Hs].
Qed.

(** A recovery code is spent or withdrawn, once. *)
Definition code_step (c c' : AdminMfaRecoveryCode) : Prop :=
  code_id c' = code_id c /\ code_credential c' = code_credential c /\ code_digest c' = code_digest c /\
  code_version c' = code_version c /\ (c' = c \/ (code_active c = true /\ code_active c' = false)).
#[export] Instance code_step_preorder : PreOrder code_step.
Proof.
  split; [intros c; do 4 (split; [done|]); by left|]. intros c1 c2 c3 (? & ? & ? & ? & Ha) (? & ? & ? & ? & Hb).
  do 4 (split; [congruence|]). destruct Ha as [->|[Ha Ha']]; [done|]. destruct Hb as [->|[Hb Hb']]; [auto|congruence].
Qed.

(** ** The relation the service keeps *)

Definition advances (d d' : DB) : Prop :=
  next_id d <= next_id d' /\
  (factors_wf d -> factors_wf d' /\ grows totp_step (totps d) (totps d') /\ grows code_step (codes d) (codes d')).
#[export] Instance advances_rel : TxRel advances.
Proof.
  split.
  - split.
    + intros d. split; [lia|]. intros Hw. split; [done|]. split; reflexivity.
    + intros d1 d2 d3 [N1 H1] [N2 H2]. split; [lia|]. intros Hw. destruct (H1 Hw) as (W1 & T1 & C1).
      destruct (H2 W1) as (W2 & T2 & C2). split; [done|]. split; by etrans.
  - by intros d d' [Hn _].
  - intros d n Hn. split; [done|]. intros [N F S N' F' S']. split; [|split; reflexivity].
    constructor; try done; [eapply Forall_impl; [exact F|]|eapply Forall_impl; [exact F'|]]; intros c Hc; cbn in *; lia.
Qed.

Lemma advances_same d d' :
  totps d' = totps d -> codes d' = codes d -> next_id d' = next_id d -> advances d d'.
Proof.
  intros Ht Hc Hn. split; [lia|]. intros []. rewrite Ht, Hc. split; [|split; reflexivity].
  constructor; by rewrite ?Ht, ?Hc, ?Hn.
Qed.

(** Steps on the credentials of a row. *)
Lemma advances_totp d p f :
  (forall c, factors_wf d -> c ∈ totps d -> p c = true -> totp_shape c -> totp_shape (f c) /\ totp_step c (f c)) ->
  advances d (with_totp (update_where p f (totps d)) d).
Proof.
  intros Hf. split; [done|]. intros Hw. pose proof Hw as [N F S N' F' S'].
  assert (forall c, c ∈ totps d -> p c = true -> totp_shape (f c) /\ totp_step c (f c)) as Hc.
  { intros c Hc Hp. rewrite Forall_forall in S. auto. }
  split; [|split; [apply grows_update_where; [apply _|]; intros c Hin Hp; by apply Hc|reflexivity]].
  constructor; cbn; try done.
  - enough (totp_id <$> update_where p f (totps d) = totp_id <$> totps d) as -> by done. unfold update_where.
    rewrite <- list_fmap_compose. apply list_fmap_ext. intros i c Hi. cbn. destruct (p c) eqn:Hp; [|done].
    apply list_elem_of_lookup_2 in Hi. destruct (Hc c Hi Hp) as [_ Hs]. apply ts_id, Hs.
  - apply Forall_forall. intros x (c & Hin & ->)%elem_of_update_where. rewrite Forall_forall in F. specialize (F c Hin).
    destruct (p c) eqn:Hp; [|done]. destruct (Hc c Hin Hp) as [_ Hs]. cbn in *. by rewrite (ts_id _ _ Hs).
  - apply Forall_forall. intros x (c & Hin & ->)%elem_of_update_where. rewrite Forall_forall in S.
    destruct (p c) eqn:Hp; [|by apply S]. by apply Hc.
Qed.
Lemma advances_one_totp d c f :
  c ∈ totps d -> (totp_shape c -> totp_shape (f c) /\ totp_step c (f c)) -> advances d (update_totp (totp_id c) f d).
Proof.
  intros Hin Hf. unfold update_totp. rewrite update_is_where. apply advances_totp. intros x Hw Hx Hid%Z.eqb_eq Hs.
  assert (x = c) as -> by (eapply (same_id totp_id); [apply fw_totp_ids, Hw|done..]). auto.
Qed.
Lemma advances_codes d p f :
  (forall c, factors_wf d -> c ∈ codes d -> p c = true -> code_shape c -> code_shape (f c) /\ code_step c (f c)) ->
  advances d (with_codes (update_where p f (codes d)) d).
Proof.
  intros Hf. split; [done|]. intros Hw. pose proof Hw as [N F S N' F' S'].
  assert (forall c, c ∈ codes d -> p c = true -> code_shape (f c) /\ code_step c (f c)) as Hc.
  { intros c Hc Hp. rewrite Forall_forall in S'. auto. }
  split; [|split; [reflexivity|apply grows_update_where; [apply _|]; intros c Hin Hp; by apply Hc]].
  constructor; cbn; try done.
  - enough (code_id <$> update_where p f (codes d) = code_id <$> codes d) as -> by done. unfold update_where.
    rewrite <- list_fmap_compose. apply list_fmap_ext. intros i c Hi. cbn. destruct (p c) eqn:Hp; [|done].
    apply list_elem_of_lookup_2 in Hi. by destruct (Hc c Hi Hp) as [_ [Hs _]].
  - apply Forall_forall. intros x (c & Hin & ->)%elem_of_update_where. rewrite Forall_forall in F'. specialize (F' c Hin).
    destruct (p c) eqn:Hp; [|done]. destruct (Hc c Hin Hp) as [_ [Hs _]]. cbn in *. by rewrite Hs.
  - apply Forall_forall. intros x (c & Hin & ->)%elem_of_update_where. rewrite Forall_forall in S'.
    destruct (p c) eqn:Hp; [|by apply S']. by apply Hc.
Qed.
Lemma advances_one_code d c f :
  c ∈ codes d -> (code_shape c -> code_shape (f c) /\ code_step c (f c)) -> advances d (update_code (code_id c) f d).
Proof.
  intros Hin Hf. unfold update_code. rewrite update_is_where. apply advances_codes. intros x Hw Hx Hid%Z.eqb_eq Hs.
  assert (x = c) as -> by (eapply (same_id code_id); [apply fw_code_ids, Hw|done..]). auto.
Qed.

Lemma advances_add_totp d c :
  totp_shape c -> totp_id c < next_id d -> totp_id c ∉ totp_id <$> totps d -> advances d (add_totp c d).
Proof.
  intros Hs Hn Hf. split; [done|]. intros [N F S N' F' S']. split; [|split; [apply grows_add, _|reflexivity]].
  constructor; cbn; try done; [|apply Forall_app; split; [done|by constructor]..].
  rewrite fmap_app. apply NoDup_app. split; [done|]. split; [|apply NoDup_singleton].
  by intros i Hi ->%list_elem_of_singleton.
Qed.
(** A code under an identifier just drawn. *)
Lemma advances_add_code d c :
  code_shape c -> code_id c = next_id d -> advances d (add_code c (with_next_id (next_id d + 1) d)).
Proof.
  intros Hs Hi. split; [cbn; lia|]. intros [N F S N' F' S']. split; [|split; [reflexivity|apply grows_add, _]].
  constructor; cbn; try done.
  - eapply Forall_impl; [exact F|]. cbn. intros; lia.
  - eapply NoDup_add; [done|exact F'|lia].
  - apply Forall_app. split; [|constructor; [lia|done]]. eapply Forall_impl; [exact F'|]. cbn. intros; lia.
  - apply Forall_app. split; [done|by constructor].
Qed.
Lemma advances_revoke_pending d admin now : advances d (revoke_pending admin now d).
Proof.
  apply advances_totp. intros c _ _ Hp Hs. unfold totp_in in Hp. boolP. unfold totp_shape in *. cbn.
  split; [done|]. constructor; cbn; try done. by destruct (totp_state c); cbn; lia.
Qed.
Lemma advances_revoke_codes d id now : advances d (revoke_codes id now d).
Proof.
  apply advances_codes. intros c _ _ Hp Hs. boolP. unfold code_shape, code_step, code_active in *. boolP.
  rewrite H0 in *. destruct Hs as [Hc Hr]. cbn. split; [done|]. do 4 (split; [done|]). right. by rewrite bool_decide_eq_true.
Qed.
#[local] Hint Extern 2 (advances _ _) => (apply advances_same; reflexivity) : traced.
#[local] Hint Resolve advances_revoke_pending advances_revoke_codes : traced.
#[local] Hint Extern 3 (TxLogic.traced advances (write _) _) => (apply traced_write; [apply _|]; auto 2 with traced) : traced.

(** ** The service *)

Section Service.
Context `{HMAC} `{Mfa.HMAC1} `{XrayCredential.AEAD} `{Passwords.Argon2} `{Identity.EmailValidator} `{WebAuthn}.
Context (settings : Settings) (token_peppers mfa_encryption_keys : list (Z * text)) (dummy_hash : text)
  (redis_keys : list (Z * text)) (redis_version : Z) (redis_prefix : text).
Notation traced := (TxLogic.traced advances).

Lemma traced_audit_event who k t c o r w : traced (audit_event who k t c o r) w.
Proof. unfold audit_event. trace. Qed.
#[local] Hint Resolve traced_audit_event : traced.
Lemma traced_denial {A} key who k t now reason w :
  traced (record_denial settings redis_keys redis_version redis_prefix key who k t now reason : T A) w.
Proof. unfold record_denial, redis_in. trace. Qed.
#[local] Hint Resolve @traced_denial : traced.
Lemma traced_challenge identifier password prefix request now random salt w :
  traced (challenge_body settings dummy_hash redis_keys redis_version redis_prefix identifier password prefix request now random salt) w.
Proof. unfold challenge_body, upgrade_hash, hash_password, redis_in. trace. Qed.

(** *** Codes *)

Notation verify_totp_credential := (_verify_totp_credential settings mfa_encryption_keys).
Lemma totp_accepted c admin candidate now step :
  verify_totp_credential c admin candidate now = Ok (Some step) ->
  step_of c < step /\ exists ct nonce_ version e seed, secret_ciphertext c = Some ct /\ secret_nonce c = Some nonce_ /\
    secret_version c = Some version /\ Mfa.make_envelope version nonce_ ct = Ok e /\
    Mfa.decrypt_mfa_seed e admin (totp_id c) mfa_encryption_keys = Ok seed /\
    Mfa.verify_totp seed candidate now (totp_allowed_skew_steps settings) = Ok (Some step).
Proof.
  unfold _verify_totp_credential. destruct (secret_ciphertext c) as [ct|]; [|done].
  destruct (secret_nonce c) as [nonce_|]; [|done]. destruct (secret_version c) as [version|]; [|done].
  destruct (Mfa.make_envelope version nonce_ ct) as [e|] eqn:He; [|done]. cbn [mbind result_bind].
  destruct (Mfa.decrypt_mfa_seed e admin (totp_id c) mfa_encryption_keys) as [seed|] eqn:Hd; [|done].
  destruct (Mfa.verify_totp seed candidate now _) as [[s|]|] eqn:Hv; [|done..].
  assert (0 <= s) as Hs.
  { by apply Mfa.verify_totp_sound in Hv as [_ ?]. }
  unfold step_of. destruct (last_accepted_timestep c) as [l|]; cbn.
  - destruct (s <=? l) eqn:Hl; [done|]. intros [= <-]. boolP. split; [lia|]. naive_solver.
  - intros [= <-]. split; [lia|]. naive_solver.
Qed.

Lemma accept_step_ok c admin candidate now step :
  verify_totp_credential c admin candidate now = Ok (Some step) -> totp_state c = TotpState.active -> totp_shape c ->
  totp_shape (accept_step step c) /\ totp_step c (accept_step step c).
Proof.
  intros [Hs _]%totp_accepted Ha Hc. unfold totp_shape in *. cbn. rewrite Ha in *. split; [done|].
  constructor; cbn; try done. unfold step_of in *. cbn. lia.
Qed.
Lemma confirm_totp_ok c admin candidate now now' step :
  verify_totp_credential c admin candidate now = Ok (Some step) -> totp_state c = TotpState.pending -> totp_shape c ->
  totp_shape (confirm_totp now' step c) /\ totp_step c (confirm_totp now' step c).
Proof.
  intros [Hs _]%totp_accepted Ha Hc. unfold totp_shape in *. cbn. rewrite Ha in *. split; [naive_solver|].
  constructor; cbn; try done; [rewrite Ha; cbn; lia|]. unfold step_of in *. cbn. lia.
Qed.
Lemma check_totp_ok c admin candidate now w o w' :
  check_totp settings mfa_encryption_keys c admin candidate now w = (Ok o, w') ->
  verify_totp_credential c admin candidate now = Ok o /\ w' = w.
Proof. unfold check_totp, lift. destruct (_verify_totp_credential _ _ _ _ _ _) as [x|]; intros; by simplify_eq. Qed.

Lemma credential_in_ok s admin d c :
  credential_in s admin d = Some c -> c ∈ totps d /\ totp_admin c = admin /\ totp_state c = s.
Proof. intros [Hc Hp]%scalar_Some. unfold totp_in in Hp. by boolP. Qed.

Notation verify_method := (_verify_mfa_method settings token_peppers mfa_encryption_keys).
Lemma traced_verify_method c admin candidate method now w :
  c ∈ totps (db w) -> totp_state c = TotpState.active -> traced (verify_method c admin candidate method now) w.
Proof.
  intros Hc Ha. unfold _verify_mfa_method. destruct method.
  - apply traced_bind; [apply _|unfold check_totp; trace|]. intros o w1 [Ho ->]%check_totp_ok _.
    destruct o as [step|]; [|trace]. apply traced_bind; [apply _| |trace]. apply traced_write; [apply _|].
    apply advances_one_totp; [done|]. by eapply accept_step_ok.
  - destruct (digest_code token_peppers candidate) as [dg|]; [|trace].
    apply traced_bind; [apply _|trace|]. intros o w1 [Ho ->]%read_ok _. destruct o as [r|]; [|trace].
    apply traced_bind; [apply _| |trace]. apply traced_write; [apply _|]. symmetry in Ho. apply scalar_Some in Ho as [Hr Hu].
    unfold usable_code in Hu. apply andb_true_iff in Hu as [_ Hu]. apply advances_one_code; [done|]. intros Hs.
    pose proof Hu as Hst. unfold code_active in Hst. apply bool_decide_eq_true in Hst. unfold code_shape in *. rewrite Hst in Hs.
    destruct Hs as [_ Hs]. cbn. split; [split; [by eexists|done]|]. do 4 (split; [done|]). by right.
Qed.

(** *** Bodies of the transactions *)

Lemma traced_add_codes id ds w : traced (add_codes id ds) w.
Proof.
  revert w. induction ds as [|d ds IH]; intros w; [apply traced_ret, _|]. cbn [add_codes]. apply (traced_draw advances); [by apply advances_add_code|exact IH].
Qed.
Lemma traced_issue_codes id draws w : traced (issue_codes settings token_peppers id draws) w.
Proof. unfold issue_codes, of_mfa. pose proof traced_add_codes. trace. Qed.
#[local] Hint Resolve traced_issue_codes : traced.
Lemma traced_new_session admin method now r w :
  traced (_new_admin_session settings redis_keys redis_version redis_prefix admin method now r) w.
Proof. unfold _new_admin_session, redis_in. trace. Qed.
#[local] Hint Resolve traced_new_session : traced.
Lemma traced_accepted admin issued code_ reason v w : traced (audit_accepted admin issued code_ reason v) w.
Proof. unfold audit_accepted. trace. Qed.
#[local] Hint Resolve traced_accepted : traced.
(** Reads a value and goes on in the same world. *)
Ltac reads H := apply traced_bind; [apply _|trace|]; intros ? ? [H ->]%read_ok _; symmetry in H.

Lemma traced_confirm admin candidate now r draws w :
  traced (confirm_body settings token_peppers mfa_encryption_keys redis_keys redis_version redis_prefix admin candidate now r draws) w.
Proof.
  unfold confirm_body, _record_mfa_denial, reject. reads Ha. reads Hc. destruct b as [a|]; [|trace]. destruct b0 as [c|]; [|trace].
  apply credential_in_ok in Hc as (Hc & _ & Hs). apply traced_bind; [apply _|unfold check_totp; trace|].
  intros o w1 [Ho ->]%check_totp_ok _. destruct o as [step|]; [|trace]. apply traced_bind; [apply _| |intros ? ? _ _; trace].
  apply traced_write; [apply _|]. apply advances_one_totp; [done|]. by eapply confirm_totp_ok.
Qed.

Lemma traced_mfa admin candidate method now r w :
  traced (mfa_body settings token_peppers mfa_encryption_keys redis_keys redis_version redis_prefix admin candidate method now r) w.
Proof.
  unfold mfa_body, _record_mfa_denial, reject. reads Ha. reads Hc. destruct b as [a|]; [|trace]. destruct b0 as [c|]; [|trace].
  apply credential_in_ok in Hc as (Hc & _ & Hs). apply traced_bind; [apply _|by apply traced_verify_method|intros ? ? _ _; trace].
Qed.
Lemma traced_step_up token admin candidate method now r w :
  traced (step_up_body settings token_peppers mfa_encryption_keys redis_keys redis_version redis_prefix token admin candidate method now r) w.
Proof.
  unfold step_up_body, _record_mfa_denial, reject, redis_in. reads Ha. reads Hc.
  destruct b as [a|]; [|trace]. destruct b0 as [c|]; [|trace].
  apply credential_in_ok in Hc as (Hc & _ & Hs). apply traced_bind; [apply _|by apply traced_verify_method|intros ? ? _ _; trace].
Qed.
Lemma traced_rotate_codes admin now draws w : traced (rotate_body settings token_peppers admin now draws) w.
Proof. unfold rotate_body, reject. trace. Qed.
Lemma traced_password admin current new_ now salt w : traced (password_body dummy_hash admin current new_ now salt) w.
Proof. unfold password_body, hash_password, reject. trace. Qed.
Lemma traced_register admin name verified now w : traced (register_body admin name verified now) w.
Proof. unfold register_body. trace. Qed.
Lemma traced_remove admin id w : traced (remove_body admin id) w.
Proof. unfold remove_body. trace. Qed.
Lemma traced_passkey admin expected cred now r w :
  traced (passkey_body settings redis_keys redis_version redis_prefix admin expected cred now r) w.
Proof. unfold passkey_body, _record_mfa_denial, reject. trace. Qed.

(** The identifier of a credential to be added is not in use. *)
Definition unused (id : Z) (d : DB) : Prop := id < next_id d /\ id ∉ totp_id <$> totps d.
Lemma traced_replace_pending id admin now env reason w :
  unused id (db w) -> traced (replace_pending id admin now env reason) w.
Proof.
  intros [Hn Hi]. unfold replace_pending. apply traced_bind; [apply _|trace|]. intros _ w1 ->%write_ok _.
  apply traced_bind; [apply _| |intros ? ? _ _; trace]. apply traced_write; [apply _|]. apply advances_add_totp; cbn; [|done|].
  - unfold totp_shape, has_secret. cbn. naive_solver.
  - by rewrite update_where_ids.
Qed.
Lemma traced_enrollment id admin now env w : unused id (db w) -> traced (enrollment_body id admin now env) w.
Proof.
  intros Hi. unfold enrollment_body, reject. reads Ha. destruct b as [a|]; [|trace]. destruct (negb _); [trace|].
  reads Hc. destruct b as [c|]; [trace|]. apply traced_bind; [apply _|by apply traced_replace_pending|intros ? ? _ _; trace].
Qed.
Lemma traced_replacement id admin now env w : unused id (db w) -> traced (replacement_body id admin now env) w.
Proof.
  intros Hi. unfold replacement_body, reject. reads Ha. destruct b as [a|]; [|trace].
  apply traced_bind; [apply _|by apply traced_replace_pending|intros ? ? _ _; trace].
Qed.


(** The pending credential is not the one being replaced. *)
Lemma advances_switch d d2 c o admin candidate now now' step :
  verify_totp_credential c admin candidate now = Ok (Some step) ->
  c ∈ totps d -> totp_state c = TotpState.pending -> o ∈ totps d -> totp_state o = TotpState.active ->
  totps d2 = update totp_id (totp_id o) (revoke_totp now) (totps d) ->
  advances d2 (update_totp (totp_id c) (confirm_totp now' step) d2).
Proof.
  intros Hv Hc Hp Ho Ha Hd. split; [done|]. intros Hw. pose proof (fw_totp_ids _ Hw) as Hnd. rewrite Hd, update_is_where in Hnd.
  rewrite (update_where_ids totp_id) in Hnd by done.
  assert (totp_id c <> totp_id o) as Hne.
  { intros Heq. assert (c = o) as -> by (by eapply (same_id totp_id)). congruence. }
  revert Hw. apply advances_one_totp; [|by eapply confirm_totp_ok]. rewrite Hd, update_is_where.
  apply elem_of_update_where. exists c. split; [done|]. by rewrite (proj2 (Z.eqb_neq _ _) Hne).
Qed.
Lemma traced_switch admin candidate now draws w :
  traced (switch_body settings token_peppers mfa_encryption_keys admin candidate now draws) w.
Proof.
  unfold switch_body. reads Hc. destruct b as [c|]; [|trace]. apply credential_in_ok in Hc as (Hc & _ & Hp).
  apply traced_bind; [apply _|unfold check_totp; trace|]. intros acc w1 [Hv ->]%check_totp_ok _.
  destruct acc as [step|]; [|trace]. reads Ho. destruct b as [o|].
  - apply credential_in_ok in Ho as (Ho & _ & Ha). apply traced_bind; [apply _| |].
    + apply traced_bind; [apply _|trace|]. intros _ w1 ->%write_ok _. apply traced_write; [apply _|].
      apply advances_one_totp; [done|]. intros Hs. unfold totp_shape in *. rewrite Ha in Hs. cbn. split; [done|].
      constructor; cbn; try done. rewrite Ha. cbn. lia.
    + intros _ w1 (u & w2 & ->%write_ok & ->%write_ok)%bind_ok_inv _.
      apply traced_bind; [apply _| |intros ? ? _ _; trace]. apply traced_write; [apply _|]. by eapply advances_switch.
  - apply traced_bind; [apply _|trace|]. intros u w1 [= <- <-] _. apply traced_bind; [apply _| |intros ? ? _ _; trace].
    apply traced_write; [apply _|]. apply advances_one_totp; [done|]. by eapply confirm_totp_ok.
Qed.

(** *** Operations *)

Lemma redis_out_db {A} (m : prog RedisState.conn RedisState.exn A) w : db (redis_out m w).2 = db w.
Proof. unfold redis_out, redis_in, outside, on_redis. by destruct (m (redis w)) as [[a|e] c]. Qed.
Lemma outside_read_db {A} (f : DB -> A) w : db (outside (read f) w).2 = db w.
Proof. done. Qed.
Lemma new_seed_db admin id random nonce_ w : db (outside (new_seed settings mfa_encryption_keys admin id random nonce_) w).2 = db w.
Proof.
  unfold outside, new_seed, of_mfa, lift, mbind, prog_bind.
  destruct (Mfa.generate_mfa_seed random) as [s|]; [|done]. by destruct (Mfa.encrypt_mfa_seed _ _ _ _ _ _).
Qed.

Section Rel.
Context (R : DB -> DB -> Prop) `{!TxRel R}.
Lemma keeps_seed admin id random nonce_ w : keeps R (outside (new_seed settings mfa_encryption_keys admin id random nonce_)) w.
Proof. apply keeps_still; [apply _|apply new_seed_db]. Qed.
Lemma keeps_transact {A} (m : T A) w : TxLogic.traced R m w -> keeps R (transact IntegrityError m) w.
Proof. intros Hm. by apply (transact_traced R). Qed.
Lemma keeps_undo {A} (m : T (RedisState.IssuedAdminSession * A)) w :
  TxLogic.traced R m w -> keeps R (transact_undo m (undo redis_keys redis_prefix)) w.
Proof.
  intros Hm. pose proof (keeps_transact m w Hm) as Hk. unfold keeps, transact_undo in *. unfold transact in Hk.
  destruct (m w) as [[x|[e|e]] w1] eqn:Hw; [|unfold transact; by rewrite Hw..].
  destruct (commit IntegrityError (Ok x) w w1) as [[y|e] w2]; [done|]. cbn in Hk. unfold mbind, prog_bind, undo.
  pose proof (redis_out_db (revoke_session redis_keys redis_prefix (RedisState.session_token x.1)) w2) as He.
  destruct (redis_out _ w2) as [[u|e'] w3]; cbn in *; by rewrite He.
Qed.
End Rel.
#[local] Hint Resolve keeps_seed keeps_transact keeps_undo : keeps.
#[local] Hint Extern 1 (TxRel _) => apply _ : keeps.

(** What can be said without knowing that the identifier is unused. *)
Definition later (d d' : DB) : Prop := next_id d <= next_id d'.
#[export] Instance later_rel : TxRel later.
Proof.
  split; [split|done|done].
  - intros d. apply Z.le_refl.
  - intros d1 d2 d3. apply Z.le_trans.
Qed.
#[local] Hint Extern 3 (TxLogic.traced later (write _) _) => (apply traced_write; [apply _|exact (Z.le_refl _)]) : traced.
Lemma later_enrollment id admin now env w : TxLogic.traced later (enrollment_body id admin now env) w.
Proof. unfold enrollment_body, replace_pending, audit_event, reject. trace. Qed.
Lemma later_replacement id admin now env w : TxLogic.traced later (replacement_body id admin now env) w.
Proof. unfold replacement_body, replace_pending, audit_event, reject. trace. Qed.

Lemma keeps_draw {A} (k : Z -> M A) w :
  (forall w1, db w1 = with_next_id (next_id (db w) + 1) (db w) ->
     keeps later (k (next_id (db w))) w1 /\ (unused (next_id (db w)) (db w1) -> keeps advances (k (next_id (db w))) w1)) ->
  keeps advances (i ← draw; k i) w.
Proof.
  intros Hk. unfold keeps, mbind, prog_bind, draw, outside, new_uuid, on_db, uuid4. cbn -[with_next_id].
  destruct (Hk (with_db (with_next_id (next_id (db w) + 1) (db w)) w) eq_refl) as [Hl Ha].
  unfold keeps, later in *. cbn -[with_next_id] in *. split; [cbn in Hl; lia|]. intros Hw.
  assert (unused (next_id (db w)) (with_next_id (next_id (db w) + 1) (db w))) as Hu.
  { split; [cbn; lia|]. cbn. intros (c & He & Hc)%list_elem_of_fmap. pose proof (fw_totp_fresh _ Hw) as Hfr.
    rewrite Forall_forall in Hfr. specialize (Hfr c Hc). cbn in Hfr. lia. }
  destruct (Ha Hu) as [_ Hf]. apply Hf. by apply (tx_draw (R := advances) (db w) (next_id (db w) + 1) ltac:(lia)).
Qed.


(** A request to the service. *)
Inductive call :=
| PasswordChallenge (identifier password network : text) (request now : Z) (random salt : text)
| StartEnrollment (challenge network : text) (request now : Z) (seed_random nonce_ random : text)
| ConfirmEnrollment (challenge candidate network : text) (request now : Z) (r : Randoms) (draws : nat -> text)
| VerifyMfa (challenge candidate : text) (method : MfaMethod) (network : text) (request now : Z) (r : Randoms)
| Principal (token : text) (now : Z)
| RotateCsrf (token csrf : text) (now : Z) (random : text)
| StepUp (token candidate : text) (method : MfaMethod) (network : text) (request now : Z) (r : Randoms)
| Logout (token : text) (now : Z)
| RotateRecoveryCodes (token : text) (now : Z) (draws : nat -> text)
| ChangePassword (token current new_ : text) (now : Z) (salt : text) (r : Randoms)
| StartReplacement (token : text) (now : Z) (seed_random nonce_ : text)
| ConfirmReplacement (token candidate : text) (now : Z) (draws : nat -> text)
| ListPasskeys (admin : Z)
| PasskeyOptions (token : text) (now : Z) (random : text)
| RegisterPasskey (token name : text) (cred : credential) (now : Z)
| RemovePasskey (token : text) (id now : Z)
| PasskeyLoginOptions (challenge network random : text)
| VerifyPasskey (challenge : text) (cred : credential) (network : text) (now : Z) (r : Randoms).

Notation password_challenge := (password_challenge settings dummy_hash redis_keys redis_version redis_prefix).
Notation start_enrollment := (start_enrollment settings mfa_encryption_keys redis_keys redis_version redis_prefix).
Notation confirm_enrollment := (confirm_enrollment settings token_peppers mfa_encryption_keys redis_keys redis_version redis_prefix).
Notation verify_mfa := (verify_mfa settings token_peppers mfa_encryption_keys redis_keys redis_version redis_prefix).
Notation principal := (principal settings redis_keys redis_prefix).
Notation validate_and_rotate_csrf := (validate_and_rotate_csrf settings redis_keys redis_version redis_prefix).
Notation step_up := (step_up settings token_peppers mfa_encryption_keys redis_keys redis_version redis_prefix).
Notation logout := (logout settings redis_keys redis_prefix).
Notation rotate_recovery_codes := (rotate_recovery_codes settings token_peppers redis_keys redis_prefix).
Notation change_password := (change_password settings dummy_hash redis_keys redis_version redis_prefix).
Notation start_replacement := (start_authenticator_replacement settings mfa_encryption_keys redis_keys redis_prefix).
Notation confirm_replacement :=
  (confirm_authenticator_replacement settings token_peppers mfa_encryption_keys redis_keys redis_version redis_prefix).
Notation passkey_registration_options := (passkey_registration_options settings redis_keys redis_version redis_prefix).
Notation register_passkey := (register_passkey settings redis_keys redis_version redis_prefix).
Notation remove_passkey := (remove_passkey settings redis_keys redis_prefix).
Notation passkey_login_options := (passkey_login_options settings redis_keys redis_version redis_prefix).
Notation verify_passkey_login := (verify_passkey_login settings redis_keys redis_version redis_prefix).

Definition perform (c : call) (w : world) : world :=
  match c with
  | PasswordChallenge i p n q now rnd salt => (password_challenge i p n q now rnd salt w).2
  | StartEnrollment ch n q now s no rnd => (start_enrollment ch n q now s no rnd w).2
  | ConfirmEnrollment ch c n q now r d => (confirm_enrollment ch c n q now r d w).2
  | VerifyMfa ch c m n q now r => (verify_mfa ch c m n q now r w).2
  | Principal t now => (principal t now w).2
  | RotateCsrf t c now rnd => (validate_and_rotate_csrf t c now rnd w).2
  | StepUp t c m n q now r => (step_up t c m n q now r w).2
  | Logout t now => (logout t now w).2
  | RotateRecoveryCodes t now d => (rotate_recovery_codes t now d w).2
  | ChangePassword t cu ne now salt r => (change_password t cu ne now salt r w).2
  | StartReplacement t now s no => (start_replacement t now s no w).2
  | ConfirmReplacement t c now d => (confirm_replacement t c now d w).2
  | ListPasskeys a => (list_passkeys a w).2
  | PasskeyOptions t now rnd => (passkey_registration_options t now rnd w).2
  | RegisterPasskey t name cr now => (register_passkey t name cr now w).2
  | RemovePasskey t id now => (remove_passkey t id now w).2
  | PasskeyLoginOptions ch n rnd => (passkey_login_options ch n rnd w).2
  | VerifyPasskey ch cr n now r => (verify_passkey_login ch cr n now r w).2
  end.
Definition perform_all (cs : list call) (w : world) : world := foldl (fun w c => perform c w) w cs.

(** *** Every operation keeps what its transactions keep *)

(** A relation the service keeps, as long as the clock is as [ok] says. *)
Class Kept (R : DB -> DB -> Prop) (ok : Z -> Prop) : Prop := {
  kept_preorder :: PreOrder R;
  kept_draw w : keeps R draw w;
  kept_challenge i p n q now rnd salt w : ok now -> keeps R (password_challenge i p n q now rnd salt) w;
  kept_enrollment admin now s no w : ok now -> keeps R (stage_enrollment settings mfa_encryption_keys admin now s no) w;
  kept_confirm admin c now r d w : ok now ->
    keeps R (transact_undo (confirm_body settings token_peppers mfa_encryption_keys redis_keys redis_version redis_prefix
                              admin c now r d) (undo redis_keys redis_prefix)) w;
  kept_mfa admin c m now r w : ok now ->
    keeps R (transact_undo (mfa_body settings token_peppers mfa_encryption_keys redis_keys redis_version redis_prefix
                              admin c m now r) (undo redis_keys redis_prefix)) w;
  kept_step_up t admin c m now r w : ok now ->
    keeps R (transact_undo (step_up_body settings token_peppers mfa_encryption_keys redis_keys redis_version redis_prefix
                              t admin c m now r) (undo redis_keys redis_prefix)) w;
  kept_audit who k t c o r w : keeps R (transact IntegrityError (audit_event who k t c o r)) w;
  kept_rotate admin now d w : ok now -> keeps R (transact IntegrityError (rotate_body settings token_peppers admin now d)) w;
  kept_password admin cu ne now salt w : ok now ->
    keeps R (transact IntegrityError (password_body dummy_hash admin cu ne now salt)) w;
  kept_replacement admin now s no w : ok now -> keeps R (stage_replacement settings mfa_encryption_keys admin now s no) w;
  kept_switch admin c now d w : ok now ->
    keeps R (transact IntegrityError (switch_body settings token_peppers mfa_encryption_keys admin c now d)) w;
  kept_register admin name v now w : ok now -> keeps R (transact IntegrityError (register_body admin name v now)) w;
  kept_remove admin id w : keeps R (transact IntegrityError (remove_body admin id)) w;
  kept_passkey admin e cr now r w : ok now ->
    keeps R (transact_undo (passkey_body settings redis_keys redis_version redis_prefix admin e cr now r)
               (undo redis_keys redis_prefix)) w;
}.

Definition call_now (c : call) : option Z :=
  match c with
  | PasswordChallenge _ _ _ _ now _ _ | StartEnrollment _ _ _ now _ _ _ | ConfirmEnrollment _ _ _ _ now _ _
  | VerifyMfa _ _ _ _ _ now _ | Principal _ now | RotateCsrf _ _ now _ | StepUp _ _ _ _ _ now _ | Logout _ now
  | RotateRecoveryCodes _ now _ | ChangePassword _ _ _ now _ _ | StartReplacement _ now _ _ | ConfirmReplacement _ _ now _
  | PasskeyOptions _ now _ | RegisterPasskey _ _ _ now | RemovePasskey _ _ now | VerifyPasskey _ _ _ now _ => Some now
  | ListPasskeys _ | PasskeyLoginOptions _ _ _ => None
  end.
Definition at_times (ok : Z -> Prop) (c : call) : Prop := match call_now c with Some now => ok now | None => True end.

Section Every.
Context (R : DB -> DB -> Prop) (ok : Z -> Prop) `{!Kept R ok}.

Lemma keeps_redis {A} (m : prog RedisState.conn RedisState.exn A) w : keeps R (redis_out m) w.
Proof. apply keeps_still; [apply _|apply redis_out_db]. Qed.
Lemma keeps_read {A} (f : DB -> A) w : keeps R (outside (read f)) w.
Proof. by apply keeps_still; [apply _|]. Qed.
#[local] Hint Resolve keeps_redis keeps_read : keeps.
Lemma keeps_principal t now w : keeps R (principal t now) w.
Proof. unfold AdminAuth.principal. keep. Qed.
#[local] Hint Resolve keeps_principal : keeps.
Lemma keeps_stepped_up t now w : keeps R (_stepped_up settings redis_keys redis_prefix t now) w.
Proof. unfold _stepped_up. keep. Qed.
Lemma keeps_limit name admin w : keeps R (_limit_own_change settings redis_keys redis_version redis_prefix name admin) w.
Proof. unfold _limit_own_change. keep. Qed.
Lemma keeps_consume ch p n w : keeps R (_consume_mfa_challenge settings redis_keys redis_version redis_prefix ch p n) w.
Proof. unfold _consume_mfa_challenge. keep. Qed.
#[local] Hint Resolve keeps_stepped_up keeps_limit keeps_consume : keeps.
Lemma keeps_options t now rnd w : keeps R (passkey_registration_options t now rnd) w.
Proof.
  unfold AdminAuth.passkey_registration_options. apply keeps_bind; [apply _|keep|]. intros p w1 _.
  apply keeps_bind; [apply _| |intros ? ? ?; keep]. apply keeps_still; [apply _|]. unfold outside, mbind, prog_bind, read, gets.
  cbn. by destruct (_active_admin _ _).
Qed.
#[local] Hint Resolve keeps_options : keeps.
#[local] Hint Extern 1 (keeps R _ _) =>
  (first [ apply (kept_draw (ok := ok)) | apply (kept_audit (ok := ok)) | apply (kept_remove (ok := ok))
         | apply (kept_challenge (ok := ok)) | apply (kept_enrollment (ok := ok)) | apply (kept_confirm (ok := ok))
         | apply (kept_mfa (ok := ok)) | apply (kept_step_up (ok := ok)) | apply (kept_rotate (ok := ok))
         | apply (kept_password (ok := ok)) | apply (kept_replacement (ok := ok)) | apply (kept_switch (ok := ok))
         | apply (kept_register (ok := ok)) | apply (kept_passkey (ok := ok)) ]; assumption) : keeps.

Lemma perform_kept c w : at_times ok c -> R (db w) (db (perform c w)).
Proof.
  intros Hok. change (keeps R (fun w => (Ok (E := exn) tt, perform c w)) w). unfold at_times in Hok.
  enough (forall A (m : M A), keeps R m w -> keeps R (fun w => (Ok (E := exn) tt, (m w).2)) w) as Hrun.
  2: { intros A m Hm. exact Hm. }
  destruct c; cbn [perform call_now] in *; apply Hrun;
    unfold AdminAuth.start_enrollment, AdminAuth.confirm_enrollment, AdminAuth.verify_mfa,
      AdminAuth.validate_and_rotate_csrf, AdminAuth.step_up, AdminAuth.rotate_recovery_codes,
      AdminAuth.change_password, AdminAuth.start_authenticator_replacement, AdminAuth.confirm_authenticator_replacement,
      AdminAuth.list_passkeys, AdminAuth.register_passkey, AdminAuth.remove_passkey,
      AdminAuth.passkey_login_options, AdminAuth.verify_passkey_login; keep.
  apply keeps_try; [apply _|keep|]. intros e k w' He. destruct e; simplify_eq; keep.
Qed.
Lemma perform_all_kept cs w : Forall (at_times ok) cs -> R (db w) (db (perform_all cs w)).
Proof.
  intros Hc. revert w. induction Hc as [|c cs Hc _ IH]; intros w; [reflexivity|]. cbn. etrans; [by apply perform_kept|apply IH].
Qed.
End Every.


(** *** The relations *)

#[export] Instance advances_kept : Kept advances (fun _ => True).
Proof.
  pose proof traced_challenge. pose proof traced_confirm. pose proof traced_mfa. pose proof traced_step_up.
  pose proof traced_rotate_codes. pose proof traced_password. pose proof traced_switch. pose proof traced_register.
  pose proof traced_remove. pose proof traced_passkey.
  split; try (intros; apply keeps_undo || apply keeps_transact; auto with traced; apply _).
  - apply _.
  - intros w. apply (tx_draw (R := advances)). cbn. lia.
  - intros admin now s no w _. unfold stage_enrollment. apply keeps_draw. intros w1 Hw1.
    split; [|intros Hu]; (apply keeps_bind; [apply _|apply keeps_seed, _|]); intros x w2 Hx;
      (apply keeps_bind; [apply _| |intros; apply keeps_ret, _]); apply keeps_transact; try apply _;
      [apply later_enrollment|apply traced_enrollment].
    pose proof (new_seed_db admin (next_id (db w)) s no w1) as He. rewrite Hx in He. cbn in He. by rewrite He.
  - intros admin now s no w _. unfold stage_replacement. apply keeps_draw. intros w1 Hw1.
    split; [|intros Hu]; (apply keeps_bind; [apply _|apply keeps_seed, _|]); intros x w2 Hx;
      (apply keeps_bind; [apply _| |intros; apply keeps_ret, _]); apply keeps_transact; try apply _;
      [apply later_replacement|apply traced_replacement].
    pose proof (new_seed_db admin (next_id (db w)) s no w1) as He. rewrite Hx in He. cbn in He. by rewrite He.
Qed.


Lemma transact_undo_ok {A} (m : T A) u w a w' :
  transact_undo m u w = (Ok a, w') -> m w = (Ok a, w') /\ consistent (db w').
Proof.
  unfold transact_undo. destruct (m w) as [[x|e] w1] eqn:Hm.
  - unfold commit, consistent. destruct (constraints (db w1) && auth_constraints (db w1)) eqn:Hc; [intros; by simplify_eq|].
    unfold mbind, prog_bind. by destruct (u x _) as [[]].
  - intros [Ht _]%transact_ok. congruence.
Qed.
Lemma undo_consistent {A} (m : T (RedisState.IssuedAdminSession * A)) w :
  keeps stays_consistent (transact_undo m (undo redis_keys redis_prefix)) w.
Proof.
  pose proof (transact_consistent IntegrityError m w) as Hk. unfold keeps, transact_undo in *. unfold transact in Hk.
  destruct (m w) as [[x|[e|e]] w1] eqn:Hw; [|unfold transact; by rewrite Hw..].
  destruct (commit IntegrityError (Ok x) w w1) as [[y|e] w2]; [done|]. cbn in Hk. unfold mbind, prog_bind, undo.
  pose proof (redis_out_db (revoke_session redis_keys redis_prefix (RedisState.session_token x.1)) w2) as He.
  destruct (redis_out _ w2) as [[u|e'] w3]; cbn in *; by rewrite He.
Qed.
Lemma stage_consistent {A B C D} (m : M A) (f : A -> M B) (g : A -> B -> T C) (h : B -> C -> D) w :
  (forall w, keeps stays_consistent m w) -> (forall a w, db (f a w).2 = db w) ->
  keeps stays_consistent (a ← m; b ← f a; c ← transact IntegrityError (g a b); mret (h b c)) w.
Proof.
  intros Hm Hf. apply keeps_bind; [apply _|apply Hm|]. intros a w1 _.
  apply keeps_bind; [apply _|apply keeps_still; [apply _|apply Hf]|]. intros b w2 _.
  apply keeps_bind; [apply _|apply transact_consistent|]. intros c w3 _. apply keeps_ret, _.
Qed.
#[export] Instance consistent_kept : Kept stays_consistent (fun _ => True).
Proof.
  split; try (intros; apply undo_consistent || apply transact_consistent); [apply _|by intros w Hc|..];
    intros; apply stage_consistent; intros; try apply new_seed_db; by intros Hc.
Qed.

(** From an instant on, an administrator's sessions count only if they began at
    that instant or after. *)
Definition cut_off (admin t : Z) (d : DB) : Prop :=
  forall a, a ∈ admins (auth d) -> admin_user_id a = admin -> exists v, sessions_valid_after a = Some v /\ t <= v.
Definition stays_cut (admin t : Z) (d d' : DB) : Prop := next_id d <= next_id d' /\ (cut_off admin t d -> cut_off admin t d').

Section CutOff.
Context (admin t : Z).
#[export] Instance stays_cut_rel : TxRel (stays_cut admin t).
Proof.
  split; [split|by intros d d' [Hn _]|by intros d n Hn].
  - intros d. split; [lia|done].
  - intros d1 d2 d3 [N1 C1] [N2 C2]. split; [lia|auto].
Qed.
Lemma cut_same d d' : admins (auth d') = admins (auth d) -> next_id d' = next_id d -> stays_cut admin t d d'.
Proof. intros Ha Hn. split; [lia|]. unfold cut_off. by rewrite Ha. Qed.
Lemma cut_update d id f :
  (forall a, admin_user_id (f a) = admin_user_id a) ->
  (forall a, sessions_valid_after (f a) = sessions_valid_after a \/ exists v, sessions_valid_after (f a) = Some v /\ t <= v) ->
  stays_cut admin t d (update_admin id f d).
Proof.
  intros Hid Hf. split; [done|]. intros Hc a Ha Hi. cbn in Ha. rewrite update_is_where in Ha.
  apply elem_of_update_where in Ha as (x & Hx & ->). case_match; [|auto].
  destruct (Hf x) as [->|Hv]; [|done]. apply Hc; [done|]. by rewrite Hid in Hi.
Qed.
#[local] Hint Extern 2 (stays_cut _ _ _ _) => (apply cut_same; reflexivity) : traced.
#[local] Hint Extern 3 (TxLogic.traced (stays_cut _ _) (write _) _) => (apply traced_write; [apply _|]; auto 2 with traced) : traced.
Notation cut := (TxLogic.traced (stays_cut admin t)).
Lemma cut_audit who k x c o r w : cut (audit_event who k x c o r) w.
Proof. unfold audit_event. trace. Qed.
#[local] Hint Resolve cut_audit : traced.
Lemma cut_denial {A} key who k x now reason w :
  cut (record_denial settings redis_keys redis_version redis_prefix key who k x now reason : T A) w.
Proof. unfold record_denial, redis_in. trace. Qed.
#[local] Hint Resolve @cut_denial : traced.
Lemma cut_upgrade x password salt w : cut (upgrade_hash x password salt) w.
Proof.
  unfold upgrade_hash, hash_password. destruct (Passwords.argon2_needs_rehash _); [|trace].
  apply traced_bind; [apply _|trace|]. intros h w1 _ _. apply traced_write; [apply _|]. apply cut_update; [done|]. by left.
Qed.
Lemma cut_password x cu ne now salt w : t <= now -> cut (password_body dummy_hash x cu ne now salt) w.
Proof.
  intros Ht. unfold password_body, reject, hash_password. reads Ha. destruct b as [a|]; [|trace]. destruct (negb _); [trace|].
  apply traced_bind; [apply _|trace|]. intros h w1 _ _. apply traced_bind; [apply _| |intros ? ? _ _; trace].
  apply traced_write; [apply _|]. apply cut_update; [done|]. right. by exists now.
Qed.
Lemma cut_add_codes id ds w : cut (add_codes id ds) w.
Proof.
  revert w. induction ds as [|d ds IH]; intros w; [apply traced_ret, _|]. cbn [add_codes].
  apply (traced_draw (stays_cut admin t)); [|exact IH]. split; [cbn; lia|done].
Qed.
#[local] Hint Resolve cut_upgrade cut_password cut_add_codes : traced.
Lemma cut_redis {A} (m : prog RedisState.conn RedisState.exn A) w : cut (redis_in m) w.
Proof. unfold redis_in. trace. Qed.
Lemma cut_totp c x candidate now w : cut (check_totp settings mfa_encryption_keys c x candidate now) w.
Proof. unfold check_totp. trace. Qed.
#[local] Hint Resolve cut_redis cut_totp : traced.
Lemma cut_stage {A} (f : Z -> M A) (g : Z -> A -> T text) (h : A -> text) w :
  (forall id w, db (f id w).2 = db w) -> (forall id a w, cut (g id a) w) ->
  keeps (stays_cut admin t) (id ← draw; s ← f id; e ← transact IntegrityError (g id s); mret (h s, e)) w.
Proof.
  intros Hf Hg. apply keeps_bind; [apply _|split; [cbn; lia|done]|]. intros id w1 _.
  apply keeps_bind; [apply _|apply keeps_still; [apply _|apply Hf]|]. intros s w2 _.
  apply keeps_bind; [apply _|apply keeps_transact; [apply _|apply Hg]|]. intros e w3 _. apply keeps_ret, _.
Qed.
#[export] Instance cut_kept : Kept (stays_cut admin t) (fun now => t <= now).
Proof.
  split; try (intros; apply keeps_undo || apply keeps_transact; [apply _|];
    unfold challenge_body, confirm_body, mfa_body, step_up_body, rotate_body, switch_body, register_body, remove_body,
      passkey_body, _record_mfa_denial, reject, issue_codes, of_mfa, _new_admin_session,
      audit_accepted, _verify_mfa_method; trace); [apply _|intros w; split; [cbn; lia|done]|..];
    intros x now s no w _; apply cut_stage; intros; try apply new_seed_db;
    unfold enrollment_body, replacement_body, replace_pending, reject; trace.
Qed.
End CutOff.


(** ** What the service guarantees *)

Lemma always_on (cs : list call) : Forall (at_times (fun _ => True)) cs.
Proof. apply Forall_true. intros c. unfold at_times. by destruct (call_now c). Qed.
Lemma all_advance cs w : advances (db w) (db (perform_all cs w)).
Proof. apply (perform_all_kept advances (fun _ => True)), always_on. Qed.
Lemma all_consistent cs w : consistent (db w) -> consistent (db (perform_all cs w)).
Proof. apply (perform_all_kept stays_consistent (fun _ => True)), always_on. Qed.
Lemma consistent_admin d : consistent d -> admin_constraints (auth d) = true.
Proof. unfold consistent, auth_constraints. intros Hc. by boolP. Qed.
Lemma one_credential d s c c' :
  consistent d -> s <> TotpState.revoked -> c ∈ totps d -> c' ∈ totps d -> totp_state c = s -> totp_state c' = s ->
  totp_admin c = totp_admin c' -> c = c'.
Proof.
  intros Hc%consistent_admin Hs Hin Hin' Hst Hst' He. unfold admin_constraints in Hc. boolP.
  destruct s; [eapply (unique_key (totp_in TotpState.pending) totp_admin)|eapply (unique_key (totp_in TotpState.active) totp_admin)|done];
    try done; unfold totp_in; by rewrite bool_decide_eq_true.
Qed.

(** C30: whatever the service is asked, the second factors stay well formed and only
    advance: a credential goes from pending to active to revoked and never back,
    keeps its secret until it is revoked and loses it then, and counts its
    accepted timesteps upwards; a recovery code is spent or withdrawn once; no
    administrator ever has two active credentials or two pending ones. *)
Theorem second_factors_only_advance cs w :
  factors_wf (db w) -> consistent (db w) ->
  let d' := db (perform_all cs w) in
  factors_wf d' /\ grows totp_step (totps (db w)) (totps d') /\ grows code_step (codes (db w)) (codes d') /\
  (forall s c c', s <> TotpState.revoked -> c ∈ totps d' -> c' ∈ totps d' -> totp_state c = s -> totp_state c' = s ->
     totp_admin c = totp_admin c' -> c = c').
Proof.
  intros Hw Hc. cbn zeta. destruct (all_advance cs w) as [_ Ha]. destruct (Ha Hw) as (Hw' & Ht & Hk).
  split; [done|]. split; [done|]. split; [done|]. intros s c c'. by apply one_credential, all_consistent.
Qed.

Lemma redis_out_ok {A} (m : prog RedisState.conn RedisState.exn A) w a w' :
  redis_out m w = (Ok a, w') -> db w' = db w /\ m (redis w) = (Ok a, redis w').
Proof.
  unfold redis_out, redis_in, outside, on_redis. destruct (m (redis w)) as [[x|e] c]; intros; by simplify_eq.
Qed.
Lemma redis_in_ok {A} (m : prog RedisState.conn RedisState.exn A) w a w' :
  redis_in m w = (Ok a, w') -> db w' = db w /\ m (redis w) = (Ok a, redis w').
Proof. unfold redis_in, on_redis. destruct (m (redis w)) as [[x|e] c]; intros; by simplify_eq. Qed.
Lemma denial_not_ok {A} key who k t now reason w (x : A) w' :
  record_denial settings redis_keys redis_version redis_prefix key who k t now reason w <> (Ok x, w').
Proof.
  unfold record_denial. intros (f & w1 & _ & Hr)%bind_ok_inv. by apply bind_ok_inv in Hr as (u & w2 & _ & Hr).
Qed.


(** *** Signing in *)

Notation consume_preauth := (consume_preauth redis_keys redis_version redis_prefix).
Notation key_of := (AdminSessions.preauth_key_of redis_keys redis_prefix).
Notation server_of w := (RedisState.redis (redis w)).
Notation outstanding t admin purpose network w :=
  (AdminSessions.outstanding redis_keys redis_version redis_prefix t admin purpose network (server_of w)).
Definition kept (k : text) (w w' : world) : Prop := Redis.find (server_of w') k = Redis.find (server_of w) k.

Lemma new_session_ok admin method now r w j w' :
  _new_admin_session settings redis_keys redis_version redis_prefix admin method now r w = (Ok j, w') ->
  totps (db w') = totps (db w) /\ codes (db w') = codes (db w) /\ admins (auth (db w')) = admins (auth (db w)) /\
  RedisState.admin_id (RedisState.record j) = admin /\ RedisState.mfa_method (RedisState.record j) = method /\
  RedisState.created_at (RedisState.record j) = now /\ RedisState.step_up_at (RedisState.record j) = None /\
  RedisState.absolute_expires_at (RedisState.record j) = now + absolute_ttl settings /\
  (forall t k, key_of t = Some k -> kept k w w').
Proof.
  unfold _new_admin_session. intros (id & w1 & [-> ->]%uuid_ok & [Hd Hi]%redis_in_ok)%bind_ok_inv.
  apply AdminSessions.issue_session_ok in Hi as (k & csrf & Hk & _ & _ & -> & _ & Hother & _). rewrite Hd.
  do 8 (split; [done|]). intros t k' Hk'. apply Hother. by eapply AdminSessions.preauth_not_session.
Qed.
Lemma accepted_ok admin issued code_ reason v w u w' :
  audit_accepted admin issued code_ reason v w = (Ok u, w') -> auth (db w') = auth (db w) /\ redis w' = redis w.
Proof.
  unfold audit_accepted. intros (x & w1 & ->%write_ok & Hr)%bind_ok_inv.
  destruct (recovery_code_id v); [by apply write_ok in Hr as ->|]. unfold mret, prog_ret in Hr. by simplify_eq.
Qed.
Lemma verify_method_redis c admin candidate method now w v w' :
  verify_method c admin candidate method now w = (Ok v, w') -> redis w' = redis w.
Proof.
  unfold _verify_mfa_method. destruct method.
  - intros Hr. apply bind_ok_inv in Hr as (ok & w1 & [_ ->]%check_totp_ok & Hr). destruct ok; [|by injection Hr as _ <-].
    apply bind_ok_inv in Hr as (? & ? & ->%write_ok & Hr). by injection Hr as _ <-.
  - destruct (digest_code token_peppers candidate); [|by intros [= _ <-]].
    intros Hr. apply bind_ok_inv in Hr as (ok & w1 & [_ ->]%read_ok & Hr). destruct ok; [|by injection Hr as _ <-].
    apply bind_ok_inv in Hr as (? & ? & ->%write_ok & Hr). by injection Hr as _ <-.
Qed.
Lemma consume_ok challenge purpose network w c w' :
  _consume_mfa_challenge settings redis_keys redis_version redis_prefix challenge purpose network w = (Ok c, w') ->
  db w' = db w /\ outstanding challenge (RedisState.consumed_admin c) purpose network w /\
  forall k, key_of challenge = Some k -> Redis.find (server_of w') k = None.
Proof.
  unfold _consume_mfa_challenge. intros (b & w1 & [Hd Hl]%redis_out_ok & Hr)%bind_ok_inv. destruct (negb b); [done|].
  apply bind_ok_inv in Hr as (o & w2 & [Hd' Hc]%redis_out_ok & Hr). destruct o as [x|]; [|done].
  unfold mret, prog_ret in Hr. simplify_eq. split; [congruence|]. apply AdminSessions.consume_outstanding in Hc as [Hout Hgone].
  split; [|done]. eapply AdminSessions.outstanding_same; [|exact Hout]. intros k Hk.
  apply (AbuseControl.rate_limit_untouched _ _ _ k) in Hl as [Hf _]; [done|]. by eapply AdminSessions.preauth_not_rate.
Qed.

(** What a sign-in with a code comes down to. *)
Lemma verify_mfa_ok challenge candidate method network request now r w x w' :
  verify_mfa challenge candidate method network request now r w = (Ok x, w') ->
  exists admin a c v w1 w2,
    (outstanding challenge admin (str "login") network w /\
     forall k, key_of challenge = Some k -> Redis.find (server_of w') k = None) /\
    db w1 = db w /\ _active_admin admin (db w) = Some a /\ _active_credential admin (db w) = Some c /\
    verify_method c admin candidate method now w1 = (Ok (Some v), w2) /\
    totps (db w') = totps (db w2) /\ codes (db w') = codes (db w2) /\ consistent (db w') /\
    RedisState.admin_id (RedisState.record (session x)) = admin /\
    RedisState.mfa_method (RedisState.record (session x)) = session_method method /\
    RedisState.created_at (RedisState.record (session x)) = now /\
    RedisState.step_up_at (RedisState.record (session x)) = None /\
    RedisState.absolute_expires_at (RedisState.record (session x)) = now + absolute_ttl settings.
Proof.
  unfold AdminAuth.verify_mfa. intros (p & w1 & (Hd & Hout & Hgone)%consume_ok & Hr)%bind_ok_inv.
  apply bind_ok_inv in Hr as (y & w2 & [Hb Hc]%transact_undo_ok & Hr).
  apply bind_ok_inv in Hr as (u & w3 & [Hd3 Hclear]%redis_out_ok & Hr). unfold mret, prog_ret in Hr. simplify_eq.
  unfold mfa_body in Hb. apply bind_ok_inv in Hb as (oa & w4 & [Ha ->]%read_ok & Hb).
  apply bind_ok_inv in Hb as (oc & w4 & [Ho ->]%read_ok & Hb). rewrite Hd in Ha, Ho.
  destruct oa as [a|]; [|done]. destruct oc as [c|]; [|done].
  apply bind_ok_inv in Hb as (ov & w4 & Hv & Hb). destruct ov as [v|]; [|by apply denial_not_ok in Hb].
  apply bind_ok_inv in Hb as (j & w5 & Hj & Hb). apply bind_ok_inv in Hb as (u' & w6 & Hu & Hb).
  unfold mret, prog_ret in Hb. simplify_eq. apply new_session_ok in Hj as (T1 & C1 & _ & R1 & R2 & R3 & R4 & R5 & Hkept).
  apply accepted_ok in Hu as [Hu Hru]. exists (RedisState.consumed_admin p), a, c, v, w1, w4. cbn.
  split; [|by rewrite Hd3, Hu, T1, C1]. split; [done|]. intros k Hk.
  rewrite (AdminSessions.clear_untouched _ _ _ _ _ _ _ _ _ Hk Hclear), Hru, (Hkept _ _ Hk).
  rewrite (verify_method_redis _ _ _ _ _ _ _ _ Hv). by apply Hgone.
Qed.


Lemma upgrade_redis a password salt w u w' : upgrade_hash a password salt w = (Ok u, w') -> redis w' = redis w.
Proof.
  unfold upgrade_hash, hash_password. destruct (Passwords.argon2_needs_rehash _); [|by intros [= _ <-]].
  intros (h & w1 & Hh & ->%write_ok)%bind_ok_inv. unfold lift in Hh. by injection Hh as _ <-.
Qed.

(** What the password step that returns has checked and left behind. *)
Lemma challenge_ok identifier password network request now random salt w x w' :
  password_challenge identifier password network request now random salt w = (Ok x, w') ->
  exists a, _find_admin (_normalize_admin_identifier identifier) (db w) = Some a /\ admin_active a = true /\
    Passwords.verify_password_or_dummy dummy_hash (Some (admin_password_hash a)) password = true /\
    (exists c1 c2 l,
      rate_limit settings redis_keys redis_version redis_prefix [bucket (str "admin-account") (str_uuid (admin_user_id a));
        bucket (str "admin-login-network") network] (admin_login_rate_limit settings) (redis w) = (Ok true, c1) /\
      lockout_status redis_keys redis_version redis_prefix (str_uuid (admin_user_id a)) now c1 = (Ok l, c2) /\
      RedisState.locked l = false) /\
    (is_uuid (admin_user_id a) ->
     outstanding (challenge_token x) (admin_user_id a)
       (match challenge_next x with to_mfa => str "login" | to_enroll => str "enroll" end) network w').
Proof.
  intros [Hb _]%transact_ok. unfold challenge_body in Hb.
  apply bind_ok_inv in Hb as (o & w1 & [-> ->]%read_ok & Hb). apply bind_ok_inv in Hb as (al & w1 & [Hd1 Hal]%redis_in_ok & Hb).
  destruct al; cbn [negb] in Hb; [|by apply bind_ok_inv in Hb as (? & ? & _ & Hb)].
  apply bind_ok_inv in Hb as (l & w2 & [_ Hl]%redis_in_ok & Hb).
  destruct (_find_admin _ (db w)) as [a|] eqn:Ha; [|by apply denial_not_ok in Hb]. cbn [fmap option_fmap option_map] in Hb.
  destruct (admin_active a && negb (RedisState.locked l) && _) eqn:He; cbn [negb] in Hb; [|by apply denial_not_ok in Hb].
  boolP. exists a. do 3 (split; [done|]). split; [by exists (redis w1), (redis w2), l|]. intros Hid.
  apply bind_ok_inv in Hb as (u & w3 & Hup%upgrade_redis & Hb). apply bind_ok_inv in Hb as (o & w4 & [_ ->]%read_ok & Hb).
  apply bind_ok_inv in Hb as (ch & w4 & [_ Hi]%redis_in_ok & Hb). apply bind_ok_inv in Hb as (? & w5 & ->%write_ok & Hb).
  unfold mret, prog_ret in Hb. simplify_eq. cbn [challenge_token challenge_next].
  exact (AdminSessions.issue_outstanding _ _ _ _ _ _ _ _ _ _ _ _ Hid Hi).
Qed.

(** C27: a sign-in takes both factors.  The first step hands out a challenge only for
    the right password of an active administrator, whom the rate limit let through
    and the lockout, asked next, did not hold; the challenge is then outstanding for
    that administrator and network.  The second step opens a session only for a
    challenge outstanding for a sign-in from that network, which is gone afterwards,
    and a code of that administrator's active authenticator, or one of its unused
    recovery codes; the session is that administrator's, began now and ends at the
    configured time, and has not stepped up.  So whatever happened between the two
    steps, short of the challenge's key being rewritten, the session opened with a
    challenge is that of the administrator whose password was given for it. *)
Theorem sign_in_takes_both_factors :
  (forall identifier password network request now random salt w x w',
     password_challenge identifier password network request now random salt w = (Ok x, w') ->
     exists a, _find_admin (_normalize_admin_identifier identifier) (db w) = Some a /\ admin_active a = true /\
       Passwords.verify_password_or_dummy dummy_hash (Some (admin_password_hash a)) password = true /\
       (exists c1 c2 l,
         rate_limit settings redis_keys redis_version redis_prefix [bucket (str "admin-account") (str_uuid (admin_user_id a));
           bucket (str "admin-login-network") network] (admin_login_rate_limit settings) (redis w) = (Ok true, c1) /\
         lockout_status redis_keys redis_version redis_prefix (str_uuid (admin_user_id a)) now c1 = (Ok l, c2) /\
         RedisState.locked l = false) /\
       (is_uuid (admin_user_id a) ->
        outstanding (challenge_token x) (admin_user_id a)
          (match challenge_next x with to_mfa => str "login" | to_enroll => str "enroll" end) network w' /\
        forall candidate method network2 request2 now2 r w1 y w2,
          (forall k, key_of (challenge_token x) = Some k -> kept k w' w1) ->
          verify_mfa (challenge_token x) candidate method network2 request2 now2 r w1 = (Ok y, w2) ->
          RedisState.admin_id (RedisState.record (session y)) = admin_user_id a)) /\
  (forall challenge candidate method network request now r w x w',
     verify_mfa challenge candidate method network request now r w = (Ok x, w') ->
     exists a c, let admin := RedisState.admin_id (RedisState.record (session x)) in
       outstanding challenge admin (str "login") network w /\
       (forall k, key_of challenge = Some k -> Redis.find (server_of w') k = None) /\
       _active_admin admin (db w) = Some a /\ _active_credential admin (db w) = Some c /\
       match method with
       | by_totp => exists step, verify_totp_credential c admin candidate now = Ok (Some step)
       | by_recovery => exists k d, k ∈ codes (db w) /\ digest_code token_peppers candidate = Some d /\
                          usable_code (totp_id c) d k = true
       end /\
       RedisState.mfa_method (RedisState.record (session x)) = session_method method /\
       RedisState.created_at (RedisState.record (session x)) = now /\
       RedisState.step_up_at (RedisState.record (session x)) = None /\
       RedisState.absolute_expires_at (RedisState.record (session x)) = now + absolute_ttl settings).
Proof.
  split.
  - intros identifier password network request now random salt w x w' (a & Ha & Hact & Hp & Hlim & Hout)%challenge_ok.
    exists a. do 4 (split; [done|]). intros Hid. specialize (Hout Hid). split; [done|].
    intros candidate method network2 request2 now2 r w1 y w2 Hk Hy.
    apply verify_mfa_ok in Hy as (admin & b & c & v & w3 & w4 & [Hout2 _] & _ & _ & _ & _ & _ & _ & _ & -> & _).
    eapply AdminSessions.outstanding_same in Hout; [|exact Hk]. by destruct (AdminSessions.outstanding_one _ _ _ _ _ _ _ _ _ _ _ Hout2 Hout).
  - intros challenge candidate method network request now r w x w' Hx.
    apply verify_mfa_ok in Hx as (admin & a & c & v & w1 & w2 & [Hout Hgone] & Hd & Ha & Hc & Hv & _ & _ & _ & -> & R2 & R3 & R4 & R5).
    exists a, c. cbn zeta. do 4 (split; [done|]). split; [|done].
    unfold _verify_mfa_method in Hv. destruct method.
    + apply bind_ok_inv in Hv as (o & w3 & [Ho ->]%check_totp_ok & Hv). destruct o as [step|]; [eauto|].
      unfold mret, prog_ret in Hv. simplify_eq.
    + destruct (digest_code token_peppers candidate) as [dg|]; [|unfold mret, prog_ret in Hv; simplify_eq].
      apply bind_ok_inv in Hv as (o & w3 & [Ho ->]%read_ok & Hv). destruct o as [k|]; [|unfold mret, prog_ret in Hv; simplify_eq].
      symmetry in Ho. apply scalar_Some in Ho as [Hk Hu]. rewrite Hd in Hk. eauto.
Qed.

(** *** No code works twice *)

Lemma recovery_spent c admin candidate now w v w' :
  verify_method c admin candidate by_recovery now w = (Ok (Some v), w') ->
  exists d k, digest_code token_peppers candidate = Some d /\ k ∈ codes (db w') /\ code_digest k = OpaqueToken.value d /\
    code_active k = false.
Proof.
  unfold _verify_mfa_method. destruct (digest_code token_peppers candidate) as [d|] eqn:Hd; [|done].
  intros (o & w1 & [Ho ->]%read_ok & Hv)%bind_ok_inv. destruct o as [k|]; [|done]. symmetry in Ho.
  apply scalar_Some in Ho as [Hk Hu]. apply bind_ok_inv in Hv as (u & w2 & ->%write_ok & Hv). unfold mret, prog_ret in Hv. simplify_eq.
  exists d, (consume_code now k). split; [done|]. cbn. rewrite update_is_where. unfold usable_code in Hu. boolP.
  split; [|done]. apply elem_of_update_where. exists k. split; [done|]. by rewrite Z.eqb_refl.
Qed.
(** A spent code is no use on any credential. *)
Lemma spent_is_refused d k dg candidate :
  consistent d -> k ∈ codes d -> code_active k = false -> code_digest k = OpaqueToken.value dg ->
  digest_code token_peppers candidate = Some dg ->
  forall c admin now w v w', db w = d -> verify_method c admin candidate by_recovery now w <> (Ok (Some v), w').
Proof.
  intros Hc Hk Hi Hdg Hd c admin now w v w' <-. unfold _verify_mfa_method. rewrite Hd.
  intros (o & w1 & [Ho ->]%read_ok & Hv)%bind_ok_inv. destruct o as [k2|]; [|done]. symmetry in Ho.
  apply scalar_Some in Ho as [Hk2 Hu]. unfold usable_code in Hu. apply consistent_admin in Hc. unfold admin_constraints in Hc. boolP.
  assert (k = k2) as <- by (eapply (unique_key always code_digest); [eassumption|done..|congruence]). congruence.
Qed.

Lemma still_bind {A B} (m : M A) (f : A -> M B) w :
  db (m w).2 = db w -> (forall a w', db (f a w').2 = db w') -> db ((m ≫= f) w).2 = db w.
Proof.
  unfold mbind, prog_bind. destruct (m w) as [[a|e] w1]; cbn; intros Hm Hf; [|done]. by rewrite Hf.
Qed.
Lemma principal_db t now w : db (principal t now w).2 = db w.
Proof.
  unfold AdminAuth.principal. apply still_bind; [apply redis_out_db|]. intros [r|] w1; [|done].
  apply still_bind; [done|]. intros [a|] w2; [destruct (too_old a r); [|done]|];
    (apply still_bind; [apply redis_out_db|done]).
Qed.
Lemma step_up_ok token candidate method network request now r w x w' :
  step_up token candidate method network request now r w = (Ok x, w') ->
  exists p c v w1 w2, (principal token now w).1 = Ok p /\ db w1 = db w /\
    _active_credential (principal_admin p) (db w) = Some c /\
    verify_method c (principal_admin p) candidate method now w1 = (Ok (Some v), w2) /\
    totps (db w') = totps (db w2) /\ codes (db w') = codes (db w2) /\ consistent (db w').
Proof.
  unfold AdminAuth.step_up. intros (p & w1 & Hp & Hr)%bind_ok_inv. pose proof (principal_db token now w) as Hd. rewrite Hp in Hd. cbn in Hd.
  apply bind_ok_inv in Hr as (b & w2 & [Hd2 _]%redis_out_ok & Hr). destruct (negb b); [done|].
  apply bind_ok_inv in Hr as (l & w3 & [Hd3 _]%redis_out_ok & Hr). destruct (RedisState.locked l); [done|].
  apply bind_ok_inv in Hr as (y & w4 & [Hb Hc]%transact_undo_ok & Hr).
  apply bind_ok_inv in Hr as (u & w5 & [Hd5 _]%redis_out_ok & Hr). unfold mret, prog_ret in Hr. simplify_eq.
  unfold step_up_body in Hb. apply bind_ok_inv in Hb as (oa & w6 & [Ha ->]%read_ok & Hb).
  apply bind_ok_inv in Hb as (oc & w6 & [Ho ->]%read_ok & Hb). destruct oa as [a|]; [|done]. destruct oc as [c|]; [|done].
  apply bind_ok_inv in Hb as (ov & w6 & Hv & Hb). destruct ov as [v|]; [|by apply denial_not_ok in Hb].
  apply bind_ok_inv in Hb as (id & w7 & [-> ->]%uuid_ok & Hb). apply bind_ok_inv in Hb as (j & w8 & [Hd8 _]%redis_in_ok & Hb).
  destruct j as [j|]; [|done]. apply bind_ok_inv in Hb as (u' & w9 & Hu & Hb). unfold mret, prog_ret in Hb. simplify_eq.
  apply accepted_ok in Hu as [Hu _]. exists p, c, v, w3, w6. rewrite Hp. cbn. rewrite Hd5, Hu, Hd8 in *. cbn in *.
  split; [done|]. split; [congruence|]. split; [|done]. rewrite Ho. unfold _active_credential. congruence.
Qed.
Lemma verify_mfa_advances challenge candidate method network request now r w x w' :
  verify_mfa challenge candidate method network request now r w = (Ok x, w') -> advances (db w) (db w').
Proof.
  intros Hx. pose proof (perform_kept advances (fun _ => True) (VerifyMfa challenge candidate method network request now r) w I) as Ha.
  cbn [perform] in Ha. by rewrite Hx in Ha.
Qed.

(** C28: a recovery code signs in once: after a sign-in with it, whatever else is
    asked of the service, neither a sign-in nor a step-up accepts it again. *)
Theorem recovery_code_works_once challenge candidate network request now r w x w' :
  factors_wf (db w) -> verify_mfa challenge candidate by_recovery network request now r w = (Ok x, w') ->
  forall cs, let later := perform_all cs w' in
    (forall challenge2 network2 request2 now2 r2 x2 w2,
       verify_mfa challenge2 candidate by_recovery network2 request2 now2 r2 later <> (Ok x2, w2)) /\
    (forall token2 network2 request2 now2 r2 x2 w2,
       step_up token2 candidate by_recovery network2 request2 now2 r2 later <> (Ok x2, w2)).
Proof.
  intros Hw Hx cs. pose proof (verify_mfa_advances _ _ _ _ _ _ _ _ _ _ Hx) as [_ Ha]. destruct (Ha Hw) as (Hw' & _).
  apply verify_mfa_ok in Hx as (admin & a & c & v & w1 & w2 & _ & _ & _ & _ & Hv & _ & Hcodes & Hc & _).
  apply recovery_spent in Hv as (d & k & Hd & Hk & Hdg & Hi). rewrite <- Hcodes in Hk.
  destruct (all_advance cs w') as [_ Hl]. destruct (Hl Hw') as (_ & _ & Hg).
  destruct (grows_elem _ _ _ _ Hg Hk) as (k2 & Hk2 & _ & _ & Hdg2 & _ & Hs).
  assert (code_active k2 = false) as Hi2 by (destruct Hs as [->|[Hs _]]; congruence).
  pose proof (spent_is_refused (db (perform_all cs w')) k2 d candidate (all_consistent cs w' Hc) Hk2 Hi2 ltac:(congruence) Hd) as Hno.
  cbn zeta. split.
  - intros challenge2 network2 request2 now2 r2 x2 w3 Hx2.
    apply verify_mfa_ok in Hx2 as (? & ? & c2 & v2 & w4 & w5 & _ & Hd4 & _ & _ & Hv2 & _). by eapply Hno.
  - intros token2 network2 request2 now2 r2 x2 w3 Hx2.
    apply step_up_ok in Hx2 as (? & c2 & v2 & w4 & w5 & _ & Hd4 & _ & Hv2 & _). by eapply Hno.
Qed.

(** *** One-time codes *)

(** A code of the administrator's authenticator was accepted for a timestep. *)
Definition accepted (w : world) (admin : Z) (candidate : text) (now : Z) (c : AdminTotpCredential) (step : Z) : Prop :=
  _active_credential admin (db w) = Some c /\ verify_totp_credential c admin candidate now = Ok (Some step).
Lemma totp_spent c admin candidate now w v w' :
  verify_method c admin candidate by_totp now w = (Ok (Some v), w') ->
  exists step, verify_totp_credential c admin candidate now = Ok (Some step) /\
    totps (db w') = update totp_id (totp_id c) (accept_step step) (totps (db w)).
Proof.
  unfold _verify_mfa_method. intros (o & w1 & [Ho ->]%check_totp_ok & Hv)%bind_ok_inv. destruct o as [step|]; [|done].
  apply bind_ok_inv in Hv as (u & w2 & ->%write_ok & Hv). unfold mret, prog_ret in Hv. simplify_eq. eauto.
Qed.

(** C29: a one-time code is never accepted again: every later sign-in or step-up with
    a code of the same authenticator is for a later timestep. *)
Theorem totp_is_never_replayed challenge candidate network request now r w x w' :
  factors_wf (db w) -> verify_mfa challenge candidate by_totp network request now r w = (Ok x, w') ->
  exists admin c step, accepted w admin candidate now c step /\
    forall cs admin2 candidate2 now2 c2 step2, accepted (perform_all cs w') admin2 candidate2 now2 c2 step2 ->
      totp_id c2 = totp_id c -> step < step2.
Proof.
  intros Hw Hx. pose proof (verify_mfa_advances _ _ _ _ _ _ _ _ _ _ Hx) as [_ Ha]. destruct (Ha Hw) as (Hw' & _).
  apply verify_mfa_ok in Hx as (admin & a & c & v & w1 & w2 & _ & Hd1 & _ & Hc & Hv & Htot & _).
  apply totp_spent in Hv as (step & Hs & Hup). exists admin, c, step. split; [done|].
  intros cs admin2 candidate2 now2 c2 step2 [Hc2 Hs2] Hid. apply credential_in_ok in Hc as (Hin & _), Hc2 as (Hin2 & _).
  assert (accept_step step c ∈ totps (db w')) as Hin'.
  { rewrite Htot, Hup, update_is_where, Hd1. apply elem_of_update_where. exists c. split; [done|]. by rewrite Z.eqb_refl. }
  destruct (all_advance cs w') as [_ Hl]. destruct (Hl Hw') as (Hw2 & Hg & _).
  destruct (grows_elem _ _ _ _ Hg Hin') as (c3 & Hin3 & [Hid3 _ _ Hst _]).
  assert (c3 = c2) as -> by (eapply (same_id totp_id); [apply fw_totp_ids, Hw2|done..|cbn in Hid3; congruence]).
  apply totp_accepted in Hs2 as [Hlt _]. unfold step_of in *. cbn in Hst. lia.
Qed.


(** *** Sessions and passwords *)

Notation get_session := (get_session settings redis_keys redis_prefix).
Lemma principal_ok t now w p w' :
  principal t now w = (Ok p, w') ->
  db w' = db w /\ exists r a, get_session t now (redis w) = (Ok (Some r), redis w') /\
    _active_admin (RedisState.admin_id r) (db w) = Some a /\ too_old a r = false /\ principal_admin p = admin_user_id a /\
    principal_session p = RedisState.session_id r.
Proof.
  intros Hp. pose proof (principal_db t now w) as Hd. rewrite Hp in Hd. split; [done|].
  unfold AdminAuth.principal in Hp. apply bind_ok_inv in Hp as (o & w1 & [Hd1 Hg]%redis_out_ok & Hp).
  destruct o as [r|]; [|done]. apply bind_ok_inv in Hp as (oa & w2 & Ha & Hp). unfold outside, read, gets in Ha. cbn in Ha.
  simplify_eq. rewrite Hd1 in Hp. destruct (_active_admin _ (db w)) as [a|] eqn:Ha.
  2: { by apply bind_ok_inv in Hp as (u & w3 & _ & Hp). }
  destruct (too_old a r) eqn:Ho; [by apply bind_ok_inv in Hp as (u & w3 & _ & Hp)|].
  unfold mret, prog_ret in Hp. simplify_eq. exists r, a. done.
Qed.
Lemma cut_off_refuses admin t w tok now rec s :
  cut_off admin t (db w) -> get_session tok now (redis w) = (Ok (Some rec), s) -> RedisState.admin_id rec = admin ->
  RedisState.created_at rec < t -> forall p w', principal tok now w <> (Ok p, w').
Proof.
  intros Hc Hg Hr Ht p w' (_ & r & a & Hg' & Ha & Ho & _)%principal_ok. rewrite Hg in Hg'. simplify_eq.
  apply scalar_Some in Ha as [Hin Ha]. boolP. destruct (Hc a Hin) as (v & Hv & Hle); [done|].
  unfold too_old in Ho. rewrite Hv in Ho. boolP. lia.
Qed.
Lemma password_body_ok admin current new_ now salt w u w' :
  password_body dummy_hash admin current new_ now salt w = (Ok u, w') ->
  exists a h, _active_admin admin (db w) = Some a /\
    Passwords.verify_password_or_dummy dummy_hash (Some (admin_password_hash a)) current = true /\
    Passwords.argon2_verify h new_ = true /\
    admins (auth (db w')) = update admin_user_id admin (fun x => set_valid_after now (set_admin_password h x)) (admins (auth (db w))).
Proof.
  unfold password_body. intros (o & w1 & [-> ->]%read_ok & Hb)%bind_ok_inv. destruct (_active_admin admin (db w)) as [a|]; [|done].
  destruct (Passwords.verify_password_or_dummy _ _ _) eqn:Hv; cbn [negb] in Hb; [|by apply bind_ok_inv in Hb as (? & ? & _ & Hb)].
  apply bind_ok_inv in Hb as (h & w1 & Hh & Hb). unfold hash_password, lift in Hh.
  destruct (Passwords.hash_password new_ salt) as [h'|] eqn:Hp; [|done]. simplify_eq.
  apply bind_ok_inv in Hb as (u2 & w2 & ->%write_ok & ->%write_ok). exists a, h. cbn. split; [done|]. split; [done|]. split; [|done].
  unfold Passwords.hash_password in Hp. destruct (Passwords.validate_password new_); [|done]. injection Hp as <-.
  apply Passwords.argon2_verify_hash.
Qed.

(** C31: changing a password takes a session that has just stepped up and the current
    password; afterwards the administrator has the new one and a new session, and
    every session of theirs that began earlier is refused, for good, whatever
    else is asked of the service as its clock moves on. *)
Theorem admin_password_change_ends_sessions tok current new_ now salt r w j w' :
  change_password tok current new_ now salt r w = (Ok j, w') ->
  exists p a h, (principal tok now w).1 = Ok p /\ principal_step_up p = true /\
    _active_admin (principal_admin p) (db w) = Some a /\
    Passwords.verify_password_or_dummy dummy_hash (Some (admin_password_hash a)) current = true /\
    _active_admin (principal_admin p) (db w') = Some (set_valid_after now (set_admin_password h a)) /\
    Passwords.argon2_verify h new_ = true /\
    RedisState.admin_id (RedisState.record j) = principal_admin p /\ RedisState.created_at (RedisState.record j) = now /\
    forall cs tok2 now2 rec s, Forall (at_times (fun n => now <= n)) cs ->
      get_session tok2 now2 (redis (perform_all cs w')) = (Ok (Some rec), s) ->
      RedisState.admin_id rec = principal_admin p -> RedisState.created_at rec < now ->
      forall p2 w2, principal tok2 now2 (perform_all cs w') <> (Ok p2, w2).
Proof.
  unfold AdminAuth.change_password, _stepped_up. intros (p & w1 & (p' & w0 & Hp & Hs)%bind_ok_inv & Hr)%bind_ok_inv.
  destruct (principal_step_up p') eqn:Hst; [|done]. unfold mret, prog_ret in Hs. simplify_eq.
  pose proof (principal_db tok now w) as Hd1. rewrite Hp in Hd1. cbn in Hd1.
  destruct (password_problem new_); [done|]. apply bind_ok_inv in Hr as (u & w2 & Hl & Hr).
  assert (db w2 = db w) as Hd2.
  { unfold _limit_own_change in Hl. apply bind_ok_inv in Hl as (b & w3 & [Hd _]%redis_out_ok & Hl).
    destruct (negb b); [done|]. unfold mret, prog_ret in Hl. simplify_eq. congruence. }
  apply bind_ok_inv in Hr as (u2 & w3 & [Hb _]%transact_ok & Hr). apply bind_ok_inv in Hr as (u3 & w4 & [Hd4 _]%redis_out_ok & Hr).
  apply bind_ok_inv in Hr as (id & w5 & Hdr & [Hd6 Hj]%redis_out_ok). unfold draw, outside, new_uuid, on_db, uuid4 in Hdr. cbn in Hdr.
  simplify_eq. apply AdminSessions.issue_session_ok in Hj as (k & csrf & _ & _ & _ & -> & _).
  apply password_body_ok in Hb as (a & h & Ha & Hv & Hh & Hrows). rewrite Hd2 in Ha, Hrows.
  assert (admins (auth (db w')) = admins (auth (db w3))) as Hadm by (rewrite Hd6; cbn; by rewrite Hd4).
  exists p, a, h. rewrite Hp. split; [done|]. split; [done|]. split; [done|]. split; [done|]. split.
  { unfold _active_admin in *. rewrite Hadm, Hrows. unfold update. rewrite scalar_fmap.
    - rewrite Ha. cbn. apply scalar_Some in Ha as [_ Ha]. boolP. by rewrite (proj2 (Z.eqb_eq _ _)).
    - intros x. destruct (admin_user_id x =? principal_admin p) eqn:Hx; cbn; by rewrite ?Hx. }
  split; [done|]. split; [done|]. split; [done|]. intros cs tok2 now2 rec s Hcs. apply cut_off_refuses.
  eapply (perform_all_kept (stays_cut (principal_admin p) now) (fun n => now <= n)); [exact Hcs|].
  intros x Hx Hid. rewrite Hadm, Hrows, update_is_where in Hx. apply elem_of_update_where in Hx as (y & Hy & ->).
  case_match; [|cbn in *; boolP; congruence]. exists now. split; [done|lia].
Qed.

End Service.
End AdminFactors.
