(* ===== verification/UserAuth.v ===== *)
(** * User authentication

    Models [nebula_api/auth/user_service.py]: sign-in, refresh-token rotation,
    sign-out, password recovery and change, account deletion, over the database,
    Redis and the token modules.  Instants are in milliseconds; [now] is what
    [self._clock] read, the same throughout a request; random bytes and salts are arguments; [request_id] only
    names the request in the audit. *)

From S2P Require Import Prelude PyText PyBytes Json IpAddress Usage ApiStore AccessToken OpaqueToken RedisState XrayCredential Access AuthStore.
Import Db AuthTx SessionRevocation.

Module UserAuth.

Inductive exn :=
| AuthenticationRejected
| AuthenticationRateLimited (retry_after_seconds : Z)
| DeviceLimitReached
| AccountExpired
| AuthStateUnavailable
| ValueError
| KeyError
| RuntimeError
| IntegrityError.
#[global] Instance exn_eq_dec : EqDecision exn.
Proof. solve_decision. Defined.
Notation M := (prog world exn).
Notation T := (prog world (failure exn)).

Record UserTokenPair := { access_token : text; refresh_token : text; access_expires_in : Z }.
Record AuthenticatedUser := { principal_user : Z; principal_session : Z; principal_device : Z }.
Record PasswordResetIssue := { recipient : text; reset_token : text; reset_delivery : Z }.

Record Settings := {
  user_login_rate_limit : Z;
  user_network_rate_limit : Z;
  auth_rate_window_seconds : Z;
  refresh_token_ttl_days : Z;
  token_key_version : Z;
  access_token_ttl_seconds : Z;
  jwt_issuer : text;
  jwt_audience : text;
  jwt_key_id : text;
  password_reset_rate_limit : Z;
  password_reset_ttl_minutes : Z;
}.

Definition DAY : Z := 86400000.
Definition MINUTE : Z := 60000.

(** ** Eligibility *)

Definition user_active (u : User) : bool := bool_decide (user_state u = AccountState.ACTIVE).
Definition has_password (u : User) : bool := bool_decide (password_hash u <> None).

Definition _user_can_authenticate (u : User) (now : Z) : bool :=
  user_active u && has_password u && match user_expires_at u with None => true | Some e => now <? e end.
Definition _only_expired (u : User) (now : Z) : bool :=
  user_active u && has_password u && match user_expires_at u with None => false | Some e => e <=? now end.
Definition device_active (d : Device) : bool := bool_decide (device_state d = LifecycleState.ACTIVE).
Definition _session_is_eligible (s : UserSession) (u : option User) (d : option Device) (now : Z) : bool :=
  session_active s && (now <? session_expires_at s) &&
  match u with
  | Some u =>
      _user_can_authenticate u now &&
      match d with Some d => (device_user d =? user_id u) && device_active d | None => false end
  | None => false
  end.
Definition _refresh_is_eligible (t : Token) (s : UserSession) (u : option User) (d : option Device) (now : Z) : bool :=
  token_active t && (now <? token_expires_at t) && _session_is_eligible s u d now.

(** ** Row updates *)

Definition set_password (h : text) (u : User) : User :=
  {| user_id := user_id u; email := email u; email_normalized := email_normalized u; username := username u;
     username_normalized := username_normalized u; password_hash := Some h; user_state := user_state u;
     device_limit := device_limit u; user_expires_at := user_expires_at u; activated_at := activated_at u;
     disabled_at := disabled_at u; traffic_quota_bytes := traffic_quota_bytes u;
     traffic_baseline_bytes := traffic_baseline_bytes u; quota_exhausted_at := quota_exhausted_at u;
     user_dns_profile := user_dns_profile u |}.
Definition describe_device (name : text) (plat : DevicePlatform.t) (version : text) (d : Device) : Device :=
  {| device_id := device_id d; device_user := device_user d; device_state := device_state d; device_name := name;
     platform := plat; client_version := version; device_revoked_at := device_revoked_at d;
     hardware_key_version := hardware_key_version d; hardware_hash := hardware_hash d;
     device_dns_profile := device_dns_profile d |}.
Definition set_hardware (version : Z) (h : text) (d : Device) : Device :=
  {| device_id := device_id d; device_user := device_user d; device_state := device_state d;
     device_name := device_name d; platform := platform d; client_version := client_version d;
     device_revoked_at := device_revoked_at d; hardware_key_version := Some version; hardware_hash := Some h;
     device_dns_profile := device_dns_profile d |}.
Definition set_consumed (now : Z) (link : option Z) (t : Token) : Token :=
  {| token_id := token_id t; token_owner := token_owner t; token_version := token_version t;
     token_digest := token_digest t; token_state := TokenState.CONSUMED; token_expires_at := token_expires_at t;
     token_consumed_at := Some now; token_revoked_at := token_revoked_at t; token_link := link;
     token_created_at := token_created_at t |}.
Definition set_last_seen (now : Z) (s : UserSession) : UserSession :=
  {| session_id := session_id s; session_user := session_user s; session_device := session_device s;
     family_id := family_id s; session_state := session_state s; session_expires_at := session_expires_at s;
     last_seen_at := Some now; session_revoked_at := session_revoked_at s; session_created_at := session_created_at s |}.

Definition update_device (id : Z) (f : Device -> Device) (db : DB) : DB :=
  with_devices (update device_id id f (devices db)) db.
Definition update_refresh (id : Z) (f : Token -> Token) (db : DB) : DB :=
  with_refresh_tokens (update token_id id f (refresh_tokens (auth db))) db.
Definition update_session (id : Z) (f : UserSession -> UserSession) (db : DB) : DB :=
  with_sessions (update session_id id f (sessions (auth db))) db.
Definition update_reset (id : Z) (f : Token -> Token) (db : DB) : DB :=
  with_password_reset_tokens (update token_id id f (password_reset_tokens (auth db))) db.
Definition add_session (s : UserSession) (db : DB) : DB := with_sessions (sessions (auth db) ++ [s]) db.
Definition add_refresh (t : Token) (db : DB) : DB := with_refresh_tokens (refresh_tokens (auth db) ++ [t]) db.
Definition add_reset (t : Token) (db : DB) : DB :=
  with_password_reset_tokens (password_reset_tokens (auth db) ++ [t]) db.
Definition add_device (d : Device) (db : DB) : DB := with_devices (devices db ++ [d]) db.
Definition add_delivery (e : EmailDelivery) (db : DB) : DB :=
  with_email_deliveries (email_deliveries (auth db) ++ [e]) db.

Definition by_digest (d : OpaqueToken.OpaqueTokenDigest) (t : Token) : bool :=
  (token_version t =? OpaqueToken.key_version d) && bool_decide (token_digest t = OpaqueToken.value d).
Definition get_session (id : Z) (db : DB) : option UserSession :=
  scalar (fun s => session_id s =? id) (sessions (auth db)).

(** [_add_audit] *)
Definition _add_audit (who : actor_of) (k : target_kind) (target : Z) (code_ out : text) (reason : option text) : T unit :=
  write (add_audit_event {| actor := who; ev_target_kind := k; ev_target_id := target; event_code := code_;
                            outcome := out; reason_code := reason |}).
Definition succeeded := str "succeeded".
Definition denied := str "denied".

(** [await session.commit(); raise e] and [raise e] *)
Definition commit_and_raise {A} (e : exn) : T A := raise (Committed e).
Definition reject {A} : T A := raise (Raised AuthenticationRejected).

Section Service.
Context `{HMAC} `{JWT} `{Passwords.Argon2} `{Identity.EmailValidator} `{Erasure.PgLower}.
Context (settings : Settings) (token_peppers : list (Z * text)) (jwt_signer : signing_key)
  (verification_keys : list (text * verification_key)) (dummy_hash : text)
  (redis_keys : list (Z * text)) (redis_version : Z) (redis_prefix : text).

(** *** Identifiers *)

Definition _normalize_identifier (identifier : text) : text :=
  default (str "invalid")
    (if bool_decide ("@"%char ∈ identifier) then Identity.normalize_email identifier
     else Identity.normalize_username identifier).

Definition _find_user (key : text) (db : DB) : option User :=
  scalar (fun u => bool_decide (email_normalized u = key) || bool_decide (username_normalized u = Some key)) (users db).

(** *** Rate limits *)

Definition redis_exn (e : RedisState.exn) : exn :=
  match e with
  | RedisState.AuthStateUnavailable => AuthStateUnavailable
  | RedisState.ValueError => ValueError
  | RedisState.RuntimeError => RuntimeError
  end.
Definition bucket (ns subject : text) : RedisState.RateBucket := {| RedisState.namespace := ns; RedisState.subject := subject |}.
Definition rate_limit (buckets : list RedisState.RateBucket) (limit : Z) : T bool :=
  on_redis redis_exn
    (RedisState.rate_limit redis_keys redis_version redis_prefix buckets limit (auth_rate_window_seconds settings)).

Definition _require_rate_limit (buckets : list RedisState.RateBucket) (limit request : Z) : T unit :=
  allowed ← rate_limit buckets limit;
  if (allowed : bool) then mret tt
  else
    _ ← _add_audit by_anonymous auth_attempt request (str "auth_rate_limited") denied (Some (str "rate_limited"));
    commit_and_raise (AuthenticationRateLimited (auth_rate_window_seconds settings)).

(** Outside a database session. *)
Definition outside {A} (m : T A) : M A := fun w =>
  let '(r, w') := m w in
  (match r with Ok a => Ok a | Err (Raised e) | Err (Committed e) => Err e end, w').
Definition _require_rate_limit_without_session (buckets : list RedisState.RateBucket) (limit : Z) : M unit :=
  allowed ← outside (rate_limit buckets limit);
  if (allowed : bool) then mret tt else raise (AuthenticationRateLimited (auth_rate_window_seconds settings)).

(** *** Tokens *)

Definition token_exn (e : OpaqueToken.exn) : exn :=
  match e with
  | OpaqueToken.RuntimeError => RuntimeError
  | OpaqueToken.KeyError => KeyError
  | _ => ValueError
  end.
Definition of_token {A} (r : result OpaqueToken.exn A) : T A :=
  lift match r with Ok a => Ok a | Err e => Err (Raised (token_exn e)) end.
Definition issue_token (random : text) : T text :=
  of_token (OpaqueToken.issue_opaque_token (token_key_version settings) random).
Definition digest_token (t namespace : text) : T OpaqueToken.OpaqueTokenDigest :=
  of_token (OpaqueToken.digest_opaque_token t token_peppers namespace).
Definition digest_or_none (t namespace : text) : option OpaqueToken.OpaqueTokenDigest :=
  match OpaqueToken.digest_opaque_token t token_peppers namespace with Ok d => Some d | Err _ => None end.
Definition hash_hardware (hardware_id : text) : T (Z * text) :=
  of_token (OpaqueToken.hash_hardware_id hardware_id token_peppers (token_key_version settings)).
Definition hash_password (password salt : text) : T text :=
  lift match Passwords.hash_password password salt with Some h => Ok h | None => Err (Raised ValueError) end.

(** [identifier or uuid4()], with the database's clock in [created_at]. *)
Definition _new_refresh_token (session expires_at : Z) (identifier : option Z) (random : text) : T (text * Token) :=
  value ← issue_token random;
  digest ← digest_token value (str "refresh");
  id ← match identifier with Some i => mret i | None => new_uuid end;
  created ← read db_now;
  mret (value, {| token_id := id; token_owner := session; token_version := OpaqueToken.key_version digest;
                  token_digest := OpaqueToken.value digest; token_state := TokenState.ACTIVE;
                  token_expires_at := expires_at; token_consumed_at := None; token_revoked_at := None;
                  token_link := None; token_created_at := created |}).

Definition _issue_access (user session now : Z) : T text :=
  jti ← new_uuid;
  lift match AccessToken.issue_access_token user session (jwt_issuer settings) (jwt_audience settings) jwt_signer
               (jwt_key_id settings) (access_token_ttl_seconds settings) now jti with
       | Ok t => Ok t
       | Err _ => Err (Raised ValueError)
       end.

(** *** Devices *)

Definition owned_active (user : Z) (d : Device) : bool := (device_user d =? user) && device_active d.

Definition _backfill_hardware (user device : Z) (hardware_id : text) : T unit :=
  h ← hash_hardware hardware_id;
  taken ← read (fun db => scalar (fun d => owned_active user d && bool_decide (hardware_hash d = Some h.2)
                                           && negb (device_id d =? device)) (devices db));
  match taken with
  | None => write (update_device device (set_hardware h.1 h.2))
  | Some _ => mret tt
  end.

Definition hardware_matches (hardware_id : text) (d : Device) : bool :=
  match hardware_hash d, hardware_key_version d with
  | Some h, Some v => OpaqueToken.hardware_id_matches hardware_id h v token_peppers
  | _, _ => false
  end.

(** The first candidate that matches. *)
Definition _reuse_by_hardware (user : Z) (hardware_id name : text) (plat : DevicePlatform.t) (version : text)
  : T (option Device) :=
  found ← read (fun db => scalar (hardware_matches hardware_id)
                            (scalars (fun d => owned_active user d && bool_decide (hardware_hash d <> None)) (devices db)));
  match found with
  | Some d => _ ← write (update_device (device_id d) (describe_device name plat version)); mret (Some d)
  | None => mret None
  end.

Definition register_device (user : User) (name : text) (plat : DevicePlatform.t) (version : text)
    (hardware_id : option text) (request : Z) : T Z :=
  active ← read (fun db => Z.of_nat (length (scalars (owned_active (user_id user)) (devices db))));
  if device_limit user <=? active then
    _ ← _add_audit (by_user (user_id user)) user_target (user_id user) (str "user_authenticated") denied
          (Some (str "device_limit_reached"));
    commit_and_raise DeviceLimitReached
  else
    hardware ← match hardware_id with
               | Some h => x ← hash_hardware h; mret (Some x.1, Some x.2)
               | None => mret (None, None)
               end;
    id ← new_uuid;
    _ ← write (add_device {| device_id := id; device_user := user_id user; device_state := LifecycleState.ACTIVE;
                             device_name := name; platform := plat; client_version := version;
                             device_revoked_at := None; hardware_key_version := hardware.1; hardware_hash := hardware.2;
                             device_dns_profile := None |});
    mret id.

(** The id of the device the session is for. *)
Definition _resolve_device (user : User) (device : option Z) (name : text) (plat : DevicePlatform.t) (version : text)
    (hardware_id : option text) (request : Z) : T Z :=
  known ← match device with
          | Some id => read (fun db => scalar (fun d => (device_id d =? id) && (device_user d =? user_id user)) (devices db))
          | None => mret None
          end;
  match known with
  | Some d =>
      if device_active d then
        _ ← write (update_device (device_id d) (describe_device name plat version));
        _ ← match hardware_id, hardware_hash d with
            | Some h, None => _backfill_hardware (user_id user) (device_id d) h
            | _, _ => mret tt
            end;
        mret (device_id d)
      else
        reused ← match hardware_id with
                 | Some h => _reuse_by_hardware (user_id user) h name plat version
                 | None => mret None
                 end;
        match reused with
        | Some r => mret (device_id r)
        | None => register_device user name plat version hardware_id request
        end
  | None =>
      reused ← match hardware_id with
               | Some h => _reuse_by_hardware (user_id user) h name plat version
               | None => mret None
               end;
      match reused with
      | Some r => mret (device_id r)
      | None => register_device user name plat version hardware_id request
      end
  end.

(** *** Signing in *)

(** The account behind the identifier, once the limits and the password have
    been passed. *)
Definition check_credentials (identifier password network_prefix : text) (request now : Z) : T User :=
  let key := _normalize_identifier identifier in
  found ← read (_find_user key);
  _ ← _require_rate_limit
        [bucket (str "user-account") match found with Some u => str_uuid (user_id u) | None => key end]
        (user_login_rate_limit settings) request;
  _ ← _require_rate_limit [bucket (str "user-login-network") network_prefix] (user_network_rate_limit settings) request;
  let password_valid := Passwords.verify_password_or_dummy dummy_hash (found ≫= password_hash) password in
  let denial : T User :=
    _ ← _add_audit by_anonymous auth_attempt request (str "user_authenticated") denied (Some (str "invalid_credentials"));
    commit_and_raise AuthenticationRejected in
  match found with
  | None => denial
  | Some user =>
      if password_valid && _only_expired user now then
        _ ← _add_audit (by_user (user_id user)) user_target (user_id user) (str "user_authenticated") denied
              (Some (str "account_expired"));
        commit_and_raise AccountExpired
      else if negb password_valid || negb (_user_can_authenticate user now) then denial
      else mret user
  end.

(** [if password_hash_needs_rehash(...): user.password_hash = hash(...)] *)
Definition upgrade_hash (user : User) (password salt : text) : T unit :=
  match password_hash user with
  | None => reject
  | Some h =>
      if Passwords.argon2_needs_rehash h then
        h' ← hash_password password salt; write (Access.update_user (user_id user) (set_password h'))
      else mret tt
  end.

(** The new session of a device and its first refresh token. *)
Definition open_session (user device now : Z) (random : text) : T (text * text) :=
  _ ← write (revoke_active_device_sessions device now);
  session ← new_uuid;
  family ← new_uuid;
  created ← read db_now;
  let family_expires_at := now + refresh_token_ttl_days settings * DAY in
  _ ← write (add_session {| session_id := session; session_user := user; session_device := device; family_id := family;
                            session_state := LifecycleState.ACTIVE; session_expires_at := family_expires_at;
                            last_seen_at := Some now; session_revoked_at := None; session_created_at := created |});
  r ← _new_refresh_token session family_expires_at None random;
  _ ← write (add_refresh r.2);
  _ ← _add_audit (by_user user) user_session session (str "user_authenticated") succeeded None;
  access ← _issue_access user session now;
  mret (access, r.1).

Definition login (identifier password : text) (device : option Z) (name : text) (plat : DevicePlatform.t)
    (version network_prefix : text) (request : Z) (hardware_id : option text) (now : Z) (random salt : text)
  : M UserTokenPair :=
  transact IntegrityError
    (user ← check_credentials identifier password network_prefix request now;
     _ ← upgrade_hash user password salt;
     dev ← _resolve_device user device name plat version hardware_id request;
     p ← open_session (user_id user) dev now random;
     mret {| access_token := p.1; refresh_token := p.2; access_expires_in := access_token_ttl_seconds settings |}).

(** *** Refreshing *)

Definition _audit_unknown_denial (request : Z) (code_ reason : text) : M unit :=
  transact IntegrityError (_add_audit by_anonymous auth_attempt request code_ denied (Some reason)).

(** The token was presented before: whoever has it now, the session ends. *)
Definition end_session (s : UserSession) (now : Z) (code_ reason : text) {A} : T A :=
  _ ← write (revoke_session s now);
  _ ← _add_audit (by_user (session_user s)) user_session (session_id s) code_ denied (Some reason);
  commit_and_raise AuthenticationRejected.

(** The token spent, its successor, and a new access token. *)
Definition rotate (t : Token) (s : UserSession) (user now : Z) (random : text) : T (text * text) :=
  successor ← new_uuid;
  _ ← write (update_refresh (token_id t) (set_consumed now (Some successor)));
  r ← _new_refresh_token (session_id s) (Z.min (token_expires_at t) (session_expires_at s)) (Some successor) random;
  _ ← write (add_refresh r.2);
  _ ← write (update_session (session_id s) (set_last_seen now));
  _ ← _add_audit (by_user user) Db.refresh_token (token_id t) (str "refresh_rotated") succeeded None;
  access ← _issue_access user (session_id s) now;
  mret (access, r.1).

Definition refresh_body (digest : OpaqueToken.OpaqueTokenDigest) (request now : Z) (random : text) : T UserTokenPair :=
  token ← read (fun db => scalar (by_digest digest) (refresh_tokens (auth db)));
  match token with
  | None =>
      _ ← _add_audit by_anonymous auth_attempt request (str "refresh_rotated") denied (Some (str "invalid_token"));
      commit_and_raise AuthenticationRejected
  | Some t =>
      session ← read (get_session (token_owner t));
      match session with
      | None => reject
      | Some s =>
          if bool_decide (token_state t = TokenState.CONSUMED) then
            end_session s now (str "refresh_reuse_detected") (str "token_reused")
          else
            user ← read (get_user (session_user s));
            device ← read (get_device (session_device s));
            if negb (_refresh_is_eligible t s user device now) then
              end_session s now (str "refresh_rotated") (str "inactive_session")
            else
              match user with
              | None => reject
              | Some u =>
                  p ← rotate t s (user_id u) now random;
                  mret {| access_token := p.1; refresh_token := p.2;
                          access_expires_in := access_token_ttl_seconds settings |}
              end
      end
  end.

Definition refresh (token : text) (request now : Z) (random : text) : M UserTokenPair :=
  _ ← _require_rate_limit_without_session [bucket (str "refresh-token") token] (user_login_rate_limit settings);
  match digest_or_none token (str "refresh") with
  | None =>
      _ ← _audit_unknown_denial request (str "refresh_rotated") (str "invalid_token");
      raise AuthenticationRejected
  | Some digest => transact IntegrityError (refresh_body digest request now random)
  end.

(** *** Signing out *)

Definition logout_body (digest : OpaqueToken.OpaqueTokenDigest) (now : Z) : T unit :=
  token ← read (fun db => scalar (by_digest digest) (refresh_tokens (auth db)));
  match token with
  | None => mret tt
  | Some t =>
      session ← read (get_session (token_owner t));
      match session with
      | None => mret tt
      | Some s =>
          _ ← write (revoke_session s now);
          _ ← write (fun db => (Access.revoke_device_credentials (session_device s) now db).2);
          _add_audit (by_user (session_user s)) user_session (session_id s) (str "session_revoked") succeeded None
      end
  end.
Definition logout (token : text) (now : Z) : M unit :=
  match digest_or_none token (str "refresh") with
  | None => mret tt
  | Some digest => transact IntegrityError (logout_body digest now)
  end.

(** *** Access tokens *)

Definition _load_principal (c : AccessToken.AccessTokenClaims) (now : Z) : T AuthenticatedUser :=
  session ← read (fun db => scalar (fun s => (session_id s =? AccessToken.session_id c)
                                             && (session_user s =? AccessToken.subject_id c)) (sessions (auth db)));
  match session with
  | None => reject
  | Some s =>
      user ← read (get_user (AccessToken.subject_id c));
      device ← read (get_device (session_device s));
      if negb (_session_is_eligible s user device now) then reject
      else mret {| principal_user := AccessToken.subject_id c; principal_session := AccessToken.session_id c;
                   principal_device := session_device s |}
  end.
Definition authenticate_access_token (token : text) (now : Z) : M AuthenticatedUser :=
  match AccessToken.decode_access_token token (jwt_issuer settings) (jwt_audience settings) verification_keys now with
  | Err _ => raise AuthenticationRejected
  | Ok c => transact IntegrityError (_load_principal c now)
  end.

(** *** Password recovery *)

Definition revoke_resets (user : Z) (except : option Z) (now : Z) (db : DB) : DB :=
  with_password_reset_tokens
    (update_where (fun t => (token_owner t =? user) && negb (bool_decide (except = Some (token_id t))) && token_active t)
       (set_token_revoked now) (password_reset_tokens (auth db))) db.

Definition issue_reset (user : User) (now : Z) (random : text) : T PasswordResetIssue :=
  _ ← write (revoke_resets (user_id user) None now);
  raw_token ← issue_token random;
  digest ← digest_token raw_token (str "password-reset");
  reset_id ← new_uuid;
  delivery ← new_uuid;
  dedup ← new_uuid;
  created ← read db_now;
  _ ← write (add_reset
    {| token_id := reset_id; token_owner := user_id user; token_version := OpaqueToken.key_version digest;
       token_digest := OpaqueToken.value digest; token_state := TokenState.ACTIVE;
       token_expires_at := now + password_reset_ttl_minutes settings * MINUTE; token_consumed_at := None;
       token_revoked_at := None; token_link := None; token_created_at := created |});
  _ ← write (add_delivery
    {| delivery_id := delivery; deduplication_key := dedup; template_code := str "password_reset";
       recipient_address := email user; subject_kind := str "user"; subject_id := user_id user;
       delivery_state := str "pending"; delivery_attempts := 0; available_at := now; leased_until := None; sent_at := None;
       provider_message_id := None; delivery_result := None |});
  mret {| recipient := email user; reset_token := raw_token; reset_delivery := delivery |}.

Definition request_password_reset (identifier network_prefix : text) (request : Z) (enable_delivery : bool) (now : Z)
    (random : text) : M (option PasswordResetIssue) :=
  transact IntegrityError
    (let key := _normalize_identifier identifier in
     found ← read (_find_user key);
     _ ← _require_rate_limit
           [bucket (str "reset-account") match found with Some u => str_uuid (user_id u) | None => key end]
           (password_reset_rate_limit settings) request;
     _ ← _require_rate_limit [bucket (str "reset-request-network") network_prefix] (user_network_rate_limit settings) request;
     issue ← match found with
             | Some u => if _user_can_authenticate u now && enable_delivery
                         then i ← issue_reset u now random; mret (Some i) else mret None
             | None => mret None
             end;
     _ ← match found with
         | None => _add_audit by_anonymous auth_attempt request (str "password_reset_requested") succeeded None
         | Some u => _add_audit by_anonymous user_target (user_id u) (str "password_reset_requested") succeeded None
         end;
     mret issue).

Definition reset_body (digest : OpaqueToken.OpaqueTokenDigest) (new_hash : text) (now : Z) : T unit :=
  reset ← read (fun db => scalar (by_digest digest) (password_reset_tokens (auth db)));
  match reset with
  | None => reject
  | Some t =>
      if negb (token_active t) || (token_expires_at t <=? now) then reject
      else
        user ← read (get_user (token_owner t));
        match user with
        | None => reject
        | Some u =>
            if negb (_user_can_authenticate u now) then reject
            else
              _ ← write (Access.update_user (user_id u) (set_password new_hash));
              _ ← write (update_reset (token_id t) (set_consumed now (token_link t)));
              _ ← write (revoke_resets (user_id u) (Some (token_id t)) now);
              _ ← write (revoke_all_user_sessions (user_id u) now);
              _ ← _add_audit (by_user (user_id u)) password_reset_token (token_id t) (str "password_reset_consumed") succeeded None;
              _add_audit (by_user (user_id u)) user_target (user_id u) (str "password_changed") succeeded None
        end
  end.

Definition confirm_password_reset (raw_token new_password network_prefix : text) (now : Z) (salt : text) : M unit :=
  _ ← _require_rate_limit_without_session [bucket (str "reset-token") raw_token] (password_reset_rate_limit settings);
  _ ← _require_rate_limit_without_session [bucket (str "reset-confirm-network") network_prefix] (user_network_rate_limit settings);
  new_hash ← outside (hash_password new_password salt);
  match digest_or_none raw_token (str "password-reset") with
  | None => raise AuthenticationRejected
  | Some digest => transact IntegrityError (reset_body digest new_hash now)
  end.

(** *** Signed-in changes *)

Definition _confirm_password (p : AuthenticatedUser) (password : text) (request now : Z) : T User :=
  _ ← _require_rate_limit [bucket (str "user-account") (str_uuid (principal_user p))] (user_login_rate_limit settings) request;
  found ← read (get_user (principal_user p));
  let valid := Passwords.verify_password_or_dummy dummy_hash (found ≫= password_hash) password in
  let denial : T User :=
    _ ← _add_audit (by_user (principal_user p)) user_target (principal_user p) (str "user_authenticated") denied
          (Some (str "invalid_credentials"));
    commit_and_raise AuthenticationRejected in
  match found with
  | None => denial
  | Some u => if negb valid || negb (_user_can_authenticate u now) then denial else mret u
  end.

(** Every other active session of the account. *)
Definition revoke_other_sessions (user keep now : Z) (db : DB) : DB :=
  let others := session_id <$> scalars (fun s => (session_user s =? user) && negb (session_id s =? keep) && session_active s)
                                 (sessions (auth db)) in
  if bool_decide (others = []) then db
  else revoke_refresh_tokens others now
         (revoke_sessions_where (fun s => bool_decide (session_id s ∈ others)) now db).

Definition change_password (p : AuthenticatedUser) (current_password new_password : text) (request now : Z) (salt : text)
  : M unit :=
  new_hash ← outside (hash_password new_password salt);
  transact IntegrityError
    (u ← _confirm_password p current_password request now;
     _ ← write (Access.update_user (user_id u) (set_password new_hash));
     _ ← write (revoke_resets (user_id u) None now);
     _ ← write (revoke_other_sessions (user_id u) (principal_session p) now);
     _add_audit (by_user (user_id u)) user_target (user_id u) (str "password_changed") succeeded
       (Some (str "changed_signed_in"))).

Definition delete_account (p : AuthenticatedUser) (password : text) (request now : Z) : M unit :=
  transact IntegrityError
    (u ← _confirm_password p password request now;
     _ ← on_db (Erasure.erase_account u now);
     _add_audit (by_user (user_id u)) user_target (user_id u) (str "identity_state_changed") succeeded
       (Some (str "account_deleted"))).

End Service.
End UserAuth.
