(* ===== verification/UserAdmin.v ===== *)
(** * Administering accounts and devices

    Models [nebula_api/user_management/service.py] (Module UserManagement): what
    administrators list and change, and [nebula_api/account/service.py] (Module
    OwnAccount): what an account's owner sees and revokes.  Tables are in the
    order their rows were created, which is the order of [created_at]. *)

From S2P Require Import Prelude PyText PyBytes PyTime Json IpAddress Usage ApiStore OpaqueToken RedisState XrayCredential Access AuthStore UserAuth.
Import Db AuthTx SessionRevocation.

(** ** user_management/service.py *)

Module UserManagement.

Inductive identity_problem := NotValid | EmailTaken | UsernameTaken | EitherTaken.
#[global] Instance identity_problem_eq_dec : EqDecision identity_problem.
Proof. solve_decision. Defined.
Inductive exn :=
| UserManagementRejected
| IdentityNotChanged (why : identity_problem)
| UserNotFound
| IntegrityError.
#[global] Instance exn_eq_dec : EqDecision exn.
Proof. solve_decision. Defined.
Notation M := (prog world exn).
Notation T := (prog world (failure exn)).

Definition _MAX_LIMIT : Z := 200.

Record UserSummary := {
  us_id : Z; us_email : text; us_username : option text; us_state : AccountState.t; us_device_limit : Z;
  us_dns_profile : text; us_expires_at : option Z; us_activated_at : option Z; us_disabled_at : option Z;
}.
Record DeviceSummary := {
  ds_id : Z; ds_name : text; ds_platform : DevicePlatform.t; ds_client_version : text; ds_state : LifecycleState.t;
  ds_revoked_at : option Z; ds_dns_profile : option text;
}.
Record UserSessionSummary := {
  ss_id : Z; ss_device_id : Z; ss_state : LifecycleState.t; ss_expires_at : Z; ss_last_seen_at : option Z;
  ss_revoked_at : option Z;
}.
Record UserPage := { page_items : list UserSummary; page_total : Z }.
Record UserDetail := {
  detail_user : UserSummary; detail_devices : list DeviceSummary; detail_sessions : list UserSessionSummary;
}.

Definition _user_summary (u : User) : UserSummary :=
  {| us_id := user_id u; us_email := email u; us_username := username u; us_state := user_state u;
     us_device_limit := device_limit u; us_dns_profile := user_dns_profile u; us_expires_at := user_expires_at u;
     us_activated_at := activated_at u; us_disabled_at := disabled_at u |}.
Definition _device_summary (d : Device) : DeviceSummary :=
  {| ds_id := device_id d; ds_name := device_name d; ds_platform := platform d; ds_client_version := client_version d;
     ds_state := device_state d; ds_revoked_at := device_revoked_at d; ds_dns_profile := device_dns_profile d |}.
Definition _session_summary (s : UserSession) : UserSessionSummary :=
  {| ss_id := session_id s; ss_device_id := session_device s; ss_state := session_state s;
     ss_expires_at := session_expires_at s; ss_last_seen_at := last_seen_at s; ss_revoked_at := session_revoked_at s |}.

(** *** Listing *)

(** PostgreSQL's [t LIKE p]: [%] any characters, [_] any one, a backslash takes
    the next as it is. *)
Fixpoint like (p t : text) : bool :=
  match p with
  | [] => bool_decide (t = [])
  | c :: p' =>
      if bool_decide (c = "%"%char) then
        (fix any (t : text) : bool := like p' t || match t with [] => false | _ :: t' => any t' end) t
      else
        match t with
        | [] => false
        | x :: t' =>
            if bool_decide (c = "_"%char) then like p' t'
            else if code c =? 92 then
              match p' with
              | e :: p'' => bool_decide (e = x) && like p'' t'
              | [] => false
              end
            else bool_decide (c = x) && like p' t'
        end
  end.
(** [column.startswith(prefix)], which does not escape the prefix. *)
Definition sql_startswith (prefix : text) (column : option text) : bool :=
  match column with Some t => like (prefix ++ str "%") t | None => false end.

Definition listed (state : option AccountState.t) (email_prefix username_prefix : option text) (u : User) : bool :=
  if_set (fun s => bool_decide (user_state u = s)) state &&
  match email_prefix with
  | None | Some [] => true
  | Some p => sql_startswith (Identity.casefold p) (Some (email_normalized u))
  end &&
  match username_prefix with
  | None | Some [] => true
  | Some p => sql_startswith (Identity.casefold p) (username_normalized u)
  end.
Definition list_users (state : option AccountState.t) (email_prefix username_prefix : option text) (limit offset : Z)
    (d : DB) : UserPage :=
  let bounded_limit := Z.max 1 (Z.min limit _MAX_LIMIT) in
  let bounded_offset := Z.max 0 offset in
  let rows := scalars (listed state email_prefix username_prefix) (users d) in
  {| page_items := _user_summary <$> take (Z.to_nat bounded_limit) (drop (Z.to_nat bounded_offset) (reverse rows));
     page_total := Z.of_nat (length rows) |}.
Definition get_user_detail (uid : Z) (d : DB) : option UserDetail :=
  u ← get_user uid d;
  Some {| detail_user := _user_summary u;
          detail_devices := _device_summary <$> scalars (fun x => device_user x =? uid) (devices d);
          detail_sessions := _session_summary <$> scalars (fun s => session_user s =? uid) (sessions (auth d)) |}.

(** *** Row changes *)

Definition set_standing (s : AccountState.t) (at_ : option Z) (u : User) : User :=
  {| user_id := user_id u; email := email u; email_normalized := email_normalized u; username := username u;
     username_normalized := username_normalized u; password_hash := password_hash u; user_state := s;
     device_limit := device_limit u; user_expires_at := user_expires_at u; activated_at := activated_at u;
     disabled_at := at_; traffic_quota_bytes := traffic_quota_bytes u;
     traffic_baseline_bytes := traffic_baseline_bytes u; quota_exhausted_at := quota_exhausted_at u;
     user_dns_profile := user_dns_profile u |}.
Definition set_email (address normal : text) (u : User) : User :=
  {| user_id := user_id u; email := address; email_normalized := normal; username := username u;
     username_normalized := username_normalized u; password_hash := password_hash u; user_state := user_state u;
     device_limit := device_limit u; user_expires_at := user_expires_at u; activated_at := activated_at u;
     disabled_at := disabled_at u; traffic_quota_bytes := traffic_quota_bytes u;
     traffic_baseline_bytes := traffic_baseline_bytes u; quota_exhausted_at := quota_exhausted_at u;
     user_dns_profile := user_dns_profile u |}.
Definition set_username (name normal : option text) (u : User) : User :=
  {| user_id := user_id u; email := email u; email_normalized := email_normalized u; username := name;
     username_normalized := normal; password_hash := password_hash u; user_state := user_state u;
     device_limit := device_limit u; user_expires_at := user_expires_at u; activated_at := activated_at u;
     disabled_at := disabled_at u; traffic_quota_bytes := traffic_quota_bytes u;
     traffic_baseline_bytes := traffic_baseline_bytes u; quota_exhausted_at := quota_exhausted_at u;
     user_dns_profile := user_dns_profile u |}.
Definition set_terms (limit : Z) (expires : option Z) (dns : text) (u : User) : User :=
  {| user_id := user_id u; email := email u; email_normalized := email_normalized u; username := username u;
     username_normalized := username_normalized u; password_hash := password_hash u; user_state := user_state u;
     device_limit := limit; user_expires_at := expires; activated_at := activated_at u;
     disabled_at := disabled_at u; traffic_quota_bytes := traffic_quota_bytes u;
     traffic_baseline_bytes := traffic_baseline_bytes u; quota_exhausted_at := quota_exhausted_at u;
     user_dns_profile := dns |}.
Definition set_device (s : LifecycleState.t) (at_ : option Z) (dns : option text) (d : Device) : Device :=
  {| device_id := device_id d; device_user := device_user d; device_state := s; device_name := device_name d;
     platform := platform d; client_version := client_version d; device_revoked_at := at_;
     hardware_key_version := hardware_key_version d; hardware_hash := hardware_hash d; device_dns_profile := dns |}.
Definition revoke_device_row (now : Z) (d : Device) : Device :=
  set_device LifecycleState.REVOKED (Some now) (device_dns_profile d) d.

Definition update_user := Access.update_user.
Definition update_device := UserAuth.update_device.
Definition owned_device (uid dev : Z) (d : DB) : option Device :=
  scalar (fun x => (device_id x =? dev) && (device_user x =? uid)) (devices d).
Definition owned_session (uid sid : Z) (d : DB) : option UserSession :=
  scalar (fun s => (session_id s =? sid) && (session_user s =? uid)) (sessions (auth d)).

Definition succeeded := str "succeeded".
Definition identity_state_changed := str "identity_state_changed".
Definition audit_event (admin : Z) (k : target_kind) (target : Z) (code_ reason : text) : T unit :=
  write (add_audit_event {| actor := by_admin admin; ev_target_kind := k; ev_target_id := target; event_code := code_;
                            outcome := succeeded; reason_code := Some reason |}).
Definition rejected {A} : T A := raise (Raised UserManagementRejected).
Definition endswith (suffix t : text) : bool := startswith (reverse suffix) (reverse t).
Definition deleted (u : User) : bool := endswith (str "@deleted.invalid") (email_normalized u).

(** *** Accounts *)

Definition disable_body (uid admin now : Z) : T UserSummary :=
  found ← read (get_user uid);
  match found with
  | None => rejected
  | Some u =>
      match user_state u with
      | AccountState.DISABLED => mret (_user_summary u)
      | AccountState.PENDING_ACTIVATION => rejected
      | AccountState.ACTIVE | AccountState.SUSPENDED =>
          _ ← write (update_user uid (set_standing AccountState.DISABLED (Some now)));
          _ ← write (revoke_all_user_sessions uid now);
          device_ids ← read (Access.devices_of uid);
          _ ← write (fun d => (Access.revoke_devices device_ids now d).2);
          _ ← audit_event admin user_target uid identity_state_changed (str "disabled");
          mret (_user_summary (set_standing AccountState.DISABLED (Some now) u))
      end
  end.
Definition disable_user (uid admin now : Z) : M UserSummary := transact IntegrityError (disable_body uid admin now).

Definition reactivate_body (uid admin : Z) : T UserSummary :=
  found ← read (get_user uid);
  match found with
  | None => rejected
  | Some u =>
      match user_state u with
      | AccountState.ACTIVE => mret (_user_summary u)
      | AccountState.DISABLED =>
          _ ← write (update_user uid (set_standing AccountState.ACTIVE None));
          _ ← audit_event admin user_target uid identity_state_changed (str "reactivated");
          mret (_user_summary (set_standing AccountState.ACTIVE None u))
      | _ => rejected
      end
  end.
Definition reactivate_user (uid admin : Z) : M UserSummary := transact IntegrityError (reactivate_body uid admin).

(** One column of the row, and the event that says so. *)
Definition set_column (uid admin : Z) (f : User -> User) (reason : text) : M unit :=
  transact IntegrityError
    (found ← read (get_user uid);
     match found with
     | None => rejected
     | Some _ =>
         _ ← write (update_user uid f);
         audit_event admin user_target uid identity_state_changed reason
     end).
Definition set_device_limit (uid admin device_limit_ : Z) : M Z :=
  _ ← set_column uid admin (fun u => set_terms device_limit_ (user_expires_at u) (user_dns_profile u) u) (str "device_limit_set");
  mret device_limit_.
Definition set_expiry (uid admin : Z) (expires : option Z) : M (option Z) :=
  _ ← set_column uid admin (fun u => set_terms (device_limit u) expires (user_dns_profile u) u) (str "expiry_set");
  mret expires.
Definition set_dns_profile (uid admin : Z) (dns : text) : M text :=
  _ ← set_column uid admin (fun u => set_terms (device_limit u) (user_expires_at u) dns u) (str "dns_profile_set");
  mret dns.

Definition delete_body `{Erasure.PgLower} (uid admin now : Z) : T unit :=
  found ← read (get_user uid);
  match found with
  | None => rejected
  | Some u =>
      if deleted u then rejected
      else
        _ ← on_db (Erasure.erase_account u now);
        audit_event admin user_target uid identity_state_changed (str "account_deleted")
  end.
Definition delete_user `{Erasure.PgLower} (uid admin now : Z) : M unit := transact IntegrityError (delete_body uid admin now).

(** *** Identity *)

Section Identity.
Context `{Identity.EmailValidator}.

(** [None] for the [ValueError] of [normalize_email] or [normalize_username]. *)
Definition normalized_email (o : option text) : option (option text) :=
  match o with None => Some None | Some e => Some <$> Identity.normalize_email e end.
Definition normalized_username (o : option text) : option (option text) :=
  match o with None | Some [] => Some None | Some n => Some <$> Identity.normalize_username n end.

(** The steps for the address, with the row as it is left. *)
Definition change_email (uid admin : Z) (email_ : option text) (new_email : option text) (u : User) : T User :=
  match new_email with
  | Some e =>
      if bool_decide (e = email_normalized u) then mret u
      else
        other ← read (fun d => scalar (fun x => bool_decide (email_normalized x = e)) (users d));
        match other with
        | Some _ => raise (Raised (IdentityNotChanged EmailTaken))
        | None =>
            let f := set_email (strip (default [] email_)) e in
            _ ← write (update_user uid f);
            _ ← audit_event admin user_target uid identity_state_changed (str "email_changed");
            mret (f u)
        end
  | None => mret u
  end.
Definition change_username (uid admin : Z) (username_ : option text) (new_username : option text) (u : User) : T User :=
  match username_ with
  | None => mret u
  | Some name =>
      if bool_decide (new_username = username_normalized u) then mret u
      else
        other ← read (fun d => match new_username with
                               | Some n => scalar (fun x => bool_decide (username_normalized x = Some n)) (users d)
                               | None => None
                               end);
        match other with
        | Some _ => raise (Raised (IdentityNotChanged UsernameTaken))
        | None =>
            let f := set_username (match strip name with [] => None | t => Some t end) new_username in
            _ ← write (update_user uid f);
            _ ← audit_event admin user_target uid identity_state_changed (str "username_changed");
            mret (f u)
        end
  end.
Definition change_identity (uid admin : Z) (email_ username_ : option text) : M UserSummary :=
  match normalized_email email_, normalized_username username_ with
  | Some new_email, Some new_username =>
      transact (IdentityNotChanged EitherTaken)
        (found ← read (get_user uid);
         match found with
         | None => rejected
         | Some u =>
             if deleted u then rejected
             else
               u1 ← change_email uid admin email_ new_email u;
               u2 ← change_username uid admin username_ new_username u1;
               mret (_user_summary u2)
         end)
  | _, _ => raise (IdentityNotChanged NotValid)
  end.
End Identity.

(** *** Allowances *)

Section Quota.
Context `{XrayCredential.AEAD} (ring : list (Z * text)) (usage_digest : text -> text).

Definition require_user (uid : Z) : M unit :=
  transact IntegrityError
    (found ← read (get_user uid); match found with None => rejected | Some _ => mret tt end).
Definition grant_traffic_quota (uid admin : Z) (quota : option Z) (L : gmap (text * text) Usage.CredentialUsage)
  : M Access.QuotaChange :=
  _ ← require_user uid;
  change ← (fun w =>
    let '(r, d) := Access.grant_traffic_quota ring usage_digest uid quota L (db w) in
    (match r with
     | Ok c => Ok c
     | Err Access.UserNotFound => Err UserNotFound
     | Err Access.IntegrityError => Err IntegrityError
     end, with_db d w));
  _ ← transact IntegrityError
        (audit_event admin user_target uid identity_state_changed
           match quota with None => str "traffic_quota_cleared" | Some _ => str "traffic_quota_granted" end);
  mret change.
End Quota.

(** *** Devices and sessions *)

Definition set_device_dns_profile (uid dev admin : Z) (dns : option text) : M (option text) :=
  transact IntegrityError
    (found ← read (owned_device uid dev);
     match found with
     | None => rejected
     | Some d =>
         _ ← write (update_device dev (fun x => set_device (device_state x) (device_revoked_at x) dns x));
         _ ← audit_event admin device_target dev identity_state_changed (str "dns_profile_set");
         mret dns
     end).

Definition revoke_device_body (uid dev admin now : Z) : T DeviceSummary :=
  found ← read (owned_device uid dev);
  match found with
  | None => rejected
  | Some d =>
      if bool_decide (device_state d = LifecycleState.REVOKED) then mret (_device_summary d)
      else
        _ ← write (update_device dev (revoke_device_row now));
        _ ← write (revoke_active_device_sessions dev now);
        _ ← write (fun x => (Access.revoke_device_credentials dev now x).2);
        _ ← audit_event admin device_target dev (str "device_state_changed") (str "admin_revoked");
        mret (_device_summary (revoke_device_row now d))
  end.
Definition revoke_device (uid dev admin now : Z) : M DeviceSummary :=
  transact IntegrityError (revoke_device_body uid dev admin now).

Definition revoke_session_body (uid sid admin now : Z) : T UserSessionSummary :=
  found ← read (owned_session uid sid);
  match found with
  | None => rejected
  | Some s =>
      if bool_decide (session_state s = LifecycleState.REVOKED) then mret (_session_summary s)
      else
        _ ← write (SessionRevocation.revoke_session s now);
        _ ← audit_event admin user_session sid (str "session_revoked") (str "admin_revoked");
        mret (_session_summary (if session_active s then set_session_revoked now s else s))
  end.
Definition revoke_session (uid sid admin now : Z) : M UserSessionSummary :=
  transact IntegrityError (revoke_session_body uid sid admin now).

End UserManagement.

(** ** account/service.py *)

Module OwnAccount.
Import UserManagement(revoke_device_row, owned_device, update_device).

Inductive exn := DeviceRevocationRefused (reason : text) | IntegrityError.
#[global] Instance exn_eq_dec : EqDecision exn.
Proof. solve_decision. Defined.
Notation M := (prog world exn).
Notation T := (prog world (failure exn)).

Record AccountEntry := {
  ae_email : text; ae_username : option text; ae_state : AccountState.t; ae_device_limit : Z; ae_devices_in_use : Z;
  ae_expires_at : option Z; ae_used_bytes : Z; ae_lifetime_bytes : Z; ae_quota_bytes : option Z;
  ae_remaining_bytes : option Z;
}.
Record DeviceEntry := {
  de_id : Z; de_name : text; de_platform : DevicePlatform.t; de_state : LifecycleState.t; de_client_version : text;
  de_is_current : bool; de_server_codes : list text;
}.

Definition not_revoked (uid : Z) (d : Device) : bool :=
  (device_user d =? uid) && bool_decide (device_state d <> LifecycleState.REVOKED).

Section Reading.
Context `{XrayCredential.AEAD} (ring : list (Z * text)) (usage_digest : text -> text).

Definition get_account (uid : Z) (d : DB) (L : gmap (text * text) Usage.CredentialUsage) : option AccountEntry :=
  u ← get_user uid d;
  let used := Access.usage_for_user ring usage_digest uid d L in
  Some {| ae_email := email u; ae_username := username u; ae_state := user_state u; ae_device_limit := device_limit u;
          ae_devices_in_use := Z.of_nat (length (scalars (not_revoked uid) (devices d)));
          ae_expires_at := user_expires_at u; ae_used_bytes := Usage.total_bytes used;
          ae_lifetime_bytes := Usage.lifetime_bytes used; ae_quota_bytes := Usage.quota_bytes used;
          ae_remaining_bytes := Usage.remaining_bytes used |}.
End Reading.

Definition _LIVE_CREDENTIAL_STATES : list ProvisioningState.t :=
  [ProvisioningState.REQUESTED; ProvisioningState.APPLYING; ProvisioningState.ACTIVE].

(** Credentials of the devices with the code of their server. *)
Definition credential_rows (devs : list Z) (d : DB) : list (Z * text) :=
  scalars (fun c => bool_decide (cred_device c ∈ devs) && in_states _LIVE_CREDENTIAL_STATES (cred_state c)) (credentials d)
  ≫= fun c => match scalar (fun s => server_id s =? cred_server c) (servers d) with
              | Some s => [(cred_device c, server_code s)]
              | None => []
              end.
Definition by_device (rows : list (Z * text)) : list (Z * list text) :=
  foldl (fun acc kv =>
    let codes := default [] (dict_get kv.1 acc) in
    dict_set kv.1 (if bool_decide (kv.2 ∈ codes) then codes else codes ++ [kv.2]) acc) [] rows.
Definition sort_codes (l : list text) : list text := fst <$> sort_by_key ((fun t => (t, tt)) <$> l).
Definition list_devices (uid current : Z) (d : DB) : list DeviceEntry :=
  let rows := scalars (not_revoked uid) (devices d) in
  let codes := by_device (credential_rows (device_id <$> rows) d) in
  (fun x => {| de_id := device_id x; de_name := device_name x; de_platform := platform x; de_state := device_state x;
               de_client_version := client_version x; de_is_current := device_id x =? current;
               de_server_codes := sort_codes (default [] (dict_get (device_id x) codes)) |}) <$> rows.

(** [_revoke_device_credentials], this module's own copy. *)
Definition revoke_row (m : model) (now : Z) (d : DB) (r : Row) : DB :=
  let d1 := update_row m now (row_id r) (set_state ProvisioningState.REVOKING) d in
  match get_credential (credential_id r) d1 with
  | Some _ => update_credential (credential_id r) (set_cred_state ProvisioningState.REVOKING) d1
  | None => d1
  end.
Definition revoke_rows (m : model) (dev now : Z) (d : DB) : Z * DB :=
  let rows := scalars (fun r => (row_device r =? dev) && in_states _LIVE_CREDENTIAL_STATES (state r)) (table m d) in
  (Z.of_nat (length rows), foldl (revoke_row m now) d rows).
Definition _revoke_device_credentials (dev now : Z) (d : DB) : Z * DB :=
  let '(n1, d1) := revoke_rows WireGuardPeer dev now d in
  let '(n2, d2) := revoke_rows XrayClient dev now d1 in
  (n1 + n2, d2).

Definition revoke_body (uid dev now : Z) : T unit :=
  found ← read (owned_device uid dev);
  match found with
  | None => raise (Raised (DeviceRevocationRefused (str "not_found")))
  | Some d =>
      if bool_decide (device_state d = LifecycleState.REVOKED)
      then raise (Raised (DeviceRevocationRefused (str "already_revoked")))
      else
        _ ← write (update_device dev (revoke_device_row now));
        _ ← write (fun x => (_revoke_device_credentials dev now x).2);
        write (add_audit_event {| actor := by_user uid; ev_target_kind := device_target; ev_target_id := dev;
                                  event_code := str "device_state_changed"; outcome := str "succeeded";
                                  reason_code := Some (str "revoked") |})
  end.
Definition revoke_device (uid dev current now : Z) : M unit :=
  if dev =? current then raise (DeviceRevocationRefused (str "cannot_revoke_current_device"))
  else transact IntegrityError (revoke_body uid dev now).

End OwnAccount.
