(* ===== verification/AccessAdmin.v ===== *)
(** * Granting and taking access

    Models [nebula_api/access/service.py] (Module AccessService): which protocol
    profiles and servers an account may use, as administrators decide it; and
    [grant_user_server_access] of [nebula_api/topology_seed.py] (Module
    AccessSeed), the command line's way.  The advisory locks both take serialise
    the transactions. *)

From stdpp Require Import sorting.
From S2P Require Import Prelude PyText PyBytes PyTime Json IpAddress Usage ApiStore OpaqueToken RedisState XrayCredential Access AuthStore UserAuth.
Import Db AuthTx.

(** ** Rows *)

Module Grants.

Definition permission_of (uid profile : Z) (d : DB) : option UserProtocolPermission :=
  scalar (fun p => (perm_user p =? uid) && (perm_profile p =? profile)) (permissions d).
Definition assignment_of (uid server : Z) (d : DB) : option UserServerAssignment :=
  scalar (fun a => (asg_user a =? uid) && (asg_server a =? server)) (assignments d).
Definition get_profile (i : Z) (d : DB) : option ProtocolProfile := scalar (fun p => profile_id p =? i) (profiles d).
Definition get_server (i : Z) (d : DB) : option VPNServer := scalar (fun s => server_id s =? i) (servers d).

Definition set_permission (s : CapabilityState.t) (by_ : option Z) (granted : Z) (revoked : option Z)
    (p : UserProtocolPermission) : UserProtocolPermission :=
  {| perm_id := perm_id p; perm_user := perm_user p; perm_profile := perm_profile p; perm_granted_by := by_; perm_state := s;
     perm_granted_at := granted; perm_expires_at := perm_expires_at p; perm_revoked_at := revoked |}.
Definition set_assignment (s : LifecycleState.t) (by_ : option Z) (assigned : Z) (revoked : option Z)
    (a : UserServerAssignment) : UserServerAssignment :=
  {| asg_id := asg_id a; asg_user := asg_user a; asg_server := asg_server a; asg_assigned_by := by_; asg_state := s;
     asg_assigned_at := assigned; asg_expires_at := asg_expires_at a; asg_revoked_at := revoked |}.
Definition new_permission (i uid profile : Z) (by_ : option Z) (now : Z) : UserProtocolPermission :=
  {| perm_id := i; perm_user := uid; perm_profile := profile; perm_granted_by := by_; perm_state := CapabilityState.ENABLED;
     perm_granted_at := now; perm_expires_at := None; perm_revoked_at := None |}.
Definition new_assignment (i uid server : Z) (by_ : option Z) (now : Z) : UserServerAssignment :=
  {| asg_id := i; asg_user := uid; asg_server := server; asg_assigned_by := by_; asg_state := LifecycleState.ACTIVE;
     asg_assigned_at := now; asg_expires_at := None; asg_revoked_at := None |}.
Definition add_permission (p : UserProtocolPermission) (d : DB) : DB := with_permissions (permissions d ++ [p]) d.
Definition add_assignment (a : UserServerAssignment) (d : DB) : DB := with_assignments (assignments d ++ [a]) d.
Definition update_permission (i : Z) (f : UserProtocolPermission -> UserProtocolPermission) (d : DB) : DB :=
  with_permissions (update perm_id i f (permissions d)) d.
Definition update_assignment (i : Z) (f : UserServerAssignment -> UserServerAssignment) (d : DB) : DB :=
  with_assignments (update asg_id i f (assignments d)) d.

Definition audit_event {E} (who : actor_of) (k : target_kind) (target : Z) (code_ reason : text) : prog world (failure E) unit :=
  write (add_audit_event {| actor := who; ev_target_kind := k; ev_target_id := target; event_code := code_;
                            outcome := str "succeeded"; reason_code := Some reason |}).
Definition permission_changed := str "permission_changed".
Definition assignment_changed := str "assignment_changed".

(** [session.flush()], asked for or implied by the next statement. *)
Definition flush {E} (integrity : E) : prog world (failure E) unit := fun w =>
  (if constraints (db w) && auth_constraints (db w) then Ok tt else Err (Raised integrity), w).

End Grants.
Import Grants.

(** ** access/service.py *)

Module AccessService.

Inductive exn := AccessRejected | IntegrityError | IndexError.
#[global] Instance exn_eq_dec : EqDecision exn.
Proof. solve_decision. Defined.
Notation M := (prog world exn).
Notation T := (prog world (failure exn)).

Definition _MAX_LIMIT : Z := 200.
Definition rejected {A} : T A := raise (Raised AccessRejected).

Record PermissionSummary := {
  ps_id : Z; ps_profile_id : Z; ps_profile_code : text; ps_profile_display_name : text; ps_state : CapabilityState.t;
  ps_granted_by : option Z; ps_granted_at : Z; ps_expires_at : option Z; ps_revoked_at : option Z;
}.
Record PermissionListEntry := { pe_summary : PermissionSummary; pe_user : Z; pe_email : text }.
Record PermissionPage := { pp_items : list PermissionListEntry; pp_total : Z }.
Record AssignmentSummary := {
  as_id : Z; as_server_id : Z; as_server_code : text; as_server_display_name : text; as_state : LifecycleState.t;
  as_assigned_by : option Z; as_assigned_at : Z; as_expires_at : option Z; as_revoked_at : option Z;
}.
Record AssignmentListEntry := { ae_summary : AssignmentSummary; ae_user : Z; ae_email : text }.
Record AssignmentPage := { ap_items : list AssignmentListEntry; ap_total : Z }.

Definition _permission_summary (row : UserProtocolPermission) (profile : ProtocolProfile) : PermissionSummary :=
  {| ps_id := perm_id row; ps_profile_id := perm_profile row; ps_profile_code := profile_code profile;
     ps_profile_display_name := profile_display_name profile; ps_state := perm_state row; ps_granted_by := perm_granted_by row;
     ps_granted_at := perm_granted_at row; ps_expires_at := perm_expires_at row; ps_revoked_at := perm_revoked_at row |}.
Definition _assignment_summary (row : UserServerAssignment) (server : VPNServer) : AssignmentSummary :=
  {| as_id := asg_id row; as_server_id := asg_server row; as_server_code := server_code server;
     as_server_display_name := server_display_name server; as_state := asg_state row; as_assigned_by := asg_assigned_by row;
     as_assigned_at := asg_assigned_at row; as_expires_at := asg_expires_at row; as_revoked_at := asg_revoked_at row |}.

(** *** Listing *)

(** Rows of equal age come in the order of the table. *)
Definition younger {A} (age : A -> Z) (x y : A) : Prop := age y <= age x.
#[local] Instance younger_dec {A} (age : A -> Z) : RelDecision (younger age).
Proof. intros x y. unfold younger. apply _. Defined.
Definition newest {A} (age : A -> Z) (rows : list A) : list A := merge_sort (younger age) rows.

Definition joined_permission (d : DB) (p : UserProtocolPermission) : option PermissionSummary :=
  _permission_summary p <$> get_profile (perm_profile p) d.
Definition joined_assignment (d : DB) (a : UserServerAssignment) : option AssignmentSummary :=
  _assignment_summary a <$> get_server (asg_server a) d.
Definition list_user_permissions (uid : Z) (d : DB) : list PermissionSummary :=
  newest ps_granted_at (omap (joined_permission d) (scalars (fun p => perm_user p =? uid) (permissions d))).
Definition list_user_assignments (uid : Z) (d : DB) : list AssignmentSummary :=
  newest as_assigned_at (omap (joined_assignment d) (scalars (fun a => asg_user a =? uid) (assignments d))).

Definition page {A} (limit offset : Z) (rows : list A) : list A :=
  take (Z.to_nat (Z.max 1 (Z.min limit _MAX_LIMIT))) (drop (Z.to_nat (Z.max 0 offset)) rows).

Section Listing.
(** How the database orders texts. *)
Context (collates : text -> text -> bool).

Definition by_user_and_profile (x y : PermissionListEntry) : Prop :=
  Is_true (if bool_decide (pe_email x = pe_email y) then
             let name e := ps_profile_display_name (pe_summary e) in
             if bool_decide (name x = name y) then ps_id (pe_summary x) <=? ps_id (pe_summary y)
             else collates (name x) (name y)
           else collates (pe_email x) (pe_email y)).
#[local] Instance by_user_and_profile_dec : RelDecision by_user_and_profile.
Proof. intros x y. apply _. Defined.

Definition permission_entry (d : DB) (p : UserProtocolPermission) : option PermissionListEntry :=
  s ← joined_permission d p; u ← get_user (perm_user p) d;
  Some {| pe_summary := s; pe_user := perm_user p; pe_email := email u |}.
Definition list_all_permissions (state : option CapabilityState.t) (limit offset : Z) (d : DB) : PermissionPage :=
  let rows := scalars (fun p => if_set (fun s => bool_decide (perm_state p = s)) state) (permissions d) in
  {| pp_items := page limit offset (merge_sort by_user_and_profile (omap (permission_entry d) rows));
     pp_total := Z.of_nat (length rows) |}.
End Listing.

Definition assignment_entry (d : DB) (a : UserServerAssignment) : option AssignmentListEntry :=
  s ← joined_assignment d a; u ← get_user (asg_user a) d;
  Some {| ae_summary := s; ae_user := asg_user a; ae_email := email u |}.
Definition list_all_assignments (state : option LifecycleState.t) (limit offset : Z) (d : DB) : AssignmentPage :=
  let rows := scalars (fun a => if_set (fun s => bool_decide (asg_state a = s)) state) (assignments d) in
  {| ap_items := page limit offset (newest (fun e => as_assigned_at (ae_summary e)) (omap (assignment_entry d) rows));
     ap_total := Z.of_nat (length rows) |}.

(** *** Granting *)

Definition _grant (uid profile admin now : Z) : T (PermissionSummary * bool) :=
  _ ← flush IntegrityError;
  found_profile ← read (get_profile profile);
  match found_profile with
  | None => rejected
  | Some pf =>
      found ← read (permission_of uid profile);
      match found with
      | Some p =>
          if bool_decide (perm_state p = CapabilityState.ENABLED) then mret (_permission_summary p pf, false)
          else
            let f := set_permission CapabilityState.ENABLED (Some admin) now None in
            _ ← write (update_permission (perm_id p) f);
            _ ← audit_event (by_admin admin) permission_target (perm_id p) permission_changed (str "granted");
            mret (_permission_summary (f p) pf, true)
      | None =>
          i ← new_uuid;
          let p := new_permission i uid profile (Some admin) now in
          _ ← write (add_permission p);
          _ ← flush IntegrityError;
          _ ← audit_event (by_admin admin) permission_target i permission_changed (str "granted");
          mret (_permission_summary p pf, true)
      end
  end.

Fixpoint grant_each (uid : Z) (profile_ids : list Z) (admin now : Z) : T (list PermissionSummary) :=
  match profile_ids with
  | [] => mret []
  | i :: rest =>
      r ← _grant uid i admin now;
      l ← grant_each uid rest admin now;
      mret (r.1 :: l)
  end.
Definition grant_permissions (uid : Z) (profile_ids : list Z) (admin now : Z) : M (list PermissionSummary) :=
  transact IntegrityError (grant_each uid (merge_sort Z.le (remove_dups profile_ids)) admin now).
Definition grant_permission (uid profile admin now : Z) : M PermissionSummary :=
  l ← grant_permissions uid [profile] admin now;
  match l with s :: _ => mret s | [] => raise IndexError end.

Definition revoke_permission_body (uid profile admin now : Z) : T PermissionSummary :=
  found ← read (permission_of uid profile);
  match found with
  | None => rejected
  | Some p =>
      found_profile ← read (get_profile profile);
      match found_profile with
      | None => rejected
      | Some pf =>
          if bool_decide (perm_state p = CapabilityState.DISABLED) then mret (_permission_summary p pf)
          else
            let f x := set_permission CapabilityState.DISABLED (perm_granted_by x) (perm_granted_at x) (Some now) x in
            _ ← write (update_permission (perm_id p) f);
            _ ← audit_event (by_admin admin) permission_target (perm_id p) permission_changed (str "revoked");
            mret (_permission_summary (f p) pf)
      end
  end.
Definition revoke_permission (uid profile admin now : Z) : M PermissionSummary :=
  transact IntegrityError (revoke_permission_body uid profile admin now).

(** *** Assigning *)

Definition _assign (uid server admin now : Z) : T (AssignmentSummary * bool) :=
  _ ← flush IntegrityError;
  found_server ← read (get_server server);
  match found_server with
  | None => rejected
  | Some sv =>
      found ← read (assignment_of uid server);
      match found with
      | Some a =>
          if bool_decide (asg_state a = LifecycleState.ACTIVE) then mret (_assignment_summary a sv, false)
          else
            let f := set_assignment LifecycleState.ACTIVE (Some admin) now None in
            _ ← write (update_assignment (asg_id a) f);
            _ ← audit_event (by_admin admin) assignment_target (asg_id a) assignment_changed (str "assigned");
            mret (_assignment_summary (f a) sv, true)
      | None =>
          i ← new_uuid;
          let a := new_assignment i uid server (Some admin) now in
          _ ← write (add_assignment a);
          _ ← flush IntegrityError;
          _ ← audit_event (by_admin admin) assignment_target i assignment_changed (str "assigned");
          mret (_assignment_summary a sv, true)
      end
  end.
Definition assign_server (uid server admin now : Z) : M AssignmentSummary :=
  transact IntegrityError (r ← _assign uid server admin now; mret r.1).

Definition _users_who_can_use_access (d : DB) : list Z :=
  merge_sort Z.le (user_id <$> scalars (fun u => bool_decide (user_state u ∈ [AccountState.ACTIVE; AccountState.PENDING_ACTIVATION])) (users d)).
(** [for user_id in ...: _summary, did = ...; changed += did] *)
Fixpoint count_changed {A} (f : Z -> T (A * bool)) (ids : list Z) (changed : Z) : T Z :=
  match ids with
  | [] => mret changed
  | i :: rest => r ← f i; count_changed f rest (changed + Z.b2z r.2)
  end.
Definition assign_server_to_everyone (server admin now : Z) : M Z :=
  transact IntegrityError
    (ids ← read _users_who_can_use_access; count_changed (fun uid => _assign uid server admin now) ids 0).
Definition grant_profile_to_everyone (profile admin now : Z) : M Z :=
  transact IntegrityError
    (ids ← read _users_who_can_use_access; count_changed (fun uid => _grant uid profile admin now) ids 0).

Definition revoke_assignment_body (uid server admin now : Z) : T AssignmentSummary :=
  found ← read (assignment_of uid server);
  match found with
  | None => rejected
  | Some a =>
      found_server ← read (get_server server);
      match found_server with
      | None => rejected
      | Some sv =>
          if bool_decide (asg_state a = LifecycleState.REVOKED) then mret (_assignment_summary a sv)
          else
            let f x := set_assignment LifecycleState.REVOKED (asg_assigned_by x) (asg_assigned_at x) (Some now) x in
            _ ← write (update_assignment (asg_id a) f);
            _ ← audit_event (by_admin admin) assignment_target (asg_id a) assignment_changed (str "revoked");
            mret (_assignment_summary (f a) sv)
      end
  end.
Definition revoke_assignment (uid server admin now : Z) : M AssignmentSummary :=
  transact IntegrityError (revoke_assignment_body uid server admin now).

End AccessService.

(** ** topology_seed.py: grant_user_server_access *)

Module AccessSeed.

Inductive exn := ValueError | IntegrityError.
#[global] Instance exn_eq_dec : EqDecision exn.
Proof. solve_decision. Defined.
Notation M := (prog world exn).
Notation T := (prog world (failure exn)).
Definition value_error {A} : T A := raise (Raised ValueError).

Record GrantAccessResult := { granted_user : Z; profile_codes : list text }.

Section Seed.
Context `{Identity.EmailValidator} (collates : text -> text -> bool).

Definition by_code (x y : ProtocolProfile) : Prop :=
  Is_true (bool_decide (profile_code x = profile_code y) || collates (profile_code x) (profile_code y)).
#[local] Instance by_code_dec : RelDecision by_code.
Proof. intros x y. apply _. Defined.

(** The profiles the server offers: a join with its capabilities. *)
Definition offered (server : Z) (d : DB) : list ProtocolProfile :=
  merge_sort by_code
    (p ← profiles d;
     (fun _ => p) <$> scalars (fun c => (cap_profile c =? profile_id p) && (cap_server c =? server) &&
                                       bool_decide (cap_state c = CapabilityState.ENABLED) &&
                                       bool_decide (profile_state p = ProfileState.IMPLEMENTED)) (capabilities d)).

Definition grant_one (uid now : Z) (p : ProtocolProfile) : T text :=
  _ ← flush IntegrityError;
  found ← read (permission_of uid (profile_id p));
  i ← match found with
      | None =>
          i ← new_uuid;
          _ ← write (add_permission (new_permission i uid (profile_id p) None now));
          mret i
      | Some q =>
          _ ← write (update_permission (perm_id q) (fun x =>
                if bool_decide (perm_state x = CapabilityState.ENABLED) then x
                else set_permission CapabilityState.ENABLED (perm_granted_by x) now None x));
          mret (perm_id q)
      end;
  _ ← flush IntegrityError;
  _ ← audit_event by_bootstrap permission_target i permission_changed (str "granted");
  mret (profile_code p).
Fixpoint grant_list (uid now : Z) (l : list ProtocolProfile) : T (list text) :=
  match l with
  | [] => mret []
  | p :: rest => c ← grant_one uid now p; cs ← grant_list uid now rest; mret (c :: cs)
  end.
Definition assign_one (uid server now : Z) : T unit :=
  found ← read (assignment_of uid server);
  i ← match found with
      | None =>
          i ← new_uuid;
          _ ← write (add_assignment (new_assignment i uid server None now));
          mret i
      | Some a =>
          _ ← write (update_assignment (asg_id a) (fun x =>
                if bool_decide (asg_state x = LifecycleState.ACTIVE) then x
                else set_assignment LifecycleState.ACTIVE (asg_assigned_by x) now None x));
          mret (asg_id a)
      end;
  _ ← flush IntegrityError;
  audit_event by_bootstrap assignment_target i assignment_changed (str "assigned").

Definition grant_body (address server : text) (now : Z) : T GrantAccessResult :=
  found ← read (fun d => scalar (fun u => bool_decide (email_normalized u = address)) (users d));
  match found with
  | None => value_error
  | Some u =>
      found_server ← read (fun d => scalar (fun s => bool_decide (server_code s = server)) (servers d));
      match found_server with
      | None => value_error
      | Some sv =>
          offer ← read (offered (server_id sv));
          match offer with
          | [] => value_error
          | _ =>
              granted ← grant_list (user_id u) now offer;
              _ ← assign_one (user_id u) (server_id sv) now;
              mret {| granted_user := user_id u; profile_codes := granted |}
          end
      end
  end.
Definition grant_user_server_access (user_email server : text) (now : Z) : M GrantAccessResult :=
  match Identity.normalize_email user_email with
  | None => raise ValueError
  | Some address => transact IntegrityError (grant_body address server now)
  end.
End Seed.
End AccessSeed.
