(* ===== verification/SessionLedger.v ===== *)
(** * The session ledger

    What signing in, refreshing and signing out may do to the sessions and their
    refresh tokens: an abstract machine of five transitions, its invariant, and
    what no sequence of transitions can undo.  [UserSessions] proves that every
    operation of [nebula_api/auth/user_service.py] is a sequence of them. *)

From stdpp Require Import relations.
From S2P Require Import Prelude PyText PyBytes Json IpAddress Usage ApiStore OpaqueToken RedisState XrayCredential Access AuthStore UserAuth.
Import Db AuthTx SessionRevocation UserAuth.

Module SessionLedger.

(** ** The machine *)

Record ledger := { held : list UserSession; tokens : list Token; fresh : Z }.
Definition ledger_of (db : DB) : ledger :=
  {| held := sessions (auth db); tokens := refresh_tokens (auth db); fresh := next_id db |}.

(** A token belongs to a session, ends no later than it, and is active only
    while the session is. *)
Definition owned_by (k : Token) (s : UserSession) : Prop :=
  session_id s = token_owner k /\ token_expires_at k <= session_expires_at s /\
  (token_active k = true -> session_active s = true).

Definition token_issued (k : Token) : Prop :=
  token_state k = TokenState.ACTIVE /\ token_consumed_at k = None /\ token_revoked_at k = None /\ token_link k = None.
Definition session_opened (s : UserSession) : Prop :=
  session_state s = LifecycleState.ACTIVE /\ session_revoked_at s = None.

Inductive step : ledger -> ledger -> Prop :=
| Draw l n :
    fresh l <= n -> step l {| held := held l; tokens := tokens l; fresh := n |}
| End_ l (ids : list Z) p now :
    (forall s, p s = true -> session_id s ∈ ids) ->
    step l {| held := update_where p (set_session_revoked now) (held l);
              tokens := update_where (fun k => bool_decide (token_owner k ∈ ids) && token_active k)
                          (set_token_revoked now) (tokens l);
              fresh := fresh l |}
| Open l s k n :
    fresh l <= session_id s < n -> fresh l <= token_id k < n ->
    session_opened s -> token_issued k -> owned_by k s ->
    (forall x, x ∈ held l -> session_active x = true -> session_device x <> session_device s) ->
    step l {| held := held l ++ [s]; tokens := tokens l ++ [k]; fresh := n |}
| Rotate l t s k now n :
    t ∈ tokens l -> s ∈ held l -> session_id s = token_owner t ->
    token_active t = true -> session_active s = true -> now < token_expires_at t -> now < session_expires_at s ->
    fresh l <= token_id k < n -> token_issued k -> token_owner k = token_owner t ->
    token_expires_at k = Z.min (token_expires_at t) (session_expires_at s) ->
    step l {| held := update session_id (session_id s) (set_last_seen now) (held l);
              tokens := update token_id (token_id t) (set_consumed now (Some (token_id k))) (tokens l) ++ [k];
              fresh := n |}
| Erase l user :
    step l {| held := delete_where (fun s => session_user s =? user) (held l);
              tokens := delete_where (fun k => bool_decide (token_owner k ∈
                          (session_id <$> scalars (fun s => session_user s =? user) (held l)))) (tokens l);
              fresh := fresh l |}.

Lemma step_fresh l l' : step l l' -> fresh l <= fresh l'.
Proof. destruct 1; cbn; lia. Qed.
Lemma steps_fresh l l' : rtc step l l' -> fresh l <= fresh l'.
Proof. induction 1 as [|l1 l2 l3 Hs _ IH]; [lia|]. apply step_fresh in Hs. lia. Qed.

(** ** The invariant *)

(** The [CHECK] constraints of [user_sessions] and [refresh_tokens]. *)
Definition session_shape (s : UserSession) : Prop :=
  session_state s = LifecycleState.REVOKED <-> session_revoked_at s <> None.
Definition token_shape (k : Token) : Prop :=
  (token_state k = TokenState.CONSUMED <-> token_consumed_at k <> None) /\
  (token_state k = TokenState.REVOKED <-> token_revoked_at k <> None) /\
  (token_state k = TokenState.CONSUMED <-> token_link k <> None).

Definition linked (ks : list Token) (k : Token) : Prop := forall i, token_link k = Some i ->
  exists k', k' ∈ ks /\ token_id k' = i /\ token_owner k' = token_owner k.

Record wf (l : ledger) : Prop := {
  wf_session_ids : NoDup (session_id <$> held l);
  wf_token_ids : NoDup (token_id <$> tokens l);
  wf_session_fresh : Forall (fun s => session_id s < fresh l) (held l);
  wf_token_fresh : Forall (fun k => token_id k < fresh l) (tokens l);
  wf_session_shape : Forall session_shape (held l);
  wf_token_shape : Forall token_shape (tokens l);
  wf_owned : Forall (fun k => exists s, s ∈ held l /\ owned_by k s) (tokens l);
  wf_links : Forall (linked (tokens l)) (tokens l);
  (** one active token a session, one active session a device *)
  wf_one_token k k' : k ∈ tokens l -> k' ∈ tokens l -> token_active k = true -> token_active k' = true ->
    token_owner k = token_owner k' -> k = k';
  wf_one_session s s' : s ∈ held l -> s' ∈ held l -> session_active s = true -> session_active s' = true ->
    session_device s = session_device s' -> s = s';
}.

Lemma wf_draw l n : fresh l <= n -> wf l -> wf {| held := held l; tokens := tokens l; fresh := n |}.
Proof.
  intros Hn [H1 H2 H3 H4 H5 H6 H7 H8 H9 H10]. constructor; cbn; try done.
  - eapply Forall_impl; [exact H3|]. cbn. lia.
  - eapply Forall_impl; [exact H4|]. cbn. lia.
Qed.

Lemma wf_end l (ids : list Z) p now :
  (forall s, p s = true -> session_id s ∈ ids) -> wf l ->
  wf {| held := update_where p (set_session_revoked now) (held l);
        tokens := update_where (fun k => bool_decide (token_owner k ∈ ids) && token_active k)
                    (set_token_revoked now) (tokens l);
        fresh := fresh l |}.
Proof.
  intros Hp [H1 H2 H3 H4 H5 H6 H7 H8 H9 H10]. rewrite Forall_forall in H7, H8.
  set (q := fun k => bool_decide (token_owner k ∈ ids) && token_active k).
  assert (Himg : forall k0, token_owner (if q k0 then set_token_revoked now k0 else k0) = token_owner k0 /\
    token_id (if q k0 then set_token_revoked now k0 else k0) = token_id k0 /\
    token_link (if q k0 then set_token_revoked now k0 else k0) = token_link k0) by (intros k0; by destruct (q k0)).
  constructor; cbn.
  - by rewrite update_where_ids.
  - by rewrite update_where_ids.
  - by apply Forall_update_where.
  - by apply Forall_update_where.
  - apply Forall_update_where; [|done]. intros s _ _. unfold session_shape. cbn. split; done.
  - apply Forall_update_where; [|done]. intros k (Hc & Hr & Hl) Hk. unfold q in Hk. boolP. unfold token_active in *. boolP.
    unfold token_shape. cbn. rewrite H0 in *. repeat split; try done; intros; exfalso; naive_solver.
  - apply Forall_forall. intros k (k0 & Hk0 & ->)%elem_of_update_where.
    destruct (H7 k0 Hk0) as (s & Hs & Hid & Hexp & Hact).
    exists (if p s then set_session_revoked now s else s). split; [apply elem_of_update_where; eauto|].
    destruct (q k0) eqn:Hk; (split; [by destruct (p s)|]; split; [by destruct (p s)|]); [done|].
    intros Ha. destruct (p s) eqn:Hps; [|auto]. apply Hp in Hps. rewrite Hid in Hps. unfold q in Hk.
    rewrite bool_decide_eq_true_2, Ha in Hk by done. done.
  - apply Forall_forall. intros k (k0 & Hk0 & ->)%elem_of_update_where i Hi.
    destruct (Himg k0) as (Ho & _ & Hl). rewrite Hl in Hi. destruct (H8 k0 Hk0 i Hi) as (k' & Hk' & Hid & Ho').
    eexists. split; [apply elem_of_update_where; eauto|]. destruct (Himg k') as (-> & -> & _). by rewrite Ho.
  - intros k k' (k0 & Hk0 & ->)%elem_of_update_where (k1 & Hk1 & ->)%elem_of_update_where.
    fold q. destruct (q k0), (q k1); try done. auto.
  - intros s s' (s0 & Hs0 & ->)%elem_of_update_where (s1 & Hs1 & ->)%elem_of_update_where.
    destruct (p s0), (p s1); try done. auto.
Qed.

Lemma wf_open l s k n :
  fresh l <= session_id s < n -> fresh l <= token_id k < n ->
  session_opened s -> token_issued k -> owned_by k s ->
  (forall x, x ∈ held l -> session_active x = true -> session_device x <> session_device s) ->
  wf l -> wf {| held := held l ++ [s]; tokens := tokens l ++ [k]; fresh := n |}.
Proof.
  intros Hs Hk [Hss Hsr] (Hks & Hkc & Hkr & Hkl) Ho Hdev [H1 H2 H3 H4 H5 H6 H7 H8 H9 H10]. constructor; cbn.
  - eapply NoDup_add; [done|exact H3|lia].
  - eapply NoDup_add; [done|exact H4|lia].
  - apply Forall_app. split; [|rewrite Forall_singleton; lia]. eapply Forall_impl; [exact H3|]. cbn. lia.
  - apply Forall_app. split; [|rewrite Forall_singleton; lia]. eapply Forall_impl; [exact H4|]. cbn. lia.
  - apply Forall_app. split; [done|]. rewrite Forall_singleton. unfold session_shape. by rewrite Hss, Hsr.
  - apply Forall_app. split; [done|]. rewrite Forall_singleton. unfold token_shape. by rewrite Hks, Hkc, Hkr, Hkl.
  - apply Forall_app. split; [|rewrite Forall_singleton; exists s; split; [set_solver|done]].
    eapply Forall_impl; [exact H7|]. intros k0 (s0 & Hs0 & ?). exists s0. set_solver.
  - apply Forall_app. split; [|rewrite Forall_singleton; intros i; by rewrite Hkl].
    eapply Forall_impl; [exact H8|]. intros k0 Hl i Hi. destruct (Hl i Hi) as (k' & ? & ?). exists k'. set_solver.
  - assert (Hnew : forall x, x ∈ tokens l -> token_owner x <> token_owner k).
    { intros x Hx He. rewrite Forall_forall in H7. rewrite Forall_forall in H3. destruct (H7 x Hx) as (y & Hy & Hid & _). apply H3 in Hy.
      destruct Ho as [Ho _]. rewrite <- He, <- Hid in Ho. cbn in Hy. lia. }
    intros a b [Ha| ->%list_elem_of_singleton]%elem_of_app [Hb| ->%list_elem_of_singleton]%elem_of_app Aa Ab He; auto;
      exfalso; eapply Hnew; eauto.
  - intros a b [Ha| ->%list_elem_of_singleton]%elem_of_app [Hb| ->%list_elem_of_singleton]%elem_of_app Aa Ab He; auto;
      exfalso; eapply Hdev; eauto.
Qed.

Lemma wf_rotate l t s k now n :
  t ∈ tokens l -> s ∈ held l -> session_id s = token_owner t ->
  token_active t = true -> session_active s = true ->
  fresh l <= token_id k < n -> token_issued k -> token_owner k = token_owner t ->
  token_expires_at k <= session_expires_at s ->
  wf l ->
  wf {| held := update session_id (session_id s) (set_last_seen now) (held l);
        tokens := update token_id (token_id t) (set_consumed now (Some (token_id k))) (tokens l) ++ [k];
        fresh := n |}.
Proof.
  intros Ht Hs Hown Hta Hsa Hk (Hks & Hkc & Hkr & Hkl) Hko Hexp [H1 H2 H3 H4 H5 H6 H7 H8 H9 H10].
  rewrite !update_is_where. rewrite Forall_forall in H7, H8.
  set (f := set_consumed now (Some (token_id k))). set (q := fun r : Token => token_id r =? token_id t).
  set (g := set_last_seen now). set (p := fun r : UserSession => session_id r =? session_id s).
  assert (Hq : forall x, x ∈ tokens l -> q x = true -> x = t).
  { intros x Hx Hqx. unfold q in Hqx. boolP. by apply (same_id token_id (tokens l)). }
  assert (Himg : forall x, token_owner (if q x then f x else x) = token_owner x /\
    token_id (if q x then f x else x) = token_id x /\
    token_expires_at (if q x then f x else x) = token_expires_at x) by (intros x; by destruct (q x)).
  assert (Hact : forall x, token_active (if q x then f x else x) = true -> q x = false /\ token_active x = true).
  { intros x. destruct (q x); [done|auto]. }
  assert (Hses : forall x, session_id (if p x then g x else x) = session_id x /\
    session_expires_at (if p x then g x else x) = session_expires_at x /\
    session_active (if p x then g x else x) = session_active x /\
    session_device (if p x then g x else x) = session_device x) by (intros x; by destruct (p x)).
  assert (Hown' : forall x y, owned_by x y -> owned_by (if q x then f x else x) (if p y then g y else y)).
  { intros x y (? & ? & ?). destruct (Himg x) as (Hx1 & _ & Hx2), (Hses y) as (Hy1 & Hy2 & Hy3 & _).
    unfold owned_by. rewrite Hx1, Hx2, Hy1, Hy2, Hy3. split; [done|]. split; [done|]. intros [_ ?]%Hact. auto. }
  constructor; cbn.
  - by rewrite update_where_ids.
  - eapply (NoDup_add token_id _ _ (fresh l)); [by rewrite update_where_ids| |lia]. by apply Forall_update_where.
  - apply Forall_update_where; [done|]. eapply Forall_impl; [exact H3|]. cbn. lia.
  - apply Forall_app. split; [|rewrite Forall_singleton; lia]. apply Forall_update_where; [done|].
    eapply Forall_impl; [exact H4|]. cbn. lia.
  - by apply Forall_update_where.
  - apply Forall_app. split; [|rewrite Forall_singleton; unfold token_shape; by rewrite Hks, Hkc, Hkr, Hkl].
    apply Forall_forall. intros x (x0 & Hx0 & ->)%elem_of_update_where. rewrite Forall_forall in H6.
    destruct (q x0) eqn:Hqx; [|auto]. apply Hq in Hqx as ->; [|done]. destruct (H6 t Ht) as (_ & Hr & _).
    unfold token_active in Hta. boolP. unfold token_shape. cbn. rewrite Hta in Hr.
    split; [done|]. split; [|done]. split; [done|]. intros ?%Hr. done.
  - apply Forall_app. split.
    + apply Forall_forall. intros x (x0 & Hx0 & ->)%elem_of_update_where. destruct (H7 x0 Hx0) as (y & Hy & Ho).
      eexists. split; [apply elem_of_update_where; eauto|]. by apply Hown'.
    + rewrite Forall_singleton. eexists. split; [apply elem_of_update_where; eauto|].
      destruct (Hses s) as (Hy1 & Hy2 & Hy3 & _). unfold owned_by. by rewrite Hy1, Hy2, Hy3, Hown, Hko.
  - assert (Hup : forall i o, (exists k', k' ∈ tokens l /\ token_id k' = i /\ token_owner k' = o) ->
      exists k', k' ∈ update_where q f (tokens l) ++ [k] /\ token_id k' = i /\ token_owner k' = o).
    { intros i o (k' & Hk' & Hid & Ho). eexists. split; [apply elem_of_app; left; apply elem_of_update_where; eauto|].
      destruct (Himg k') as (-> & -> & _). done. }
    apply Forall_app. split; [|rewrite Forall_singleton; intros i; by rewrite Hkl].
    apply Forall_forall. intros x (x0 & Hx0 & ->)%elem_of_update_where i Hi.
    destruct (q x0) eqn:Hqx; [|by apply Hup, H8]. apply Hq in Hqx as ->; [|done]. cbn in Hi. simplify_eq.
    exists k. set_solver.
  - assert (Hnone : forall x, x ∈ tokens l -> token_active (if q x then f x else x) = true -> token_owner x <> token_owner t).
    { intros x Hx [Hqx Hax]%Hact He. rewrite (H9 x t) in Hqx by done. unfold q in Hqx. boolP. done. }
    intros a b [(a0 & Ha & ->)%elem_of_update_where| ->%list_elem_of_singleton]%elem_of_app
      [(b0 & Hb & ->)%elem_of_update_where| ->%list_elem_of_singleton]%elem_of_app Aa Ab; [| | |done].
    + destruct (Himg a0) as (-> & _), (Himg b0) as (-> & _). apply Hact in Aa as [-> Aa], Ab as [-> Ab]. auto.
    + destruct (Himg a0) as (-> & _). intros He. exfalso. apply (Hnone a0); [done..|congruence].
    + destruct (Himg b0) as (-> & _). intros He. exfalso. apply (Hnone b0); [done..|congruence].
  - intros a b (a0 & Ha & ->)%elem_of_update_where (b0 & Hb & ->)%elem_of_update_where.
    destruct (Hses a0) as (_ & _ & -> & ->), (Hses b0) as (_ & _ & -> & ->). intros. by rewrite (H10 a0 b0).
Qed.

Lemma wf_erase l user :
  wf l -> wf {| held := delete_where (fun s => session_user s =? user) (held l);
                tokens := delete_where (fun k => bool_decide (token_owner k ∈
                            (session_id <$> scalars (fun s => session_user s =? user) (held l)))) (tokens l);
                fresh := fresh l |}.
Proof.
  intros [H1 H2 H3 H4 H5 H6 H7 H8 H9 H10]. rewrite Forall_forall in H7, H8.
  constructor; cbn; try by apply Forall_delete.
  - by apply NoDup_delete.
  - by apply NoDup_delete.
  - apply Forall_forall. intros k [Hk Hp]%elem_of_delete_where. boolP. destruct (H7 k Hk) as (s & Hs & Hid & Ho).
    exists s. split; [|done]. apply elem_of_delete_where. split; [done|]. apply Z.eqb_neq. intros Hu. apply Hp.
    rewrite <- Hid. apply list_elem_of_fmap_2, elem_of_scalars. split; [done|]. by apply Z.eqb_eq.
  - apply Forall_forall. intros k [Hk Hp]%elem_of_delete_where i Hi. boolP.
    destruct (H8 k Hk i Hi) as (k' & Hk' & Hid & Ho). exists k'. split; [|done].
    apply elem_of_delete_where. split; [done|]. rewrite Ho. by apply bool_decide_eq_false_2.
  - intros a b [Ha _]%elem_of_delete_where [Hb _]%elem_of_delete_where. auto.
  - intros a b [Ha _]%elem_of_delete_where [Hb _]%elem_of_delete_where. auto.
Qed.

Lemma step_wf l l' : step l l' -> wf l -> wf l'.
Proof.
  destruct 1; [by apply wf_draw|by apply wf_end|by apply wf_open| |by apply wf_erase]. apply wf_rotate; auto; lia.
Qed.
Lemma steps_wf l l' : rtc step l l' -> wf l -> wf l'.
Proof. induction 1 as [|l1 l2 l3 Hs _ IH]; [done|]. intros. by eapply IH, step_wf. Qed.

(** ** What cannot be undone *)

(** Session [i] was held once, and if it still is, it is revoked. *)
Definition ended (i : Z) (l : ledger) : Prop :=
  i < fresh l /\ forall s, s ∈ held l -> session_id s = i -> session_active s = false.

Lemma step_ended i l l' : step l l' -> ended i l -> ended i l'.
Proof.
  intros Hs [Hi He]. split; [apply step_fresh in Hs; lia|]. destruct Hs; cbn in *.
  - done.
  - intros s (s0 & Hs0 & ->)%elem_of_update_where Hid. destruct (p s0); [done|auto].
  - intros x [Hx| ->%list_elem_of_singleton]%elem_of_app Hid; [auto|lia].
  - intros x (x0 & Hx0 & ->)%elem_of_update_where Hid. specialize (He x0 Hx0). by destruct (_ =? _); apply He.
  - intros x [Hx _]%elem_of_delete_where. auto.
Qed.
Lemma steps_ended i l l' : rtc step l l' -> ended i l -> ended i l'.
Proof. induction 1 as [|l1 l2 l3 Hs _ IH]; [done|]. intros. by eapply IH, step_ended. Qed.

(** Token [i] was issued once, and if it is still known, it is spent. *)
Definition spent (i : Z) (l : ledger) : Prop :=
  i < fresh l /\ forall k, k ∈ tokens l -> token_id k = i -> token_active k = false.
Lemma step_spent i l l' : step l l' -> spent i l -> spent i l'.
Proof.
  intros Hs [Hi He]. split; [apply step_fresh in Hs; lia|]. destruct Hs; cbn in *.
  - done.
  - intros k (k0 & Hk0 & ->)%elem_of_update_where Hid. destruct (_ && _); [done|auto].
  - intros x [Hx| ->%list_elem_of_singleton]%elem_of_app Hid; [auto|lia].
  - intros x [(x0 & Hx0 & ->)%elem_of_update_where| ->%list_elem_of_singleton]%elem_of_app Hid; [|lia].
    specialize (He x0 Hx0). destruct (_ =? _); [done|by apply He].
  - intros x [Hx _]%elem_of_delete_where. auto.
Qed.
Lemma steps_spent i l l' : rtc step l l' -> spent i l -> spent i l'.
Proof. induction 1 as [|l1 l2 l3 Hs _ IH]; [done|]. intros. by eapply IH, step_spent. Qed.

(** A session keeps its owner, device and expiry. *)
Definition same_session (s s' : UserSession) : Prop :=
  session_id s = session_id s' /\ session_user s = session_user s' /\ session_device s = session_device s' /\
  session_expires_at s = session_expires_at s' /\ (session_active s' = true -> session_active s = true).
Lemma step_same l l' s' : step l l' -> s' ∈ held l' -> session_id s' < fresh l -> exists s, s ∈ held l /\ same_session s s'.
Proof.
  assert (Hrefl : forall s, same_session s s) by done. destruct 1; cbn.
  - eauto.
  - intros (s0 & Hs0 & ->)%elem_of_update_where _. exists s0. split; [done|]. by destruct (p s0).
  - intros [Hx| ->%list_elem_of_singleton]%elem_of_app ?; [eauto|lia].
  - intros (x0 & Hx0 & ->)%elem_of_update_where _. exists x0. split; [done|]. by destruct (_ =? _).
  - intros [Hx _]%elem_of_delete_where. eauto.
Qed.
Lemma steps_same l l' s' :
  rtc step l l' -> s' ∈ held l' -> session_id s' < fresh l -> exists s, s ∈ held l /\ same_session s s'.
Proof.
  induction 1 as [|l1 l2 l3 Hs _ IH]; [by exists s'|]. intros Hin Hf.
  destruct (IH Hin) as (s & Hs2 & E1 & E2 & E3 & E4 & E5); [apply step_fresh in Hs; lia|].
  destruct (step_same _ _ _ Hs Hs2) as (s0 & Hs0 & F1 & F2 & F3 & F4 & F5); [lia|].
  exists s0. split; [done|]. unfold same_session. rewrite F1, F2, F3, F4. auto 10.
Qed.

End SessionLedger.
