(* ===== verification/UserSessions.v ===== *)
(** * User sessions: what the service guarantees

    Every operation of [nebula_api/auth/user_service.py] refines the session
    ledger; refresh-token rotation and reuse, and what ends a session. *)

From stdpp Require Import relations.
From S2P Require Import Prelude PyText PyBytes Json IpAddress Usage ApiStore AccessToken OpaqueToken RedisState XrayCredential Access AuthStore UserAuth SessionLedger.
Import Db AuthTx TxLogic SessionRevocation UserAuth SessionLedger.

Module UserSessions.

(** ** Steps of a transaction *)

Notation steps d d' := (rtc step (ledger_of d) (ledger_of d')).
Notation stepping := (fun d d' : DB => steps d d').
Notation traced := (TxLogic.traced (E := exn) stepping).

#[export] Instance stepping_rel : TxRel stepping.
Proof.
  split.
  - split; [intros d; apply rtc_refl|intros d1 d2 d3 H1 H2; by etrans].
  - intros d d' Hs. by apply steps_fresh in Hs.
  - intros d n Hn. apply rtc_once. by apply (Draw (ledger_of d)).
Qed.

Lemma traced_quiet (f : DB -> DB) w : ledger_of (f (db w)) = ledger_of (db w) -> traced (write (E := exn) f) w.
Proof. intros He. apply traced_write; [apply _|]. rewrite He. apply rtc_refl. Qed.
#[local] Hint Extern 5 (TxLogic.traced _ (write _) _) => (apply traced_quiet; reflexivity) : traced.

Lemma ledger_same db db' :
  auth db' = auth db -> next_id db' = next_id db -> ledger_of db' = ledger_of db.
Proof. intros Ha Hn. unfold ledger_of. by rewrite Ha, Hn. Qed.
Lemma contained_of_token {A} (r : result OpaqueToken.exn A) w : contained (of_token r) w.
Proof. split; [done|]. by destruct r. Qed.
#[local] Hint Resolve contained_of_token : contained.
Lemma traced_commit_and_raise {A} e w : traced (commit_and_raise e : T A) w.
Proof. apply traced_committed, _. Qed.
#[local] Hint Resolve @traced_commit_and_raise : traced.

(** *** What the ledger does not see *)

Definition same_people (db db' : DB) : Prop :=
  auth db' = auth db /\ next_id db' = next_id db /\ users db' = users db /\ devices db' = devices db.
Lemma revoke_credentials_people dev now db : same_people db (Access.revoke_device_credentials dev now db).2.
Proof.
  unfold same_people.
  assert (Hrows : forall m db n db', Access.revoke_rows m dev now db = (n, db') ->
    auth db' = auth db /\ next_id db' = next_id db /\ users db' = users db /\ devices db' = devices db).
  { intros m db0 n db' [= _ <-]. generalize (scalars (Access.revocable dev) (table m db0)). intros rows. revert db0.
    induction rows as [|r rows IH]; intros db0; [done|]. cbn [foldl].
    destruct (IH (Access.revoke_credential_row m now db0 r)) as (-> & -> & -> & ->). by destruct m. }
  unfold Access.revoke_device_credentials.
  destruct (Access.revoke_rows WireGuardPeer dev now db) as [n1 db1] eqn:H1.
  destruct (Access.revoke_rows XrayClient dev now db1) as [n2 db2] eqn:H2. cbn.
  apply Hrows in H1 as (<- & <- & <- & <-), H2 as (<- & <- & <- & <-). done.
Qed.
Lemma revoke_credentials_ledger dev now db :
  ledger_of (Access.revoke_device_credentials dev now db).2 = ledger_of db.
Proof. apply ledger_same; apply revoke_credentials_people. Qed.

Lemma erase_devices_auth now ds db :
  auth (foldl (Erasure.erase_one_device now) db ds) = auth db /\
  next_id (foldl (Erasure.erase_one_device now) db ds) = next_id db.
Proof.
  revert db. induction ds as [|d ds IH]; intros db; [done|]. cbn [foldl].
  destruct (IH (Erasure.erase_one_device now db d)) as [-> ->]. unfold Erasure.erase_one_device.
  destruct (Access.revoke_device_credentials (device_id d) now db) as [n db1] eqn:He.
  pose proof (revoke_credentials_people (device_id d) now db) as (Ha & Hn & _). rewrite He in Ha, Hn. done.
Qed.

(** *** The steps themselves *)

Lemma end_steps (ids : list Z) p now db :
  (forall s, p s = true -> session_id s ∈ ids) ->
  steps db (revoke_refresh_tokens ids now (revoke_sessions_where p now db)).
Proof. intros Hp. apply rtc_once. by apply (End_ (ledger_of db)). Qed.
Lemma end_tokens_steps (ids : list Z) now db : steps db (revoke_refresh_tokens ids now db).
Proof.
  pose proof (end_steps ids (fun _ => false) now db) as He. unfold ledger_of in *. cbn in *. unfold update_where at 1 in He.
  rewrite list_fmap_id in He. by apply He.
Qed.
Lemma revoke_session_steps s now db : steps db (revoke_session s now db).
Proof.
  unfold revoke_session. destruct (session_active s); [|apply end_tokens_steps].
  apply end_steps. intros x Hx. boolP. rewrite Hx. by left.
Qed.
Lemma revoke_device_steps dev now db : steps db (revoke_active_device_sessions dev now db).
Proof.
  unfold revoke_active_device_sessions. case_match; [apply rtc_refl|]. apply end_steps. intros s Hs. by boolP.
Qed.
Lemma revoke_all_steps user now db : steps db (revoke_all_user_sessions user now db).
Proof.
  unfold revoke_all_user_sessions. case_match; [apply rtc_refl|]. apply end_steps. intros s Hs. by boolP.
Qed.
Lemma revoke_others_steps user keep now db : steps db (revoke_other_sessions user keep now db).
Proof. unfold revoke_other_sessions. case_match; [apply rtc_refl|]. apply end_steps. intros s Hs. by boolP. Qed.

Lemma erase_account_ledger `{Erasure.PgLower} {E} (u : User) now db r db' :
  Erasure.erase_account (E := E) u now db = (r, db') ->
  r = Ok tt /\ steps db db'.
Proof.
  unfold Erasure.erase_account.
  destruct (erase_devices_auth now (scalars (fun d => device_user d =? user_id u) (devices db)) db) as [Ha Hn].
  destruct (foldl _ db _) as [] in *. cbn in Ha, Hn. subst. intros [= <- <-]. split; [done|].
  eapply rtc_l; [apply (Erase (ledger_of db) (user_id u))|]. apply rtc_once, Draw. cbn. lia.
Qed.
Lemma traced_erase `{Erasure.PgLower} (u : User) now w : traced (on_db (E := exn) (Erasure.erase_account u now)) w.
Proof.
  unfold traced, wp, on_db. destruct (Erasure.erase_account u now (db w)) as [r d] eqn:He.
  apply erase_account_ledger in He as [-> Hs]. cbn. split; [by apply steps_fresh in Hs|done].
Qed.
#[local] Hint Resolve traced_erase : traced.
#[local] Hint Extern 4 (TxLogic.traced _ (write _) _) =>
  (apply traced_write; [apply _|]; first [apply revoke_session_steps | apply revoke_device_steps | apply revoke_all_steps
                             | apply revoke_others_steps]) : traced.

(** ** The service *)

Section Service.
Context `{HMAC} `{JWT} `{Passwords.Argon2} `{Identity.EmailValidator} `{Erasure.PgLower}.
Context (settings : Settings) (token_peppers : list (Z * text)) (jwt_signer : signing_key)
  (verification_keys : list (text * verification_key)) (dummy_hash : text)
  (redis_keys : list (Z * text)) (redis_version : Z) (redis_prefix : text).

(** The row [_new_refresh_token] returns. *)
Definition refresh_row (id session expires created : Z) (d : OpaqueToken.OpaqueTokenDigest) : Token :=
  {| token_id := id; token_owner := session; token_version := OpaqueToken.key_version d;
     token_digest := OpaqueToken.value d; token_state := TokenState.ACTIVE; token_expires_at := expires;
     token_consumed_at := None; token_revoked_at := None; token_link := None; token_created_at := created |}.

(** [v] is a refresh token of this service and [d] its digest. *)
Definition digests (v : text) (d : OpaqueToken.OpaqueTokenDigest) : Prop :=
  OpaqueToken.digest_opaque_token v token_peppers (str "refresh") = Ok d.

Lemma of_token_ok {A} (r : result OpaqueToken.exn A) w a w' : of_token r w = (Ok a, w') -> r = Ok a /\ w' = w.
Proof. unfold of_token, lift. destruct r; intros; by simplify_eq. Qed.

Lemma new_refresh_token_ok session expires i random w v k w' :
  _new_refresh_token settings token_peppers session expires i random w = (Ok (v, k), w') ->
  exists d, digests v d /\
    k = refresh_row (default (next_id (db w)) i) session expires (db_now (db w)) d /\
    db w' = match i with Some _ => db w | None => with_next_id (next_id (db w) + 1) (db w) end.
Proof.
  intros (v0 & w1 & [_ ->]%of_token_ok & (d & w2 & [Hd ->]%of_token_ok & Hk)%bind_ok_inv)%bind_ok_inv.
  apply bind_ok_inv in Hk as (id & w3 & Hi & Hk). apply bind_ok_inv in Hk as (c & w4 & Hc & Hk).
  unfold read, gets in Hc. unfold mret, prog_ret in Hk. simplify_eq. exists d.
  split; [exact Hd|]. destruct i as [i|]; cbn in Hi; [unfold mret, prog_ret in Hi|]; by simplify_eq.
Qed.
Lemma contained_new_refresh session expires i random w :
  contained (_new_refresh_token settings token_peppers session expires i random) w.
Proof. unfold _new_refresh_token, issue_token, digest_token. contain. Qed.
Lemma contained_issue_access user session now w : contained (_issue_access settings jwt_signer user session now) w.
Proof. unfold _issue_access. contain. split; [done|]. cbn. by repeat case_match. Qed.

#[local] Hint Resolve contained_new_refresh contained_issue_access : contained.

Lemma issue_access_ok user session now w a w' :
  _issue_access settings jwt_signer user session now w = (Ok a, w') ->
  db w' = with_next_id (next_id (db w) + 1) (db w) /\
  AccessToken.issue_access_token user session (jwt_issuer settings) (jwt_audience settings) jwt_signer
    (jwt_key_id settings) (access_token_ttl_seconds settings) now (next_id (db w)) = Ok a.
Proof.
  unfold _issue_access. intros (j & w1 & Hj & Hl)%bind_ok_inv. unfold new_uuid, on_db, uuid4 in Hj. unfold lift in Hl.
  simplify_eq. split; [done|]. by case_match; simplify_eq.
Qed.


(** What a rotation that returns has done. *)
Lemma rotate_ok t s user now random w a v w' :
  rotate settings token_peppers jwt_signer t s user now random w = (Ok (a, v), w') ->
  exists d, digests v d /\
    let n := next_id (db w) in
    sessions (auth (db w')) = update session_id (session_id s) (set_last_seen now) (sessions (auth (db w))) /\
    refresh_tokens (auth (db w')) =
      update token_id (token_id t) (set_consumed now (Some n)) (refresh_tokens (auth (db w))) ++
      [refresh_row n (session_id s) (Z.min (token_expires_at t) (session_expires_at s)) (db_now (db w)) d] /\
    next_id (db w') = n + 2 /\
    exists ev, db w' = with_next_id (n + 2) (add_audit_event ev (with_sessions (sessions (auth (db w')))
                         (with_refresh_tokens (refresh_tokens (auth (db w'))) (db w)))).
Proof.
  unfold rotate. intros (i & w1 & [-> ->]%uuid_ok & (u1 & w2 & ->%write_ok & Hr)%bind_ok_inv)%bind_ok_inv.
  apply bind_ok_inv in Hr as ([v0 k] & w3 & (d & Hd & -> & Hw3)%new_refresh_token_ok & Hr).
  apply bind_ok_inv in Hr as (u2 & w4 & ->%write_ok & Hr). apply bind_ok_inv in Hr as (u3 & w5 & ->%write_ok & Hr).
  apply bind_ok_inv in Hr as (u4 & w6 & ->%write_ok & Hr). apply bind_ok_inv in Hr as (a0 & w7 & [Hw7 _]%issue_access_ok & Hr).
  unfold mret, prog_ret in Hr. simplify_eq. exists d. split; [done|]. rewrite Hw7. cbn in *. rewrite Hw3. cbn.
  split; [done|]. split; [done|]. split; [lia|]. replace (next_id (db w) + 2) with (next_id (db w) + 1 + 1) by lia. by eexists.
Qed.

Lemma traced_rotate t s user now random w :
  t ∈ refresh_tokens (auth (db w)) -> s ∈ sessions (auth (db w)) -> session_id s = token_owner t ->
  token_active t = true -> session_active s = true -> now < token_expires_at t -> now < session_expires_at s ->
  traced (rotate settings token_peppers jwt_signer t s user now random) w.
Proof.
  intros. apply traced_contained.
  - unfold rotate, _add_audit. contain.
  - intros [a v] w' (d & _ & Hs & Hk & Hn & _)%rotate_ok. apply rtc_once. unfold ledger_of at 2. rewrite Hs, Hk, Hn.
    apply (Rotate (ledger_of (db w)) t s
             (refresh_row (next_id (db w)) (session_id s) (Z.min (token_expires_at t) (session_expires_at s)) (db_now (db w)) d));
      cbn; try done; lia.
Qed.

(** Once its active sessions are revoked, a device has none. *)
Lemma device_sessions_revoked dev now db s :
  s ∈ sessions (auth (revoke_active_device_sessions dev now db)) -> session_active s = true -> session_device s <> dev.
Proof.
  unfold revoke_active_device_sessions. set (ids := session_id <$> _).
  assert (Hids : forall x, x ∈ sessions (auth db) -> session_active x = true -> session_device x = dev -> session_id x ∈ ids).
  { intros x Hx Ha Hd. apply list_elem_of_fmap_2, elem_of_scalars. rewrite Hd, Z.eqb_refl. done. }
  case_bool_decide as He.
  - intros Hs Ha Hd. specialize (Hids s Hs Ha Hd). rewrite He in Hids. by apply not_elem_of_nil in Hids.
  - cbn. intros (s0 & Hs0 & ->)%elem_of_update_where Ha Hd. case_bool_decide as Hin; [done|]. by apply Hin, Hids.
Qed.

Lemma open_session_ok user dev now random w a v w' :
  open_session settings token_peppers jwt_signer user dev now random w = (Ok (a, v), w') ->
  exists d s, digests v d /\
    let db1 := revoke_active_device_sessions dev now (db w) in
    let n := next_id (db w) in let e := now + refresh_token_ttl_days settings * DAY in
    s = {| session_id := n; session_user := user; session_device := dev; family_id := n + 1;
           session_state := LifecycleState.ACTIVE; session_expires_at := e; last_seen_at := Some now;
           session_revoked_at := None; session_created_at := db_now (db w) |} /\
    sessions (auth (db w')) = sessions (auth db1) ++ [s] /\
    refresh_tokens (auth (db w')) = refresh_tokens (auth db1) ++ [refresh_row (n + 2) n e (db_now (db w)) d] /\
    next_id (db w') = n + 4 /\ devices (db w') = devices (db w).
Proof.
  assert (Hn : forall db, next_id (revoke_active_device_sessions dev now db) = next_id db /\
                          db_now (revoke_active_device_sessions dev now db) = db_now db /\
                          devices (revoke_active_device_sessions dev now db) = devices db).
  { intros db. unfold revoke_active_device_sessions. by case_match. }
  unfold open_session. intros (u1 & w2 & ->%write_ok & Hr)%bind_ok_inv.
  apply bind_ok_inv in Hr as (i & w1 & [-> ->]%uuid_ok & (j & w2 & [-> ->]%uuid_ok & Hr)%bind_ok_inv).
  apply bind_ok_inv in Hr as (c & w3 & [= <- <-] & Hr). apply bind_ok_inv in Hr as (u2 & w4 & ->%write_ok & Hr).
  apply bind_ok_inv in Hr as ([v0 k] & w5 & (d & Hd & -> & Hw3)%new_refresh_token_ok & Hr).
  apply bind_ok_inv in Hr as (u3 & w6 & ->%write_ok & Hr).
  apply bind_ok_inv in Hr as (u4 & w7 & ->%write_ok & Hr). apply bind_ok_inv in Hr as (a0 & w8 & [Hw7 _]%issue_access_ok & Hr).
  unfold mret, prog_ret in Hr. simplify_eq. eexists d, _. split; [done|]. destruct (Hn (db w)) as (Hn1 & Hn2 & Hn3).
  rewrite Hw7. cbn in *. rewrite Hw3. cbn. rewrite Hn1, Hn2, Hn3. split; [done|]. split; [done|].
  replace (next_id (db w) + 1 + 1) with (next_id (db w) + 2) by lia. split; [done|]. split; [lia|done].
Qed.

Lemma traced_open_session user dev now random w : traced (open_session settings token_peppers jwt_signer user dev now random) w.
Proof.
  apply traced_contained.
  - unfold open_session, _add_audit. apply contained_bind; [apply contained_write|intros _ ?; contain].
    unfold revoke_active_device_sessions. by case_match.
  - intros [a v] w' (d & s & _ & Hsv & Hs & Hk & Hn & _)%open_session_ok. etrans; [apply (revoke_device_steps dev now)|].
    apply rtc_once. unfold ledger_of at 2. rewrite Hs, Hk, Hn.
    assert (next_id (revoke_active_device_sessions dev now (db w)) = next_id (db w)) as Hf
      by (unfold revoke_active_device_sessions; by case_match).
    apply (Open (ledger_of (revoke_active_device_sessions dev now (db w)))); subst s; cbn; rewrite ?Hf; try done; try lia.
    intros x. apply device_sessions_revoked.
Qed.
#[local] Hint Resolve traced_open_session : traced.

Notation requireT := (_require_rate_limit settings redis_keys redis_version redis_prefix).
Lemma traced_audit who k t c o r w : traced (_add_audit who k t c o r) w.
Proof. by apply traced_quiet. Qed.
#[local] Hint Resolve traced_audit : traced.
Lemma traced_require buckets limit request w : traced (requireT buckets limit request) w.
Proof. unfold _require_rate_limit, rate_limit. trace. Qed.
#[local] Hint Resolve traced_require : traced.
Lemma traced_of_token {A} (r : result OpaqueToken.exn A) w : traced (of_token r) w.
Proof. apply traced_lift, _. Qed.
#[local] Hint Resolve traced_of_token : traced.

Lemma traced_check_credentials identifier password prefix request now w :
  traced (check_credentials settings dummy_hash redis_keys redis_version redis_prefix identifier password prefix request now) w.
Proof. unfold check_credentials. trace. Qed.
Lemma traced_upgrade_hash u password salt w : traced (upgrade_hash u password salt) w.
Proof. unfold upgrade_hash, hash_password, reject. trace. Qed.
Lemma traced_register_device u name plat version hw request w :
  traced (register_device settings token_peppers u name plat version hw request) w.
Proof. unfold register_device, hash_hardware. trace. Qed.
#[local] Hint Resolve traced_register_device : traced.
Lemma traced_resolve_device u dev name plat version hw request w :
  traced (_resolve_device settings token_peppers u dev name plat version hw request) w.
Proof. unfold _resolve_device, _reuse_by_hardware, _backfill_hardware, hash_hardware. trace. Qed.
Lemma traced_confirm_password p password request now w :
  traced (_confirm_password settings dummy_hash redis_keys redis_version redis_prefix p password request now) w.
Proof. unfold _confirm_password. trace. Qed.
#[local] Hint Resolve traced_check_credentials traced_upgrade_hash traced_resolve_device traced_confirm_password : traced.


Lemma traced_end_session {A} s now code_ reason w : traced (end_session s now code_ reason : T A) w.
Proof. unfold end_session. trace. Qed.
#[local] Hint Resolve @traced_end_session : traced.

Lemma traced_refresh_body d request now random w :
  traced (refresh_body settings token_peppers jwt_signer d request now random) w.
Proof.
  unfold refresh_body. apply traced_bind; [apply _|trace|]. intros tok w1 [Ht ->]%read_ok _. destruct tok as [t|]; [|trace].
  apply traced_bind; [apply _|trace|]. intros ses w1 [Hs ->]%read_ok _. destruct ses as [s|]; [|unfold reject; trace].
  case_bool_decide; [trace|]. apply traced_bind; [apply _|trace|]. intros u w1 [_ ->]%read_ok _.
  apply traced_bind; [apply _|trace|]. intros dv w1 [_ ->]%read_ok _.
  destruct (_refresh_is_eligible t s u dv now) eqn:He; cbn [negb]; [|trace].
  unfold _refresh_is_eligible, _session_is_eligible in He. boolP. symmetry in Ht, Hs.
  apply scalar_Some in Ht as [Ht _], Hs as [Hs Hid]. boolP.
  destruct u as [u|]; [|unfold reject; trace]. apply traced_bind; [apply _| |trace]. by apply traced_rotate.
Qed.

(** ** Every operation *)

Definition moves {A} (m : M A) : Prop := forall w, steps (db w) (db (m w).2).

Lemma moves_ret {A} (a : A) : moves (mret a).
Proof. intros w. apply rtc_refl. Qed.
Lemma moves_raise {A} e : moves (raise e : M A).
Proof. intros w. apply rtc_refl. Qed.
Lemma moves_bind {A B} (m : M A) (f : A -> M B) : moves m -> (forall a, moves (f a)) -> moves (m ≫= f).
Proof.
  intros Hm Hf w. specialize (Hm w). unfold mbind, prog_bind. destruct (m w) as [[a|e] w1]; [|done]. etrans; [done|apply Hf].
Qed.
Lemma moves_transact {A} e (m : T A) : (forall w, traced m w) -> moves (transact e m).
Proof. intros Hm w. by apply (transact_traced stepping). Qed.
Lemma moves_rate_limit buckets limit :
  moves (_require_rate_limit_without_session settings redis_keys redis_version redis_prefix buckets limit).
Proof.
  apply moves_bind; [|intros []; [apply moves_ret|apply moves_raise]]. intros w. unfold outside, rate_limit, on_redis.
  by destruct (RedisState.rate_limit _ _ _ _ _ _ _) as [[a|e] c].
Qed.
Lemma moves_hash password salt : moves (outside (hash_password password salt)).
Proof. intros w. unfold outside, hash_password, lift. apply rtc_refl. Qed.

(** A request to the service. *)
Inductive call :=
| Login (identifier password : text) (device : option Z) (name : text) (plat : DevicePlatform.t)
    (version network_prefix : text) (request : Z) (hardware_id : option text) (now : Z) (random salt : text)
| Refresh (token : text) (request now : Z) (random : text)
| Logout (token : text) (now : Z)
| Authenticate (token : text) (now : Z)
| RequestPasswordReset (identifier network_prefix : text) (request : Z) (enable_delivery : bool) (now : Z) (random : text)
| ConfirmPasswordReset (raw_token new_password network_prefix : text) (now : Z) (salt : text)
| ChangePassword (p : AuthenticatedUser) (current_password new_password : text) (request now : Z) (salt : text)
| DeleteAccount (p : AuthenticatedUser) (password : text) (request now : Z).

Notation login := (login settings token_peppers jwt_signer dummy_hash redis_keys redis_version redis_prefix).
Notation refresh := (refresh settings token_peppers jwt_signer redis_keys redis_version redis_prefix).
Notation logout := (logout token_peppers).
Notation authenticate_access_token := (authenticate_access_token settings verification_keys).
Notation request_password_reset := (request_password_reset settings token_peppers redis_keys redis_version redis_prefix).
Notation confirm_password_reset := (confirm_password_reset settings token_peppers redis_keys redis_version redis_prefix).
Notation change_password := (change_password settings dummy_hash redis_keys redis_version redis_prefix).
Notation delete_account := (delete_account settings dummy_hash redis_keys redis_version redis_prefix).

Definition perform (c : call) (w : world) : world :=
  match c with
  | Login i p d n pl v np r h now rnd salt => (login i p d n pl v np r h now rnd salt w).2
  | Refresh t r now rnd => (refresh t r now rnd w).2
  | Logout t now => (logout t now w).2
  | Authenticate t now => (authenticate_access_token t now w).2
  | RequestPasswordReset i np r e now rnd => (request_password_reset i np r e now rnd w).2
  | ConfirmPasswordReset t p np now salt => (confirm_password_reset t p np now salt w).2
  | ChangePassword a p q r now salt => (change_password a p q r now salt w).2
  | DeleteAccount a p r now => (delete_account a p r now w).2
  end.
Definition perform_all (cs : list call) (w : world) : world := foldl (fun w c => perform c w) w cs.

Lemma perform_steps c w : steps (db w) (db (perform c w)).
Proof.
  destruct c; cbn [perform].
  - apply moves_transact. intros. trace.
  - unfold refresh. eapply moves_bind; [apply moves_rate_limit|]. intros _. case_match.
    + apply moves_transact. intros. apply traced_refresh_body.
    + apply moves_bind; [|intros _; apply moves_raise]. apply moves_transact. intros. trace.
  - unfold logout. case_match; [|apply moves_ret]. apply moves_transact. intros. unfold logout_body. trace.
    apply traced_quiet, revoke_credentials_ledger.
  - unfold authenticate_access_token. case_match; [|apply moves_raise]. apply moves_transact. intros.
    unfold _load_principal, reject. trace.
  - apply moves_transact. intros. unfold issue_reset, issue_token, digest_token. trace.
  - unfold confirm_password_reset. eapply moves_bind; [apply moves_rate_limit|]. intros _.
    eapply moves_bind; [apply moves_rate_limit|]. intros _. eapply moves_bind; [apply moves_hash|]. intros h.
    case_match; [|apply moves_raise]. apply moves_transact. intros. unfold reset_body, reject. trace.
  - eapply moves_bind; [apply moves_hash|]. intros h. apply moves_transact. intros. trace.
  - apply moves_transact. intros. trace.
Qed.

Lemma perform_all_steps (cs : list call) w : steps (db w) (db (perform_all cs w)).
Proof.
  revert w. induction cs as [|c cs IH]; intros w; [apply rtc_refl|]. etrans; [apply (perform_steps c)|]. apply IH.
Qed.

(** Every operation of the service, whatever it is asked and whatever Redis
    does, and any sequence of them, changes sessions and refresh tokens only by
    the ledger's transitions: drawing identifiers, ending sessions with their
    tokens, opening a session with one token, rotating a token, erasing an account. *)
Theorem service_refines_ledger (cs : list call) w : rtc step (ledger_of (db w)) (ledger_of (db (perform_all cs w))).
Proof. apply perform_all_steps. Qed.

(** C13: whatever sequence of operations runs, the session and refresh-token
    tables stay well formed: identifiers unique, the rows' [CHECK] constraints
    hold, every token belongs to a session that outlives it and is active only
    while the session is, a spent token is linked to a successor of the same
    session, and there is one active token a session and one active session a
    device, so the partial unique indexes are never what stops a commit. *)
Theorem sessions_stay_well_formed (cs : list call) w : wf (ledger_of (db w)) -> wf (ledger_of (db (perform_all cs w))).
Proof. intros Hwf. eapply steps_wf; [apply perform_all_steps|done]. Qed.

(** ** What a call that returns has done *)


Lemma session_rate_limit_ok buckets limit w u w' :
  _require_rate_limit_without_session settings redis_keys redis_version redis_prefix buckets limit w = (Ok u, w') ->
  db w' = db w.
Proof.
  unfold _require_rate_limit_without_session. intros (a & w1 & Ha & Hr)%bind_ok_inv.
  assert (db w1 = db w) as <-.
  { unfold outside, rate_limit, on_redis in Ha. destruct (RedisState.rate_limit _ _ _ _ _ _ _) as [[x|e] c]; by simplify_eq. }
  destruct a; [unfold mret, prog_ret in Hr|unfold raise in Hr]; by simplify_eq.
Qed.

(** The row a refresh token names. *)
Definition token_row (v : text) (db : DB) : option Token :=
  d ← digest_or_none token_peppers v (str "refresh"); scalar (by_digest d) (refresh_tokens (auth db)).

Lemma refresh_ok v request now random w pair w' :
  refresh v request now random w = (Ok pair, w') ->
  exists t s u a w0, token_row v (db w) = Some t /\ get_session (token_owner t) (db w) = Some s /\
    _refresh_is_eligible t s (Some u) (get_device (session_device s) (db w)) now = true /\
    get_user (session_user s) (db w) = Some u /\ db w0 = db w /\
    rotate settings token_peppers jwt_signer t s (user_id u) now random w0 = (Ok (a, refresh_token pair), w') /\
    constraints (db w') && auth_constraints (db w') = true.
Proof.
  unfold refresh, token_row. intros (u0 & w0 & Hw%session_rate_limit_ok & Hr)%bind_ok_inv.
  destruct (digest_or_none token_peppers v (str "refresh")) as [d|]; cbn [mbind option_bind].
  2: { apply bind_ok_inv in Hr as (? & ? & _ & Hr). unfold raise in Hr. by simplify_eq. }
  apply transact_ok in Hr as [Hr Hc]. unfold refresh_body in Hr.
  apply bind_ok_inv in Hr as (t & w1 & [Ht ->]%read_ok & Hr). destruct t as [t|].
  2: { apply bind_ok_inv in Hr as (? & ? & _ & Hr). unfold commit_and_raise, raise in Hr. by simplify_eq. }
  apply bind_ok_inv in Hr as (s & w1 & [Hs ->]%read_ok & Hr). destruct s as [s|]; [|unfold reject, raise in Hr; by simplify_eq].
  assert (Hend : forall c r w2, end_session s now c r w0 <> (Ok pair, w2)).
  { intros c r w2 (? & ? & _ & (? & ? & _ & Hx)%bind_ok_inv)%bind_ok_inv. unfold commit_and_raise, raise in Hx. by simplify_eq. }
  case_bool_decide; [by apply Hend in Hr|].
  apply bind_ok_inv in Hr as (u & w1 & [Hu ->]%read_ok & Hr). apply bind_ok_inv in Hr as (dv & w1 & [Hd ->]%read_ok & Hr).
  destruct (_refresh_is_eligible t s u dv now) eqn:He; cbn [negb] in Hr; [|by apply Hend in Hr].
  destruct u as [u|]; [|unfold reject, raise in Hr; by simplify_eq].
  apply bind_ok_inv in Hr as ([a v'] & w1 & Hrot & Hr). unfold mret, prog_ret in Hr. simplify_eq.
  rewrite Hw in *. exists t, s, u, a, w0. done.
Qed.

(** The unique index on digests: a digest finds its row. *)
Lemma by_digest_last d rows k :
  unique always token_digest (rows ++ [k]) = true -> by_digest d k = true -> scalar (by_digest d) (rows ++ [k]) = Some k.
Proof.
  unfold unique, scalars, always. rewrite filter_app, fmap_app, !filter_id by (by apply Forall_forall). intros Hu Hk. boolP.
  rewrite scalar_app_None; [cbn; by rewrite Hk|]. apply scalar_None, Forall_forall. intros x Hx.
  destruct (by_digest d x) eqn:He; [|done]. exfalso. apply NoDup_app in Hu as (_ & Hu & _).
  unfold by_digest in Hk, He. boolP. apply (Hu (token_digest x)); [by apply list_elem_of_fmap_2|].
  apply list_elem_of_singleton. congruence.
Qed.

(** C12: a refresh that returns was given a token that is active and unexpired,
    of a session that is active and unexpired, of an account and a device in good
    standing; it leaves that token spent, linked to its successor, and hands out
    the successor: a token of the same session, ending no later than the one it
    replaces and than the session.  The rest of the database is as it was: besides
    the two tokens it writes one audit event and the time the session was last
    seen, and draws two identifiers. *)
Theorem refresh_rotates v request now random w pair w' :
  refresh v request now random w = (Ok pair, w') ->
  exists t s k, token_row v (db w) = Some t /\ s ∈ sessions (auth (db w)) /\ session_id s = token_owner t /\
    token_active t = true /\ now < token_expires_at t /\ session_active s = true /\ now < session_expires_at s /\
    (exists u dv, get_user (session_user s) (db w) = Some u /\ _user_can_authenticate u now = true /\
                  get_device (session_device s) (db w) = Some dv /\ device_active dv = true /\ device_user dv = user_id u) /\
    refresh_tokens (auth (db w')) = update token_id (token_id t) (set_consumed now (Some (token_id k)))
                                      (refresh_tokens (auth (db w))) ++ [k] /\
    token_row (refresh_token pair) (db w') = Some k /\ token_active k = true /\ token_owner k = token_owner t /\
    token_expires_at k <= token_expires_at t /\ token_expires_at k <= session_expires_at s /\
    exists ev, db w' = with_next_id (next_id (db w) + 2) (add_audit_event ev
      (with_sessions (update session_id (session_id s) (set_last_seen now) (sessions (auth (db w))))
        (with_refresh_tokens (refresh_tokens (auth (db w'))) (db w)))).
Proof.
  intros (t & s & u & a & w0 & Ht & Hs & He & Hu & Hw & (d & Hd & Hses & Htok & Hn & Hall)%rotate_ok & Hc)%refresh_ok.
  rewrite Hw in *. unfold _refresh_is_eligible, _session_is_eligible in He. boolP.
  apply scalar_Some in Hs as [Hs Hid]. boolP.
  destruct (get_device (session_device s) (db w)) as [dv|] eqn:Hdv; [|done]. boolP.
  eexists t, s, _. do 7 (split; [done|]). split; [by exists u, dv|]. split; [exact Htok|]. split.
  { unfold token_row, digest_or_none. rewrite Hd. cbn [mbind option_bind]. unfold auth_constraints in *. boolP.
    rewrite Htok in *. apply by_digest_last; [done|]. unfold by_digest. cbn. by rewrite Z.eqb_refl, bool_decide_eq_true_2. }
  cbn -[update]. split; [done|]. split; [done|]. split; [lia|]. split; [lia|].
  destruct Hall as [ev Hall]. exists ev. by rewrite Hses in Hall.
Qed.
(** ** Ended sessions *)

Lemma session_row_id s (db : DB) :
  wf (ledger_of db) -> s ∈ sessions (auth db) -> forall x, x ∈ sessions (auth db) -> session_id x = session_id s -> x = s.
Proof. intros Hwf Hs x Hx He. apply (same_id session_id (sessions (auth db))); [apply (wf_session_ids _ Hwf)|done..]. Qed.

Lemma revoke_session_ended s now db :
  wf (ledger_of db) -> s ∈ sessions (auth db) -> ended (session_id s) (ledger_of (revoke_session s now db)).
Proof.
  intros Hwf Hs. split.
  { pose proof (wf_session_fresh _ Hwf) as Hf. rewrite Forall_forall in Hf. specialize (Hf s Hs). cbn in *.
    unfold revoke_session. by destruct (session_active s). }
  intros x Hx He. unfold revoke_session in Hx. destruct (session_active s) eqn:Ha.
  - cbn in Hx. apply elem_of_update_where in Hx as (x0 & Hx0 & ->). destruct (_ =? _) eqn:Hid; [done|]. boolP. done.
  - rewrite (session_row_id s db Hwf Hs x Hx He). done.
Qed.

Lemma end_constraints ids p now db :
  consistent db -> consistent (revoke_sessions_where p now db) /\ consistent (revoke_refresh_tokens ids now db).
Proof.
  intros [Hc Ha]%andb_true_iff. unfold consistent. rewrite !andb_true_iff.
  split; (split; [exact Hc|]); unfold auth_constraints in *; boolP; cbn; rewrite !andb_true_iff;
    repeat split; try done; by apply unique_update_where.
Qed.
Lemma revoke_session_consistent s now db : consistent db -> consistent (revoke_session s now db).
Proof.
  intros Hc. unfold revoke_session. apply (end_constraints _ (fun _ => false) now).
  destruct (session_active s); [by apply (end_constraints [])|done].
Qed.
Lemma audit_consistent ev db : consistent db -> consistent (add_audit_event ev db).
Proof. done. Qed.

Lemma rate_limit_pass buckets limit w c :
  RedisState.rate_limit redis_keys redis_version redis_prefix buckets limit (auth_rate_window_seconds settings) (redis w)
    = (Ok true, c) ->
  _require_rate_limit_without_session settings redis_keys redis_version redis_prefix buckets limit w
    = (Ok tt, {| db := db w; redis := c |}).
Proof.
  intros Hr. unfold _require_rate_limit_without_session. erewrite (bind_ok _ _ _ true); [reflexivity|].
  unfold outside, rate_limit, on_redis. by rewrite Hr.
Qed.

(** Once a session has ended no token of it is active. *)
Lemma ended_tokens i l k : wf l -> ended i l -> k ∈ tokens l -> token_owner k = i -> token_active k = false.
Proof.
  intros Hwf [_ He] Hk Ho. pose proof (wf_owned _ Hwf) as Hw. rewrite Forall_forall in Hw.
  destruct (Hw k Hk) as (s & Hs & Hid & _ & Ha). destruct (token_active k); [|done].
  rewrite (He s Hs) in Ha by congruence. by specialize (Ha eq_refl).
Qed.

Lemma refresh_reused v request now random w t s c :
  consistent (db w) -> token_row v (db w) = Some t -> token_state t = TokenState.CONSUMED ->
  get_session (token_owner t) (db w) = Some s ->
  RedisState.rate_limit redis_keys redis_version redis_prefix [bucket (str "refresh-token") v] (user_login_rate_limit settings)
    (auth_rate_window_seconds settings) (redis w) = (Ok true, c) ->
  exists ev, refresh v request now random w =
    (Err AuthenticationRejected, {| db := add_audit_event ev (revoke_session s now (db w)); redis := c |}).
Proof.
  intros Hc Ht Hst Hget Hrate. unfold token_row in Ht. unfold refresh. rewrite (bind_ok _ _ _ _ _ (rate_limit_pass _ _ _ _ Hrate)).
  destruct (digest_or_none token_peppers v (str "refresh")) as [d|]; [|done]. cbn [mbind option_bind] in Ht.
  eexists. unfold transact.
  assert (Hbody : refresh_body settings token_peppers jwt_signer d request now random {| db := db w; redis := c |} =
    (Err (Committed AuthenticationRejected), {| db := add_audit_event
       {| actor := by_user (session_user s); ev_target_kind := user_session; ev_target_id := session_id s;
          event_code := str "refresh_reuse_detected"; outcome := denied; reason_code := Some (str "token_reused") |}
       (revoke_session s now (db w)); redis := c |})).
  { unfold refresh_body. erewrite bind_ok by reflexivity. cbn [db]. rewrite Ht. erewrite bind_ok by reflexivity. cbn [db].
    rewrite Hget, bool_decide_eq_true_2 by done. reflexivity. }
  rewrite Hbody. unfold commit. cbn [db].
  assert (consistent (add_audit_event {| actor := by_user (session_user s); ev_target_kind := user_session;
            ev_target_id := session_id s; event_code := str "refresh_reuse_detected"; outcome := denied;
            reason_code := Some (str "token_reused") |} (revoke_session s now (db w)))) as Hc'
    by by apply audit_consistent, revoke_session_consistent.
  unfold consistent in Hc'. rewrite Hc'. reflexivity.
Qed.

(** C7: presenting a refresh token that was spent before is rejected and ends
    the session it belongs to, for good: after any further operations the session
    is not active and none of its tokens is, the thief's or the owner's. *)
Theorem reuse_ends_the_session v request now random w t c :
  wf (ledger_of (db w)) -> consistent (db w) ->
  token_row v (db w) = Some t -> token_state t = TokenState.CONSUMED ->
  RedisState.rate_limit redis_keys redis_version redis_prefix [bucket (str "refresh-token") v] (user_login_rate_limit settings)
    (auth_rate_window_seconds settings) (redis w) = (Ok true, c) ->
  exists w', refresh v request now random w = (Err AuthenticationRejected, w') /\
    forall cs, let l := ledger_of (db (perform_all cs w')) in
      ended (token_owner t) l /\ forall k, k ∈ tokens l -> token_owner k = token_owner t -> token_active k = false.
Proof.
  intros Hwf Hc Ht Hst Hrate.
  assert (Hin : t ∈ refresh_tokens (auth (db w))).
  { unfold token_row in Ht. destruct (digest_or_none _ _ _); [|done]. by apply scalar_Some in Ht as [? _]. }
  pose proof (wf_owned _ Hwf) as Ho. rewrite Forall_forall in Ho. destruct (Ho t Hin) as (s & Hs & Hid & _ & _).
  destruct (refresh_reused v request now random w t s c) as [ev Hrun]; try done.
  { unfold get_session. rewrite <- Hid. apply scalar_id; [apply (wf_session_ids _ Hwf)|done]. }
  eexists. split; [exact Hrun|]. intros cs l.
  assert (Hst' : rtc step (ledger_of (revoke_session s now (db w))) l) by exact (perform_all_steps cs {| db := add_audit_event ev (revoke_session s now (db w)); redis := c |}).
  assert (Hend : ended (token_owner t) l).
  { eapply steps_ended; [exact Hst'|]. rewrite <- Hid. by apply revoke_session_ended. }
  split; [done|]. intros k. apply ended_tokens; [|done]. eapply steps_wf; [exact Hst'|].
  eapply steps_wf; [apply revoke_session_steps|done].
Qed.
Lemma authenticate_ok tok now w p w' :
  authenticate_access_token tok now w = (Ok p, w') ->
  exists c s u dv,
    AccessToken.decode_access_token tok (jwt_issuer settings) (jwt_audience settings) verification_keys now = Ok c /\
    p = {| principal_user := AccessToken.subject_id c; principal_session := AccessToken.session_id c;
           principal_device := session_device s |} /\ w' = w /\
    s ∈ sessions (auth (db w)) /\ session_id s = AccessToken.session_id c /\ session_user s = AccessToken.subject_id c /\
    session_active s = true /\ now < session_expires_at s /\
    get_user (session_user s) (db w) = Some u /\ _user_can_authenticate u now = true /\
    get_device (session_device s) (db w) = Some dv /\ device_active dv = true /\ device_user dv = user_id u.
Proof.
  unfold authenticate_access_token. destruct (AccessToken.decode_access_token _ _ _ _ _) as [c|] eqn:Hd; [|done].
  intros [Hl _]%transact_ok. unfold _load_principal in Hl.
  apply bind_ok_inv in Hl as (s & w1 & [Hs ->]%read_ok & Hl). destruct s as [s|]; [|done].
  apply bind_ok_inv in Hl as (u & w1 & [Hu ->]%read_ok & Hl). apply bind_ok_inv in Hl as (dv & w1 & [Hdv ->]%read_ok & Hl).
  destruct (_session_is_eligible s u dv now) eqn:He; [|done]. cbn [negb] in Hl. unfold mret, prog_ret in Hl.
  unfold _session_is_eligible in He. boolP. destruct u as [u|]; [|done]. boolP. destruct dv as [dv|]; [|done]. boolP.
  symmetry in Hs. apply scalar_Some in Hs as [Hs [Hid Hus]%andb_true_iff]. boolP.
  injection Hl as <- <-. exists c, s, u, dv. rewrite Hus. done.
Qed.
(** C14: a principal comes only from a token some configured key's owner signed,
    naming this very account and session, and only while that session is active
    and unexpired, its account may authenticate and its device is the account's
    and active; asking changes nothing. *)
Theorem principal_is_genuine tok now w p w' :
  (forall key_id key, dict_get key_id verification_keys = Some key -> exists signer, key = public_of signer) ->
  authenticate_access_token tok now w = (Ok p, w') ->
  w' = w /\
  (exists signer kid claims typ, (exists key_id, dict_get key_id verification_keys = Some (public_of signer)) /\
     tok = jwt_encode claims signer kid typ /\
     dict_get (str "sub") claims = Some (JStr (str_uuid (principal_user p))) /\
     dict_get (str "sid") claims = Some (JStr (str_uuid (principal_session p)))) /\
  exists s u dv, s ∈ sessions (auth (db w)) /\ session_id s = principal_session p /\ session_user s = principal_user p /\
    session_device s = principal_device p /\ session_active s = true /\ now < session_expires_at s /\
    get_user (principal_user p) (db w) = Some u /\ _user_can_authenticate u now = true /\
    get_device (principal_device p) (db w) = Some dv /\ device_active dv = true /\ device_user dv = user_id u.
Proof.
  intros Hkeys (c & s & u & dv & Hd & -> & -> & Hs & Hid & Hus & Ha & He & Hu & Hcan & Hdv & Hact & Hown)%authenticate_ok.
  split; [done|]. split.
  - destruct (AccessToken.access_token_sound _ _ _ _ _ _ Hkeys Hd) as (signer & kid & cl & typ & Hk & Ht & Hsub & Hsid & _).
    by exists signer, kid, cl, typ.
  - exists s, u, dv. cbn. rewrite Hus in Hu. done.
Qed.

Definition useless (i : Z) (w : world) : Prop :=
  (forall tok now p w', authenticate_access_token tok now w = (Ok p, w') -> principal_session p <> i) /\
  (forall v request now random pair w' t, token_row v (db w) = Some t -> token_owner t = i ->
     refresh v request now random w <> (Ok pair, w')).

Lemma ended_useless i w : ended i (ledger_of (db w)) -> useless i w.
Proof.
  intros [_ He]. split.
  - intros tok now p w' (c & s & u & dv & _ & -> & _ & Hs & Hid & _ & Ha & _)%authenticate_ok Hi. cbn in Hi.
    rewrite (He s Hs) in Ha by congruence. done.
  - intros v request now random pair w' t Ht Ho (t' & s & u & a & w0 & Ht' & Hs & Hel & _)%refresh_ok.
    rewrite Ht in Ht'. injection Ht' as <-. unfold _refresh_is_eligible, _session_is_eligible in Hel. boolP.
    apply scalar_Some in Hs as [Hs Hid]. boolP. rewrite (He s Hs) in * by congruence. done.
Qed.

(** C8: a session that has ended never comes back: after any operations no access
    token authenticates as it and no refresh token of it refreshes. *)
Theorem ended_session_never_returns i cs w : ended i (ledger_of (db w)) -> useless i (perform_all cs w).
Proof. intros He. apply ended_useless. eapply steps_ended; [apply perform_all_steps|done]. Qed.

Lemma db_wf_sessions s now db : db_wf db -> db_wf (revoke_session s now db).
Proof. intros [[] ?]. unfold revoke_session. by destruct (session_active s); repeat constructor. Qed.

Lemma logout_run v now w t s :
  wf (ledger_of (db w)) -> db_wf (db w) -> auth_constraints (db w) = true ->
  token_row v (db w) = Some t -> get_session (token_owner t) (db w) = Some s ->
  exists ev, logout v now w =
    (Ok tt, with_db (add_audit_event ev
              (Access.revoke_device_credentials (session_device s) now (revoke_session s now (db w))).2) w).
Proof.
  intros Hwf Hdb Hauth Ht Hs. unfold logout. unfold token_row in Ht.
  destruct (digest_or_none token_peppers v (str "refresh")) as [d|]; [|done]. cbn [mbind option_bind] in Ht.
  eexists. unfold transact. set (db' := Access.revoke_device_credentials _ _ _).
  assert (Hbody : logout_body d now w =
    (Ok tt, with_db (add_audit_event {| actor := by_user (session_user s); ev_target_kind := user_session;
               ev_target_id := session_id s; event_code := str "session_revoked"; outcome := succeeded;
               reason_code := None |} db'.2) w)).
  { unfold logout_body. erewrite bind_ok by reflexivity. rewrite Ht. erewrite bind_ok by reflexivity. rewrite Hs. reflexivity. }
  rewrite Hbody. unfold commit. cbn [db with_db].
  enough (consistent db'.2) as Hc by (unfold consistent in Hc; change (constraints (add_audit_event ?e ?d)) with (constraints d);
    change (auth_constraints (add_audit_event ?e ?d)) with (auth_constraints d); rewrite Hc; reflexivity).
  apply andb_true_iff. split.
  - apply wf_constraints. subst db'. rewrite Access.revoke_device_both. apply Access.revoke_both_spec; [by apply db_wf_sessions|].
    apply Access.revocable_live.
  - destruct (revoke_credentials_people (session_device s) now (revoke_session s now (db w))) as (Ha & _ & Hu & Hd).
    assert (Access.same_frame (revoke_session s now (db w)) db'.2) as (_ & _ & Hp & Hv & _ & Hpm & Has & _).
    { subst db'. rewrite Access.revoke_device_both. apply Access.revoke_both_spec; [by apply db_wf_sessions|apply Access.revocable_live]. }
    unfold auth_constraints, people_constraints, grant_constraints. rewrite Hp, Hv, Hpm, Has. subst db'. rewrite Ha, Hu, Hd.
    assert (consistent (db w)) as Hc by (apply andb_true_iff; split; [apply wf_constraints, Hdb|done]).
    apply (revoke_session_consistent s now) in Hc. by apply andb_true_iff in Hc as [_ Hc].
Qed.

(** Signing out with a refresh token, spent or not, always succeeds, ends its
    session for good, and leaves the device no peer or client that reconciliation
    would not remove. *)
Theorem logout_ends_the_session v now w t s :
  wf (ledger_of (db w)) -> db_wf (db w) -> auth_constraints (db w) = true ->
  token_row v (db w) = Some t -> get_session (token_owner t) (db w) = Some s ->
  exists w', logout v now w = (Ok tt, w') /\
    (forall cs, useless (session_id s) (perform_all cs w')) /\
    (forall r, r ∈ all_rows (db w') -> Access.revocable (session_device s) r = false).
Proof.
  intros Hwf Hdb Hauth Ht Hs. destruct (logout_run v now w t s) as [ev Hrun]; try done.
  eexists. split; [exact Hrun|]. apply scalar_Some in Hs as [Hs _]. split.
  - intros cs. apply ended_useless. eapply steps_ended; [apply perform_all_steps|].
    change (ledger_of _) with (ledger_of (Access.revoke_device_credentials (session_device s) now (revoke_session s now (db w))).2).
    rewrite revoke_credentials_ledger. by apply revoke_session_ended.
  - cbn [db with_db]. intros r Hr. apply (Access.revoke_device_leaves_none (session_device s) now (revoke_session s now (db w)));
      [by apply db_wf_sessions|]. rewrite Access.revoke_device_both in Hr. exact Hr.
Qed.

(** *** Passwords *)

Lemma revoke_all_ended user now db s :
  wf (ledger_of db) -> s ∈ sessions (auth db) -> session_user s = user ->
  ended (session_id s) (ledger_of (revoke_all_user_sessions user now db)).
Proof.
  intros Hwf Hs Hu. split.
  { pose proof (wf_session_fresh _ Hwf) as Hf. rewrite Forall_forall in Hf. specialize (Hf s Hs). cbn in *.
    unfold revoke_all_user_sessions. by case_match. }
  unfold revoke_all_user_sessions. set (ids := session_id <$> _).
  assert (Hin : session_id s ∈ ids).
  { apply list_elem_of_fmap_2, elem_of_scalars. by rewrite Hu, Z.eqb_refl. }
  rewrite bool_decide_eq_false_2 by (intros Hn; rewrite Hn in Hin; by apply not_elem_of_nil in Hin).
  cbn. intros x (x0 & Hx0 & ->)%elem_of_update_where Hid.
  assert (session_id x0 = session_id s) as Hid0 by (by destruct (_ && _)).
  rewrite (session_row_id s db Hwf Hs x0 Hx0 Hid0). rewrite (bool_decide_eq_true_2 _ Hin). cbn.
  by destruct (session_active s) eqn:?.
Qed.

Lemma revoke_others_ended user keep now db s :
  wf (ledger_of db) -> s ∈ sessions (auth db) -> session_user s = user -> session_id s <> keep ->
  ended (session_id s) (ledger_of (revoke_other_sessions user keep now db)).
Proof.
  intros Hwf Hs Hu Hk. split.
  { pose proof (wf_session_fresh _ Hwf) as Hf. rewrite Forall_forall in Hf. specialize (Hf s Hs). cbn in *.
    unfold revoke_other_sessions. by case_match. }
  unfold revoke_other_sessions. set (ids := session_id <$> _).
  assert (Hin : session_active s = true -> session_id s ∈ ids).
  { intros Ha. apply list_elem_of_fmap_2, elem_of_scalars. rewrite Hu, Z.eqb_refl, Ha, (proj2 (Z.eqb_neq _ _) Hk). done. }
  case_bool_decide as Hn.
  - intros x Hx Hid. rewrite (session_row_id s db Hwf Hs x Hx Hid). destruct (session_active s) eqn:Ha; [|done].
    specialize (Hin eq_refl). rewrite Hn in Hin. by apply not_elem_of_nil in Hin.
  - cbn. intros x (x0 & Hx0 & ->)%elem_of_update_where Hid.
    assert (session_id x0 = session_id s) as Hid0 by (by destruct (bool_decide _)).
    rewrite (session_row_id s db Hwf Hs x0 Hx0 Hid0). destruct (session_active s) eqn:Ha; [|by destruct (bool_decide (session_id s ∈ ids))].
    by rewrite (bool_decide_eq_true_2 _ (Hin eq_refl)).
Qed.
Lemma hash_ok password salt w h w' :
  outside (hash_password password salt) w = (Ok h, w') ->
  w' = w /\ Passwords.validate_password password = true /\ h = Passwords.argon2_hash password salt.
Proof.
  unfold outside, hash_password, lift, Passwords.hash_password. destruct (Passwords.validate_password password);
    intros; by simplify_eq.
Qed.

Lemma reset_body_ok d h now w w' :
  reset_body d h now w = (Ok tt, w') ->
  exists t u evs, scalar (by_digest d) (password_reset_tokens (auth (db w))) = Some t /\ token_active t = true /\
    now < token_expires_at t /\ get_user (token_owner t) (db w) = Some u /\ _user_can_authenticate u now = true /\
    db w' = foldl (fun d ev => add_audit_event ev d)
              (revoke_all_user_sessions (user_id u) now (revoke_resets (user_id u) (Some (token_id t)) now
                 (update_reset (token_id t) (set_consumed now (token_link t))
                    (Access.update_user (user_id u) (set_password h) (db w))))) evs.
Proof.
  unfold reset_body. intros (t & w1 & [Ht ->]%read_ok & Hr)%bind_ok_inv. destruct t as [t|]; [|done].
  destruct (token_active t) eqn:Ha; [|done]. destruct (token_expires_at t <=? now) eqn:He; [done|]. cbn [negb orb] in Hr.
  apply bind_ok_inv in Hr as (u & w1 & [Hu ->]%read_ok & Hr). destruct u as [u|]; [|done].
  destruct (_user_can_authenticate u now) eqn:Hcan; [|done]. cbn [negb] in Hr.
  do 4 (apply bind_ok_inv in Hr as (? & ? & ->%write_ok & Hr)).
  apply bind_ok_inv in Hr as (? & ? & ->%write_ok & ->%write_ok).
  boolP. by eexists t, u, [_; _].
Qed.

Lemma audits_ledger evs db : ledger_of (foldl (fun d ev => add_audit_event ev d) db evs) = ledger_of db.
Proof. revert db. induction evs as [|ev evs IH]; intros db; [done|]. cbn. by rewrite IH. Qed.
Lemma audits_people evs db :
  users (foldl (fun d ev => add_audit_event ev d) db evs) = users db /\
  auth (foldl (fun d ev => add_audit_event ev d) db evs) = auth db.
Proof. revert db. induction evs as [|ev evs IH]; intros db; [done|]. cbn. by destruct (IH (add_audit_event ev db)) as [-> ->]. Qed.
Lemma revoke_all_sessions_frame user now db :
  users (revoke_all_user_sessions user now db) = users db /\
  password_reset_tokens (auth (revoke_all_user_sessions user now db)) = password_reset_tokens (auth db).
Proof. unfold revoke_all_user_sessions. by case_match. Qed.
Lemma revoke_others_frame user keep now db :
  users (revoke_other_sessions user keep now db) = users db /\
  password_reset_tokens (auth (revoke_other_sessions user keep now db)) = password_reset_tokens (auth db).
Proof. unfold revoke_other_sessions. by case_match. Qed.

(** The reset tokens after a password was set: one spent perhaps, the rest revoked. *)
Definition resets_after (user : Z) (spent : option Z) (now : Z) (k : Token) : Token :=
  let k1 := if bool_decide (Some (token_id k) = spent) then set_consumed now (token_link k) k else k in
  if (token_owner k1 =? user) && negb (bool_decide (spent = Some (token_id k1))) && token_active k1
  then set_token_revoked now k1 else k1.
Lemma resets_after_inactive user spent now k : token_owner k = user -> token_active (resets_after user spent now k) = false.
Proof.
  intros Ho. unfold resets_after. case_bool_decide as Hs; cbn.
  - by rewrite andb_false_r.
  - rewrite Ho, Z.eqb_refl, bool_decide_eq_false_2 by congruence. cbn. by destruct (token_active k) eqn:?.
Qed.
Lemma resets_after_digest user spent now d k : by_digest d (resets_after user spent now k) = by_digest d k.
Proof. unfold resets_after. by repeat case_match. Qed.

(** What a reset that returns has done to the reset tokens. *)
Lemma reset_tokens_after t user now h db evs :
  NoDup (token_id <$> password_reset_tokens (auth db)) -> t ∈ password_reset_tokens (auth db) ->
  password_reset_tokens (auth (foldl (fun d ev => add_audit_event ev d)
    (revoke_all_user_sessions user now (revoke_resets user (Some (token_id t)) now
       (update_reset (token_id t) (set_consumed now (token_link t)) (Access.update_user user (set_password h) db)))) evs)) =
  resets_after user (Some (token_id t)) now <$> password_reset_tokens (auth db).
Proof.
  intros Hnd Ht. rewrite (proj2 (audits_people _ _)), (proj2 (revoke_all_sessions_frame _ _ _)). cbn.
  unfold update_where, update. rewrite <- list_fmap_compose. apply list_fmap_ext. intros i k Hk. cbn.
  unfold resets_after. rewrite (Z_eqb_bool_decide (token_id k) (token_id t)).
  assert (Hb : bool_decide (token_id k = token_id t) = bool_decide (Some (token_id k) = Some (token_id t))).
  { apply bool_decide_ext. split; congruence. }
  rewrite <- Hb. destruct (bool_decide (token_id k = token_id t)) eqn:He; [|done]. boolP.
  assert (k = t) as -> by (by apply (same_id token_id (password_reset_tokens (auth db))); [|eapply list_elem_of_lookup_2| |]).
  done.
Qed.

Lemma confirm_reset_ok raw password prefix now salt w w' :
  confirm_password_reset raw password prefix now salt w = (Ok tt, w') ->
  exists d w0, digest_or_none token_peppers raw (str "password-reset") = Some d /\ db w0 = db w /\
    Passwords.validate_password password = true /\
    reset_body d (Passwords.argon2_hash password salt) now w0 = (Ok tt, w').
Proof.
  unfold confirm_password_reset. intros (? & w1 & E1%session_rate_limit_ok & Hr)%bind_ok_inv.
  apply bind_ok_inv in Hr as (? & w2 & E2%session_rate_limit_ok & Hr). apply bind_ok_inv in Hr as (h & w3 & (-> & Hv & ->)%hash_ok & Hr).
  destruct (digest_or_none token_peppers raw (str "password-reset")) as [d|]; [|done].
  apply transact_ok in Hr as [Hr _]. exists d, w2. split; [done|]. split; [congruence|done].
Qed.

(** C15: a password reset that returns was given an active, unexpired reset token of
    an account in good standing and a password that meets the policy; afterwards the account has that
    password, none of its reset tokens is active and the one given never works
    again, and every session the account had has ended for good. *)
Theorem password_reset_signs_out raw password prefix now salt w w' :
  wf (ledger_of (db w)) -> NoDup (token_id <$> password_reset_tokens (auth (db w))) ->
  confirm_password_reset raw password prefix now salt w = (Ok tt, w') ->
  exists t u, t ∈ password_reset_tokens (auth (db w)) /\ token_active t = true /\ now < token_expires_at t /\
    get_user (token_owner t) (db w) = Some u /\ _user_can_authenticate u now = true /\
    (exists h, get_user (user_id u) (db w') = Some (set_password h u) /\ Passwords.argon2_verify h password = true) /\
    (forall k, k ∈ password_reset_tokens (auth (db w')) -> token_owner k = user_id u -> token_active k = false) /\
    (forall p2 prefix2 now2 salt2 w2, confirm_password_reset raw p2 prefix2 now2 salt2 w' <> (Ok tt, w2)) /\
    (forall s cs, s ∈ sessions (auth (db w)) -> session_user s = user_id u -> useless (session_id s) (perform_all cs w')).
Proof.
  intros Hwf Hnd (d & w0 & Hd & Hw & Hv & (t & u & evs & Ht & Ha & He & Hu & Hcan & Hdb)%reset_body_ok)%confirm_reset_ok.
  rewrite Hw in *. pose proof (scalar_Some _ _ _ Ht) as [Hin _]. pose proof (scalar_Some _ _ _ Hu) as [_ Hid]. boolP.
  set (h := Passwords.argon2_hash password salt) in *.
  pose proof (reset_tokens_after t (user_id u) now h (db w) evs Hnd Hin) as Hres. rewrite <- Hdb in Hres.
  exists t, u. do 5 (split; [done|]). split; [|split; [|split]].
  - exists h. split; [|apply Passwords.argon2_verify_hash]. unfold get_user.
    rewrite Hdb, (proj1 (audits_people _ _)), (proj1 (revoke_all_sessions_frame _ _ _)). cbn.
    rewrite scalar_update by done. rewrite Z.eqb_refl. rewrite <- Hid in Hu. unfold get_user in Hu. by rewrite Hu.
  - intros k. rewrite Hres. intros (k0 & -> & Hk0)%list_elem_of_fmap Ho. apply resets_after_inactive.
    unfold resets_after in Ho. by repeat case_match.
  - intros p2 prefix2 now2 salt2 w2 (d' & w1 & Hd' & Hw1 & _ & (t' & u' & evs' & Ht' & Ha' & _)%reset_body_ok)%confirm_reset_ok.
    rewrite Hd in Hd'. injection Hd' as <-. rewrite Hw1, Hres in Ht'.
    rewrite scalar_fmap in Ht' by (intros; apply resets_after_digest). rewrite Ht in Ht'. injection Ht' as <-.
    rewrite resets_after_inactive in Ha' by done. done.
  - intros s cs Hs Hsu. apply ended_useless. eapply steps_ended; [apply perform_all_steps|]. rewrite Hdb, audits_ledger.
    by apply revoke_all_ended.
Qed.
Lemma session_require_ok buckets limit request w u w' : requireT buckets limit request w = (Ok u, w') -> db w' = db w.
Proof.
  unfold _require_rate_limit. intros (a & w1 & Ha & Hr)%bind_ok_inv.
  assert (db w1 = db w) as <-.
  { unfold rate_limit, on_redis in Ha. destruct (RedisState.rate_limit _ _ _ _ _ _ _) as [[x|e] c]; by simplify_eq. }
  destruct a; [unfold mret, prog_ret in Hr; by simplify_eq|]. by apply bind_ok_inv in Hr as (? & ? & _ & Hr).
Qed.

Lemma confirm_password_ok p password request now w u w' :
  _confirm_password settings dummy_hash redis_keys redis_version redis_prefix p password request now w = (Ok u, w') ->
  db w' = db w /\ get_user (principal_user p) (db w) = Some u /\ _user_can_authenticate u now = true /\
  Passwords.verify_password_or_dummy dummy_hash (password_hash u) password = true.
Proof.
  unfold _confirm_password. intros (? & w1 & E1%session_require_ok & Hr)%bind_ok_inv.
  apply bind_ok_inv in Hr as (f & w2 & [Hf ->]%read_ok & Hr). rewrite E1 in Hf.
  destruct f as [u'|]; cbn [mbind option_bind] in Hr; [|by apply bind_ok_inv in Hr as (? & ? & _ & Hr)].
  destruct (Passwords.verify_password_or_dummy _ _ _) eqn:Hp; [|by apply bind_ok_inv in Hr as (? & ? & _ & Hr)].
  destruct (_user_can_authenticate u' now) eqn:Hc; [|by apply bind_ok_inv in Hr as (? & ? & _ & Hr)].
  unfold mret, prog_ret in Hr. cbn in Hr. by simplify_eq.
Qed.

(** A password change that returns was given the current password of an
    account in good standing; afterwards the account has the new one, none of
    its reset tokens is active, every other session of the account has ended for
    good, and the session it was made from is as it was. *)
Theorem password_change_signs_out_others p current password request now salt w w' :
  wf (ledger_of (db w)) ->
  change_password p current password request now salt w = (Ok tt, w') ->
  exists u h, get_user (principal_user p) (db w) = Some u /\ _user_can_authenticate u now = true /\
    Passwords.verify_password_or_dummy dummy_hash (password_hash u) current = true /\
    get_user (principal_user p) (db w') = Some (set_password h u) /\ Passwords.argon2_verify h password = true /\
    (forall k, k ∈ password_reset_tokens (auth (db w')) -> token_owner k = principal_user p -> token_active k = false) /\
    (forall s cs, s ∈ sessions (auth (db w)) -> session_user s = principal_user p -> session_id s <> principal_session p ->
       useless (session_id s) (perform_all cs w')) /\
    (forall s, s ∈ sessions (auth (db w)) -> session_id s = principal_session p -> s ∈ sessions (auth (db w'))).
Proof.
  intros Hwf. unfold change_password. intros (h & w1 & (-> & Hv & ->)%hash_ok & [Hr _]%transact_ok)%bind_ok_inv.
  apply bind_ok_inv in Hr as (u & w2 & (Hw & Hu & Hcan & Hver)%confirm_password_ok & Hr).
  do 3 (apply bind_ok_inv in Hr as (? & ? & ->%write_ok & Hr)). apply write_ok in Hr as ->. cbn [db with_db]. rewrite Hw.
  set (h := Passwords.argon2_hash password salt). pose proof (scalar_Some _ _ _ Hu) as [_ Hid]. boolP.
  set (db1 := revoke_resets (user_id u) None now (Access.update_user (user_id u) (set_password h) (db w))).
  set (ev := {| actor := _; reason_code := Some _ |}).
  exists u, h. do 3 (split; [done|]). split; [|split; [|split; [|split]]].
  - unfold get_user. cbn. rewrite (proj1 (revoke_others_frame _ _ _ _)). subst db1. cbn. rewrite scalar_update by done.
    rewrite Hid, Z.eqb_refl. unfold get_user in Hu. by rewrite Hu.
  - apply Passwords.argon2_verify_hash.
  - cbn. rewrite (proj2 (revoke_others_frame _ _ _ _)). subst db1. cbn. intros k (k0 & Hk0 & ->)%elem_of_update_where Ho.
    rewrite bool_decide_eq_false_2 in * by done. cbn [negb] in *. rewrite andb_true_r in *.
    assert (token_owner k0 =? user_id u = true) as Hk by (apply Z.eqb_eq; rewrite Hid, <- Ho; by destruct (_ && _)).
    rewrite Hk. cbn. by destruct (token_active k0) eqn:?.
  - intros s cs Hs Hsu Hne. apply ended_useless. eapply steps_ended; [apply perform_all_steps|]. cbn [db].
    apply (revoke_others_ended (user_id u) (principal_session p) now db1); [done|done|congruence|done].
  - intros s Hs Hk. cbn. unfold revoke_other_sessions. case_match; [done|]. cbn. apply elem_of_update_where. exists s.
    split; [done|]. rewrite bool_decide_eq_false_2; [done|].
    intros (s' & He & [Hs' Hp]%elem_of_scalars)%list_elem_of_fmap. boolP. congruence.
Qed.
(** *** Signing in *)

Definition active_devices (user : Z) (db : DB) : Z := Z.of_nat (length (scalars (owned_active user) (devices db))).
Definition has_device (user i : Z) (db : DB) : Prop :=
  exists d, d ∈ devices db /\ device_id d = i /\ owned_active user d = true.

Lemma update_device_keeps id f user (db : DB) :
  (forall d, device_id (f d) = device_id d /\ device_user (f d) = device_user d /\ device_state (f d) = device_state d) ->
  active_devices user (update_device id f db) = active_devices user db /\
  forall i, has_device user i db -> has_device user i (update_device id f db).
Proof.
  intros Hf.
  assert (Ho : forall d, owned_active user (if device_id d =? id then f d else d) = owned_active user d).
  { intros d. unfold owned_active, device_active. destruct (Hf d) as (_ & E1 & E2). case_match; [|done]. by rewrite E1, E2. }
  split.
  - unfold active_devices.
    change (devices (update_device id f db)) with ((fun r => if device_id r =? id then f r else r) <$> devices db).
    rewrite scalars_fmap by done. by rewrite length_fmap.
  - intros i (d & Hd & Hi & Ha). exists (if device_id d =? id then f d else d). cbn. unfold update. split.
    { by apply (list_elem_of_fmap_2 (fun r => if device_id r =? id then f r else r)). }
    rewrite Ho. split; [|done]. case_match; [|done]. by rewrite (proj1 (Hf d)).
Qed.

(** Neither the sessions nor the accounts moved, and the devices stayed within
    the account's limit. *)
Definition settled (u : User) (d0 : DB) (i : Z) (d : DB) : Prop :=
  auth d = auth d0 /\ has_device (user_id u) i d /\
  active_devices (user_id u) d <= Z.max (device_limit u) (active_devices (user_id u) d0).

Lemma settled_update u id f i (d0 d : DB) :
  (forall d, device_id (f d) = device_id d /\ device_user (f d) = device_user d /\ device_state (f d) = device_state d) ->
  settled u d0 i d -> settled u d0 i (update_device id f d).
Proof.
  intros Hf (Ha & Hh & Hc). destruct (update_device_keeps id f (user_id u) d Hf) as [Hn Hk].
  split; [done|]. split; [auto|]. by rewrite Hn.
Qed.

Lemma register_device_ok u name plat version hw request w i w' :
  register_device settings token_peppers u name plat version hw request w = (Ok i, w') ->
  settled u (db w) i (db w').
Proof.
  unfold register_device. intros (n & w1 & [-> ->]%read_ok & Hr)%bind_ok_inv. fold (active_devices (user_id u) (db w)) in Hr.
  destruct (device_limit u <=? active_devices (user_id u) (db w)) eqn:Hl; [by apply bind_ok_inv in Hr as (? & ? & _ & Hr)|].
  apply bind_ok_inv in Hr as ([v h] & w2 & Hh & Hr).
  assert (w2 = w) as ->.
  { destruct hw as [x|]; [|unfold mret, prog_ret in Hh; by simplify_eq].
    apply bind_ok_inv in Hh as (? & ? & [_ ->]%of_token_ok & Hh). unfold mret, prog_ret in Hh. by simplify_eq. }
  apply bind_ok_inv in Hr as (id & w3 & [-> ->]%uuid_ok & Hr). apply bind_ok_inv in Hr as (? & w4 & ->%write_ok & Hr).
  unfold mret, prog_ret in Hr. simplify_eq. boolP. split; [done|]. split.
  - eexists. split; [cbn; apply elem_of_app; right; apply list_elem_of_singleton; reflexivity|]. cbn. split; [done|].
    unfold owned_active. cbn. by rewrite Z.eqb_refl.
  - unfold active_devices in *. cbn. unfold scalars in *. rewrite filter_app, length_app, Nat2Z.inj_add.
    enough (length (filter (fun r => owned_active (user_id u) r = true) [{|
      device_id := next_id (db w); device_user := user_id u; device_state := LifecycleState.ACTIVE; device_name := name;
      platform := plat; client_version := version; device_revoked_at := None; hardware_key_version := v; hardware_hash := h;
      device_dns_profile := None |}])
      <= 1)%nat by lia. rewrite filter_cons, filter_nil. case_decide; cbn; lia.
Qed.

Lemma reuse_by_hardware_ok u hw name plat version w o w' :
  _reuse_by_hardware token_peppers (user_id u) hw name plat version w = (Ok o, w') ->
  match o with Some r => settled u (db w) (device_id r) (db w') | None => w' = w end.
Proof.
  unfold _reuse_by_hardware. intros (f & w1 & [Hf ->]%read_ok & Hr)%bind_ok_inv. destruct f as [d|].
  - apply bind_ok_inv in Hr as (? & w4 & ->%write_ok & Hr). unfold mret, prog_ret in Hr. simplify_eq.
    apply settled_update; [done|]. symmetry in Hf. apply scalar_Some in Hf as [Hf _]. apply elem_of_scalars in Hf as [Hd Ho].
    boolP. split; [done|]. split; [by exists d|lia].
  - unfold mret, prog_ret in Hr. by simplify_eq.
Qed.

Lemma resolve_device_ok u dev name plat version hw request w i w' :
  _resolve_device settings token_peppers u dev name plat version hw request w = (Ok i, w') -> settled u (db w) i (db w').
Proof.
  assert (Hnew : forall (w : world) r,
    (reused ← match hw with Some h => _reuse_by_hardware token_peppers (user_id u) h name plat version | None => mret None end;
     match reused with
     | Some r => mret (device_id r)
     | None => register_device settings token_peppers u name plat version hw request
     end) w = (Ok i, r) -> settled u (db w) i (db r)).
  { intros w0 r (o & w1 & Ho & Hr)%bind_ok_inv.
    assert (match o with Some r => settled u (db w0) (device_id r) (db w1) | None => w1 = w0 end) as Ho'.
    { destruct hw; [by eapply reuse_by_hardware_ok|]. unfold mret, prog_ret in Ho. by simplify_eq. }
    destruct o as [r0|]; [unfold mret, prog_ret in Hr; by simplify_eq|]. subst. by eapply register_device_ok. }
  unfold _resolve_device. intros (k & w1 & Hk & Hr)%bind_ok_inv.
  assert (w1 = w /\ forall d, k = Some d -> d ∈ devices (db w) /\ device_user d = user_id u) as [-> Hd].
  { destruct dev as [x|]; [|unfold mret, prog_ret in Hk; by simplify_eq]. apply read_ok in Hk as [Hk ->]. split; [done|].
    intros d ->. symmetry in Hk. apply scalar_Some in Hk as [? ?]. boolP. done. }
  destruct k as [d|]; [|by apply Hnew]. destruct (device_active d) eqn:Ha; [|by apply Hnew].
  apply bind_ok_inv in Hr as (? & w1 & ->%write_ok & Hr). apply bind_ok_inv in Hr as (? & w2 & Hb & Hr).
  unfold mret, prog_ret in Hr. injection Hr as <- <-. destruct (Hd d eq_refl) as [Hin Hown].
  assert (H1' : settled u (db w) (device_id d) (update_device (device_id d) (describe_device name plat version) (db w))).
  { apply settled_update; [done|]. split; [done|]. split; [|lia]. exists d. unfold owned_active. by rewrite Hown, Z.eqb_refl, Ha. }
  destruct hw as [h|]; [|unfold mret, prog_ret in Hb; by simplify_eq].
  destruct (hardware_hash d); [unfold mret, prog_ret in Hb; by simplify_eq|].
  unfold _backfill_hardware, hash_hardware in Hb. apply bind_ok_inv in Hb as (hh & w3 & [_ ->]%of_token_ok & Hb).
  apply bind_ok_inv in Hb as (tk & w4 & [_ ->]%read_ok & Hb). destruct tk; [unfold mret, prog_ret in Hb; by simplify_eq|].
  apply write_ok in Hb as ->. by apply settled_update.
Qed.
Lemma check_credentials_ok identifier password prefix request now w u w' :
  check_credentials settings dummy_hash redis_keys redis_version redis_prefix identifier password prefix request now w = (Ok u, w') ->
  db w' = db w /\ _find_user (_normalize_identifier identifier) (db w) = Some u /\ _user_can_authenticate u now = true /\
  Passwords.verify_password_or_dummy dummy_hash (password_hash u) password = true.
Proof.
  unfold check_credentials. intros (f & w1 & [Hf ->]%read_ok & Hr)%bind_ok_inv.
  apply bind_ok_inv in Hr as (? & w1 & E1%session_require_ok & Hr). apply bind_ok_inv in Hr as (? & w2 & E2%session_require_ok & Hr).
  destruct f as [u'|]; cbn [mbind option_bind] in Hr; [|by apply bind_ok_inv in Hr as (? & ? & _ & Hr)].
  destruct (Passwords.verify_password_or_dummy _ _ _) eqn:Hp; cbn [negb andb orb] in Hr.
  2: by apply bind_ok_inv in Hr as (? & ? & _ & Hr).
  destruct (_only_expired u' now); [by apply bind_ok_inv in Hr as (? & ? & _ & Hr)|].
  destruct (_user_can_authenticate u' now) eqn:Hc; cbn [negb] in Hr; [|by apply bind_ok_inv in Hr as (? & ? & _ & Hr)].
  unfold mret, prog_ret in Hr. injection Hr as <- <-. split; [congruence|done].
Qed.

Lemma upgrade_hash_ok u password salt w x w' :
  upgrade_hash u password salt w = (Ok x, w') -> auth (db w') = auth (db w) /\ devices (db w') = devices (db w).
Proof.
  unfold upgrade_hash. destruct (password_hash u); [|done]. destruct (Passwords.argon2_needs_rehash _).
  - intros (h & w1 & Hh & Hr)%bind_ok_inv. unfold hash_password, lift in Hh. apply write_ok in Hr as ->.
    by destruct (Passwords.hash_password password salt); simplify_eq.
  - unfold mret, prog_ret. intros. by simplify_eq.
Qed.

(** A sign-in that returns was given the password of an account that may
    authenticate; the refresh token it hands out is active and belongs to a new
    session of the account, with the configured lifetime, on a device of the
    account that is active; no other session of that device is active any more;
    and the account has no more active devices than its limit or than it had. *)
Theorem login_opens_one_session identifier password dev name plat version prefix request hw now random salt w pair w' :
  login identifier password dev name plat version prefix request hw now random salt w = (Ok pair, w') ->
  exists u s k, _find_user (_normalize_identifier identifier) (db w) = Some u /\ _user_can_authenticate u now = true /\
    Passwords.verify_password_or_dummy dummy_hash (password_hash u) password = true /\
    token_row (refresh_token pair) (db w') = Some k /\ token_active k = true /\ token_owner k = session_id s /\
    s ∈ sessions (auth (db w')) /\ session_active s = true /\ session_user s = user_id u /\
    session_expires_at s = now + refresh_token_ttl_days settings * DAY /\ token_expires_at k = session_expires_at s /\
    has_device (user_id u) (session_device s) (db w') /\
    (forall x, x ∈ sessions (auth (db w')) -> session_active x = true -> session_device x = session_device s -> x = s) /\
    active_devices (user_id u) (db w') <= Z.max (device_limit u) (active_devices (user_id u) (db w)).
Proof.
  unfold login. intros [Hr Hc]%transact_ok.
  apply bind_ok_inv in Hr as (u & w1 & (E1 & Hu & Hcan & Hp)%check_credentials_ok & Hr).
  apply bind_ok_inv in Hr as (? & w2 & [_ E2]%upgrade_hash_ok & Hr).
  apply bind_ok_inv in Hr as (i & w3 & (_ & Hdev & Hlim)%resolve_device_ok & Hr).
  apply bind_ok_inv in Hr as ([a v] & w4 & (d & s & Hd & Hsv & Hs & Hk & Hn & Hds)%open_session_ok & Hr).
  unfold mret, prog_ret in Hr. injection Hr as <- <-. cbn [refresh_token snd].
  exists u, s. eexists. do 3 (split; [done|]). split.
  { unfold token_row, digest_or_none. rewrite Hd. cbn [mbind option_bind]. unfold auth_constraints in Hc. boolP.
    rewrite Hk in *. apply by_digest_last; [done|]. unfold by_digest. cbn. by rewrite Z.eqb_refl, bool_decide_eq_true_2. }
  assert (session_device s = i) as Hsd by (by rewrite Hsv).
  split; [done|]. split; [by rewrite Hsv|]. split; [rewrite Hs; set_solver|]. split; [by rewrite Hsv|].
  split; [by rewrite Hsv|]. split; [by rewrite Hsv|]. split; [by rewrite Hsv|].
  split; [unfold has_device in *; by rewrite Hds, Hsd|]. split.
  - intros y Hx Ha Hd'. rewrite Hs in Hx. apply elem_of_app in Hx as [Hx|Hx%list_elem_of_singleton]; [|done].
    exfalso. by apply (device_sessions_revoked _ _ _ _ Hx Ha); rewrite <- Hsd.
  - unfold active_devices in *. rewrite Hds. by rewrite E2, E1 in Hlim.
Qed.
(** *** Erasure *)

Definition device_erased (d : Device) : Prop :=
  device_state d = LifecycleState.REVOKED /\ device_name d = str "deleted" /\
  hardware_hash d = None /\ hardware_key_version d = None.

Lemma erase_one_device_spec now db d :
  db_wf db ->
  let db' := Erasure.erase_one_device now db d in
  db_wf db' /\ devices db' = update device_id (device_id d) (Erasure.erase_device now) (devices db) /\
  users db' = users db /\
  forall m, table m db' = Access.marked (Access.revocable (device_id d)) now <$> table m db.
Proof.
  intros Hwf. cbn zeta. unfold Erasure.erase_one_device.
  pose proof (revoke_credentials_people (device_id d) now db) as (_ & _ & Hu & Hd). rewrite Access.revoke_device_both in *.
  cbn [snd] in Hu, Hd.
  destruct (Access.revoke_both_spec (Access.revocable (device_id d)) now db Hwf (Access.revocable_live _)) as (Hwf' & _ & Ht).
  set (db1 := Access.revoke_both _ _ _) in *. clearbody db1. split; [by destruct Hwf' as [[] ?]; repeat constructor|].
  cbn. rewrite Hd, Hu. split; [done|]. split; [done|]. intros m. rewrite <- Ht. by destruct m.
Qed.

Lemma erase_devices_spec now ds db (gone : list Z) :
  db_wf db -> Forall (fun d => device_id d ∈ gone -> device_erased d) (devices db) ->
  let db' := foldl (Erasure.erase_one_device now) db ds in
  let gone' := gone ++ (device_id <$> ds) in
  db_wf db' /\ Forall (fun d => device_id d ∈ gone' -> device_erased d) (devices db') /\
  (forall m, table m db' = Access.marked (Access.held_by (device_id <$> ds)) now <$> table m db) /\
  users db' = users db /\
  ((fun d => (device_id d, device_user d)) <$> devices db') = ((fun d => (device_id d, device_user d)) <$> devices db).
Proof.
  revert db gone. induction ds as [|d ds IH]; intros db gone Hwf He.
  { cbn. rewrite app_nil_r. split; [done|]. split; [done|]. split; [|done]. intros m. symmetry. apply list_fmap_id. }
  destruct (erase_one_device_spec now db d Hwf) as (Hwf1 & Hd & Hu & Ht). set (db1 := Erasure.erase_one_device now db d) in *.
  destruct (IH db1 (gone ++ [device_id d])) as (W & E & R & U & K).
  - done.
  - rewrite Hd. apply Forall_forall. intros x (x0 & Hx0 & ->)%elem_of_update_where. rewrite Forall_forall in He.
    destruct (_ =? _) eqn:Hid; [done|]. boolP. intros [Hin|Hin%list_elem_of_singleton]%elem_of_app; [by apply He|done].
  - cbn [foldl fmap list_fmap]. fold db1. clearbody db1. rewrite <- app_assoc in E. cbn in E. cbn.
    split; [done|]. split; [done|].
    split; [intros m; rewrite R, Ht, <- list_fmap_compose; apply list_fmap_ext; intros _ r _; apply Access.held_by_cons|].
    split; [congruence|]. rewrite K, Hd. unfold update.
    rewrite <- list_fmap_compose. apply list_fmap_ext. intros _ x _. cbn. by destruct (_ =? _).
Qed.
(** PostgreSQL's [lower] and Python's [casefold] agree on the recipients of the mails
    there are, as they do on ASCII addresses. *)
Definition lower_is_casefold (d : DB) : Prop :=
  forall e, e ∈ email_deliveries (auth d) -> Erasure.pg_lower (recipient_address e) = Identity.casefold (recipient_address e).

(** What remains of an account once erased: an inert row under a placeholder. *)
Record forgotten (u : User) (now : Z) (d d' : DB) : Prop := {
  no_sessions : Forall (fun s => session_user s <> user_id u) (sessions (auth d'));
  no_refresh : Forall (fun k => forall s, s ∈ sessions (auth d) -> session_user s = user_id u -> token_owner k <> session_id s)
                 (refresh_tokens (auth d'));
  no_activations : Forall (fun k => token_owner k <> user_id u) (user_activations (auth d'));
  no_resets : Forall (fun k => token_owner k <> user_id u) (password_reset_tokens (auth d'));
  no_requests : Forall (fun r => request_user r <> Some (user_id u) /\ request_email_normalized r <> email_normalized u)
                  (account_requests (auth d'));
  no_events : Forall (fun e => forall r, r ∈ account_requests (auth d) -> Erasure.names_person u r = true ->
                event_request e <> request_id r) (account_request_events (auth d'));
  no_mail : Forall (fun e => Identity.casefold (recipient_address e) <> email_normalized u /\
                             ~ (subject_kind e = str "user" /\ subject_id e = user_id u)) (email_deliveries (auth d'));
  no_grants : Forall (fun p => perm_user p <> user_id u) (permissions d') /\
              Forall (fun a => asg_user a <> user_id u) (assignments d');
  devices_erased : Forall (fun x => device_user x = user_id u -> device_erased x) (devices d');
  access_withdrawn : forall m, Forall2 (Access.withdrawn (Access.devices_of (user_id u) d) now) (table m d) (table m d');
  row_inert : forall x, get_user (user_id u) d' = Some x ->
    username x = None /\ username_normalized x = None /\ password_hash x = None /\ user_state x = AccountState.DISABLED /\
    exists n, email x = str "deleted-" ++ pad_hex n ++ str "@deleted.invalid" /\ email_normalized x = email x;
}.

Lemma Forall_deleted {A} (P : A -> Prop) p rows :
  (forall r, p r = false -> P r) -> Forall P (delete_where p rows).
Proof. intros Hp. apply Forall_forall. intros x [_ Hx]%elem_of_delete_where. auto. Qed.

Lemma erase_account_forgets u now d r d' :
  db_wf d -> lower_is_casefold d -> Erasure.erase_account (E := failure exn) u now d = (r, d') -> forgotten u now d d'.
Proof.
  intros Hwf Hlow. unfold Erasure.erase_account.
  set (ds := scalars (fun x => device_user x =? user_id u) (devices d)).
  destruct (erase_devices_spec now ds d [] Hwf) as (_ & He & Hr & Hu & Hk).
  { apply Forall_forall. intros x _ Hx. by apply not_elem_of_nil in Hx. }
  destruct (erase_devices_auth now ds d) as [Ha _].
  set (d1 := foldl _ d ds) in *. clearbody d1. cbn [app] in He.
  assert (Hown : forall x, x ∈ devices d1 -> device_user x = user_id u -> device_id x ∈ device_id <$> ds).
  { intros x Hx Hxu. apply (list_elem_of_fmap_2 (fun d => (device_id d, device_user d))) in Hx. rewrite Hk in Hx.
    apply list_elem_of_fmap in Hx as (y & Hy & Hin). injection Hy as -> Hyu. apply list_elem_of_fmap_2, elem_of_scalars.
    split; [done|]. apply Z.eqb_eq. congruence. }
  rewrite Forall_forall in He. intros [= <- <-]. constructor; cbn; rewrite ?Ha.
  - apply Forall_deleted. intros x Hx. by boolP.
  - apply Forall_deleted. intros k Hx s Hs Hsu Ho. boolP. apply Hx. rewrite Ho. apply list_elem_of_fmap_2, elem_of_scalars.
    split; [done|]. by apply Z.eqb_eq.
  - apply Forall_deleted. intros x Hx. by boolP.
  - apply Forall_deleted. intros x Hx. by boolP.
  - apply Forall_deleted. intros x Hx. unfold Erasure.names_person in Hx. by boolP.
  - apply Forall_deleted. intros e Hx q Hq Hn Hid. boolP. apply Hx. rewrite Hid. by apply list_elem_of_fmap_2, elem_of_scalars.
  - apply Forall_forall. intros e [Hin Hx]%elem_of_delete_where. unfold Erasure.mail_of_person in Hx. boolP.
    split; [by rewrite <- (Hlow e Hin)|]. intros [E1 E2]. rewrite E2, Z.eqb_refl, bool_decide_eq_true_2 in * by done. done.
  - split; apply Forall_deleted; intros x Hx; by boolP.
  - apply Forall_forall. intros x Hx Hxu. apply He; [done|]. by apply Hown.
  - intros m. pose proof (Access.marked_withdrawn (device_id <$> ds) now (table m d)) as Hm. rewrite <- Hr in Hm. by destruct m.
  - intros x [Hx Hid]%scalar_Some. apply list_elem_of_fmap in Hx as (y & -> & _).
    destruct (user_id y =? user_id u) eqn:Hy; [|boolP; done]. cbn. do 4 (split; [done|]). eauto.
Qed.

(** C16: deleting an account takes its owner's password, and leaves no session, token,
    activation, reset link, account request or its history, permission or
    assignment of theirs and no mail about the account or, when the database's
    [lower] agrees with [casefold] on the stored recipients, to an address that
    folds to theirs.  Their devices are revoked, without a name or hardware
    identity; each peer and client of these that was requested, applying or active
    is revoking, all others are as they were; the account's row is inert under a
    placeholder, and no session it had ever works again. *)
Theorem deleted_account_leaves_no_trace p password request now w w' :
  db_wf (db w) -> wf (ledger_of (db w)) -> lower_is_casefold (db w) -> delete_account p password request now w = (Ok tt, w') ->
  exists u, get_user (principal_user p) (db w) = Some u /\ _user_can_authenticate u now = true /\
    Passwords.verify_password_or_dummy dummy_hash (password_hash u) password = true /\
    forgotten u now (db w) (db w') /\
    forall s cs, s ∈ sessions (auth (db w)) -> session_user s = user_id u -> useless (session_id s) (perform_all cs w').
Proof.
  intros Hdb Hwf Hlow. unfold delete_account. intros [Hr _]%transact_ok.
  apply bind_ok_inv in Hr as (u & w1 & (Hw & Hu & Hcan & Hp)%confirm_password_ok & Hr).
  apply bind_ok_inv in Hr as (? & w2 & He & Hr). apply write_ok in Hr as ->. unfold on_db in He.
  destruct (Erasure.erase_account u now (db w1)) as [r d] eqn:Hrun. injection He as -> <-. rewrite Hw in Hrun. cbn [db with_db].
  exists u. do 3 (split; [done|]).
  pose proof (erase_account_forgets u now (db w) _ _ Hdb Hlow Hrun) as Hf. split; [by destruct Hf; constructor|].
  intros s cs Hs Hsu. apply ended_useless. eapply steps_ended; [apply perform_all_steps|]. split.
  - apply erase_account_ledger in Hrun as [_ Hst%steps_fresh].
    pose proof (wf_session_fresh _ Hwf) as Hfr. rewrite Forall_forall in Hfr. specialize (Hfr s Hs). cbn in *. lia.
  - intros y Hy Hid. exfalso. cbn in Hy. pose proof (no_sessions _ _ _ _ Hf) as Hn. rewrite Forall_forall in Hn.
    assert (steps (db w) d) as Hst by (by apply erase_account_ledger in Hrun as [_ ?]).
    destruct (steps_same _ _ y Hst Hy) as (s0 & Hs0 & E1 & E2 & _).
    { pose proof (wf_session_fresh _ Hwf) as Hfr. rewrite Forall_forall in Hfr. specialize (Hfr s Hs). cbn in *. lia. }
    apply (Hn y Hy). rewrite <- E2. rewrite (session_row_id s (db w) Hwf Hs s0 Hs0); [done|congruence].
Qed.
End Service.
End UserSessions.
