(* ===== verification/UserAdminLife.v ===== *)
(** * What administering accounts guarantees

    About [UserAdmin]: the administrators' changes move sessions only as the
    session ledger allows; a disabled account and a revoked device are out for
    good, whatever else is asked of the services; changing an identity changes
    nothing else. *)

From stdpp Require Import relations.
From S2P Require Import Prelude PyText PyBytes PyTime Json IpAddress Usage ApiStore AccessToken OpaqueToken RedisState XrayCredential Access AuthStore UserAuth SessionLedger UserSessions UserAdmin.
Import Db AuthTx TxLogic SessionRevocation SessionLedger UserSessions.

Module UserAdminLife.

(** ** Steps of a transaction *)

Lemma erase_steps `{Erasure.PgLower} {E} (u : User) now w :
  TxLogic.traced stepping (on_db (E := E) (Erasure.erase_account u now)) w.
Proof.
  unfold TxLogic.traced, wp, on_db. destruct (Erasure.erase_account u now (db w)) as [r d] eqn:He.
  apply erase_account_ledger in He as [-> Hs]. cbn. split; [by apply steps_fresh in Hs|done].
Qed.
Lemma traced_still {E} (f : DB -> DB) w :
  ledger_of (f (db w)) = ledger_of (db w) -> TxLogic.traced stepping (write (E := E) f) w.
Proof. intros He. apply traced_write; [apply _|]. rewrite He. apply rtc_refl. Qed.
#[local] Hint Resolve erase_steps : traced.
#[local] Hint Extern 5 (TxLogic.traced _ (write _) _) => (apply traced_still; reflexivity) : traced.
#[local] Hint Extern 4 (TxLogic.traced _ (write _) _) =>
  (apply traced_write; [apply _|]; first [apply revoke_session_steps | apply revoke_device_steps | apply revoke_all_steps]) : traced.

Lemma revoke_devices_people devs now d : same_people d (Access.revoke_devices devs now d).2.
Proof.
  unfold Access.revoke_devices. generalize 0. revert d. induction devs as [|dev devs IH]; intros d n; [done|]. cbn [foldl].
  pose proof (revoke_credentials_people dev now d) as Hp.
  destruct (Access.revoke_device_credentials dev now d) as [k d']. specialize (IH d' (n + k)).
  unfold same_people in *. cbn [snd] in Hp. intuition congruence.
Qed.

(** The owner's copy of the revocation agrees with the shared one. *)
Lemma own_revoke_row m now d r : OwnAccount.revoke_row m now d r = Access.revoke_credential_row m now d r.
Proof.
  unfold OwnAccount.revoke_row, Access.revoke_credential_row, settle. set (d1 := update_row _ _ _ _ _).
  destruct (get_credential (credential_id r) d1) as [c|] eqn:Hc; [done|]. unfold update_credential.
  assert (update cred_id (credential_id r) (set_cred_state ProvisioningState.REVOKING) (credentials d1) = credentials d1) as ->.
  { apply update_absent. intros (c & He & Hin)%list_elem_of_fmap. apply scalar_None in Hc. rewrite Forall_forall in Hc.
    specialize (Hc c Hin). cbn in Hc. boolP. congruence. }
  by destruct d1.
Qed.
Lemma own_revocation dev now d : OwnAccount._revoke_device_credentials dev now d = Access.revoke_device_credentials dev now d.
Proof.
  assert (forall m d0, OwnAccount.revoke_rows m dev now d0 = Access.revoke_rows m dev now d0) as Hm.
  { intros m d0. unfold OwnAccount.revoke_rows, Access.revoke_rows.
    change (fun r => (row_device r =? dev) && in_states OwnAccount._LIVE_CREDENTIAL_STATES (state r)) with (Access.revocable dev).
    f_equal. generalize (scalars (Access.revocable dev) (table m d0)). intros rows. revert d0.
    induction rows as [|r rows IH]; intros d0; [done|]. cbn [foldl]. by rewrite own_revoke_row, IH. }
  unfold OwnAccount._revoke_device_credentials, Access.revoke_device_credentials. rewrite Hm.
  destruct (Access.revoke_rows WireGuardPeer dev now d) as [n1 d1]. by rewrite Hm.
Qed.

(** ** Every operation *)

Section Administration.
Context `{HMAC} `{JWT} `{Passwords.Argon2} `{Identity.EmailValidator} `{Erasure.PgLower} `{XrayCredential.AEAD}.
Context (settings : UserAuth.Settings) (token_peppers : list (Z * text)) (jwt_signer : signing_key)
  (verification_keys : list (text * verification_key)) (dummy_hash : text)
  (redis_keys : list (Z * text)) (redis_version : Z) (redis_prefix : text)
  (ring : list (Z * text)) (usage_digest : text -> text).

(** A request of an administrator, or of an account's owner about a device. *)
Inductive admin_call :=
| Disable (uid admin now : Z)
| Reactivate (uid admin : Z)
| Delete (uid admin now : Z)
| ChangeIdentity (uid admin : Z) (email_ username_ : option text)
| SetDeviceLimit (uid admin limit : Z)
| SetExpiry (uid admin : Z) (expires : option Z)
| SetDnsProfile (uid admin : Z) (dns : text)
| SetDeviceDnsProfile (uid dev admin : Z) (dns : option text)
| GrantQuota (uid admin : Z) (quota : option Z) (L : gmap (text * text) Usage.CredentialUsage)
| RevokeDevice (uid dev admin now : Z)
| RevokeSession (uid sid admin now : Z)
| RevokeOwnDevice (uid dev current now : Z).
Definition administer (c : admin_call) (w : world) : world :=
  match c with
  | Disable u a now => (UserManagement.disable_user u a now w).2
  | Reactivate u a => (UserManagement.reactivate_user u a w).2
  | Delete u a now => (UserManagement.delete_user u a now w).2
  | ChangeIdentity u a e n => (UserManagement.change_identity u a e n w).2
  | SetDeviceLimit u a l => (UserManagement.set_device_limit u a l w).2
  | SetExpiry u a x => (UserManagement.set_expiry u a x w).2
  | SetDnsProfile u a d => (UserManagement.set_dns_profile u a d w).2
  | SetDeviceDnsProfile u d a p => (UserManagement.set_device_dns_profile u d a p w).2
  | GrantQuota u a q L => (UserManagement.grant_traffic_quota ring usage_digest u a q L w).2
  | RevokeDevice u d a now => (UserManagement.revoke_device u d a now w).2
  | RevokeSession u s a now => (UserManagement.revoke_session u s a now w).2
  | RevokeOwnDevice u d c now => (OwnAccount.revoke_device u d c now w).2
  end.

Notation perform := (UserSessions.perform settings token_peppers jwt_signer verification_keys dummy_hash redis_keys redis_version redis_prefix).
Definition act (c : call + admin_call) (w : world) : world := match c with inl c => perform c w | inr a => administer a w end.
Definition act_all (cs : list (call + admin_call)) (w : world) : world := foldl (fun w c => act c w) w cs.

Lemma steps_transact {E A} (e : E) (m : prog world (failure E) A) w :
  TxLogic.traced stepping m w -> keeps stepping (transact e m) w.
Proof. intros Ht. exact (transact_traced stepping e m w Ht). Qed.

Lemma column_steps {A} uid admin f reason (a : A) w :
  stepping (db w) (db ((_ ← UserManagement.set_column uid admin f reason; mret a) w).2).
Proof.
  change (keeps stepping (_ ← UserManagement.set_column uid admin f reason; mret a) w).
  apply keeps_bind; [apply _| |intros; apply keeps_ret, _]. apply steps_transact.
  unfold UserManagement.rejected, UserManagement.audit_event. trace.
Qed.
Lemma grant_steps uid admin q L w :
  stepping (db w) (db (UserManagement.grant_traffic_quota ring usage_digest uid admin q L w).2).
Proof.
  change (keeps stepping (UserManagement.grant_traffic_quota ring usage_digest uid admin q L) w).
  unfold UserManagement.grant_traffic_quota. apply keeps_bind; [apply _| |intros _ w1 _].
  { apply steps_transact. unfold UserManagement.rejected. trace. }
  apply keeps_bind; [apply _| |intros ch w2 _].
  - unfold keeps, Access.grant_traffic_quota, transaction. destruct (get_user uid (db w1)); cbn; repeat case_match; simplify_eq; apply rtc_refl.
  - apply keeps_bind; [apply _| |intros; apply keeps_ret, _]. apply steps_transact. unfold UserManagement.audit_event. trace.
Qed.
Lemma administer_steps c w : steps (db w) (db (administer c w)).
Proof.
  change (steps (db w) (db (administer c w))) with (stepping (db w) (db (administer c w))).
  destruct c as [u a now|u a|u a now|u a e n|u a l|u a x|u a dns|u d a dns|u a q L|u d a now|u s a now|u d c now]; cbn [administer].
  - apply steps_transact. unfold UserManagement.disable_body, UserManagement.rejected, UserManagement.audit_event. trace.
    all: apply traced_still, ledger_same; apply revoke_devices_people.
  - apply steps_transact. unfold UserManagement.reactivate_body, UserManagement.rejected, UserManagement.audit_event. trace.
  - apply steps_transact. unfold UserManagement.delete_body, UserManagement.rejected, UserManagement.audit_event. trace.
  - unfold UserManagement.change_identity. destruct (UserManagement.normalized_email e), (UserManagement.normalized_username n);
      try (apply rtc_refl). apply steps_transact.
    unfold UserManagement.change_email, UserManagement.change_username, UserManagement.rejected, UserManagement.audit_event. trace.
  - apply column_steps.
  - apply column_steps.
  - apply column_steps.
  - apply steps_transact. unfold UserManagement.rejected, UserManagement.audit_event. trace.
  - apply grant_steps.
  - apply steps_transact. unfold UserManagement.revoke_device_body, UserManagement.rejected, UserManagement.audit_event. trace.
    apply traced_still, revoke_credentials_ledger.
  - apply steps_transact. unfold UserManagement.revoke_session_body, UserManagement.rejected, UserManagement.audit_event. trace.
  - unfold OwnAccount.revoke_device. destruct (d =? c); [apply rtc_refl|]. apply steps_transact. unfold OwnAccount.revoke_body.
    trace. apply traced_still. rewrite own_revocation. apply revoke_credentials_ledger.
Qed.

Lemma administration_steps cs w : steps (db w) (db (act_all cs w)).
Proof.
  revert w. induction cs as [|c cs IH]; intros w; [apply rtc_refl|]. etrans; [|apply IH].
  destruct c as [c|c]; [apply perform_steps|apply administer_steps].
Qed.
(** C3: whatever owners and administrators ask, in whatever order, sessions and
    refresh tokens move only by the transitions of the session ledger. *)
Theorem administration_refines_ledger cs w : rtc step (ledger_of (db w)) (ledger_of (db (act_all cs w))).
Proof. apply administration_steps. Qed.

Notation useless := (UserSessions.useless settings token_peppers jwt_signer verification_keys redis_keys redis_version redis_prefix).
Lemma ended_for_good i cs w : ended i (ledger_of (db w)) -> useless i (act_all cs w).
Proof. intros He. apply ended_useless. eapply steps_ended; [apply administration_steps|done]. Qed.

(** ** Disabling an account *)

Lemma db_wf_auth a d : db_wf d -> db_wf (with_auth a d).
Proof. intros [[] ?]. by repeat constructor. Qed.
Lemma db_wf_all_sessions uid now d : db_wf d -> db_wf (revoke_all_user_sessions uid now d).
Proof. intros Hd. unfold revoke_all_user_sessions. case_match; [done|]. by apply db_wf_auth, db_wf_auth. Qed.

Definition standing_down (now : Z) : User -> User := UserManagement.set_standing AccountState.DISABLED (Some now).
(** The rows of [disable_body], up to the audit trail. *)
Definition disabled_db (uid now : Z) (d : DB) : DB :=
  let d2 := revoke_all_user_sessions uid now (UserManagement.update_user uid (standing_down now) d) in
  (Access.revoke_devices (Access.devices_of uid d2) now d2).2.
Lemma disable_body_run uid admin now w u :
  get_user uid (db w) = Some u -> user_state u = AccountState.ACTIVE \/ user_state u = AccountState.SUSPENDED ->
  exists ev, UserManagement.disable_body uid admin now w =
    (Ok (UserManagement._user_summary (standing_down now u)), with_db (add_audit_event ev (disabled_db uid now (db w))) w).
Proof.
  intros Hu Hs. eexists. unfold UserManagement.disable_body. erewrite bind_ok by reflexivity. rewrite Hu.
  destruct Hs as [-> | ->]; reflexivity.
Qed.

Lemma disabled_db_spec uid now d :
  db_wf d ->
  users (disabled_db uid now d) = update user_id uid (standing_down now) (users d) /\
  devices (disabled_db uid now d) = devices d /\
  ledger_of (disabled_db uid now d) = ledger_of (revoke_all_user_sessions uid now d) /\
  forall m, Forall2 (Access.withdrawn (Access.devices_of uid d) now) (table m d) (table m (disabled_db uid now d)).
Proof.
  intros Hwf. unfold disabled_db. set (d2 := revoke_all_user_sessions _ _ _).
  assert (db_wf d2) as Hwf2 by (by apply db_wf_all_sessions, Access.db_wf_users).
  assert (users d2 = update user_id uid (standing_down now) (users d) /\ devices d2 = devices d /\
          ledger_of d2 = ledger_of (revoke_all_user_sessions uid now d)) as (Hu & Hd & Hl)
    by (subst d2; unfold revoke_all_user_sessions; cbn; by case_match).
  destruct (revoke_devices_people (Access.devices_of uid d2) now d2) as (P1 & P2 & P3 & P4).
  split; [congruence|]. split; [congruence|]. split; [rewrite <- Hl; by apply ledger_same|].
  intros m. pose proof (Access.revoke_devices_spec (Access.devices_of uid d2) now d2 0 Hwf2) as (_ & _ & _ & Ht).
  unfold Access.revoke_devices. rewrite Ht. replace (Access.devices_of uid d2) with (Access.devices_of uid d)
    by (unfold Access.devices_of; by rewrite Hd).
  replace (table m d2) with (table m d) by (subst d2; unfold revoke_all_user_sessions; case_match; by destruct m).
  apply Access.marked_withdrawn.
Qed.

(** C10: disabling an account that was active ends every session it has, for good and
    whatever else is asked; every peer and client of its devices that was requested,
    applying or active is revoking, and all others are as they were; its devices
    stay, and doing it again changes nothing. *)
Theorem disabled_account_is_out uid admin now w sm w' u :
  wf (ledger_of (db w)) -> db_wf (db w) -> get_user uid (db w) = Some u -> user_state u <> AccountState.DISABLED ->
  UserManagement.disable_user uid admin now w = (Ok sm, w') ->
  get_user uid (db w') = Some (standing_down now u) /\ devices (db w') = devices (db w) /\
  (forall s cs, s ∈ sessions (auth (db w)) -> session_user s = uid -> useless (session_id s) (act_all cs w')) /\
  (forall m, Forall2 (Access.withdrawn (Access.devices_of uid (db w)) now) (table m (db w)) (table m (db w'))) /\
  (forall admin2 now2, UserManagement.disable_user uid admin2 now2 w' = (Ok sm, w')).
Proof.
  intros Hl Hwf Hu Hs [Hb Hc]%transact_ok.
  assert (user_state u = AccountState.ACTIVE \/ user_state u = AccountState.SUSPENDED) as Hst.
  { unfold UserManagement.disable_body in Hb. erewrite bind_ok in Hb by reflexivity. rewrite Hu in Hb.
    destruct (user_state u) eqn:E; auto; done. }
  destruct (disable_body_run uid admin now w u Hu Hst) as [ev Hrun]. rewrite Hrun in Hb. injection Hb as <- <-.
  destruct (disabled_db_spec uid now (db w) Hwf) as (Hus & Hd & Hled & Hrows).
  assert (get_user uid (disabled_db uid now (db w)) = Some (standing_down now u)) as Hu'.
  { unfold get_user. rewrite Hus, scalar_update, Z.eqb_refl by done. unfold get_user in Hu. by rewrite Hu. }
  split; [exact Hu'|]. split; [exact Hd|]. split; [|split].
  - intros s cs Hin Hsu. apply ended_for_good. change (ledger_of _) with (ledger_of (disabled_db uid now (db w))).
    rewrite Hled. by apply revoke_all_ended.
  - intros m. specialize (Hrows m). by destruct m.
  - intros admin2 now2. unfold UserManagement.disable_user, transact.
    assert (UserManagement.disable_body uid admin2 now2 (with_db (add_audit_event ev (disabled_db uid now (db w))) w) =
      (Ok (UserManagement._user_summary (standing_down now u)), with_db (add_audit_event ev (disabled_db uid now (db w))) w)) as ->.
    { unfold UserManagement.disable_body. erewrite bind_ok by reflexivity.
      change (get_user uid _) with (get_user uid (disabled_db uid now (db w))). by rewrite Hu'. }
    unfold commit. by rewrite Hc.
Qed.

(** ** Changing an identity *)

Definition renamed (u' : User) (x : User) : User :=
  UserManagement.set_username (username u') (username_normalized u') (UserManagement.set_email (email u') (email_normalized u') x).

(** What the two steps do to the row [u] and to the users. *)
Definition renaming (uid : Z) (u u' : User) (w w' : world) : Prop :=
  exists evs, w' = with_db (with_audit (audit (db w) ++ evs) (with_users (update user_id uid (renamed u') (users (db w))) (db w))) w /\
    u' = renamed u' u.

Lemma update_same_row uid f g (us : list User) u :
  NoDup (user_id <$> us) -> scalar (fun x => user_id x =? uid) us = Some u -> f u = g u ->
  update user_id uid f us = update user_id uid g us.
Proof.
  intros Hnd [Hin Hid]%scalar_Some Hf. boolP. apply list_fmap_ext. intros k x Hx. cbn.
  destruct (user_id x =? uid) eqn:He; [|done]. boolP.
  by rewrite (same_id user_id us x u); [|done|by eapply list_elem_of_lookup_2|done|congruence].
Qed.
Lemma renaming_refl uid u w :
  NoDup (user_id <$> users (db w)) -> get_user uid (db w) = Some u -> renaming uid u u w w.
Proof.
  intros Hnd Hu. exists []. split; [|by destruct u]. rewrite app_nil_r.
  rewrite (update_same_row uid (renamed u) (fun x => x) _ u Hnd Hu) by (by destruct u).
  replace (update user_id uid (fun x => x) (users (db w))) with (users (db w)); [destruct w as [d c]; cbn; by destruct d|].
  unfold update. rewrite <- (list_fmap_id (users (db w))) at 1. apply list_fmap_ext. intros _ x _. cbn. by destruct (_ =? _).
Qed.
Lemma renaming_once uid f ev u w :
  NoDup (user_id <$> users (db w)) -> get_user uid (db w) = Some u -> f u = renamed (f u) u ->
  renaming uid u (f u) w (with_db (add_audit_event ev (UserManagement.update_user uid f (db w))) w).
Proof.
  intros Hnd Hu Hf. exists [ev]. split; [|done]. unfold UserManagement.update_user, Access.update_user.
  by rewrite (update_same_row uid f (renamed (f u)) _ u Hnd Hu Hf).
Qed.
Lemma renaming_row uid u u' w w' :
  renaming uid u u' w w' -> get_user uid (db w) = Some u -> NoDup (user_id <$> users (db w)) ->
  get_user uid (db w') = Some u' /\ NoDup (user_id <$> users (db w')).
Proof.
  intros (evs & -> & Hu') Hu Hnd. cbn. split; [|by rewrite update_ids]. unfold get_user in *. cbn.
  rewrite scalar_update, Z.eqb_refl, Hu by done. cbn. by rewrite <- Hu'.
Qed.
Lemma renaming_trans uid u u1 u2 w w1 w2 : renaming uid u u1 w w1 -> renaming uid u1 u2 w1 w2 -> renaming uid u u2 w w2.
Proof.
  intros (evs & -> & R1) (evs' & -> & R2). exists (evs ++ evs'). split; [|by rewrite R2, R1].
  assert (Hu : update user_id uid (renamed u2) (update user_id uid (renamed u1) (users (db w))) =
               update user_id uid (renamed u2) (users (db w))).
  { unfold update. rewrite <- list_fmap_compose. apply list_fmap_ext. intros _ x _. cbn.
    destruct (user_id x =? uid) eqn:He; cbn; [|by rewrite He]. change (user_id (renamed u1 x)) with (user_id x). by rewrite He. }
  destruct w as [d c]. cbn -[update] in *. rewrite Hu, app_assoc. by destruct d.
Qed.

Lemma change_email_ok uid admin e new_email u w u1 w1 :
  NoDup (user_id <$> users (db w)) -> get_user uid (db w) = Some u ->
  UserManagement.change_email uid admin e new_email u w = (Ok u1, w1) ->
  renaming uid u u1 w w1 /\ email_normalized u1 = default (email_normalized u) new_email /\
  username u1 = username u /\ username_normalized u1 = username_normalized u /\ (new_email = None -> email u1 = email u).
Proof.
  intros Hnd Hu. unfold UserManagement.change_email. destruct new_email as [a|]; [|intros [= <- <-]; by split; [apply renaming_refl|]].
  case_bool_decide as He; [intros [= <- <-]; by split; [apply renaming_refl|]|]. intros (o & w0 & [Ho ->]%read_ok & Hr)%bind_ok_inv.
  destruct o; [done|]. apply bind_ok_inv in Hr as (? & ? & ->%write_ok & Hr).
  apply bind_ok_inv in Hr as (? & ? & ->%write_ok & Hr). injection Hr as <- <-. split; [|done].
  refine (renaming_once uid (UserManagement.set_email (strip (default [] e)) a) _ u w Hnd Hu _). by destruct u.
Qed.
Lemma change_username_ok uid admin n new_username u w u1 w1 :
  NoDup (user_id <$> users (db w)) -> get_user uid (db w) = Some u ->
  UserManagement.change_username uid admin n new_username u w = (Ok u1, w1) ->
  renaming uid u u1 w w1 /\ username_normalized u1 = match n with None => username_normalized u | Some _ => new_username end /\
  email u1 = email u /\ email_normalized u1 = email_normalized u /\ (n = None -> username u1 = username u).
Proof.
  intros Hnd Hu. unfold UserManagement.change_username. destruct n as [t|]; [|intros [= <- <-]; by split; [apply renaming_refl|]].
  case_bool_decide as He; [intros [= <- <-]; by split; [apply renaming_refl|]|]. intros (o & w0 & [Ho ->]%read_ok & Hr)%bind_ok_inv.
  destruct o; [done|]. apply bind_ok_inv in Hr as (? & ? & ->%write_ok & Hr).
  apply bind_ok_inv in Hr as (? & ? & ->%write_ok & Hr). injection Hr as <- <-. split; [|done].
  refine (renaming_once uid (UserManagement.set_username (match strip t with [] => None | x => Some x end) new_username) _ u w Hnd Hu _).
  by destruct u.
Qed.

(** C11: a change of identity that returns sets the address and username it was asked
    for, in their normal form, keeps them nobody else's, and changes nothing else:
    not another column, another account, a session, a device or a link. *)
Theorem identity_change_is_only_that uid admin e n w sm w' :
  NoDup (user_id <$> users (db w)) -> UserManagement.change_identity uid admin e n w = (Ok sm, w') ->
  exists u u' evs, get_user uid (db w) = Some u /\ get_user uid (db w') = Some u' /\ sm = UserManagement._user_summary u' /\
    match e with
    | Some a => Identity.normalize_email a = Some (email_normalized u')
    | None => email u' = email u /\ email_normalized u' = email_normalized u
    end /\
    match n with
    | Some [] => username_normalized u' = None
    | Some t => Identity.normalize_username t = username_normalized u'
    | None => username u' = username u /\ username_normalized u' = username_normalized u
    end /\
    w' = with_db (with_audit (audit (db w) ++ evs) (with_users (update user_id uid (renamed u') (users (db w))) (db w))) w /\
    (forall x y, x ∈ users (db w') -> y ∈ users (db w') -> email_normalized x = email_normalized y -> x = y) /\
    (forall x y, x ∈ users (db w') -> y ∈ users (db w') -> is_Some (username_normalized x) ->
       username_normalized x = username_normalized y -> x = y).
Proof.
  intros Hnd. unfold UserManagement.change_identity.
  destruct (UserManagement.normalized_email e) as [ne|] eqn:He; [|done].
  destruct (UserManagement.normalized_username n) as [nn|] eqn:Hn; [|done]. intros [Hb Hc]%transact_ok.
  apply bind_ok_inv in Hb as (o & w0 & [-> ->]%read_ok & Hb). destruct (get_user uid (db w)) as [u|] eqn:Hu; [|done].
  destruct (UserManagement.deleted u); [done|]. apply bind_ok_inv in Hb as (u1 & w1 & H5%change_email_ok & Hb); [|done..].
  apply bind_ok_inv in Hb as (u2 & w2 & H6 & Hb). destruct H5 as (R1 & E1 & N1 & N1' & E1').
  destruct (renaming_row _ _ _ _ _ R1 Hu Hnd) as [Hu1 Hnd1]. apply change_username_ok in H6 as (R2 & N2 & E2 & E2' & N2'); [|done..].
  destruct (renaming_row _ _ _ _ _ R2 Hu1 Hnd1) as [Hu2 _]. injection Hb as <- <-.
  destruct (renaming_trans _ _ _ _ _ _ _ R1 R2) as (evs & Hw & _). exists u, u2, evs.
  do 3 (split; [done|]). split; [|split; [|split; [done|]]].
  - destruct e as [a|]; cbn in He; [|injection He as <-; cbn in E1; split; [rewrite E2; auto|congruence]].
    destruct (Identity.normalize_email a) as [x|]; [|done]. injection He as <-. cbn in E1. congruence.
  - destruct n as [[|c t]|]; cbn in Hn.
    + injection Hn as <-. done.
    + destruct (Identity.normalize_username (c :: t)) as [x|]; [|done]. injection Hn as <-. congruence.
    + injection Hn as <-. split; [rewrite N2'; [done|done]|congruence].
  - apply andb_true_iff in Hc as [_ Hc]. unfold auth_constraints in Hc. boolP. split.
    + intros x y Hx Hy Hxy. by eapply (unique_key always email_normalized).
    + intros x y Hx Hy Hsx Hxy. eapply (unique_key in_use username_normalized); try done; unfold in_use; apply bool_decide_eq_true_2.
      * by apply not_eq_None_Some.
      * rewrite <- Hxy. by apply not_eq_None_Some.
Qed.

End Administration.
End UserAdminLife.
