(* ===== verification/DeviceLife.v ===== *)
(** * A revoked device stays revoked

    Neither the user service nor anything done to accounts ever makes a revoked
    device active again, so whichever way a device was revoked, by an
    administrator or by its owner, its sessions are out for good. *)

From stdpp Require Import relations.
From S2P Require Import Prelude PyText PyBytes PyTime Json IpAddress Usage ApiStore AccessToken OpaqueToken RedisState XrayCredential Access AuthStore UserAuth SessionLedger UserSessions UserAdmin UserAdminLife.
Import Db AuthTx TxLogic SessionRevocation SessionLedger.

Module DeviceLife.

(** ** The relation *)

(** Device [i] was registered once, and if it is still known, it is revoked. *)
Definition out (i : Z) (d : DB) : Prop :=
  i < next_id d /\ forall x, x ∈ devices d -> device_id x = i -> device_state x = LifecycleState.REVOKED.
Definition device_rel (d d' : DB) : Prop := next_id d <= next_id d' /\ forall i, out i d -> out i d'.

#[export] Instance device_rel_tx : TxRel device_rel.
Proof.
  split.
  - split; [intros d; by split|]. intros d1 d2 d3 [H1 H2] [H3 H4]. split; [lia|auto].
  - by intros d d' [Hn _].
  - intros d n Hn. split; [done|]. intros i [Hi Hx]. split; [cbn; lia|exact Hx].
Qed.

Lemma rel_same d d' : devices d' = devices d -> next_id d <= next_id d' -> device_rel d d'.
Proof. intros Hd Hn. split; [done|]. intros i [Hi Hx]. split; [lia|]. by rewrite Hd. Qed.
Lemma rel_update id f d :
  (forall x, device_id (f x) = device_id x) ->
  (forall x, device_state x = LifecycleState.REVOKED -> device_state (f x) = LifecycleState.REVOKED) ->
  device_rel d (UserAuth.update_device id f d).
Proof.
  intros Hi Hs. split; [done|]. intros i [Hn Hx]. split; [done|]. intros y Hy Hid. cbn in Hy.
  apply elem_of_update in Hy as [(x & Hin & _ & ->)|[Hin _]]; [|auto]. apply Hs, Hx; [done|]. by rewrite <- Hi.
Qed.
Lemma rel_add x d : device_id x = next_id d -> device_rel d (UserAuth.add_device x (with_next_id (next_id d + 1) d)).
Proof.
  intros Hx. split; [cbn; lia|]. intros i [Hn Ho]. split; [cbn; lia|]. intros y [Hy|Hy]%elem_of_app Hid; [auto|].
  apply list_elem_of_singleton in Hy as ->. lia.
Qed.

(** Changes that leave devices and identifiers alone. *)
Definition aside (d d' : DB) : Prop := devices d' = devices d /\ next_id d' = next_id d.
Lemma rel_aside d d' : aside d d' -> device_rel d d'.
Proof. intros [Hd Hn]. apply rel_same; [done|lia]. Qed.
Lemma aside_session s now d : aside d (revoke_session s now d).
Proof. unfold revoke_session. by case_match. Qed.
Lemma aside_device_sessions dev now d : aside d (revoke_active_device_sessions dev now d).
Proof. unfold revoke_active_device_sessions. by case_match. Qed.
Lemma aside_all_sessions u now d : aside d (revoke_all_user_sessions u now d).
Proof. unfold revoke_all_user_sessions. by case_match. Qed.
Lemma aside_other_sessions u k now d : aside d (UserAuth.revoke_other_sessions u k now d).
Proof. unfold UserAuth.revoke_other_sessions. by case_match. Qed.
Lemma aside_people d d' : UserSessions.same_people d d' -> aside d d'.
Proof. intros (_ & Hn & _ & Hd). done. Qed.
Lemma aside_credentials dev now d : aside d (Access.revoke_device_credentials dev now d).2.
Proof. apply aside_people, UserSessions.revoke_credentials_people. Qed.
Lemma aside_devices devs now d : aside d (Access.revoke_devices devs now d).2.
Proof. apply aside_people, UserAdminLife.revoke_devices_people. Qed.
Lemma aside_own dev now d : aside d (OwnAccount._revoke_device_credentials dev now d).2.
Proof. rewrite UserAdminLife.own_revocation. apply aside_credentials. Qed.

Lemma rel_erase_devices now ds d : device_rel d (foldl (Erasure.erase_one_device now) d ds).
Proof.
  revert d. induction ds as [|x ds IH]; intros d; [reflexivity|]. cbn [foldl]. etrans; [|apply IH]. unfold Erasure.erase_one_device.
  pose proof (aside_credentials (device_id x) now d) as Ha. destruct (Access.revoke_device_credentials _ _ _) as [n d1]. cbn [snd] in Ha.
  etrans; [by apply rel_aside|]. apply (rel_update (device_id x) (Erasure.erase_device now)); done.
Qed.
Lemma rel_erase `{Erasure.PgLower} {E} (u : User) now d :
  exists d', Erasure.erase_account (E := E) u now d = (Ok tt, d') /\ device_rel d d'.
Proof.
  eexists. split; [reflexivity|]. cbv zeta. set (ds := scalars _ (devices d)). etrans; [apply (rel_erase_devices now ds)|].
  generalize (foldl (Erasure.erase_one_device now) d ds). intros d1. apply rel_same; [done|]. cbn. lia.
Qed.

(** ** Every operation *)

Notation traced := (TxLogic.traced device_rel).
Lemma device_traced_erase `{Erasure.PgLower} {E} (u : User) now w : traced (on_db (E := E) (Erasure.erase_account u now)) w.
Proof.
  unfold TxLogic.traced, wp, on_db. destruct (rel_erase (E := failure E) u now (db w)) as (d' & -> & Hr). cbn.
  split; [apply Hr|done].
Qed.
Lemma traced_commit {A} e w : traced (UserAuth.commit_and_raise e : UserAuth.T A) w.
Proof. apply traced_committed, _. Qed.
Lemma device_traced_of_token {A} (r : result OpaqueToken.exn A) w : traced (UserAuth.of_token r) w.
Proof. apply traced_lift, _. Qed.

Create HintDb aside.
#[export] Hint Resolve aside_session aside_device_sessions aside_all_sessions aside_other_sessions aside_credentials
  aside_devices aside_own : aside.
#[local] Hint Resolve device_traced_erase device_traced_of_token : traced.
#[local] Hint Resolve @traced_commit : traced.
#[local] Hint Extern 4 (TxLogic.traced _ (write _) _) =>
  (apply traced_write; [apply _|]; solve [apply rel_aside; by split | apply rel_aside; auto with aside
                                         | apply rel_update; done]) : traced.

Section Services.
Context `{HMAC} `{JWT} `{Passwords.Argon2} `{Identity.EmailValidator} `{Erasure.PgLower} `{XrayCredential.AEAD}.
Context (settings : UserAuth.Settings) (token_peppers : list (Z * text)) (jwt_signer : signing_key)
  (verification_keys : list (text * verification_key)) (dummy_hash : text)
  (redis_keys : list (Z * text)) (redis_version : Z) (redis_prefix : text)
  (ring : list (Z * text)) (usage_digest : text -> text).

Lemma device_traced_require buckets limit request w :
  traced (UserAuth._require_rate_limit settings redis_keys redis_version redis_prefix buckets limit request) w.
Proof. unfold UserAuth._require_rate_limit, UserAuth.rate_limit, UserAuth._add_audit. trace. Qed.
#[local] Hint Resolve device_traced_require : traced.
Lemma device_traced_register u name plat version hw request w :
  traced (UserAuth.register_device settings token_peppers u name plat version hw request) w.
Proof.
  unfold UserAuth.register_device, UserAuth.hash_hardware, UserAuth._add_audit. apply traced_bind; [apply _|trace|]. intros n w1 _ _.
  case_match; [trace|]. apply traced_bind; [apply _|trace|]. intros [v k] w2 _ _.
  apply (traced_draw device_rel (fun i => UserAuth.add_device _)); [|trace]. by apply rel_add.
Qed.
#[local] Hint Resolve device_traced_register : traced.

Lemma traced_check identifier password prefix request now w :
  traced (UserAuth.check_credentials settings dummy_hash redis_keys redis_version redis_prefix identifier password prefix request now) w.
Proof. unfold UserAuth.check_credentials, UserAuth._add_audit. trace. Qed.
Lemma traced_upgrade u password salt w : traced (UserAuth.upgrade_hash u password salt) w.
Proof. unfold UserAuth.upgrade_hash, UserAuth.hash_password, UserAuth.reject. trace. Qed.
Lemma traced_resolve u dev name plat version hw request w :
  traced (UserAuth._resolve_device settings token_peppers u dev name plat version hw request) w.
Proof.
  unfold UserAuth._resolve_device, UserAuth._reuse_by_hardware, UserAuth._backfill_hardware, UserAuth.hash_hardware. trace.
Qed.
Lemma traced_open user dev now random w :
  traced (UserAuth.open_session settings token_peppers jwt_signer user dev now random) w.
Proof.
  unfold UserAuth.open_session, UserAuth._new_refresh_token, UserAuth.issue_token, UserAuth.digest_token, UserAuth._add_audit,
    UserAuth._issue_access. trace.
Qed.
Lemma device_traced_confirm p password request now w :
  traced (UserAuth._confirm_password settings dummy_hash redis_keys redis_version redis_prefix p password request now) w.
Proof. unfold UserAuth._confirm_password, UserAuth._add_audit. trace. Qed.
Lemma traced_refresh d request now random w :
  traced (UserAuth.refresh_body settings token_peppers jwt_signer d request now random) w.
Proof.
  unfold UserAuth.refresh_body, UserAuth.end_session, UserAuth.rotate, UserAuth._new_refresh_token, UserAuth.issue_token,
    UserAuth.digest_token, UserAuth._add_audit, UserAuth._issue_access, UserAuth.reject. trace.
Qed.
#[local] Hint Resolve traced_check traced_upgrade traced_resolve traced_open device_traced_confirm traced_refresh : traced.

Lemma device_keeps_transact {E A} (e : E) (m : prog world (failure E) A) w : traced m w -> keeps device_rel (transact e m) w.
Proof. intros Ht. exact (transact_traced device_rel e m w Ht). Qed.
Lemma device_keeps_limit buckets limit w :
  keeps device_rel (UserAuth._require_rate_limit_without_session settings redis_keys redis_version redis_prefix buckets limit) w.
Proof.
  apply keeps_bind; [apply _| |intros []; intros; [apply keeps_ret|apply keeps_raise]; apply _].
  apply keeps_still; [apply _|]. unfold UserAuth.outside, UserAuth.rate_limit, on_redis.
  by destruct (RedisState.rate_limit _ _ _ _ _ _ _) as [[a|e] c].
Qed.
Lemma keeps_hash password salt w : keeps device_rel (UserAuth.outside (UserAuth.hash_password password salt)) w.
Proof. apply keeps_still; [apply _|]. done. Qed.

Notation perform := (UserSessions.perform settings token_peppers jwt_signer verification_keys dummy_hash redis_keys redis_version redis_prefix).
Lemma perform_devices c w : device_rel (db w) (db (perform c w)).
Proof.
  destruct c; cbn [UserSessions.perform].
  - apply device_keeps_transact. trace.
  - refine (keeps_bind _ _ _ _ (device_keeps_limit _ _ _) _). intros _ w1 _. case_match; [apply device_keeps_transact; trace|].
    apply keeps_bind; [apply _| |intros; apply keeps_raise, _]. apply device_keeps_transact. unfold UserAuth._add_audit. trace.
  - unfold UserAuth.logout. case_match; [|reflexivity]. apply device_keeps_transact. unfold UserAuth.logout_body, UserAuth._add_audit. trace.
  - unfold UserAuth.authenticate_access_token. case_match; [|reflexivity]. apply device_keeps_transact.
    unfold UserAuth._load_principal, UserAuth.reject. trace.
  - apply device_keeps_transact. unfold UserAuth.issue_reset, UserAuth.issue_token, UserAuth.digest_token, UserAuth._add_audit. trace.
  - refine (keeps_bind _ _ _ _ (device_keeps_limit _ _ _) _). intros _ w1 _. refine (keeps_bind _ _ _ _ (device_keeps_limit _ _ _) _). intros _ w2 _.
    refine (keeps_bind _ _ _ _ (keeps_hash _ _ _) _). intros h w3 _. case_match; [|by apply keeps_raise, _]. apply device_keeps_transact.
    unfold UserAuth.reset_body, UserAuth.reject, UserAuth._add_audit. trace.
  - refine (keeps_bind _ _ _ _ (keeps_hash _ _ _) _). intros h w3 _. apply device_keeps_transact. unfold UserAuth._add_audit. trace.
  - apply device_keeps_transact. unfold UserAuth._add_audit. trace.
Qed.

Notation administer := (UserAdminLife.administer ring usage_digest).
Lemma administer_devices c w : device_rel (db w) (db (administer c w)).
Proof.
  assert (forall A uid admin f reason (a : A), keeps device_rel (_ ← UserManagement.set_column uid admin f reason; mret a) w) as Hcol.
  { intros. apply keeps_bind; [apply _| |intros; apply keeps_ret, _]. apply device_keeps_transact.
    unfold UserManagement.rejected, UserManagement.audit_event. trace. }
  destruct c as [u a now|u a|u a now|u a e n|u a l|u a x|u a dns|u d a dns|u a q L|u d a now|u s a now|u d c now];
    cbn [UserAdminLife.administer]; [..|].
  - apply device_keeps_transact. unfold UserManagement.disable_body, UserManagement.rejected, UserManagement.audit_event. trace.
  - apply device_keeps_transact. unfold UserManagement.reactivate_body, UserManagement.rejected, UserManagement.audit_event. trace.
  - apply device_keeps_transact. unfold UserManagement.delete_body, UserManagement.rejected, UserManagement.audit_event. trace.
  - unfold UserManagement.change_identity. destruct (UserManagement.normalized_email e), (UserManagement.normalized_username n);
      try reflexivity. apply device_keeps_transact.
    unfold UserManagement.change_email, UserManagement.change_username, UserManagement.rejected, UserManagement.audit_event. trace.
  - apply Hcol.
  - apply Hcol.
  - apply Hcol.
  - apply device_keeps_transact. unfold UserManagement.rejected, UserManagement.audit_event. trace.
  - change (keeps device_rel (UserManagement.grant_traffic_quota ring usage_digest u a q L) w). unfold UserManagement.grant_traffic_quota.
    apply keeps_bind; [apply _| |intros _ w1 _]; [apply device_keeps_transact; unfold UserManagement.rejected; trace|].
    apply keeps_bind; [apply _| |intros ch w2 _].
    + unfold keeps, Access.grant_traffic_quota, transaction. destruct (get_user u (db w1)); cbn; repeat case_match; simplify_eq; by apply rel_aside.
    + apply keeps_bind; [apply _| |intros; apply keeps_ret, _]. apply device_keeps_transact. unfold UserManagement.audit_event. trace.
  - apply device_keeps_transact. unfold UserManagement.revoke_device_body, UserManagement.rejected, UserManagement.audit_event. trace.
  - apply device_keeps_transact. unfold UserManagement.revoke_session_body, UserManagement.rejected, UserManagement.audit_event. trace.
  - unfold OwnAccount.revoke_device. destruct (d =? c); [reflexivity|]. apply device_keeps_transact. unfold OwnAccount.revoke_body. trace.
Qed.

Notation act_all := (UserAdminLife.act_all settings token_peppers jwt_signer verification_keys dummy_hash redis_keys redis_version
                       redis_prefix ring usage_digest).
Lemma act_all_devices cs w : device_rel (db w) (db (act_all cs w)).
Proof.
  revert w. induction cs as [|c cs IH]; intros w; [reflexivity|]. etrans; [|apply IH].
  destruct c as [c|c]; [apply perform_devices|apply administer_devices].
Qed.

(** ** Out for good *)

Notation authenticate := (UserAuth.authenticate_access_token settings verification_keys).
Notation refresh := (UserAuth.refresh settings token_peppers jwt_signer redis_keys redis_version redis_prefix).
Definition shut_out (dev : Z) (w : world) : Prop :=
  (forall tok now p w', authenticate tok now w = (Ok p, w') -> UserAuth.principal_device p <> dev) /\
  (forall v request now random pair w' t s, UserSessions.token_row token_peppers v (db w) = Some t ->
     UserAuth.get_session (token_owner t) (db w) = Some s -> session_device s = dev ->
     refresh v request now random w <> (Ok pair, w')).
Lemma out_shut_out dev w : out dev (db w) -> shut_out dev w.
Proof.
  intros [_ Ho]. assert (forall d x, d = dev -> get_device d (db w) = Some x -> UserAuth.device_active x = false) as Hno.
  { intros d x -> [Hin Hid]%scalar_Some. boolP. unfold UserAuth.device_active. by rewrite (Ho x Hin Hid). }
  split.
  - intros tok now p w' (c & s & u & dv & _ & -> & _ & _ & _ & _ & _ & _ & _ & _ & Hd & Ha & _)%UserSessions.authenticate_ok Hp.
    rewrite (Hno _ dv Hp Hd) in Ha. done.
  - intros v request now random pair w' t s Ht Hs Hd (t' & s' & u & a & w0 & Ht' & Hs' & He & _)%UserSessions.refresh_ok.
    rewrite Ht in Ht'. injection Ht' as <-. rewrite Hs in Hs'. injection Hs' as <-.
    unfold UserAuth._refresh_is_eligible, UserAuth._session_is_eligible in He.
    destruct (get_device (session_device s) (db w)) as [x|] eqn:Hx; [rewrite (Hno _ x Hd Hx) in He|]; by rewrite !andb_false_r in He.
Qed.

(** A device that was not revoked yet, taken away by an administrator or by its
    owner from another device. *)
Inductive taken_away (uid dev now : Z) (w w' : world) : Prop :=
| by_administrator admin sm x :
    UserManagement.owned_device uid dev (db w) = Some x -> device_state x <> LifecycleState.REVOKED ->
    UserManagement.revoke_device uid dev admin now w = (Ok sm, w') -> taken_away uid dev now w w'
| by_owner current : OwnAccount.revoke_device uid dev current now w = (Ok tt, w') -> taken_away uid dev now w w'.

Lemma db_wf_device dev f d : db_wf d -> db_wf (UserAuth.update_device dev f d).
Proof. intros [[] ?]. by repeat constructor. Qed.
Lemma db_wf_device_sessions dev now d : db_wf d -> db_wf (revoke_active_device_sessions dev now d).
Proof. intros Hd. unfold revoke_active_device_sessions. case_match; [done|]. by apply UserAdminLife.db_wf_auth, UserAdminLife.db_wf_auth. Qed.

Lemma device_sessions_table dev now d m : table m (revoke_active_device_sessions dev now d) = table m d.
Proof. unfold revoke_active_device_sessions. case_match; by destruct m. Qed.

(** Both end with the credentials revoked in a database whose device row is. *)
Lemma taken_away_run uid dev now w w' :
  taken_away uid dev now w w' -> db_wf (db w) ->
  exists x d1 ev, x ∈ devices (db w) /\ device_id x = dev /\ db_wf d1 /\ next_id d1 = next_id (db w) /\
    (forall m, table m d1 = table m (db w)) /\
    devices d1 = update device_id dev (UserManagement.revoke_device_row now) (devices (db w)) /\
    db w' = add_audit_event ev (Access.revoke_device_credentials dev now d1).2.
Proof.
  intros [admin sm x Hx Hs [Hb _]%transact_ok|current Hr] Hwf.
  - unfold UserManagement.revoke_device_body in Hb. erewrite bind_ok in Hb by reflexivity. rewrite Hx, bool_decide_eq_false_2 in Hb by done.
    apply scalar_Some in Hx as [Hin Hid]. boolP.
    set (d1 := revoke_active_device_sessions dev now (UserAuth.update_device dev (UserManagement.revoke_device_row now) (db w))).
    destruct (aside_device_sessions dev now (UserAuth.update_device dev (UserManagement.revoke_device_row now) (db w))) as [Hd Hn].
    exists x, d1. eexists. split; [done|]. split; [done|]. split; [by apply db_wf_device_sessions, db_wf_device|].
    split; [exact Hn|]. split; [intros m; unfold d1; by rewrite device_sessions_table; destruct m|]. split; [exact Hd|]. injection Hb as <- <-. reflexivity.
  - unfold OwnAccount.revoke_device in Hr. destruct (dev =? current); [done|]. apply transact_ok in Hr as [Hb _].
    unfold OwnAccount.revoke_body in Hb. erewrite bind_ok in Hb by reflexivity.
    destruct (UserManagement.owned_device uid dev (db w)) as [x|] eqn:Hx; [|done]. case_bool_decide as Hs; [done|].
    apply scalar_Some in Hx as [Hin Hid]. boolP.
    exists x, (UserAuth.update_device dev (UserManagement.revoke_device_row now) (db w)). eexists.
    split; [done|]. split; [done|]. split; [by apply db_wf_device|]. split; [done|]. split; [by intros []|]. split; [done|].
    rewrite <- UserAdminLife.own_revocation. injection Hb as <-. reflexivity.
Qed.

(** C9: a device that is taken away is out for good: its row says revoked, every peer
    and client of it that was requested, applying or active is revoking while all
    other peers and clients are as they were, and whatever is asked of the services
    afterwards no token of a session on it authenticates or refreshes. *)
Theorem revoked_device_is_out uid dev now w w' :
  db_wf (db w) -> (forall x, x ∈ devices (db w) -> device_id x < next_id (db w)) -> taken_away uid dev now w w' ->
  out dev (db w') /\ (forall m, Forall2 (Access.withdrawn [dev] now) (table m (db w)) (table m (db w'))) /\
  forall cs, shut_out dev (act_all cs w').
Proof.
  intros Hwf Hfresh Ht. destruct (taken_away_run _ _ _ _ _ Ht Hwf) as (x & d1 & ev & Hin & Hid & Hwf1 & Hn & Htab & Hd & Hw).
  destruct (aside_credentials dev now d1) as [Hcd Hcn].
  assert (out dev (db w')) as Hout.
  { rewrite Hw. split; [change (dev < next_id (Access.revoke_device_credentials dev now d1).2); rewrite Hcn, Hn, <- Hid; auto|].
    intros y Hy Hyd. change (y ∈ devices (Access.revoke_device_credentials dev now d1).2) in Hy. rewrite Hcd, Hd in Hy.
    apply elem_of_update in Hy as [(z & _ & _ & ->)|[_ Hne]]; done. }
  split; [done|]. split.
  - intros m. rewrite Hw, <- Htab. replace (table m (add_audit_event _ _)) with (table m (Access.revoke_device_credentials dev now d1).2)
      by (by destruct m). by apply Access.revoke_device_withdrawn.
  - intros cs. apply out_shut_out. by apply (act_all_devices cs w').
Qed.

(** The owner's revocation leaves the sessions of the device as they were, active
    rows included; the administrator's ends them. *)
Lemma own_revocation_keeps_sessions uid dev current now w w' :
  OwnAccount.revoke_device uid dev current now w = (Ok tt, w') -> sessions (auth (db w')) = sessions (auth (db w)).
Proof.
  unfold OwnAccount.revoke_device. destruct (dev =? current); [done|]. intros [Hb _]%transact_ok.
  unfold OwnAccount.revoke_body in Hb. erewrite bind_ok in Hb by reflexivity.
  destruct (UserManagement.owned_device uid dev (db w)) as [x|]; [|done]. case_bool_decide as Hs; [done|].
  injection Hb as <-. set (d1 := UserAuth.update_device dev (UserManagement.revoke_device_row now) (db w)).
  change (sessions (auth (OwnAccount._revoke_device_credentials dev now d1).2) = sessions (auth d1)).
  rewrite UserAdminLife.own_revocation. by destruct (UserSessions.revoke_credentials_people dev now d1) as (-> & _).
Qed.

End Services.
End DeviceLife.
