(* ===== verification/SessionScenario.v ===== *)
(** * A session's life

    One account on one device, followed through the service: signed in, refreshed,
    its spent token replayed; signed out; its password reset and changed; deleted.
    The hypotheses of the theorems of [UserSessions] hold along the way. *)

From stdpp Require Import relations.
From S2P Require Import Prelude PyText PyBytes Json IpAddress Usage ApiStore AccessToken OpaqueToken RedisState AbuseControl XrayCredential Access AuthStore UserAuth SessionLedger UserSessions.
Import Db AuthTx TxLogic SessionRevocation UserAuth SessionLedger UserSessions.

Module SessionScenario.

#[local] Existing Instance OpaqueToken.example_hmac.
#[local] Existing Instance AccessToken.example_jwt.

(** A hash that carries the password: enough for Argon2's two laws. *)
#[local] Instance example_argon2 : Passwords.Argon2 := {|
  Passwords.argon2_hash p _ := str "$argon2id$" ++ p;
  Passwords.argon2_verify h p := bool_decide (h = str "$argon2id$" ++ p);
  Passwords.argon2_needs_rehash _ := false;
  Passwords.argon2_verify_hash p _ := bool_decide_eq_true_2 _ eq_refl;
  Passwords.argon2_hash_nonempty _ _ := ltac:(discriminate);
|}.
#[local] Instance example_validator : Identity.EmailValidator := Some.
#[local] Instance example_lower : Erasure.PgLower := Identity.casefold.

Definition settings : Settings :=
  {| user_login_rate_limit := 10; user_network_rate_limit := 50; auth_rate_window_seconds := 900;
     refresh_token_ttl_days := 30; token_key_version := 2; access_token_ttl_seconds := 900;
     jwt_issuer := str "nebula"; jwt_audience := str "nebula-clients"; jwt_key_id := str "k1";
     password_reset_rate_limit := 5; password_reset_ttl_minutes := 30 |}.
Notation ring := OpaqueToken.example_ring.
Notation signer := (42 : @signing_key AccessToken.example_jwt).
Notation keys := AccessToken.example_keys.
Definition dummy : text := str "$argon2id$dummy".
Definition prefix : text := str "nebula:auth:v1".
Definition T0 : Z := 1785000000500.
Definition secret : text := str "correct horse battery".
Definition network : text := str "192.0.2.0/24".

(** ** The calls, with this configuration *)
Notation login := (UserAuth.login settings ring signer dummy ring 1 prefix).
Notation refresh := (UserAuth.refresh settings ring signer ring 1 prefix).
Notation logout := (UserAuth.logout ring).
Notation perform_all := (UserSessions.perform_all settings ring signer keys dummy ring 1 prefix).

Definition ada : User :=
  {| user_id := 1; email := str "A@example.org"; email_normalized := str "a@example.org";
     username := Some (str "ada"); username_normalized := Some (str "ada"); password_hash := Some (str "$argon2id$" ++ secret);
     user_state := AccountState.ACTIVE; device_limit := 2; user_expires_at := None; activated_at := Some 10;
     disabled_at := None; traffic_quota_bytes := None; traffic_baseline_bytes := 0; quota_exhausted_at := None;
     user_dns_profile := str "default" |}.
Definition start : world :=
  {| db := Access.update_user 1 (fun _ => ada) (example_db ProvisioningState.ACTIVE); redis := AbuseControl.empty_redis |}.

Definition random (n : Z) : text := to_bytes 32 (12345678901234567890 + n).

Definition no_pair : UserTokenPair := {| access_token := []; refresh_token := []; access_expires_in := 0 |}.
Definition pair_of (r : result exn UserTokenPair * world) : UserTokenPair := match r.1 with Ok p => p | Err _ => no_pair end.

Lemma wf_start : wf (ledger_of (db start)).
Proof. constructor; cbn; try apply NoDup_nil_2; try apply Forall_nil_2; intros k k' Hk; by apply not_elem_of_nil in Hk. Qed.

(** ** Signing in and refreshing *)

Definition run1 := Eval vm_compute in login (str "Ada") secret (Some 2) (str "laptop") DevicePlatform.ANDROID (str "1.1") network 900 None
                     T0 (random 1) [] start.
Definition pair1 := pair_of run1.
Definition w1 := run1.2.
Lemma run1_ok : login (str "Ada") secret (Some 2) (str "laptop") DevicePlatform.ANDROID (str "1.1") network 900 None
                  T0 (random 1) [] start = (Ok pair1, w1).
Proof. vm_compute. reflexivity. Qed.

Definition run2 := Eval vm_compute in refresh (refresh_token pair1) 901 (T0 + 60000) (random 2) w1.
Definition pair2 := pair_of run2.
Definition w2 := run2.2.
Lemma run2_ok : refresh (refresh_token pair1) 901 (T0 + 60000) (random 2) w1 = (Ok pair2, w2).
Proof. vm_compute. reflexivity. Qed.

Definition calls12 : list call :=
  [Login (str "Ada") secret (Some 2) (str "laptop") DevicePlatform.ANDROID (str "1.1") network 900 None T0 (random 1) [];
   Refresh (refresh_token pair1) 901 (T0 + 60000) (random 2)].
(** What a call leaves well formed. *)
Notation perform := (UserSessions.perform settings ring signer keys dummy ring 1 prefix).
Lemma wf_perform c w w' : perform c w = w' -> wf (ledger_of (db w)) -> wf (ledger_of (db w')).
Proof. intros <-. apply steps_wf, perform_steps. Qed.

Lemma wf_w1 : wf (ledger_of (db w1)).
Proof.
  apply (wf_perform (Login (str "Ada") secret (Some 2) (str "laptop") DevicePlatform.ANDROID (str "1.1") network 900 None T0
                       (random 1) []) start); [vm_compute; reflexivity|exact wf_start].
Qed.
Lemma wf_w2 : wf (ledger_of (db w2)).
Proof.
  apply (wf_perform (Refresh (refresh_token pair1) 901 (T0 + 60000) (random 2)) w1); [vm_compute; reflexivity|exact wf_w1].
Qed.

Lemma sessions_stay_well_formed_witness :
  wf (ledger_of (db (perform_all calls12 start))) /\
  length (held (ledger_of (db (perform_all calls12 start)))) = 1%nat /\
  length (tokens (ledger_of (db (perform_all calls12 start)))) = 2%nat.
Proof.
  split; [|split; vm_compute; reflexivity].
  exact (sessions_stay_well_formed settings ring signer keys dummy ring 1 prefix calls12 start wf_start).
Defined.

Lemma login_opens_one_session_witness :
  exists s k, token_row ring (refresh_token pair1) (db w1) = Some k /\ token_owner k = session_id s /\
    session_user s = 1 /\ session_expires_at s = T0 + 30 * DAY.
Proof.
  destruct (login_opens_one_session settings ring signer dummy ring 1 prefix _ _ _ _ _ _ _ _ _ _ _ _ _ _ _ run1_ok)
    as (u & s & k & Hu & _ & _ & Hk & _ & Ho & _ & _ & Hsu & He & _).
  exists s, k. split; [exact Hk|]. split; [exact Ho|]. split; [|exact He]. rewrite Hsu.
  assert (_find_user (_normalize_identifier (str "Ada")) (db start) = Some ada) as Hf by (vm_compute; reflexivity).
  rewrite Hf in Hu. injection Hu as <-. reflexivity.
Defined.

Lemma refresh_rotates_witness :
  exists t k, token_row ring (refresh_token pair1) (db w1) = Some t /\ token_row ring (refresh_token pair2) (db w2) = Some k /\
    token_owner k = token_owner t /\ token_expires_at k <= token_expires_at t /\
    session_active <$> sessions (auth (db w2)) = session_active <$> sessions (auth (db w1)).
Proof.
  destruct (refresh_rotates settings ring signer ring 1 prefix _ _ _ _ _ _ _ run2_ok)
    as (t & s & k & Ht & _ & _ & _ & _ & _ & _ & _ & _ & Hk & _ & Ho & He & _).
  exists t, k. split; [exact Ht|]. split; [exact Hk|]. split; [exact Ho|]. split; [exact He|]. vm_compute. reflexivity.
Defined.

Lemma principal_is_genuine_witness :
  exists p, authenticate_access_token settings keys (access_token pair1) (T0 + 1000) w1 = (Ok p, w1) /\
    exists s, s ∈ sessions (auth (db w1)) /\ session_id s = principal_session p /\ session_active s = true.
Proof.
  assert (exists p, authenticate_access_token settings keys (access_token pair1) (T0 + 1000) w1 = (Ok p, w1)) as [p Hp]
    by (eexists; vm_compute; reflexivity).
  exists p. split; [exact Hp|].
  destruct (principal_is_genuine settings keys (access_token pair1) (T0 + 1000) w1 p w1) as (_ & _ & s & u & dv & Hs & Hid & _ & _ & Ha & _);
    [|exact Hp|].
  - intros key_id key _. exists key. reflexivity.
  - exists s. split; [exact Hs|]. split; [exact Hid|exact Ha].
Defined.

(** ** A spent token replayed *)

Lemma reuse_ends_the_session_witness :
  exists w3, refresh (refresh_token pair1) 902 (T0 + 120000) (random 3) w2 = (Err AuthenticationRejected, w3) /\
    ended 100 (ledger_of (db (perform_all [Refresh (refresh_token pair2) 903 (T0 + 180000) (random 4)] w3))).
Proof.
  assert (exists t, token_row ring (refresh_token pair1) (db w2) = Some t /\ token_state t = TokenState.CONSUMED /\
            token_owner t = 100) as (t & Ht & Hst & Ho)
    by (eexists; split; [vm_compute; reflexivity|split; vm_compute; reflexivity]).
  assert (exists c, RedisState.rate_limit ring 1 prefix [bucket (str "refresh-token") (refresh_token pair1)]
            (user_login_rate_limit settings) (auth_rate_window_seconds settings) (redis w2) = (Ok true, c)) as [c Hc]
    by (eexists; vm_compute; reflexivity).
  assert (consistent (db w2)) as Hcon by (vm_compute; reflexivity).
  destruct (reuse_ends_the_session settings ring signer keys dummy ring 1 prefix (refresh_token pair1) 902 (T0 + 120000)
              (random 3) w2 t c wf_w2 Hcon Ht Hst Hc) as (w3 & Hrun & Hend).
  exists w3. split; [exact Hrun|]. rewrite <- Ho. apply Hend.
Defined.

(** ** Signing out *)

(** A session is seen to have ended. *)
Definition endedb (i : Z) (l : ledger) : bool :=
  (i <? fresh l) && forallb (fun s => negb (session_id s =? i) || negb (session_active s)) (held l).
Lemma endedb_ok i l : endedb i l = true -> ended i l.
Proof.
  unfold endedb. rewrite andb_true_iff, forallb_forall. intros [Hf Hs]. boolP. split; [done|].
  intros s Hin%list_elem_of_In Hid. specialize (Hs s Hin). rewrite Hid, Z.eqb_refl in Hs. cbn [negb orb] in Hs. by boolP.
Qed.

Definition run_out := Eval vm_compute in logout (refresh_token pair2) (T0 + 120000) w2.
Lemma ended_session_never_returns_witness :
  ended 100 (ledger_of (db run_out.2)) /\
  useless settings ring signer keys ring 1 prefix 100 (perform_all calls12 run_out.2).
Proof.
  assert (ended 100 (ledger_of (db run_out.2))) as He by (apply endedb_ok; vm_compute; reflexivity).
  split; [exact He|]. exact (ended_session_never_returns settings ring signer keys dummy ring 1 prefix 100 calls12 run_out.2 He).
Defined.

Lemma logout_ends_the_session_witness :
  exists w', logout (refresh_token pair2) (T0 + 120000) w2 = (Ok tt, w') /\
    useless settings ring signer keys ring 1 prefix 100 (perform_all calls12 w') /\
    (forall r, r ∈ all_rows (db w') -> Access.revocable 2 r = false).
Proof.
  assert (exists t s, token_row ring (refresh_token pair2) (db w2) = Some t /\ get_session (token_owner t) (db w2) = Some s /\
            session_id s = 100 /\ session_device s = 2) as (t & s & Ht & Hs & Hid & Hdev)
    by (eexists; eexists; split; [vm_compute; reflexivity|split; [vm_compute; reflexivity|split; vm_compute; reflexivity]]).
  assert (db_wf (db w2)) as Hdb by (apply db_wfb_ok; vm_compute; reflexivity).
  assert (auth_constraints (db w2) = true) as Hauth by (vm_compute; reflexivity).
  destruct (logout_ends_the_session settings ring signer keys dummy ring 1 prefix (refresh_token pair2) (T0 + 120000) w2 t s
              wf_w2 Hdb Hauth Ht Hs) as (w' & Hrun & Huse & Hrow).
  exists w'. split; [exact Hrun|]. split; [rewrite <- Hid; apply Huse|]. rewrite <- Hdev. exact Hrow.
Defined.

(** ** Passwords *)

Notation confirm := (UserAuth.confirm_password_reset settings ring ring 1 prefix).
Definition run_request := Eval vm_compute in UserAuth.request_password_reset settings ring ring 1 prefix (str "a@example.org") network 904 true
                            (T0 + 120000) (random 5) w2.
Definition reset_raw : text := match run_request.1 with Ok (Some i) => reset_token i | _ => [] end.
Definition w_asked := run_request.2.
Definition fresh_secret : text := str "another horse battery".
Definition run_reset := Eval vm_compute in confirm reset_raw fresh_secret network (T0 + 180000) [] w_asked.
Lemma run_reset_ok : confirm reset_raw fresh_secret network (T0 + 180000) [] w_asked = (Ok tt, run_reset.2).
Proof. vm_compute. reflexivity. Qed.
Lemma wf_asked : wf (ledger_of (db w_asked)).
Proof.
  apply (wf_perform (RequestPasswordReset (str "a@example.org") network 904 true (T0 + 120000) (random 5)) w2);
    [vm_compute; reflexivity|exact wf_w2].
Qed.

Lemma reset_owner t : t ∈ password_reset_tokens (auth (db w_asked)) -> token_owner t = 1.
Proof.
  assert (forallb (fun k => token_owner k =? 1) (password_reset_tokens (auth (db w_asked))) = true) as Hall
    by (vm_compute; reflexivity).
  rewrite forallb_forall in Hall. intros Ht%list_elem_of_In. apply Z.eqb_eq. exact (Hall t Ht).
Qed.

Lemma password_reset_signs_out_witness :
  (exists u, get_user 1 (db w_asked) = Some u /\ forall s cs, s ∈ sessions (auth (db w_asked)) -> session_user s = user_id u ->
     useless settings ring signer keys ring 1 prefix (session_id s) (perform_all cs run_reset.2)) /\
  confirm reset_raw secret network (T0 + 181000) [] run_reset.2 <> (Ok tt, run_reset.2).
Proof.
  assert (NoDup (token_id <$> password_reset_tokens (auth (db w_asked)))) as Hnd
    by (apply (bool_decide_eq_true_1 _); vm_compute; reflexivity).
  destruct (password_reset_signs_out settings ring signer keys dummy ring 1 prefix reset_raw fresh_secret network
              (T0 + 180000) [] w_asked run_reset.2 wf_asked Hnd run_reset_ok)
    as (t & u & Ht & _ & _ & Hu & _ & _ & _ & Hagain & Hses).
  assert (token_owner t = 1) as Ho by (exact (reset_owner t Ht)). rewrite Ho in Hu.
  split; [|exact (Hagain _ _ _ _ _)]. exists u. split; [exact Hu|exact Hses].
Defined.

Definition me : AuthenticatedUser := {| principal_user := 1; principal_session := 100; principal_device := 2 |}.
Notation change := (UserAuth.change_password settings dummy ring 1 prefix).
Definition run_change := Eval vm_compute in change me secret fresh_secret 905 (T0 + 120000) [] w2.
Lemma run_change_ok : change me secret fresh_secret 905 (T0 + 120000) [] w2 = (Ok tt, run_change.2).
Proof. vm_compute. reflexivity. Qed.
Lemma password_change_signs_out_others_witness :
  exists u h, get_user 1 (db w2) = Some u /\ get_user 1 (db run_change.2) = Some (set_password h u) /\
    Passwords.argon2_verify h fresh_secret = true /\
    (forall s, s ∈ sessions (auth (db w2)) -> session_id s = 100 -> s ∈ sessions (auth (db run_change.2))).
Proof.
  destruct (password_change_signs_out_others settings ring signer keys dummy ring 1 prefix me secret fresh_secret 905
              (T0 + 120000) [] w2 run_change.2 wf_w2 run_change_ok) as (u & h & Hu & _ & _ & Hu' & Hv & _ & _ & Hmine).
  exists u, h. split; [exact Hu|]. split; [exact Hu'|]. split; [exact Hv|exact Hmine].
Defined.

(** ** Deletion *)

Notation delete := (UserAuth.delete_account settings dummy ring 1 prefix).
(** A mail that was sent to the address as it was typed. *)
Definition old_mail : EmailDelivery :=
  {| delivery_id := 60; deduplication_key := 61; template_code := str "account_approved"; recipient_address := str "A@example.org";
     subject_kind := str "account_request"; subject_id := 62; delivery_state := str "sent"; delivery_attempts := 1;
     available_at := 5; leased_until := None; sent_at := Some 6; provider_message_id := None; delivery_result := None |}.
Definition w3 : world := Eval vm_compute in with_db (with_email_deliveries [old_mail] (db w2)) w2.
Definition run_delete := Eval vm_compute in delete me secret 906 (T0 + 120000) w3.
Lemma run_delete_ok : delete me secret 906 (T0 + 120000) w3 = (Ok tt, run_delete.2).
Proof. vm_compute. reflexivity. Qed.
Lemma deleted_account_leaves_no_trace_witness :
  (exists u, get_user 1 (db w3) = Some u /\ forgotten u (T0 + 120000) (db w3) (db run_delete.2)) /\
  email_deliveries (auth (db w3)) = [old_mail] /\ email_deliveries (auth (db run_delete.2)) = [] /\
  state <$> wireguard_peers (db w3) = [ProvisioningState.ACTIVE] /\
  state <$> wireguard_peers (db run_delete.2) = [ProvisioningState.REVOKING].
Proof.
  assert (db_wf (db w3)) as Hdb by (apply db_wfb_ok; vm_compute; reflexivity).
  assert (lower_is_casefold (db w3)) as Hlow by (intros e _; reflexivity).
  destruct (deleted_account_leaves_no_trace settings ring signer keys dummy ring 1 prefix me secret 906 (T0 + 120000) w3
              run_delete.2 Hdb wf_w2 Hlow run_delete_ok) as (u & Hu & _ & _ & Hf & _).
  split; [exists u; split; [exact Hu|exact Hf]|]. repeat split; vm_compute; reflexivity.
Defined.

End SessionScenario.
