(* ===== verification/UserAdminScenario.v ===== *)
(** * An administrator at work

    The account of [SessionScenario], signed in on its laptop, is disabled; its
    device is taken away, by an administrator and by its owner; its address and
    username are changed.  The hypotheses of the theorems of [UserAdminLife] and
    [DeviceLife] hold along the way. *)

From stdpp Require Import relations.
From S2P Require Import Prelude PyText PyBytes Json IpAddress Usage ApiStore AccessToken OpaqueToken RedisState AbuseControl XrayCredential Access AuthStore UserAuth UserAdmin SessionLedger UserSessions UserAdminLife DeviceLife SessionScenario.
Import Db AuthTx SessionLedger UserSessions.

Module UserAdminScenario.
#[local] Existing Instance OpaqueToken.example_hmac.
#[local] Existing Instance AccessToken.example_jwt.
#[local] Existing Instance SessionScenario.example_argon2.
#[local] Existing Instance SessionScenario.example_validator.
#[local] Existing Instance SessionScenario.example_lower.
#[local] Existing Instance XrayCredential.plain_aead.

Notation settings := SessionScenario.settings.
Notation ring := OpaqueToken.example_ring.
Notation signer := (42 : @signing_key AccessToken.example_jwt).
Notation keys := AccessToken.example_keys.
Notation dummy := SessionScenario.dummy.
Notation prefix := SessionScenario.prefix.
Notation w2 := SessionScenario.w2.
Notation pair2 := SessionScenario.pair2.
Definition now : Z := SessionScenario.T0 + 120000.
Definition aes_ring : list (Z * text) := [(1, str "0123456789abcdef0123456789abcdef")].
Definition digest : text -> text := fun t => t.
Notation act_all := (UserAdminLife.act_all settings ring signer keys dummy ring 1 prefix aes_ring digest).
Notation useless := (UserSessions.useless settings ring signer keys ring 1 prefix).
Notation shut_out := (DeviceLife.shut_out settings ring signer keys ring 1 prefix).

(** What is asked afterwards: reactivate the account, refresh its last token, sign
    in again. *)
Definition afterwards : list (call + UserAdminLife.admin_call) :=
  [inr (UserAdminLife.Reactivate 1 9);
   inl (Refresh (UserAuth.refresh_token pair2) 903 (now + 60000) (SessionScenario.random 4));
   inl (Login (str "Ada") SessionScenario.secret (Some 2) (str "laptop") DevicePlatform.ANDROID (str "1.1")
          SessionScenario.network 904 None (now + 120000) (SessionScenario.random 5) [])].

Lemma db_w2 : db_wf (db w2).
Proof. apply db_wfb_ok. vm_compute. reflexivity. Qed.
Lemma users_w2 : NoDup (user_id <$> users (db w2)).
Proof. apply (bool_decide_eq_true_1 _). vm_compute. reflexivity. Qed.
Lemma devices_w2 x : x ∈ devices (db w2) -> device_id x < next_id (db w2).
Proof.
  assert (forallb (fun x => device_id x <? next_id (db w2)) (devices (db w2)) = true) as Hall by (vm_compute; reflexivity).
  rewrite forallb_forall in Hall. intros Hx%list_elem_of_In. apply Z.ltb_lt. exact (Hall x Hx).
Qed.

(** ** Disabling *)
Definition run_disable := Eval vm_compute in UserManagement.disable_user 1 9 now w2.
Lemma disabled_account_is_out_witness :
  (exists u, get_user 1 (db w2) = Some u /\ get_user 1 (db run_disable.2) = Some (UserAdminLife.standing_down now u)) /\
  (forall s, s ∈ sessions (auth (db w2)) -> session_user s = 1 -> useless (session_id s) (act_all afterwards run_disable.2)) /\
  Forall2 (Access.withdrawn [2] now) (wireguard_peers (db w2)) (wireguard_peers (db run_disable.2)) /\
  state <$> wireguard_peers (db run_disable.2) = [ProvisioningState.REVOKING].
Proof.
  assert (exists u, get_user 1 (db w2) = Some u /\ user_state u <> AccountState.DISABLED) as (u & Hu & Hs)
    by (eexists; split; [vm_compute; reflexivity|discriminate]).
  assert (exists sm, UserManagement.disable_user 1 9 now w2 = (Ok sm, run_disable.2)) as [sm Hrun]
    by (eexists; vm_compute; reflexivity).
  destruct (UserAdminLife.disabled_account_is_out settings ring signer keys dummy ring 1 prefix aes_ring digest 1 9 now w2 sm
              run_disable.2 u SessionScenario.wf_w2 db_w2 Hu Hs Hrun) as (Hu' & _ & Hend & Hrows & _).
  split; [exists u; split; [exact Hu|exact Hu']|]. split; [intros s Hin Hsu; exact (Hend s afterwards Hin Hsu)|].
  split; [exact (Hrows WireGuardPeer)|vm_compute; reflexivity].
Defined.

(** ** Taking a device away *)
Definition run_revoke := Eval vm_compute in UserManagement.revoke_device 1 2 9 now w2.
Definition run_own := Eval vm_compute in OwnAccount.revoke_device 1 2 77 now w2.
Lemma taken_by_administrator : DeviceLife.taken_away 1 2 now w2 run_revoke.2.
Proof.
  assert (exists sm x, UserManagement.owned_device 1 2 (db w2) = Some x /\ device_state x <> LifecycleState.REVOKED /\
            UserManagement.revoke_device 1 2 9 now w2 = (Ok sm, run_revoke.2)) as (sm & x & Hx & Hs & Hrun)
    by (do 2 eexists; split; [vm_compute; reflexivity|split; [discriminate|vm_compute; reflexivity]]).
  exact (DeviceLife.by_administrator 1 2 now w2 run_revoke.2 9 sm x Hx Hs Hrun).
Qed.
Lemma taken_by_owner : DeviceLife.taken_away 1 2 now w2 run_own.2.
Proof. apply (DeviceLife.by_owner 1 2 now w2 run_own.2 77). vm_compute. reflexivity. Qed.

Lemma revoked_device_is_out_witness :
  shut_out 2 (act_all afterwards run_revoke.2) /\ shut_out 2 (act_all afterwards run_own.2) /\
  Forall2 (Access.withdrawn [2] now) (wireguard_peers (db w2)) (wireguard_peers (db run_own.2)) /\
  state <$> wireguard_peers (db w2) = [ProvisioningState.ACTIVE] /\
  state <$> wireguard_peers (db run_own.2) = [ProvisioningState.REVOKING].
Proof.
  destruct (DeviceLife.revoked_device_is_out settings ring signer keys dummy ring 1 prefix aes_ring digest 1 2 now w2 run_revoke.2
              db_w2 devices_w2 taken_by_administrator) as (_ & _ & Hadmin).
  destruct (DeviceLife.revoked_device_is_out settings ring signer keys dummy ring 1 prefix aes_ring digest 1 2 now w2 run_own.2
              db_w2 devices_w2 taken_by_owner) as (_ & Hrows & Howner).
  split; [exact (Hadmin afterwards)|]. split; [exact (Howner afterwards)|].
  split; [exact (Hrows WireGuardPeer)|split; vm_compute; reflexivity].
Defined.

(** The administrator's way ends the device's sessions; the owner's leaves them
    active in the table. *)
Example sessions_after_each_revocation :
  SessionRevocation.session_active <$> sessions (auth (db run_revoke.2)) = [false] /\ SessionRevocation.session_active <$> sessions (auth (db run_own.2)) = [true].
Proof. split; vm_compute; reflexivity. Qed.

(** ** Renaming *)
Definition run_rename := Eval vm_compute in
  UserManagement.change_identity 1 9 (Some (str " Lovelace@Example.org ")) (Some (str "Countess")) w2.
Lemma identity_change_is_only_that_witness :
  exists u', get_user 1 (db run_rename.2) = Some u' /\ username_normalized u' = Some (str "countess") /\
    sessions (auth (db run_rename.2)) = sessions (auth (db w2)).
Proof.
  assert (exists sm, UserManagement.change_identity 1 9 (Some (str " Lovelace@Example.org ")) (Some (str "Countess")) w2 =
            (Ok sm, run_rename.2)) as [sm Hrun] by (eexists; vm_compute; reflexivity).
  destruct (UserAdminLife.identity_change_is_only_that 1 9 (Some (str " Lovelace@Example.org ")) (Some (str "Countess")) w2 sm
              run_rename.2 users_w2 Hrun) as (u & u' & evs & _ & Hu' & _ & _ & Hn & Hw & _).
  exists u'. split; [exact Hu'|]. split; [|rewrite Hw; reflexivity].
  rewrite <- Hn. vm_compute. reflexivity.
Defined.

(** A deleted account has no password, so the table refuses to make it active
    again: the request fails on the constraint instead of being refused. *)
Example reactivating_the_deleted_fails :
  (UserManagement.reactivate_user 1 9 SessionScenario.run_delete.2).1 = Err UserManagement.IntegrityError.
Proof. vm_compute. reflexivity. Qed.

(** A prefix filter is a [LIKE] pattern: an underscore in it stands for any letter. *)
Example underscore_matches_anything : UserManagement.sql_startswith (str "a_a") (Some (str "ada")) = true.
Proof. reflexivity. Qed.

End UserAdminScenario.
