(* ===== verification/AdminScenario.v ===== *)
(** * An administrator's second factor

    One administrator sets up an authenticator, signs in with a code, signs in
    with a recovery code, steps up and changes the password.  The hypotheses of
    the theorems of [Mfa] and [AdminFactors] hold along the way. *)

From S2P Require Import Prelude PyText PyBytes PyTime IpAddress Usage ApiStore OpaqueToken RedisState AbuseControl AdminSessions XrayCredential Mfa Access AuthStore AccessToken UserAuth SessionLedger UserSessions SessionScenario AdminAuth AdminFactors.
Import Db AuthTx TxLogic AdminAuth AdminFactors.

Module AdminScenario.

#[local] Existing Instance OpaqueToken.example_hmac.
#[local] Existing Instance SessionScenario.example_argon2.
#[local] Existing Instance SessionScenario.example_validator.
#[local] Existing Instance XrayCredential.plain_aead.
#[local] Instance example_hmac1 : Mfa.HMAC1 := {|
  Mfa.hmac_sha1 k m := to_bytes 20 ((from_bytes k + from_bytes m * 1234567890123456789012345678901234567) mod (2 ^ 160 - 47));
  Mfa.hmac_sha1_length k m := to_bytes_length 20 _;
|}.
(** No browser here: every answer is refused. *)
#[local] Instance no_webauthn : WebAuthn := {|
  credential := unit;
  raw_id _ := None;
  registration_json _ _ _ _ _ _ := [];
  authentication_json _ _ _ := [];
  verify_registration_response _ _ _ _ := None;
  verify_authentication_response _ _ _ _ _ _ := None;
|}.

Definition settings : Settings :=
  {| admin_login_rate_limit := 10; admin_mfa_rate_limit := 10; auth_rate_window_seconds := 900; admin_lockout_threshold := 5;
     admin_lockout_seconds := 900; admin_preauth_ttl_minutes := 5; admin_session_ttl_minutes := 30;
     admin_session_absolute_ttl_hours := 8; admin_step_up_ttl_minutes := 5; totp_allowed_skew_steps := 1;
     mfa_key_version := 1; token_key_version := 2; allowed_origins := str "https://admin.example.org" |}.
Notation ring := OpaqueToken.example_ring.
Notation mfa_ring := XrayCredential.example_ring.
Definition dummy : text := str "$argon2id$dummy".
Definition prefix : text := str "nebula:auth:v1".
Definition network : text := str "198.51.100.0/24".
Definition secret : text := str "correct horse battery".
Definition T0 : Z := 1785000000500.
Definition SECOND : Z := 1000.
Definition random (n : Z) : text := to_bytes 32 (55555555555555555555 + n).
Definition tokens_of (n : Z) : Randoms := {| for_token := random n; for_csrf := random (n + 1) |}.
Definition draws (n : nat) : text := random (1000 + Z.of_nat n).
Definition seed : text := to_bytes 20 98765432109876543210987654321.
Definition nonce_ : text := replicate 12 "n"%char.
Definition code_at (now : Z) : text :=
  match Mfa.totp_at_counter seed (Z.quot now 1000 / Mfa.TOTP_PERIOD_SECONDS) with Ok t => t | Err _ => [] end.

Definition root : AdminUser :=
  {| admin_user_id := 9; admin_email := str "root@example.org"; admin_email_normalized := str "root@example.org";
     admin_username_normalized := Some (str "root"); admin_password_hash := str "$argon2id$" ++ secret;
     admin_role := AdminRole.OWNER; admin_state := AdminState.ACTIVE; sessions_valid_after := None |}.
Definition start : world :=
  {| db := with_admins [root] (example_db ProvisioningState.ACTIVE); redis := AbuseControl.empty_redis |}.

Notation password_challenge := (AdminAuth.password_challenge settings dummy ring 1 prefix).
Notation start_enrollment := (AdminAuth.start_enrollment settings mfa_ring ring 1 prefix).
Notation confirm_enrollment := (AdminAuth.confirm_enrollment settings ring mfa_ring ring 1 prefix).
Notation verify_mfa := (AdminAuth.verify_mfa settings ring mfa_ring ring 1 prefix).
Notation step_up := (AdminAuth.step_up settings ring mfa_ring ring 1 prefix).
Notation change_password := (AdminAuth.change_password settings dummy ring 1 prefix).
Notation perform_all := (AdminFactors.perform_all settings ring mfa_ring dummy ring 1 prefix).

(** ** Setting up the authenticator *)

Definition challenge_of (r : result exn AdminPasswordChallenge * world) : text :=
  match r.1 with Ok c => challenge_token c | Err _ => [] end.
Definition asked1 := Eval vm_compute in password_challenge (str "Root") secret network 900 T0 (random 1) [] start.
Definition begun := Eval vm_compute in start_enrollment (challenge_of asked1) network 901 (T0 + SECOND) seed nonce_ (random 2) asked1.2.
Definition confirmation : text := match begun.1 with Ok e => enrollment_challenge e | Err _ => [] end.
Definition enrolled := Eval vm_compute in confirm_enrollment confirmation (code_at T0) network 902 (T0 + 2 * SECOND) (tokens_of 10) draws begun.2.
Definition w1 : world := enrolled.2.
Definition no_session : AdminAuthentication :=
  {| session := {| RedisState.session_token := []; RedisState.csrf_token := [];
                   RedisState.record := {| RedisState.admin_id := 0; RedisState.session_id := 0; RedisState.mfa_method := RedisState.totp;
                     RedisState.created_at := 0; RedisState.last_seen_at := 0; RedisState.absolute_expires_at := 0;
                     RedisState.step_up_at := None |} |};
     recovery_codes_shown := [] |}.
Definition session_of (r : result exn AdminAuthentication * world) : AdminAuthentication :=
  match r.1 with Ok x => x | Err _ => no_session end.
Example enrolled_ok :
  length (recovery_codes_shown (session_of enrolled)) = 10%nat /\ totp_state <$> totps (db w1) = [TotpState.active].
Proof. vm_compute. done. Qed.

Definition setting_up : list call :=
  [PasswordChallenge (str "Root") secret network 900 T0 (random 1) [];
   StartEnrollment (challenge_of asked1) network 901 (T0 + SECOND) seed nonce_ (random 2);
   ConfirmEnrollment confirmation (code_at T0) network 902 (T0 + 2 * SECOND) (tokens_of 10) draws].
Lemma setting_up_w1 : perform_all setting_up start = w1.
Proof. vm_compute. reflexivity. Qed.
Lemma factors_start : factors_wf (db start).
Proof. constructor; cbn; try apply NoDup_nil_2; apply Forall_nil_2. Qed.
Lemma consistent_start : consistent (db start).
Proof. vm_compute. reflexivity. Qed.
Lemma factors_w1 : factors_wf (db w1).
Proof.
  rewrite <- setting_up_w1. by destruct (proj2 (all_advance settings ring mfa_ring dummy ring 1 prefix setting_up start) factors_start).
Qed.
Lemma second_factors_only_advance_witness :
  factors_wf (db (perform_all setting_up start)) /\
  totp_state <$> totps (db (perform_all setting_up start)) = [TotpState.active] /\
  length (codes (db (perform_all setting_up start))) = 10%nat.
Proof.
  split; [|vm_compute; split; reflexivity].
  exact (proj1 (second_factors_only_advance settings ring mfa_ring dummy ring 1 prefix setting_up start factors_start consistent_start)).
Defined.

(** ** Signing in with a code *)

Definition T1 : Z := T0 + 60 * SECOND.
Definition asked2 := Eval vm_compute in password_challenge (str "root@example.org") secret network 903 T1 (random 3) [] w1.
Definition signed_in := Eval vm_compute in verify_mfa (challenge_of asked2) (code_at T1) by_totp network 904 (T1 + SECOND) (tokens_of 20) asked2.2.
Definition w2 : world := signed_in.2.
Lemma signed_in_ok :
  verify_mfa (challenge_of asked2) (code_at T1) by_totp network 904 (T1 + SECOND) (tokens_of 20) asked2.2 =
    (Ok (session_of signed_in), w2).
Proof. vm_compute. reflexivity. Qed.
Lemma factors_asked2 : factors_wf (db asked2.2).
Proof.
  assert (perform_all [PasswordChallenge (str "root@example.org") secret network 903 T1 (random 3) []] w1 = asked2.2) as <-
    by (vm_compute; reflexivity).
  exact (proj1 (proj2 (all_advance settings ring mfa_ring dummy ring 1 prefix _ w1) factors_w1)).
Qed.
Lemma totp_is_never_replayed_witness :
  exists c step, accepted settings mfa_ring asked2.2 9 (code_at T1) (T1 + SECOND) c step /\
    forall cs admin2 candidate2 now2 c2 step2, accepted settings mfa_ring (perform_all cs w2) admin2 candidate2 now2 c2 step2 ->
      totp_id c2 = totp_id c -> step < step2.
Proof.
  destruct (totp_is_never_replayed settings ring mfa_ring dummy ring 1 prefix (challenge_of asked2) (code_at T1) network 904
              (T1 + SECOND) (tokens_of 20) asked2.2 (session_of signed_in) w2 factors_asked2 signed_in_ok) as (admin & c & step & Hc & Hl).
  exists c, step. split; [|exact Hl]. enough (admin = 9) as <- by exact Hc.
  destruct Hc as [Hc _]. apply credential_in_ok in Hc as (Hin & <- & _).
  assert (totp_admin <$> totps (db asked2.2) = [9]) as He by (vm_compute; reflexivity).
  apply (list_elem_of_fmap_2 totp_admin) in Hin. rewrite He in Hin. by apply list_elem_of_singleton in Hin.
Defined.

(** ** Signing in with a recovery code *)

Definition spare : text := hd [] (recovery_codes_shown (session_of enrolled)).
Definition asked3 := Eval vm_compute in password_challenge (str "root") secret network 905 (T1 + 60 * SECOND) (random 4) [] w2.
Definition recovered := Eval vm_compute in verify_mfa (challenge_of asked3) spare by_recovery network 906 (T1 + 61 * SECOND) (tokens_of 30) asked3.2.
Lemma recovered_ok :
  verify_mfa (challenge_of asked3) spare by_recovery network 906 (T1 + 61 * SECOND) (tokens_of 30) asked3.2 =
    (Ok (session_of recovered), recovered.2).
Proof. vm_compute. reflexivity. Qed.
Lemma factors_asked3 : factors_wf (db asked3.2).
Proof.
  assert (perform_all [VerifyMfa (challenge_of asked2) (code_at T1) by_totp network 904 (T1 + SECOND) (tokens_of 20);
     PasswordChallenge (str "root") secret network 905 (T1 + 60 * SECOND) (random 4) []] asked2.2 = asked3.2) as <-
    by (vm_compute; reflexivity).
  exact (proj1 (proj2 (all_advance settings ring mfa_ring dummy ring 1 prefix _ asked2.2) factors_asked2)).
Qed.
Lemma recovery_code_works_once_witness :
  is_ok recovered.1 = true /\ forall cs challenge2 network2 request2 now2 r2 x2 w3,
    verify_mfa challenge2 spare by_recovery network2 request2 now2 r2 (perform_all cs recovered.2) <> (Ok x2, w3).
Proof.
  split; [vm_compute; reflexivity|]. intros cs.
  exact (proj1 (recovery_code_works_once settings ring mfa_ring dummy ring 1 prefix (challenge_of asked3) spare network 906
                  (T1 + 61 * SECOND) (tokens_of 30) asked3.2 (session_of recovered) recovered.2 factors_asked3 recovered_ok cs)).
Defined.
Lemma sign_in_takes_both_factors_witness :
  exists a c, _find_admin (_normalize_admin_identifier (str "root")) (db w2) = Some a /\
    RedisState.admin_id (RedisState.record (session (session_of recovered))) = admin_user_id a /\
    _active_credential (RedisState.admin_id (RedisState.record (session (session_of recovered)))) (db asked3.2) = Some c.
Proof.
  assert (exists x, password_challenge (str "root") secret network 905 (T1 + 60 * SECOND) (random 4) [] w2 = (Ok x, asked3.2) /\
            challenge_token x = challenge_of asked3) as (x & Hx & Ht) by (eexists; split; vm_compute; reflexivity).
  destruct (proj1 (sign_in_takes_both_factors settings ring mfa_ring dummy ring 1 prefix) (str "root") secret network 905
              (T1 + 60 * SECOND) (random 4) [] w2 x asked3.2 Hx) as (a & Ha & _ & _ & _ & Hlink).
  destruct (proj2 (sign_in_takes_both_factors settings ring mfa_ring dummy ring 1 prefix) (challenge_of asked3) spare by_recovery
              network 906 (T1 + 61 * SECOND) (tokens_of 30) asked3.2 (session_of recovered) recovered.2 recovered_ok)
    as (b & c & _ & _ & _ & Hc & _).
  exists a, c. split; [exact Ha|]. split; [|exact Hc].
  assert (_find_admin (_normalize_admin_identifier (str "root")) (db w2) = Some root) as Hroot by (vm_compute; reflexivity).
  rewrite Hroot in Ha. injection Ha as <-.
  assert (is_uuid (admin_user_id root)) as Hid by (apply AccessToken.small_uuid; cbn [admin_user_id root]; lia).
  specialize (Hlink Hid). apply proj2 in Hlink.
  apply (Hlink spare by_recovery network 906 (T1 + 61 * SECOND) (tokens_of 30) asked3.2 (session_of recovered) recovered.2).
  - intros k _. reflexivity.
  - rewrite Ht. exact recovered_ok.
Defined.

(** ** Stepping up and changing the password *)

Definition T2 : Z := T1 + 120 * SECOND.
Definition stepped := Eval vm_compute in step_up (RedisState.session_token (session (session_of recovered))) (code_at T2) by_totp network 907 T2
                        (tokens_of 40) recovered.2.
Definition fresh_secret : text := str "another long password".
Definition changed := Eval vm_compute in change_password (RedisState.session_token (session (session_of stepped))) secret fresh_secret (T2 + SECOND) []
                        (tokens_of 50) stepped.2.
Definition new_session : RedisState.IssuedAdminSession :=
  match changed.1 with Ok j => j | Err _ => session no_session end.
Lemma changed_ok :
  change_password (RedisState.session_token (session (session_of stepped))) secret fresh_secret (T2 + SECOND) []
    (tokens_of 50) stepped.2 = (Ok new_session, changed.2).
Proof. vm_compute. reflexivity. Qed.
Lemma admin_password_change_ends_sessions_witness :
  RedisState.created_at (RedisState.record new_session) = T2 + SECOND /\
  exists admin, forall cs tok2 now2 rec s, Forall (at_times (fun n => T2 + SECOND <= n)) cs ->
    get_session settings ring prefix tok2 now2 (redis (perform_all cs changed.2)) = (Ok (Some rec), s) ->
    RedisState.admin_id rec = admin -> RedisState.created_at rec < T2 + SECOND ->
    forall p2 w3, principal settings ring prefix tok2 now2 (perform_all cs changed.2) <> (Ok p2, w3).
Proof.
  destruct (admin_password_change_ends_sessions settings ring mfa_ring dummy ring 1 prefix
              (RedisState.session_token (session (session_of stepped))) secret fresh_secret (T2 + SECOND) [] (tokens_of 50)
              stepped.2 new_session changed.2 changed_ok) as (p & a & h & _ & _ & _ & _ & _ & _ & _ & Hc & Hl).
  split; [exact Hc|]. exists (principal_admin p). exact Hl.
Defined.
(** The session signed in with the code is refused after the change. *)
Example old_session_refused :
  (principal settings ring prefix (RedisState.session_token (session (session_of signed_in))) (T2 + 2 * SECOND) changed.2).1 =
    Err AuthenticationRejected /\
  is_ok (principal settings ring prefix (RedisState.session_token new_session) (T2 + 2 * SECOND) changed.2).1 = true.
Proof. vm_compute. split; reflexivity. Qed.

(** ** The pieces of [mfa.py] *)

Lemma totp_accepts_the_window_witness : exists c, Mfa.verify_totp seed (code_at T1) (T1 + 20 * SECOND) 1 = Ok (Some c).
Proof.
  destruct (Mfa.totp_accepts_the_window seed (code_at T1) (T1 + 20 * SECOND) 1) as (o & Ho & Hs).
  - vm_compute. reflexivity.
  - split; lia.
  - vm_compute. split; [discriminate|reflexivity].
  - destruct o as [c|]; [exists c; exact Ho|]. exfalso.
    apply (Hs ltac:(vm_compute; reflexivity) (Z.quot T1 1000 / Mfa.TOTP_PERIOD_SECONDS)).
    + vm_compute. split; discriminate.
    + vm_compute. reflexivity.
Defined.
Definition sealed : Mfa.EncryptedMfaSeed :=
  {| Mfa.seed_version := 1; Mfa.seed_nonce := nonce_; Mfa.seed_ciphertext := seed ++ XrayCredential.tag0 |}.
Lemma mfa_seed_round_trip_witness : Mfa.decrypt_mfa_seed sealed 9 70 mfa_ring = Ok seed.
Proof.
  refine (proj1 (Mfa.mfa_seed_round_trip seed 9 70 1 mfa_ring nonce_ sealed _ _ _)).
  - split; [lia|reflexivity].
  - split; [lia|reflexivity].
  - vm_compute. reflexivity.
Defined.
Lemma recovery_codes_are_distinct_witness :
  exists b, Mfa.generate_recovery_codes ring 2 10 draws = Ok b /\ NoDup (Mfa.plaintext_codes b).
Proof.
  destruct (Mfa.recovery_codes_are_distinct ring 2 10 draws) as [Hd Hr]; [vm_compute; split; repeat constructor|].
  destruct (Hr (str "fedcba9876543210fedcba9876543210")) as [b Hb].
  - reflexivity.
  - split; [reflexivity|vm_compute; repeat constructor].
  - intros i _. apply to_bytes_length.
  - intros i j Hij He. unfold draws, random in He. apply to_bytes_inj in He; lia.
  - exists b. split; [exact Hb|]. exact (proj1 (proj2 (Hd b Hb))).
Defined.
End AdminScenario.
