(* ===== verification/Accounts.v ===== *)
(** * Account requests

    Models [nebula_api/accounts/service.py] and the staging half of
    [accounts/email_outbox.py]: a request for an account, its review, the
    activation it leads to.  Instants are in milliseconds and read once a call;
    random bytes and salts are arguments. *)

From S2P Require Import Prelude PyText PyBytes PyTime Json IpAddress Usage ApiStore OpaqueToken RedisState XrayCredential Access AuthStore UserAuth.
Import Db AuthTx SessionRevocation.

(** ** email_outbox.py *)

Module EmailOutbox.

Definition KEY_PREFIX : text := str "nebula:email-outbox:v1".
Definition email_outbox_key (delivery : Z) : text := KEY_PREFIX ++ str ":" ++ str_uuid delivery.
Definition MAX_TTL : Z := 30 * 24 * 3600.

(** [None]: the TTL is refused; [Some] carries whether the client raised. *)
Definition stage_email_payload (delivery : Z) (payload : list (text * text)) (ttl_seconds : Z) (c : RedisState.conn)
  : option (result RedisState.exn bool * RedisState.conn) :=
  if (1 <=? ttl_seconds) && (ttl_seconds <=? MAX_TTL) then
    Some (RedisState.eval
            (Redis.set_nx_ex (email_outbox_key delivery)
               (dumps_compact (sort_keys (JObj ((fun kv => (kv.1, JStr kv.2)) <$> payload)))) ttl_seconds) c)
  else None.

End EmailOutbox.

(** ** accounts/service.py *)

Module Accounts.

Inductive exn :=
| AccountRequestRejected
| AccountRequestConflict (which : text)
| AccountRequestRateLimited (retry_after_seconds : Z)
| ActivationNotReissued
| AuthStateUnavailable
| ValueError
| KeyError
| RuntimeError
| IntegrityError.
#[global] Instance exn_eq_dec : EqDecision exn.
Proof. solve_decision. Defined.
Notation M := (prog world exn).
Notation T := (prog world (failure exn)).

Record Settings := {
  account_request_rate_limit : Z;
  account_request_review_rate_limit : Z;
  auth_rate_window_seconds : Z;
  account_request_ttl_days : Z;
  admin_public_url : text;
  default_device_limit : Z;
  token_key_version : Z;
  activation_token_ttl_hours : Z;
}.
Definition DAY : Z := 86400000.
Definition HOUR : Z := 3600000.
Definition _NOTIFICATION_PAYLOAD_TTL_SECONDS : Z := 7 * 24 * 3600.
Definition _INVALID_EMAIL_SENTINEL : text := str "invalid".
Definition _ACTIVATION_NAMESPACE : text := str "activation".

Record AccountRequestSummary := {
  summary_id : Z; summary_email : text; summary_username : option text; summary_state : RequestState.t;
  summary_created_at : Z; taken : list text;
}.
Definition _summary (r : AccountRequest) : AccountRequestSummary :=
  {| summary_id := request_id r; summary_email := request_email r; summary_username := request_username r;
     summary_state := request_state r; summary_created_at := request_created_at r; taken := [] |}.

(** *** Row changes *)

Definition decide_request (s : RequestState.t) (now admin : Z) (user : option Z) (r : AccountRequest) : AccountRequest :=
  {| request_id := request_id r; request_email := request_email r; request_email_normalized := request_email_normalized r;
     request_username := request_username r; request_username_normalized := request_username_normalized r;
     request_state := s; request_expires_at := request_expires_at r; decided_at := Some now;
     reviewed_by_admin_id := Some admin; request_user := user; request_created_at := request_created_at r |}.
Definition activate_user (h : text) (now : Z) (u : User) : User :=
  {| user_id := user_id u; email := email u; email_normalized := email_normalized u; username := username u;
     username_normalized := username_normalized u; password_hash := Some h; user_state := AccountState.ACTIVE;
     device_limit := device_limit u; user_expires_at := user_expires_at u; activated_at := Some now;
     disabled_at := disabled_at u; traffic_quota_bytes := traffic_quota_bytes u;
     traffic_baseline_bytes := traffic_baseline_bytes u; quota_exhausted_at := quota_exhausted_at u;
     user_dns_profile := user_dns_profile u |}.

Definition add_user (u : User) (db : DB) : DB := with_users (users db ++ [u]) db.
Definition add_request (r : AccountRequest) (db : DB) : DB := with_account_requests (account_requests (auth db) ++ [r]) db.
Definition update_request (id : Z) (f : AccountRequest -> AccountRequest) (db : DB) : DB :=
  with_account_requests (update request_id id f (account_requests (auth db))) db.
Definition add_event (e : AccountRequestEvent) (db : DB) : DB :=
  with_account_request_events (account_request_events (auth db) ++ [e]) db.
Definition add_activation (t : Token) (db : DB) : DB := with_user_activations (user_activations (auth db) ++ [t]) db.
Definition update_activations (p : Token -> bool) (f : Token -> Token) (db : DB) : DB :=
  with_user_activations (update_where p f (user_activations (auth db))) db.
Definition pending_mail (delivery dedup : Z) (template recipient kind : text) (subject now : Z) : EmailDelivery :=
  {| delivery_id := delivery; deduplication_key := dedup; template_code := template; recipient_address := recipient;
     subject_kind := kind; subject_id := subject; delivery_state := str "pending"; delivery_attempts := 0; available_at := now;
     leased_until := None; sent_at := None; provider_message_id := None; delivery_result := None |}.

Definition audit_event (who : actor_of) (k : target_kind) (target : Z) (code_ out reason : text) : T unit :=
  write (add_audit_event {| actor := who; ev_target_kind := k; ev_target_id := target; event_code := code_;
                            outcome := out; reason_code := Some reason |}).
Definition request_changed := str "account_request_changed".
Definition succeeded := str "succeeded".
Definition denied := str "denied".
Definition rejected {A} : T A := raise (Raised AccountRequestRejected).

Section Service.
Context `{HMAC} `{Passwords.Argon2} `{Identity.EmailValidator}.
Context (settings : Settings) (token_peppers : list (Z * text))
  (redis_keys : list (Z * text)) (redis_version : Z) (redis_prefix : text).

Definition redis_exn (e : RedisState.exn) : exn :=
  match e with
  | RedisState.AuthStateUnavailable => AuthStateUnavailable
  | RedisState.ValueError => ValueError
  | RedisState.RuntimeError => RuntimeError
  end.
Definition rate_limit (buckets : list RedisState.RateBucket) (limit : Z) : T bool :=
  on_redis redis_exn
    (RedisState.rate_limit redis_keys redis_version redis_prefix buckets limit (auth_rate_window_seconds settings)).
Definition _require_rate_limit (buckets : list RedisState.RateBucket) (limit request : Z) : T unit :=
  allowed ← rate_limit buckets limit;
  if (allowed : bool) then mret tt
  else
    _ ← audit_event by_anonymous auth_attempt request (str "auth_rate_limited") denied (str "rate_limited");
    raise (Committed (AccountRequestRateLimited (auth_rate_window_seconds settings))).
Definition _require_rate_limit_without_session (buckets : list RedisState.RateBucket) (limit : Z) : M unit := fun w =>
  match rate_limit buckets limit w with
  | (Ok true, w') => (Ok tt, w')
  | (Ok false, w') => (Err (AccountRequestRateLimited (auth_rate_window_seconds settings)), w')
  | (Err (Raised e), w') | (Err (Committed e), w') => (Err e, w')
  end.

(** Only a TTL out of range escapes; an unavailable outbox is logged. *)
Definition _stage_delivery (delivery : Z) (payload : list (text * text)) (ttl_seconds : Z) : M unit := fun w =>
  match EmailOutbox.stage_email_payload delivery payload ttl_seconds (redis w) with
  | None => (Err ValueError, w)
  | Some (_, c) => (Ok tt, {| db := db w; redis := c |})
  end.

Definition _normalized_email_or_sentinel (value : text) : text :=
  default _INVALID_EMAIL_SENTINEL (Identity.normalize_email value).

Definition of_token {A} (r : result OpaqueToken.exn A) : T A :=
  lift match r with
       | Ok a => Ok a
       | Err e => Err (Raised match e with
                              | OpaqueToken.RuntimeError => RuntimeError
                              | OpaqueToken.KeyError => KeyError
                              | _ => ValueError
                              end)
       end.

(** *** Submission *)

Fixpoint notify (request now : Z) (reviewers : list AdminUser) : T (list Z) :=
  match reviewers with
  | [] => mret []
  | a :: rest =>
      delivery ← new_uuid;
      dedup ← new_uuid;
      _ ← write (UserAuth.add_delivery
            (pending_mail delivery dedup (str "account_request_review") (admin_email a) (str "account_request") request now));
      ids ← notify request now rest;
      mret (delivery :: ids)
  end.

(** [None]: the address was refused. *)
Definition submit_body (email : text) (username : option text) (network_prefix : text) (request now : Z)
  : T (option (Z * list Z)) :=
  let normalized_email := _normalized_email_or_sentinel email in
  _ ← _require_rate_limit [UserAuth.bucket (str "account-request-email") normalized_email;
                           UserAuth.bucket (str "account-request-network") network_prefix]
        (account_request_rate_limit settings) request;
  if decide (normalized_email = _INVALID_EMAIL_SENTINEL) then
    _ ← audit_event by_anonymous auth_attempt request request_changed denied (str "invalid_email");
    mret None
  else
    normalized_username ← match username with
                          | Some u => match Identity.normalize_username u with
                                      | Some n => mret (Some n)
                                      | None => raise (Raised ValueError)
                                      end
                          | None => mret None
                          end;
    id ← new_uuid;
    created ← read db_now;
    _ ← write (add_request
          {| request_id := id; request_email := email; request_email_normalized := normalized_email;
             request_username := username; request_username_normalized := normalized_username;
             request_state := RequestState.PENDING;
             request_expires_at := now + account_request_ttl_days settings * DAY; decided_at := None;
             reviewed_by_admin_id := None; request_user := None; request_created_at := created |});
    _ ← new_uuid;
    _ ← write (add_event {| event_request := id; from_state := None; to_state := RequestState.PENDING;
                            actor_admin_id := None; event_reason := None |});
    _ ← audit_event by_anonymous account_request id request_changed succeeded (str "submitted");
    reviewers ← read (fun db => scalars (fun a => bool_decide (admin_state a = AdminState.ACTIVE)) (admins (auth db)));
    ids ← notify id now reviewers;
    mret (Some (id, ids)).

Definition review_payload (id : Z) : list (text * text) :=
  [(str "template_code", str "account_request_review"); (str "account_request_id", str_uuid id);
   (str "review_url", reverse (lstrip_of (str "/") (reverse (admin_public_url settings))) ++ str "/requests")].

Fixpoint stage_all (deliveries : list Z) (payload : list (text * text)) (ttl : Z) : M unit :=
  match deliveries with
  | [] => mret tt
  | d :: rest => _ ← _stage_delivery d payload ttl; stage_all rest payload ttl
  end.

(** [except IntegrityError: return] around the last commit only. *)
Definition submit_request (email : text) (username : option text) (network_prefix : text) (request now : Z) : M unit := fun w =>
  match submit_body email username network_prefix request now w with
  | (Ok (Some (id, ids)), w') =>
      match commit IntegrityError (Ok tt) w w' with
      | (Ok _, w2) => stage_all ids (review_payload id) _NOTIFICATION_PAYLOAD_TTL_SECONDS w2
      | (Err _, w2) => (Ok tt, w2)
      end
  | _ => transact IntegrityError (_ ← submit_body email username network_prefix request now; mret tt) w
  end.

(** *** Listing *)

Fixpoint insert_by_creation (r : AccountRequest) (rows : list AccountRequest) : list AccountRequest :=
  match rows with
  | [] => [r]
  | x :: rest => if request_created_at r <=? request_created_at x then r :: rows else x :: insert_by_creation r rest
  end.
Definition taken_fields (db : DB) (r : AccountRequest) : list text :=
  (if existsb (fun u => bool_decide (email_normalized u = request_email_normalized r)) (users db) then [str "email"] else []) ++
  match request_username_normalized r with
  | Some n => if existsb (fun u => bool_decide (username_normalized u = Some n)) (users db) then [str "username"] else []
  | None => []
  end.
Definition list_pending (db : DB) : list AccountRequestSummary :=
  (fun r => {| summary_id := request_id r; summary_email := request_email r; summary_username := request_username r;
               summary_state := request_state r; summary_created_at := request_created_at r; taken := taken_fields db r |}) <$>
  foldr insert_by_creation [] (scalars request_pending (account_requests (auth db))).

(** *** Review *)

Definition get_request (id : Z) (db : DB) : option AccountRequest :=
  scalar (fun r => request_id r =? id) (account_requests (auth db)).
Definition review_limit (admin : Z) (network_prefix : text) (request : Z) : T unit :=
  _require_rate_limit [UserAuth.bucket (str "account-review-admin") (str_uuid admin);
                       UserAuth.bucket (str "account-review-network") network_prefix]
    (account_request_review_rate_limit settings) request.

(** A fresh activation token of [user] for [request], and the mail that will
    carry it; what is staged once the transaction has committed. *)
Definition issue_activation (request user : Z) (recipient : text) (now : Z) (random : text) : T (Z * text * Z) :=
  raw_token ← of_token (OpaqueToken.issue_opaque_token (token_key_version settings) random);
  digest ← of_token (OpaqueToken.digest_opaque_token raw_token token_peppers _ACTIVATION_NAMESPACE);
  let expires := now + activation_token_ttl_hours settings * HOUR in
  id ← new_uuid;
  created ← read db_now;
  _ ← write (add_activation
        {| token_id := id; token_owner := user; token_version := OpaqueToken.key_version digest;
           token_digest := OpaqueToken.value digest; token_state := TokenState.ACTIVE; token_expires_at := expires;
           token_consumed_at := None; token_revoked_at := None; token_link := Some request; token_created_at := created |});
  delivery ← new_uuid;
  dedup ← new_uuid;
  _ ← write (UserAuth.add_delivery (pending_mail delivery dedup (str "user_activation") recipient (str "user") user now));
  mret (delivery, raw_token, expires).

Definition activation_payload (raw_token : text) (expires : Z) (username : option text) (email : text) : list (text * text) :=
  [(str "template_code", str "user_activation"); (str "token", raw_token); (str "expires_at", PyTime.isoformat expires);
   (str "username", default [] username); (str "email", email)].

(** The account that has the request's address or username already. *)
Definition clash (r : AccountRequest) (u : User) : bool :=
  bool_decide (email_normalized u = request_email_normalized r) ||
  match request_username_normalized r with Some n => bool_decide (username_normalized u = Some n) | None => false end.

Definition approve_body (id admin : Z) (network_prefix : text) (request now : Z) (random : text)
  : T (AccountRequestSummary * option (Z * text * Z)) :=
  _ ← review_limit admin network_prefix request;
  found ← read (get_request id);
  match found with
  | None => rejected
  | Some r =>
      if bool_decide (request_state r = RequestState.APPROVED) then mret (_summary r, None)
      else if negb (request_pending r) || (request_expires_at r <=? now) then rejected
      else
        existing ← read (fun db => scalar (clash r) (users db));
        match existing with
        | Some u => raise (Raised (AccountRequestConflict
                      (if bool_decide (email_normalized u = request_email_normalized r) then str "email" else str "username")))
        | None =>
            user ← new_uuid;
            _ ← write (add_user
                  {| user_id := user; email := request_email r; email_normalized := request_email_normalized r;
                     username := request_username r; username_normalized := request_username_normalized r;
                     password_hash := None; user_state := AccountState.PENDING_ACTIVATION;
                     device_limit := default_device_limit settings; user_expires_at := None; activated_at := None;
                     disabled_at := None; traffic_quota_bytes := None; traffic_baseline_bytes := 0;
                     quota_exhausted_at := None; user_dns_profile := str "default" |});
            _ ← write (update_request id (decide_request RequestState.APPROVED now admin (Some user)));
            staged ← issue_activation id user (request_email r) now random;
            _ ← new_uuid;
            _ ← write (add_event {| event_request := id; from_state := Some RequestState.PENDING;
                                    to_state := RequestState.APPROVED; actor_admin_id := Some admin;
                                    event_reason := Some (str "approved") |});
            _ ← audit_event (by_admin admin) account_request id request_changed succeeded (str "approved");
            mret (_summary (decide_request RequestState.APPROVED now admin (Some user) r), Some staged)
        end
  end.

Definition approve (id admin : Z) (network_prefix : text) (request now : Z) (random : text) : M AccountRequestSummary :=
  r ← transact IntegrityError (approve_body id admin network_prefix request now random);
  match r.2 with
  | None => mret r.1
  | Some (delivery, raw_token, expires) =>
      _ ← _stage_delivery delivery (activation_payload raw_token expires (summary_username r.1) (summary_email r.1))
            (activation_token_ttl_hours settings * 3600);
      mret r.1
  end.

Definition reissue_body (email_ : text) (admin : option Z) (now : Z) (random : text) : T (User * (Z * text * Z)) :=
  found ← read (fun db => scalar (fun u => bool_decide (email u = email_)) (users db));
  match found with
  | None => raise (Raised ActivationNotReissued)
  | Some u =>
      if negb (bool_decide (user_state u = AccountState.PENDING_ACTIVATION)) then raise (Raised ActivationNotReissued)
      else
        req ← read (fun db => scalar (fun r => bool_decide (request_user r = Some (user_id u))) (account_requests (auth db)));
        match req with
        | None => raise (Raised ActivationNotReissued)
        | Some r =>
            _ ← write (update_activations (fun t => (token_owner t =? user_id u) && token_active t)
                         (fun t => UserAuth.set_consumed now (token_link t) t));
            staged ← issue_activation (request_id r) (user_id u) (email u) now random;
            _ ← new_uuid;
            _ ← audit_event match admin with Some a => by_admin a | None => by_bootstrap end
                  account_request (request_id r) request_changed succeeded (str "activation_reissued");
            mret (u, staged)
        end
  end.
Definition reissue_activation (email_ : text) (admin : option Z) (now : Z) (random : text) : M Z :=
  r ← transact IntegrityError (reissue_body email_ admin now random);
  let '(u, (delivery, raw_token, expires)) := r in
  _ ← _stage_delivery delivery (activation_payload raw_token expires (username u) (email u))
        (activation_token_ttl_hours settings * 3600);
  mret expires.

Definition reject_body (id admin : Z) (reason : option text) (network_prefix : text) (request now : Z)
  : T (AccountRequestSummary * option Z) :=
  _ ← review_limit admin network_prefix request;
  found ← read (get_request id);
  match found with
  | None => rejected
  | Some r =>
      if bool_decide (request_state r = RequestState.REJECTED) then mret (_summary r, None)
      else if negb (request_pending r) then rejected
      else
        _ ← write (update_request id (decide_request RequestState.REJECTED now admin (request_user r)));
        _ ← new_uuid;
        _ ← write (add_event {| event_request := id; from_state := Some RequestState.PENDING;
                                to_state := RequestState.REJECTED; actor_admin_id := Some admin; event_reason := reason |});
        delivery ← new_uuid;
        dedup ← new_uuid;
        _ ← write (UserAuth.add_delivery (pending_mail delivery dedup (str "request_rejected") (request_email r)
                     (str "account_request") id now));
        _ ← audit_event (by_admin admin) account_request id request_changed succeeded (str "rejected");
        mret (_summary (decide_request RequestState.REJECTED now admin (request_user r) r), Some delivery)
  end.
Definition reject (id admin : Z) (reason : option text) (network_prefix : text) (request now : Z) : M AccountRequestSummary :=
  r ← transact IntegrityError (reject_body id admin reason network_prefix request now);
  match r.2 with
  | None => mret r.1
  | Some delivery =>
      _ ← _stage_delivery delivery [(str "template_code", str "request_rejected")] _NOTIFICATION_PAYLOAD_TTL_SECONDS;
      mret r.1
  end.

(** *** Activation *)

Definition activation_body (digest : OpaqueToken.OpaqueTokenDigest) (new_hash : text) (now : Z) : T unit :=
  activation ← read (fun db => scalar (UserAuth.by_digest digest) (user_activations (auth db)));
  match activation with
  | None => rejected
  | Some t =>
      if negb (token_active t) || (token_expires_at t <=? now) then rejected
      else
        user ← read (get_user (token_owner t));
        match user with
        | None => rejected
        | Some u =>
            if negb (bool_decide (user_state u = AccountState.PENDING_ACTIVATION)) then rejected
            else
              _ ← write (Access.update_user (user_id u) (activate_user new_hash now));
              _ ← write (update_activations (fun x => token_id x =? token_id t)
                           (fun x => UserAuth.set_consumed now (token_link x) x));
              _ ← write (update_activations
                           (fun x => (token_owner x =? user_id u) && negb (token_id x =? token_id t) && token_active x)
                           (set_token_revoked now));
              audit_event (by_user (user_id u)) user_target (user_id u) (str "identity_state_changed") succeeded (str "activated")
        end
  end.

Definition confirm_activation (raw_token new_password network_prefix : text) (now : Z) (salt : text) : M unit :=
  _ ← _require_rate_limit_without_session [UserAuth.bucket (str "activation-token") raw_token;
                                           UserAuth.bucket (str "activation-confirm-network") network_prefix]
        (account_request_rate_limit settings);
  new_hash ← lift match Passwords.hash_password new_password salt with Some h => Ok h | None => Err ValueError end;
  match UserAuth.digest_or_none token_peppers raw_token _ACTIVATION_NAMESPACE with
  | None => raise AccountRequestRejected
  | Some digest => transact IntegrityError (activation_body digest new_hash now)
  end.

End Service.
End Accounts.
