(* ===== verification/AccountLife.v ===== *)
(** * The life of an account request

    What the review service of [nebula_api/accounts/service.py] guarantees: a
    request is decided once, an activation link works once and only the newest
    does, and an address has one request pending. *)

From S2P Require Import Prelude PyText PyBytes PyTime Json IpAddress Usage ApiStore OpaqueToken RedisState XrayCredential Access AuthStore UserAuth SessionLedger Accounts.
Import Db AuthTx TxLogic SessionRevocation SessionLedger Accounts.

Module AccountLife.

(** ** The invariant *)

(** The [CHECK] constraints of [account_requests]. *)
Definition decided (r : AccountRequest) : Prop :=
  request_state r = RequestState.APPROVED \/ request_state r = RequestState.REJECTED.
Definition request_shape (r : AccountRequest) : Prop :=
  (request_state r = RequestState.APPROVED <-> request_user r <> None) /\
  (decided r <-> decided_at r <> None) /\ (decided r <-> reviewed_by_admin_id r <> None) /\
  request_state r <> RequestState.EXPIRED.

Record requests_wf (d : DB) : Prop := {
  request_ids : NoDup (request_id <$> account_requests (auth d));
  request_fresh : Forall (fun r => request_id r < next_id d) (account_requests (auth d));
  request_shapes : Forall request_shape (account_requests (auth d));
}.

(** A request is decided at most once. *)
Definition request_step (r r' : AccountRequest) : Prop :=
  r' = r \/
  (request_pending r = true /\ exists st now admin user, r' = decide_request st now admin user r /\
     (st = RequestState.APPROVED /\ user <> None \/ st = RequestState.REJECTED /\ user = request_user r)).

Lemma request_step_trans r1 r2 r3 : request_step r1 r2 -> request_step r2 r3 -> request_step r1 r3.
Proof.
  intros H1 [->|[Hp H2]]; [done|]. destruct H1 as [->|(_ & st & now & adm & u & -> & Hst)]; [by right|].
  unfold request_pending in Hp. boolP. cbn in Hp. naive_solver.
Qed.

Definition reviewed (d d' : DB) : Prop :=
  next_id d <= next_id d' /\
  (requests_wf d -> requests_wf d' /\
     forall r, r ∈ account_requests (auth d) -> exists r', r' ∈ account_requests (auth d') /\ request_step r r').

Lemma reviewed_same d d' :
  next_id d <= next_id d' -> account_requests (auth d') = account_requests (auth d) -> reviewed d d'.
Proof.
  intros Hn Hr. split; [done|]. intros [H1 H2 H3]. split.
  - constructor; rewrite Hr; [done| |done]. eapply Forall_impl; [exact H2|]. cbn. lia.
  - intros r Hin. exists r. rewrite Hr. split; [done|by left].
Qed.
#[export] Instance reviewed_rel : TxRel reviewed.
Proof.
  split.
  - split; [intros d; by apply reviewed_same|]. intros d1 d2 d3 [N1 H1] [N2 H2]. split; [lia|]. intros Hwf.
    destruct (H1 Hwf) as [W2 S2]. destruct (H2 W2) as [W3 S3]. split; [done|]. intros r Hr.
    destruct (S2 r Hr) as (r2 & Hr2 & Hs2). destruct (S3 r2 Hr2) as (r3 & Hr3 & Hs3). exists r3.
    split; [done|]. by eapply request_step_trans.
  - by intros d d' [? _].
  - intros d n Hn. by apply reviewed_same.
Qed.

Notation traced := (TxLogic.traced (E := exn) reviewed).
Lemma traced_review_quiet (f : DB -> DB) w :
  next_id (f (db w)) = next_id (db w) -> account_requests (auth (f (db w))) = account_requests (auth (db w)) ->
  traced (write (E := exn) f) w.
Proof. intros Hn Hr. apply traced_write; [apply _|]. apply reviewed_same; [lia|done]. Qed.
#[local] Hint Extern 5 (TxLogic.traced _ (write _) _) => (apply traced_review_quiet; reflexivity) : traced.

(** *** The two changes *)

Lemma add_request_reviewed d r :
  Forall (fun x => request_id x < request_id r) (account_requests (auth d)) -> request_id r < next_id d ->
  request_shape r -> reviewed d (add_request r d).
Proof.
  intros Hf Hr Hs. split; [cbn; lia|]. intros [H1 H2 H3]. split.
  - constructor; cbn.
    + eapply NoDup_add; [done|exact Hf|lia].
    + apply Forall_app. split; [done|]. by rewrite Forall_singleton.
    + apply Forall_app. split; [done|]. by rewrite Forall_singleton.
  - intros x Hx. exists x. cbn. split; [set_solver|by left].
Qed.

Lemma decide_request_reviewed d id r st now admin user :
  get_request id d = Some r -> request_pending r = true ->
  (st = RequestState.APPROVED /\ user <> None \/ st = RequestState.REJECTED /\ user = request_user r) ->
  reviewed d (update_request id (decide_request st now admin user) d).
Proof.
  intros Hr Hp Hst. apply scalar_Some in Hr as [Hr Hid]. boolP. split; [cbn; lia|]. intros [H1 H2 H3].
  set (f := decide_request st now admin user).
  assert (Hone : forall x, x ∈ account_requests (auth d) -> (request_id x =? id) = true -> x = r).
  { intros x Hx He. boolP. apply (same_id request_id (account_requests (auth d))); [done..|congruence]. }
  split.
  - constructor; cbn; rewrite update_is_where.
    + by rewrite update_where_ids.
    + by apply Forall_update_where.
    + apply Forall_forall. intros x (x0 & Hx0 & ->)%elem_of_update_where. rewrite Forall_forall in H3.
      destruct (request_id x0 =? id) eqn:He; [|auto]. apply Hone in He as ->; [|done]. specialize (H3 r Hr).
      unfold request_pending in Hp. boolP. destruct H3 as (S1 & S2 & S3 & S4). rewrite Hp in S1.
      assert (request_user r = None) as Hu by (destruct (request_user r); naive_solver).
      unfold request_shape, decided. cbn. destruct Hst as [[-> Hu']|[-> ->]]; [naive_solver|]. rewrite Hu. naive_solver.
  - intros x Hx. exists (if request_id x =? id then f x else x). cbn. split.
    + rewrite update_is_where. apply elem_of_update_where. eauto.
    + destruct (request_id x =? id) eqn:He; [|by left]. apply Hone in He as ->; [|done]. right. eauto 10.
Qed.

(** ** Every operation *)

Section Service.
Context `{HMAC} `{Passwords.Argon2} `{Identity.EmailValidator}.
Context (settings : Settings) (token_peppers : list (Z * text))
  (redis_keys : list (Z * text)) (redis_version : Z) (redis_prefix : text).

Lemma traced_review_audit who k t c o r w : traced (audit_event who k t c o r) w.
Proof. by apply traced_review_quiet. Qed.
#[local] Hint Resolve traced_review_audit : traced.
Lemma traced_review_require buckets limit request w :
  traced (_require_rate_limit settings redis_keys redis_version redis_prefix buckets limit request) w.
Proof. unfold _require_rate_limit, rate_limit. trace. Qed.
Lemma traced_review admin prefix request w :
  traced (review_limit settings redis_keys redis_version redis_prefix admin prefix request) w.
Proof. apply traced_review_require. Qed.
Lemma traced_token {A} (r : result OpaqueToken.exn A) w : traced (of_token r) w.
Proof. apply traced_lift, _. Qed.
#[local] Hint Resolve traced_review_require traced_review traced_token : traced.
Lemma traced_notify request now reviewers w : traced (notify request now reviewers) w.
Proof. revert w. induction reviewers as [|a rest IH]; intros w; cbn [notify]; [trace|]. trace; apply IH. Qed.
Lemma traced_issue request user recipient now random w :
  traced (issue_activation settings token_peppers request user recipient now random) w.
Proof. unfold issue_activation. trace. Qed.
#[local] Hint Resolve traced_notify traced_issue : traced.

Lemma traced_submit email username prefix request now w :
  requests_wf (db w) -> traced (submit_body settings redis_keys redis_version redis_prefix email username prefix request now) w.
Proof.
  intros Hwf. unfold submit_body. apply traced_bind; [apply _|trace|]. intros ? w1 _ [Hn1 Hw1]. destruct (Hw1 Hwf) as [Hwf1 _].
  case_decide; [trace|]. apply traced_bind; [apply _|trace|]. intros un w2 _ [Hn2 Hw2]. destruct (Hw2 Hwf1) as [Hwf2 _].
  apply traced_bind; [apply _|trace|]. intros id w3 [-> ->]%uuid_ok _.
  apply traced_bind; [apply _|trace|]. intros c w4 [-> ->]%read_ok _.
  apply traced_bind; [apply _| |intros; trace]. apply traced_write; [apply _|]. apply add_request_reviewed; cbn.
  - apply (request_fresh _ Hwf2).
  - lia.
  - unfold request_shape, decided. cbn. naive_solver.
Qed.

Lemma read_request_ok id w o w' : read (E := exn) (get_request id) w = (Ok o, w') -> o = get_request id (db w) /\ w' = w.
Proof. apply read_ok. Qed.

Lemma traced_approve id admin prefix request now random w :
  traced (approve_body settings token_peppers redis_keys redis_version redis_prefix id admin prefix request now random) w.
Proof.
  unfold approve_body. apply traced_bind; [apply _|trace|]. intros ? w1 _ _. apply traced_bind; [apply _|trace|].
  intros o w2 [Ho ->]%read_ok _. destruct o as [r|]; [|unfold rejected; trace]. case_bool_decide; [trace|].
  destruct (request_pending r) eqn:Hp; cbn [negb orb]; [|unfold rejected; trace].
  destruct (request_expires_at r <=? now); [unfold rejected; trace|]. apply traced_bind; [apply _|trace|].
  intros e w3 [_ ->]%read_ok _. destruct e; [trace|]. apply traced_bind; [apply _|trace|]. intros i w4 [-> ->]%uuid_ok _.
  apply traced_bind; [apply _|trace|]. intros ? w5 ->%write_ok _. apply traced_bind; [apply _| |intros; trace].
  apply traced_write; [apply _|]. eapply decide_request_reviewed; [symmetry; exact Ho|done|]. by left.
Qed.

Lemma traced_reject id admin reason prefix request now w :
  traced (reject_body settings redis_keys redis_version redis_prefix id admin reason prefix request now) w.
Proof.
  unfold reject_body. apply traced_bind; [apply _|trace|]. intros ? w1 _ _. apply traced_bind; [apply _|trace|].
  intros o w2 [Ho ->]%read_ok _. destruct o as [r|]; [|unfold rejected; trace]. case_bool_decide; [trace|].
  destruct (request_pending r) eqn:Hp; cbn [negb]; [|unfold rejected; trace].
  apply traced_bind; [apply _| |intros; trace]. apply traced_write; [apply _|].
  eapply decide_request_reviewed; [symmetry; exact Ho|done|]. by right.
Qed.
Lemma traced_reissue email_ admin now random w : traced (reissue_body settings token_peppers email_ admin now random) w.
Proof. unfold reissue_body. trace. Qed.
Lemma traced_activation d h now w : traced (activation_body d h now) w.
Proof. unfold activation_body, rejected. trace. Qed.

Inductive call :=
| SubmitRequest (address : text) (name : option text) (network_prefix : text) (request now : Z)
| Approve (id admin : Z) (network_prefix : text) (request now : Z) (random : text)
| ReissueActivation (email_ : text) (admin : option Z) (now : Z) (random : text)
| Reject (id admin : Z) (reason : option text) (network_prefix : text) (request now : Z)
| ConfirmActivation (raw_token new_password network_prefix : text) (now : Z) (salt : text).

Notation submit_request := (submit_request settings redis_keys redis_version redis_prefix).
Notation approve := (approve settings token_peppers redis_keys redis_version redis_prefix).
Notation reissue_activation := (reissue_activation settings token_peppers).
Notation reject := (reject settings redis_keys redis_version redis_prefix).
Notation confirm_activation := (confirm_activation settings token_peppers redis_keys redis_version redis_prefix).

Definition perform (c : call) (w : world) : world :=
  match c with
  | SubmitRequest e u p r now => (submit_request e u p r now w).2
  | Approve i a p r now rnd => (approve i a p r now rnd w).2
  | ReissueActivation e a now rnd => (reissue_activation e a now rnd w).2
  | Reject i a why p r now => (reject i a why p r now w).2
  | ConfirmActivation t pw p now salt => (confirm_activation t pw p now salt w).2
  end.
Definition perform_all (cs : list call) (w : world) : world := foldl (fun w c => perform c w) w cs.

Lemma stage_db d payload ttl w : db (_stage_delivery d payload ttl w).2 = db w.
Proof. unfold _stage_delivery. by destruct (EmailOutbox.stage_email_payload _ _ _ _) as [[r c]|]. Qed.
Lemma stage_all_db ds payload ttl w : db (stage_all ds payload ttl w).2 = db w.
Proof.
  revert w. induction ds as [|d ds IH]; intros w; [done|]. cbn [stage_all]. unfold mbind, prog_bind.
  pose proof (stage_db d payload ttl w) as Hd. destruct (_stage_delivery d payload ttl w) as [[x|e] w1]; [|done].
  by rewrite IH.
Qed.
Lemma limit_db buckets limit w :
  db (_require_rate_limit_without_session settings redis_keys redis_version redis_prefix buckets limit w).2 = db w.
Proof.
  unfold _require_rate_limit_without_session, rate_limit, on_redis.
  by destruct (RedisState.rate_limit _ _ _ _ _ _ _) as [[[]|e] c].
Qed.

(** Staging after a transaction does not touch the database. *)
Lemma after_transact {A B} (m : M A) (k : A -> M B) w :
  (forall a w', db (k a w').2 = db w') -> reviewed (db w) (db (m w).2) -> reviewed (db w) (db ((m ≫= k) w).2).
Proof.
  intros Hk Hm. unfold mbind, prog_bind. destruct (m w) as [[a|e] w1]; [|done]. by rewrite Hk.
Qed.

Lemma perform_reviewed c w : requests_wf (db w) -> reviewed (db w) (db (perform c w)).
Proof.
  intros Hwf. destruct c; cbn [perform].
  - unfold submit_request. pose proof (traced_submit address name network_prefix request now w Hwf) as Ht.
    assert (Hall : reviewed (db w) (db (transact IntegrityError
      (_ ← submit_body settings redis_keys redis_version redis_prefix address name network_prefix request now; mret tt) w).2)).
    { apply (transact_traced reviewed). apply traced_bind; [apply _|exact Ht|trace]. }
    destruct (submit_body settings redis_keys redis_version redis_prefix address name network_prefix request now w)
      as [[[[id ids]|]|e] w1] eqn:Hb; try done.
    unfold TxLogic.traced, wp in Ht. rewrite Hb in Ht. cbn in Ht. destruct Ht as [Hn Hr]. unfold commit.
    destruct (constraints (db w1) && auth_constraints (db w1)); [by rewrite stage_all_db|]. by apply tx_draw.
  - apply after_transact; [|apply (transact_traced reviewed), traced_approve].
    intros [sm o] w'. cbn. destruct o as [[[dl raw] ex]|]; [|done]. unfold mbind, prog_bind.
    pose proof (stage_db dl (activation_payload raw ex (summary_username sm) (summary_email sm))
                  (activation_token_ttl_hours settings * 3600) w') as Hd.
    by destruct (_stage_delivery _ _ _ w') as [[x|e] w1].
  - apply after_transact; [|apply (transact_traced reviewed), traced_reissue].
    intros [u [[dl raw] ex]] w'. cbn. unfold mbind, prog_bind.
    pose proof (stage_db dl (activation_payload raw ex (username u) (email u)) (activation_token_ttl_hours settings * 3600) w') as Hd.
    by destruct (_stage_delivery _ _ _ w') as [[x|e] w1].
  - apply after_transact; [|apply (transact_traced reviewed), traced_reject].
    intros [sm o] w'. cbn. destruct o as [dl|]; [|done]. unfold mbind, prog_bind.
    pose proof (stage_db dl [(str "template_code", str "request_rejected")] _NOTIFICATION_PAYLOAD_TTL_SECONDS w') as Hd.
    by destruct (_stage_delivery _ _ _ w') as [[x|e] w1].
  - unfold confirm_activation. unfold mbind at 1, prog_bind at 1.
    pose proof (limit_db [UserAuth.bucket (str "activation-token") raw_token;
      UserAuth.bucket (str "activation-confirm-network") network_prefix] (account_request_rate_limit settings) w) as Hl.
    destruct (_require_rate_limit_without_session _ _ _ _ _ _ w) as [[x|e] w1]; cbn in Hl; rewrite <- Hl; [|cbn; reflexivity].
    unfold lift, mbind, prog_bind. destruct (Passwords.hash_password new_password salt); [|cbn; reflexivity].
    destruct (UserAuth.digest_or_none _ _ _); [|cbn; reflexivity]. apply (transact_traced reviewed), traced_activation.
Qed.

(** C17: whatever the service is asked, every account request it knew is still
    there, as it was or decided, once, from pending, and by a named administrator; a decision
    is never changed or undone; and the decision's columns always agree with its
    state: an account for an approval and only for one, a time and a reviewer for
    every decision. *)
Theorem requests_are_decided_once cs w :
  requests_wf (db w) ->
  requests_wf (db (perform_all cs w)) /\
  forall r, r ∈ account_requests (auth (db w)) ->
    exists r', r' ∈ account_requests (auth (db (perform_all cs w))) /\ request_step r r' /\ (decided r -> r' = r).
Proof.
  intros Hwf.
  assert (Hr : reviewed (db w) (db (perform_all cs w)) /\ requests_wf (db (perform_all cs w))).
  { revert w Hwf. induction cs as [|c cs IH]; intros w Hwf; [split; [cbn; reflexivity|done]|].
    pose proof (perform_reviewed c w Hwf) as Hc. destruct (proj2 Hc Hwf) as [Hwf' _].
    destruct (IH (perform c w) Hwf') as [Hr Hw]. split; [|done]. by etrans. }
  destruct Hr as [[_ Hr] Hw]. split; [done|]. intros r Hin. destruct (Hr Hwf) as [_ Hs].
  destruct (Hs r Hin) as (r' & Hin' & Hst). exists r'. split; [done|]. split; [done|]. intros Hd.
  destruct Hst as [->|[Hp _]]; [done|]. unfold request_pending in Hp. boolP. unfold decided in Hd. rewrite Hp in Hd. naive_solver.
Qed.

(** ** What calls that return have done *)

Lemma review_require_ok buckets limit request w u w' :
  _require_rate_limit settings redis_keys redis_version redis_prefix buckets limit request w = (Ok u, w') -> db w' = db w.
Proof.
  unfold _require_rate_limit. intros (a & w1 & Ha & Hr)%bind_ok_inv.
  assert (db w1 = db w) as <-.
  { unfold rate_limit, on_redis in Ha. destruct (RedisState.rate_limit _ _ _ _ _ _ _) as [[x|e] c]; by simplify_eq. }
  destruct a; [unfold mret, prog_ret in Hr; by simplify_eq|]. by apply bind_ok_inv in Hr as (? & ? & _ & Hr).
Qed.
Lemma review_of_token_ok {A} (r : result OpaqueToken.exn A) w a w' : of_token r w = (Ok a, w') -> r = Ok a /\ w' = w.
Proof. unfold of_token, lift. destruct r; intros; by simplify_eq. Qed.

Lemma notify_ok request now reviewers w ids w' :
  notify request now reviewers w = (Ok ids, w') -> account_requests (auth (db w')) = account_requests (auth (db w)).
Proof.
  revert w ids. induction reviewers as [|a rest IH]; intros w ids; cbn [notify].
  { unfold mret, prog_ret. intros. by simplify_eq. }
  intros (i & w1 & [-> ->]%uuid_ok & (j & w2 & [-> ->]%uuid_ok & (u & w3 & ->%write_ok & Hr)%bind_ok_inv)%bind_ok_inv)%bind_ok_inv.
  apply bind_ok_inv in Hr as (l & w4 & Hl & Hr). unfold mret, prog_ret in Hr. injection Hr as <- <-. by apply IH in Hl.
Qed.

Lemma submit_body_ok address name prefix request now w id ids w' :
  submit_body settings redis_keys redis_version redis_prefix address name prefix request now w = (Ok (Some (id, ids)), w') ->
  exists r, account_requests (auth (db w')) = account_requests (auth (db w)) ++ [r] /\
    request_email_normalized r = _normalized_email_or_sentinel address /\ request_pending r = true.
Proof.
  unfold submit_body. intros (u & w1 & E1%review_require_ok & Hr)%bind_ok_inv. case_decide.
  { by apply bind_ok_inv in Hr as (? & ? & _ & Hr). }
  apply bind_ok_inv in Hr as (n & w2 & Hn & Hr).
  assert (w2 = w1) as ->.
  { destruct name as [x|]; [destruct (Identity.normalize_username x)|]; unfold mret, prog_ret, raise in Hn; by simplify_eq. }
  apply bind_ok_inv in Hr as (i & w3 & [-> ->]%uuid_ok & Hr). apply bind_ok_inv in Hr as (c & w4 & [-> ->]%read_ok & Hr).
  apply bind_ok_inv in Hr as (x & w5 & ->%write_ok & Hr). apply bind_ok_inv in Hr as (j & w6 & [-> ->]%uuid_ok & Hr).
  do 2 (apply bind_ok_inv in Hr as (? & ? & ->%write_ok & Hr)). apply bind_ok_inv in Hr as (c & w7 & [-> ->]%read_ok & Hr).
  apply bind_ok_inv in Hr as (l & w8 & Hl%notify_ok & Hr). unfold mret, prog_ret in Hr. simplify_eq.
  rewrite Hl. cbn. rewrite E1. eexists. split; [reflexivity|]. split; reflexivity.
Qed.

(** A request nobody decided in time keeps its address: nothing moves it to
    [EXPIRED], so every later submission for the address returns as if accepted
    and leaves no request and no mail, while the old one cannot be approved. *)
Theorem expired_request_blocks_its_address address name r now w :
  r ∈ account_requests (auth (db w)) -> NoDup (request_id <$> account_requests (auth (db w))) ->
  request_pending r = true -> request_expires_at r <= now ->
  Identity.normalize_email address = Some (request_email_normalized r) ->
  request_email_normalized r <> _INVALID_EMAIL_SENTINEL ->
  (forall prefix request w', submit_request address name prefix request now w = (Ok tt, w') ->
     account_requests (auth (db w')) = account_requests (auth (db w)) /\
     email_deliveries (auth (db w')) = email_deliveries (auth (db w))) /\
  (forall admin prefix request random x w', approve (request_id r) admin prefix request now random w <> (Ok x, w')).
Proof.
  intros Hr Hnd Hp He Ha Hne. split.
  - intros prefix request w'. unfold submit_request.
    destruct (submit_body settings redis_keys redis_version redis_prefix address name prefix request now w)
      as [[[[id ids]|]|e] w1] eqn:Hb.
    + apply submit_body_ok in Hb as (r2 & Hrows & He2 & Hp2). unfold commit.
      assert (auth_constraints (db w1) = false) as ->.
      { destruct (auth_constraints (db w1)) eqn:Hc; [|done]. unfold auth_constraints in Hc. boolP.
        unfold unique in *. boolP. rewrite Hrows in *. unfold scalars in *. rewrite filter_app, fmap_app in *.
        exfalso. apply NoDup_app in H3 as (_ & Hd & _). apply (Hd (request_email_normalized r)).
        - apply list_elem_of_fmap_2, list_elem_of_filter. done.
        - rewrite filter_cons_True by done. apply list_elem_of_singleton. rewrite He2.
          unfold _normalized_email_or_sentinel. by rewrite Ha. }
      rewrite andb_false_r. cbn. intros [= <-]. done.
    + exfalso. unfold submit_body in Hb. apply bind_ok_inv in Hb as (u & w2 & _ & Hb).
      unfold _normalized_email_or_sentinel in Hb. rewrite Ha in Hb. cbn [default] in Hb. rewrite decide_False in Hb by done.
      do 8 (apply bind_ok_inv in Hb as (? & ? & _ & Hb)). by apply bind_ok_inv in Hb as (? & ? & _ & Hb).
    + intros [Ht _]%transact_ok. apply bind_ok_inv in Ht as (? & ? & Ht & _). by rewrite Hb in Ht.
  - intros admin prefix request random x w'. unfold approve. intros (y & w1 & [Hy _]%transact_ok & _)%bind_ok_inv.
    unfold approve_body in Hy. apply bind_ok_inv in Hy as (u & w2 & E1%review_require_ok & Hy).
    apply bind_ok_inv in Hy as (o & w3 & [Ho ->]%read_ok & Hy). rewrite E1 in Ho. unfold get_request in Ho.
    rewrite (scalar_id request_id) in Ho by done. subst o. unfold request_pending in Hp. boolP. rewrite Hp in Hy.
    rewrite bool_decide_eq_false_2 in Hy by done. unfold request_pending in Hy. rewrite Hp in Hy.
    rewrite bool_decide_eq_true_2 in Hy by done. apply Z.leb_le in He. rewrite He in Hy. done.
Qed.

(** *** Approval *)

Lemma issue_activation_ok request user recipient now random w x w' :
  issue_activation settings token_peppers request user recipient now random w = (Ok x, w') ->
  exists d k, OpaqueToken.digest_opaque_token x.1.2 token_peppers _ACTIVATION_NAMESPACE = Ok d /\
    UserAuth.by_digest d k = true /\ token_id k = next_id (db w) /\ token_owner k = user /\ token_active k = true /\
    token_link k = Some request /\
    token_expires_at k = x.2 /\ x.2 = now + activation_token_ttl_hours settings * HOUR /\
    user_activations (auth (db w')) = user_activations (auth (db w)) ++ [k] /\
    users (db w') = users (db w) /\ account_requests (auth (db w')) = account_requests (auth (db w)).
Proof.
  unfold issue_activation. intros (raw & w1 & [_ ->]%review_of_token_ok & Hr)%bind_ok_inv.
  apply bind_ok_inv in Hr as (d & w1 & [Hd ->]%review_of_token_ok & Hr). apply bind_ok_inv in Hr as (i & w1 & [-> ->]%uuid_ok & Hr).
  apply bind_ok_inv in Hr as (c & w1 & [-> ->]%read_ok & Hr). apply bind_ok_inv in Hr as (? & w1 & ->%write_ok & Hr).
  apply bind_ok_inv in Hr as (i & w1 & [-> ->]%uuid_ok & Hr). apply bind_ok_inv in Hr as (j & w1 & [-> ->]%uuid_ok & Hr).
  apply bind_ok_inv in Hr as (? & w1 & ->%write_ok & Hr). unfold mret, prog_ret in Hr. injection Hr as <- <-.
  exists d. eexists. split; [exact Hd|]. cbn. split; [|repeat split; try reflexivity].
  unfold UserAuth.by_digest. cbn. by rewrite Z.eqb_refl, bool_decide_eq_true_2.
Qed.

Lemma staged_ok {A} (x : A) dl payload ttl w y w' :
  (_ ← _stage_delivery dl payload ttl; mret x) w = (Ok y, w') -> y = x /\ db w' = db w.
Proof.
  intros (u & w1 & Hs & Hr)%bind_ok_inv. unfold mret, prog_ret in Hr. injection Hr as <- <-. split; [done|].
  pose proof (stage_db dl payload ttl w) as Hd. by rewrite Hs in Hd.
Qed.

Definition new_account (id : Z) (r : AccountRequest) : User :=
  {| user_id := id; email := request_email r; email_normalized := request_email_normalized r;
     username := request_username r; username_normalized := request_username_normalized r;
     password_hash := None; user_state := AccountState.PENDING_ACTIVATION;
     device_limit := default_device_limit settings; user_expires_at := None; activated_at := None;
     disabled_at := None; traffic_quota_bytes := None; traffic_baseline_bytes := 0; quota_exhausted_at := None;
     user_dns_profile := str "default" |}.

Lemma approve_ok id admin prefix request now random w sm w' r :
  approve id admin prefix request now random w = (Ok sm, w') -> get_request id (db w) = Some r ->
  (request_state r = RequestState.APPROVED /\ sm = _summary r /\ db w' = db w) \/
  (request_pending r = true /\ now < request_expires_at r /\ scalar (clash r) (users (db w)) = None /\
   let u := next_id (db w) in
   sm = _summary (decide_request RequestState.APPROVED now admin (Some u) r) /\
   users (db w') = users (db w) ++ [new_account u r] /\
   account_requests (auth (db w')) =
     update request_id id (decide_request RequestState.APPROVED now admin (Some u)) (account_requests (auth (db w))) /\
   exists k, user_activations (auth (db w')) = user_activations (auth (db w)) ++ [k] /\ token_owner k = u /\
     token_active k = true /\ token_link k = Some id /\ token_expires_at k = now + activation_token_ttl_hours settings * HOUR).
Proof.
  intros Hrun Hget. unfold approve in Hrun. apply bind_ok_inv in Hrun as ([s0 o] & w1 & [Hy _]%transact_ok & Hst).
  unfold approve_body in Hy. apply bind_ok_inv in Hy as (? & w2 & E1%review_require_ok & Hy).
  apply bind_ok_inv in Hy as (f & w3 & [-> ->]%read_ok & Hy). rewrite E1, Hget in Hy.
  destruct (bool_decide (request_state r = RequestState.APPROVED)) eqn:Hap.
  { unfold mret, prog_ret in Hy. injection Hy as <- <- <-. cbn in Hst. unfold mret, prog_ret in Hst. injection Hst as <- <-.
    boolP. by left. }
  destruct (request_pending r) eqn:Hp; [|done]. destruct (request_expires_at r <=? now) eqn:He; [done|]. cbn [negb orb] in Hy.
  boolP. right. split; [done|]. split; [lia|].
  apply bind_ok_inv in Hy as (e & w3 & [-> ->]%read_ok & Hy). rewrite E1 in Hy.
  destruct (scalar (clash r) (users (db w))) eqn:Hcl; [done|]. split; [done|].
  apply bind_ok_inv in Hy as (i & w3 & [-> ->]%uuid_ok & Hy). do 2 (apply bind_ok_inv in Hy as (? & ? & ->%write_ok & Hy)).
  apply bind_ok_inv in Hy as (act & w4 & (d & k & _ & _ & _ & Ho & Hact & Hl & He1 & He2 & Hks & Hus & Hrs)%issue_activation_ok & Hy).
  apply bind_ok_inv in Hy as (j & w5 & [-> ->]%uuid_ok & Hy). do 2 (apply bind_ok_inv in Hy as (? & ? & ->%write_ok & Hy)).
  unfold mret, prog_ret in Hy. injection Hy as <- <- <-. destruct act as [[dl raw] ex]. cbn [fst snd] in *.
  apply staged_ok in Hst as [-> ->]. cbn. rewrite Hus, Hrs, Hks. cbn. rewrite E1. cbn. do 3 (split; [done|]).
  exists k. cbn in Ho. rewrite E1 in Ho. do 4 (split; [done|]). congruence.
Qed.

(** Approving a pending request creates one account, waiting to be activated
    and without a password, under an address and username no account had, and one
    activation link for it; approving it again changes nothing and answers the same. *)
Theorem approval_creates_one_account id admin prefix request now random w sm w' r :
  approve id admin prefix request now random w = (Ok sm, w') -> get_request id (db w) = Some r -> request_pending r = true ->
  now < request_expires_at r /\ Forall (fun u => clash r u = false) (users (db w)) /\
  users (db w') = users (db w) ++ [new_account (next_id (db w)) r] /\
  (exists k, user_activations (auth (db w')) = user_activations (auth (db w)) ++ [k] /\ token_owner k = next_id (db w) /\
     token_active k = true /\ token_link k = Some id /\ token_expires_at k = now + activation_token_ttl_hours settings * HOUR) /\
  (forall admin2 prefix2 request2 now2 random2 sm2 w2,
     approve id admin2 prefix2 request2 now2 random2 w' = (Ok sm2, w2) -> sm2 = sm /\ db w2 = db w').
Proof.
  intros Hrun Hget Hp. destruct (approve_ok _ _ _ _ _ _ _ _ _ _ Hrun Hget) as [[Hs _]|(_ & He & Hc & Hsm & Hu & Hrs & Hk)].
  { unfold request_pending in Hp. boolP. congruence. }
  split; [done|]. split; [by apply scalar_None|]. split; [done|]. split; [done|].
  intros admin2 prefix2 request2 now2 random2 sm2 w2 Hrun2.
  set (r' := decide_request RequestState.APPROVED now admin (Some (next_id (db w))) r).
  assert (Hget' : get_request id (db w') = Some r').
  { unfold get_request in *. rewrite Hrs, scalar_update by done. rewrite Z.eqb_refl, Hget. done. }
  destruct (approve_ok _ _ _ _ _ _ _ _ _ _ Hrun2 Hget') as [(_ & -> & Hdb)|[Hp' _]]; [|done].
  split; [|done]. by rewrite Hsm.
Qed.

(** *** Activation *)

Lemma confirm_activation_ok raw password prefix now salt w w' :
  confirm_activation raw password prefix now salt w = (Ok tt, w') ->
  exists d t u, UserAuth.digest_or_none token_peppers raw _ACTIVATION_NAMESPACE = Some d /\
    scalar (UserAuth.by_digest d) (user_activations (auth (db w))) = Some t /\ token_active t = true /\
    now < token_expires_at t /\ get_user (token_owner t) (db w) = Some u /\
    user_state u = AccountState.PENDING_ACTIVATION /\ Passwords.validate_password password = true /\
    users (db w') = update user_id (user_id u) (activate_user (Passwords.argon2_hash password salt) now) (users (db w)) /\
    user_activations (auth (db w')) =
      update_where (fun x => (token_owner x =? user_id u) && negb (token_id x =? token_id t) && token_active x)
        (set_token_revoked now)
        (update_where (fun x => token_id x =? token_id t) (fun x => UserAuth.set_consumed now (token_link x) x)
           (user_activations (auth (db w)))).
Proof.
  unfold confirm_activation. intros (? & w1 & Hl & Hr)%bind_ok_inv.
  pose proof (limit_db [UserAuth.bucket (str "activation-token") raw;
    UserAuth.bucket (str "activation-confirm-network") prefix] (account_request_rate_limit settings) w) as Hdb.
  rewrite Hl in Hdb. cbn [snd] in Hdb. rewrite <- Hdb. clear Hl Hdb.
  apply bind_ok_inv in Hr as (h & w2 & Hh & Hr). unfold lift, Passwords.hash_password in Hh.
  destruct (Passwords.validate_password password) eqn:Hv; [|done]. injection Hh as <- <-.
  destruct (UserAuth.digest_or_none token_peppers raw _ACTIVATION_NAMESPACE) as [d|]; [|done].
  apply transact_ok in Hr as [Hr _]. unfold activation_body in Hr.
  apply bind_ok_inv in Hr as (t & w2 & [Ht ->]%read_ok & Hr). destruct t as [t|]; [|done].
  destruct (token_active t) eqn:Ha; [|done]. destruct (token_expires_at t <=? now) eqn:He; [done|]. cbn [negb orb] in Hr.
  apply bind_ok_inv in Hr as (u & w2 & [Hu ->]%read_ok & Hr). destruct u as [u|]; [|done].
  destruct (bool_decide (user_state u = AccountState.PENDING_ACTIVATION)) eqn:Hs; [|done]. cbn [negb] in Hr.
  do 3 (apply bind_ok_inv in Hr as (? & ? & ->%write_ok & Hr)). apply write_ok in Hr as ->.
  boolP. exists d, t, u. split; [done|]. split; [done|]. split; [done|]. split; [lia|]. done.
Qed.

(** An activation row that is not active opens nothing. *)
Lemma inactive_activation raw d t password prefix now salt w w' :
  UserAuth.digest_or_none token_peppers raw _ACTIVATION_NAMESPACE = Some d ->
  scalar (UserAuth.by_digest d) (user_activations (auth (db w))) = Some t -> token_active t = false ->
  confirm_activation raw password prefix now salt w <> (Ok tt, w').
Proof.
  intros Hd Ht Ha (d' & t' & u' & Hd' & Ht' & Ha' & _)%confirm_activation_ok. rewrite Hd in Hd'. injection Hd' as <-.
  rewrite Ht in Ht'. injection Ht' as <-. congruence.
Qed.

(** C18: an activation that returns was given an active, unexpired link of an
    account waiting for it and a password that meets the policy; it makes the
    account active with that password, leaves no link of the account working, the
    one used included, and changes no other account. *)
Theorem activation_works_once raw password prefix now salt w w' :
  confirm_activation raw password prefix now salt w = (Ok tt, w') ->
  exists t u h, t ∈ user_activations (auth (db w)) /\ token_active t = true /\ now < token_expires_at t /\
    get_user (token_owner t) (db w) = Some u /\ user_state u = AccountState.PENDING_ACTIVATION /\
    Passwords.validate_password password = true /\
    get_user (user_id u) (db w') = Some (activate_user h now u) /\ Passwords.argon2_verify h password = true /\
    (forall i, i <> user_id u -> get_user i (db w') = get_user i (db w)) /\
    (forall k, k ∈ user_activations (auth (db w')) -> token_owner k = user_id u -> token_active k = false) /\
    (forall p2 prefix2 now2 salt2 w2, confirm_activation raw p2 prefix2 now2 salt2 w' <> (Ok tt, w2)).
Proof.
  intros (d & t & u & Hd & Ht & Ha & He & Hu & Hs & Hv & Hus & Hks)%confirm_activation_ok.
  set (h := Passwords.argon2_hash password salt) in *.
  pose proof (scalar_Some _ _ _ Ht) as [Hin _]. pose proof (scalar_Some _ _ _ Hu) as [_ Hid]. boolP.
  exists t, u, h. do 6 (split; [done|]). split.
  { unfold get_user in *. rewrite Hus, scalar_update by done. rewrite Z.eqb_refl. rewrite <- Hid in Hu. by rewrite Hu. }
  split; [apply Passwords.argon2_verify_hash|]. split.
  { intros i Hi. unfold get_user. rewrite Hus, scalar_update by done. by rewrite (proj2 (Z.eqb_neq _ _) Hi). }
  split.
  - rewrite Hks. intros k (k1 & (k0 & Hk0 & ->)%elem_of_update_where & ->)%elem_of_update_where Ho.
    destruct (token_id k0 =? token_id t) eqn:Hk; cbn in *; [rewrite andb_false_r in *; done|].
    rewrite Hk in *. cbn [negb] in *. rewrite andb_true_r in *.
    destruct (token_owner k0 =? user_id u) eqn:How; cbn in *; [by destruct (token_active k0) eqn:?|].
    boolP. done.
  - intros p2 prefix2 now2 salt2 w2. eapply inactive_activation; [exact Hd| |].
    { rewrite Hks. unfold update_where. rewrite !scalar_fmap.
      - rewrite Ht. reflexivity.
      - intros x. by destruct (token_id x =? token_id t).
      - intros x. by destruct (_ && _). }
    cbn. rewrite Z.eqb_refl. cbn. by rewrite andb_false_r.
Qed.

(** Sending an activation again leaves the account exactly one working link,
    the new one; the links mailed before it open nothing any more. *)
Theorem reissue_leaves_one_link email_ admin now random w expires w' :
  reissue_activation email_ admin now random w = (Ok expires, w') ->
  exists u k, u ∈ users (db w) /\ email u = email_ /\ user_state u = AccountState.PENDING_ACTIVATION /\
    k ∈ user_activations (auth (db w')) /\ token_owner k = user_id u /\ token_active k = true /\
    token_expires_at k = expires /\ expires = now + activation_token_ttl_hours settings * HOUR /\
    (forall x, x ∈ user_activations (auth (db w')) -> token_owner x = user_id u -> token_active x = true -> x = k) /\
    (forall raw d t p prefix now2 salt w2, UserAuth.digest_or_none token_peppers raw _ACTIVATION_NAMESPACE = Some d ->
       scalar (UserAuth.by_digest d) (user_activations (auth (db w))) = Some t -> token_owner t = user_id u ->
       confirm_activation raw p prefix now2 salt w' <> (Ok tt, w2)).
Proof.
  unfold reissue_activation. intros ([u [[dl raw] ex]] & w1 & [Hb _]%transact_ok & Hst)%bind_ok_inv.
  apply staged_ok in Hst as [-> Hw]. unfold reissue_body in Hb.
  apply bind_ok_inv in Hb as (f & w2 & [Hf ->]%read_ok & Hb). destruct f as [u'|]; [|done].
  destruct (bool_decide (user_state u' = AccountState.PENDING_ACTIVATION)) eqn:Hs; [|done]. cbn [negb] in Hb.
  apply bind_ok_inv in Hb as (q & w2 & [_ ->]%read_ok & Hb). destruct q as [q|]; [|done].
  apply bind_ok_inv in Hb as (? & ? & ->%write_ok & Hb).
  apply bind_ok_inv in Hb as (act & w4 & (d & k & _ & _ & _ & Ho & Hact & _ & He1 & He2 & Hks & _)%issue_activation_ok & Hb).
  apply bind_ok_inv in Hb as (? & ? & [-> ->]%uuid_ok & Hb).
  apply bind_ok_inv in Hb as (? & ? & ->%write_ok & Hb). unfold mret, prog_ret in Hb. injection Hb as -> -> <-.
  cbn [fst snd] in *. symmetry in Hf. apply scalar_Some in Hf as [Hin Hem]. boolP. rewrite Hw. cbn. rewrite Hks. cbn.
  set (f := fun t : Token => UserAuth.set_consumed now (token_link t) t).
  set (p := fun t : Token => (token_owner t =? user_id u) && token_active t).
  assert (Hdead : forall x0, token_owner x0 = user_id u -> token_active (if p x0 then f x0 else x0) = false).
  { intros y Hx. unfold p. rewrite Hx, Z.eqb_refl. cbn. by destruct (token_active y) eqn:?. }
  exists u, k. do 3 (split; [done|]). split; [set_solver|]. do 4 (split; [done|]). split.
  - intros y [(y0 & Hy0 & ->)%elem_of_update_where| ->%list_elem_of_singleton]%elem_of_app Hyo Hya; [|done].
    rewrite Hdead in Hya; [done|]. by destruct (p y0).
  - intros raw2 d2 t pw prefix now2 salt w2 Hd2 Ht Hto. eapply inactive_activation; [exact Hd2| |].
    { rewrite Hw. cbn. rewrite Hks. cbn. apply scalar_app_Some. unfold update_where. rewrite scalar_fmap.
      - rewrite Ht. reflexivity.
      - intros y. cbn. by destruct (_ && _). }
    by apply Hdead.
Qed.

End Service.
End AccountLife.
