(* ===== verification/AccountScenario.v ===== *)
(** * An account's beginning

    One person asks for an account, is approved, has the link sent again and
    activates it; another's request is left to expire. *)

From S2P Require Import Prelude PyText PyBytes PyTime Json IpAddress Usage ApiStore AccessToken OpaqueToken RedisState AbuseControl XrayCredential Access AuthStore UserAuth SessionLedger UserSessions SessionScenario Accounts AccountLife.
Import Db AuthTx SessionRevocation Accounts AccountLife.

Module AccountScenario.

#[local] Existing Instance OpaqueToken.example_hmac.
#[local] Existing Instance SessionScenario.example_argon2.
#[local] Existing Instance SessionScenario.example_validator.

Definition settings : Settings :=
  {| account_request_rate_limit := 5; account_request_review_rate_limit := 20; auth_rate_window_seconds := 900;
     account_request_ttl_days := 7; admin_public_url := str "https://admin.example.org/"; default_device_limit := 3;
     token_key_version := 2; activation_token_ttl_hours := 24 |}.
Notation ring := OpaqueToken.example_ring.
Definition prefix : text := str "nebula:auth:v1".
Definition network : text := str "198.51.100.0/24".
Definition T0 : Z := 1785000000500.

Definition root_admin : AdminUser :=
  {| admin_user_id := 9; admin_email := str "root@example.org"; admin_email_normalized := str "root@example.org";
     admin_username_normalized := None; admin_password_hash := str "$argon2id$9"; admin_role := AdminRole.OWNER;
     admin_state := AdminState.ACTIVE; sessions_valid_after := None |}.
Definition start : world := {| db := Db.with_admins [root_admin] (example_db ProvisioningState.ACTIVE); redis := AbuseControl.empty_redis |}.

Notation submit_request := (Accounts.submit_request settings ring 1 prefix).
Notation approve := (Accounts.approve settings ring ring 1 prefix).
Notation reissue_activation := (Accounts.reissue_activation settings ring).
Notation reject := (Accounts.reject settings ring 1 prefix).
Notation confirm_activation := (Accounts.confirm_activation settings ring ring 1 prefix).
Notation perform_all := (AccountLife.perform_all settings ring ring 1 prefix).

Lemma start_is_well_formed : requests_wf (db start).
Proof. constructor; cbn; [apply NoDup_nil_2|apply Forall_nil_2|apply Forall_nil_2]. Qed.

Definition bob : text := str "Bob@example.org".
Definition asked := Eval vm_compute in submit_request bob (Some (str "bob")) network 900 T0 start.
Definition w1 := asked.2.
Definition random (n : Z) : text := to_bytes 32 (98765432109876543210 + n).
Definition bobs : option AccountRequest := get_request 100 (db w1).

Definition approved := Eval vm_compute in approve 100 9 network 901 (T0 + 60000) (random 1) w1.
Definition w2 := approved.2.
Definition no_summary : AccountRequestSummary :=
  {| summary_id := 0; summary_email := []; summary_username := None; summary_state := RequestState.PENDING;
     summary_created_at := 0; taken := [] |}.
Definition summary := match approved.1 with Ok s => s | Err _ => no_summary end.
Lemma approved_ok : approve 100 9 network 901 (T0 + 60000) (random 1) w1 = (Ok summary, w2).
Proof. vm_compute. reflexivity. Qed.

Definition calls : list call :=
  [SubmitRequest bob (Some (str "bob")) network 900 T0; Approve 100 9 network 901 (T0 + 60000) (random 1);
   Reject 100 9 None network 902 (T0 + 70000)].
Lemma requests_are_decided_once_witness :
  requests_wf (db (perform_all calls start)) /\
  request_state <$> account_requests (auth (db (perform_all calls start))) = [RequestState.APPROVED].
Proof.
  split; [|vm_compute; reflexivity]. exact (proj1 (requests_are_decided_once settings ring ring 1 prefix calls start start_is_well_formed)).
Defined.

Lemma approval_creates_one_account_witness :
  exists r, get_request 100 (db w1) = Some r /\ users (db w2) = users (db w1) ++ [new_account settings (next_id (db w1)) r] /\
    (forall sm2 w3, approve 100 9 network 903 (T0 + 80000) (random 2) w2 = (Ok sm2, w3) -> sm2 = summary /\ db w3 = db w2).
Proof.
  assert (exists r, get_request 100 (db w1) = Some r /\ request_pending r = true) as (r & Hr & Hp)
    by (eexists; split; vm_compute; reflexivity).
  destruct (approval_creates_one_account settings ring ring 1 prefix 100 9 network 901 (T0 + 60000) (random 1) w1 summary w2 r
              approved_ok Hr Hp) as (_ & _ & Hu & _ & Hagain).
  exists r. split; [exact Hr|]. split; [exact Hu|]. intros sm2 w3. apply Hagain.
Defined.

(** A week later the link is sent again, and used. *)
Definition resent := Eval vm_compute in reissue_activation bob None (T0 + 7 * DAY) (random 3) w2.
Definition w3 := resent.2.
Definition link_expires : Z := match resent.1 with Ok e => e | Err _ => 0 end.
Lemma resent_ok : reissue_activation bob None (T0 + 7 * DAY) (random 3) w2 = (Ok link_expires, w3).
Proof. vm_compute. reflexivity. Qed.
Lemma reissue_leaves_one_link_witness :
  exists u k, email u = bob /\ k ∈ user_activations (auth (db w3)) /\ token_expires_at k = T0 + 8 * DAY /\
    (forall x, x ∈ user_activations (auth (db w3)) -> token_owner x = user_id u -> token_active x = true -> x = k).
Proof.
  destruct (reissue_leaves_one_link settings ring ring 1 prefix bob None (T0 + 7 * DAY) (random 3) w2 link_expires w3 resent_ok)
    as (u & k & _ & Hu & _ & Hk & _ & _ & He & _ & Hone & _).
  exists u, k. split; [exact Hu|]. split; [exact Hk|]. split; [|exact Hone]. rewrite He. vm_compute. reflexivity.
Defined.

Definition raw_link : text := match OpaqueToken.issue_opaque_token 2 (random 3) with Ok t => t | Err _ => [] end.
Definition secret : text := str "correct horse battery".
Definition activated := Eval vm_compute in confirm_activation raw_link secret network (T0 + 7 * DAY + 1000) [] w3.
Lemma activated_ok : confirm_activation raw_link secret network (T0 + 7 * DAY + 1000) [] w3 = (Ok tt, activated.2).
Proof. vm_compute. reflexivity. Qed.
Lemma activation_works_once_witness :
  (exists u h, get_user (user_id u) (db activated.2) = Some (activate_user h (T0 + 7 * DAY + 1000) u) /\
     Passwords.argon2_verify h secret = true) /\
  (forall w4, confirm_activation raw_link secret network (T0 + 7 * DAY + 2000) [] activated.2 <> (Ok tt, w4)).
Proof.
  destruct (activation_works_once settings ring ring 1 prefix raw_link secret network (T0 + 7 * DAY + 1000) [] w3 activated.2
              activated_ok) as (t & u & h & _ & _ & _ & _ & _ & _ & Hu & Hv & _ & _ & Hagain).
  split; [exists u, h; split; [exact Hu|exact Hv]|]. intros w4. apply Hagain.
Defined.

(** A month later an undecided request still holds its address. *)
Definition late : Z := T0 + 30 * DAY.
Lemma expired_request_blocks_its_address_witness :
  (exists w', submit_request bob None network 910 late w1 = (Ok tt, w') /\
     account_requests (auth (db w')) = account_requests (auth (db w1)) /\
     email_deliveries (auth (db w')) = email_deliveries (auth (db w1))) /\
  (forall x w', approve 100 9 network 911 late (random 4) w1 <> (Ok x, w')).
Proof.
  assert (exists r, account_requests (auth (db w1)) = [r] /\ request_pending r = true /\ request_expires_at r <= late /\
    Identity.normalize_email bob = Some (request_email_normalized r) /\ request_email_normalized r <> _INVALID_EMAIL_SENTINEL /\
    request_id r = 100) as (r & Hr & Hp & He & Hn & Hs & Hid).
  { eexists. split; [vm_compute; reflexivity|]. split; [vm_compute; reflexivity|]. split; [vm_compute; discriminate|].
    split; [vm_compute; reflexivity|]. split; [vm_compute; discriminate|vm_compute; reflexivity]. }
  assert (r ∈ account_requests (auth (db w1))) as Hin by (rewrite Hr; apply list_elem_of_singleton; reflexivity).
  assert (NoDup (request_id <$> account_requests (auth (db w1)))) as Hnd by (rewrite Hr; apply NoDup_singleton).
  assert (exists w', submit_request bob None network 910 late w1 = (Ok tt, w')) as [w' Hw'] by (eexists; vm_compute; reflexivity).
  split.
  - exists w'. split; [exact Hw'|].
    apply (proj1 (expired_request_blocks_its_address settings ring ring 1 prefix bob None r late w1 Hin Hnd Hp He Hn Hs)
             network 910 w' Hw').
  - intros x w''. rewrite <- Hid.
    apply (proj2 (expired_request_blocks_its_address settings ring ring 1 prefix bob None r late w1 Hin Hnd Hp He Hn Hs)).
Defined.

(** The newest link waits in the outbox, under the delivery's key. *)
Lemma link_is_staged :
  let k := EmailOutbox.email_outbox_key (match rev (email_deliveries (auth (db w3))) with d :: _ => delivery_id d | [] => 0 end) in
  Redis.find (RedisState.redis (redis w3)) k =
    Some {| Redis.content := Redis.Plain (str "{" ++ [chr 34] ++ str "email" ++ [chr 34] ++ str ":" ++ [chr 34] ++ bob ++ [chr 34] ++
              str "," ++ [chr 34] ++ str "expires_at" ++ [chr 34] ++ str ":" ++ [chr 34] ++ str "2026-08-02T17:20:00.500000+00:00" ++
              [chr 34] ++ str "," ++ [chr 34] ++ str "template_code" ++ [chr 34] ++ str ":" ++ [chr 34] ++ str "user_activation" ++
              [chr 34] ++ str "," ++ [chr 34] ++ str "token" ++ [chr 34] ++ str ":" ++ [chr 34] ++ raw_link ++ [chr 34] ++ str "," ++
              [chr 34] ++ str "username" ++ [chr 34] ++ str ":" ++ [chr 34] ++ str "bob" ++ [chr 34] ++ str "}");
            Redis.deadline := Some 87400000 |}.
Proof. vm_compute. reflexivity. Qed.

End AccountScenario.
