(* ===== verification/MailWorker.v ===== *)
(** * The mail worker

    Models [services/worker/src/nebula_worker]: [outbox.py] (Module Outbox),
    [templates.py] (Module Templates), [adapters/] (Module Adapters) and
    [poller.py] with the loop of [main.py] (Module Poller).  The worker shares
    the table [email_deliveries] and the Redis server with the control plane.

    Instants are in milliseconds, as everywhere; the clock is read once a poll,
    as in the code.  Rows a statement takes in no stated order come in the order
    of the table. *)

From S2P Require Import Prelude PyText PyBytes PyTime Json IpAddress Usage ApiStore OpaqueToken RedisState XrayCredential Access AuthStore UserAuth Accounts.
Import Db AuthTx TxLogic.

(** ** outbox.py *)

Module Outbox.

Definition KEY_PREFIX : text := str "nebula:email-outbox:v1".
Definition email_outbox_key (delivery : Z) : text := KEY_PREFIX ++ str ":" ++ str_uuid delivery.

(** [GET k] *)
Definition redis_get (k : text) : Redis.script (option text) := fun s =>
  match Redis.find s k with
  | Some e =>
      match Redis.content e with
      | Redis.Plain b => (Ok (Some b), s)
      | Redis.Counter n => (Ok (Some (show_Z n)), s)
      | Redis.Hash _ => (Err Redis.WrongType, s)
      end
  | None => (Ok None, s)
  end.

Inductive decode_error := UnicodeDecodeError.

Definition text_of (j : json) : option text := match j with JStr t => Some t | _ => None end.
(** Every key of a JSON object is a string. *)
Definition payload_of (j : json) : option (list (text * text)) :=
  match j with
  | JObj kvs => mapM (fun kv => pair kv.1 <$> text_of kv.2) kvs
  | _ => None
  end.

(** The bytes are decoded outside of the [try]. *)
Definition read_email_payload (delivery : Z) (c : RedisState.conn)
  : result decode_error (option (list (text * text))) * RedisState.conn :=
  let '(r, c') := RedisState.eval (redis_get (email_outbox_key delivery)) c in
  (match r with
   | Err _ | Ok None => Ok None
   | Ok (Some raw) =>
       match utf8_decode raw with
       | None => Err UnicodeDecodeError
       | Some t => Ok (loads t ≫= payload_of)
       end
   end, c').

End Outbox.

(** ** templates.py *)

Module Templates.

Record RenderedEmail := { subject : text; body : text }.

Definition line (s : string) : text := quoted s ++ [NL].
Definition payload_get (k : string) (payload : list (text * text)) : text := default [] (dict_get (str k) payload).

Definition review_email (payload : list (text * text)) : RenderedEmail :=
  let request_id := payload_get "account_request_id" payload in
  let review_url := payload_get "review_url" payload in
  let review := match review_url with
                | [] => []
                | _ => line "Review it in the admin panel:" ++ str "  " ++ review_url ++ [NL; NL]
                end in
  {| subject := str "New Nebula account request pending review";
     body := line "A new account request is waiting for review." ++ [NL] ++ review ++
             str "Request ID: " ++ request_id ++ [NL] |}.

Definition activation_email (payload : list (text * text)) : RenderedEmail :=
  let token := payload_get "token" payload in
  let expires_at := payload_get "expires_at" payload in
  let username := payload_get "username" payload in
  let email := payload_get "email" payload in
  let identifiers :=
    str "  Email:    " ++ email ++ [NL] ++
    match username with [] => [] | _ => str "  Username: " ++ username ++ [NL] end in
  {| subject := str "Activate your Nebula account";
     body :=
       line "Your Nebula account request was approved." ++ [NL] ++
       line "This account:" ++
       identifiers ++ [NL] ++
       line "To finish setting it up:" ++ [NL] ++
       line "  1. Open the Nebula app." ++
       line "  2. On the sign-in screen, tap 'Have an activation code? Activate'." ++
       line "  3. Enter the activation code below." ++
       line "  4. Choose the password you want, then tap 'Activate'." ++ [NL] ++
       line "Activation code:" ++ str "  " ++ token ++ [NL; NL] ++
       line "You choose your own password in step 4. No password has been" ++
       line "created for you, and nobody here can see or set it." ++ [NL] ++
       line "After activating, sign in with the password you just chose." ++ [NL] ++
       str "This code works once and expires at " ++ expires_at ++ str "." ++ [NL] ++
       line "If it expires, ask an administrator to approve a new request." |}.

Definition reset_email (payload : list (text * text)) : RenderedEmail :=
  let token := payload_get "token" payload in
  let expires_at := payload_get "expires_at" payload in
  {| subject := str "Reset your Nebula password";
     body := line "A password reset was requested for your Nebula account." ++ [NL] ++
             str "Reset code: " ++ token ++ [NL] ++
             str "This code expires at " ++ expires_at ++ str "." ++ [NL] ++
             line "If you did not request this, no action is needed." |}.

Definition rejected_email : RenderedEmail :=
  {| subject := str "Your Nebula account request was not approved";
     body := line "Your Nebula account request was reviewed and was not approved." |}.

(** [None]: [UnknownTemplate]. *)
Definition render (template_code : text) (payload : list (text * text)) : option RenderedEmail :=
  if bool_decide (template_code = str "account_request_review") then Some (review_email payload)
  else if bool_decide (template_code = str "user_activation") then Some (activation_email payload)
  else if bool_decide (template_code = str "password_reset") then Some (reset_email payload)
  else if bool_decide (template_code = str "request_rejected") then Some rejected_email
  else None.

End Templates.

(** ** adapters/ *)

Module Adapters.

(** What [send] raises: the error of the contract, or anything else. *)
Inductive exn := EmailSendError | OtherError.

(** [EmailAdapter], over the state of the mail provider. *)
Class EmailAdapter (P : Type) := { send (to subject body : text) : prog P exn text }.

(** *** resend.py

    The HTTPS exchange is a parameter: it answers with a body, or raises
    [URLError] or [TimeoutError], or something else. *)
Inductive http_exn := URLError | HttpOther.
Class HttpPost (P : Type) := { urlopen (key data : text) : prog P http_exn text }.

Definition response_id (body_bytes : text) : result exn text :=
  match utf8_decode body_bytes with
  | None => Err OtherError
  | Some t =>
      match loads t with
      | Some (JObj kvs) =>
          match dict_get (str "id") kvs with
          | Some (JStr id) => Ok id
          | _ => Err EmailSendError
          end
      | _ => Err EmailSendError
      end
  end.
Definition resend_payload (email_from to subject body : text) : text :=
  dumps (JObj [(str "from", JStr email_from); (str "to", JArr [JStr to]); (str "subject", JStr subject);
               (str "text", JStr body)]).
Definition resend_send {P} `{HttpPost P} (email_from api_key to subject body : text) : prog P exn text := fun p =>
  match urlopen api_key (resend_payload email_from to subject body) p with
  | (Ok bytes, p') => (response_id bytes, p')
  | (Err URLError, p') => (Err EmailSendError, p')
  | (Err HttpOther, p') => (Err OtherError, p')
  end.
Definition ResendAdapter {P} `{HttpPost P} (email_from api_key : text) : EmailAdapter P :=
  {| send := resend_send email_from api_key |}.

(** *** smtp.py

    The SMTP conversation is a parameter; [uuid] is the identifier drawn. *)
Record EmailMessage := { msg_subject : text; msg_from : text; msg_to : text; msg_id : text; msg_content : text }.
(** [OSError] and [SMTPException], or anything else. *)
Inductive smtp_exn := Smtp_failed | Smtp_other.
Class Smtp (P : Type) := {
  message_uuid : P -> Z;
  converse (starttls : bool) (login : option (text * text)) (m : EmailMessage) : prog P smtp_exn unit;
}.
Record SmtpSettings := {
  email_from : text; smtp_starttls : bool; smtp_username : text; smtp_password : text;
}.
Definition message_id (uuid : Z) : text := str "<" ++ str_uuid uuid ++ str "@nebula-worker>".
Definition smtp_send {P} `{Smtp P} (s : SmtpSettings) (to subject body : text) : prog P exn text := fun p =>
  let id := message_id (message_uuid p) in
  let message := {| msg_subject := subject; msg_from := email_from s; msg_to := to; msg_id := id; msg_content := body |} in
  let login := if negb (bool_decide (smtp_username s = [])) && negb (bool_decide (smtp_password s = []))
               then Some (smtp_username s, smtp_password s) else None in
  match converse (smtp_starttls s) login message p with
  | (Ok _, p') => (Ok id, p')
  | (Err Smtp_failed, p') => (Err EmailSendError, p')
  | (Err Smtp_other, p') => (Err OtherError, p')
  end.
Definition SmtpAdapter {P} `{Smtp P} (s : SmtpSettings) : EmailAdapter P := {| send := smtp_send s |}.

End Adapters.

(** ** poller.py *)

Module Poller.
Import Outbox Templates Adapters.

Inductive exn := DecodeError | ProviderError | IntegrityError.
Notation T := (prog world (failure exn)).

Record Settings := { lease_seconds : Z; batch_size : nat; max_attempts : Z }.
Definition SECOND : Z := 1000.

Definition pending := str "pending".
Definition sending := str "sending".
Definition sent := str "sent".
Definition failed := str "failed".

Record ClaimedDelivery := {
  claimed_id : Z; claimed_template : text; claimed_recipient : text; claimed_attempts : Z;
}.
Definition claimed_of (e : EmailDelivery) : ClaimedDelivery :=
  {| claimed_id := delivery_id e; claimed_template := template_code e; claimed_recipient := recipient_address e;
     claimed_attempts := delivery_attempts e |}.

Definition mails (d : DB) : list EmailDelivery := email_deliveries (auth d).

(** *** The statements *)

Definition set_state (s : text) (attempts available : Z) (lease sent_on : option Z) (provider_id code : option text)
    (e : EmailDelivery) : EmailDelivery :=
  {| delivery_id := delivery_id e; deduplication_key := deduplication_key e; template_code := template_code e;
     recipient_address := recipient_address e; subject_kind := subject_kind e; subject_id := subject_id e;
     delivery_state := s; delivery_attempts := attempts; available_at := available; leased_until := lease;
     sent_at := sent_on; provider_message_id := provider_id; delivery_result := code |}.

Definition due (now : Z) (e : EmailDelivery) : bool :=
  bool_decide (delivery_state e = pending) && (available_at e <=? now).
Fixpoint insert_by_available (e : EmailDelivery) (l : list EmailDelivery) : list EmailDelivery :=
  match l with
  | [] => [e]
  | x :: l' => if available_at e <=? available_at x then e :: l else x :: insert_by_available e l'
  end.
Definition by_available (l : list EmailDelivery) : list EmailDelivery := foldr insert_by_available [] l.
Definition lease (until : Z) (e : EmailDelivery) : EmailDelivery :=
  set_state sending (delivery_attempts e) (available_at e) (Some until) (sent_at e) (provider_message_id e)
    (delivery_result e) e.
Definition _CLAIM_SQL (until now : Z) (n : nat) (d : DB) : list EmailDelivery * DB :=
  let ids := delivery_id <$> take n (by_available (scalars (due now) (mails d))) in
  let picked e := bool_decide (delivery_id e ∈ ids) in
  let rows := update_where picked (lease until) (mails d) in
  (scalars picked rows, with_email_deliveries rows d).

Definition lease_over (now : Z) (e : EmailDelivery) : bool :=
  bool_decide (delivery_state e = sending) && match leased_until e with Some l => l <? now | None => false end.
Definition reclaim (max now : Z) (e : EmailDelivery) : EmailDelivery :=
  set_state (if max <=? delivery_attempts e + 1 then failed else pending) (delivery_attempts e + 1) now None (sent_at e)
    (provider_message_id e) (Some (str "lease_expired")) e.
Definition _RECLAIM_EXPIRED_LEASES_SQL (max now : Z) (d : DB) : list EmailDelivery * DB :=
  (reclaim max now <$> scalars (lease_over now) (mails d),
   with_email_deliveries (update_where (lease_over now) (reclaim max now) (mails d)) d).

Definition update_mail (id : Z) (f : EmailDelivery -> EmailDelivery) (d : DB) : DB :=
  with_email_deliveries (update delivery_id id f (mails d)) d.
Definition mark_sent (now : Z) (provider_id : text) (e : EmailDelivery) : EmailDelivery :=
  set_state sent (delivery_attempts e + 1) (available_at e) (leased_until e) (Some now) (Some provider_id)
    (Some (str "delivered")) e.
Definition _MARK_SENT_SQL (id now : Z) (provider_id : text) : DB -> DB := update_mail id (mark_sent now provider_id).
Definition reschedule (available : Z) (code : text) (e : EmailDelivery) : EmailDelivery :=
  set_state pending (delivery_attempts e + 1) available (leased_until e) (sent_at e) (provider_message_id e) (Some code) e.
Definition _RESCHEDULE_SQL (id available : Z) (code : text) : DB -> DB := update_mail id (reschedule available code).
Definition mark_failed (code : text) (e : EmailDelivery) : EmailDelivery :=
  set_state failed (delivery_attempts e + 1) (available_at e) (leased_until e) (sent_at e) (provider_message_id e)
    (Some code) e.
Definition _MARK_FAILED_SQL (id : Z) (code : text) : DB -> DB := update_mail id (mark_failed code).
Definition _AUDIT_SQL (delivery : Z) (out reason : text) : DB -> DB :=
  add_audit_event {| actor := by_worker; ev_target_kind := email_delivery; ev_target_id := delivery;
                     event_code := str "email_delivery_changed"; outcome := out; reason_code := Some reason |}.

(** *** Leases and batches *)

Definition reclaim_body (max now : Z) : T nat :=
  rows ← read (fun d => (_RECLAIM_EXPIRED_LEASES_SQL max now d).1);
  _ ← write (fun d => (_RECLAIM_EXPIRED_LEASES_SQL max now d).2);
  _ ← write (fun d => foldl (fun d e =>
        _AUDIT_SQL (delivery_id e) (if bool_decide (delivery_state e = failed) then failed else str "denied")
          (str "lease_expired") d) d rows);
  mret (length rows).
Definition reclaim_expired_leases (max now : Z) : prog world exn nat := transact IntegrityError (reclaim_body max now).

Definition claim_body (n : nat) (lease_s now : Z) : T (list ClaimedDelivery) :=
  rows ← read (fun d => (_CLAIM_SQL (now + lease_s * SECOND) now n d).1);
  _ ← write (fun d => (_CLAIM_SQL (now + lease_s * SECOND) now n d).2);
  mret (claimed_of <$> rows).
Definition claim_batch (n : nat) (lease_s now : Z) : prog world exn (list ClaimedDelivery) :=
  transact IntegrityError (claim_body n lease_s now).

(** *** One delivery *)

Definition _UNRETRYABLE_RESULT_CODES : list text := [str "payload_unavailable"; str "unknown_template"].
Definition backoff_seconds (attempts : Z) : Z := Z.min 3600 (30 * 2 ^ attempts).
Definition finalize_body (s : Settings) (d : ClaimedDelivery) (out code : text) (now : Z) : T unit :=
  let exhausted := max_attempts s <=? claimed_attempts d + 1 in
  _ ← (if exhausted || bool_decide (code ∈ _UNRETRYABLE_RESULT_CODES)
       then write (_MARK_FAILED_SQL (claimed_id d) code)
       else write (_RESCHEDULE_SQL (claimed_id d) (now + backoff_seconds (claimed_attempts d) * SECOND) code));
  write (_AUDIT_SQL (claimed_id d) out code).
Definition _finalize (s : Settings) (d : ClaimedDelivery) (out code : text) (now : Z) : prog world exn unit :=
  transact IntegrityError (finalize_body s d out code now).

(** What the worker acts on.  [handed] records what was given to the adapter. *)
Record letter := { letter_of : Z; letter_to : text; letter_text : RenderedEmail }.
Record host (P : Type) := { store : world; provider : P; handed : list letter }.
#[global] Arguments store {_} _.
#[global] Arguments provider {_} _.
#[global] Arguments handed {_} _.

Section Worker.
Context {P : Type} `{EmailAdapter P} (settings : Settings).
Notation M := (prog (host P) exn).

Definition with_store (w : world) (h : host P) : host P := {| store := w; provider := provider h; handed := handed h |}.
Definition in_store {A} (m : prog world exn A) : M A := fun h => let '(r, w) := m (store h) in (r, with_store w h).

Definition read_payload (delivery : Z) : prog world exn (option (list (text * text))) := fun w =>
  let '(r, c) := read_email_payload delivery (redis w) in
  (match r with Ok p => Ok p | Err UnicodeDecodeError => Err DecodeError end, {| db := db w; redis := c |}).

(** [adapter.send], its own error as a value. *)
Definition hand_over (id : Z) (to : text) (e : RenderedEmail) : M (option text) := fun h =>
  let '(r, p) := send to (subject e) (body e) (provider h) in
  (match r with Ok id' => Ok (Some id') | Err EmailSendError => Ok None | Err OtherError => Err ProviderError end,
   {| store := store h; provider := p; handed := handed h ++ [{| letter_of := id; letter_to := to; letter_text := e |}] |}).

Definition sent_body (id now : Z) (provider_id : text) : T unit :=
  _ ← write (_MARK_SENT_SQL id now provider_id);
  write (_AUDIT_SQL id (str "succeeded") sent).

Definition deliver_one (d : ClaimedDelivery) (now : Z) : M unit :=
  payload ← in_store (read_payload (claimed_id d));
  match payload with
  | None => in_store (_finalize settings d failed (str "payload_unavailable") now)
  | Some p =>
      match render (claimed_template d) p with
      | None => in_store (_finalize settings d failed (str "unknown_template") now)
      | Some rendered =>
          answer ← hand_over (claimed_id d) (claimed_recipient d) rendered;
          match answer with
          | None => in_store (_finalize settings d (str "denied") (str "send_failed") now)
          | Some provider_id => in_store (transact IntegrityError (sent_body (claimed_id d) now provider_id))
          end
      end
  end.

Fixpoint deliver_all (ds : list ClaimedDelivery) (now : Z) : M unit :=
  match ds with
  | [] => mret tt
  | d :: ds' => _ ← try_except (deliver_one d now) (fun _ => Some (mret tt)); deliver_all ds' now
  end.

Definition poll_once (now : Z) : M nat :=
  _ ← in_store (reclaim_expired_leases (max_attempts settings) now);
  claimed ← in_store (claim_batch (batch_size settings) (lease_seconds settings) now);
  _ ← deliver_all claimed now;
  mret (length claimed).

(** [run_loop] of [main.py], for as many iterations as there are readings of the
    clock. *)
Fixpoint run_loop (clock : list Z) : M unit :=
  match clock with
  | [] => mret tt
  | now :: clock' => _ ← try_except (poll_once now) (fun _ => Some (mret 0%nat)); run_loop clock'
  end.

(** A poll during which the process is killed: after [n] deliveries, [in_flight]
    if the next message had been handed over by then. *)
Definition poll_killed (now : Z) (n : nat) (in_flight : bool) : M unit :=
  _ ← in_store (reclaim_expired_leases (max_attempts settings) now);
  claimed ← in_store (claim_batch (batch_size settings) (lease_seconds settings) now);
  _ ← deliver_all (take n claimed) now;
  match claimed !! n with
  | Some d =>
      if in_flight then
        payload ← in_store (read_payload (claimed_id d));
        match payload ≫= render (claimed_template d) with
        | Some rendered => _ ← hand_over (claimed_id d) (claimed_recipient d) rendered; mret tt
        | None => mret tt
        end
      else mret tt
  | None => mret tt
  end.

End Worker.
End Poller.
