(* ===== verification/MailLife.v ===== *)
(** * What the mail worker guarantees

    About [MailWorker]: what the control plane stages is what the worker reads;
    every letter it hands over is for a row that was due, goes to its recipient
    and says what was staged; a message is handed over at most [max_attempts]
    times, whatever kills the worker; and a worker that keeps polling settles
    every message. *)

From S2P Require Import Prelude PyText PyBytes PyTime Json IpAddress Usage ApiStore OpaqueToken RedisState AbuseControl AdminSessions XrayCredential Access AuthStore UserAuth Accounts MailWorker.
Import Db AuthTx TxLogic.

Module MailLife.
Import Outbox Templates Adapters Poller.

(** ** One row of the table *)

Definition row (i : Z) (d : DB) : option EmailDelivery := scalar (fun e => delivery_id e =? i) (mails d).

Lemma row_update i id f d :
  (forall e, delivery_id (f e) = delivery_id e) ->
  row i (update_mail id f d) = if i =? id then f <$> row i d else row i d.
Proof. intros Hf. unfold row, update_mail. cbn. by apply scalar_update. Qed.
Lemma row_update_where i p f d :
  (forall e, delivery_id (f e) = delivery_id e) ->
  row i (with_email_deliveries (update_where p f (mails d)) d) = (fun e => if p e then f e else e) <$> row i d.
Proof. intros Hf. unfold row, update_where. cbn. apply scalar_fmap. intros e. destruct (p e); by rewrite ?Hf. Qed.
Lemma row_elem i d e : row i d = Some e -> e ∈ mails d /\ delivery_id e = i.
Proof. intros [? ?]%scalar_Some. boolP. done. Qed.
Lemma elem_row d e : NoDup (delivery_id <$> mails d) -> e ∈ mails d -> row (delivery_id e) d = Some e.
Proof. apply scalar_id. Qed.
Lemma row_same_mails i d d' : mails d' = mails d -> row i d' = row i d.
Proof. unfold row. by intros ->. Qed.

(** ** Constraints *)

Lemma forallb_elem {A} (f : A -> bool) l : forallb f l = true <-> forall x, x ∈ l -> f x = true.
Proof. rewrite forallb_forall. by setoid_rewrite list_elem_of_In. Qed.

Lemma consistent_mails rows d :
  consistent d -> unique always deduplication_key rows = true -> forallb mail_checks rows = true ->
  consistent (with_email_deliveries rows d).
Proof.
  intros [Hc Ha]%andb_true_iff Hu Hf. unfold consistent. rewrite andb_true_iff. split; [exact Hc|].
  unfold auth_constraints, mail_constraints in *. boolP. cbn. rewrite !andb_true_iff. by repeat split.
Qed.
Lemma consistent_checks d : consistent d -> unique always deduplication_key (mails d) = true /\ forallb mail_checks (mails d) = true.
Proof. intros [_ Ha]%andb_true_iff. unfold auth_constraints, mail_constraints in Ha. by boolP. Qed.

(** A statement that keeps the deduplication keys and the checks of the rows it
    changes commits. *)
Lemma consistent_update_where p f d :
  consistent d -> (forall e, deduplication_key (f e) = deduplication_key e) ->
  (forall e, e ∈ mails d -> p e = true -> mail_checks e = true -> mail_checks (f e) = true) ->
  consistent (with_email_deliveries (update_where p f (mails d)) d).
Proof.
  intros Hc Hk Hf. destruct (consistent_checks d Hc) as [Hu Hm]. apply consistent_mails; [done| |].
  - by apply unique_update_where.
  - rewrite forallb_elem in Hm |- *. intros x (e & He & ->)%elem_of_update_where. destruct (p e) eqn:Hp; auto.
Qed.

(** ** What a transaction of the worker leaves *)

(** A transaction that only writes commits, or leaves everything as it was. *)
Lemma transact_write_either {A} (m : prog world (failure exn) A) (a : A) d' w :
  m w = (Ok a, with_db d' w) -> next_id d' = next_id (db w) ->
  transact IntegrityError m w = (Ok a, with_db d' w) \/ transact IntegrityError m w = (Err IntegrityError, w).
Proof.
  intros Hm Hn. unfold transact, commit. rewrite Hm. cbn.
  destruct (constraints d' && auth_constraints d'); [by left|right]. destruct w as [d c]. cbn in *. rewrite Hn.
  f_equal. unfold with_db, with_next_id. cbn. by destruct d.
Qed.
Lemma transact_write_commits {A} (m : prog world (failure exn) A) (a : A) d' w :
  m w = (Ok a, with_db d' w) -> consistent d' -> transact IntegrityError m w = (Ok a, with_db d' w).
Proof. intros Hm Hc. unfold transact, commit, consistent in *. rewrite Hm. cbn. by rewrite Hc. Qed.

Lemma with_email_deliveries_next rows d : next_id (with_email_deliveries rows d) = next_id d.
Proof. done. Qed.
Lemma audit_mails id out reason d : mails (_AUDIT_SQL id out reason d) = mails d.
Proof. done. Qed.

(** The row a delivery leaves: the one it found, or one of three changes to it. *)
Inductive outcome_of (max now : Z) (e : EmailDelivery) : EmailDelivery -> Prop :=
| left_alone : outcome_of max now e e
| was_sent pid : outcome_of max now e (mark_sent now pid e)
| was_failed code : outcome_of max now e (mark_failed code e)
| was_put_off t code :
    delivery_attempts e + 1 < max -> t <= now + 3600 * SECOND -> outcome_of max now e (reschedule t code e).
#[local] Hint Constructors outcome_of : core.

Definition finalised (s : Settings) (d : ClaimedDelivery) (code : text) (now : Z) : EmailDelivery -> EmailDelivery :=
  if (max_attempts s <=? claimed_attempts d + 1) || bool_decide (code ∈ _UNRETRYABLE_RESULT_CODES)
  then mark_failed code else reschedule (now + backoff_seconds (claimed_attempts d) * SECOND) code.

(** What a transaction about one row may leave. *)
Definition touches (max now : Z) (d : ClaimedDelivery) (w w' : world) : Prop :=
  RedisState.redis (redis w') = RedisState.redis (redis w) /\
  exists f, mails (db w') = update delivery_id (claimed_id d) f (mails (db w)) /\
    (forall e, delivery_id (f e) = delivery_id e) /\
    forall e, delivery_attempts e = claimed_attempts d -> outcome_of max now e (f e).

Lemma update_same {A} (id_of : A -> Z) id rows : update id_of id (fun e => e) rows = rows.
Proof. unfold update. rewrite <- (list_fmap_id rows) at 2. apply list_fmap_ext. intros _ r _. cbn. by destruct (_ =? _). Qed.
Lemma touches_nothing max now d w w' :
  RedisState.redis (redis w') = RedisState.redis (redis w) -> mails (db w') = mails (db w) -> touches max now d w w'.
Proof. intros Hr Hm. split; [done|]. exists (fun e => e). by rewrite update_same. Qed.

Lemma touches_transact {A} max now d f (m : prog world (failure exn) A) a d' w :
  m w = (Ok a, with_db d' w) -> next_id d' = next_id (db w) ->
  mails d' = update delivery_id (claimed_id d) f (mails (db w)) -> (forall e, delivery_id (f e) = delivery_id e) ->
  (forall e, delivery_attempts e = claimed_attempts d -> outcome_of max now e (f e)) ->
  touches max now d w (transact IntegrityError m w).2.
Proof.
  intros Hm Hn Hd Hi Ho. destruct (transact_write_either m a d' w Hm Hn) as [->| ->]; cbn; [|by apply touches_nothing].
  split; [done|]. eauto.
Qed.
Lemma finalize_touches s d out code now w : touches (max_attempts s) now d w (_finalize s d out code now w).2.
Proof.
  unfold _finalize. apply (touches_transact _ _ _ (finalised s d code now) _ tt
    (_AUDIT_SQL (claimed_id d) out code (update_mail (claimed_id d) (finalised s d code now) (db w)))).
  - unfold finalize_body, finalised. by destruct (_ || _).
  - done.
  - done.
  - unfold finalised. by destruct (_ || _).
  - intros e Ha. unfold finalised. destruct (_ || _) eqn:He; [auto|]. apply orb_false_iff in He as [He _]. boolP.
    apply was_put_off; [lia|]. unfold backoff_seconds, SECOND. lia.
Qed.
Lemma sent_touches max d now pid w : touches max now d w (transact IntegrityError (sent_body (claimed_id d) now pid) w).2.
Proof. by eapply (touches_transact _ _ _ (mark_sent now pid)); auto. Qed.

Lemma eval_get_server k c : RedisState.redis (RedisState.eval (redis_get k) c).2 = RedisState.redis c.
Proof.
  unfold RedisState.eval, redis_get. destruct (RedisState.next_fate c); try done;
    (destruct (Redis.find _ _) as [[[] ?]|]; done).
Qed.

(** What the worker reads for a delivery. *)
Definition staged (sv : Redis.server) (i : Z) (p : list (text * text)) : Prop :=
  exists raw dl t, Redis.find sv (email_outbox_key i) = Some {| Redis.content := Redis.Plain raw; Redis.deadline := dl |} /\
    utf8_decode raw = Some t /\ loads t ≫= payload_of = Some p.
Definition outbox_of {P} (h : host P) : Redis.server := RedisState.redis (redis (store h)).

Lemma show_Z_payload n t : utf8_decode (show_Z n) = Some t -> loads t ≫= payload_of = None.
Proof.
  rewrite AdminSessions.utf8_decode_ascii.
  - intros [= <-]. change (show_Z n) with (dumps (JInt n)). by rewrite loads_dumps.
  - eapply Forall_impl; [apply show_Z_printable|]. intros c Hc. unfold is_printable in Hc. boolP. lia.
Qed.
Lemma read_payload_ok i w :
  let '(r, w') := read_payload i w in
  db w' = db w /\ RedisState.redis (redis w') = RedisState.redis (redis w) /\
  forall p, r = Ok (Some p) -> staged (RedisState.redis (redis w)) i p.
Proof.
  unfold read_payload, read_email_payload. pose proof (eval_get_server (email_outbox_key i) (redis w)) as Hs.
  unfold RedisState.eval, redis_get in *. unfold staged.
  destruct (RedisState.next_fate (redis w)), (Redis.find _ _) as [[[n|fs|b] dl]|] eqn:Hf; cbn in *;
    (split; [done|]; split; [done|]); intros p Hp; try done;
    destruct (utf8_decode _) as [t|] eqn:Ht; simplify_eq.
  - apply show_Z_payload in Ht. congruence.
  - by exists b, dl, t.
Qed.

(** ** What is staged is what is read *)

Lemma insert_key_perm {V} (kv : text * V) l : insert_key kv l ≡ₚ kv :: l.
Proof. induction l as [|x l IH]; cbn; [done|]. destruct (text_le _ _); [done|]. rewrite IH. apply Permutation_swap. Qed.
Lemma sort_by_key_perm {V} (l : list (text * V)) : sort_by_key l ≡ₚ l.
Proof. induction l as [|x l IH]; cbn; [done|]. by rewrite insert_key_perm, IH. Qed.
Lemma insert_key_fmap {V W} (f : V -> W) kv l :
  insert_key (kv.1, f kv.2) (prod_map id f <$> l) = prod_map id f <$> insert_key kv l.
Proof. induction l as [|x l IH]; cbn; [done|]. destruct (text_le _ _); [done|]. cbn. by rewrite IH. Qed.
Lemma sort_by_key_fmap {V W} (f : V -> W) l : sort_by_key (prod_map id f <$> l) = prod_map id f <$> sort_by_key l.
Proof. induction l as [|x l IH]; cbn; [done|]. unfold sort_by_key in IH. rewrite IH. apply (insert_key_fmap f x). Qed.

Definition sorted_object (payload : list (text * text)) : json := JObj (prod_map id JStr <$> sort_by_key payload).
Lemma sort_keys_payload payload : sort_keys (JObj ((fun kv => (kv.1, JStr kv.2)) <$> payload)) = sorted_object payload.
Proof.
  cbn. unfold sorted_object. rewrite map_map. cbn. f_equal. by rewrite <- sort_by_key_fmap.
Qed.
Lemma payload_of_sorted payload : payload_of (sorted_object payload) = Some (sort_by_key payload).
Proof.
  unfold payload_of, sorted_object. apply mapM_Some. induction (sort_by_key payload) as [|[k v] l IH]; constructor; done.
Qed.
Lemma sorted_object_wf payload : NoDup payload.*1 -> json_wf (sorted_object payload).
Proof.
  intros Hnd. cbn. split.
  - rewrite <- list_fmap_compose. change (fst ∘ prod_map id JStr) with (@fst text text). by rewrite sort_by_key_perm.
  - induction (sort_by_key payload) as [|kv l IH]; by cbn.
Qed.
Lemma dict_get_perm {V} k (d d' : list (text * V)) : NoDup d.*1 -> d ≡ₚ d' -> dict_get k d' = dict_get k d.
Proof.
  intros Hnd Hp. destruct (dict_get k d) as [v|] eqn:Hk.
  - apply dict_get_elem; [by rewrite <- Hp|]. rewrite <- Hp. by apply dict_get_Some_elem.
  - apply dict_get_None. apply dict_get_None in Hk. by rewrite <- Hp.
Qed.
Lemma render_same code p q : (forall k, dict_get k p = dict_get k q) -> render code p = render code q.
Proof.
  intros Hk. assert (forall k, payload_get k p = payload_get k q) as Hg by (intros k; unfold payload_get; by rewrite Hk).
  unfold render, review_email, activation_email, reset_email. by rewrite !Hg.
Qed.

(** The worker's copy of the convention agrees with the control plane's: until
    its time to live is over, a payload staged for a delivery is what the worker
    reads for it, key by key, and fills the same templates. *)
Theorem staged_payload_is_read i payload ttl c c' dt :
  NoDup payload.*1 -> EmailOutbox.stage_email_payload i payload ttl c = Some (Ok true, c') -> 0 <= dt <= 1000 * ttl ->
  let worker := {| RedisState.redis := Redis.tick dt (RedisState.redis c'); RedisState.fates := [] |} in
  exists p, (read_email_payload i worker).1 = Ok (Some p) /\ p ≡ₚ payload /\
    (forall k, dict_get k p = dict_get k payload) /\ forall code, render code p = render code payload.
Proof.
  intros Hnd Hs Hdt. unfold EmailOutbox.stage_email_payload in Hs. destruct (_ && _); [|done]. rewrite sort_keys_payload in Hs.
  injection Hs as Hs. pose proof (sorted_object_wf payload Hnd) as Hwf. set (raw := dumps_compact (sorted_object payload)) in *.
  assert (Redis.find (Redis.tick dt (RedisState.redis c')) (email_outbox_key i) =
    Some {| Redis.content := Redis.Plain raw; Redis.deadline := Some (Redis.time (RedisState.redis c) + 1000 * ttl) |}) as Hf.
  { unfold RedisState.eval, Redis.set_nx_ex in Hs. change (EmailOutbox.email_outbox_key i) with (email_outbox_key i) in Hs.
    destruct (RedisState.next_fate c); [|done|by destruct (Redis.find _ _)].
    destruct (Redis.find (RedisState.redis c) _); [done|]. simplify_eq. unfold Redis.find. cbn. rewrite dict_get_set_eq.
    unfold Redis.expired. cbn. by rewrite (proj2 (Z.ltb_ge _ _)) by lia. }
  exists (sort_by_key payload). split; [|split; [apply sort_by_key_perm|]].
  - unfold read_email_payload, RedisState.eval, RedisState.next_fate, redis_get. cbn [RedisState.fates RedisState.redis hd].
    rewrite Hf. cbn [Redis.content fst snd].
    rewrite AdminSessions.utf8_decode_ascii; [subst raw; rewrite loads_dumps_compact by done; cbn [mbind option_bind]; by rewrite payload_of_sorted|].
    eapply Forall_impl; [apply dumps_with_printable; [constructor|done]|]. intros x Hx. unfold is_printable in Hx. boolP. lia.
  - assert (forall k, dict_get k (sort_by_key payload) = dict_get k payload) as Hk
      by (intros k; apply dict_get_perm; [done|]; by rewrite sort_by_key_perm).
    split; [done|]. intros code. by apply render_same.
Qed.

Section Worker.
Context {P : Type} `{EmailAdapter P} (settings : Settings).
Implicit Types h : host P.

Definition letters (i : Z) (h : host P) : Z := Z.of_nat (length (filter (fun l => letter_of l = i) (handed h))).
Lemma letters_snoc i h h' l :
  handed h' = handed h ++ [l] -> letters i h' = letters i h + if decide (letter_of l = i) then 1 else 0.
Proof. intros Hh. unfold letters. rewrite Hh, filter_app, length_app, filter_cons, filter_nil. case_decide; cbn; lia. Qed.

(** A letter written for a claimed row from what was staged for it. *)
Definition written_for (sv : Redis.server) (d : ClaimedDelivery) (l : letter) : Prop :=
  letter_of l = claimed_id d /\ letter_to l = claimed_recipient d /\
  exists p, staged sv (claimed_id d) p /\ render (claimed_template d) p = Some (letter_text l).

Lemma in_store_ok {A} (m : prog world exn A) h :
  store (in_store m h).2 = (m (store h)).2 /\ handed (in_store m h).2 = handed h.
Proof. unfold in_store. by destruct (m (store h)). Qed.
Lemma in_store_run {A} (m : prog world exn A) h r w : m (store h) = (r, w) -> in_store m h = (r, with_store w h).
Proof. unfold in_store. by intros ->. Qed.

Lemma touches_after max now d w w1 w2 :
  db w1 = db w -> RedisState.redis (redis w1) = RedisState.redis (redis w) -> touches max now d w1 w2 -> touches max now d w w2.
Proof. intros Hd Hr. unfold touches. by rewrite Hd, Hr. Qed.

Lemma deliver_one_spec d now h :
  let h' := (deliver_one settings d now h).2 in
  touches (max_attempts settings) now d (store h) (store h') /\
  (handed h' = handed h \/ exists l, handed h' = handed h ++ [l] /\ written_for (outbox_of h) d l).
Proof.
  cbn zeta. unfold deliver_one, mbind, prog_bind. pose proof (read_payload_ok (claimed_id d) (store h)) as Hp.
  destruct (read_payload (claimed_id d) (store h)) as [r w1] eqn:Hr. rewrite (in_store_run _ _ _ _ Hr).
  destruct Hp as (Hd & Hs & Hp). destruct r as [[p|]|e].
  - specialize (Hp p eq_refl). destruct (render (claimed_template d) p) as [m|] eqn:Hm.
    + set (l := {| letter_of := claimed_id d; letter_to := claimed_recipient d; letter_text := m |}).
      assert (written_for (outbox_of h) d l) as Hl by (split; [done|]; split; [done|]; by exists p).
      destruct (hand_over (claimed_id d) (claimed_recipient d) m (with_store w1 h)) as [r h1] eqn:Hh.
      assert (store h1 = w1 /\ handed h1 = handed h ++ [l]) as [<- H1].
      { unfold hand_over in Hh. destruct (send _ _ _ _) as [x q]. by simplify_eq. }
      destruct r as [[pid|]|e].
      * destruct (in_store_ok (transact IntegrityError (sent_body (claimed_id d) now pid)) h1) as [-> ->].
        split; [by eapply touches_after, sent_touches|]. rewrite H1. eauto.
      * destruct (in_store_ok (_finalize settings d (str "denied") (str "send_failed") now) h1) as [-> ->].
        split; [by eapply touches_after, finalize_touches|]. rewrite H1. eauto.
      * cbn [snd]. split; [apply touches_nothing; [done|by rewrite Hd]|]. eauto.
    + destruct (in_store_ok (_finalize settings d failed (str "unknown_template") now) (with_store w1 h)) as [-> ->].
      split; [by eapply touches_after, finalize_touches|by left].
  - destruct (in_store_ok (_finalize settings d failed (str "payload_unavailable") now) (with_store w1 h)) as [-> ->].
    split; [by eapply touches_after, finalize_touches|by left].
  - cbn [snd]. split; [apply touches_nothing; [done|cbn; by rewrite Hd]|by left].
Qed.

(** ** A batch *)

Lemma touches_row max now d w w' i :
  touches max now d w w' ->
  (i <> claimed_id d -> row i (db w') = row i (db w)) /\
  (forall e, row (claimed_id d) (db w) = Some e -> delivery_attempts e = claimed_attempts d ->
     exists e', row (claimed_id d) (db w') = Some e' /\ outcome_of max now e e').
Proof.
  intros (_ & f & Hm & Hi & Ho). unfold row. rewrite Hm. split.
  - intros Hne. rewrite scalar_update by done. by rewrite (proj2 (Z.eqb_neq _ _) Hne).
  - intros e He Ha. rewrite scalar_update, Z.eqb_refl, He by done. exists (f e). auto.
Qed.
Lemma touches_ids max now d w w' : touches max now d w w' -> delivery_id <$> mails (db w') = delivery_id <$> mails (db w).
Proof. intros (_ & f & -> & Hi & _). by apply update_ids. Qed.

(** What is in the worker's hands is what the rows said when it took them. *)
Definition in_hand (ds : list ClaimedDelivery) (d : DB) : Prop :=
  NoDup (claimed_id <$> ds) /\ forall c e, c ∈ ds -> row (claimed_id c) d = Some e -> claimed_of e = c.

Lemma deliver_all_cons d ds now h :
  deliver_all settings (d :: ds) now h = deliver_all settings ds now (deliver_one settings d now h).2.
Proof. cbn. unfold mbind, prog_bind, try_except. by destruct (deliver_one settings d now h) as [[?|?] h1]. Qed.
Lemma deliver_all_returns ds now h : (deliver_all settings ds now h).1 = Ok tt.
Proof. revert h. induction ds as [|d ds IH]; intros h; [done|]. by rewrite deliver_all_cons. Qed.

Record batch_done (now : Z) (ds : list ClaimedDelivery) (h h' : host P) : Prop := {
  bd_outbox : outbox_of h' = outbox_of h;
  bd_ids : delivery_id <$> mails (db (store h')) = delivery_id <$> mails (db (store h));
  bd_others i : i ∉ claimed_id <$> ds -> row i (db (store h')) = row i (db (store h)) /\ letters i h' = letters i h;
  bd_own i e : i ∈ claimed_id <$> ds -> row i (db (store h)) = Some e ->
    exists e', row i (db (store h')) = Some e' /\ outcome_of (max_attempts settings) now e e' /\
      letters i h <= letters i h' <= letters i h + 1;
  bd_letters : exists ls, handed h' = handed h ++ ls /\ forall l, l ∈ ls -> exists d, d ∈ ds /\ written_for (outbox_of h) d l;
}.

Lemma deliver_one_letters d now h i :
  let h' := (deliver_one settings d now h).2 in
  letters i h <= letters i h' <= letters i h + 1 /\ (i <> claimed_id d -> letters i h' = letters i h).
Proof.
  cbn zeta. destruct (deliver_one_spec d now h) as [_ [Hh|(l & Hh & Hl & _)]].
  - unfold letters. rewrite Hh. split; [lia|done].
  - rewrite (letters_snoc _ _ _ _ Hh), Hl. case_decide; (split; [lia|]); [congruence|lia].
Qed.

Lemma deliver_all_spec ds now h :
  in_hand ds (db (store h)) -> batch_done now ds h (deliver_all settings ds now h).2.
Proof.
  revert h. induction ds as [|d ds IH]; intros h [Hnd Hc].
  - split; [done|done|done|by intros i e ?%elem_of_nil|]. exists []. rewrite app_nil_r. split; [done|]. by intros l ?%elem_of_nil.
  - rewrite deliver_all_cons. rewrite fmap_cons in Hnd. apply NoDup_cons in Hnd as [Hd Hnd].
    pose proof (deliver_one_letters d now h) as Hl. destruct (deliver_one_spec d now h) as [Ht Hh].
    set (h1 := (deliver_one settings d now h).2) in *. cbn zeta in Hl.
    destruct (IH h1) as [I1 I2 I3 I4 I5].
    { split; [done|]. intros c e Hin He. apply Hc; [by right|]. rewrite <- He. symmetry. apply (touches_row _ _ _ _ _ _ Ht).
      intros Heq. apply Hd. rewrite <- Heq. by apply list_elem_of_fmap_2. }
    assert (outbox_of h1 = outbox_of h) as Ho by apply Ht.
    split.
    + congruence.
    + rewrite I2. by eapply touches_ids.
    + intros i Hi. rewrite fmap_cons in Hi. apply not_elem_of_cons in Hi as [Hn Hi]. destruct (I3 i Hi) as [-> ->].
      split; [by apply (touches_row _ _ _ _ _ _ Ht)|by apply Hl].
    + intros i e Hi He. rewrite fmap_cons in Hi. apply elem_of_cons in Hi as [->|Hi].
      * destruct (I3 _ Hd) as [-> ->]. pose proof (Hc d e (list_elem_of_here _ _) He) as Hcd.
        destruct (proj2 (touches_row _ _ _ _ _ (claimed_id d) Ht) e He) as (e' & He' & Hout); [by rewrite <- Hcd|].
        exists e'. split; [done|]. split; [done|]. apply Hl.
      * assert (i <> claimed_id d) as Hne by congruence. destruct (I4 i e Hi) as (e' & He' & Hout & Hb).
        { rewrite <- He. by apply (touches_row _ _ _ _ _ _ Ht). }
        exists e'. split; [done|]. split; [done|]. destruct (Hl i) as [_ Hl']. rewrite <- Hl' by done. done.
    + destruct I5 as (ls & Hls & Hw). rewrite Ho in Hw. destruct Hh as [Hh|(l & Hh & Hwl)]; rewrite Hls, Hh.
      * exists ls. split; [done|]. intros l (d' & ? & ?)%Hw. exists d'. split; [by right|done].
      * exists (l :: ls). split; [by rewrite <- app_assoc|]. intros l' [->|Hin]%elem_of_cons.
        -- exists d. split; [by left|done].
        -- destruct (Hw l' Hin) as (d' & ? & ?). exists d'. split; [by right|done].
Qed.

(** ** Taking a batch *)

Lemma row_None i d : row i d = None <-> i ∉ delivery_id <$> mails d.
Proof.
  unfold row. rewrite scalar_None, Forall_forall, list_elem_of_fmap. split.
  - intros Hn (e & -> & He). specialize (Hn e He). cbn in Hn. boolP. done.
  - intros Hn e He. apply Z.eqb_neq. intros <-. apply Hn. eauto.
Qed.

Definition audited (max now : Z) (rows : list EmailDelivery) (d : DB) : DB :=
  foldl (fun d e => _AUDIT_SQL (delivery_id e) (if bool_decide (delivery_state e = failed) then failed else str "denied")
                      (str "lease_expired") d) d rows.
Lemma audited_keeps max now rows d :
  mails (audited max now rows d) = mails d /\ next_id (audited max now rows d) = next_id d /\
  (consistent d -> consistent (audited max now rows d)).
Proof.
  revert d. induction rows as [|e rows IH]; intros d; [done|]. destruct (IH (_AUDIT_SQL (delivery_id e)
    (if bool_decide (delivery_state e = failed) then failed else str "denied") (str "lease_expired") d)) as (I1 & I2 & I3). done.
Qed.

Definition reclaimed_db (max now : Z) (d : DB) : DB :=
  audited max now (_RECLAIM_EXPIRED_LEASES_SQL max now d).1 (_RECLAIM_EXPIRED_LEASES_SQL max now d).2.
Lemma reclaim_body_run max now w :
  exists n, reclaim_body max now w = (Ok n, with_db (reclaimed_db max now (db w)) w).
Proof. eexists. reflexivity. Qed.
Lemma claim_body_run n l now w :
  claim_body n l now w =
    (Ok (claimed_of <$> (_CLAIM_SQL (now + l * SECOND) now n (db w)).1), with_db (_CLAIM_SQL (now + l * SECOND) now n (db w)).2 w).
Proof. reflexivity. Qed.

(** A row that waits or is being sent can be counted once more. *)
Definition active (e : EmailDelivery) : bool := bool_decide (delivery_state e = pending) || bool_decide (delivery_state e = sending).
Definition healthy (e : EmailDelivery) : Prop :=
  active e = true -> sent_at e = None /\ delivery_attempts e < max_attempts settings /\
    (delivery_state e = sending -> is_Some (leased_until e)).

Lemma reclaim_checks now e :
  max_attempts settings <= 100 -> healthy e -> lease_over now e = true -> mail_checks e = true ->
  mail_checks (reclaim (max_attempts settings) now e) = true.
Proof.
  intros Hm Hh Hl. unfold lease_over in Hl. boolP. destruct Hh as (Hs & Ha & _); [unfold active; rewrite H0; by apply orb_true_r|].
  unfold mail_checks. intros Hc. boolP. cbn. rewrite Hs. rewrite !andb_true_iff. 
  destruct (max_attempts settings <=? delivery_attempts e + 1);
    (repeat split; try done; try (by apply bool_decide_eq_true_2); apply Z.leb_le; lia).
Qed.
Lemma lease_checks until e : mail_checks e = true -> mail_checks (lease until e) = true.
Proof.
  unfold mail_checks. intros Hc. boolP. cbn. rewrite !andb_true_iff. repeat split; try done; first [by apply bool_decide_eq_true_2|by apply Z.leb_le].
Qed.

Lemma insert_by_available_perm e l : insert_by_available e l ≡ₚ e :: l.
Proof. induction l as [|x l IH]; cbn; [done|]. destruct (_ <=? _); [done|]. rewrite IH. apply Permutation_swap. Qed.
Lemma by_available_perm l : by_available l ≡ₚ l.
Proof. induction l as [|e l IH]; cbn; [done|]. by rewrite insert_by_available_perm, IH. Qed.

Definition until (now : Z) : Z := now + lease_seconds settings * SECOND.
Definition picked_ids (now : Z) (d : DB) : list Z :=
  delivery_id <$> take (batch_size settings) (by_available (scalars (due now) (mails d))).
Notation claim_sql now d := (_CLAIM_SQL (until now) now (batch_size settings) d).

Lemma picked_due now d e :
  NoDup (delivery_id <$> mails d) -> e ∈ mails d -> delivery_id e ∈ picked_ids now d -> due now e = true.
Proof.
  intros Hnd He (x & Hx & Hin)%list_elem_of_fmap. apply elem_of_take in Hin as (k & Hk & _).
  apply list_elem_of_lookup_2 in Hk. rewrite by_available_perm in Hk. apply elem_of_scalars in Hk as [Hk Hd].
  by rewrite (same_id delivery_id _ _ _ Hnd He Hk Hx).
Qed.
(** When a row is due, some row is picked. *)
Lemma due_picked now d e :
  NoDup (delivery_id <$> mails d) -> (1 <= batch_size settings)%nat -> e ∈ mails d -> due now e = true ->
  exists x, x ∈ mails d /\ delivery_id x ∈ picked_ids now d.
Proof.
  intros Hnd Hn He Hd. assert (e ∈ by_available (scalars (due now) (mails d))) as Hin
    by (rewrite by_available_perm; by apply elem_of_scalars).
  unfold picked_ids. destruct (by_available (scalars (due now) (mails d))) as [|x l] eqn:Hl; [by apply not_elem_of_nil in Hin|].
  exists x. split.
  - assert (x ∈ by_available (scalars (due now) (mails d))) as Hx by (rewrite Hl; by left).
    rewrite by_available_perm in Hx. by apply elem_of_scalars in Hx as [? _].
  - destruct (batch_size settings); [lia|]. cbn. by left.
Qed.

Lemma claim_row now d i :
  row i (claim_sql now d).2 = (fun e => if bool_decide (delivery_id e ∈ picked_ids now d) then lease (until now) e else e) <$> row i d.
Proof. by apply row_update_where. Qed.
Lemma claimed_rows now d e :
  NoDup (delivery_id <$> mails d) ->
  e ∈ (claim_sql now d).1 <-> exists e0, e0 ∈ mails d /\ delivery_id e0 ∈ picked_ids now d /\ e = lease (until now) e0.
Proof.
  intros Hnd. unfold _CLAIM_SQL. cbn [fst]. rewrite elem_of_scalars, elem_of_update_where. fold (picked_ids now d).
  split.
  - intros [(e0 & He0 & ->) Hp]. exists e0. destruct (decide (delivery_id e0 ∈ picked_ids now d)) as [Hd|Hd].
    + by rewrite bool_decide_eq_true_2.
    + rewrite (bool_decide_eq_false_2 _ Hd) in Hp. fold (picked_ids now d) in Hp. by rewrite bool_decide_eq_false_2 in Hp.
  - intros (e0 & He0 & Hp & ->). split; [exists e0; by rewrite bool_decide_eq_true_2|]. by apply bool_decide_eq_true_2.
Qed.
Lemma claim_in_hand now d :
  NoDup (delivery_id <$> mails d) -> in_hand (claimed_of <$> (claim_sql now d).1) (claim_sql now d).2.
Proof.
  intros Hnd. split.
  - rewrite <- list_fmap_compose. change (claimed_id ∘ claimed_of) with delivery_id. unfold _CLAIM_SQL. cbn [fst].
    eapply sublist_NoDup; [|apply fmap_sublist, sublist_filter]. by rewrite update_where_ids.
  - intros c e Hc He. apply list_elem_of_fmap in Hc as (x & -> & Hx). apply claimed_rows in Hx as (e0 & He0 & Hp & ->); [|done].
    change (claimed_id _) with (delivery_id e0) in He. rewrite claim_row, (elem_row _ _ Hnd He0) in He. cbn in He. rewrite bool_decide_eq_true_2 in He by done.
    by simplify_eq.
Qed.

(** The first two transactions of a poll. *)
Definition take_batch (now : Z) : prog (host P) exn (list ClaimedDelivery) :=
  _ ← in_store (reclaim_expired_leases (max_attempts settings) now);
  in_store (claim_batch (batch_size settings) (lease_seconds settings) now).

(** Both commit when the constraints hold and the rows can be counted. *)
Definition in_order (d : DB) : Prop :=
  consistent d /\ max_attempts settings <= 100 /\ Forall healthy (mails d) /\ (1 <= batch_size settings)%nat.

Lemma reclaim_spec now w :
  let '(r, w') := reclaim_expired_leases (max_attempts settings) now w in
  redis w' = redis w /\
  (mails (db w') = update_where (lease_over now) (reclaim (max_attempts settings) now) (mails (db w)) \/
   w' = w /\ ~ in_order (db w)) /\
  (in_order (db w) -> is_ok r = true /\ consistent (db w')).
Proof.
  unfold reclaim_expired_leases. destruct (reclaim_body_run (max_attempts settings) now w) as [n Hn].
  destruct (audited_keeps (max_attempts settings) now (_RECLAIM_EXPIRED_LEASES_SQL (max_attempts settings) now (db w)).1
              (_RECLAIM_EXPIRED_LEASES_SQL (max_attempts settings) now (db w)).2) as (Hm & Hi & Hc).
  assert (in_order (db w) -> consistent (reclaimed_db (max_attempts settings) now (db w))) as Hok.
  { intros (Hcon & Hmax & Hh & _). apply Hc. apply consistent_update_where; [done|done|].
    intros e He Hl. apply reclaim_checks; [done| |done]. rewrite Forall_forall in Hh. auto. }
  destruct (transact_write_either _ n (reclaimed_db (max_attempts settings) now (db w)) w Hn Hi) as [Ht|Ht]; rewrite Ht.
  - split; [done|]. split; [left; exact Hm|]. auto.
  - split; [done|]. split; [right; split; [done|]|]; intros Ho%Hok; rewrite (transact_write_commits _ _ _ _ Hn Ho) in Ht; done.
Qed.

Lemma claim_spec now w :
  let '(r, w') := claim_batch (batch_size settings) (lease_seconds settings) now w in
  redis w' = redis w /\
  (r = Ok (claimed_of <$> (claim_sql now (db w)).1) /\ db w' = (claim_sql now (db w)).2 \/
   is_ok r = false /\ w' = w /\ ~ consistent (db w)).
Proof.
  unfold claim_batch. pose proof (claim_body_run (batch_size settings) (lease_seconds settings) now w) as Hn.
  fold (until now) in Hn. assert (consistent (db w) -> consistent (claim_sql now (db w)).2) as Hok.
  { intros Hc. apply consistent_update_where; [done|done|]. intros e _ _. apply lease_checks. }
  destruct (transact_write_either _ _ _ w Hn eq_refl) as [Ht|Ht]; rewrite Ht.
  - split; [done|]. by left.
  - split; [done|]. right. split; [done|]. split; [done|]. intros Ho%Hok. rewrite (transact_write_commits _ _ _ _ Hn Ho) in Ht. done.
Qed.

Definition reclaimed (certain : Prop) (now : Z) (e e1 : EmailDelivery) : Prop :=
  (e1 = e /\ (certain -> lease_over now e = false)) \/ (lease_over now e = true /\ e1 = reclaim (max_attempts settings) now e).

(** What taking a batch leaves: the rows in hand are leased, the others as they
    were or reclaimed. *)
Record batch_taken (now : Z) (h : host P) (ds : list ClaimedDelivery) (h' : host P) : Prop := {
  bt_outbox : outbox_of h' = outbox_of h;
  bt_handed : handed h' = handed h;
  bt_ids : delivery_id <$> mails (db (store h')) = delivery_id <$> mails (db (store h));
  bt_hand : in_hand ds (db (store h'));
  bt_known i : i ∈ claimed_id <$> ds -> is_Some (row i (db (store h)));
  bt_row i e : row i (db (store h)) = Some e -> exists e1, reclaimed (in_order (db (store h))) now e e1 /\
    ((i ∉ claimed_id <$> ds /\ row i (db (store h')) = Some e1 /\ (in_order (db (store h)) -> due now e1 = true -> ds <> [])) \/
     (i ∈ claimed_id <$> ds /\ row i (db (store h')) = Some (lease (until now) e1) /\ due now e1 = true));
}.

Lemma in_hand_nil d : in_hand [] d.
Proof. split; [apply NoDup_nil_2|]. by intros c e ?%elem_of_nil. Qed.

(** After the first transaction. *)
Definition leases_over (now : Z) (h : host P) (w1 : world) : Prop :=
  redis w1 = redis (store h) /\ delivery_id <$> mails (db w1) = delivery_id <$> mails (db (store h)) /\
  forall i e, row i (db (store h)) = Some e ->
    exists e1, row i (db w1) = Some e1 /\ reclaimed (in_order (db (store h))) now e e1.
Lemma reclaim_leases_over now h : leases_over now h (reclaim_expired_leases (max_attempts settings) now (store h)).2.
Proof.
  pose proof (reclaim_spec now (store h)) as Hr. destruct (reclaim_expired_leases _ now (store h)) as [r1 w1].
  destruct Hr as (Hs & Hm & _). cbn [snd]. split; [done|]. split.
  { destruct Hm as [->|[-> _]]; [by apply update_where_ids|done]. }
  intros i e He. unfold reclaimed. destruct Hm as [Hm|[-> Hno]]; [|by exists e; naive_solver].
  exists (if lease_over now e then reclaim (max_attempts settings) now e else e). split.
  - rewrite (row_same_mails i (with_email_deliveries (update_where (lease_over now) (reclaim (max_attempts settings) now)
      (mails (db (store h)))) (db (store h))) (db w1) Hm). by rewrite row_update_where, He.
  - destruct (lease_over now e) eqn:Hl; [by right|by left].
Qed.

Lemma taken_nothing now h w1 :
  leases_over now h w1 -> ~ in_order (db (store h)) -> batch_taken now h [] (with_store w1 h).
Proof.
  intros (Hs & Hi & Hr) Hno. split; [unfold outbox_of; cbn; by rewrite Hs|done|done|apply in_hand_nil|by intros i ?%elem_of_nil|].
  intros i e (e1 & He1 & Hre)%Hr. exists e1. split; [done|]. left. split; [apply not_elem_of_nil|]. by split.
Qed.
Lemma taken_batch now h w1 w2 :
  NoDup (delivery_id <$> mails (db (store h))) -> leases_over now h w1 -> redis w2 = redis w1 ->
  db w2 = (claim_sql now (db w1)).2 -> batch_taken now h (claimed_of <$> (claim_sql now (db w1)).1) (with_store w2 h).
Proof.
  intros Hnd (Hs1 & Hi & Hr) Hs2 Hd. rewrite <- Hi in Hnd. split.
  - unfold outbox_of. cbn. by rewrite Hs2, Hs1.
  - done.
  - cbn. rewrite Hd, <- Hi. by apply update_where_ids.
  - cbn. rewrite Hd. by apply claim_in_hand.
  - intros i Hin. apply not_eq_None_Some. intros Hno. apply row_None in Hno. apply Hno. rewrite <- Hi.
    rewrite <- list_fmap_compose in Hin. apply list_elem_of_fmap in Hin as (x & -> & Hx).
    apply claimed_rows in Hx as (e0 & He0 & _ & ->); [|done]. by apply (list_elem_of_fmap_2 delivery_id _ e0).
  - intros i e (e1 & He1 & Hre)%Hr. exists e1. split; [done|]. cbn [store with_store].
    rewrite Hd, claim_row, He1. cbn [fmap option_fmap option_map].
    destruct (row_elem _ _ _ He1) as [Hin Hid]. rewrite <- list_fmap_compose.
    destruct (decide (delivery_id e1 ∈ picked_ids now (db w1))) as [Hp|Hp].
    + right. rewrite bool_decide_eq_true_2 by done. split; [|split; [done|by eapply picked_due]].
      rewrite <- Hid. apply (list_elem_of_fmap_2 (claimed_id ∘ claimed_of) _ (lease (until now) e1)).
      apply claimed_rows; [done|]. eauto.
    + left. rewrite bool_decide_eq_false_2 by done. split; [|split; [done|]].
      * intros (x & Hx & Hxin)%list_elem_of_fmap. apply claimed_rows in Hxin as (e0 & He0 & Hp0 & ->); [|done].
        cbn in Hx. apply Hp. congruence.
      * intros (_ & _ & _ & Hone) Hdue Hnil. destruct (due_picked now (db w1) e1 Hnd Hone Hin Hdue) as (x & Hx & Hpx).
        assert (lease (until now) x ∈ (claim_sql now (db w1)).1) as Hc by (apply claimed_rows; [done|eauto]).
        apply fmap_nil_inv in Hnil. rewrite Hnil in Hc. by apply not_elem_of_nil in Hc.
Qed.

Lemma take_batch_spec now h :
  NoDup (delivery_id <$> mails (db (store h))) ->
  let '(r, h') := take_batch now h in
  batch_taken now h (match r with Ok ds => ds | Err _ => [] end) h' /\ (in_order (db (store h)) -> is_ok r = true).
Proof.
  intros Hnd. unfold take_batch, mbind, prog_bind. pose proof (reclaim_spec now (store h)) as Hr.
  pose proof (reclaim_leases_over now h) as Hl.
  destruct (reclaim_expired_leases _ now (store h)) as [r1 w1] eqn:E1. rewrite (in_store_run _ _ _ _ E1).
  destruct Hr as (_ & _ & Hok). cbn [snd] in Hl. destruct r1 as [n|x].
  - pose proof (claim_spec now w1) as Hc. destruct (claim_batch _ _ now w1) as [r2 w2] eqn:E2.
    rewrite (in_store_run _ (with_store w1 h) _ _ E2). destruct Hc as (Hs & [[-> Hd]|(Hr & -> & Hno)]).
    + change (with_store w2 (with_store w1 h)) with (with_store w2 h). split; [|done]. by apply taken_batch.
    + destruct r2 as [?|x]; [done|]. assert (~ in_order (db (store h))) by (intros Ho; by destruct (Hok Ho)).
      change (with_store w1 (with_store w1 h)) with (with_store w1 h). split; [|done]. by apply taken_nothing.
  - assert (~ in_order (db (store h))) by (intros Ho; by destruct (Hok Ho)). split; [|done]. by apply taken_nothing.
Qed.

(** ** A poll, row by row *)

Definition polled (certain some : Prop) (now : Z) (e : EmailDelivery) (n : Z) (e' : EmailDelivery) (n' : Z) : Prop :=
  exists e1, reclaimed certain now e e1 /\
    ((e' = e1 /\ n' = n /\ (certain -> due now e1 = true -> some)) \/
     (due now e1 = true /\ outcome_of (max_attempts settings) now (lease (until now) e1) e' /\ n <= n' <= n + 1)).

(** Some row was due and taken. *)
Definition worked_on (now : Z) (h h' : host P) : Prop :=
  exists i e e1 e', row i (db (store h)) = Some e /\ reclaimed (in_order (db (store h))) now e e1 /\ due now e1 = true /\
    row i (db (store h')) = Some e' /\ outcome_of (max_attempts settings) now (lease (until now) e1) e'.

Record poll_done (now : Z) (h h' : host P) : Prop := {
  pd_ids : delivery_id <$> mails (db (store h')) = delivery_id <$> mails (db (store h));
  pd_row i e : row i (db (store h)) = Some e -> exists e', row i (db (store h')) = Some e' /\
    polled (in_order (db (store h))) (worked_on now h h') now e (letters i h) e' (letters i h');
  pd_none i : row i (db (store h)) = None -> letters i h' = letters i h;
  pd_letters : exists ls, handed h' = handed h ++ ls /\ forall l, l ∈ ls ->
    exists e p, row (letter_of l) (db (store h)) = Some e /\ letter_to l = recipient_address e /\
      staged (outbox_of h) (letter_of l) p /\ render (template_code e) p = Some (letter_text l);
}.

Lemma letters_handed i h h' : handed h' = handed h -> letters i h' = letters i h.
Proof. unfold letters. by intros ->. Qed.

(** Being reclaimed and leased changes neither template nor recipient. *)
Lemma reclaimed_same certain now e e1 :
  reclaimed certain now e e1 -> template_code e1 = template_code e /\ recipient_address e1 = recipient_address e.
Proof. by intros [[-> _]|[_ ->]]. Qed.

Lemma batch_makes_poll now h ds h2 h3 :
  batch_taken now h ds h2 -> batch_done now ds h2 h3 -> poll_done now h h3.
Proof.
  intros [T1 T2 T3 T4 Hrow T5] [B1 B2 B3 B4 B5]. split.
  - congruence.
  - intros i e He. destruct (T5 i e He) as (e1 & Hre & [(Hn & Hr & Hc)|(Hin & Hr & Hd)]).
    + destruct (B3 i Hn) as [-> Hl]. exists e1. split; [done|]. exists e1. split; [done|]. left. rewrite Hl.
      split; [done|]. split; [by apply letters_handed|]. intros Hcer Hdue. specialize (Hc Hcer Hdue).
      destruct ds as [|d ds]; [done|]. assert (claimed_id d ∈ claimed_id <$> d :: ds) as Hd by (rewrite fmap_cons; by left).
      destruct (Hrow _ Hd) as [x Hx]. destruct (T5 _ _ Hx) as (x1 & Hxr & [(Hno & _)|(_ & Hxl & Hxd)]); [done|].
      destruct (B4 _ _ Hd Hxl) as (x' & Hx' & Hxo & _). by exists (claimed_id d), x, x1, x'.
    + destruct (B4 i _ Hin Hr) as (e' & He' & Ho & Hl). exists e'. split; [done|]. exists e1. split; [done|]. right.
      split; [done|]. split; [done|]. by rewrite <- (letters_handed i _ _ T2).
  - intros i Hi. rewrite <- (letters_handed i _ _ T2). apply B3. intros Hin. destruct (Hrow i Hin). congruence.
  - destruct B5 as (ls & Hls & Hw). exists ls. split; [congruence|]. intros l Hl.
    destruct (Hw l Hl) as (d & Hd & Hi & Hto & p & Hp & Hr). assert (claimed_id d ∈ claimed_id <$> ds) as Hin by by apply list_elem_of_fmap_2.
    destruct (Hrow _ Hin) as [e He]. destruct (T5 _ e He) as (e1 & Hre & [(Hn & _)|(_ & Hr2 & _)]); [done|].
    destruct T4 as [_ Hc]. pose proof (Hc d _ Hd Hr2) as Hcd. destruct (reclaimed_same _ _ _ _ Hre) as [R1 R2].
    exists e, p. rewrite Hi, Hto, <- T1. subst d. cbn in *. rewrite R1 in Hr. by rewrite R2.
Qed.

Lemma poll_once_split now h :
  poll_once settings now h =
    match take_batch now h with
    | (Ok ds, h2) => (Ok (length ds), (deliver_all settings ds now h2).2)
    | (Err e, h2) => (Err e, h2)
    end.
Proof.
  unfold poll_once, take_batch, mbind, prog_bind. destruct (in_store _ h) as [[?|?] h1]; [|done].
  destruct (in_store _ h1) as [[ds|?] h2]; [|done]. pose proof (deliver_all_returns ds now h2) as Hr.
  destruct (deliver_all settings ds now h2) as [r h3]. cbn in Hr. by subst r.
Qed.
Lemma batch_done_nothing now h : batch_done now [] h h.
Proof. by apply (deliver_all_spec [] now h), in_hand_nil. Qed.

Lemma poll_spec now h :
  NoDup (delivery_id <$> mails (db (store h))) ->
  poll_done now h (poll_once settings now h).2 /\ (in_order (db (store h)) -> is_ok (poll_once settings now h).1 = true).
Proof.
  intros Hnd. rewrite poll_once_split. pose proof (take_batch_spec now h Hnd) as Ht.
  destruct (take_batch now h) as [[ds|x] h2]; destruct Ht as [Ht Hok]; (split; [|done]).
  - eapply batch_makes_poll; [done|]. apply deliver_all_spec, Ht.
  - eapply batch_makes_poll; [done|]. apply batch_done_nothing.
Qed.

(** A batch cut short is a batch some of whose rows were left alone. *)
Lemma batch_cut now ds n h h' :
  batch_done now (take n ds) h h' -> batch_done now ds h h'.
Proof.
  intros [B1 B2 B3 B4 B5].
  assert (forall i, i ∈ claimed_id <$> take n ds -> i ∈ claimed_id <$> ds) as Hsub.
  { intros i. rewrite fmap_take. intros (k & Hk & _)%elem_of_take. by eapply list_elem_of_lookup_2. }
  split; [done|done| | |].
  - intros i Hi. apply B3. auto.
  - intros i e Hi He. destruct (decide (i ∈ claimed_id <$> take n ds)) as [Hin|Hin]; [auto|].
    destruct (B3 i Hin) as [-> ->]. exists e. split; [done|]. split; [constructor|lia].
  - destruct B5 as (ls & Hls & Hw). exists ls. split; [done|]. intros l (d & Hd & ?)%Hw. exists d. split; [|done].
    apply elem_of_take in Hd as (k & Hk & _). by eapply list_elem_of_lookup_2.
Qed.

(** One more letter, and nothing written down about it. *)
Lemma batch_in_flight now ds n d l h h3 h4 :
  batch_done now (take n ds) h h3 -> NoDup (claimed_id <$> ds) -> ds !! n = Some d ->
  db (store h4) = db (store h3) -> outbox_of h4 = outbox_of h3 -> handed h4 = handed h3 ++ [l] ->
  written_for (outbox_of h3) d l -> batch_done now ds h h4.
Proof.
  intros B Hnd Hd Hdb Hob Hh Hw. assert (letter_of l = claimed_id d) as Hl by apply Hw.
  assert (claimed_id d ∉ claimed_id <$> take n ds) as Hno.
  { rewrite <- (take_drop_middle _ _ _ Hd), fmap_app in Hnd. apply NoDup_app in Hnd as (_ & Hx & _). intros Hin. apply (Hx _ Hin).
    rewrite fmap_cons. by left. }
  assert (claimed_id d ∈ claimed_id <$> ds) as Hin by (apply list_elem_of_fmap_2; by eapply list_elem_of_lookup_2).
  pose proof (bd_others _ _ _ _ B _ Hno) as [Hrd Hld]. apply batch_cut in B as [B1 B2 B3 B4 B5]. split.
  - congruence.
  - by rewrite Hdb.
  - intros i Hi. rewrite Hdb, (letters_snoc _ _ _ _ Hh), decide_False; [|rewrite Hl; by intros <-].
    rewrite Z.add_0_r. auto.
  - intros i e Hi He. destruct (decide (i = claimed_id d)) as [->|Hne].
    + exists e. rewrite Hdb, Hrd, (letters_snoc _ _ _ _ Hh), Hld. split; [done|]. split; [constructor|]. case_decide; lia.
    + rewrite Hdb, (letters_snoc _ _ _ _ Hh), decide_False by congruence. rewrite Z.add_0_r. auto.
  - destruct B5 as (ls & Hls & Hw'). exists (ls ++ [l]). split; [by rewrite Hh, Hls, app_assoc|].
    intros l' [Hl'|Hl']%elem_of_app; [auto|]. apply list_elem_of_singleton in Hl' as ->. exists d. split; [by eapply list_elem_of_lookup_2|]. by rewrite <- B1.
Qed.

Lemma hand_over_ok i to m h :
  let h' := (hand_over i to m h).2 in
  store h' = store h /\ handed h' = handed h ++ [{| letter_of := i; letter_to := to; letter_text := m |}].
Proof. unfold hand_over. by destruct (send _ _ _ _). Qed.

Lemma killed_spec now n in_flight h :
  NoDup (delivery_id <$> mails (db (store h))) -> poll_done now h (poll_killed settings now n in_flight h).2.
Proof.
  intros Hnd. pose proof (take_batch_spec now h Hnd) as Ht. unfold poll_killed. unfold take_batch, mbind, prog_bind in *.
  destruct (in_store _ h) as [[?|?] h1]; [|eapply batch_makes_poll; [apply Ht|]; apply batch_done_nothing].
  destruct (in_store _ h1) as [[ds|?] h2]; [|eapply batch_makes_poll; [apply Ht|]; apply batch_done_nothing].
  destruct Ht as [Ht _]. pose proof (bt_hand _ _ _ _ Ht) as [Hid Hhand].
  assert (batch_done now (take n ds) h2 (deliver_all settings (take n ds) now h2).2) as B.
  { apply deliver_all_spec. split.
    - rewrite fmap_take. eapply sublist_NoDup; [exact Hid|apply sublist_take].
    - intros c e (k & Hk & _)%elem_of_take. apply Hhand. by eapply list_elem_of_lookup_2. }
  pose proof (deliver_all_returns (take n ds) now h2) as Hr. destruct (deliver_all settings (take n ds) now h2) as [r h3].
  cbn [fst snd] in *. subst r. assert (poll_done now h h3) as Hdone by (eapply batch_makes_poll; [done|by eapply batch_cut]).
  destruct (ds !! n) as [d|] eqn:Hd; [|done]. destruct in_flight; [|done].
  pose proof (read_payload_ok (claimed_id d) (store h3)) as Hp.
  destruct (read_payload (claimed_id d) (store h3)) as [r w4] eqn:E. rewrite (in_store_run _ _ _ _ E). destruct Hp as (Hd4 & Hs4 & Hp).
  assert (forall l h5, store h5 = w4 -> handed h5 = handed h3 ++ [l] -> written_for (outbox_of h3) d l -> poll_done now h h5) as Hflight.
  { intros l h5 <- Hh5 Hw. eapply batch_makes_poll; [done|]. by eapply (batch_in_flight now ds n d l h2 h3 h5). }
  assert (poll_done now h (with_store w4 h3)) as Hquiet.
  { eapply batch_makes_poll; [done|]. apply (batch_cut _ _ n). destruct B as [B1 B2 B3 B4 B5].
    split; cbn; try rewrite Hd4; [|done..]. unfold outbox_of. cbn. by rewrite Hs4. }
  destruct r as [[p|]|x]; [|exact Hquiet..]. cbn [option_bind].
  destruct (render (claimed_template d) p) as [m|] eqn:Hm; [|exact Hquiet].
  destruct (hand_over_ok (claimed_id d) (claimed_recipient d) m (with_store w4 h3)) as [S1 S2].
  assert (poll_done now h (hand_over (claimed_id d) (claimed_recipient d) m (with_store w4 h3)).2) as Hend.
  { eapply Hflight; [exact S1|exact S2|]. split; [done|]. split; [done|]. exists p. auto. }
  by destruct (hand_over _ _ _ _) as [[?|?] ?].
Qed.

(** ** Letters are genuine *)

(** Every letter a poll hands over is for a row of the table, goes to its
    recipient, and says what its template makes of what was staged for it. *)
Theorem letters_are_genuine now h :
  NoDup (delivery_id <$> mails (db (store h))) ->
  exists ls, handed (poll_once settings now h).2 = handed h ++ ls /\ forall l, l ∈ ls ->
    exists e p, row (letter_of l) (db (store h)) = Some e /\ letter_to l = recipient_address e /\
      staged (outbox_of h) (letter_of l) p /\ render (template_code e) p = Some (letter_text l).
Proof. intros Hnd. apply (pd_letters now), poll_spec, Hnd. Qed.

(** ** At most [max_attempts] letters *)

Definition new_mail (e : EmailDelivery) : Prop :=
  delivery_state e = pending /\ delivery_attempts e = 0 /\ sent_at e = None.

(** What may happen around the worker: polls, polls cut short, and transactions
    of the control plane, which add new mails and delete old ones. *)
Inductive turn : host P -> host P -> Prop :=
| polls now h : turn h (poll_once settings now h).2
| killed now n in_flight h : turn h (poll_killed settings now n in_flight h).2
| elsewhere w h :
    NoDup (delivery_id <$> mails (db w)) ->
    (forall i, row i (db w) = row i (db (store h)) \/ row i (db w) = None \/
       exists e, row i (db w) = Some e /\ new_mail e /\ letters i h = 0) ->
    turn h (with_store w h).

(** A letter is paid for by an attempt, made or being made. *)
Definition counted (e : EmailDelivery) (n : Z) : Prop :=
  (delivery_state e = pending -> n <= delivery_attempts e < max_attempts settings) /\
  (delivery_state e = sending -> n <= delivery_attempts e + 1 /\ delivery_attempts e < max_attempts settings).
Record bounded (h : host P) : Prop := {
  bo_ids : NoDup (delivery_id <$> mails (db (store h)));
  bo_rows i e : row i (db (store h)) = Some e -> counted e (letters i h);
  bo_all i : letters i h <= max_attempts settings;
}.

Lemma reclaimed_counted certain now e e1 n :
  reclaimed certain now e e1 -> counted e n -> counted e1 n.
Proof.
  intros [[-> _]|[Hl ->]] [Hp Hs]; [done|]. unfold lease_over in Hl. boolP. destruct (Hs H0) as [Hn Ha].
  unfold counted. cbn. destruct (_ <=? _) eqn:He; boolP; [by split|]. split; [lia|done].
Qed.
Lemma polled_counted certain some now e n e' n' :
  polled certain some now e n e' n' -> n <= max_attempts settings -> counted e n -> counted e' n' /\ n' <= max_attempts settings.
Proof.
  intros (e1 & Hr & Hp) Hn Hc. apply (reclaimed_counted _ _ _ _ _ Hr) in Hc.
  destruct Hp as [(-> & -> & _)|(Hd & Ho & Hb)]; [done|]. unfold due in Hd. boolP. destruct Hc as [Hc _]. specialize (Hc H0).
  unfold counted. inversion Ho; subst; cbn in *; (split; [|lia]); split; intros; try done; lia.
Qed.

Lemma turn_bounded h h' : 1 <= max_attempts settings -> turn h h' -> bounded h -> bounded h'.
Proof.
  intros Hmax Ht [B1 B2 B3].
  assert (forall now h1, poll_done now h h1 -> bounded h1) as Hpoll.
  { intros now h1 [P1 P2 P3 _]. split.
    - by rewrite P1.
    - intros i e He. destruct (row i (db (store h))) as [e0|] eqn:Hr.
      + destruct (P2 i e0 Hr) as (e' & He' & Hp). simplify_eq. by eapply polled_counted; eauto.
      + apply row_None in Hr. rewrite <- P1 in Hr. apply row_None in Hr. congruence.
    - intros i. destruct (row i (db (store h))) as [e0|] eqn:Hr; [|by rewrite P3].
      destruct (P2 i e0 Hr) as (e' & He' & Hp). by eapply polled_counted; eauto. }
  destruct Ht as [now h|now n b h|w h Hnd Hw].
  - by eapply Hpoll, poll_spec.
  - by eapply Hpoll, killed_spec.
  - split; [done| |exact B3]. intros i e He. cbn in He. change (letters i (with_store w h)) with (letters i h).
    destruct (Hw i) as [Hi|[Hi|(x & Hx & (Hs & Ha & _) & Hl)]]; [apply B2; congruence|congruence|].
    simplify_eq. unfold counted. rewrite Hs, Hl, Ha. split; [lia|done].
Qed.

(** C19: however often the worker is killed, and whatever the provider answers, no
    message is handed over more than [max_attempts] times. *)
Theorem handed_over_at_most_max_attempts h0 h i :
  1 <= max_attempts settings -> handed h0 = [] -> NoDup (delivery_id <$> mails (db (store h0))) ->
  (forall e, e ∈ mails (db (store h0)) -> active e = true -> 0 <= delivery_attempts e < max_attempts settings) ->
  rtc turn h0 h -> letters i h <= max_attempts settings.
Proof.
  intros Hmax Hh Hnd Hr Ht. enough (bounded h) as B by apply (bo_all _ B).
  assert (forall j, letters j h0 = 0) as H0 by (intros j; unfold letters; by rewrite Hh).
  assert (bounded h0) as B0.
  { split; [done| |intros j; rewrite H0; lia]. intros j e [He _]%row_elem. rewrite H0. specialize (Hr e He). unfold active in Hr.
    split; intros Hs; rewrite Hs in Hr; specialize (Hr eq_refl); lia. }
  clear -B0 Hmax Ht. induction Ht as [|x y z Hxy _ IH]; [done|]. by apply IH, (turn_bounded x).
Qed.

(** ** Every message settles *)

(** Attempts made or being made, and how many a row that is not settled has left. *)
Definition rank (e : EmailDelivery) : Z := delivery_attempts e + if bool_decide (delivery_state e = sending) then 1 else 0.
Definition weight (e : EmailDelivery) : Z := if active e then max_attempts settings + 1 - rank e else 0.
(** A poll at [t] has something to do with the row. *)
Definition ready (t : Z) (e : EmailDelivery) : bool := due t e || lease_over t e.
(** The longest backoff, or the lease, whichever is longer. *)
Definition horizon : Z := Z.max (3600 * SECOND) (lease_seconds settings * SECOND + 1).

Lemma active_states e : active e = true <-> delivery_state e = pending \/ delivery_state e = sending.
Proof. unfold active. rewrite orb_true_iff, !bool_decide_eq_true. done. Qed.
Lemma rank_sending e : delivery_state e = sending -> rank e = delivery_attempts e + 1.
Proof. intros Hs. unfold rank. by rewrite bool_decide_eq_true_2. Qed.
Lemma rank_other e : delivery_state e <> sending -> rank e = delivery_attempts e.
Proof. intros Hs. unfold rank. rewrite bool_decide_eq_false_2 by done. lia. Qed.
Lemma weight_settled e : delivery_state e <> pending -> delivery_state e <> sending -> weight e = 0.
Proof. intros Hp Hs. unfold weight. destruct (active e) eqn:Ha; [|done]. by apply active_states in Ha as [?|?]. Qed.
Lemma weight_active e : active e = true -> weight e = max_attempts settings + 1 - rank e.
Proof. unfold weight. by intros ->. Qed.
Lemma weight_pos e : healthy e -> 0 <= weight e /\ (active e = true -> 1 <= weight e).
Proof.
  intros Hh. destruct (active e) eqn:Ha; [|unfold weight; rewrite Ha; lia]. rewrite weight_active by done.
  destruct (Hh Ha) as (_ & Hm & _). unfold rank. case_bool_decide; lia.
Qed.
Lemma ready_later t t' e : t <= t' -> ready t e = true -> ready t' e = true.
Proof.
  intros Ht. unfold ready, due, lease_over. rewrite !orb_true_iff, !andb_true_iff. intros [[-> Hd]|[-> Hl]]; [left|right]; (split; [done|]).
  - apply Z.leb_le in Hd. apply Z.leb_le. lia.
  - destruct (leased_until e); [|done]. apply Z.ltb_lt in Hl. apply Z.ltb_lt. lia.
Qed.
Lemma due_state t e : due t e = true -> delivery_state e = pending /\ available_at e <= t.
Proof. unfold due. rewrite andb_true_iff, bool_decide_eq_true, Z.leb_le. done. Qed.
Lemma due_now t e : delivery_state e = pending -> available_at e <= t -> due t e = true.
Proof. intros Hs Ht. unfold due. rewrite Hs, bool_decide_eq_true_2 by done. by apply Z.leb_le. Qed.
Lemma lease_over_state t e : lease_over t e = true -> delivery_state e = sending.
Proof. unfold lease_over. rewrite andb_true_iff, bool_decide_eq_true. by intros [? _]. Qed.
Lemma ready_active t e : ready t e = true -> active e = true.
Proof.
  unfold ready. rewrite orb_true_iff. intros [[Hs _]%due_state|Hs%lease_over_state]; apply active_states; auto.
Qed.

(** A row whose lease ran out is counted and put back at once, or given up. *)
Lemma reclaim_row now e :
  healthy e -> lease_over now e = true ->
  let e1 := reclaim (max_attempts settings) now e in
  healthy e1 /\ delivery_state e1 <> sending /\ (active e1 = true -> weight e1 = weight e /\ due now e1 = true).
Proof.
  intros Hh Hl. cbn zeta. pose proof (lease_over_state _ _ Hl) as Hs. assert (active e = true) as Ha by (apply active_states; auto).
  destruct (Hh Ha) as (Hsent & Hm & _). set (e1 := reclaim (max_attempts settings) now e).
  assert (delivery_state e1 <> sending /\ (delivery_state e1 = pending -> delivery_attempts e + 1 < max_attempts settings)) as [Hn Hpe].
  { cbn. destruct (_ <=? _) eqn:Hmax; boolP; done. }
  split; [|split; [done|]].
  - intros [Ha1|Ha1]%active_states; [|done]. split; [done|]. split; [exact (Hpe Ha1)|done].
  - intros Ha1. pose proof Ha1 as [Hp|Hp]%active_states; [|done]. rewrite !weight_active by done.
    rewrite (rank_sending e Hs), (rank_other e1 Hn). split; [done|]. apply due_now; [done|]. cbn. lia.
Qed.
(** A row that is taken has one attempt less, or is settled. *)
Lemma taken_row now e1 e' :
  healthy e1 -> due now e1 = true -> outcome_of (max_attempts settings) now (lease (until now) e1) e' ->
  healthy e' /\ 0 <= weight e' < weight e1 /\ (active e' = true -> ready (now + horizon) e' = true).
Proof.
  intros Hh [Hs Hav]%due_state Ho. assert (active e1 = true) as Ha by (apply active_states; auto).
  destruct (Hh Ha) as (Hsent & Hm & _). destruct (weight_pos e1 Hh) as [_ Hw]. specialize (Hw Ha).
  assert (weight e1 = max_attempts settings + 1 - delivery_attempts e1) as Hw1
    by (rewrite weight_active, rank_other by (done || by rewrite Hs); done).
  assert (forall x, delivery_state x <> pending -> delivery_state x <> sending ->
            healthy x /\ 0 <= weight x < weight e1 /\ (active x = true -> ready (now + horizon) x = true)) as Hset.
  { intros x Hx1 Hx2. assert (active x = false) as Hx by (destruct (active x) eqn:E; [by apply active_states in E as [?|?]|done]).
    split; [by intros E; rewrite Hx in E|]. rewrite weight_settled by done. split; [lia|]. by rewrite Hx. }
  inversion Ho as [|pid|code|t code Hlt Ht]; subst; [|by apply Hset|by apply Hset|].
  - assert (healthy (lease (until now) e1)) as Hh' by (intros _; split; [done|]; split; [done|eauto]). split; [done|].
    split; [|intros _; unfold ready, horizon; apply orb_true_iff; right; unfold lease_over, until; cbn; apply Z.ltb_lt; lia].
    split; [by apply weight_pos|]. rewrite Hw1, weight_active by done. rewrite (rank_sending (lease _ _)) by done. cbn. lia.
  - assert (healthy (reschedule t code (lease (until now) e1))) as Hh' by (intros _; split; [done|]; split; [exact Hlt|done]). split; [done|].
    split; [|intros _; unfold ready; apply orb_true_iff; left; apply due_now; [done|]; cbn; unfold horizon; lia].
    split; [by apply weight_pos|]. rewrite Hw1, weight_active by done. rewrite (rank_other (reschedule _ _ _)) by done. cbn in *. lia.
Qed.

(** What a poll makes of a row: nothing when it is not ready; otherwise it is
    ready again within the horizon, and it or another row has advanced. *)
Definition advanced (some : Prop) (now : Z) (e e' : EmailDelivery) : Prop :=
  healthy e' /\ 0 <= weight e' <= weight e /\ (ready now e = false -> e' = e) /\
  (ready now e = true -> (active e' = true -> ready (now + horizon) e' = true) /\ (some \/ weight e' < weight e)).

Lemma polled_advanced some now e n e' n' : polled True some now e n e' n' -> healthy e -> advanced some now e e'.
Proof.
  intros (e1 & Hr & Hp) Hh. destruct (weight_pos e Hh) as [Hw0 Hw1].
  assert (horizon >= 0) as Hhor by (unfold horizon, SECOND; lia).
  destruct Hr as [[-> Hl]|[Hl ->]].
  - specialize (Hl I). destruct Hp as [(-> & _ & Hsome)|(Hd & Ho & _)].
    + split; [done|]. split; [lia|]. split; [done|]. intros Hre. split; [intros _; eapply ready_later; [|done]; lia|].
      left. apply Hsome; [done|]. unfold ready in Hre. rewrite Hl, orb_false_r in Hre. done.
    + destruct (taken_row _ _ _ Hh Hd Ho) as (Hh' & Hw & Hre). split; [done|]. split; [lia|].
      split; [unfold ready; by rewrite Hd|]. intros _. split; [done|]. right. lia.
  - assert (ready now e = true) as Hre by (unfold ready; rewrite Hl; by apply orb_true_r).
    destruct (reclaim_row now e Hh Hl) as (Hh1 & Hns & Ha1). cbn zeta in *. set (e1 := reclaim (max_attempts settings) now e) in *.
    pose proof (Hw1 (ready_active _ _ Hre)) as Hwe. unfold advanced. rewrite Hre.
    destruct Hp as [(-> & _ & Hsome)|(Hd & Ho & _)].
    + split; [done|]. destruct (active e1) eqn:Hact.
      * destruct (Ha1 eq_refl) as [-> Hd]. split; [lia|]. split; [done|]. intros _. split; [intros _|left; auto].
        eapply (ready_later now); [lia|]. unfold ready. by rewrite Hd.
      * assert (weight e1 = 0) as -> by (unfold weight; by rewrite Hact). split; [lia|]. split; [done|]. intros _. split; [done|]. right. lia.
    + destruct (taken_row _ _ _ Hh1 Hd Ho) as (Hh' & Hw & Hre'). pose proof (due_state _ _ Hd) as [Hs1 _].
      destruct Ha1 as [Hwe1 _]; [apply active_states; auto|]. split; [done|]. split; [lia|]. split; [done|]. intros _. split; [done|]. right. lia.
Qed.
Lemma worked_advanced now e e1 e' :
  reclaimed True now e e1 -> due now e1 = true -> outcome_of (max_attempts settings) now (lease (until now) e1) e' ->
  healthy e -> weight e' < weight e.
Proof.
  intros [[-> _]|[Hl ->]] Hd Ho Hh.
  - destruct (taken_row _ _ _ Hh Hd Ho) as (_ & Hw & _). lia.
  - destruct (reclaim_row now e Hh Hl) as (Hh1 & _ & Ha1). destruct (taken_row _ _ _ Hh1 Hd Ho) as (_ & Hw & _).
    destruct Ha1 as [Hwe _]; [|lia]. apply active_states. left. by apply due_state in Hd as [? _].
Qed.

(** *** The whole table *)

Definition total (rows : list EmailDelivery) : Z := foldr (fun e n => weight e + n) 0 rows.
Lemma total_le l l' : Forall2 (fun e e' => weight e' <= weight e) l l' -> total l' <= total l.
Proof. unfold total. induction 1 as [|e e' l l' He _ IH]; cbn [foldr]; lia. Qed.
Lemma total_lt l l' k e e' :
  Forall2 (fun e e' => weight e' <= weight e) l l' -> l !! k = Some e -> l' !! k = Some e' -> weight e' < weight e ->
  total l' < total l.
Proof.
  intros Hf. revert k. induction Hf as [|x x' l l' Hx Hf IH]; intros [|k] He He' Hlt; try done; cbn [lookup list_lookup] in He, He'; cbn [total foldr]; fold (total l) (total l').
  - simplify_eq. pose proof (total_le _ _ Hf). lia.
  - specialize (IH k He He' Hlt). lia.
Qed.
Lemma total_bound (m : Z) l : Forall (fun e => weight e <= m) l -> total l <= Z.of_nat (length l) * m.
Proof. induction 1 as [|e l He _ IH]; cbn [total foldr length]; [lia|]. fold (total l). lia. Qed.
Lemma total_pos l : Forall healthy l -> 0 <= total l /\ forall e, e ∈ l -> active e = true -> 1 <= total l.
Proof.
  induction 1 as [|x l Hx _ [IH0 IH1]]; [split; [cbn; lia|by intros e ?%elem_of_nil]|].
  destruct (weight_pos x Hx) as [Hw0 Hw1]. cbn [total foldr]. fold (total l). split; [lia|].
  intros e [->|He]%elem_of_cons Ha; [specialize (Hw1 Ha)|specialize (IH1 e He Ha)]; lia.
Qed.

(** Two tables with the same identifiers, row by row. *)
Lemma rows_aligned (R : EmailDelivery -> EmailDelivery -> Prop) d d' :
  delivery_id <$> mails d' = delivery_id <$> mails d -> NoDup (delivery_id <$> mails d) ->
  (forall i e, row i d = Some e -> exists e', row i d' = Some e' /\ R e e') -> Forall2 R (mails d) (mails d').
Proof.
  intros Hi Hnd HR. apply Forall2_same_length_lookup. split.
  { apply (f_equal length) in Hi. by rewrite !length_fmap in Hi. }
  intros k e e' He He'. assert (delivery_id e' = delivery_id e) as Hid.
  { apply (f_equal (fun l => l !! k)) in Hi. rewrite !list_lookup_fmap, He, He' in Hi. by injection Hi. }
  destruct (HR (delivery_id e) e) as (x & Hx & HRx); [apply elem_row; [done|by eapply list_elem_of_lookup_2]|].
  rewrite <- Hid, (elem_row d' e') in Hx; [by injection Hx as <-|by rewrite Hi|by eapply list_elem_of_lookup_2].
Qed.
Lemma row_lookup i d e : row i d = Some e -> exists k, mails d !! k = Some e /\ delivery_id e = i.
Proof. intros [Hin Hid]%row_elem. apply list_elem_of_lookup_1 in Hin as [k Hk]. eauto. Qed.
Lemma rows_lookup d d' i k e e' :
  delivery_id <$> mails d' = delivery_id <$> mails d -> NoDup (delivery_id <$> mails d) ->
  mails d !! k = Some e -> delivery_id e = i -> row i d' = Some e' -> mails d' !! k = Some e'.
Proof.
  intros Hi Hnd Hk Hid Hr. assert ((delivery_id <$> mails d') !! k = Some i) as Hk' by (rewrite Hi, list_lookup_fmap, Hk; cbn; congruence).
  rewrite list_lookup_fmap in Hk'. destruct (mails d' !! k) as [x|] eqn:Hx; [|done]. injection Hk' as Hxi.
  rewrite <- Hxi, (elem_row d' x) in Hr; [done|by rewrite Hi|by eapply list_elem_of_lookup_2].
Qed.

(** The constraints hold after everything the worker does. *)
Definition stays {A} (m : prog (host P) exn A) : Prop := forall h, consistent (db (store h)) -> consistent (db (store (m h).2)).
Lemma stays_transact {A} (m : prog world (failure exn) A) : stays (in_store (transact IntegrityError m)).
Proof.
  intros h Hc. destruct (in_store_ok (transact IntegrityError m) h) as [-> _]. by apply (transact_consistent IntegrityError m).
Qed.
Lemma stays_bind {A B} (m : prog (host P) exn A) (f : A -> prog (host P) exn B) :
  stays m -> (forall a, stays (f a)) -> stays (m ≫= f).
Proof. intros Hm Hf h Hc. specialize (Hm h Hc). unfold mbind, prog_bind. destruct (m h) as [[a|x] h1]; [by apply Hf|done]. Qed.
Lemma stays_read i : stays (in_store (read_payload i)).
Proof.
  intros h Hc. destruct (in_store_ok (read_payload i) h) as [-> _]. pose proof (read_payload_ok i (store h)) as Hp.
  destruct (read_payload i (store h)) as [r w]. cbn. by destruct Hp as (-> & _).
Qed.
Lemma stays_hand_over i to m : stays (hand_over i to m).
Proof. intros h Hc. by destruct (hand_over_ok i to m h) as [-> _]. Qed.
Lemma poll_stays now : stays (poll_once settings now).
Proof.
  unfold poll_once. apply stays_bind; [apply stays_transact|intros _]. apply stays_bind; [apply stays_transact|intros ds].
  apply stays_bind; [|by intros _ h]. induction ds as [|d ds IH]; [by intros h|]. intros h Hc. rewrite deliver_all_cons. apply IH.
  revert h Hc. fold (stays (deliver_one settings d now)). unfold deliver_one. apply stays_bind; [apply stays_read|].
  intros [p|]; [|apply stays_transact]. destruct (render _ p); [|apply stays_transact].
  apply stays_bind; [apply stays_hand_over|]. intros [pid|]; apply stays_transact.
Qed.

Lemma polled_certain now e n e' n' (C S : Prop) : C -> polled C S now e n e' n' -> polled True S now e n e' n'.
Proof. intros HC (e1 & Hr & Hp). exists e1. unfold reclaimed in *. tauto. Qed.

(** The table is in order, and no row that is not settled waits for longer than
    the horizon after [t]. *)
Record pursued (t : Z) (h : host P) : Prop := {
  pu_order : in_order (db (store h));
  pu_ids : NoDup (delivery_id <$> mails (db (store h)));
  pu_rows e : e ∈ mails (db (store h)) -> active e = true -> ready (t + horizon) e = true;
}.
Definition left_over (h : host P) : Z := total (mails (db (store h))).

Lemma poll_advances now h :
  in_order (db (store h)) -> NoDup (delivery_id <$> mails (db (store h))) ->
  let h' := (poll_once settings now h).2 in
  in_order (db (store h')) /\ delivery_id <$> mails (db (store h')) = delivery_id <$> mails (db (store h)) /\
  Forall2 (advanced (left_over h' < left_over h) now) (mails (db (store h))) (mails (db (store h'))).
Proof.
  intros Ho Hnd. cbn zeta. destruct (poll_spec now h Hnd) as [[P1 P2 _ _] _]. set (h' := (poll_once settings now h).2) in *.
  pose proof Ho as (Hc & Hm & Hh & Hl). rewrite Forall_forall in Hh.
  assert (Forall2 (advanced (worked_on now h h') now) (mails (db (store h))) (mails (db (store h')))) as Hadv.
  { apply rows_aligned; [done|done|]. intros i e He. destruct (P2 i e He) as (e' & He' & Hp%polled_certain); [|done].
    exists e'. split; [done|]. eapply polled_advanced; [exact Hp|]. apply Hh. by apply row_elem in He as [? _]. }
  assert (Forall2 (fun e e' => weight e' <= weight e) (mails (db (store h))) (mails (db (store h')))) as Hle
    by (eapply Forall2_impl; [exact Hadv|]; intros e e' (_ & ? & _); lia).
  assert (worked_on now h h' -> left_over h' < left_over h) as Hworked.
  { intros (i & e & e1 & e' & He & Hr & Hd & He' & Hout). destruct (row_lookup _ _ _ He) as (k & Hk & Hid).
    eapply (total_lt _ _ k e e'); [exact Hle|exact Hk|by eapply rows_lookup|].
    eapply worked_advanced; [|exact Hd|exact Hout|apply Hh; by eapply list_elem_of_lookup_2]. unfold reclaimed in *. tauto. }
  split; [|split; [done|]].
  - split; [by apply poll_stays|]. split; [done|]. split; [|done]. apply Forall_forall. intros e' [k Hk]%list_elem_of_lookup_1.
    destruct (Forall2_lookup_r _ _ _ _ _ Hadv Hk) as (e & _ & Hhe & _). exact Hhe.
  - eapply Forall2_impl; [exact Hadv|]. intros e e' (H1 & H2 & H3 & H4). split; [done|]. split; [done|]. split; [done|].
    intros Hre. destruct (H4 Hre) as [? [?|?]]; auto.
Qed.

(** A poll that finds something ready makes headway; one that does not leaves
    every row as it is. *)
Lemma poll_pursues B now h :
  pursued B h -> B <= now ->
  let h' := (poll_once settings now h).2 in
  delivery_id <$> mails (db (store h')) = delivery_id <$> mails (db (store h)) /\ left_over h' <= left_over h /\
  ((left_over h' < left_over h /\ pursued now h') \/
   (mails (db (store h')) = mails (db (store h)) /\ pursued B h' /\ forall e, e ∈ mails (db (store h)) -> ready now e = false)).
Proof.
  intros [Ho Hnd Hr] HB. cbn zeta. destruct (poll_advances now h Ho Hnd) as (Ho' & Hi & Hadv). cbn zeta in *.
  set (h' := (poll_once settings now h).2) in *. split; [done|].
  assert (Forall2 (fun e e' => weight e' <= weight e) (mails (db (store h))) (mails (db (store h')))) as Hle
    by (eapply Forall2_impl; [exact Hadv|]; intros e e' (_ & ? & _); lia).
  split; [by apply total_le|]. assert (NoDup (delivery_id <$> mails (db (store h')))) as Hnd' by by rewrite Hi.
  destruct (existsb (ready now) (mails (db (store h)))) eqn:Hex.
  - left. apply existsb_exists in Hex as (e & Hin%list_elem_of_In & Hre). apply list_elem_of_lookup_1 in Hin as [k Hk].
    destruct (Forall2_lookup_l _ _ _ _ _ Hadv Hk) as (e' & Hk' & _ & _ & _ & Hgo). destruct (Hgo Hre) as [_ Hdrop].
    split; [destruct Hdrop as [|Hdrop]; [done|by eapply total_lt]|]. split; [done|done|]. intros x' Hx' Ha.
    apply list_elem_of_lookup_1 in Hx' as [j Hj]. destruct (Forall2_lookup_r _ _ _ _ _ Hadv Hj) as (x & Hx & _ & _ & Hsame & Hgo').
    destruct (ready now x) eqn:Hrx; [by apply Hgo'|]. rewrite (Hsame eq_refl) in *.
    eapply ready_later; [|apply Hr; [by eapply list_elem_of_lookup_2|done]]. lia.
  - right. assert (forall e, e ∈ mails (db (store h)) -> ready now e = false) as Hno.
    { intros e He. destruct (ready now e) eqn:Hre; [|done]. rewrite (proj2 (existsb_exists _ _)) in Hex; [done|].
      exists e. split; [by apply list_elem_of_In|done]. }
    assert (mails (db (store h')) = mails (db (store h))) as Hsame.
    { apply list_eq_Forall2. apply Forall2_flip. apply Forall2_same_length_lookup. split; [by eapply Forall2_length|].
      intros k e e' Hk Hk'. destruct (Forall2_lookup_lr _ _ _ _ _ _ Hadv Hk Hk') as (_ & _ & Hs & _). apply Hs, Hno.
      by eapply list_elem_of_lookup_2. }
    split; [done|]. split; [|done]. split; [done|done|]. rewrite Hsame. exact Hr.
Qed.

(** Readings of the clock that do not go back, none more than [gap] after the
    one before. *)
Fixpoint paced (gap t : Z) (clock : list Z) : Prop :=
  match clock with
  | [] => True
  | t' :: clock' => t <= t' <= t + gap /\ paced gap t' clock'
  end.
Definition last_reading (t : Z) (clock : list Z) : Z := default t (last clock).
Lemma last_reading_cons t t' clock : last_reading t (t' :: clock) = last_reading t' clock.
Proof. unfold last_reading. rewrite last_cons. by destruct (last clock). Qed.

Lemma run_loop_cons t clock h :
  run_loop settings (t :: clock) h = run_loop settings clock (poll_once settings t h).2.
Proof. cbn. unfold mbind, prog_bind, try_except. by destruct (poll_once settings t h) as [[?|?] h1]. Qed.

Lemma settled_or_not h :
  (exists e, e ∈ mails (db (store h)) /\ active e = true) \/
  (forall e, e ∈ mails (db (store h)) -> active e = false) /\ left_over h <= 0.
Proof.
  destruct (existsb active (mails (db (store h)))) eqn:Hex.
  - left. apply existsb_exists in Hex as (e & He%list_elem_of_In & Ha). eauto.
  - right. assert (forall e, e ∈ mails (db (store h)) -> active e = false) as Hno.
    { intros e He. destruct (active e) eqn:Ha; [|done]. rewrite (proj2 (existsb_exists _ _)) in Hex; [done|].
      exists e. split; [by apply list_elem_of_In|done]. }
    split; [done|]. rewrite <- (Z.mul_0_r (Z.of_nat (length (mails (db (store h)))))). apply total_bound, Forall_forall.
    intros e He. unfold weight. by rewrite (Hno e He).
Qed.

(** [B] is when the last headway was made: the next is made by [B + horizon + gap]. *)
Lemma loop_pursues gap clock B t h :
  0 <= gap -> pursued B h -> B <= t <= B + horizon + gap -> paced gap t clock ->
  (1 <= left_over h -> B + left_over h * (horizon + gap) <= last_reading t clock) ->
  let h' := (run_loop settings (t :: clock) h).2 in
  delivery_id <$> mails (db (store h')) = delivery_id <$> mails (db (store h)) /\ Forall healthy (mails (db (store h'))) /\
  left_over h' <= 0.
Proof.
  intros Hg. assert (0 < horizon) as Hhor by (unfold horizon, SECOND; lia).
  revert B t h. induction clock as [|t' clock IH]; intros B t h Hp Ht Hs Hn; rewrite run_loop_cons; cbn zeta;
    destruct (poll_pursues B t h Hp (proj1 Ht)) as (Hi & Hle & Hstep); cbn zeta in *; set (h1 := (poll_once settings t h).2) in *.
  - cbn. assert (pursued B h1 \/ pursued t h1) as Hp1 by tauto.
    assert (Forall healthy (mails (db (store h1)))) as Hh1 by (destruct Hp1 as [[(_ & _ & ? & _) _ _]|[(_ & _ & ? & _) _ _]]; done).
    split; [done|]. split; [done|]. unfold last_reading in Hn. cbn in Hn.
    destruct Hstep as [[Hlt _]|(Hsame & _ & Hno)].
    + destruct (decide (1 <= left_over h)) as [H1|H1]; [specialize (Hn H1); nia|lia].
    + destruct (decide (1 <= left_over h)) as [H1|H1]; [|lia]. specialize (Hn H1). exfalso.
      destruct (settled_or_not h) as [(e & He & Ha)|[_ ?]]; [|lia]. pose proof (pu_rows _ _ Hp e He Ha) as Hre.
      apply (ready_later _ t) in Hre; [by rewrite (Hno e He) in Hre|nia].
  - destruct Hs as [Ht' Hs]. rewrite last_reading_cons in Hn. rewrite <- Hi.
    destruct Hstep as [[Hlt Hp1]|(Hsame & Hp1 & Hno)].
    + apply (IH t); [done|lia|done|]. intros H1. specialize (Hn ltac:(lia)). nia.
    + assert (left_over h1 = left_over h) as Heq by (unfold left_over; by rewrite Hsame).
      destruct (settled_or_not h) as [(e & He & Ha)|[Hnone H0]].
      * apply (IH B); [done| |done|by rewrite Heq]. split; [lia|].
        destruct (decide (B + horizon <= t)) as [Hbig|]; [|lia]. exfalso.
        pose proof (pu_rows _ _ Hp e He Ha) as Hre. apply (ready_later _ t) in Hre; [|done]. by rewrite (Hno e He) in Hre.
      * apply (IH t'); [|lia|done|lia]. destruct Hp1 as [O I R]. split; [done|done|]. rewrite Hsame. intros e He Ha.
        by rewrite (Hnone e He) in Ha.
Qed.

(** C20: a worker that keeps polling settles every message.  Take any readings of the
    clock that do not go back and lie at most [gap] apart, any batch size, and
    messages none of which is put off, or leased, for longer than the horizon (the
    longest backoff or the lease).  Once the polls have gone on for one horizon and
    one gap per attempt that could be left, over all rows, no message is waiting
    or being sent, whatever the provider does, if none is added meanwhile. *)
Theorem every_message_settles h t clock gap :
  in_order (db (store h)) -> NoDup (delivery_id <$> mails (db (store h))) ->
  (forall e, e ∈ mails (db (store h)) -> active e = true -> ready (t + horizon) e = true) ->
  0 <= gap -> paced gap t clock ->
  t + Z.of_nat (length (mails (db (store h)))) * (max_attempts settings + 1) * (horizon + gap) <= last_reading t clock ->
  let h' := (run_loop settings (t :: clock) h).2 in
  delivery_id <$> mails (db (store h')) = delivery_id <$> mails (db (store h)) /\
  forall e, e ∈ mails (db (store h')) -> active e = false.
Proof.
  intros Ho Hnd Hr Hg Hs Hl. cbn zeta. assert (0 < horizon) as Hhor by (unfold horizon, SECOND; lia).
  assert (left_over h <= Z.of_nat (length (mails (db (store h)))) * Z.max 0 (max_attempts settings + 1)) as Hw.
  { apply total_bound, Forall_forall. intros e He. unfold weight. destruct (active e) eqn:Ha; [|lia].
    destruct Ho as (Hc & _). apply consistent_checks in Hc as [_ Hc]. rewrite forallb_elem in Hc. specialize (Hc e He).
    unfold mail_checks in Hc. boolP. unfold rank. destruct (bool_decide (delivery_state e = sending)); lia. }
  destruct (loop_pursues gap clock t t h Hg) as (Hi & Hh & H0).
  - by split.
  - lia.
  - done.
  - intros H1. destruct (decide (0 <= max_attempts settings + 1)); nia.
  - split; [done|]. intros e He. destruct (active e) eqn:Ha; [|done]. pose proof (proj2 (total_pos _ Hh) e He Ha) as H1.
    unfold left_over in H0. lia.
Qed.

(** *** The hypotheses, decided *)

Definition healthyb (e : EmailDelivery) : bool :=
  negb (active e) ||
  (bool_decide (sent_at e = None) && (0 <=? delivery_attempts e) && (delivery_attempts e <? max_attempts settings) &&
   (negb (bool_decide (delivery_state e = sending)) || bool_decide (is_Some (leased_until e)))).
Lemma healthyb_spec e :
  healthyb e = true -> healthy e /\ (active e = true -> 0 <= delivery_attempts e < max_attempts settings).
Proof.
  unfold healthyb, healthy. intros Hb. destruct (active e); [|by split]. cbn [negb orb] in Hb. boolP.
  split; intros _; [|lia]. split; [done|]. split; [lia|]. intros Hs.
  apply orb_true_iff in H1 as [Hn|Hl]; [|by apply bool_decide_eq_true in Hl]. apply negb_true_iff, bool_decide_eq_false in Hn. done.
Qed.
End Worker.
End MailLife.
