(* ===== verification/MailScenario.v ===== *)
(** * Mail followed to its reader

    The mails of [AccountScenario] delivered by the worker, a provider that
    refuses everything, a worker killed with a message in flight, and two
    workers in each other's way. *)

From S2P Require Import Prelude PyText PyBytes PyTime Json IpAddress Usage ApiStore AccessToken OpaqueToken RedisState AbuseControl XrayCredential Access AuthStore UserAuth SessionLedger UserSessions SessionScenario Accounts AccountLife AccountScenario MailWorker MailLife.
Import Db AuthTx TxLogic Outbox Templates Adapters Poller MailLife.

Module MailScenario.

#[local] Existing Instance OpaqueToken.example_hmac.
#[local] Existing Instance SessionScenario.example_argon2.
#[local] Existing Instance SessionScenario.example_validator.

(** A provider with its answers laid out; it accepts what comes after them. *)
#[local] Instance scripted : EmailAdapter (list (result Adapters.exn text)) := {|
  send _ _ _ := fun answers =>
    match answers with
    | [] => (Ok (str "accepted"), [])
    | a :: rest => (a, rest)
    end;
|}.
Notation provider_t := (list (result Adapters.exn text)).
Definition settings : Settings := {| lease_seconds := 60; batch_size := 10%nat; max_attempts := 3 |}.
Definition host_of (w : world) (answers : provider_t) : host provider_t := {| store := w; provider := answers; handed := [] |}.
Definition T1 : Z := AccountScenario.T0 + 7 * Accounts.DAY.

(** ** The activation code reaches its reader *)

Definition office : host provider_t := host_of AccountScenario.w3 [].
Definition delivered := Eval vm_compute in poll_once settings T1 office.
Lemma office_ids : NoDup (delivery_id <$> mails (db (store office))).
Proof. vm_compute. repeat (constructor; [set_solver|]). constructor. Qed.
Lemma letters_are_genuine_witness :
  exists ls, handed (poll_once settings T1 office).2 = ls /\ length ls = 3%nat /\ forall l, l ∈ ls ->
    exists e, row (letter_of l) (db (store office)) = Some e /\ letter_to l = recipient_address e.
Proof.
  destruct (letters_are_genuine settings T1 office office_ids) as (ls & Hls & Hl). exists ls. split; [exact Hls|]. split.
  - assert (length (handed (poll_once settings T1 office).2) = 3%nat) as Hn by (vm_compute; reflexivity). rewrite Hls in Hn. exact Hn.
  - intros l Hin. destruct (Hl l Hin) as (e & p & He & Hto & _). exists e. split; [exact He|exact Hto].
Defined.
Fixpoint contains (needle t : text) : bool :=
  startswith needle t || match t with [] => false | _ :: t' => contains needle t' end.
(** The last letter holds the code that activates the account. *)
Example code_reaches_its_reader :
  exists l, last (handed delivered.2) = Some l /\ letter_to l = AccountScenario.bob /\
    contains AccountScenario.raw_link (body (letter_text l)) = true /\
    (Accounts.confirm_activation AccountScenario.settings OpaqueToken.example_ring OpaqueToken.example_ring 1 AccountScenario.prefix
       AccountScenario.raw_link AccountScenario.secret AccountScenario.network (T1 + 60000) [] (store delivered.2)).1 = Ok tt.
Proof. eexists. split; [vm_compute; reflexivity|]. vm_compute. repeat split. Qed.

(** ** A provider that refuses everything *)

Definition refusing : host provider_t := host_of AccountScenario.w3 (replicate 20 (Err EmailSendError)).
Definition HOUR : Z := 3600 * SECOND.
(** One message at a time, a poll a minute, for half a day. *)
Definition one_by_one : Settings := {| lease_seconds := 60; batch_size := 1%nat; max_attempts := 3 |}.
Definition clock : list Z := (fun k => T1 + 60 * SECOND * k) <$> seqZ 1 732.
Lemma waiting_mails : forallb (healthyb settings) (mails (db (store office))) = true.
Proof. vm_compute. reflexivity. Qed.
Lemma mails_are_due : forallb (ready T1) (mails (db (store office))) = true.
Proof. vm_compute. reflexivity. Qed.
Lemma refusing_in_order : in_order one_by_one (db (store refusing)).
Proof.
  split; [vm_compute; reflexivity|]. split; [vm_compute; discriminate|]. split; [|vm_compute; repeat constructor].
  apply Forall_forall. intros e He. apply healthyb_spec, (proj1 (forallb_elem (healthyb settings) _) waiting_mails e He).
Qed.
Lemma clock_paced : paced (60 * SECOND) T1 clock.
Proof.
  unfold clock. assert (forall n k, paced (60 * SECOND) (T1 + 60 * SECOND * (k - 1)) ((fun k => T1 + 60 * SECOND * k) <$> seqZ k (Z.of_nat n))) as Hp.
  { induction n as [|n IH]; intros k; [done|]. rewrite seqZ_cons by lia. cbn [fmap list_fmap paced]. split; [unfold SECOND; lia|].
    replace (Z.pred (Z.of_nat (S n))) with (Z.of_nat n) by lia. specialize (IH (k + 1)). by replace (k + 1 - 1) with k in IH by lia. }
  specialize (Hp 732%nat 1). by rewrite Z.sub_diag, Z.mul_0_r, Z.add_0_r in Hp.
Qed.
Lemma every_message_settles_witness :
  delivery_state <$> mails (db (store (run_loop one_by_one (T1 :: clock) refusing).2)) = replicate 3 failed /\
  forall e, e ∈ mails (db (store (run_loop one_by_one (T1 :: clock) refusing).2)) -> active e = false.
Proof.
  split; [vm_compute; reflexivity|].
  refine (proj2 (every_message_settles one_by_one refusing T1 clock (60 * SECOND) refusing_in_order office_ids _ _ clock_paced _)).
  - intros e He _. apply (ready_later T1); [vm_compute; discriminate|].
    exact (proj1 (forallb_elem (ready T1) _) mails_are_due e He).
  - vm_compute. discriminate.
  - vm_compute. discriminate.
Defined.

(** ** Killed with a message in flight *)

Definition killed_once := Eval vm_compute in poll_killed settings T1 0 true office.
Definition after_kill := Eval vm_compute in poll_once settings (T1 + HOUR) killed_once.2.
Definition first_mail : Z := match mails (db (store office)) with e :: _ => delivery_id e | [] => 0 end.
Lemma handed_over_at_most_max_attempts_witness :
  letters first_mail after_kill.2 = 2 /\ letters first_mail after_kill.2 <= 3.
Proof.
  split; [vm_compute; reflexivity|].
  apply (handed_over_at_most_max_attempts settings office after_kill.2 first_mail).
  - vm_compute. discriminate.
  - reflexivity.
  - exact office_ids.
  - intros e He Ha. exact (proj2 (healthyb_spec settings e (proj1 (forallb_elem (healthyb settings) _) waiting_mails e He)) Ha).
  - assert ((poll_killed settings T1 0 true office).2 = killed_once.2) as H1 by (vm_compute; reflexivity).
    assert ((poll_once settings (T1 + HOUR) killed_once.2).2 = after_kill.2) as H2 by (vm_compute; reflexivity).
    eapply rtc_l; [apply (killed settings T1 0 true)|]. rewrite H1. eapply rtc_l; [apply (polls settings (T1 + HOUR))|].
    rewrite H2. apply rtc_refl.
Defined.

(** ** Staging *)

Definition note : list (text * text) := [(str "token", str "abc"); (str "expires_at", str "soon")].
Definition staged_conn : RedisState.conn :=
  match EmailOutbox.stage_email_payload 7 note 60 AbuseControl.empty_redis with Some (_, c) => c | None => AbuseControl.empty_redis end.
Lemma staged_payload_is_read_witness :
  exists p, (read_email_payload 7 {| RedisState.redis := Redis.tick 59000 (RedisState.redis staged_conn); RedisState.fates := [] |}).1 =
    Ok (Some p) /\ p ≡ₚ note.
Proof.
  destruct (staged_payload_is_read 7 note 60 AbuseControl.empty_redis staged_conn 59000) as (p & Hp & Hn & _).
  - vm_compute. repeat (constructor; [set_solver|]). constructor.
  - vm_compute. reflexivity.
  - split; vm_compute; discriminate.
  - exists p. split; [exact Hp|exact Hn].
Defined.

(** ** Two workers *)

(** A worker that outlives its lease puts a message back in the queue that another
    one has sent meanwhile: no statement looks at the state of the row. *)
Definition slow := Eval vm_compute in claim_batch 1 60 T1 (store office).
Definition slow_claim : list ClaimedDelivery := match slow.1 with Ok l => l | Err _ => [] end.
Definition other_poll := Eval vm_compute in
  poll_once settings (T1 + 61 * SECOND) {| store := slow.2; provider := []; handed := [] |}.
Example sent_message_is_reopened :
  exists d w, slow_claim = [d] /\
    (delivery_state <$> row (claimed_id d) (db (store other_poll.2))) = Some sent /\
    _finalize settings d (str "denied") (str "send_failed") T1 (store other_poll.2) = (Ok tt, w) /\
    (delivery_state <$> row (claimed_id d) (db w)) = Some pending /\
    letters (claimed_id d) other_poll.2 = 1 /\
    letters (claimed_id d) (poll_once settings (T1 + HOUR) {| store := w; provider := []; handed := handed other_poll.2 |}).2 = 2.
Proof. eexists. eexists. split; [vm_compute; reflexivity|]. repeat split; vm_compute; reflexivity. Qed.

(** Bytes that are not UTF-8 raise out of [read_email_payload] instead of being
    taken for a missing payload. *)
Example undecodable_payload_raises :
  let c := {| RedisState.redis := {| Redis.keys := [(email_outbox_key 7,
                {| Redis.content := Redis.Plain [chr 255]; Redis.deadline := None |})]; Redis.time := 0 |}; RedisState.fates := [] |} in
  (read_email_payload 7 c).1 = Err UnicodeDecodeError.
Proof. vm_compute. reflexivity. Qed.

End MailScenario.
