(* ===== verification/Provisioning.v ===== *)
(** * Provisioning

    Models [nebula_api/provisioning/allocator.py] and
    [nebula_api/provisioning/service.py]: the three phases of every request (one
    transaction, the call to the VPN agent, a second transaction), over the
    database of [ApiStore].  The agent, reached over mutual TLS by
    [nebula_api/agent_client/client.py], is the interface [AgentClient]; a call
    acts on the whole world, so that what other requests do to the database
    while it is awaited is part of it. *)

From S2P Require Import Prelude PyText PyBytes IpAddress WgConfig WgDriver Usage ApiStore XrayCredential Access.
Import Db XrayCredential.

(** ** The address allocator *)

Module Allocator.

(** The first of the addresses [lo, lo + 1, ...] below [hi] that is not
    excluded; [fuel] is how many are tried. *)
Fixpoint first_free (fuel : nat) (v lo hi : Z) (excluded : list IPAddress) : option IPAddress :=
  match fuel with
  | O => None
  | S fuel' =>
      if hi <=? lo then None
      else if bool_decide (mk_address v lo ∈ excluded) then first_free fuel' v (lo + 1) hi excluded
      else Some (mk_address v lo)
  end.

(** One more candidate than there are excluded addresses is enough. *)
Definition allocate_next_address (pool : IPNetwork) (gateway : option IPAddress)
    (excluded_addresses : list IPAddress) : option IPAddress :=
  let excluded := match gateway with None => excluded_addresses | Some g => g :: excluded_addresses end in
  let '(lo, hi) := hosts_range pool in
  first_free (S (length excluded)) (net_version pool) lo hi excluded.

Definition is_host (pool : IPNetwork) (ip : Z) : Prop :=
  (hosts_range pool).1 <= ip < (hosts_range pool).2.

Lemma mk_address_inj v a b : mk_address v a = mk_address v b -> a = b.
Proof. unfold mk_address. destruct (v =? 4); congruence. Qed.

Lemma first_free_Some fuel v lo hi ex a :
  first_free fuel v lo hi ex = Some a ->
  exists ip, a = mk_address v ip /\ lo <= ip < hi /\ mk_address v ip ∉ ex /\
    forall j, lo <= j < ip -> mk_address v j ∈ ex.
Proof.
  revert lo. induction fuel as [|fuel IH]; intros lo; cbn; [done|].
  destruct (hi <=? lo) eqn:Hlo; [done|]. boolP. case_bool_decide as Hin; intros Ha.
  - destruct (IH _ Ha) as (ip & -> & Hip & Hex & Hj). exists ip. split; [done|]. split; [lia|].
    split; [done|]. intros j Hjlo. destruct (decide (j = lo)) as [->|]; [done|]. apply Hj. lia.
  - simplify_eq. exists lo. split; [done|]. split; [lia|]. split; [done|]. lia.
Qed.

(** Enough fuel: a run without a free address has used up the range, or
    would need more excluded addresses than there are. *)
Lemma first_free_None fuel v lo hi ex tried :
  NoDup tried -> Forall (fun a => a ∈ ex /\ exists j, j < lo /\ a = mk_address v j) tried ->
  (length ex < fuel + length tried)%nat ->
  first_free fuel v lo hi ex = None -> forall j, lo <= j < hi -> mk_address v j ∈ ex.
Proof.
  revert lo tried. induction fuel as [|fuel IH]; intros lo tried Hnd Htr Hlen; cbn.
  - intros _ j _. exfalso. assert (length tried <= length ex)%nat; [|lia].
    apply submseteq_length, NoDup_submseteq; [done|]. intros a Ha.
    by destruct (proj1 (Forall_forall _ _) Htr a Ha).
  - destruct (hi <=? lo) eqn:Hlo; [boolP; lia|]. boolP. case_bool_decide as Hin; [|done].
    intros Hn j Hj. destruct (decide (j = lo)) as [->|]; [done|].
    apply (IH (lo + 1) (mk_address v lo :: tried)); [| |cbn; lia|done|lia].
    + apply NoDup_cons. split; [|done]. intros Ha.
      destruct (proj1 (Forall_forall _ _) Htr _ Ha) as (_ & i & Hi & He). apply mk_address_inj in He. lia.
    + apply Forall_cons. split; [split; [done|]; exists lo; split; [lia|done]|].
      eapply Forall_impl; [exact Htr|]. intros a (? & i & ? & ->). split; [done|]. exists i. split; [lia|done].
Qed.

Definition taken (gateway : option IPAddress) (excluded : list IPAddress) (a : IPAddress) : Prop :=
  gateway = Some a \/ a ∈ excluded.

(** The allocator gives the lowest free address and only then gives up:
    what it returns is a host of the pool that is neither the gateway nor
    excluded, with every lower host taken; when it returns nothing, every
    host of the pool is taken.  The search is bounded by the number of
    excluded addresses, whatever the size of the pool. *)
Theorem allocator_first_free pool gateway excluded :
  match allocate_next_address pool gateway excluded with
  | Some a => exists ip, a = mk_address (net_version pool) ip /\ is_host pool ip /\
      ~ taken gateway excluded a /\
      forall j, (hosts_range pool).1 <= j < ip -> taken gateway excluded (mk_address (net_version pool) j)
  | None => forall j, is_host pool j -> taken gateway excluded (mk_address (net_version pool) j)
  end.
Proof.
  unfold allocate_next_address, is_host. set (ex := match gateway with None => _ | Some g => _ end).
  assert (Hex : forall a, taken gateway excluded a <-> a ∈ ex).
  { intros a. unfold taken, ex. destruct gateway; [rewrite elem_of_cons|]; naive_solver. }
  destruct (hosts_range pool) as [lo hi]. cbn [fst snd].
  destruct (first_free _ _ _ _ _) as [a|] eqn:Hf.
  - apply first_free_Some in Hf as (ip & -> & ? & ? & ?). exists ip. setoid_rewrite Hex. done.
  - intros j Hj. apply Hex. eapply (first_free_None _ _ _ _ _ []); [apply NoDup_nil_2|by constructor| |exact Hf|done].
    cbn. lia.
Qed.

End Allocator.

(** ** The service *)

Module Provisioning.
Import Allocator.

Inductive exn :=
| ProvisioningRejected | ServerUnderMaintenance | TrafficQuotaExhausted
| ProvisioningRateLimited (retry_after : Z) | OperationInProgress | XrayOperationInProgress
| ProvisioningAmbiguous | RowsDisappeared | IntegrityError | ValueError.
#[global] Instance exn_eq_dec : EqDecision exn.
Proof. solve_decision. Defined.

(** [agent_client/client.py]'s exceptions. *)
Inductive agent_error :=
| AgentUnreachable | AgentRejected (detail : text) | AgentResponseAmbiguous | AgentResponseInvalid.

(** What a request to the agent carries beside the driver's own fields. *)
Record Operation := { idem : Z; target : Z }.

Record XrayRequest := {
  client_uuid : Z;
  protocol_profile_code : text;
  x_desired_generation : Z;
}.
(** The connection details an Xray response carries to the client. *)
Record XrayDetails := {
  server_address : text; port : Z; sni : text; transport : text; transport_security : text;
  path : option text; service_name : option text; obfs_password : option text;
  port_hop : option text; reality_public_key : option text; reality_short_id : option text;
  flow : option text; protocol : text; method : option text; password : option text;
  encryption : option text;
}.
Record XrayResponse := {
  x_state : Wg.op_state;
  x_applied_generation : Z;
  x_error_code : option text;
  x_details : XrayDetails;
}.

(** The agent of each server, as the API reaches it. *)
Class AgentClient (X : Type) := {
  agent_provision : Z -> Operation -> Wg.ProvisionDeviceRequest ->
    prog (DB * X) agent_error Wg.ProvisionDeviceResponse;
  agent_revoke : Z -> Operation -> Wg.RevokeDeviceRequest -> prog (DB * X) agent_error Wg.DeviceResponse;
  agent_reconcile : Z -> Wg.ReconcileRequest -> prog (DB * X) agent_error Wg.ReconcileResponse;
  agent_provision_xray : Z -> Operation -> XrayRequest -> prog (DB * X) agent_error XrayResponse;
  agent_revoke_xray : Z -> Operation -> XrayRequest -> prog (DB * X) agent_error Wg.DeviceResponse;
  agent_reconcile_xray : Z -> XrayRequest -> prog (DB * X) agent_error Wg.ReconcileResponse;
  agent_prune_xray : Z -> list (Z * text) -> prog (DB * X) agent_error (result (option text) (Z * Z));
}.

(** ** Requirements checked in the first transaction *)

Definition require {A} (e : exn) (o : option A) : prog DB exn A := lift (of_option e o).
Definition guard (e : exn) (b : bool) : prog DB exn unit := if b then mret tt else raise e.

Definition _require_device (user dev : Z) (must_be_active : bool) : prog DB exn Device :=
  db ← get;
  d ← require ProvisioningRejected
        (scalar (fun d => (device_id d =? dev) && (device_user d =? user)) (devices db));
  guard ProvisioningRejected (negb must_be_active || bool_decide (device_state d = LifecycleState.ACTIVE));;
  mret d.

Definition _require_traffic_allowance (user : Z) : prog DB exn unit :=
  db ← get;
  match get_user user db with
  | Some u => guard TrafficQuotaExhausted (bool_decide (quota_exhausted_at u = None))
  | None => mret tt
  end.

Definition _require_profile (code : text) : prog DB exn ProtocolProfile :=
  db ← get;
  require ProvisioningRejected
    (scalar (fun p => bool_decide (profile_code p = code) &&
                      bool_decide (profile_state p = ProfileState.IMPLEMENTED)) (profiles db)).

Definition _find_server (code : text) (db : DB) : option VPNServer :=
  scalar (fun s => bool_decide (server_code s = code)) (servers db).

Definition _require_active_server (code : text) (profile : Z) :
    prog DB exn (VPNServer * ServerProtocolCapability) :=
  db ← get;
  match _find_server code db with
  | None => raise ProvisioningRejected
  | Some s =>
      match server_state s with
      | ServerState.MAINTENANCE => raise ServerUnderMaintenance
      | ServerState.DISABLED => raise ProvisioningRejected
      | ServerState.ACTIVE =>
          c ← require ProvisioningRejected
                (scalar (fun c => (cap_server c =? server_id s) && (cap_profile c =? profile))
                   (capabilities db));
          guard ProvisioningRejected (bool_decide (cap_state c = CapabilityState.ENABLED));;
          mret (s, c)
      end
  end.

Definition _require_permission (user profile now : Z) : prog DB exn unit :=
  db ← get;
  p ← require ProvisioningRejected
        (scalar (fun p => (perm_user p =? user) && (perm_profile p =? profile)) (permissions db));
  guard ProvisioningRejected (bool_decide (perm_state p = CapabilityState.ENABLED));;
  guard ProvisioningRejected (Access.unexpired now (perm_expires_at p)).

Definition _require_assignment (user server now : Z) : prog DB exn unit :=
  db ← get;
  a ← require ProvisioningRejected
        (scalar (fun a => (asg_user a =? user) && (asg_server a =? server)) (assignments db));
  guard ProvisioningRejected (bool_decide (asg_state a = LifecycleState.ACTIVE));;
  guard ProvisioningRejected (Access.unexpired now (asg_expires_at a)).

(** What [request_peer] and [request_xray_client] require first, in order. *)
Definition authorise (user dev : Z) (server profile : text) (now : Z) :
    prog DB exn (Device * ProtocolProfile * VPNServer * ServerProtocolCapability) :=
  d ← _require_device user dev true;
  _require_traffic_allowance user;;
  p ← _require_profile profile;
  '(s, c) ← _require_active_server server (profile_id p);
  _require_permission user (profile_id p) now;;
  _require_assignment user (server_id s) now;;
  mret (d, p, s, c).

(** Live rows of one server, and the cap on them. *)
Definition live_on (m : model) (server : Z) (db : DB) : list Row :=
  scalars (fun r => (row_server r =? server) && live r) (table m db).

Definition effective_limit (s : VPNServer) (c : ServerProtocolCapability) : Z :=
  match capacity_limit c with
  | None => maximum_devices s
  | Some l => Z.min (maximum_devices s) l
  end.

(** [_require_capacity] and [_require_xray_capacity]. *)
Definition _require_capacity (m : model) (s : VPNServer) (c : ServerProtocolCapability) : prog DB exn unit :=
  db ← get;
  guard ProvisioningRejected (Z.of_nat (length (live_on m (server_id s) db)) <? effective_limit s c).

Definition _allocate_address (s : VPNServer) : prog DB exn IPAddress :=
  db ← get;
  pool ← require ProvisioningRejected (wireguard_client_pool s);
  require ProvisioningRejected
    (allocate_next_address pool (wireguard_gateway_address s)
       (omap assigned_address (live_on WireGuardPeer (server_id s) db))).

(** ** Rows written by the first transaction *)

Definition add_credential (c : DeviceProtocolCredential) : prog DB exn unit :=
  modify (fun db => with_credentials (credentials db ++ [c]) db).
Definition add_row (m : model) (r : Row) : prog DB exn unit :=
  modify (fun db => with_table m (table m db ++ [r]) db).
Definition add_operation (o : AgentOperation) : prog DB exn unit :=
  modify (fun db => with_operations (operations db ++ [o]) db).

Definition new_credential (id dev profile server : Z) (k : cred_kind) (env : option Envelope) :
    DeviceProtocolCredential :=
  {| cred_id := id; cred_device := dev; cred_profile := profile; cred_server := server; kind := k;
     cred_state := ProvisioningState.REQUESTED; envelope := env; key_material_lost_at := None;
     cred_revoked_at := None |}.
Definition new_peer_row (id cid dev profile server : Z) (c : payload) (now : Z) : Row :=
  {| row_id := id; credential_id := cid; row_device := dev; row_profile := profile;
     row_server := server; columns := c; state := ProvisioningState.APPLYING; applied_generation := 0;
     applied_at := None; revoked_at := None; updated_at := now |}.
Definition new_operation (id server key : Z) (k : operation_kind) (tk : target_kind) (t g attempts : Z) :
    AgentOperation :=
  {| op_id := id; op_server := server; idempotency_key := key; op_kind := k; op_target_kind := tk;
     op_target_id := t; op_state := OperationState.RUNNING; op_desired_generation := g;
     attempt_count := attempts; finished_at := None; op_error_code := None |}.

(** What the first transaction hands to the other two phases. *)
Record Started := {
  st_server : Z;
  st_row : Z;
  st_credential : Z;
  st_operation : Z;
  st_key : Z;
  st_generation : Z;
}.

(** The operation row of a started request. *)
Definition start_operation (m : model) (k : operation_kind) (server row cred g : Z) : prog DB exn Started :=
  oid ← uuid4;
  key ← uuid4;
  add_operation (new_operation oid server key k (kind_of m) row g 0);;
  mret {| st_server := server; st_row := row; st_credential := cred; st_operation := oid;
          st_key := key; st_generation := g |}.

(** [request_peer] up to its first commit. *)
Definition begin_peer (user dev : Z) (server profile key : text) (now : Z) :
    prog DB exn (Started * IPAddress * bool) :=
  transaction IntegrityError (
    '(d, p, s, c) ← authorise user dev server profile now;
    db ← get;
    match scalar (fun r => (row_device r =? device_id d) && (row_server r =? server_id s) && live r)
            (wireguard_peers db) with
    | Some r =>
        guard OperationInProgress (bool_decide (state r = ProvisioningState.ACTIVE));;
        cred ← require ProvisioningRejected (get_credential (credential_id r) db);
        address ← require ProvisioningRejected (assigned_address r);
        (* [fk_wireguard_peers_credential_identity] includes the profile and is
           checked after each UPDATE, and peer and credential take two. *)
        guard IntegrityError (cred_profile cred =? profile_id p);;
        modify (settle WireGuardPeer (db_now db) (row_id r) (cred_id cred)
          (fun r => set_state ProvisioningState.APPLYING
                      (set_columns (WireGuardColumns key address) (profile_id p) r))
          (fun c => set_cred_state ProvisioningState.APPLYING (set_cred_profile (profile_id p) c)));;
        st ← start_operation WireGuardPeer provision_device (server_id s) (row_id r) (cred_id cred)
               (applied_generation r + 1);
        mret (st, address, ad_block p)
    | None =>
        _require_capacity WireGuardPeer s c;;
        address ← _allocate_address s;
        cid ← uuid4;
        add_credential (new_credential cid (device_id d) (profile_id p) (server_id s) wireguard_public None);;
        rid ← uuid4;
        add_row WireGuardPeer (new_peer_row rid cid (device_id d) (profile_id p) (server_id s)
                                 (WireGuardColumns key address) (db_now db));;
        st ← start_operation WireGuardPeer provision_device (server_id s) rid cid 1;
        mret (st, address, ad_block p)
    end).

(** [revoke_peer] and [revoke_xray_client] share this lookup. *)
Definition begin_revoke (m : model) (busy : exn) (server_id_ : Z) (mine : Row -> bool) :
    prog DB exn (Row * DeviceProtocolCredential) :=
  db ← get;
  r ← require ProvisioningRejected
        (scalar (fun r => mine r && (row_server r =? server_id_) && live r) (table m db));
  guard busy (bool_decide (state r = ProvisioningState.ACTIVE));;
  cred ← require ProvisioningRejected (get_credential (credential_id r) db);
  mret (r, cred).

Definition mark_revoking (m : model) (r : Row) (cred : DeviceProtocolCredential) : prog DB exn unit :=
  db ← get;
  modify (settle m (db_now db) (row_id r) (cred_id cred) (set_state ProvisioningState.REVOKING)
            (set_cred_state ProvisioningState.REVOKING)).

Definition begin_revoke_peer (user dev : Z) (server : text) : prog DB exn (Started * text) :=
  transaction IntegrityError (
    d ← _require_device user dev false;
    db ← get;
    s ← require ProvisioningRejected (_find_server server db);
    '(r, cred) ← begin_revoke WireGuardPeer OperationInProgress (server_id s)
                   (fun r => row_device r =? device_id d);
    mark_revoking WireGuardPeer r cred;;
    st ← start_operation WireGuardPeer revoke_device (server_id s) (row_id r) (cred_id cred)
           (applied_generation r);
    mret (st, default [] (public_key r))).

(** ** The last transaction *)

Definition _lock_triple (m : model) (st : Started) : prog DB exn (Row * DeviceProtocolCredential * AgentOperation) :=
  db ← get;
  match get_row m (st_row st) db, get_credential (st_credential st) db, get_operation (st_operation st) db with
  | Some r, Some c, Some o => mret (r, c, o)
  | _, _, _ => raise RowsDisappeared
  end.

Definition state_name (s : ProvisioningState.t) : text :=
  match s with
  | ProvisioningState.REQUESTED => str "requested" | ProvisioningState.APPLYING => str "applying"
  | ProvisioningState.ACTIVE => str "active" | ProvisioningState.REVOKING => str "revoking"
  | ProvisioningState.REVOKED => str "revoked" | ProvisioningState.FAILED => str "failed"
  end.

Definition user_event (user : Z) (k : target_kind) (t : Z) (code_ out reason : text) : AuditLog :=
  {| actor := by_user user; ev_target_kind := k; ev_target_id := t; event_code := code_; outcome := out;
     reason_code := Some reason |}.

Definition _audit_transition (m : model) (st : Started) (user : Z) (out reason : text) : prog DB exn unit :=
  modify (add_audit_event (user_event user device_credential (st_credential st)
                             (str "credential_changed") out reason));;
  modify (add_audit_event (user_event user (kind_of m) (st_row st) (str "peer_changed") out reason));;
  modify (add_audit_event (user_event user agent_operation (st_operation st)
                             (str "operation_changed") out out)).

(** The three ways a request ends. *)
Definition finalize (m : model) (st : Started) (user now : Z) (f : Row -> Row)
    (g : DeviceProtocolCredential -> DeviceProtocolCredential) (os : OperationState.t)
    (err : option (option text)) (out reason : text) : prog DB exn unit :=
  transaction IntegrityError (
    _lock_triple m st;;
    db ← get;
    modify (settle m (db_now db) (st_row st) (st_credential st) f g);;
    modify (update_operation (st_operation st) (finish_op os now err));;
    _audit_transition m st user out reason).

Definition _finalize_provision_success (m : model) (st : Started) (user now generation : Z) :
    prog DB exn unit :=
  finalize m st user now
    (fun r => set_applied generation now (set_state ProvisioningState.ACTIVE r))
    (set_cred_state ProvisioningState.ACTIVE) OperationState.SUCCEEDED None
    (str "succeeded") (str "activated").

Definition _finalize_revoke_success (m : model) (st : Started) (user now : Z) : prog DB exn unit :=
  finalize m st user now
    (fun r => set_revoked_at now (set_state ProvisioningState.REVOKED r))
    (fun c => set_cred_revoked_at now (set_cred_state ProvisioningState.REVOKED c))
    OperationState.SUCCEEDED None (str "succeeded") (str "revoked").

Definition _finalize_failure (m : model) (st : Started) (user now : Z) (error_code : text)
    (removal_pending : bool) : prog DB exn unit :=
  let pending := if removal_pending then ProvisioningState.REVOKING else ProvisioningState.FAILED in
  finalize m st user now (set_state pending) (set_cred_state pending) OperationState.FAILED
    (Some (Some error_code)) (str "failed") (state_name pending).

(** Their siblings for Xray clients. *)
Definition _finalize_xray_provision_success := _finalize_provision_success XrayClient.
Definition _finalize_xray_revoke_success := _finalize_revoke_success XrayClient.
Definition _finalize_xray_failure := _finalize_failure XrayClient.
Definition _require_xray_capacity := _require_capacity XrayClient.
Definition _lock_xray_triple := _lock_triple XrayClient.

(** ** Error codes *)

Definition lower (c : ascii) : ascii :=
  if (65 <=? code c) && (code c <=? 90) then chr (code c + 32) else c.
Definition code_char (c : ascii) : bool :=
  ((97 <=? code c) && (code c <=? 122)) || ((48 <=? code c) && (code c <=? 57)) ||
  (code c =? 95) || (code c =? 46) || (code c =? 45).
Definition is_edge (c : ascii) : bool := (code c =? 95) || (code c =? 46) || (code c =? 45).
Fixpoint lstrip_edges (t : text) : text :=
  match t with c :: r => if is_edge c then lstrip_edges r else t | [] => [] end.
Definition strip_edges (t : text) : text := reverse (lstrip_edges (reverse (lstrip_edges t))).

Definition _agent_error_code (e : agent_error) : text :=
  match e with
  | AgentRejected detail =>
      let slug := (fun c => if code_char c then c else "_"%char) <$> (lower <$> strip detail) in
      let slug := take 64 (strip_edges slug) in
      match slug with [] => str "agent_error" | _ => slug end
  | _ => str "agent_unreachable"
  end.

Definition or_agent_rejected (e : option text) : text :=
  match e with None | Some [] => str "agent_rejected" | Some c => c end.

(** ** The requests *)

Record RequestPeerResult := {
  peer_id : Z;
  r_assigned_address : IPAddress;
  r_settings : Wg.Common;
}.
Record RequestXrayClientResult := {
  client_id : Z;
  uuid : Z;
  details : XrayDetails;
  r_ad_block : bool;
}.

Definition _AD_BLOCK_DNS_SERVER : text := str "94.140.14.14".

(** [client_dns] is the ad-blocking resolver for an ad-block profile. *)
Definition client_settings (ad_block_ : bool) (c : Wg.Common) : Wg.Common :=
  {| Wg.server_public_key := Wg.server_public_key c; Wg.c_listen_port := Wg.c_listen_port c;
     Wg.public_endpoint := Wg.public_endpoint c;
     Wg.client_dns := if ad_block_ then _AD_BLOCK_DNS_SERVER else Wg.client_dns c;
     Wg.client_allowed_ips := Wg.client_allowed_ips c; Wg.c_keepalive := Wg.c_keepalive c |}.

Section Requests.
Context {X : Type} `{AgentClient X} `{AEAD}.
(** Redis decides whether a request is within its rate; the settings say
    for how long a refused client should wait. *)
Context (rate_limit : Z -> text -> prog (DB * X) exn bool) (auth_rate_window_seconds : Z).
(** The key ring and the version new credentials are encrypted under. *)
Context (ring : list (Z * text)) (xray_key_version : Z).

Abbreviation world := (DB * X)%type.

Definition in_db {A} (m : prog DB exn A) : prog world exn A := fun '(db, x) =>
  let '(r, db') := m db in (r, (db', x)).

Definition try_agent {A} (m : prog world agent_error A) : prog world exn (A + agent_error) := fun w =>
  match m w with
  | (Ok a, w') => (Ok (inl a), w')
  | (Err e, w') => (Ok (inr e), w')
  end.

Definition _require_rate_limit (user : Z) (network : text) : prog world exn unit :=
  allowed ← rate_limit user network;
  if (allowed : bool) then mret tt
  else
    in_db (transaction IntegrityError (modify (add_audit_event
      {| actor := by_user user; ev_target_kind := user_target; ev_target_id := user;
         event_code := str "auth_rate_limited"; outcome := str "denied";
         reason_code := Some (str "rate_limited") |})));;
    raise (ProvisioningRateLimited auth_rate_window_seconds).

(** The agent's answer, after which a request that failed is finalized
    ([removal_pending] for a revocation) and refused. *)
Definition settle_answer {A B} (m : model) (st : Started) (user now : Z) (removal_pending : bool)
    (failed_code : A -> option text) (answer : A + agent_error) (ok : A -> prog world exn B) :
    prog world exn B :=
  match answer with
  | inr AgentResponseAmbiguous | inr AgentResponseInvalid => raise ProvisioningAmbiguous
  | inr e =>
      in_db (_finalize_failure m st user now (_agent_error_code e) removal_pending);;
      raise ProvisioningRejected
  | inl resp =>
      match failed_code resp with
      | Some code_ =>
          in_db (_finalize_failure m st user now code_ removal_pending);; raise ProvisioningRejected
      | None => ok resp
      end
  end.

Definition provision_failed (r : Wg.ProvisionDeviceResponse) : option text :=
  if bool_decide (Wg.p_state r = Wg.failed) then Some (or_agent_rejected (Wg.p_error_code r)) else None.
Definition device_failed (r : Wg.DeviceResponse) : option text :=
  if bool_decide (Wg.o_state r = Wg.failed) then Some (or_agent_rejected (Wg.o_error_code r)) else None.
Definition xray_failed (r : XrayResponse) : option text :=
  if bool_decide (x_state r = Wg.failed) then Some (or_agent_rejected (x_error_code r)) else None.

Definition request_peer (user dev : Z) (server profile key network : text) (now later : Z) :
    prog world exn RequestPeerResult :=
  if negb (WgConfig.valid_public_key key) then raise ProvisioningRejected
  else
    _require_rate_limit user network;;
    '(st, address, ad) ← in_db (begin_peer user dev server profile key now);
    answer ← try_agent (agent_provision (st_server st) {| idem := st_key st; target := st_row st |}
               {| Wg.p_public_key := key; Wg.p_assigned_address := address;
                  Wg.p_desired_generation := st_generation st; Wg.p_keepalive := None |});
    settle_answer WireGuardPeer st user later false provision_failed answer (fun resp =>
      in_db (_finalize_provision_success WireGuardPeer st user later (Wg.p_applied_generation resp));;
      mret {| peer_id := st_row st; r_assigned_address := address;
              r_settings := client_settings ad (Wg.p_common resp) |}).

Definition revoke_peer (user dev : Z) (server network : text) (later : Z) : prog world exn Z :=
  _require_rate_limit user network;;
  '(st, key) ← in_db (begin_revoke_peer user dev server);
  answer ← try_agent (agent_revoke (st_server st) {| idem := st_key st; target := st_row st |}
             {| Wg.r_public_key := key; Wg.r_desired_generation := st_generation st |});
  settle_answer WireGuardPeer st user later true device_failed answer (fun _ =>
    in_db (_finalize_revoke_success WireGuardPeer st user later);; mret (st_row st)).

(** [profile.agent_profile_code or profile.code] *)
Definition agent_code (p : ProtocolProfile) : text :=
  match agent_profile_code p with None | Some [] => profile_code p | Some c => c end.

(** [request_xray_client] up to its first commit; [random] and [label] are
    what the random sources return. *)
Definition begin_xray (user dev : Z) (server profile : text) (now : Z) (random label : text) :
    prog DB exn (Started * Z * ProtocolProfile) :=
  transaction IntegrityError (
    '(d, p, s, c) ← authorise user dev server profile now;
    db ← get;
    match scalar (fun r => (row_device r =? device_id d) && (row_profile r =? profile_id p) &&
                           (row_server r =? server_id s) && live r) (xray_clients db) with
    | Some r =>
        guard XrayOperationInProgress (bool_decide (state r = ProvisioningState.ACTIVE));;
        cred ← require ProvisioningRejected (get_credential (credential_id r) db);
        u ← require ProvisioningRejected (client_uuid_of ring cred);
        modify (settle XrayClient (db_now db) (row_id r) (cred_id cred)
                  (set_state ProvisioningState.APPLYING) (set_cred_state ProvisioningState.APPLYING));;
        st ← start_operation XrayClient provision_device (server_id s) (row_id r) (cred_id cred)
               (applied_generation r + 1);
        mret (st, u, p)
    | None =>
        _require_capacity XrayClient s c;;
        u ← uuid4;
        cid ← uuid4;
        match encrypt_xray_credential u (device_id d) cid xray_key_version ring random with
        | Err _ => raise ValueError
        | Ok env =>
            add_credential (new_credential cid (device_id d) (profile_id p) (server_id s) xray_bearer
                              (Some env));;
            rid ← uuid4;
            add_row XrayClient (new_peer_row rid cid (device_id d) (profile_id p) (server_id s)
                                  (XrayColumns label) (db_now db));;
            st ← start_operation XrayClient provision_device (server_id s) rid cid 1;
            mret (st, u, p)
        end
    end).

Definition request_xray_client (user dev : Z) (server profile network : text) (now later : Z)
    (random label : text) : prog world exn RequestXrayClientResult :=
  _require_rate_limit user network;;
  '(st, u, p) ← in_db (begin_xray user dev server profile now random label);
  answer ← try_agent (agent_provision_xray (st_server st) {| idem := st_key st; target := st_row st |}
             {| client_uuid := u; protocol_profile_code := agent_code p;
                x_desired_generation := st_generation st |});
  settle_answer XrayClient st user later false xray_failed answer (fun resp =>
    in_db (_finalize_provision_success XrayClient st user later (x_applied_generation resp));;
    mret {| client_id := st_row st; uuid := u; details := x_details resp; r_ad_block := ad_block p |}).

Definition begin_revoke_xray (user dev : Z) (server profile : text) :
    prog DB exn (Started * Z * ProtocolProfile) :=
  transaction IntegrityError (
    d ← _require_device user dev false;
    db ← get;
    s ← require ProvisioningRejected (_find_server server db);
    p ← _require_profile profile;
    '(r, cred) ← begin_revoke XrayClient XrayOperationInProgress (server_id s)
                   (fun r => (row_device r =? device_id d) && (row_profile r =? profile_id p));
    u ← require ProvisioningRejected (client_uuid_of ring cred);
    mark_revoking XrayClient r cred;;
    st ← start_operation XrayClient revoke_device (server_id s) (row_id r) (cred_id cred)
           (applied_generation r);
    mret (st, u, p)).

Definition revoke_xray_client (user dev : Z) (server profile network : text) (later : Z) :
    prog world exn Z :=
  _require_rate_limit user network;;
  '(st, u, p) ← in_db (begin_revoke_xray user dev server profile);
  answer ← try_agent (agent_revoke_xray (st_server st) {| idem := st_key st; target := st_row st |}
             {| client_uuid := u; protocol_profile_code := agent_code p;
                x_desired_generation := st_generation st |});
  settle_answer XrayClient st user later true device_failed answer (fun _ =>
    in_db (_finalize_revoke_success XrayClient st user later);; mret (st_row st)).
End Requests.

(** ** Lemmas: what a step that returned has checked *)

Lemma guard_ok e b db x db' : guard e b db = (Ok x, db') -> b = true /\ db' = db.
Proof. unfold guard. destruct b; [|done]. unfold mret, prog_ret. by intros [= <- <-]. Qed.

Lemma require_ok {A} e (o : option A) db a db' : require e o db = (Ok a, db') -> o = Some a /\ db' = db.
Proof. unfold require, lift, of_option. destruct o; [|done]. by intros [= <- <-]. Qed.

Lemma get_ok {St E} (s a s' : St) : @get St E s = (Ok a, s') -> a = s /\ s' = s.
Proof. by intros [= <- <-]. Qed.

Lemma mret_ok {St E A} (a b : A) (s s' : St) : @mret (prog St E) _ A a s = (Ok b, s') -> b = a /\ s' = s.
Proof. by intros [= <- <-]. Qed.

Lemma transaction_ok {A} e (body : prog DB exn A) db a db' :
  transaction e body db = (Ok a, db') -> body db = (Ok a, db') /\ constraints db' = true.
Proof.
  unfold transaction. destruct (body db) as [[x|x] d]; [|done].
  destruct (constraints d) eqn:Hc; [|done]. by intros [= <- <-].
Qed.

(** Take a successful run apart. *)
Ltac run_inv :=
  repeat match goal with
  | H : transaction _ _ _ = (Ok _, _) |- _ => apply transaction_ok in H as [H ?]
  | H : (_ ≫= _) _ = (Ok _, _) |- _ => apply bind_ok_inv in H as (? & ? & ? & H)
  | H : guard _ _ _ = (Ok _, _) |- _ => apply guard_ok in H as [? ->]
  | H : require _ _ _ = (Ok _, _) |- _ => apply require_ok in H as [? ->]
  | H : get _ = (Ok _, _) |- _ => apply get_ok in H as [-> ->]
  | H : mret _ _ = (Ok _, _) |- _ => apply mret_ok in H as [H ->]; simplify_eq
  | H : raise _ _ = (Ok _, _) |- _ => discriminate H
  | H : (let '(_, _) := ?p in _) _ = (Ok _, _) |- _ => destruct p
  end.

Ltac rows_inv :=
  repeat match goal with
  | H : scalar _ _ = Some _ |- _ => apply scalar_Some in H as [? ?]
  | H : _find_server _ _ = Some _ |- _ => apply scalar_Some in H as [? ?]
  end; boolP.

Definition authorised (user dev : Z) (server profile : text) (now : Z) (db : DB)
    (d : Device) (p : ProtocolProfile) (s : VPNServer) (c : ServerProtocolCapability) : Prop :=
  (d ∈ devices db /\ device_id d = dev /\ device_user d = user /\ device_state d = LifecycleState.ACTIVE) /\
  (forall u, get_user user db = Some u -> quota_exhausted_at u = None) /\
  (p ∈ profiles db /\ profile_code p = profile /\ profile_state p = ProfileState.IMPLEMENTED) /\
  (s ∈ servers db /\ server_code s = server /\ server_state s = ServerState.ACTIVE) /\
  (c ∈ capabilities db /\ cap_server c = server_id s /\ cap_profile c = profile_id p /\
     cap_state c = CapabilityState.ENABLED) /\
  Access.has_permission user (profile_id p) now db = true /\
  Access.has_assignment user (server_id s) now db = true.

Lemma require_device_ok user dev b db d db' :
  _require_device user dev b db = (Ok d, db') ->
  db' = db /\ d ∈ devices db /\ device_id d = dev /\ device_user d = user /\
  (b = true -> device_state d = LifecycleState.ACTIVE).
Proof.
  unfold _require_device. intros Hr. run_inv. rows_inv.
  repeat split; try done. intros ->. cbn in *. by boolP.
Qed.

Lemma require_allowance_ok user db x db' :
  _require_traffic_allowance user db = (Ok x, db') ->
  db' = db /\ forall u, get_user user db = Some u -> quota_exhausted_at u = None.
Proof.
  unfold _require_traffic_allowance. intros Hr. run_inv. destruct (get_user user db) as [u|]; run_inv; [|done].
  boolP. split; [done|]. by intros ? [= <-].
Qed.

Lemma require_profile_ok code_ db p db' :
  _require_profile code_ db = (Ok p, db') ->
  db' = db /\ p ∈ profiles db /\ profile_code p = code_ /\ profile_state p = ProfileState.IMPLEMENTED.
Proof. unfold _require_profile. intros Hr. run_inv. by rows_inv. Qed.

Lemma require_permission_ok user profile now db x db' :
  _require_permission user profile now db = (Ok x, db') ->
  db' = db /\ Access.has_permission user profile now db = true.
Proof.
  unfold _require_permission. intros Hr. run_inv. split; [done|].
  match goal with H : scalar _ _ = Some _ |- _ => apply scalar_Some in H as [Hin Hw] end.
  unfold Access.has_permission. apply existsb_exists.
  eexists. split; [by apply list_elem_of_In|]. rewrite Hw. by apply andb_true_iff.
Qed.

Lemma require_assignment_ok user server now db x db' :
  _require_assignment user server now db = (Ok x, db') ->
  db' = db /\ Access.has_assignment user server now db = true.
Proof.
  unfold _require_assignment. intros Hr. run_inv. split; [done|].
  match goal with H : scalar _ _ = Some _ |- _ => apply scalar_Some in H as [Hin Hw] end.
  unfold Access.has_assignment. apply existsb_exists.
  eexists. split; [by apply list_elem_of_In|]. rewrite Hw. by apply andb_true_iff.
Qed.

Lemma require_server_ok code_ profile db s c db' :
  _require_active_server code_ profile db = (Ok (s, c), db') ->
  db' = db /\ (s ∈ servers db /\ server_code s = code_ /\ server_state s = ServerState.ACTIVE) /\
  (c ∈ capabilities db /\ cap_server c = server_id s /\ cap_profile c = profile /\
     cap_state c = CapabilityState.ENABLED).
Proof.
  unfold _require_active_server. intros Hr. run_inv.
  destruct (_find_server code_ db) as [s0|] eqn:Hs; [|run_inv].
  destruct (server_state s0) eqn:Hst; run_inv. by rows_inv.
Qed.

Lemma authorise_ok user dev server profile now db d p s c db' :
  authorise user dev server profile now db = (Ok (d, p, s, c), db') ->
  db' = db /\ authorised user dev server profile now db d p s c.
Proof.
  unfold authorise. intros Hr. run_inv.
  repeat match goal with
  | H : _require_device _ _ _ _ = _ |- _ => apply require_device_ok in H as (-> & ? & ? & ? & Hst)
  | H : _require_traffic_allowance _ _ = _ |- _ => apply require_allowance_ok in H as [-> ?]
  | H : _require_profile _ _ = _ |- _ => apply require_profile_ok in H as (-> & ?)
  | H : _require_active_server _ _ _ = _ |- _ => apply require_server_ok in H as (-> & ? & ?)
  | H : _require_permission _ _ _ _ = _ |- _ => apply require_permission_ok in H as [-> ?]
  | H : _require_assignment _ _ _ _ = _ |- _ => apply require_assignment_ok in H as [-> ?]
  end.
  simplify_eq. split; [done|]. specialize (Hst eq_refl). unfold authorised. tauto.
Qed.

Lemma start_operation_eq m k server row cred g db :
  start_operation m k server row cred g db =
    (Ok {| st_server := server; st_row := row; st_credential := cred; st_operation := next_id db;
           st_key := next_id db + 1; st_generation := g |},
     add_op (new_operation (next_id db) server (next_id db + 1) k (kind_of m) row g 0) db).
Proof.
  unfold start_operation, add_op. replace (next_id db + 2) with (next_id db + 1 + 1) by lia. reflexivity.
Qed.

(** A first transaction that succeeded left a new row or moved an active one
    to applying, with its operation running. *)
Inductive peer_started (d : Device) (p : ProtocolProfile) (s : VPNServer) (c : ServerProtocolCapability)
    (key : text) (now : Z) (db db' : DB) (st : Started) (a : IPAddress) : Prop :=
| started_again r cred :
    r ∈ wireguard_peers db -> row_device r = device_id d -> row_server r = server_id s ->
    state r = ProvisioningState.ACTIVE -> assigned_address r = Some a ->
    get_credential (credential_id r) db = Some cred ->
    st_row st = row_id r -> st_credential st = credential_id r ->
    st_generation st = applied_generation r + 1 ->
    db' = add_op (new_operation (next_id db) (server_id s) (next_id db + 1) provision_device
                    wireguard_peer (row_id r) (applied_generation r + 1) 0)
            (settle WireGuardPeer now (row_id r) (credential_id r)
               (fun r => set_state ProvisioningState.APPLYING
                           (set_columns (WireGuardColumns key a) (profile_id p) r))
               (fun c => set_cred_state ProvisioningState.APPLYING (set_cred_profile (profile_id p) c)) db) ->
    peer_started d p s c key now db db' st a
| started_new :
    Forall (fun r => row_device r = device_id d -> row_server r = server_id s -> live r = false)
      (wireguard_peers db) ->
    Z.of_nat (length (live_on WireGuardPeer (server_id s) db)) < effective_limit s c ->
    (exists pool, wireguard_client_pool s = Some pool /\
       allocate_next_address pool (wireguard_gateway_address s)
         (omap assigned_address (live_on WireGuardPeer (server_id s) db)) = Some a) ->
    st_row st = next_id db + 1 -> st_credential st = next_id db -> st_generation st = 1 ->
    db' = add_op (new_operation (next_id db + 2) (server_id s) (next_id db + 3) provision_device
                    wireguard_peer (next_id db + 1) 1 0)
            (add_pair WireGuardPeer
               (new_credential (next_id db) (device_id d) (profile_id p) (server_id s) wireguard_public None)
               (new_peer_row (next_id db + 1) (next_id db) (device_id d) (profile_id p) (server_id s)
                  (WireGuardColumns key a) now) db) ->
    peer_started d p s c key now db db' st a.

Lemma begin_peer_started user dev server profile key now db st a ad db' :
  begin_peer user dev server profile key now db = (Ok (st, a, ad), db') ->
  exists d p s c, authorised user dev server profile now db d p s c /\ ad = ad_block p /\
    st_server st = server_id s /\ constraints db' = true /\
    peer_started d p s c key (db_now db) db db' st a /\
    st_operation st = next_id db' - 2 /\ st_key st = next_id db' - 1.
Proof.
  unfold begin_peer. intros Hr. apply transaction_ok in Hr as [Hr Hcs].
  apply bind_ok_inv in Hr as ([[[d p] s] c] & db1 & Hauth & Hr).
  apply authorise_ok in Hauth as [-> Hauth]. exists d, p, s, c.
  apply bind_ok_inv in Hr as (? & ? & Hg & Hr). apply get_ok in Hg as [-> ->].
  destruct (scalar _ (wireguard_peers db)) as [r|] eqn:Hs.
  - run_inv. unfold modify in *. simplify_eq. rewrite start_operation_eq in *. simplify_eq. rows_inv.
    match goal with H : get_credential _ db = Some ?c |- _ => rename H into Hc; rename c into cred end.
    assert (cred_id cred = credential_id r) as Hcid by (apply scalar_Some in Hc as [_ ?]; by boolP).
    split; [done|]. split; [done|]. split; [done|]. split; [done|].
    split; [eapply started_again; try done; by rewrite Hcid|]. cbn. lia.
  - apply scalar_None in Hs. unfold _require_capacity, _allocate_address in Hr. run_inv.
    unfold add_credential, add_row, modify, uuid4 in *. simplify_eq.
    rewrite start_operation_eq in *. simplify_eq. boolP.
    split; [done|]. split; [done|]. split; [done|]. split; [done|].
    split; [eapply started_new; try done|cbn; lia].
    + eapply Forall_impl; [exact Hs|]. intros r Hr Hd Hsv. cbn in Hr.
      rewrite Hd, Hsv, !Z.eqb_refl in Hr. done.
    + eauto.
    + unfold add_pair, add_op. cbn. replace (next_id db + 1 + 1) with (next_id db + 2) by lia.
      replace (next_id db + 2 + 1) with (next_id db + 3) by lia. done.
Qed.

(** ** The first transaction *)

(** The rows of a started request, as the last transaction finds them. *)
Definition in_flight (m : model) (db : DB) (st : Started) (s : ProvisioningState.t) (r : Row) : Prop :=
  get_row m (st_row st) db = Some r /\ credential_id r = st_credential st /\ state r = s /\
  row_server r = st_server st /\
  exists o, get_operation (st_operation st) db = Some o /\ op_state o = OperationState.RUNNING /\
    idempotency_key o = st_key st /\ op_target_id o = st_row st /\ op_target_kind o = kind_of m.

Lemma get_operation_add o db :
  wf_core db -> op_id o = next_id db -> get_operation (next_id db) (add_op o db) = Some o.
Proof.
  intros Hwf Ho. destruct (wf_fresh_parts _ Hwf) as (_ & _ & F3). unfold get_operation. cbn.
  rewrite scalar_app_None by (by apply scalar_fresh). cbn. by rewrite Ho, Z.eqb_refl.
Qed.

Lemma get_row_add_pair m c r db :
  wf_core db -> row_id r = next_id db + 1 -> get_row m (next_id db + 1) (add_pair m c r db) = Some r.
Proof.
  intros Hwf Hr. destruct (wf_fresh_parts _ Hwf) as (F1 & _ & _). unfold get_row.
  assert (Ht : table m (add_pair m c r db) = table m db ++ [r]) by (by destruct m).
  rewrite Ht, scalar_app_None; [cbn; by rewrite Hr, Z.eqb_refl|].
  apply scalar_fresh. apply Forall_fmap, Forall_forall. intros r0 Hr0. cbn.
  apply table_all_rows in Hr0. apply Forall_fmap in F1. rewrite Forall_forall in F1.
  specialize (F1 r0 Hr0). cbn in F1. lia.
Qed.

Lemma peer_started_wf d p s c key db db' st a :
  db_wf db -> constraints db' = true -> peer_started d p s c key (db_now db) db db' st a ->
  st_server st = server_id s -> st_operation st = next_id db' - 2 -> st_key st = next_id db' - 1 ->
  db_wf db' /\ exists r, in_flight WireGuardPeer db' st ProvisioningState.APPLYING r /\
    columns r = WireGuardColumns key a /\ row_device r = device_id d /\ row_profile r = profile_id p.
Proof.
  intros Hwf Hcs Hst Hsrv Hop Hkey. destruct Hst as
    [r cred Hin Hd Hs Hact Ha Hc Hrow Hcid Hg ->|_ _ _ Hrow Hcid Hg ->].
  - assert (Hget : get_row WireGuardPeer (row_id r) db = Some r) by (apply get_row_wf; [apply Hwf|done]).
    assert (Hcore : wf_core (settle WireGuardPeer (db_now db) (row_id r) (credential_id r)
      (fun r => set_state ProvisioningState.APPLYING (set_columns (WireGuardColumns key a) (profile_id p) r))
      (fun c => set_cred_state ProvisioningState.APPLYING (set_cred_profile (profile_id p) c)) db)).
    { eapply settle_core; try done. apply Hwf. }
    split; [split; [by apply add_op_core|done]|].
    exists (touch (db_now db) (set_state ProvisioningState.APPLYING
              (set_columns (WireGuardColumns key a) (profile_id p) r))).
    split; [|done]. split_and!; try done.
    + rewrite Hrow.
      change (get_row WireGuardPeer (row_id r) (settle WireGuardPeer (db_now db) (row_id r) (credential_id r)
        (fun r => set_state ProvisioningState.APPLYING (set_columns (WireGuardColumns key a) (profile_id p) r))
        (fun c => set_cred_state ProvisioningState.APPLYING (set_cred_profile (profile_id p) c)) db) = Some
        (touch (db_now db) (set_state ProvisioningState.APPLYING
              (set_columns (WireGuardColumns key a) (profile_id p) r)))).
      rewrite get_row_settle by done. by rewrite bool_decide_eq_true_2, Z.eqb_refl, Hget.
    + cbn. congruence.
    + eexists. cbn in Hop, Hkey. replace (st_operation st) with (next_id db) by lia.
      split; [apply (get_operation_add _ (settle WireGuardPeer (db_now db) _ _ _ _ db)); [exact Hcore|done]|].
      cbn. split_and!; done || lia || congruence.
  - assert (Hcore : wf_core (add_pair WireGuardPeer
      (new_credential (next_id db) (device_id d) (profile_id p) (server_id s) wireguard_public None)
      (new_peer_row (next_id db + 1) (next_id db) (device_id d) (profile_id p) (server_id s)
         (WireGuardColumns key a) (db_now db)) db)) by (apply add_pair_core; done || apply Hwf).
    split; [split; [by apply add_op_core|done]|].
    exists (new_peer_row (next_id db + 1) (next_id db) (device_id d) (profile_id p) (server_id s)
              (WireGuardColumns key a) (db_now db)). split; [split_and!|done].
    + rewrite Hrow. apply (get_row_add_pair WireGuardPeer); [apply Hwf|done].
    + done.
    + done.
    + done.
    + eexists. cbn in Hop, Hkey. replace (st_operation st) with (next_id db + 2) by lia.
      split; [apply (get_operation_add _ (add_pair WireGuardPeer _ _ db)); done|].
      cbn. split_and!; done || lia || congruence.
Qed.

(** Live rows are counted once each. *)
Lemma live_on_settle m now id f g db r server :
  get_row m id db = Some r -> NoDup (row_id <$> table m db) ->
  row_server (f r) = row_server r -> live (f r) = live r ->
  length (live_on m server (settle m now id (credential_id r) f g db)) = length (live_on m server db).
Proof.
  intros Hr Hnd Hs Hl. apply get_row_elem in Hr as [Hin Hid].
  assert (Ht : table m (settle m now id (credential_id r) f g db) =
               update row_id id (fun r => touch now (f r)) (table m db)) by (by destruct m).
  unfold live_on. rewrite Ht. unfold update.
  assert (Hx : forall r0, r0 ∈ table m db ->
    ((row_server (if row_id r0 =? id then touch now (f r0) else r0) =? server) &&
       live (if row_id r0 =? id then touch now (f r0) else r0)) = ((row_server r0 =? server) && live r0)).
  { intros r0 Hr0. destruct (row_id r0 =? id) eqn:He; [|done]. boolP.
    assert (r0 = r) as -> by (apply (same_id row_id (table m db)); [done..|congruence]).
    unfold live in *. cbn. by rewrite Hs, Hl. }
  clear Ht Hin Hnd. induction (table m db) as [|r0 rows IH]; [done|].
  rewrite fmap_cons. unfold scalars in *. rewrite !filter_cons, Hx by (by left).
  case_decide; cbn [length]; [f_equal|]; apply IH; intros; apply Hx; by right.
Qed.

(** The rows of a server never outgrow its limit in one first transaction. *)
Lemma peer_started_bounded d p s c key db db' st a :
  db_wf db -> peer_started d p s c key (db_now db) db db' st a ->
  Z.of_nat (length (live_on WireGuardPeer (server_id s) db')) <=
    Z.max (Z.of_nat (length (live_on WireGuardPeer (server_id s) db))) (effective_limit s c).
Proof.
  intros Hwf [r cred Hin Hd Hs Hact Ha Hc Hrow Hcid Hg ->|_ Hlt _ _ _ _ ->].
  - change (live_on WireGuardPeer (server_id s) (add_op ?o ?d)) with (live_on WireGuardPeer (server_id s) d).
    rewrite live_on_settle; [lia|by apply get_row_wf; [apply Hwf|]|apply wf_table_ids, Hwf|done|].
    unfold live. by rewrite Hact.
  - unfold live_on in *. cbn [table add_op with_next_id with_operations add_pair with_table with_credentials
      wireguard_peers] in *. unfold scalars in *.
    rewrite filter_app, length_app. cbn in *. rewrite Z.eqb_refl. cbn. rewrite decide_True by done. cbn. lia.
Qed.

(** Where the address of a started peer comes from. *)
Definition own_or_pool (dev : Z) (s : VPNServer) (db : DB) (a : IPAddress) : Prop :=
  (exists r, r ∈ wireguard_peers db /\ live r = true /\ row_device r = dev /\
     row_server r = server_id s /\ assigned_address r = Some a) \/
  (exists pool ip, wireguard_client_pool s = Some pool /\ a = mk_address (net_version pool) ip /\
     is_host pool ip /\ wireguard_gateway_address s <> Some a).

Lemma peer_started_address d p s c key db db' st a :
  peer_started d p s c key (db_now db) db db' st a -> own_or_pool (device_id d) s db a.
Proof.
  intros [r cred Hin Hd Hs Hact Ha Hc Hrow Hcid Hg ->|_ _ (pool & Hpool & Hal) _ _ _ _].
  - left. exists r. unfold live. rewrite Hact. done.
  - right. exists pool. unfold allocate_next_address in Hal. destruct (hosts_range pool) as [lo hi] eqn:Hh.
    apply first_free_Some in Hal as (ip & -> & Hip & Hex & _). exists ip. unfold is_host. rewrite Hh.
    split_and!; try done; try apply Hip. intros Hg. apply Hex. rewrite Hg. by left.
Qed.

(** C32: what a connection request commits before it reaches the agent.  The
    caller is entitled to the profile and the server; the database stays
    well formed; the device has one row, applying, under the key it sent,
    with a running operation; the server has no more live peers than its
    limit (or than it had); the address is the one the device held or a free
    host of the pool, not the gateway's; and neither the address nor the key
    is another live peer's on that server. *)
Theorem connect_starts_within_bounds user dev server profile key now db st a ad db' :
  db_wf db -> begin_peer user dev server profile key now db = (Ok (st, a, ad), db') ->
  exists d p s c r,
    authorised user dev server profile now db d p s c /\ ad = ad_block p /\ db_wf db' /\
    in_flight WireGuardPeer db' st ProvisioningState.APPLYING r /\
    row_device r = dev /\ row_server r = server_id s /\ row_profile r = profile_id p /\
    columns r = WireGuardColumns key a /\
    Z.of_nat (length (live_on WireGuardPeer (server_id s) db')) <=
      Z.max (Z.of_nat (length (live_on WireGuardPeer (server_id s) db))) (effective_limit s c) /\
    own_or_pool dev s db a /\
    Forall (fun r' => live r' = true -> row_server r' = server_id s -> r' <> r ->
              assigned_address r' <> Some a /\ public_key r' <> Some key) (wireguard_peers db').
Proof.
  intros Hwf Hb. apply begin_peer_started in Hb as (d & p & s & c & Hauth & -> & Hsrv & Hcs & Hst & Hop & Hkey).
  destruct (peer_started_wf _ _ _ _ _ _ _ _ _ Hwf Hcs Hst Hsrv Hop Hkey) as (Hwf' & r & Hfl & Hcol & Hd & Hp).
  pose proof Hauth as ((_ & Hdev & _) & _). exists d, p, s, c, r.
  pose proof Hfl as (Hget & _ & Hstate & Hrs & _). apply get_row_elem in Hget as [Hin _].
  split_and!; try done; try congruence.
  - by eapply peer_started_bounded.
  - rewrite <- Hdev. by eapply peer_started_address.
  - apply Forall_forall. intros r' Hr' Hl' Hs' Hne.
    unfold constraints in Hcs. repeat (apply andb_true_iff in Hcs as [Hcs ?]).
    assert (Hl : live r = true) by (unfold live; by rewrite Hstate).
    split; intros He; apply Hne.
    + eapply (unique_key live (fun r => (row_server r, assigned_address r))); try done.
      unfold assigned_address at 2. rewrite Hcol. congruence.
    + eapply (unique_key live (fun r => (row_server r, public_key r))); try done.
      unfold public_key at 2. rewrite Hcol. congruence.
Qed.

(** ** The last transaction *)

(** How a request left its rows: the row [r] changed by [f], its credential by
    [g], its operation finished, every other row as it was. *)
Record ended (m : model) (st : Started) (r : Row) (f : Row -> Row)
    (g : DeviceProtocolCredential -> DeviceProtocolCredential) (os : OperationState.t) (at_ : Z)
    (err : option (option text)) (db db' : DB) : Prop := {
  ended_wf : db_wf db';
  ended_row : get_row m (st_row st) db' = Some (touch (db_now db) (f r));
  ended_credential : exists c, get_credential (st_credential st) db = Some c /\
    get_credential (st_credential st) db' = Some (g c);
  ended_operation : exists o, get_operation (st_operation st) db = Some o /\
    get_operation (st_operation st) db' = Some (finish_op os at_ err o);
  ended_others : forall m' id, m' <> m \/ id <> st_row st -> get_row m' id db' = get_row m' id db;
}.

Lemma finalize_ok m st user now f g os err out reason db s r :
  db_wf db -> in_flight m db st s r -> live r = true -> keeps_row f -> keeps_credential g ->
  (forall c, cred_live (g c) = live (f r)) ->
  os <> OperationState.PENDING -> os <> OperationState.RUNNING ->
  exists db', finalize m st user now f g os err out reason db = (Ok tt, db') /\
    ended m st r f g os now err db db'.
Proof.
  intros Hwf (Hrow & Hcid & Hs & _ & o & Ho & _) Hl Hf Hg Hgl Hp Hr.
  destruct (wf_credential db m r Hwf) as (c & Hc & Hlc); [by apply get_row_elem in Hrow as []|].
  pose proof (settle_wf m (db_now db) (st_row st) f g db r c Hwf Hrow Hc Hf Hg ltac:(done) (Hgl c)) as Hwf1.
  pose proof (finish_operation_wf (st_operation st) os now err _ Hwf1 Hp Hr) as Hwf2.
  rewrite Hcid in *. eexists. split.
  - cbv [finalize transaction _lock_triple _audit_transition mbind prog_bind get modify mret prog_ret].
    rewrite Hrow, Hc, Ho.
    match goal with |- (if constraints ?d then _ else _) = _ => replace (constraints d) with true end; [done|].
    symmetry. apply (wf_constraints _ Hwf2).
  - split.
    + do 3 apply db_wf_audit. exact Hwf2.
    + change (get_row m (st_row st) (settle m (db_now db) (st_row st) (st_credential st) f g db) =
              Some (touch (db_now db) (f r))).
      rewrite get_row_settle by apply Hf. by rewrite bool_decide_eq_true_2, Z.eqb_refl, Hrow.
    + exists c. split; [done|].
      change (get_credential (st_credential st) (settle m (db_now db) (st_row st) (st_credential st) f g db) =
              Some (g c)).
      rewrite get_credential_settle by apply Hg. by rewrite Z.eqb_refl, Hc.
    + exists o. split; [done|]. unfold get_operation. cbn [add_audit_event with_audit operations update_operation
        with_operations]. rewrite scalar_update by done. rewrite Z.eqb_refl.
      change (operations (settle m (db_now db) (st_row st) (st_credential st) f g db)) with (operations db).
      unfold get_operation in Ho. by rewrite Ho.
    + intros m' id Hne.
      change (get_row m' id (settle m (db_now db) (st_row st) (st_credential st) f g db) = get_row m' id db).
      rewrite get_row_settle by apply Hf. case_bool_decide; [|done].
      destruct (id =? st_row st) eqn:He; [|done]. boolP. naive_solver.
Qed.

Abbreviation activate g at_ := (fun r => set_applied g at_ (set_state ProvisioningState.ACTIVE r)).
Abbreviation retire at_ := (fun r => set_revoked_at at_ (set_state ProvisioningState.REVOKED r)).
Abbreviation retire_credential at_ :=
  (fun c => set_cred_revoked_at at_ (set_cred_state ProvisioningState.REVOKED c)).
Abbreviation pending b := (if b : bool then ProvisioningState.REVOKING else ProvisioningState.FAILED).

Lemma finalize_provision_success_ok m st user now gen db s r :
  db_wf db -> in_flight m db st s r -> live r = true ->
  exists db', _finalize_provision_success m st user now gen db = (Ok tt, db') /\
    ended m st r (activate gen now) (set_cred_state ProvisioningState.ACTIVE)
      OperationState.SUCCEEDED now None db db'.
Proof.
  intros Hwf Hfl Hl. unfold _finalize_provision_success, _finalize_revoke_success.
  eapply finalize_ok; [exact Hwf|exact Hfl|exact Hl|by intros|by intros|by intros|done..].
Qed.

Lemma finalize_revoke_success_ok m st user now db s r :
  db_wf db -> in_flight m db st s r -> live r = true ->
  exists db', _finalize_revoke_success m st user now db = (Ok tt, db') /\
    ended m st r (retire now) (retire_credential now) OperationState.SUCCEEDED now None db db'.
Proof.
  intros Hwf Hfl Hl. unfold _finalize_provision_success, _finalize_revoke_success.
  eapply finalize_ok; [exact Hwf|exact Hfl|exact Hl|by intros|by intros|by intros|done..].
Qed.

Lemma finalize_failure_ok m st user now e b db s r :
  db_wf db -> in_flight m db st s r -> live r = true ->
  exists db', _finalize_failure m st user now e b db = (Ok tt, db') /\
    ended m st r (set_state (pending b)) (set_cred_state (pending b))
      OperationState.FAILED now (Some (Some e)) db db'.
Proof.
  intros Hwf Hfl Hl. unfold _finalize_failure. cbv zeta.
  eapply finalize_ok; [exact Hwf|exact Hfl|exact Hl|by intros|by intros|by destruct b|done..].
Qed.

(** A disconnection starts from the device's own active peer. *)
Lemma begin_revoke_peer_started user dev server db st key db' :
  db_wf db -> begin_revoke_peer user dev server db = (Ok (st, key), db') ->
  db_wf db' /\ exists r0 r, r0 ∈ wireguard_peers db /\ state r0 = ProvisioningState.ACTIVE /\
    row_device r0 = dev /\ (exists d, d ∈ devices db /\ device_id d = dev /\ device_user d = user) /\
    (exists s, _find_server server db = Some s /\ server_id s = st_server st) /\
    in_flight WireGuardPeer db' st ProvisioningState.REVOKING r /\ columns r = columns r0 /\
    row_device r = dev /\ key = default [] (public_key r) /\ st_generation st = applied_generation r.
Proof.
  intros Hwf. unfold begin_revoke_peer. intros Hr. apply transaction_ok in Hr as [Hr Hcs].
  apply bind_ok_inv in Hr as (d & db1 & Hdev & Hr). apply require_device_ok in Hdev as (-> & Hd & Hdid & Hdu & _).
  unfold begin_revoke, mark_revoking in Hr. run_inv. unfold modify in *. simplify_eq.
  rewrite start_operation_eq in *. simplify_eq.
  match goal with H : _find_server _ _ = Some ?x |- _ => rename x into s;
    assert (Hfs : exists s', _find_server server db = Some s' /\ server_id s' = server_id s) by eauto end.
  match goal with H : scalar _ (table WireGuardPeer db) = Some ?x |- _ => rename x into r0; rename H into Hs0 end.
  match goal with H : get_credential _ db = Some ?x |- _ => rename x into cred; rename H into Hc end.
  cbn [table] in *. rows_inv. match goal with H : state r0 = _ |- _ => rename H into Hact end.
  assert (Hcid : cred_id cred = credential_id r0) by (apply scalar_Some in Hc as [_ ?]; by boolP).
  rewrite Hcid in *.
  assert (Hget : get_row WireGuardPeer (row_id r0) db = Some r0) by (apply get_row_wf; [apply Hwf|done]).
  set (db1 := settle WireGuardPeer _ _ _ _ _ db) in *.
  assert (Hwf1 : db_wf db1) by (eapply settle_wf; try done; unfold live; by rewrite Hact).
  split; [split; [by apply add_op_core; [apply Hwf1|]|exact Hcs]|].
  exists r0, (touch (db_now db) (set_state ProvisioningState.REVOKING r0)).
  split_and!; try done; [by eexists|].
  split_and!; try done.
  - change (get_row WireGuardPeer (row_id r0) db1 = Some (touch (db_now db) (set_state ProvisioningState.REVOKING r0))).
    unfold db1. rewrite get_row_settle by done. by rewrite bool_decide_eq_true_2, Z.eqb_refl, Hget.
  - eexists. split; [apply (get_operation_add _ db1); [apply Hwf1|done]|]. done.
Qed.

(** ** Whole requests *)

(** What the agent's answer means for a request whose rows the last
    transaction finds in [db] with [r] still live: refused, with the row left
    failed (or, for a revocation, still revoking) and the operation failed
    under a code; left for reconciliation to find when the answer is
    ambiguous; or successful. *)
Section Outcome.
Context {X A B : Type} (m : model) (st : Started) (later : Z) (r : Row) (db : DB) (x : X).

Definition refused (removal_pending : bool) (code_ : text) (out : result exn B * (DB * X)) : Prop :=
  exists db', out = (Err ProvisioningRejected, (db', x)) /\
    ended m st r (set_state (pending removal_pending)) (set_cred_state (pending removal_pending))
      OperationState.FAILED later (Some (Some code_)) db db'.

Definition succeeded (f : Row -> Row) (g : DeviceProtocolCredential -> DeviceProtocolCredential) (b : B)
    (out : result exn B * (DB * X)) : Prop :=
  exists db', out = (Ok b, (db', x)) /\ ended m st r f g OperationState.SUCCEEDED later None db db'.

Definition answered (removal_pending : bool) (failed_code : A -> option text)
    (success : A -> result exn B * (DB * X) -> Prop) (answer : result agent_error A)
    (out : result exn B * (DB * X)) : Prop :=
  match answer with
  | Err AgentResponseAmbiguous | Err AgentResponseInvalid => out = (Err ProvisioningAmbiguous, (db, x))
  | Err e => refused removal_pending (_agent_error_code e) out
  | Ok resp =>
      match failed_code resp with
      | Some code_ => refused removal_pending code_ out
      | None => success resp out
      end
  end.
End Outcome.

Lemma in_db_ok {X A B} (body : prog DB exn A) (k : A -> prog (DB * X) exn B) db (x : X) a db' :
  body db = (Ok a, db') -> (in_db body ≫= k) (db, x) = k a (db', x).
Proof. intros Hb. unfold mbind, prog_bind, in_db. by rewrite Hb. Qed.

Definition to_sum {A} (answer : result agent_error A) : A + agent_error :=
  match answer with Ok a => inl a | Err e => inr e end.

Lemma try_agent_ok {X A B} (call : prog (DB * X) agent_error A) (k : A + agent_error -> prog (DB * X) exn B)
    w answer w' :
  call w = (answer, w') -> (try_agent call ≫= k) w = k (to_sum answer) w'.
Proof. intros Hc. unfold mbind, prog_bind, try_agent. rewrite Hc. by destruct answer. Qed.

Lemma settle_answer_spec {X A B} m st user later b (fc : A -> option text) answer
    (ok : A -> prog (DB * X) exn B) success db x s r :
  db_wf db -> in_flight m db st s r -> live r = true ->
  (forall resp, success resp (ok resp (db, x))) ->
  answered m st later r db x b fc success answer (settle_answer m st user later b fc (to_sum answer) ok (db, x)).
Proof.
  intros Hwf Hfl Hl Hok.
  assert (Href : forall e, refused (B := B) m st later r db x b e
    ((in_db (_finalize_failure m st user later e b) ;; raise ProvisioningRejected) (db, x))).
  { intros e. destruct (finalize_failure_ok m st user later e b db s r Hwf Hfl Hl) as (db' & He & Hend).
    exists db'. split; [|exact Hend]. by rewrite (in_db_ok _ _ _ _ _ _ He). }
  destruct answer as [resp|[|d| |]]; cbn [to_sum settle_answer answered]; try apply Href; [|done|done].
  destruct (fc resp); [apply Href|apply Hok].
Qed.

Section Outcomes.
Context {X : Type} `{AgentClient X} `{AEAD}.
Context (rate_limit : Z -> text -> prog (DB * X) exn bool) (auth_rate_window_seconds : Z).
Context (ring : list (Z * text)) (xray_key_version : Z).

Lemma rate_limit_ok {B} user network (k : unit -> prog (DB * X) exn B) w w' :
  rate_limit user network w = (Ok true, w') ->
  (_require_rate_limit rate_limit auth_rate_window_seconds user network ≫= k) w = k tt w'.
Proof. intros Hr. unfold _require_rate_limit, mbind, prog_bind. by rewrite Hr. Qed.

Definition peer_request (st : Started) (key : text) (a : IPAddress) : Wg.ProvisionDeviceRequest :=
  {| Wg.p_public_key := key; Wg.p_assigned_address := a;
     Wg.p_desired_generation := st_generation st; Wg.p_keepalive := None |}.
Definition op_of (st : Started) : Operation := {| idem := st_key st; target := st_row st |}.

Lemma request_peer_answered user dev server profile key network now later w db x st a ad db1 answer db2 x2 s r :
  WgConfig.valid_public_key key = true ->
  rate_limit user network w = (Ok true, (db, x)) ->
  begin_peer user dev server profile key now db = (Ok (st, a, ad), db1) ->
  agent_provision (st_server st) (op_of st) (peer_request st key a) (db1, x) = (answer, (db2, x2)) ->
  db_wf db2 -> in_flight WireGuardPeer db2 st s r -> live r = true ->
  answered WireGuardPeer st later r db2 x2 false provision_failed
    (fun resp => succeeded WireGuardPeer st later r db2 x2
       (activate (Wg.p_applied_generation resp) later) (set_cred_state ProvisioningState.ACTIVE)
       {| peer_id := st_row st; r_assigned_address := a;
          r_settings := client_settings ad (Wg.p_common resp) |})
    answer (request_peer rate_limit auth_rate_window_seconds user dev server profile key network now later w).
Proof.
  intros Hkey Hrl Hb Hcall Hwf Hfl Hl. unfold request_peer. rewrite Hkey. cbn [negb].
  rewrite (rate_limit_ok _ _ _ _ _ Hrl), (in_db_ok _ _ _ _ _ _ Hb), (try_agent_ok _ _ _ _ _ Hcall).
  eapply settle_answer_spec; [exact Hwf|exact Hfl|exact Hl|]. intros resp.
  destruct (finalize_provision_success_ok WireGuardPeer st user later (Wg.p_applied_generation resp) _ _ _
              Hwf Hfl Hl) as (db' & He & Hend).
  exists db'. split; [|exact Hend]. by rewrite (in_db_ok _ _ _ _ _ _ He).
Qed.

(** How a connection request ends.  Whatever else happened to the
    database while the agent was asked, as long as the row is still live:
    an applied answer makes the row and its credential active at the
    generation the agent reports and its operation succeeded, and the
    client gets the address the first transaction chose, with the
    ad-blocking resolver for an ad-block profile; a refusal or an
    unreachable agent leaves row and operation failed; an ambiguous answer
    changes nothing, so that the row stays applying for reconciliation. *)
Theorem connect_outcome user dev server profile key network now later w db x st a ad db1 answer db2 x2 s r :
  WgConfig.valid_public_key key = true ->
  rate_limit user network w = (Ok true, (db, x)) ->
  begin_peer user dev server profile key now db = (Ok (st, a, ad), db1) ->
  agent_provision (st_server st) (op_of st) (peer_request st key a) (db1, x) = (answer, (db2, x2)) ->
  db_wf db2 -> in_flight WireGuardPeer db2 st s r -> live r = true ->
  answered WireGuardPeer st later r db2 x2 false provision_failed
    (fun resp => succeeded WireGuardPeer st later r db2 x2
       (activate (Wg.p_applied_generation resp) later) (set_cred_state ProvisioningState.ACTIVE)
       {| peer_id := st_row st; r_assigned_address := a;
          r_settings := client_settings ad (Wg.p_common resp) |})
    answer (request_peer rate_limit auth_rate_window_seconds user dev server profile key network now later w).
Proof. apply request_peer_answered. Qed.

Lemma revoke_peer_answered user dev server network later w db x st key db1 answer db2 x2 s r :
  rate_limit user network w = (Ok true, (db, x)) ->
  begin_revoke_peer user dev server db = (Ok (st, key), db1) ->
  agent_revoke (st_server st) (op_of st)
    {| Wg.r_public_key := key; Wg.r_desired_generation := st_generation st |} (db1, x) = (answer, (db2, x2)) ->
  db_wf db2 -> in_flight WireGuardPeer db2 st s r -> live r = true ->
  answered WireGuardPeer st later r db2 x2 true device_failed
    (fun _ => succeeded WireGuardPeer st later r db2 x2 (retire later) (retire_credential later) (st_row st))
    answer (revoke_peer rate_limit auth_rate_window_seconds user dev server network later w).
Proof.
  intros Hrl Hb Hcall Hwf Hfl Hl. unfold revoke_peer.
  rewrite (rate_limit_ok _ _ _ _ _ Hrl), (in_db_ok _ _ _ _ _ _ Hb), (try_agent_ok _ _ _ _ _ Hcall).
  eapply settle_answer_spec; [exact Hwf|exact Hfl|exact Hl|]. intros resp.
  destruct (finalize_revoke_success_ok WireGuardPeer st user later _ _ _ Hwf Hfl Hl) as (db' & He & Hend).
  exists db'. split; [|exact Hend]. by rewrite (in_db_ok _ _ _ _ _ _ He).
Qed.

(** How a disconnection ends: revoked, with the operation succeeded,
    only when the agent confirmed it; on a refusal or an unreachable agent
    the row stays revoking, where reconciliation finds it, and never goes
    back to active or to failed. *)
Theorem disconnect_outcome user dev server network later w db x st key db1 answer db2 x2 s r :
  rate_limit user network w = (Ok true, (db, x)) ->
  begin_revoke_peer user dev server db = (Ok (st, key), db1) ->
  agent_revoke (st_server st) (op_of st)
    {| Wg.r_public_key := key; Wg.r_desired_generation := st_generation st |} (db1, x) = (answer, (db2, x2)) ->
  db_wf db2 -> in_flight WireGuardPeer db2 st s r -> live r = true ->
  answered WireGuardPeer st later r db2 x2 true device_failed
    (fun _ => succeeded WireGuardPeer st later r db2 x2 (retire later) (retire_credential later) (st_row st))
    answer (revoke_peer rate_limit auth_rate_window_seconds user dev server network later w).
Proof. apply revoke_peer_answered. Qed.

Definition xray_request (st : Started) (u : Z) (p : ProtocolProfile) : XrayRequest :=
  {| client_uuid := u; protocol_profile_code := agent_code p; x_desired_generation := st_generation st |}.

(** An Xray connection ends like a WireGuard one, and hands the client
    the UUID its credential encrypts. *)
Theorem xray_connect_outcome user dev server profile network now later random label w db x st u p db1
    answer db2 x2 s r :
  rate_limit user network w = (Ok true, (db, x)) ->
  begin_xray ring xray_key_version user dev server profile now random label db = (Ok (st, u, p), db1) ->
  agent_provision_xray (st_server st) (op_of st) (xray_request st u p) (db1, x) = (answer, (db2, x2)) ->
  db_wf db2 -> in_flight XrayClient db2 st s r -> live r = true ->
  answered XrayClient st later r db2 x2 false xray_failed
    (fun resp => succeeded XrayClient st later r db2 x2
       (activate (x_applied_generation resp) later) (set_cred_state ProvisioningState.ACTIVE)
       {| client_id := st_row st; uuid := u; details := x_details resp; r_ad_block := ad_block p |})
    answer (request_xray_client rate_limit auth_rate_window_seconds ring xray_key_version
              user dev server profile network now later random label w).
Proof.
  intros Hrl Hb Hcall Hwf Hfl Hl. unfold request_xray_client.
  rewrite (rate_limit_ok _ _ _ _ _ Hrl), (in_db_ok _ _ _ _ _ _ Hb), (try_agent_ok _ _ _ _ _ Hcall).
  eapply settle_answer_spec; [exact Hwf|exact Hfl|exact Hl|]. intros resp.
  destruct (finalize_provision_success_ok XrayClient st user later (x_applied_generation resp) _ _ _
              Hwf Hfl Hl) as (db' & He & Hend).
  exists db'. split; [|exact Hend]. by rewrite (in_db_ok _ _ _ _ _ _ He).
Qed.
End Outcomes.

(** ** Xray: the first transaction *)

Lemma bump_core n db : wf_core db -> next_id db <= n -> wf_core (with_next_id n db).
Proof.
  intros [] Hn. constructor; try done. eapply lt_weaken; [|done]. done.
Qed.

Lemma get_credential_add_pair m c r db :
  wf_core db -> cred_id c = next_id db -> get_credential (next_id db) (add_pair m c r db) = Some c.
Proof.
  intros Hwf Hc. destruct (wf_fresh_parts _ Hwf) as (_ & F2 & _).
  unfold get_credential. cbn [add_pair with_next_id with_table with_credentials credentials].
  rewrite scalar_app_None by (by apply scalar_fresh). cbn. by rewrite Hc, Z.eqb_refl.
Qed.

Section XrayStart.
Context `{AEAD} (ring : list (Z * text)) (xray_key_version : Z).

Inductive client_started (d : Device) (p : ProtocolProfile) (s : VPNServer) (now : Z) (db db' : DB)
    (st : Started) (u : Z) : Prop :=
| client_again r cred :
    r ∈ xray_clients db -> row_device r = device_id d -> row_profile r = profile_id p ->
    row_server r = server_id s -> state r = ProvisioningState.ACTIVE ->
    get_credential (credential_id r) db = Some cred -> client_uuid_of ring cred = Some u ->
    st = {| st_server := server_id s; st_row := row_id r; st_credential := credential_id r;
            st_operation := next_id db; st_key := next_id db + 1;
            st_generation := applied_generation r + 1 |} ->
    db' = add_op (new_operation (next_id db) (server_id s) (next_id db + 1) provision_device
                    xray_client (row_id r) (applied_generation r + 1) 0)
            (settle XrayClient now (row_id r) (credential_id r) (set_state ProvisioningState.APPLYING)
               (set_cred_state ProvisioningState.APPLYING) db) ->
    client_started d p s now db db' st u
| client_new n random label env :
    n = next_id db + 1 -> u = next_id db ->
    encrypt_xray_credential u (device_id d) n xray_key_version ring random = Ok env ->
    st = {| st_server := server_id s; st_row := n + 1; st_credential := n;
            st_operation := n + 2; st_key := n + 2 + 1; st_generation := 1 |} ->
    db' = add_op (new_operation (n + 2) (server_id s) (n + 2 + 1) provision_device xray_client (n + 1) 1 0)
            (add_pair XrayClient
               (new_credential n (device_id d) (profile_id p) (server_id s) xray_bearer (Some env))
               (new_peer_row (n + 1) n (device_id d) (profile_id p) (server_id s) (XrayColumns label) now)
               (with_next_id n db)) ->
    client_started d p s now db db' st u.

Lemma begin_xray_started user dev server profile now random label db st u p db' :
  begin_xray ring xray_key_version user dev server profile now random label db = (Ok (st, u, p), db') ->
  exists d s c, authorised user dev server profile now db d p s c /\ constraints db' = true /\
    client_started d p s (db_now db) db db' st u.
Proof.
  unfold begin_xray. intros Hr. apply transaction_ok in Hr as [Hr Hcs].
  apply bind_ok_inv in Hr as ([[[d p'] s] c] & db1 & Hauth & Hr).
  apply authorise_ok in Hauth as [-> Hauth]. exists d, s, c.
  apply bind_ok_inv in Hr as (? & ? & Hg & Hr). apply get_ok in Hg as [-> ->].
  destruct (scalar _ (xray_clients db)) as [r|] eqn:Hs.
  - run_inv. unfold modify in *. simplify_eq. rewrite start_operation_eq in *. simplify_eq. rows_inv.
    match goal with H : get_credential _ db = Some ?c |- _ => rename H into Hc; rename c into cred end.
    assert (cred_id cred = credential_id r) as Hcid by (apply scalar_Some in Hc as [_ ?]; by boolP).
    split; [done|]. split; [done|].
    eapply client_again; try done; by rewrite Hcid.
  - unfold _require_capacity in Hr. run_inv. unfold uuid4 in *. simplify_eq.
    destruct (encrypt_xray_credential _ _ _ _ _ _) as [env|] eqn:Henc in Hr; run_inv.
    unfold add_credential, add_row, modify, uuid4 in *. simplify_eq.
    rewrite start_operation_eq in *. simplify_eq.
    split; [done|]. split; [done|]. eapply client_new; try done; cbn in *.
    + f_equal; lia.
    + unfold add_pair, add_op. cbn. replace (next_id db + 1 + 1 + 1) with (next_id db + 1 + 2) by lia.
      done.
Qed.
(** An Xray connection starts like a WireGuard one, and its identity is
    stable: the credential behind the row in flight decrypts to the UUID
    the client is handed, the device's row keeps the UUID it had when the
    device reconnects, and a new row gets a UUID of its own. *)
Theorem xray_connect_keeps_identity user dev server profile now random label db st u p db' :
  db_wf db -> is_uuid (next_id db) ->
  begin_xray ring xray_key_version user dev server profile now random label db = (Ok (st, u, p), db') ->
  exists d s c r cred,
    authorised user dev server profile now db d p s c /\ db_wf db' /\
    in_flight XrayClient db' st ProvisioningState.APPLYING r /\
    row_device r = dev /\ row_server r = server_id s /\ row_profile r = profile_id p /\
    get_credential (credential_id r) db' = Some cred /\ client_uuid_of ring cred = Some u /\
    match get_row XrayClient (row_id r) db with
    | Some old => exists cred0, get_credential (credential_id old) db = Some cred0 /\
                    client_uuid_of ring cred0 = Some u
    | None => u = next_id db
    end.
Proof.
  intros Hwf Hid Hb. apply begin_xray_started in Hb as (d & s & c & Hauth & Hcs & Hst).
  pose proof Hauth as ((_ & Hdev & _) & _).
  destruct Hst as [r cred Hin Hd Hp Hs Hact Hc Hu -> ->|n rnd lbl env -> -> Henc -> ->].
  - assert (Hget : get_row XrayClient (row_id r) db = Some r) by (apply get_row_wf; [apply Hwf|done]).
    set (db1 := settle XrayClient _ _ _ _ _ db) in *.
    assert (Hwf1 : db_wf db1).
    { eapply settle_wf; try done. unfold live. by rewrite Hact. }
    exists d, s, c, (touch (db_now db) (set_state ProvisioningState.APPLYING r)),
      (set_cred_state ProvisioningState.APPLYING cred).
    split_and!; try done; try (cbn; congruence).
    + split; [apply add_op_core; [apply Hwf1|done]|exact Hcs].
    + split_and!; try done.
      { change (get_row XrayClient (row_id r) db1 =
          Some (touch (db_now db) (set_state ProvisioningState.APPLYING r))).
        unfold db1. rewrite get_row_settle by done. by rewrite bool_decide_eq_true_2, Z.eqb_refl, Hget. }
      eexists. split; [apply (get_operation_add _ db1); [apply Hwf1|done]|]. done.
    + change (get_credential (credential_id r) db1 = Some (set_cred_state ProvisioningState.APPLYING cred)).
      unfold db1. rewrite get_credential_settle by done. by rewrite Z.eqb_refl, Hc.
    + cbn [touch row_id set_state]. rewrite Hget. eauto.
  - set (db0 := with_next_id (next_id db + 1) db) in *.
    assert (Hwf0 : wf_core db0) by (apply bump_core; [apply Hwf|lia]).
    set (cr := new_credential _ _ _ _ _ (Some env)) in *. set (r := new_peer_row _ _ _ _ _ _ _) in *.
    assert (Hwf1 : wf_core (add_pair XrayClient cr r db0)) by (by apply add_pair_core).
    exists d, s, c, r, cr. split_and!; try done.
    + split; [apply add_op_core; [exact Hwf1|done]|exact Hcs].
    + split_and!; try done; [by apply (get_row_add_pair XrayClient cr r db0)|].
      eexists. split; [apply (get_operation_add _ (add_pair XrayClient cr r db0)); done|]. done.
    + by apply (get_credential_add_pair XrayClient cr r db0).
    + by eapply client_uuid_encrypted.
    + assert (Hno : get_row XrayClient (next_id db + 1 + 1) db = None);
        [|cbn [row_id r new_peer_row]; by rewrite Hno].
      destruct (wf_fresh_parts _ Hwf) as (F1 & _ & _). apply scalar_None, Forall_forall. intros r0 Hr0.
      apply (table_all_rows XrayClient) in Hr0. apply Forall_fmap in F1. rewrite Forall_forall in F1.
      specialize (F1 r0 Hr0). cbn in F1. apply Z.eqb_neq. lia.
Qed.
End XrayStart.

(** ** Error codes *)

Lemma code_char_spec c : code_char c = WgConfig.is_code_char c.
Proof. destruct c as [[] [] [] [] [] [] [] []]; vm_compute; reflexivity. Qed.
Lemma code_head_spec c : WgConfig.is_code_head c = code_char c && negb (is_edge c).
Proof. destruct c as [[] [] [] [] [] [] [] []]; vm_compute; reflexivity. Qed.

Lemma lstrip_edges_head t : match lstrip_edges t with [] => True | c :: _ => is_edge c = false end.
Proof. induction t as [|c t IH]; cbn; [done|]. destruct (is_edge c) eqn:He; [exact IH|done]. Qed.

Lemma lstrip_edges_suffix t : exists u, t = u ++ lstrip_edges t.
Proof.
  induction t as [|c t [u IH]]; [by exists []|]. cbn. destruct (is_edge c); [|by exists []].
  exists (c :: u). cbn. by rewrite <- IH.
Qed.

Lemma strip_edges_head t : match strip_edges t with [] => True | c :: _ => is_edge c = false end.
Proof.
  unfold strip_edges. pose proof (lstrip_edges_head t) as Hh. set (u := lstrip_edges t) in *.
  destruct (lstrip_edges_suffix (reverse u)) as [v Hv]. apply (f_equal reverse) in Hv.
  rewrite reverse_involutive, reverse_app in Hv. rewrite Hv in Hh. by destruct (reverse (lstrip_edges _)).
Qed.

Lemma strip_edges_sub t c : c ∈ strip_edges t -> c ∈ t.
Proof.
  unfold strip_edges. rewrite elem_of_reverse. intros Hc.
  assert (Hs : forall u, c ∈ lstrip_edges u -> c ∈ u).
  { intros u Hu. destruct (lstrip_edges_suffix u) as [v ->]. apply elem_of_app. by right. }
  apply Hs, elem_of_reverse, Hs in Hc. done.
Qed.

(** Every error code stored for a failed operation satisfies the column's
    format constraint, whatever text the agent answered with. *)
Theorem agent_error_code_well_formed e : WgConfig.valid_error_code (Some (_agent_error_code e)) = true.
Proof.
  destruct e as [|d| |]; [by vm_compute| |by vm_compute|by vm_compute]. cbn [_agent_error_code].
  set (slug := (fun c => if code_char c then c else "_"%char) <$> (lower <$> strip d)).
  assert (Hs : Forall (fun c => code_char c = true) (take 64 (strip_edges slug))).
  { apply Forall_take, Forall_forall. intros c Hc%strip_edges_sub.
    apply list_elem_of_fmap in Hc as (c' & -> & _). by destruct (code_char c') eqn:Hc'. }
  pose proof (strip_edges_head slug) as Hh.
  assert (Hl : (length (take 64 (strip_edges slug)) <= 64)%nat) by (rewrite length_take; lia).
  destruct (strip_edges slug) as [|c t]; [by vm_compute|]. change (take 64 (c :: t)) with (c :: take 63 t) in *.
  apply Forall_cons in Hs as [Hc Hs]. cbn [WgConfig.valid_error_code].
  rewrite code_head_spec, Hc, Hh. cbn [andb negb]. apply andb_true_iff. split.
  - apply forallb_forall. intros x Hx%list_elem_of_In. rewrite <- code_char_spec.
    by apply (proj1 (Forall_forall _ _) Hs).
  - apply Nat.leb_le. cbn [length] in Hl. lia.
Qed.

(** ** The expiry sweep *)

(** A connection that was just granted is not what the expiry sweep
    takes away.  Provisioning and the sweep read the same grants: at the
    instant the request was checked, the row it started has not lapsed, if
    the account is active and has not expired. *)
Theorem fresh_connection_has_not_lapsed user dev server profile key now db st a ad db' u :
  db_wf db -> NoDup (device_id <$> devices db) ->
  get_user user db = Some u -> user_state u = AccountState.ACTIVE ->
  Access.unexpired now (user_expires_at u) = true ->
  begin_peer user dev server profile key now db = (Ok (st, a, ad), db') ->
  exists r, get_row WireGuardPeer (st_row st) db' = Some r /\ live r = true /\ Access.lapsed now db' r = false.
Proof.
  intros Hwf Hnd Hu Hact Hexp Hb.
  apply begin_peer_started in Hb as (d & p & s & c & Hauth & _ & Hsrv & Hcs & Hst & Hop & Hkey).
  destruct (peer_started_wf _ _ _ _ _ _ _ _ _ Hwf Hcs Hst Hsrv Hop Hkey) as (_ & r & Hfl & _ & Hd & Hp).
  destruct Hauth as ((Hdin & Hdid & Hdu & Hds) & _ & _ & _ & _ & Hperm & Hasg).
  destruct Hfl as (Hget & _ & Hstate & Hrs & _). exists r. split; [done|].
  split; [unfold live; by rewrite Hstate|].
  assert (Hframe : users db' = users db /\ devices db' = devices db /\
            permissions db' = permissions db /\ assignments db' = assignments db) by (by destruct Hst as [? ? ? ? ? ? ? ? ? ? ? ->|? ? ? ? ? ? ->]).
  destruct Hframe as (Fu & Fd & Fp & Fa).
  unfold Access.lapsed, Access.owner, get_device, get_user, Access.lapsed_row, Access.has_assignment,
    Access.has_permission in *.
  rewrite Fu, Fd, Fp, Fa, Hd, (scalar_id device_id) by done. rewrite Hdu, Hu, Hact, Hexp, Hds.
  apply scalar_Some in Hu as [_ Hid]. boolP. rewrite Hid, Hrs, Hsrv, Hp, Hperm, Hasg. apply andb_false_r.
Qed.

(** ** Examples *)

(** An agent that gives one answer to everything, while [meanwhile] happens to
    the database. *)
Definition scripted (provision : result agent_error Wg.ProvisionDeviceResponse)
    (xray : result agent_error XrayResponse) (revoke : result agent_error Wg.DeviceResponse)
    (meanwhile : DB -> DB) : AgentClient unit := {|
  agent_provision _ _ _ w := (provision, (meanwhile w.1, w.2));
  agent_revoke _ _ _ w := (revoke, (meanwhile w.1, w.2));
  agent_reconcile _ _ w := (Err AgentUnreachable, w);
  agent_provision_xray _ _ _ w := (xray, (meanwhile w.1, w.2));
  agent_revoke_xray _ _ _ w := (revoke, (meanwhile w.1, w.2));
  agent_reconcile_xray _ _ w := (Err AgentUnreachable, w);
  agent_prune_xray _ _ w := (Err AgentUnreachable, w);
|}.

Definition example_common : Wg.Common :=
  {| Wg.server_public_key := example_public_key "s"%char; Wg.c_listen_port := 51820;
     Wg.public_endpoint := str "vpn.example.org"; Wg.client_dns := str "10.77.0.1";
     Wg.client_allowed_ips := str "0.0.0.0/0"; Wg.c_keepalive := 25 |}.
Definition example_answer : Wg.ProvisionDeviceResponse :=
  {| Wg.p_state := Wg.active; Wg.p_applied_generation := 1; Wg.p_error_code := None;
     Wg.p_common := example_common |}.
Definition example_revoked : Wg.DeviceResponse :=
  {| Wg.o_state := Wg.revoked; Wg.o_applied_generation := 1; Wg.o_error_code := None;
     Wg.o_revoked_at := Some 1001 |}.
Definition example_agent : AgentClient unit :=
  scripted (Ok example_answer) (Err AgentUnreachable) (Ok example_revoked) id.
Definition always : Z -> text -> prog (DB * unit) exn bool := fun _ _ => mret true.

Definition example_key : text := example_public_key "q"%char.
Definition example_begin (db : DB) : result exn (Started * IPAddress * bool) * DB :=
  begin_peer 1 2 (str "nl-1") (str "wireguard-native") example_key 1000 db.

(** The account's one device, with its earlier peer revoked. *)
Definition disconnected : DB := example_db ProvisioningState.REVOKED.
Definition connected : DB := example_db ProvisioningState.ACTIVE.

Definition example_started : Started :=
  {| st_server := 3; st_row := 101; st_credential := 100; st_operation := 102; st_key := 103;
     st_generation := 1 |}.
Definition example_row_started : Row :=
  new_peer_row 101 100 2 4 3 (WireGuardColumns example_key (IPv4Address 172818434)) 1000.

Lemma connect_starts_within_bounds_witness :
  exists r, in_flight WireGuardPeer (example_begin disconnected).2 example_started
              ProvisioningState.APPLYING r /\
    columns r = WireGuardColumns example_key (IPv4Address 172818434).
Proof.
  destruct (connect_starts_within_bounds 1 2 (str "nl-1") (str "wireguard-native") example_key 1000
    disconnected example_started (IPv4Address 172818434) false (example_begin disconnected).2)
    as (d & p & s & c & r & _ & _ & _ & Hfl & _ & _ & _ & Hcol & _).
  - apply db_wfb_ok. vm_compute. reflexivity.
  - vm_compute. reflexivity.
  - exists r. split; [exact Hfl|exact Hcol].
Defined.

Lemma connect_outcome_witness :
  exists db', @request_peer unit example_agent always 60 1 2 (str "nl-1") (str "wireguard-native")
                example_key (str "203.0.113.0/24") 1000 1001 (disconnected, tt) =
    (Ok {| peer_id := 101; r_assigned_address := IPv4Address 172818434; r_settings := example_common |},
     (db', tt)) /\
    get_row WireGuardPeer 101 db' =
      Some (touch 1000 (set_applied 1 1001 (set_state ProvisioningState.ACTIVE example_row_started))).
Proof.
  destruct (@connect_outcome unit example_agent always 60 1 2 (str "nl-1") (str "wireguard-native")
    example_key (str "203.0.113.0/24") 1000 1001 (disconnected, tt) disconnected tt example_started
    (IPv4Address 172818434) false (example_begin disconnected).2 (Ok example_answer)
    (example_begin disconnected).2 tt ProvisioningState.APPLYING example_row_started)
    as (db' & He & Hend).
  - vm_compute. reflexivity.
  - reflexivity.
  - vm_compute. reflexivity.
  - reflexivity.
  - apply db_wfb_ok. vm_compute. reflexivity.
  - split_and!; try (vm_compute; reflexivity). eexists. split; [vm_compute; reflexivity|].
    split_and!; vm_compute; reflexivity.
  - vm_compute. reflexivity.
  - exists db'. split; [exact He|exact (ended_row _ _ _ _ _ _ _ _ _ _ Hend)].
Defined.

Definition example_disconnecting : Started :=
  {| st_server := 3; st_row := 6; st_credential := 5; st_operation := 100; st_key := 101;
     st_generation := 1 |}.

Lemma disconnect_outcome_witness :
  exists db', @revoke_peer unit example_agent always 60 1 2 (str "nl-1") (str "203.0.113.0/24") 1001
                (connected, tt) = (Ok 6, (db', tt)) /\
    get_row WireGuardPeer 6 db' =
      Some (touch 1000 (set_revoked_at 1001 (example_row ProvisioningState.REVOKED 1000))).
Proof.
  destruct (@disconnect_outcome unit example_agent always 60 1 2 (str "nl-1") (str "203.0.113.0/24") 1001
    (connected, tt) connected tt example_disconnecting (example_public_key "p"%char)
    (begin_revoke_peer 1 2 (str "nl-1") connected).2 (Ok example_revoked)
    (begin_revoke_peer 1 2 (str "nl-1") connected).2 tt ProvisioningState.REVOKING
    (example_row ProvisioningState.REVOKING 1000)) as (db' & He & Hend).
  - reflexivity.
  - vm_compute. reflexivity.
  - reflexivity.
  - apply db_wfb_ok. vm_compute. reflexivity.
  - split_and!; try (vm_compute; reflexivity). eexists. split; [vm_compute; reflexivity|].
    split_and!; vm_compute; reflexivity.
  - vm_compute. reflexivity.
  - exists db'. split; [exact He|exact (ended_row _ _ _ _ _ _ _ _ _ _ Hend)].
Defined.

Lemma fresh_connection_has_not_lapsed_witness :
  exists r, get_row WireGuardPeer 101 (example_begin disconnected).2 = Some r /\ live r = true /\
    Access.lapsed 1000 (example_begin disconnected).2 r = false.
Proof.
  apply (fresh_connection_has_not_lapsed 1 2 (str "nl-1") (str "wireguard-native") example_key 1000
    disconnected example_started (IPv4Address 172818434) false (example_begin disconnected).2 example_user).
  - apply db_wfb_ok. vm_compute. reflexivity.
  - apply NoDup_singleton.
  - reflexivity.
  - reflexivity.
  - vm_compute. reflexivity.
  - vm_compute. reflexivity.
Defined.

Definition xray_profile : ProtocolProfile :=
  {| profile_id := 4; profile_code := str "vless-xhttp-tls-adblock"; profile_display_name := str "VLESS";
     agent_profile_code := Some (str "vless-xhttp-tls"); profile_state := ProfileState.IMPLEMENTED;
     ad_block := true |}.
Definition xray_db : DB :=
  {| users := users disconnected; devices := devices disconnected; profiles := [xray_profile];
     servers := servers disconnected; capabilities := capabilities disconnected;
     permissions := permissions disconnected; assignments := assignments disconnected;
     credentials := []; wireguard_peers := []; xray_clients := []; operations := []; audit := [];
     records := []; auth := no_auth; db_now := 1000; next_id := 100 |}.
Definition example_details : XrayDetails :=
  {| server_address := str "vpn.example.org"; port := 443; sni := str "vpn.example.org";
     transport := str "xhttp"; transport_security := str "tls"; path := Some (str "/x");
     service_name := None; obfs_password := None; port_hop := None; reality_public_key := None;
     reality_short_id := None; flow := None; protocol := str "vless"; method := None; password := None;
     encryption := None |}.
Definition example_xray_answer : XrayResponse :=
  {| x_state := Wg.active; x_applied_generation := 1; x_error_code := None; x_details := example_details |}.
Definition example_xray_agent : AgentClient unit :=
  scripted (Err AgentUnreachable) (Ok example_xray_answer) (Err AgentUnreachable) id.
Definition example_nonce : text := replicate 12 "n"%char.
Definition example_xray_begin (db : DB) : result exn (Started * Z * ProtocolProfile) * DB :=
  @begin_xray plain_aead example_ring 1 1 2 (str "nl-1") (str "vless-xhttp-tls-adblock") 1000
    example_nonce (str "label") db.
Definition example_xray_started : Started :=
  {| st_server := 3; st_row := 102; st_credential := 101; st_operation := 103; st_key := 104;
     st_generation := 1 |}.
Definition example_client : Row := new_peer_row 102 101 2 4 3 (XrayColumns (str "label")) 1000.

Lemma xray_connect_outcome_witness :
  exists db', @request_xray_client unit example_xray_agent plain_aead always 60 example_ring 1 1 2
      (str "nl-1") (str "vless-xhttp-tls-adblock") (str "203.0.113.0/24") 1000 1001 example_nonce
      (str "label") (xray_db, tt) =
    (Ok {| client_id := 102; uuid := 100; details := example_details; r_ad_block := true |}, (db', tt)) /\
    get_row XrayClient 102 db' =
      Some (touch 1000 (set_applied 1 1001 (set_state ProvisioningState.ACTIVE example_client))).
Proof.
  destruct (@xray_connect_outcome unit example_xray_agent plain_aead always 60 example_ring 1 1 2
    (str "nl-1") (str "vless-xhttp-tls-adblock") (str "203.0.113.0/24") 1000 1001 example_nonce
    (str "label") (xray_db, tt) xray_db tt example_xray_started 100 xray_profile
    (example_xray_begin xray_db).2 (Ok example_xray_answer) (example_xray_begin xray_db).2 tt
    ProvisioningState.APPLYING example_client) as (db' & He & Hend).
  - reflexivity.
  - vm_compute. reflexivity.
  - reflexivity.
  - apply db_wfb_ok. vm_compute. reflexivity.
  - split_and!; try (vm_compute; reflexivity). eexists. split; [vm_compute; reflexivity|].
    split_and!; vm_compute; reflexivity.
  - vm_compute. reflexivity.
  - exists db'. split; [exact He|exact (ended_row _ _ _ _ _ _ _ _ _ _ Hend)].
Defined.

Lemma xray_connect_keeps_identity_witness :
  exists r cred, in_flight XrayClient (example_xray_begin xray_db).2 example_xray_started
                   ProvisioningState.APPLYING r /\
    get_credential (credential_id r) (example_xray_begin xray_db).2 = Some cred /\
    @client_uuid_of plain_aead example_ring cred = Some 100.
Proof.
  destruct (@xray_connect_keeps_identity plain_aead example_ring 1 1 2 (str "nl-1")
    (str "vless-xhttp-tls-adblock") 1000 example_nonce (str "label") xray_db example_xray_started 100
    xray_profile (example_xray_begin xray_db).2)
    as (d & s & c & r & cred & _ & _ & Hfl & _ & _ & _ & Hc & Hu & _).
  - apply db_wfb_ok. vm_compute. reflexivity.
  - by vm_compute.
  - vm_compute. reflexivity.
  - exists r, cred. split; [exact Hfl|]. split; [exact Hc|exact Hu].
Defined.

(** ** Where a request and another component disagree *)

(** A revocation that lands while the agent is being asked is lost.  The
    quota sweep cuts the account off and marks its peer revoking between the
    first transaction and the last, which makes the row active whatever state
    it finds: the peer ends active, its account exhausted; and later sweeps,
    of quotas and of expiry, leave it so. *)
Theorem late_success_undoes_revocation :
  let sweep db := (@Access.enforce_traffic_quotas plain_aead [] id 1000 (Access.example_usage 120) db).2 in
  let '(res, (db, _)) :=
    @request_peer unit (scripted (Ok example_answer) (Err AgentUnreachable) (Err AgentUnreachable) sweep)
      always 60 1 2 (str "nl-1") (str "wireguard-native") (example_public_key "p"%char)
      (str "203.0.113.0/24") 1000 1001 (connected, tt) in
  res = Ok {| peer_id := 6; r_assigned_address := IPv4Address 172818434; r_settings := example_common |} /\
  (state <$> wireguard_peers (sweep (begin_peer 1 2 (str "nl-1") (str "wireguard-native")
      (example_public_key "p"%char) 1000 connected).2)) = [ProvisioningState.REVOKING] /\
  (state <$> wireguard_peers db) = [ProvisioningState.ACTIVE] /\
  (quota_exhausted_at <$> users db) = [Some 1000] /\
  (state <$> wireguard_peers (Access.enforce_access_expiry 2000 (sweep db)).2) = [ProvisioningState.ACTIVE].
Proof. vm_compute. repeat split. Qed.

(** A reconnect that fails takes a working peer out of everyone's sight.
    The agent is unreachable: the row, active until then, is failed; revoking
    the device afterwards marks nothing, and the peer's address is the next
    one the allocator gives out, while nothing has told the agent to stop
    serving it. *)
Theorem failed_reconnect_is_untracked :
  let '(res, (db, _)) :=
    @request_peer unit (scripted (Err AgentUnreachable) (Err AgentUnreachable) (Err AgentUnreachable) id)
      always 60 1 2 (str "nl-1") (str "wireguard-native") (example_public_key "p"%char)
      (str "203.0.113.0/24") 1000 1001 (connected, tt) in
  res = Err ProvisioningRejected /\
  (state <$> wireguard_peers db) = [ProvisioningState.FAILED] /\
  (Access.revoke_device_credentials 2 1001 db).1 = 0 /\
  (_allocate_address example_server db).1 = Ok (IPv4Address 172818434).
Proof. vm_compute. repeat split. Qed.

(** The example account may also use the ad-block sibling of its profile. *)
Definition adblock_profile : ProtocolProfile :=
  {| profile_id := 9; profile_code := str "wireguard-adblock"; profile_display_name := str "WireGuard"; agent_profile_code := Some (str "wireguard-native");
     profile_state := ProfileState.IMPLEMENTED; ad_block := true |}.
Definition two_profiles (s : ProvisioningState.t) : DB :=
  let db := example_db s in
  {| users := users db; devices := devices db; profiles := [example_profile; adblock_profile];
     servers := servers db;
     capabilities := capabilities db ++ [{| cap_server := 3; cap_profile := 9;
       cap_state := CapabilityState.ENABLED; capacity_limit := None |}];
     permissions := permissions db ++ [{| perm_id := 10; perm_user := 1; perm_profile := 9; perm_granted_by := None;
       perm_state := CapabilityState.ENABLED; perm_granted_at := 800; perm_expires_at := None; perm_revoked_at := None |}];
     assignments := assignments db; credentials := credentials db; wireguard_peers := wireguard_peers db;
     xray_clients := []; operations := []; audit := []; records := []; auth := no_auth; db_now := 1000; next_id := 100 |}.

(** Switching profile on a reconnect never works.  The request means to
    move the device's peer and its credential to the profile asked for, but
    does so in two updates, and the peer's foreign key into the credential,
    which includes the profile, is broken by the first of them.  The same
    request under the profile the peer already has succeeds, and so does the
    ad-block one when no peer is live. *)
Theorem profile_switch_is_refused :
  let ask code_ db := begin_peer 1 2 (str "nl-1") code_ (example_public_key "p"%char) 1000 db in
  (ask (str "wireguard-adblock") (two_profiles ProvisioningState.ACTIVE)).1 = Err IntegrityError /\
  is_ok (ask (str "wireguard-native") (two_profiles ProvisioningState.ACTIVE)).1 = true /\
  is_ok (ask (str "wireguard-adblock") (two_profiles ProvisioningState.REVOKED)).1 = true.
Proof. vm_compute. repeat split. Qed.

End Provisioning.
