(* ===== verification/AccessLife.v ===== *)
(** * What grants of access guarantee

    About [AccessAdmin], together with the two readers of the grants: the checks
    of a connection request ([Provisioning]) and the expiry sweep ([Access]).
    Each account has at most one row for a profile and one for a server, which
    the table of assignments does not itself require; so the two readers agree,
    and what is taken back is gone with the next sweep. *)

From stdpp Require Import relations sorting.
From S2P Require Import Prelude PyText PyBytes PyTime Json IpAddress Usage ApiStore OpaqueToken RedisState XrayCredential Access AuthStore UserAuth AccessAdmin Provisioning.
Import Db AuthTx TxLogic Grants.

Module AccessLife.

(** ** Tables with one row per pair *)

Section Keyed.
Context {A : Type} (id_of : A -> Z) (key : A -> Z * Z).
Implicit Types (rows : list A) (k : Z * Z).

Definition find k rows : option A := scalar (fun r => ((key r).1 =? k.1) && ((key r).2 =? k.2)) rows.
Record keyed (fresh : Z) rows : Prop := {
  kd_ids : NoDup (id_of <$> rows);
  kd_fresh : Forall (fun r => id_of r < fresh) rows;
  kd_keys : NoDup (key <$> rows);
}.

Lemma pair_eqb k k' : (k.1 =? k'.1) && (k.2 =? k'.2) = bool_decide (k = k').
Proof.
  destruct k as [a b], k' as [a' b']. cbn. rewrite (Z_eqb_bool_decide a a'), (Z_eqb_bool_decide b b'), <- bool_decide_and.
  apply bool_decide_ext. naive_solver.
Qed.
Lemma find_Some k rows r : find k rows = Some r -> r ∈ rows /\ key r = k.
Proof. intros [Hin Hk]%scalar_Some. rewrite pair_eqb in Hk. split; [done|by boolP]. Qed.
Lemma find_None k rows r : find k rows = None -> r ∈ rows -> key r <> k.
Proof.
  unfold find. rewrite scalar_None, Forall_forall. intros Hn Hin He. specialize (Hn r Hin). rewrite pair_eqb in Hn. by boolP.
Qed.
Lemma same_key rows r r' : NoDup (key <$> rows) -> r ∈ rows -> r' ∈ rows -> key r = key r' -> r = r'.
Proof.
  intros Hnd [i Hi]%list_elem_of_lookup [j Hj]%list_elem_of_lookup He.
  assert (i = j) as <-; [|congruence]. eapply (NoDup_lookup (key <$> rows)); [done|by rewrite list_lookup_fmap, Hi|].
  by rewrite list_lookup_fmap, Hj, He.
Qed.
Lemma find_elem rows r : NoDup (key <$> rows) -> r ∈ rows -> find (key r) rows = Some r.
Proof.
  intros Hnd Hr. destruct (find (key r) rows) as [r'|] eqn:Hf; [|by destruct (find_None _ _ _ Hf Hr)].
  apply find_Some in Hf as [Hr' He]. f_equal. by eapply same_key.
Qed.

Lemma keyed_mono n n' rows : n <= n' -> keyed n rows -> keyed n' rows.
Proof. intros Hn [K1 K2 K3]. split; [done| |done]. eapply Forall_impl; [done|]. cbn. lia. Qed.
Lemma keyed_sublist n rows rows' : sublist rows' rows -> keyed n rows -> keyed n rows'.
Proof.
  intros Hs [K1 K2 K3]. split.
  - eapply sublist_NoDup; [exact K1|by apply fmap_sublist].
  - rewrite Forall_forall in *. intros r Hr. apply K2. by eapply sublist_subseteq.
  - eapply sublist_NoDup; [exact K3|by apply fmap_sublist].
Qed.
Lemma keyed_update n i f rows :
  (forall r, id_of (f r) = id_of r) -> (forall r, key (f r) = key r) -> keyed n rows -> keyed n (update id_of i f rows).
Proof.
  intros Hi Hk [K1 K2 K3]. split; [by rewrite update_ids| |].
  - rewrite Forall_forall in *. intros r [(x & Hx & _ & ->)|[Hr _]]%elem_of_update; [rewrite Hi|]; auto.
  - replace (key <$> update id_of i f rows) with (key <$> rows); [done|]. unfold update. rewrite <- list_fmap_compose.
    apply list_fmap_ext. intros _ r _. cbn. by destruct (_ =? _); [rewrite Hk|].
Qed.
Lemma keyed_add n r rows : id_of r = n -> find (key r) rows = None -> keyed n rows -> keyed (n + 1) (rows ++ [r]).
Proof.
  intros <- Hf [K1 K2 K3]. rewrite Forall_forall in K2. split.
  - rewrite fmap_app. apply NoDup_app. split; [done|]. split; [|apply NoDup_singleton].
    intros i (x & -> & Hx)%list_elem_of_fmap He%list_elem_of_singleton. specialize (K2 x Hx). lia.
  - rewrite Forall_app, Forall_singleton, Forall_forall. split; [|lia]. intros x Hx. specialize (K2 x Hx). lia.
  - rewrite fmap_app. apply NoDup_app. split; [done|]. split; [|apply NoDup_singleton].
    intros k (x & -> & Hx)%list_elem_of_fmap He%list_elem_of_singleton. by eapply find_None.
Qed.

Lemma find_update n rows r f k :
  (forall r, key (f r) = key r) -> keyed n rows -> r ∈ rows ->
  find k (update id_of (id_of r) f rows) = if bool_decide (k = key r) then Some (f r) else find k rows.
Proof.
  intros Hk [K1 _ K3] Hr. unfold find, update. rewrite scalar_fmap by (intros x; cbn; destruct (id_of x =? id_of r); by rewrite ?Hk).
  case_bool_decide as He.
  - subst k. fold (find (key r) rows). rewrite find_elem by done. cbn. by rewrite Z.eqb_refl.
  - fold (find k rows). destruct (find k rows) as [x|] eqn:Hf; [|done]. apply find_Some in Hf as [Hx <-]. cbn.
    destruct (id_of x =? id_of r) eqn:Hi; [|done]. boolP. by destruct He; rewrite (same_id id_of rows x r).
Qed.
Lemma find_add rows r k :
  find (key r) rows = None -> find k (rows ++ [r]) = if bool_decide (k = key r) then Some r else find k rows.
Proof.
  intros Hf. unfold find in *. induction rows as [|x rows IH]; cbn [app scalar] in *; rewrite pair_eqb in *.
  - rewrite (bool_decide_ext (key r = k) (k = key r)) by done. by case_bool_decide.
  - destruct (bool_decide (key x = key r)) eqn:Hx; [done|]. destruct (bool_decide (key x = k)) eqn:Hk; [|by apply IH].
    boolP. case_bool_decide; congruence.
Qed.
End Keyed.

Definition perm_key (p : UserProtocolPermission) : Z * Z := (perm_user p, perm_profile p).
Definition asg_key (a : UserServerAssignment) : Z * Z := (asg_user a, asg_server a).
Record grants_wf (d : DB) : Prop := {
  wf_permissions : keyed perm_id perm_key (next_id d) (permissions d);
  wf_assignments : keyed asg_id asg_key (next_id d) (assignments d);
}.
Lemma permission_find uid i d : permission_of uid i d = find perm_key (uid, i) (permissions d).
Proof. done. Qed.
Lemma assignment_find uid i d : assignment_of uid i d = find asg_key (uid, i) (assignments d).
Proof. done. Qed.

Definition grants_rel (d d' : DB) : Prop := next_id d <= next_id d' /\ (grants_wf d -> grants_wf d').
#[export] Instance grants_rel_tx : TxRel grants_rel.
Proof.
  split.
  - split; [intros d; by split|]. intros d1 d2 d3 [H1 H2] [H3 H4]. split; [lia|auto].
  - by intros d d' [? _].
  - intros d n Hn. split; [done|]. intros [H1 H2]. split; by eapply keyed_mono.
Qed.
(** What leaves the grants alone, or deletes some, is no concern. *)
Definition elsewhere (d d' : DB) : Prop :=
  next_id d <= next_id d' /\ sublist (permissions d') (permissions d) /\ sublist (assignments d') (assignments d).
Lemma rel_elsewhere d d' : elsewhere d d' -> grants_rel d d'.
Proof.
  intros (Hn & Hp & Ha). split; [done|]. intros [H1 H2].
  split; (eapply keyed_mono; [exact Hn|]; eapply keyed_sublist; [done|]; done).
Qed.

Lemma rel_update_permission i f d :
  (forall p, perm_id (f p) = perm_id p) -> (forall p, perm_key (f p) = perm_key p) -> grants_rel d (update_permission i f d).
Proof. intros H1 H2. split; [cbn; lia|]. intros [W1 W2]. split; [by apply keyed_update|done]. Qed.
Lemma rel_update_assignment i f d :
  (forall a, asg_id (f a) = asg_id a) -> (forall a, asg_key (f a) = asg_key a) -> grants_rel d (update_assignment i f d).
Proof. intros H1 H2. split; [cbn; lia|]. intros [W1 W2]. split; [done|by apply keyed_update]. Qed.
Lemma rel_new_permission uid i by_ now d :
  permission_of uid i d = None ->
  grants_rel d (add_permission (new_permission (next_id d) uid i by_ now) (with_next_id (next_id d + 1) d)).
Proof.
  intros Hn. split; [cbn; lia|]. intros [W1 W2]. split; cbn; [by apply keyed_add|]. eapply keyed_mono; [|done]. lia.
Qed.
Lemma rel_new_assignment uid i by_ now d :
  assignment_of uid i d = None ->
  grants_rel d (add_assignment (new_assignment (next_id d) uid i by_ now) (with_next_id (next_id d + 1) d)).
Proof.
  intros Hn. split; [cbn; lia|]. intros [W1 W2]. split; cbn; [|by apply keyed_add]. eapply keyed_mono; [|done]. lia.
Qed.

(** ** Every operation *)

Notation traced := (TxLogic.traced grants_rel).
Lemma traced_flush {E} (e : E) w : traced (flush e) w.
Proof. unfold TxLogic.traced, wp, flush. cbn. split; [lia|]. by destruct (_ && _). Qed.
Lemma traced_grant_event {E} who k t c r w : traced (audit_event (E := E) who k t c r) w.
Proof. apply traced_write; [apply _|]. apply rel_elsewhere. by split. Qed.
#[local] Hint Resolve traced_flush traced_grant_event : traced.
#[local] Hint Extern 4 (TxLogic.traced _ (write _) _) =>
  (apply traced_write; [apply _|]; solve [apply rel_update_permission; intros ?; try case_bool_decide; done
                                         | apply rel_update_assignment; intros ?; try case_bool_decide; done]) : traced.

Lemma traced_grant uid i admin now w : traced (AccessService._grant uid i admin now) w.
Proof.
  unfold AccessService._grant, AccessService.rejected. apply traced_bind; [apply _|trace|]. intros _ w1 _ _.
  apply traced_bind; [apply _|trace|]. intros pf w2 _ _. destruct pf as [pf|]; [|trace].
  apply traced_bind; [apply _|trace|]. intros p w3 [Hp ->]%read_ok _. destruct p as [p|].
  - case_bool_decide; trace.
  - apply (traced_draw _ (fun i0 => add_permission (new_permission i0 uid i (Some admin) now))); [|intros; trace].
    by apply rel_new_permission.
Qed.
Lemma traced_assign uid i admin now w : traced (AccessService._assign uid i admin now) w.
Proof.
  unfold AccessService._assign, AccessService.rejected. apply traced_bind; [apply _|trace|]. intros _ w1 _ _.
  apply traced_bind; [apply _|trace|]. intros sv w2 _ _. destruct sv as [sv|]; [|trace].
  apply traced_bind; [apply _|trace|]. intros a w3 [Ha ->]%read_ok _. destruct a as [a|].
  - case_bool_decide; trace.
  - apply (traced_draw _ (fun i0 => add_assignment (new_assignment i0 uid i (Some admin) now))); [|intros; trace].
    by apply rel_new_assignment.
Qed.
#[local] Hint Resolve traced_grant traced_assign : traced.
Lemma traced_grant_each uid l admin now w : traced (AccessService.grant_each uid l admin now) w.
Proof. revert w. induction l as [|i l IH]; intros w; cbn; [trace|]. apply traced_bind; [apply _|trace|]. intros ? ? _ _. apply traced_bind; [apply _|apply IH|]. intros. trace. Qed.
Lemma traced_count {A} (f : Z -> AccessService.T (A * bool)) l n w :
  (forall i w, traced (f i) w) -> traced (AccessService.count_changed f l n) w.
Proof. intros Hf. revert n w. induction l as [|i l IH]; intros n w; cbn; [trace|]. apply traced_bind; [apply _|apply Hf|]. intros. apply IH. Qed.
Lemma traced_seed_grant uid now p w : traced (AccessSeed.grant_one uid now p) w.
Proof.
  unfold AccessSeed.grant_one. apply traced_bind; [apply _|trace|]. intros _ w1 _ _. apply traced_bind; [apply _|trace|].
  intros q w2 [Hq ->]%read_ok _. apply traced_bind; [apply _| |intros; trace]. destruct q as [q|]; [trace|].
  apply (traced_draw _ (fun i0 => add_permission (new_permission i0 uid (profile_id p) None now))); [|intros; trace].
  by apply rel_new_permission.
Qed.
Lemma traced_seed_assign uid i now w : traced (AccessSeed.assign_one uid i now) w.
Proof.
  unfold AccessSeed.assign_one. apply traced_bind; [apply _|trace|].
  intros q w2 [Hq ->]%read_ok _. apply traced_bind; [apply _| |intros; trace]. destruct q as [q|]; [trace|].
  apply (traced_draw _ (fun i0 => add_assignment (new_assignment i0 uid i None now))); [|intros; trace].
  by apply rel_new_assignment.
Qed.
#[local] Hint Resolve traced_grant_each traced_seed_grant traced_seed_assign : traced.
Lemma traced_seed_list uid now l w : traced (AccessSeed.grant_list uid now l) w.
Proof. revert w. induction l as [|i l IH]; intros w; cbn; [trace|]. apply traced_bind; [apply _|trace|]. intros ? ? _ _. apply traced_bind; [apply _|apply IH|]. intros. trace. Qed.
#[local] Hint Resolve traced_seed_list : traced.

Section Calls.
Context `{Identity.EmailValidator} (collates : text -> text -> bool).

Inductive access_call :=
| GrantPermission (uid profile admin now : Z)
| GrantPermissions (uid : Z) (profiles : list Z) (admin now : Z)
| RevokePermission (uid profile admin now : Z)
| AssignServer (uid server admin now : Z)
| RevokeAssignment (uid server admin now : Z)
| AssignToEveryone (server admin now : Z)
| GrantToEveryone (profile admin now : Z)
| SeedAccess (address server : text) (now : Z).
Definition give (c : access_call) (w : world) : world :=
  match c with
  | GrantPermission u p a now => (AccessService.grant_permission u p a now w).2
  | GrantPermissions u ps a now => (AccessService.grant_permissions u ps a now w).2
  | RevokePermission u p a now => (AccessService.revoke_permission u p a now w).2
  | AssignServer u s a now => (AccessService.assign_server u s a now w).2
  | RevokeAssignment u s a now => (AccessService.revoke_assignment u s a now w).2
  | AssignToEveryone s a now => (AccessService.assign_server_to_everyone s a now w).2
  | GrantToEveryone p a now => (AccessService.grant_profile_to_everyone p a now w).2
  | SeedAccess e s now => (AccessSeed.grant_user_server_access collates e s now w).2
  end.

Lemma rel_transact {E A} (e : E) (m : prog world (failure E) A) w : traced m w -> grants_rel (db w) (db (transact e m w).2).
Proof. intros Ht. exact (transact_traced grants_rel e m w Ht). Qed.
Lemma rel_grant_permissions u ps a now w : grants_rel (db w) (db (AccessService.grant_permissions u ps a now w).2).
Proof. apply rel_transact. trace. Qed.
Lemma give_rel c w : grants_rel (db w) (db (give c w)).
Proof.
  destruct c as [u p a now|u ps a now|u p a now|u s a now|u s a now|s a now|p a now|e s now]; cbn [give].
  - change (keeps grants_rel (AccessService.grant_permission u p a now) w). apply keeps_bind; [apply _|apply rel_grant_permissions|].
    intros [|? ?] w' _; [apply keeps_raise, _|apply keeps_ret, _].
  - apply rel_grant_permissions.
  - apply rel_transact. unfold AccessService.revoke_permission_body, AccessService.rejected. trace.
  - apply rel_transact. trace.
  - apply rel_transact. unfold AccessService.revoke_assignment_body, AccessService.rejected. trace.
  - apply rel_transact. apply traced_bind; [apply _|trace|]. intros. apply traced_count. intros. trace.
  - apply rel_transact. apply traced_bind; [apply _|trace|]. intros. apply traced_count. intros. trace.
  - unfold AccessSeed.grant_user_server_access. destruct (Identity.normalize_email e); [|reflexivity].
    apply rel_transact. unfold AccessSeed.grant_body, AccessSeed.value_error. trace.
Qed.

(** The grants as time goes by: a call that changes them, or anything else,
    which only deletes some. *)
Inductive passes (w w' : world) : Prop :=
| asked c : w' = give c w -> passes w w'
| aside : elsewhere (db w) (db w') -> passes w w'.
Lemma passes_wf w w' : rtc passes w w' -> grants_wf (db w) -> grants_wf (db w').
Proof.
  intros Hr. induction Hr as [|w1 w2 w3 Hs _ IH]; [done|]. intros Hw. apply IH.
  destruct Hs as [c ->|He]; [by apply give_rel|by apply (rel_elsewhere (db w1))].
Qed.

(** ** The two readers agree *)

Lemma permission_unique d uid i p : grants_wf d -> p ∈ permissions d -> perm_user p = uid -> perm_profile p = i ->
  permission_of uid i d = Some p.
Proof. intros [[_ _ Hk] _] Hp <- <-. rewrite permission_find. by apply (find_elem perm_key). Qed.
Lemma assignment_unique d uid i a : grants_wf d -> a ∈ assignments d -> asg_user a = uid -> asg_server a = i ->
  assignment_of uid i d = Some a.
Proof. intros [_ [_ _ Hk]] Ha <- <-. rewrite assignment_find. by apply (find_elem asg_key). Qed.

Lemma require_permission_iff d uid i now : grants_wf d ->
  Provisioning._require_permission uid i now d = (Ok tt, d) <-> Access.has_permission uid i now d = true.
Proof.
  intros Hw. split; [by intros [_ Hh]%Provisioning.require_permission_ok|].
  intros (p & Hp & Hu & Hi & Hs & He)%Access.has_permission_spec. unfold Provisioning._require_permission.
  erewrite bind_ok by reflexivity. change (scalar _ (permissions d)) with (permission_of uid i d).
  rewrite (permission_unique d uid i p) by done. erewrite bind_ok by reflexivity.
  unfold Provisioning.guard. rewrite bool_decide_eq_true_2 by done. erewrite bind_ok by reflexivity.
  by apply Access.unexpired_spec in He as ->.
Qed.
Lemma require_assignment_iff d uid i now : grants_wf d ->
  Provisioning._require_assignment uid i now d = (Ok tt, d) <-> Access.has_assignment uid i now d = true.
Proof.
  intros Hw. split; [by intros [_ Hh]%Provisioning.require_assignment_ok|].
  intros (a & Ha & Hu & Hi & Hs & He)%Access.has_assignment_spec. unfold Provisioning._require_assignment.
  erewrite bind_ok by reflexivity. change (scalar _ (assignments d)) with (assignment_of uid i d).
  rewrite (assignment_unique d uid i a) by done. erewrite bind_ok by reflexivity.
  unfold Provisioning.guard. rewrite bool_decide_eq_true_2 by done. erewrite bind_ok by reflexivity.
  by apply Access.unexpired_spec in He as ->.
Qed.

(** A connection request and the expiry sweep read the grants differently: the
    one looks at the one row it finds, the other for any row that will do.
    Whatever administrators and the command line did, they agree. *)
Theorem connection_and_expiry_agree w0 w uid profile server now :
  grants_wf (db w0) -> rtc passes w0 w ->
  (Provisioning._require_permission uid profile now (db w) = (Ok tt, db w) <->
   Access.has_permission uid profile now (db w) = true) /\
  (Provisioning._require_assignment uid server now (db w) = (Ok tt, db w) <->
   Access.has_assignment uid server now (db w) = true).
Proof.
  intros Hw Hr. pose proof (passes_wf w0 w Hr Hw) as Hw'. split; [by apply require_permission_iff|by apply require_assignment_iff].
Qed.
End Calls.

(** ** Taking access back *)

(** What a grant is for. *)
Inductive subject := Profile (i : Z) | Server (i : Z).
Definition covers (t : subject) (r : Row) : Prop :=
  match t with Profile i => row_profile r = i | Server i => row_server r = i end.
Definition taken (t : subject) (uid : Z) (w w' : world) : Prop :=
  match t with
  | Profile i => exists admin now s, AccessService.revoke_permission uid i admin now w = (Ok s, w')
  | Server i => exists admin now s, AccessService.revoke_assignment uid i admin now w = (Ok s, w')
  end.

(** What the revocations leave: the row, withdrawn. *)
Lemma revoke_permission_ok uid i admin now w s w' :
  grants_wf (db w) -> AccessService.revoke_permission uid i admin now w = (Ok s, w') ->
  exists p, permission_of uid i (db w') = Some p /\ perm_state p = CapabilityState.DISABLED.
Proof.
  intros Hw [Hb _]%transact_ok. apply bind_ok_inv in Hb as (o & w1 & [-> ->]%read_ok & Hb).
  destruct (permission_of uid i (db w)) as [p|] eqn:Hp; [|done]. apply bind_ok_inv in Hb as (pf & w1 & [_ ->]%read_ok & Hb).
  destruct pf as [pf|]; [|done]. case_bool_decide as Hs; [injection Hb as <- <-; eauto|].
  apply bind_ok_inv in Hb as (? & ? & ->%write_ok & Hb). apply bind_ok_inv in Hb as (? & ? & ->%write_ok & Hb).
  injection Hb as <- <-. rewrite permission_find in Hp |- *. pose proof (find_Some _ _ _ _ Hp) as [Hin Hk]. cbn -[find update].
  eexists. rewrite (find_update perm_id perm_key (next_id (db w))); [|done|apply Hw|done].
  by rewrite bool_decide_eq_true_2.
Qed.
Lemma revoke_assignment_ok uid i admin now w s w' :
  grants_wf (db w) -> AccessService.revoke_assignment uid i admin now w = (Ok s, w') ->
  exists a, assignment_of uid i (db w') = Some a /\ asg_state a = LifecycleState.REVOKED.
Proof.
  intros Hw [Hb _]%transact_ok. apply bind_ok_inv in Hb as (o & w1 & [-> ->]%read_ok & Hb).
  destruct (assignment_of uid i (db w)) as [a|] eqn:Ha; [|done]. apply bind_ok_inv in Hb as (sv & w1 & [_ ->]%read_ok & Hb).
  destruct sv as [sv|]; [|done]. case_bool_decide as Hs; [injection Hb as <- <-; eauto|].
  apply bind_ok_inv in Hb as (? & ? & ->%write_ok & Hb). apply bind_ok_inv in Hb as (? & ? & ->%write_ok & Hb).
  injection Hb as <- <-. rewrite assignment_find in Ha |- *. pose proof (find_Some _ _ _ _ Ha) as [Hin Hk]. cbn -[find update].
  eexists. rewrite (find_update asg_id asg_key (next_id (db w))); [|done|apply Hw|done].
  by rewrite bool_decide_eq_true_2.
Qed.
Lemma revocations_rel {A E} (e : E) (m : prog world (failure E) A) w a w' :
  TxLogic.traced grants_rel m w -> transact e m w = (Ok a, w') -> grants_wf (db w) -> grants_wf (db w').
Proof. intros Ht Hm. pose proof (transact_traced grants_rel e m w Ht) as Hr. rewrite Hm in Hr. apply Hr. Qed.

(** The grant [t] does not hold any more, for either reader. *)
Definition withdrawn (t : subject) (uid : Z) (d : DB) : Prop :=
  match t with
  | Profile i => forall now, Access.has_permission uid i now d = false
  | Server i => forall now, Access.has_assignment uid i now d = false
  end.
Lemma taken_withdrawn t uid w w' : grants_wf (db w) -> taken t uid w w' -> withdrawn t uid (db w').
Proof.
  intros Hw. destruct t as [i|i]; cbn [taken withdrawn]; intros (admin & now & s & Hr) t.
  - assert (grants_wf (db w')) as Hw'.
    { eapply revocations_rel; [|exact Hr|done]. unfold AccessService.revoke_permission_body, AccessService.rejected. trace. }
    destruct (revoke_permission_ok _ _ _ _ _ _ _ Hw Hr) as (p & Hp & Hs).
    apply not_true_is_false. intros (q & Hq & Hu & Hi & He & _)%Access.has_permission_spec.
    rewrite (permission_unique (db w') uid i q) in Hp by done. congruence.
  - assert (grants_wf (db w')) as Hw'.
    { eapply revocations_rel; [|exact Hr|done]. unfold AccessService.revoke_assignment_body, AccessService.rejected. trace. }
    destruct (revoke_assignment_ok _ _ _ _ _ _ _ Hw Hr) as (a & Ha & Hs).
    apply not_true_is_false. intros (q & Hq & Hu & Hi & He & _)%Access.has_assignment_spec.
    rewrite (assignment_unique (db w') uid i q) in Ha by done. congruence.
Qed.

Lemma taken_db_wf t uid w w' : taken t uid w w' -> db_wf (db w) -> db_wf (db w').
Proof.
  destruct t as [i|i]; cbn [taken]; intros (admin & now & s & [Hb _]%transact_ok);
    apply bind_ok_inv in Hb as (o & w1 & [_ ->]%read_ok & Hb); (destruct o as [x|]; [|done]);
    apply bind_ok_inv in Hb as (y & w1 & [_ ->]%read_ok & Hb); (destruct y as [y|]; [|done]);
    (case_bool_decide; [injection Hb as <- <-; done|]);
    apply bind_ok_inv in Hb as (? & ? & ->%write_ok & Hb); apply bind_ok_inv in Hb as (? & ? & ->%write_ok & Hb);
    injection Hb as <- <-; intros [[] ?]; by repeat constructor.
Qed.

(** A permission or assignment that was taken back is gone: no connection request
    that needs it is authorised, and the next expiry sweep, whenever it runs,
    leaves the account no live peer or client that relied on it. *)
Theorem taken_access_is_gone t uid w w' :
  grants_wf (db w) -> db_wf (db w) -> taken t uid w w' ->
  (forall dev server profile now d p s c d2,
     Provisioning.authorise uid dev server profile now (db w') = (Ok (d, p, s, c), d2) ->
     match t with Profile i => profile_id p <> i | Server i => server_id s <> i end) /\
  (forall now, exists sm d', Access.enforce_access_expiry now (db w') = (Ok sm, d') /\
     forall r d u, r ∈ all_rows d' -> Access.owner d' r = Some (d, u) -> user_id u = uid -> covers t r ->
       in_states Access._LIVE_CREDENTIAL_STATES (state r) = false).
Proof.
  intros Hw Hwf Ht. pose proof (taken_withdrawn t uid w w' Hw Ht) as Hno.
  split.
  - intros dev server profile now d p s c d2 [-> (_ & _ & _ & _ & _ & Hp & Ha)]%Provisioning.authorise_ok.
    destruct t as [i|i]; cbn in Hno; intros <-; by rewrite Hno in *.
  - intros now. assert (db_wf (db w')) as Hwf' by (by eapply taken_db_wf).
    destruct (Access.expiry_run now (db w') Hwf') as (sm & d' & Hrun & _ & Hf & _). exists sm, d'. split; [done|].
    intros r d u Hr Ho Hu Hc. pose proof (Access.expiry_leaves_none now (db w') sm d' r Hwf' Hrun Hr) as Hl.
    unfold Access.lapsed in Hl. rewrite Ho in Hl. unfold Access.lapsed_row in Hl. destruct Hf as [Hp Ha].
    unfold Access.has_permission, Access.has_assignment in Hl. rewrite Hp, Ha in Hl.
    fold (Access.has_permission (user_id u) (row_profile r) now (db w')) in Hl.
    fold (Access.has_assignment (user_id u) (row_server r) now (db w')) in Hl.
    destruct t as [i|i]; cbn in Hno, Hc; subst; rewrite Hno in Hl; destruct (in_states _ _); [|done|..]; by rewrite ?orb_true_r in Hl.
Qed.

End AccessLife.
