(* ===== verification/Reconciliation.v ===== *)
(** * Reconciliation

    Models [nebula_api/provisioning/reconciliation.py]: one pass over the
    WireGuard peers or the Xray clients asks the agent about each row in flight
    or in steady state, recovers rows whose operation had landed, and re-issues
    what had not; a third pass lets the agent drop Xray credentials no live row
    accounts for.  The source keeps two siblings of every function, one per
    table; here the table is a parameter, and what differs between them (how
    the agent is asked) is a [Target]. *)

From Stdlib Require Import Sorted.
From S2P Require Import Prelude PyText PyBytes IpAddress WgConfig WgDriver Usage ApiStore XrayCredential Access Provisioning.
Import Db XrayCredential Provisioning.

Module Reconciliation.

Definition _CANDIDATE_STATES : list ProvisioningState.t :=
  [ProvisioningState.ACTIVE; ProvisioningState.APPLYING; ProvisioningState.REVOKING].
Definition _RUNNING_STUCK_STATES : list ProvisioningState.t :=
  [ProvisioningState.APPLYING; ProvisioningState.REVOKING].
Definition _ORPHANABLE_STATES : list ProvisioningState.t :=
  [ProvisioningState.REQUESTED; ProvisioningState.APPLYING; ProvisioningState.ACTIVE].
Definition _MAX_ATTEMPT_COUNT : Z := 100.

Record ReconciliationSummary := {
  checked : Z;
  in_sync : Z;
  repaired : Z;
  repair_failed : Z;
  ambiguous : Z;
  errored : Z;
}.
Definition empty_summary : ReconciliationSummary :=
  {| checked := 0; in_sync := 0; repaired := 0; repair_failed := 0; ambiguous := 0; errored := 0 |}.
Definition had_problems (s : ReconciliationSummary) : bool :=
  (0 <? repair_failed s) || (0 <? ambiguous s) || (0 <? errored s).

Inductive counter := Checked | InSync | Repaired | RepairFailed | Ambiguous | Errored.
Definition count (k : counter) (s : ReconciliationSummary) : ReconciliationSummary :=
  let n k' x := match k, k' with
                | Checked, Checked | InSync, InSync | Repaired, Repaired | RepairFailed, RepairFailed
                | Ambiguous, Ambiguous | Errored, Errored => x + 1
                | _, _ => x
                end in
  {| checked := n Checked (checked s); in_sync := n InSync (in_sync s);
     repaired := n Repaired (repaired s); repair_failed := n RepairFailed (repair_failed s);
     ambiguous := n Ambiguous (ambiguous s); errored := n Errored (errored s) |}.

(** ** Rows whose owner is gone *)

Definition orphaned (db : DB) (r : Row) : bool :=
  in_states _ORPHANABLE_STATES (state r) &&
  match Access.owner db r with
  | Some (d, u) => bool_decide (device_state d = LifecycleState.REVOKED) ||
                   bool_decide (user_state u = AccountState.DISABLED)
  | None => false
  end.

Definition mark_revoking_row (m : model) (now : Z) (db : DB) (r : Row) : DB :=
  settle m now (row_id r) (credential_id r) (set_state ProvisioningState.REVOKING)
    (set_cred_state ProvisioningState.REVOKING) db.

Definition _mark_orphaned_revoking (m : model) (now : Z) : prog DB exn Z :=
  transaction IntegrityError (fun db =>
    let rows := scalars (orphaned db) (table m db) in
    (Ok (Z.of_nat (length rows)), foldl (mark_revoking_row m now) db rows)).

(** ** Candidates: [ORDER BY updated_at LIMIT n] *)

Fixpoint insert_by_age (r : Row) (rows : list Row) : list Row :=
  match rows with
  | [] => [r]
  | r' :: rows' => if updated_at r <=? updated_at r' then r :: rows else r' :: insert_by_age r rows'
  end.
Definition oldest_first (rows : list Row) : list Row := foldr insert_by_age [] rows.

Definition server_running (db : DB) (id : Z) : bool :=
  match scalar (fun s => server_id s =? id) (servers db) with
  | Some s => bool_decide (server_state s = ServerState.ACTIVE) ||
              bool_decide (server_state s = ServerState.MAINTENANCE)
  | None => false
  end.

Definition candidate (target_id : option Z) (db : DB) (r : Row) : bool :=
  server_running db (row_server r) && in_states _CANDIDATE_STATES (state r) &&
  match target_id with Some t => row_id r =? t | None => true end.

Definition candidates (m : model) (batch_size : nat) (target_id : option Z) (db : DB) : list Row :=
  take batch_size (oldest_first (scalars (candidate target_id db) (table m db))).

(** ** Recording *)

Definition _reconciliation_error_code (e : agent_error) : text :=
  match e with
  | AgentUnreachable => str "agent_unreachable"
  | AgentRejected _ => str "agent_rejected"
  | AgentResponseAmbiguous => str "agent_response_ambiguous"
  | AgentResponseInvalid => str "agent_response_invalid"
  end.

Definition _record (m : model) (r : Row) (desired : Z) (observed : option Z) (out : text)
    (op : option Z) (err : option text) : prog DB exn unit :=
  transaction IntegrityError (modify (fun db =>
    with_records (records db ++
      [{| rec_server := row_server r; rec_operation := op; rec_kind := kind_of m; rec_target := row_id r;
          rec_desired := desired; rec_observed := observed; rec_outcome := out; rec_error_code := err |}]) db)).

Definition system_event (m : model) (id : Z) (out reason : text) : AuditLog :=
  {| actor := by_system; ev_target_kind := kind_of m; ev_target_id := id; event_code := str "peer_changed";
     outcome := out; reason_code := Some reason |}.

(** [a or b] on integers *)
Definition or_else (a : option Z) (b : Z) : Z :=
  match a with Some n => if n =? 0 then b else n | None => b end.

Definition running_operation (m : model) (id : Z) (db : DB) : option AgentOperation :=
  scalar (fun o => bool_decide (op_target_kind o = kind_of m) && (op_target_id o =? id) &&
                   bool_decide (op_state o = OperationState.RUNNING)) (operations db).

Definition finish_running (m : model) (id : Z) (os : OperationState.t) (now : Z)
    (err : option (option text)) (db : DB) : DB :=
  match running_operation m id db with
  | Some o => update_operation (op_id o) (finish_op os now err) db
  | None => db
  end.

(** ** Recovery *)

Definition recover (m : model) (peer : Row) (observed : option Z) (now : Z) : prog DB exn unit :=
  if negb (in_states _RUNNING_STUCK_STATES (state peer)) then mret tt
  else
    transaction IntegrityError (
      db ← get;
      match get_row m (row_id peer) db with
      | None => mret tt
      | Some fresh =>
          if negb (in_states _RUNNING_STUCK_STATES (state fresh)) then mret tt
          else
            (if bool_decide (state fresh = ProvisioningState.APPLYING) then
               modify (settle m (db_now db) (row_id fresh) (credential_id fresh)
                 (fun r => set_applied (or_else observed (or_else (Some (applied_generation r)) 1)) now
                             (set_state ProvisioningState.ACTIVE r))
                 (set_cred_state ProvisioningState.ACTIVE))
             else
               modify (settle m (db_now db) (row_id fresh) (credential_id fresh)
                 (fun r => set_revoked_at now (set_state ProvisioningState.REVOKED r))
                 (fun c => set_cred_revoked_at now (set_cred_state ProvisioningState.REVOKED c))));;
            modify (finish_running m (row_id fresh) OperationState.SUCCEEDED now None);;
            modify (add_audit_event (system_event m (row_id fresh) (str "succeeded") (str "reconciled")))
      end).

Definition _recover_if_stuck := recover WireGuardPeer.
Definition _recover_stuck_xray_client := recover XrayClient.

(** ** Repair *)

Definition set_attempts (n : Z) (o : AgentOperation) : AgentOperation :=
  {| op_id := op_id o; op_server := op_server o; idempotency_key := idempotency_key o;
     op_kind := op_kind o; op_target_kind := op_target_kind o; op_target_id := op_target_id o;
     op_state := op_state o; op_desired_generation := op_desired_generation o;
     attempt_count := n; finished_at := finished_at o; op_error_code := op_error_code o |}.

(** The operation a repair runs under: the one still running, or a new one. *)
Definition repair_operation (m : model) (peer : Row) (wants_present : bool) (g : Z) :
    prog DB exn (Z * Z) :=
  transaction IntegrityError (
    db ← get;
    match running_operation m (row_id peer) db with
    | None =>
        oid ← uuid4;
        key ← uuid4;
        add_operation (new_operation oid (row_server peer) key
          (if wants_present then provision_device else revoke_device) (kind_of m) (row_id peer) g 1);;
        mret (oid, key)
    | Some o =>
        modify (update_operation (op_id o)
                  (set_attempts (Z.min (attempt_count o + 1) _MAX_ATTEMPT_COUNT)));;
        mret (op_id o, idempotency_key o)
    end).

Definition finalize_repair (m : model) (id : Z) (succeeded : bool) (applied : option Z)
    (wants_present : bool) (now : Z) (error_code : option text) : prog DB exn unit :=
  transaction IntegrityError (
    db ← get;
    match get_row m id db with
    | None => mret tt
    | Some peer =>
        let pending := if wants_present then ProvisioningState.FAILED else ProvisioningState.REVOKING in
        (if succeeded then
           if wants_present then
             modify (settle m (db_now db) (row_id peer) (credential_id peer)
               (fun r => set_applied (or_else applied (applied_generation r)) now
                           (set_state ProvisioningState.ACTIVE r))
               (set_cred_state ProvisioningState.ACTIVE))
           else
             modify (settle m (db_now db) (row_id peer) (credential_id peer)
               (fun r => set_revoked_at now (set_state ProvisioningState.REVOKED r))
               (fun c => set_cred_revoked_at now (set_cred_state ProvisioningState.REVOKED c)))
         else
           modify (settle m (db_now db) (row_id peer) (credential_id peer) (set_state pending)
                     (set_cred_state pending)));;
        modify (finish_running m (row_id peer)
          (if succeeded then OperationState.SUCCEEDED else OperationState.FAILED) now (Some error_code));;
        modify (add_audit_event (system_event m (row_id peer)
          (if succeeded then str "succeeded" else str "failed")
          (if succeeded then str "reconciliation_repaired" else str "reconciliation_repair_failed")))
    end).

Definition _finalize_repair := finalize_repair WireGuardPeer.
Definition _finalize_xray_repair := finalize_repair XrayClient.

(** The answer to a repair: the state it ended in, its generation, its error. *)
Record Repaired_ := { r_state : Wg.op_state; r_generation : Z; r_error : option text }.

(** How the agent is asked about a row, and told to make or drop it. *)
Record Target (X : Type) := {
  t_row : Row;
  t_ask : prog (DB * X) agent_error Wg.ReconcileResponse;
  t_provision : Operation -> prog (DB * X) agent_error Repaired_;
  t_revoke : Operation -> prog (DB * X) agent_error Repaired_;
}.
#[global] Arguments t_row {X}.
#[global] Arguments t_ask {X}.
#[global] Arguments t_provision {X}.
#[global] Arguments t_revoke {X}.

Definition desired_generation (r : Row) : Z := if 0 <? applied_generation r then applied_generation r else 1.
Definition wants_present (r : Row) : bool := bool_decide (state r <> ProvisioningState.REVOKING).

Inductive repair_outcome := repair_succeeded | repair_failed_ | repair_ambiguous.
Definition outcome_name (o : repair_outcome) : text :=
  match o with
  | repair_succeeded => str "repair_succeeded"
  | repair_failed_ => str "repair_failed"
  | repair_ambiguous => str "ambiguous"
  end.

Section Pass.
Context {X : Type} `{AgentClient X} `{AEAD} (ring : list (Z * text)).
Abbreviation world := (DB * X)%type.
Abbreviation pass := (prog (world * ReconciliationSummary) exn).

Definition in_world {A} (p : prog world exn A) : pass A := fun '(w, s) =>
  let '(r, w') := p w in (r, (w', s)).
Definition tally (k : counter) : pass unit := modify (fun '(w, s) => (w, count k s)).

Definition repair (m : model) (t : Target X) (now : Z) :
    prog world exn (repair_outcome * Z * option text) :=
  let peer := t_row t in
  let wants := wants_present peer in
  '(oid, key) ← in_db (repair_operation m peer wants (desired_generation peer));
  let op := {| idem := key; target := row_id peer |} in
  answer ← try_agent (if wants then t_provision t op else t_revoke t op);
  match answer with
  | inr ((AgentUnreachable | AgentRejected _) as e) =>
      let code_ := Some (_reconciliation_error_code e) in
      in_db (finalize_repair m (row_id peer) false None wants now code_);;
      mret (repair_failed_, oid, code_)
  | inr e => mret (repair_ambiguous, oid, Some (_reconciliation_error_code e))
  | inl resp =>
      let succeeded := bool_decide (r_state resp = if wants then Wg.active else Wg.revoked) in
      let code_ := if succeeded then None
                   else Some (match r_error resp with
                              | None | Some [] => str "reconciliation_repair_failed"
                              | Some c => c end) in
      in_db (finalize_repair m (row_id peer) succeeded (Some (r_generation resp)) wants now code_);;
      mret (if succeeded then repair_succeeded else repair_failed_, oid, code_)
  end.

Definition _repair := repair WireGuardPeer.
Definition _repair_xray_client := repair XrayClient.

Definition reconcile_target (m : model) (t : Target X) (now : Z) : pass unit :=
  let peer := t_row t in
  let g := desired_generation peer in
  let note obs out op err := in_world (in_db (_record m peer g obs out op err)) in
  answer ← in_world (try_agent (t_ask t));
  match answer with
  | inr e =>
      tally Ambiguous;;
      note None (str "ambiguous") None (Some (_reconciliation_error_code e))
  | inl resp =>
      let obs := Wg.observed_generation resp in
      if bool_decide (Wg.q_outcome resp = Wg.ambiguous) then
        tally Ambiguous;;
        note obs (str "ambiguous") None (Wg.q_error_code resp)
      else if Bool.eqb (bool_decide (Wg.q_outcome resp = Wg.in_sync)) (wants_present peer) then
        tally InSync;;
        note obs (str "in_sync") None None;;
        in_world (in_db (recover m peer obs now))
      else
        note obs (str "repair_requested") None None;;
        '(out, oid, code_) ← in_world (repair m t now);
        tally (match out with
               | repair_succeeded => Repaired | repair_failed_ => RepairFailed
               | repair_ambiguous => Ambiguous end);;
        note None (outcome_name out) (Some oid) code_
  end.

(** WireGuard: by public key and address. *)
Definition wireguard_target (r : Row) : Target X :=
  let key := default [] (public_key r) in
  let address := default (IPv4Address 0) (assigned_address r) in
  let g := desired_generation r in
  {| t_row := r;
     t_ask := agent_reconcile (row_server r)
       {| Wg.q_public_key := key; Wg.q_assigned_address := address; Wg.q_desired_generation := g |};
     t_provision op := fun w =>
       match agent_provision (row_server r) op
               {| Wg.p_public_key := key; Wg.p_assigned_address := address;
                  Wg.p_desired_generation := g; Wg.p_keepalive := None |} w with
       | (Ok p, w') => (Ok {| r_state := Wg.p_state p; r_generation := Wg.p_applied_generation p;
                              r_error := Wg.p_error_code p |}, w')
       | (Err e, w') => (Err e, w')
       end;
     t_revoke op := fun w =>
       match agent_revoke (row_server r) op
               {| Wg.r_public_key := key; Wg.r_desired_generation := g |} w with
       | (Ok p, w') => (Ok {| r_state := Wg.o_state p; r_generation := Wg.o_applied_generation p;
                              r_error := Wg.o_error_code p |}, w')
       | (Err e, w') => (Err e, w')
       end |}.

Definition _reconcile_one (r : Row) (now : Z) : pass unit :=
  reconcile_target WireGuardPeer (wireguard_target r) now.

(** Xray: by the client UUID and the code the agent knows the profile by. *)
Definition xray_target (r : Row) (u : Z) (code_ : text) : Target X :=
  let request := {| client_uuid := u; protocol_profile_code := code_;
                    x_desired_generation := desired_generation r |} in
  {| t_row := r;
     t_ask := agent_reconcile_xray (row_server r) request;
     t_provision op := fun w =>
       match agent_provision_xray (row_server r) op request w with
       | (Ok p, w') => (Ok {| r_state := x_state p; r_generation := x_applied_generation p;
                              r_error := x_error_code p |}, w')
       | (Err e, w') => (Err e, w')
       end;
     t_revoke op := fun w =>
       match agent_revoke_xray (row_server r) op request w with
       | (Ok p, w') => (Ok {| r_state := Wg.o_state p; r_generation := Wg.o_applied_generation p;
                              r_error := Wg.o_error_code p |}, w')
       | (Err e, w') => (Err e, w')
       end |}.

Definition _decrypt_client_uuid (r : Row) (db : DB) : option Z :=
  c ← get_credential (credential_id r) db; client_uuid_of ring c.

Definition _reconcile_one_xray_client (r : Row) (code_ : text) (now : Z) : pass unit :=
  '((db, _), _) ← get;
  match _decrypt_client_uuid r db with
  | None =>
      tally Ambiguous;;
      in_world (in_db (_record XrayClient r (desired_generation r) None (str "ambiguous") None
                         (Some (str "credential_unreadable"))))
  | Some u => reconcile_target XrayClient (xray_target r u code_) now
  end.

(** [except Exception: summary.errored += 1] *)
Definition contained (p : pass unit) : pass unit := fun w =>
  match p w with
  | (Ok u, w') => (Ok u, w')
  | (Err _, w') => tally Errored w'
  end.

Fixpoint each {A} (f : A -> pass unit) (rows : list A) : pass unit :=
  match rows with
  | [] => mret tt
  | r :: rows' => tally Checked;; contained (f r);; each f rows'
  end.

Definition run_reconciliation (batch_size : nat) (target_id : option Z) (now : Z) :
    prog world exn ReconciliationSummary := fun w =>
  match in_db (_mark_orphaned_revoking WireGuardPeer now) w with
  | (Err e, w') => (Err e, w')
  | (Ok _, w') =>
      let peers := candidates WireGuardPeer batch_size target_id w'.1 in
      match each (fun r => _reconcile_one r now) peers (w', empty_summary) with
      | (Ok _, (w'', s)) => (Ok s, w'')
      | (Err e, (w'', s)) => (Err e, w'')
      end
  end.

(** An Xray candidate comes with its profile's code. *)
Definition with_profile (db : DB) (r : Row) : option (Row * text) :=
  p ← scalar (fun p => profile_id p =? row_profile r) (profiles db); Some (r, agent_code p).

Definition xray_candidates (batch_size : nat) (target_id : option Z) (db : DB) : list (Row * text) :=
  take batch_size (omap (with_profile db)
    (oldest_first (scalars (candidate target_id db) (xray_clients db)))).

Definition run_xray_reconciliation (batch_size : nat) (target_id : option Z) (now : Z) :
    prog world exn ReconciliationSummary := fun w =>
  match in_db (_mark_orphaned_revoking XrayClient now) w with
  | (Err e, w') => (Err e, w')
  | (Ok _, w') =>
      let clients := xray_candidates batch_size target_id w'.1 in
      match each (fun '(r, code_) => _reconcile_one_xray_client r code_ now) clients (w', empty_summary) with
      | (Ok _, (w'', s)) => (Ok s, w'')
      | (Err e, (w'', s)) => (Err e, w'')
      end
  end.

(** [reconcile_now]; [busy] when the advisory lock is another pass's. *)
Definition reconcile_now (busy : bool) (batch_size : nat) (target_id : option Z) (now : Z) :
    prog world (option exn) (ReconciliationSummary * ReconciliationSummary) := fun w =>
  if busy then (Err None, w)
  else match run_reconciliation batch_size target_id now w with
       | (Err e, w') => (Err (Some e), w')
       | (Ok s1, w') =>
           match run_xray_reconciliation batch_size target_id now w' with
           | (Err e, w'') => (Err (Some e), w'')
           | (Ok s2, w'') => (Ok (s1, s2), w'')
           end
       end.
End Pass.

(** ** Orphaned agent-side credentials *)

Record OrphanPruneSummary := { p_servers : Z; removed : Z; kept : Z; skipped : Z; p_errored : Z }.
Definition empty_prune : OrphanPruneSummary :=
  {| p_servers := 0; removed := 0; kept := 0; skipped := 0; p_errored := 0 |}.

Definition add_prune (servers_ removed_ kept_ skipped_ errored_ : Z) (s : OrphanPruneSummary) :
    OrphanPruneSummary :=
  {| p_servers := p_servers s + servers_; removed := removed s + removed_; kept := kept s + kept_;
     skipped := skipped s + skipped_; p_errored := p_errored s + errored_ |}.

Section Prune.
Context {X : Type} `{AgentClient X} `{AEAD} (ring : list (Z * text)).
Abbreviation world := (DB * X)%type.

Definition live_clients (server : Z) (db : DB) : list (Row * text) :=
  omap (with_profile db) (scalars (fun r => (row_server r =? server) && live r) (xray_clients db)).

(** The clients that should exist on a server; nothing if one of their
    credentials cannot be read. *)
Fixpoint expected_of (rows : list (Row * text)) (db : DB) : option (list (Z * text)) :=
  match rows with
  | [] => Some []
  | (r, code_) :: rows' =>
      u ← _decrypt_client_uuid ring r db;
      rest ← expected_of rows' db;
      Some ((u, code_) :: rest)
  end.

Definition pruned_event (server : Z) : AuditLog :=
  {| actor := by_system; ev_target_kind := vpn_server; ev_target_id := server;
     event_code := str "peer_changed"; outcome := str "succeeded";
     reason_code := Some (str "orphan_pruned") |}.

Definition _prune_one_server (server : Z) : prog (world * OrphanPruneSummary) exn unit := fun '(w, s) =>
  match expected_of (live_clients server w.1) w.1 with
  | None => (Ok tt, (w, add_prune 0 0 0 1 0 s))
  | Some expected =>
      match agent_prune_xray server expected w with
      | (Err _, w') => (Ok tt, (w', add_prune 0 0 0 0 1 s))
      | (Ok (Err _), w') => (Ok tt, (w', add_prune 0 0 0 0 1 s))
      | (Ok (Ok (removed_, kept_)), w') =>
          let s' := add_prune 0 removed_ kept_ 0 0 s in
          if removed_ =? 0 then (Ok tt, (w', s'))
          else let '(r, w'') := in_db (transaction IntegrityError
                                        (modify (add_audit_event (pruned_event server)))) w' in
               (r, (w'', s'))
      end
  end.

Fixpoint prune_each (ids : list Z) : prog (world * OrphanPruneSummary) exn unit := fun '(w, s) =>
  match ids with
  | [] => (Ok tt, (w, s))
  | id :: ids' =>
      match _prune_one_server id (w, add_prune 1 0 0 0 0 s) with
      | (Ok _, ws) => prune_each ids' ws
      | (Err _, (w', s')) => prune_each ids' (w', add_prune 0 0 0 0 1 s')
      end
  end.

Definition run_xray_orphan_prune : prog world exn OrphanPruneSummary := fun w =>
  let ids := server_id <$> scalars (fun s => bool_decide (server_state s = ServerState.ACTIVE) ||
                                             bool_decide (server_state s = ServerState.MAINTENANCE))
                                   (servers w.1) in
  match prune_each ids (w, empty_prune) with
  | (Ok _, (w', s)) => (Ok s, w')
  | (Err e, (w', _)) => (Err e, w')
  end.
End Prune.

(** ** Lemmas: what each transaction leaves *)

Definition no_pending (db : DB) : Prop := Forall (fun o => op_state o <> OperationState.PENDING) (operations db).

(** A database in order for a pass: well formed, and no operation that was
    requested but not started (nothing creates one). *)
Definition ready (db : DB) : Prop := db_wf db /\ no_pending db.

(** The same account data and clock. *)
Definition same_world (db db' : DB) : Prop :=
  users db' = users db /\ devices db' = devices db /\ profiles db' = profiles db /\
  servers db' = servers db /\ db_now db' = db_now db.

(** The rows of table [m] with [f] applied to row [id]; [None]: unchanged. *)
Definition moved (m : model) (id : Z) (f : option (Row -> Row)) (db db' : DB) : Prop :=
  ready db' /\ same_world db db' /\
  (forall m', m' <> m -> table m' db' = table m' db) /\
  table m db' = match f with
                | Some f => update row_id id (fun r => touch (db_now db) (f r)) (table m db)
                | None => table m db
                end.

Lemma moved_none_trans m id f db1 db2 db3 :
  moved m id None db1 db2 -> moved m id f db2 db3 -> moved m id f db1 db3.
Proof.
  unfold moved, same_world. intros (_ & F1 & O1 & T1) (R & F2 & O2 & T2).
  destruct F1 as (? & ? & ? & ? & Hn1), F2 as (? & ? & ? & ? & Hn2).
  split; [done|]. split; [split_and!; congruence|]. split; [intros; rewrite O2, O1; done|].
  rewrite T2, T1, Hn1. done.
Qed.

Lemma moved_trans_none m id f db1 db2 db3 :
  moved m id f db1 db2 -> moved m id None db2 db3 -> moved m id f db1 db3.
Proof.
  unfold moved, same_world. intros (_ & F1 & O1 & T1) (R & F2 & O2 & T2).
  destruct F1 as (? & ? & ? & ? & Hn1), F2 as (? & ? & ? & ? & Hn2).
  split; [done|]. split; [split_and!; congruence|]. split; [intros; rewrite O2, O1; done|].
  rewrite T2, T1. done.
Qed.

Lemma moved_refl m id db : ready db -> moved m id None db db.
Proof. intros. by split_and!. Qed.

Lemma transaction_run {A} (body : prog DB exn A) db a db' :
  body db = (Ok a, db') -> constraints db' = true -> transaction IntegrityError body db = (Ok a, db').
Proof. intros Hb Hc. unfold transaction. by rewrite Hb, Hc. Qed.

Lemma record_ok m id r g obs out op err db :
  ready db -> exists db', _record m r g obs out op err db = (Ok tt, db') /\ moved m id None db db'.
Proof.
  intros [Hwf Hnp]. eexists. split.
  - unfold _record. eapply transaction_run; [reflexivity|]. apply (wf_constraints _ Hwf).
  - split; [|by split_and!]. split; [|exact Hnp]. destruct Hwf as [[] ?]. by repeat constructor.
Qed.

Lemma no_pending_update id f db :
  no_pending db -> (forall o, op_state o <> OperationState.PENDING -> op_state (f o) <> OperationState.PENDING) ->
  no_pending (update_operation id f db).
Proof.
  intros Hnp Hf. apply Forall_fmap. eapply Forall_impl; [exact Hnp|]. intros o Ho. cbn.
  destruct (op_id o =? id); auto.
Qed.

Lemma finish_running_moved m id m' id' os now err db :
  ready db -> os <> OperationState.PENDING -> os <> OperationState.RUNNING ->
  moved m id None db (finish_running m' id' os now err db).
Proof.
  intros [Hwf Hnp] Hp Hr. unfold finish_running. destruct (running_operation m' id' db) as [o|].
  - split; [|by split_and!]. split; [by apply finish_operation_wf|]. by apply no_pending_update.
  - by apply moved_refl.
Qed.

Lemma audit_moved m id ev db : ready db -> moved m id None db (add_audit_event ev db).
Proof. intros [Hwf Hnp]. split; [|by split_and!]. split; [by apply db_wf_audit|exact Hnp]. Qed.

(** A row and its credential changed, its running operation finished. *)
Definition settled (m : model) (r : Row) (f : Row -> Row)
    (g : DeviceProtocolCredential -> DeviceProtocolCredential) (os : OperationState.t) (now : Z)
    (err : option (option text)) (ev : AuditLog) (db : DB) : DB :=
  add_audit_event ev (finish_running m (row_id r) os now err
    (settle m (db_now db) (row_id r) (credential_id r) f g db)).

Lemma settled_moved m r f g os now err ev db :
  ready db -> get_row m (row_id r) db = Some r -> live r = true -> keeps_row f -> keeps_credential g ->
  (forall c, cred_live (g c) = live (f r)) ->
  os <> OperationState.PENDING -> os <> OperationState.RUNNING ->
  moved m (row_id r) (Some f) db (settled m r f g os now err ev db).
Proof.
  intros [Hwf Hnp] Hr Hl Hf Hg Hgl Hp Hru.
  destruct (wf_credential db m r Hwf) as (c & Hc & _); [by apply get_row_elem in Hr as []|].
  pose proof (settle_wf m (db_now db) (row_id r) f g db r c Hwf Hr Hc Hf Hg ltac:(done) (Hgl c)) as Hwf1.
  assert (Hm : moved m (row_id r) (Some f) db (settle m (db_now db) (row_id r) (credential_id r) f g db)).
  { split; [split; [exact Hwf1|exact Hnp]|]. split; [by split_and!|].
    split; [intros m' Hne; by destruct m, m'|by destruct m]. }
  unfold settled. eapply moved_trans_none; [|apply audit_moved].
  - eapply moved_trans_none; [exact Hm|]. apply finish_running_moved; [apply Hm|done..].
  - apply (finish_running_moved m (row_id r)); [apply Hm|done..].
Qed.

Definition recover_move (observed : option Z) (now : Z) (r : Row) : option (Row -> Row) :=
  match state r with
  | ProvisioningState.APPLYING =>
      Some (fun r => set_applied (or_else observed (or_else (Some (applied_generation r)) 1)) now
                       (set_state ProvisioningState.ACTIVE r))
  | ProvisioningState.REVOKING => Some (fun r => set_revoked_at now (set_state ProvisioningState.REVOKED r))
  | _ => None
  end.

Lemma stuck_spec s : in_states _RUNNING_STUCK_STATES s =
  match s with ProvisioningState.APPLYING | ProvisioningState.REVOKING => true | _ => false end.
Proof. by destruct s. Qed.

Lemma recover_ok m r obs now db :
  ready db -> get_row m (row_id r) db = Some r ->
  exists db', recover m r obs now db = (Ok tt, db') /\ moved m (row_id r) (recover_move obs now r) db db'.
Proof.
  intros Hrd Hr.
  assert (Hgo : forall f g ev, live r = true -> keeps_row f -> keeps_credential g ->
            (forall c, cred_live (g c) = live (f r)) ->
            moved m (row_id r) (Some f) db (settled m r f g OperationState.SUCCEEDED now None ev db)).
  { intros. by apply settled_moved. }
  unfold recover, recover_move. rewrite stuck_spec. destruct (state r) eqn:Hs; cbn [negb];
    try (exists db; split; [done|by apply moved_refl]); eexists.
  all: split; [eapply transaction_run;
      [cbv [mbind prog_bind get]; rewrite Hr, stuck_spec, Hs; reflexivity|]|].
  1,3: apply wf_constraints, (Hgo _ _ (system_event m (row_id r) (str "succeeded") (str "reconciled")));
    unfold live; rewrite ?Hs; done.
  all: apply Hgo; unfold live; rewrite ?Hs; done.
Qed.

Definition finalize_move (succeeded : bool) (applied : option Z) (wants : bool) (now : Z) : Row -> Row :=
  if succeeded then
    if wants then (fun r => set_applied (or_else applied (applied_generation r)) now
                              (set_state ProvisioningState.ACTIVE r))
    else (fun r => set_revoked_at now (set_state ProvisioningState.REVOKED r))
  else set_state (if wants then ProvisioningState.FAILED else ProvisioningState.REVOKING).

Lemma finalize_repair_ok m r ok applied wants now err db :
  ready db -> get_row m (row_id r) db = Some r -> live r = true ->
  exists db', finalize_repair m (row_id r) ok applied wants now err db = (Ok tt, db') /\
    moved m (row_id r) (Some (finalize_move ok applied wants now)) db db'.
Proof.
  intros Hrd Hr Hl.
  set (g := if ok then if wants then set_cred_state ProvisioningState.ACTIVE
                       else fun c => set_cred_revoked_at now (set_cred_state ProvisioningState.REVOKED c)
            else set_cred_state (if wants then ProvisioningState.FAILED else ProvisioningState.REVOKING)).
  assert (Hm : forall ev, moved m (row_id r) (Some (finalize_move ok applied wants now)) db
    (settled m r (finalize_move ok applied wants now) g
      (if ok then OperationState.SUCCEEDED else OperationState.FAILED) now (Some err) ev db)).
  { intros ev. apply settled_moved; try done; destruct ok; try destruct wants; done. }
  eexists. split; [|apply (Hm (system_event m (row_id r) (if ok then str "succeeded" else str "failed")
    (if ok then str "reconciliation_repaired" else str "reconciliation_repair_failed")))].
  unfold finalize_repair. eapply transaction_run.
  - cbv [mbind prog_bind get]. rewrite Hr. destruct ok; [destruct wants|]; reflexivity.
  - apply wf_constraints, Hm.
Qed.

Lemma unique_snoc {A K} `{EqDecision K} (scope : A -> bool) (key : A -> K) rows x :
  unique scope key rows = true -> (forall r, r ∈ rows -> scope r = true -> key r <> key x) ->
  unique scope key (rows ++ [x]) = true.
Proof.
  unfold unique. intros Hu Hx. boolP. rename Hu into Hnd. apply bool_decide_eq_true_2.
  unfold scalars in *. rewrite filter_app, fmap_app. apply NoDup_app. split; [done|]. split.
  - intros k Hk Hk2. apply list_elem_of_fmap in Hk as (r & -> & Hr), Hk2 as (r2 & He & Hr2).
    apply list_elem_of_filter in Hr as [Hs Hr], Hr2 as [_ Hr2].
    apply list_elem_of_singleton in Hr2 as ->. by apply (Hx r).
  - rewrite filter_cons, filter_nil. case_decide; [apply NoDup_singleton|apply NoDup_nil_2].
Qed.

Lemma repair_operation_ok m r wants g db :
  ready db -> exists oid key db', repair_operation m r wants g db = (Ok (oid, key), db') /\
    moved m (row_id r) None db db'.
Proof.
  intros [Hwf Hnp]. unfold repair_operation. destruct (running_operation m (row_id r) db) as [o|] eqn:Ho.
  - assert (Hm : moved m (row_id r) None db (update_operation (op_id o)
        (set_attempts (Z.min (attempt_count o + 1) _MAX_ATTEMPT_COUNT)) db)).
    { split; [|by split_and!]. split; [|by apply no_pending_update]. split.
      - destruct Hwf as [[] _]. constructor; try done; cbn; by rewrite (update_ids op_id).
      - pose proof (wf_constraints _ Hwf) as Hcs. unfold constraints in *.
        apply andb_true_iff in Hcs as [Hcs Hop]. apply andb_true_iff. split; [done|].
        apply unique_update; [|done]. intros o' _ _ Hin. done. }
    do 3 eexists. split; [|exact Hm]. eapply transaction_run; [|apply wf_constraints, Hm].
    cbv [mbind prog_bind get]. rewrite Ho. reflexivity.
  - set (o := new_operation (next_id db) (row_server r) (next_id db + 1)
                (if wants then provision_device else revoke_device) (kind_of m) (row_id r) g 1).
    assert (Hm : moved m (row_id r) None db (add_op o db)).
    { split; [|by split_and!]. split; [split|].
      - by apply add_op_core; [apply Hwf|].
      - pose proof (wf_constraints _ Hwf) as Hcs. unfold constraints in *.
        apply andb_true_iff in Hcs as [Hcs Hop]. apply andb_true_iff. split; [done|].
        apply unique_snoc; [done|]. intros o' Hin Hif He. cbn in He. injection He as _ Hk Ht.
        apply scalar_None in Ho. unfold no_pending in Hnp. rewrite Forall_forall in Ho, Hnp. specialize (Ho o' Hin).
        specialize (Hnp o' Hin). rewrite Hk, Ht in Ho. unfold op_inflight in Hif.
        rewrite (bool_decide_eq_false_2 (op_state o' = OperationState.PENDING)) in Hif by done.
        cbn in Hif. rewrite Hif, bool_decide_eq_true_2, Z.eqb_refl in Ho by done. done.
      - apply Forall_app. split; [done|]. by apply Forall_singleton. }
    do 3 eexists. split; [|exact Hm]. eapply transaction_run; [|apply wf_constraints, Hm].
    cbv [mbind prog_bind get uuid4 add_operation modify mret prog_ret]. rewrite Ho.
    unfold add_op, o. replace (next_id db + 2) with (next_id db + 1 + 1) by lia. reflexivity.
Qed.

(** ** One row *)

Definition quiet_call {X A} (p : prog (DB * X) agent_error A) : Prop :=
  forall db x, exists answer x', p (db, x) = (answer, (db, x')).

(** The decision table: what a pass makes of a row, from what the agent
    observes and, where that is not what the row wants, from the repair. *)
Definition verdict (r : Row) (ask : result agent_error Wg.ReconcileResponse)
    (act : result agent_error Repaired_) (now : Z) : option (Row -> Row) :=
  match ask with
  | Err _ => None
  | Ok resp =>
      if bool_decide (Wg.q_outcome resp = Wg.ambiguous) then None
      else if Bool.eqb (bool_decide (Wg.q_outcome resp = Wg.in_sync)) (wants_present r) then
        recover_move (Wg.observed_generation resp) now r
      else
        match act with
        | Ok resp' =>
            Some (finalize_move
                    (bool_decide (r_state resp' = if wants_present r then Wg.active else Wg.revoked))
                    (Some (r_generation resp')) (wants_present r) now)
        | Err (AgentUnreachable | AgentRejected _) => Some (finalize_move false None (wants_present r) now)
        | Err _ => None
        end
  end.

Section One.
Context {X : Type}.

Definition act (t : Target X) (op : Operation) : prog (DB * X) agent_error Repaired_ :=
  if wants_present (t_row t) then t_provision t op else t_revoke t op.

Definition quiet (t : Target X) : Prop :=
  quiet_call (t_ask t) /\ forall op, quiet_call (act t op).

Lemma in_world_ok {A B} (p : prog (DB * X) exn A) (k : A -> prog (DB * X * ReconciliationSummary) exn B)
    w s a w' : p w = (Ok a, w') -> (in_world p ≫= k) (w, s) = k a (w', s).
Proof. intros Hp. unfold mbind, prog_bind, in_world. by rewrite Hp. Qed.

Lemma in_db_run {A} (p : prog DB exn A) db (x : X) a db' :
  p db = (Ok a, db') -> in_db p (db, x) = (Ok a, (db', x)).
Proof. intros Hp. unfold in_db. by rewrite Hp. Qed.

Lemma moved_row m id f db db' r :
  moved m id f db db' -> get_row m id db = Some r -> f = None -> get_row m id db' = Some r.
Proof. intros (_ & _ & _ & Ht) Hr ->. unfold get_row in *. by rewrite Ht. Qed.

Lemma repair_ok m t now db x :
  ready db -> get_row m (row_id (t_row t)) db = Some (t_row t) -> live (t_row t) = true -> quiet t ->
  exists answer out oid code_ db' x',
    (exists op db1, act t op (db1, x) = (answer, (db1, x'))) /\
    repair m t now (db, x) = (Ok (out, oid, code_), (db', x')) /\
    moved m (row_id (t_row t))
      match answer with
      | Ok resp' =>
          Some (finalize_move
            (bool_decide (r_state resp' = if wants_present (t_row t) then Wg.active else Wg.revoked))
            (Some (r_generation resp')) (wants_present (t_row t)) now)
      | Err (AgentUnreachable | AgentRejected _) =>
          Some (finalize_move false None (wants_present (t_row t)) now)
      | Err _ => None
      end db db'.
Proof.
  intros Hrd Hr Hl [_ Hq]. set (r := t_row t) in *.
  destruct (repair_operation_ok m r (wants_present r) (desired_generation r) db Hrd)
    as (oid & key & db1 & He1 & Hm1).
  pose proof (moved_row _ _ _ _ _ _ Hm1 Hr eq_refl) as Hr1.
  destruct (Hq {| idem := key; target := row_id r |} db1 x) as (answer & x1 & Hact).
  pose proof (fun ok ap e => finalize_repair_ok m r ok ap (wants_present r) now e db1 (proj1 Hm1) Hr1 Hl) as Hfin.
  assert (Hrun : repair m t now (db, x) = _) by
    (unfold repair; fold r; rewrite (in_db_ok _ _ _ _ _ _ He1);
     exact (try_agent_ok _ _ _ _ _ Hact)).
  exists answer.
  assert (Hex : exists op db1, act t op (db1, x) = (answer, (db1, x1))) by eauto.
  destruct answer as [resp|e]; cbn [to_sum] in Hrun.
  - edestruct Hfin as (db2 & He2 & Hm2).
    do 5 eexists. split; [exact Hex|]. split.
    + rewrite Hrun. rewrite (in_db_ok _ _ _ _ _ _ He2). reflexivity.
    + eapply moved_none_trans; [exact Hm1|exact Hm2].
  - destruct e as [|d| |].
    3,4: do 5 eexists; split; [exact Hex|split; [rewrite Hrun; reflexivity|exact Hm1]].
    all: edestruct Hfin as (db2 & He2 & Hm2); do 5 eexists; split; [exact Hex|]; split;
      [rewrite Hrun; rewrite (in_db_ok _ _ _ _ _ _ He2); reflexivity
      |eapply moved_none_trans; [exact Hm1|exact Hm2]].
Qed.
Lemma note_ok {B} m id r g obs out op err (k : unit -> prog (DB * X * ReconciliationSummary) exn B) db x s :
  ready db -> exists db', moved m id None db db' /\
    (in_world (in_db (_record m r g obs out op err)) ≫= k) (db, x, s) = k tt (db', x, s).
Proof.
  intros Hrd. destruct (record_ok m id r g obs out op err db Hrd) as (db' & He & Hm).
  exists db'. split; [exact Hm|]. apply in_world_ok. by apply in_db_run.
Qed.

Lemma note_last_ok m id r g obs out op err db (x : X) s :
  ready db -> exists db', moved m id None db db' /\
    in_world (in_db (_record m r g obs out op err)) (db, x, s) = (Ok tt, (db', x, s)).
Proof.
  intros Hrd. destruct (record_ok m id r g obs out op err db Hrd) as (db' & He & Hm).
  exists db'. split; [exact Hm|]. unfold in_world. by rewrite (in_db_run _ _ _ _ _ He).
Qed.

Lemma tally_ok {B} k (f : unit -> prog (DB * X * ReconciliationSummary) exn B) w s :
  (tally k ≫= f) (w, s) = f tt (w, count k s).
Proof. done. Qed.

(** Whether the agent's answer asks for a repair. *)
Definition needs_repair (r : Row) (ask : result agent_error Wg.ReconcileResponse) : bool :=
  match ask with
  | Ok resp => negb (bool_decide (Wg.q_outcome resp = Wg.ambiguous)) &&
               negb (Bool.eqb (bool_decide (Wg.q_outcome resp = Wg.in_sync)) (wants_present r))
  | Err _ => false
  end.

(** The agent was asked, and told if its answer called for it. *)
Definition consulted (t : Target X) (db : DB) (x : X) (answer : result agent_error Repaired_) (x' : X) : Prop :=
  exists x1, t_ask t (db, x) = ((t_ask t (db, x)).1, (db, x1)) /\
    if needs_repair (t_row t) (t_ask t (db, x)).1
    then exists op db1, act t op (db1, x1) = (answer, (db1, x'))
    else x' = x1 /\ exists op w, answer = (act t op w).1.

Lemma consulted_answer t db x answer x' :
  consulted t db x answer x' -> exists op w, answer = (act t op w).1.
Proof.
  intros (x1 & _ & H). destruct (needs_repair _ _); [|apply H].
  destruct H as (op & db1 & H). exists op, (db1, x1). by rewrite H.
Qed.

Lemma reconcile_target_ok m t now db x s :
  ready db -> get_row m (row_id (t_row t)) db = Some (t_row t) -> live (t_row t) = true -> quiet t ->
  exists answer k db' x', consulted t db x answer x' /\ k <> Checked /\ k <> Errored /\
    reconcile_target m t now (db, x, s) = (Ok tt, (db', x', count k s)) /\
    moved m (row_id (t_row t)) (verdict (t_row t) (t_ask t (db, x)).1 answer now) db db'.
Proof.
  intros Hrd Hr Hl Hq. pose proof Hq as [Hqa _]. unfold reconcile_target. set (r := t_row t) in *.
  destruct (Hqa db x) as (ask & x1 & Hask). unfold consulted. rewrite Hask. cbn [fst]. fold r.
  assert (Hdummy : x1 = x1 /\ exists op w, (act t {| idem := 0; target := 0 |} (db, x)).1 = (act t op w).1) by eauto.
  assert (Htry : try_agent (t_ask t) (db, x) = (Ok (to_sum ask), (db, x1))) by
    (unfold try_agent; rewrite Hask; by destruct ask).
  rewrite (in_world_ok _ _ _ _ _ _ Htry).
  destruct ask as [resp|e]; cbn [to_sum verdict needs_repair]; [case_bool_decide; cbn [negb andb]|].
  - rewrite tally_ok. edestruct (note_last_ok m (row_id r)) as (db1 & Hm1 & ->); [exact Hrd|].
    do 4 eexists. split; [exists x1; split; [reflexivity|exact Hdummy]|]. split; [|split]; [| |split; [reflexivity|exact Hm1]]; done.
  - destruct (Bool.eqb _ _); cbn [negb].
    + rewrite tally_ok. edestruct (note_ok (B := unit) m (row_id r)) as (db1 & Hm1 & ->); [exact Hrd|].
      destruct (recover_ok m r (Wg.observed_generation resp) now db1 (proj1 Hm1)
                  (moved_row _ _ _ _ _ _ Hm1 Hr eq_refl)) as (db2 & He2 & Hm2).
      unfold in_world. rewrite (in_db_run _ _ _ _ _ He2).
      do 4 eexists. split; [exists x1; split; [reflexivity|exact Hdummy]|]. split; [|split]; [| |split; [reflexivity|]]; try done.
      eapply moved_none_trans; [exact Hm1|exact Hm2].
    + edestruct (note_ok (B := unit) m (row_id r)) as (db1 & Hm1 & ->); [exact Hrd|].
      destruct (repair_ok m t now db1 x1 (proj1 Hm1) (moved_row _ _ _ _ _ _ Hm1 Hr eq_refl) Hl Hq)
        as (answer & out & oid & code_ & db2 & x2 & Hex & He2 & Hm2).
      rewrite (in_world_ok _ _ _ _ _ _ He2), tally_ok.
      edestruct (note_last_ok m (row_id r)) as (db3 & Hm3 & ->); [apply Hm2|].
      exists answer. do 3 eexists. split; [exists x1; split; [reflexivity|exact Hex]|]. split; [|split]; [| |split; [reflexivity|]].
      * by destruct out.
      * by destruct out.
      * eapply moved_none_trans; [exact Hm1|]. eapply moved_trans_none; [exact Hm2|exact Hm3].
  - rewrite tally_ok. edestruct (note_last_ok m (row_id r)) as (db1 & Hm1 & ->); [exact Hrd|].
    do 4 eexists. split; [exists x1; split; [reflexivity|exact Hdummy]|]. split; [|split]; [| |split; [reflexivity|exact Hm1]]; done.
Qed.
End One.

(** ** A whole pass *)

(** What a pass may do to a row: recover or retire it, give up on it, or
    leave it; its identity stays. *)
Definition next (s s' : ProvisioningState.t) : Prop :=
  s' = s \/
  match s with
  | ProvisioningState.APPLYING => s' = ProvisioningState.ACTIVE \/ s' = ProvisioningState.FAILED
  | ProvisioningState.ACTIVE => s' = ProvisioningState.FAILED
  | ProvisioningState.REVOKING => s' = ProvisioningState.REVOKED
  | _ => False
  end.
Definition same_row (r r' : Row) : Prop :=
  row_id r' = row_id r /\ credential_id r' = credential_id r /\ row_device r' = row_device r /\
  row_profile r' = row_profile r /\ row_server r' = row_server r /\ columns r' = columns r.
Definition evolves (r r' : Row) : Prop := same_row r r' /\ next (state r) (state r').

Lemma next_trans s1 s2 s3 : next s1 s2 -> next s2 s3 -> next s1 s3.
Proof. unfold next. destruct s1, s2; naive_solver. Qed.

#[global] Instance evolves_refl : Reflexive evolves.
Proof. intros r. split; [by split_and!|by left]. Qed.
#[global] Instance evolves_trans : Transitive evolves.
Proof.
  intros r1 r2 r3 [(? & ? & ? & ? & ? & ?) N1] [(? & ? & ? & ? & ? & ?) N2].
  split; [split_and!; congruence|by eapply next_trans].
Qed.

Definition permitted (r : Row) (f : option (Row -> Row)) : Prop :=
  match f with Some f => keeps_row f /\ next (state r) (state (f r)) | None => True end.

Lemma finalize_move_permitted r ok ap now :
  in_states _CANDIDATE_STATES (state r) = true ->
  permitted r (Some (finalize_move ok ap (wants_present r) now)).
Proof.
  unfold wants_present, finalize_move. intros Hc.
  split; [by destruct ok, (bool_decide _)|]. unfold next.
  destruct (state r); try discriminate Hc; destruct ok; cbn; auto.
Qed.

Lemma verdict_permitted r ask answer now :
  in_states _CANDIDATE_STATES (state r) = true -> permitted r (verdict r ask answer now).
Proof.
  intros Hc. unfold verdict. destruct ask as [resp|]; [|done]. case_bool_decide; [done|].
  destruct (Bool.eqb _ _).
  - unfold recover_move, permitted. destruct (state r) eqn:Hs; try done.
    + split; [done|]. unfold next. cbn. auto.
    + split; [done|]. unfold next. cbn. auto.
  - destruct answer as [resp'|[]]; try done; by apply finalize_move_permitted.
Qed.

Lemma candidate_live s : in_states _CANDIDATE_STATES s = true -> in_states _LIVE_PEER_STATES s = true.
Proof. by destruct s. Qed.

Definition counted (s : ReconciliationSummary) : Z :=
  in_sync s + repaired s + repair_failed s + ambiguous s + errored s.

Lemma counted_one k s : k <> Checked -> counted (count k s) = counted s + 1 /\ checked (count k s) = checked s.
Proof. intros Hk. unfold counted. destruct k; try done; cbn; lia. Qed.

Lemma moved_evolves m id f db db' r :
  moved m id f db db' -> NoDup (row_id <$> table m db) -> get_row m id db = Some r -> permitted r f ->
  Forall2 evolves (table m db) (table m db').
Proof.
  intros (_ & _ & _ & Ht) Hnd Hr Hp. rewrite Ht. apply get_row_elem in Hr as [Hin <-].
  destruct f as [f|]; cbn in Hp; [|by apply Forall_Forall2_diag, Forall_true].
  unfold update. rewrite <- (list_fmap_id (table m db)) at 1. apply Forall2_fmap, Forall_Forall2_diag.
  apply Forall_forall. intros r0 Hr0. cbn. destruct (row_id r0 =? row_id r) eqn:He; [|reflexivity].
  boolP. assert (r0 = r) as -> by (by apply (same_id row_id (table m db))).
  destruct Hp as [Hk Hn]. split; [apply (Hk r)|exact Hn].
Qed.

Lemma moved_other m id f db db' id' r :
  moved m id f db db' -> id' <> id -> permitted r f -> get_row m id' db' = get_row m id' db.
Proof.
  intros (_ & _ & _ & Ht) Hne Hf. unfold get_row. rewrite Ht. destruct f as [f|]; [|done].
  rewrite scalar_update by (intros r0; apply (proj1 Hf r0)). by destruct (id' =? id) eqn:He; boolP.
Qed.

(** The rows a pass visits, each as the table has it now. *)
Definition current (m : model) (db : DB) (r : Row) : Prop :=
  get_row m (row_id r) db = Some r /\ in_states _CANDIDATE_STATES (state r) = true.

Section Each.
Context {X A : Type} (m : model) (row_of : A -> Row) (f : A -> prog (DB * X * ReconciliationSummary) exn unit).
Context (post : A -> Row -> Prop).
(** One visit: it returns, counts itself once, and changes its own row in a
    way a pass may, to one that satisfies [post]. *)
Hypothesis visit : forall a db x s, ready db -> current m db (row_of a) ->
  exists k db' x' mv, k <> Checked /\ k <> Errored /\ f a (db, x, s) = (Ok tt, (db', x', count k s)) /\
    moved m (row_id (row_of a)) mv db db' /\ permitted (row_of a) mv /\ 
    exists r', get_row m (row_id (row_of a)) db' = Some r' /\ post a r'.

Lemma each_ok l db x s :
  ready db -> NoDup ((fun a => row_id (row_of a)) <$> l) -> Forall (fun a => current m db (row_of a)) l ->
  exists db' x' s', each f l (db, x, s) = (Ok tt, (db', x', s')) /\
    ready db' /\ same_world db db' /\ (forall m', m' <> m -> table m' db' = table m' db) /\
    Forall2 evolves (table m db) (table m db') /\
    (checked s' = checked s + Z.of_nat (length l) /\ counted s' = counted s + Z.of_nat (length l) /\
    errored s' = errored s) /\
    Forall (fun a => exists r', get_row m (row_id (row_of a)) db' = Some r' /\ post a r') l /\
    (forall id, id ∉ (fun a => row_id (row_of a)) <$> l -> get_row m id db' = get_row m id db).
Proof using visit.
  revert db x s. induction l as [|a l IH]; intros db x s Hrd Hnd Hcur.
  - exists db, x, s. split; [done|]. split; [done|]. split; [by split_and!|]. split; [done|].
    split; [by apply Forall_Forall2_diag, Forall_true|]. split; [cbn; lia|]. by split; [constructor|].
  - rewrite fmap_cons in Hnd. apply NoDup_cons in Hnd as [Ha Hnd]. apply Forall_cons in Hcur as [Hca Hcur].
    destruct (visit a db x (count Checked s) Hrd Hca) as (k & db1 & x1 & mv & Hk & Hk' & He & Hmv & Hp & Hpost).
    destruct (IH db1 x1 (count k (count Checked s)) (proj1 Hmv) Hnd) as
      (db2 & x2 & s2 & He2 & Hrd2 & Hw2 & Ho2 & Hev2 & (Hc2 & Hn2 & Hr2) & Hpo2 & Hid2).
    { apply Forall_forall. intros b Hb. destruct (proj1 (Forall_forall _ _) Hcur b Hb) as [Hgb Hsb].
      split; [|done]. rewrite (moved_other _ _ _ _ _ _ (row_of a) Hmv); [done| |done].
      intros He'. apply Ha. rewrite <- He'. by apply (list_elem_of_fmap_2 (fun a => row_id (row_of a))). }
    exists db2, x2, s2. cbn [each]. rewrite tally_ok. unfold contained at 1, mbind at 1, prog_bind at 1.
    rewrite He. split; [exact He2|]. split; [done|]. pose proof Hmv as (_ & Hw & Ho & Ht).
    split; [unfold same_world in *; destruct Hw as (?&?&?&?&?), Hw2 as (?&?&?&?&?); split_and!; congruence|].
    split; [intros m' Hm'; rewrite Ho2, Ho; done|].
    destruct (counted_one k (count Checked s) Hk) as [Hcn Hch].
    split; [|split; [|split]].
    + etransitivity; [|exact Hev2]. eapply moved_evolves; [exact Hmv|apply wf_table_ids, Hrd|apply Hca|exact Hp].
    + rewrite Hc2, Hn2, Hr2, Hcn, Hch. unfold counted. cbn [count checked in_sync repaired repair_failed ambiguous
        errored length]. destruct k; try done; cbn; lia.
    + constructor; [|exact Hpo2]. rewrite Hid2; [exact Hpost|exact Ha].
    + intros id Hid. rewrite fmap_cons in Hid. apply not_elem_of_cons in Hid as [Hne Hid].
      rewrite Hid2 by done. by apply (moved_other _ _ _ _ _ _ (row_of a) Hmv).
Qed.
End Each.

(** *** Candidates *)

Lemma insert_by_age_perm r rows : insert_by_age r rows ≡ₚ r :: rows.
Proof.
  induction rows as [|r' rows IH]; [done|]. cbn. destruct (updated_at r <=? updated_at r'); [done|].
  rewrite IH. apply Permutation_swap.
Qed.

Lemma oldest_first_perm rows : oldest_first rows ≡ₚ rows.
Proof. induction rows as [|r rows IH]; [done|]. cbn. by rewrite insert_by_age_perm, IH. Qed.

Definition older (r r' : Row) : Prop := updated_at r <= updated_at r'.

Lemma insert_by_age_sorted r rows : StronglySorted older rows -> StronglySorted older (insert_by_age r rows).
Proof.
  induction 1 as [|r' rows Hs IH Hf]; cbn; [by repeat constructor|].
  destruct (updated_at r <=? updated_at r') eqn:Hle; boolP.
  - constructor; [by constructor|]. constructor; [done|]. eapply Forall_impl; [exact Hf|].
    unfold older. intros. lia.
  - constructor; [done|]. rewrite insert_by_age_perm. constructor; [unfold older; lia|done].
Qed.

Lemma oldest_first_sorted rows : StronglySorted older (oldest_first rows).
Proof. induction rows as [|r rows IH]; [constructor|]. by apply insert_by_age_sorted. Qed.

Lemma sorted_app_older l1 l2 r1 r2 : StronglySorted older (l1 ++ l2) -> r1 ∈ l1 -> r2 ∈ l2 -> older r1 r2.
Proof.
  induction l1 as [|r l1 IH]; intros Hs H1 H2; [by apply not_elem_of_nil in H1|].
  inversion Hs as [|? ? Hs' Hf]; subst. apply elem_of_cons in H1 as [->|H1]; [|by apply IH].
  apply Forall_app in Hf as [_ Hf]. by apply (proj1 (Forall_forall _ _) Hf).
Qed.

(** A row is in the batch when the rows no newer than it fit. *)
Lemma oldest_first_room r rows n :
  r ∈ rows -> (length (scalars (fun q => updated_at q <=? updated_at r)%Z rows) <= n)%nat -> r ∈ take n (oldest_first rows).
Proof.
  intros Hin Hn. pose proof (oldest_first_sorted rows) as Hs. rewrite <- (oldest_first_perm rows) in Hin.
  unfold scalars in Hn. rewrite <- (Permutation_length (filter_Permutation _ _ _ (oldest_first_perm rows))) in Hn.
  generalize dependent (oldest_first rows). intros l Hin Hn Hs. rewrite <- (take_drop n l) in Hin, Hn, Hs.
  apply elem_of_app in Hin as [|Hd]; [done|]. exfalso.
  assert (Hl : (n < length l)%nat).
  { destruct (decide (n < length l)%nat); [done|]. rewrite drop_ge in Hd by lia. by apply not_elem_of_nil in Hd. }
  rewrite filter_app, length_app, filter_id in Hn.
  - rewrite length_take in Hn. assert (r ∈ filter (fun q => (updated_at q <=? updated_at r) = true) (drop n l)) as Hf.
    { apply list_elem_of_filter. split; [lia|done]. }
    destruct (filter _ (drop n l)); [by apply not_elem_of_nil in Hf|]. cbn in Hn. lia.
  - apply Forall_forall. intros q Hq. pose proof (sorted_app_older _ _ q r Hs Hq Hd) as Ho. unfold older in Ho. lia.
Qed.

Lemma candidates_incl (m : model) p db n :
  ready db ->
  NoDup (row_id <$> take n (oldest_first (scalars p (table m db)))) /\
  Forall (fun r => r ∈ table m db /\ p r = true) (oldest_first (scalars p (table m db))).
Proof.
  intros [Hwf _]. split.
  - rewrite fmap_take. eapply (sublist_NoDup _ (row_id <$> oldest_first (scalars p (table m db))));
      [|apply sublist_take]. rewrite oldest_first_perm. unfold scalars.
    eapply sublist_NoDup; [apply (wf_table_ids _ m Hwf)|]. apply fmap_sublist, sublist_filter.
  - rewrite oldest_first_perm. apply Forall_forall. intros r Hr. by apply elem_of_scalars in Hr.
Qed.

Lemma candidate_current m t db r :
  ready db -> r ∈ table m db -> candidate t db r = true -> current m db r.
Proof.
  intros [Hwf _] Hin Hc. unfold candidate in Hc. apply andb_true_iff in Hc as [Hc _].
  apply andb_true_iff in Hc as [_ Hc]. split; [by apply get_row_wf; [apply Hwf|]|exact Hc].
Qed.

(** *** Marking *)

Lemma orphaned_live db r : orphaned db r = true -> live r = true.
Proof. unfold orphaned, live. intros [H _]%andb_true_iff. by destruct (state r). Qed.

Lemma mark_orphaned_ok m now db :
  ready db -> exists n db', _mark_orphaned_revoking m now db = (Ok n, db') /\ ready db' /\
    same_world db db' /\ (forall m', m' <> m -> table m' db' = table m' db) /\
    table m db' = Access.marked (orphaned db) now <$> table m db.
Proof.
  intros [Hwf Hnp]. set (rows := scalars (orphaned db) (table m db)).
  assert (Hwf' : db_wf (Access.revoke_all m now rows db)).
  { apply Access.revoke_all_wf; [done|]. apply Access.scalars_revoke_ok; [done|]. apply orphaned_live. }
  pose proof (Access.revoke_all_frame m now rows db) as (? & ? & ? & ? & _ & _ & _ & Hops & _).
  exists (Z.of_nat (length rows)), (Access.revoke_all m now rows db). split.
  - unfold _mark_orphaned_revoking. apply transaction_run; [reflexivity|]. apply Hwf'.
  - split; [split; [done|]; unfold no_pending; by rewrite Hops|].
    split; [split_and!; try done; clear; induction rows as [|r rows IH] using rev_ind; [done|];
            unfold Access.revoke_all in *; rewrite foldl_snoc; exact IH|].
    split; [intros; by apply Access.revoke_all_other|by apply Access.revoke_scalars_table].
Qed.

(** *** Both passes *)

(** An agent whose calls leave the control plane's database alone: no other
    request is served while the pass waits. *)
Class QuietAgent (X : Type) `{AgentClient X} : Prop := {
  quiet_provision s o r : quiet_call (agent_provision s o r);
  quiet_revoke s o r : quiet_call (agent_revoke s o r);
  quiet_reconcile s r : quiet_call (agent_reconcile s r);
  quiet_provision_xray s o r : quiet_call (agent_provision_xray s o r);
  quiet_revoke_xray s o r : quiet_call (agent_revoke_xray s o r);
  quiet_reconcile_xray s r : quiet_call (agent_reconcile_xray s r);
}.

(** What both passes may do to a row: nothing becomes active that was not
    active or on its way there, or whose owner is gone; what is to be removed
    is removed or stays to be removed; what is over stays over. *)
Definition narrowed (db : DB) (r r' : Row) : Prop :=
  same_row r r' /\
  (state r' = ProvisioningState.ACTIVE ->
     orphaned db r = false /\ (state r = ProvisioningState.ACTIVE \/ state r = ProvisioningState.APPLYING)) /\
  (orphaned db r = true \/ state r = ProvisioningState.REVOKING ->
     state r' = ProvisioningState.REVOKING \/ state r' = ProvisioningState.REVOKED) /\
  (state r = ProvisioningState.REVOKED \/ state r = ProvisioningState.FAILED -> state r' = state r).

Lemma marked_narrowed db now r r' : evolves (Access.marked (orphaned db) now r) r' -> narrowed db r r'.
Proof.
  unfold Access.marked, narrowed, evolves, next. destruct (orphaned db r) eqn:Ho.
  - cbn. intros [Hsame Hn]. split; [exact Hsame|]. apply orphaned_live in Ho. unfold live in Ho.
    split_and!; [intros Hs; destruct Hn; congruence|by intros _|]. intros [Hs|Hs]; rewrite Hs in Ho; discriminate Ho.
  - intros [Hsame Hn]. split; [exact Hsame|]. clear Ho Hsame.
    destruct (state r), (state r'); intuition congruence.
Qed.

(** A run of one pass: it returns, with every row it checked counted once and
    none in error, and has only narrowed access. *)
Definition pass_result {X} (m : model) (db : DB) (out : result exn ReconciliationSummary * (DB * X)) : Prop :=
  exists s db' x', out = (Ok s, (db', x')) /\ ready db' /\ same_world db db' /\
    (forall m', m' <> m -> table m' db' = table m' db) /\
    Forall2 (narrowed db) (table m db) (table m db') /\
    checked s = counted s /\ errored s = 0.

Lemma narrowed_fmap db now rows rows' :
  Forall2 evolves (Access.marked (orphaned db) now <$> rows) rows' -> Forall2 (narrowed db) rows rows'.
Proof.
  intros H. rewrite Forall2_fmap_l in H. eapply Forall2_impl; [exact H|]. intros r r'. apply marked_narrowed.
Qed.

Lemma same_world_trans db1 db2 db3 : same_world db1 db2 -> same_world db2 db3 -> same_world db1 db3.
Proof. unfold same_world. intuition congruence. Qed.

Section Passes.
Context {X : Type} `{QuietAgent X} `{AEAD} (ring : list (Z * text)).

Lemma quiet_map {A B} (p : prog (DB * X) agent_error A) (f : A -> B) :
  quiet_call p -> quiet_call (fun w => match p w with (Ok a, w') => (Ok (f a), w') | (Err e, w') => (Err e, w') end).
Proof. intros Hq db x. destruct (Hq db x) as ([a|e] & x' & ->); eauto. Qed.

Lemma wireguard_quiet r : quiet (wireguard_target r).
Proof.
  split; [apply quiet_reconcile|]. intros op. unfold act. destruct (wants_present _); cbn.
  - apply (quiet_map _ (fun p => {| r_state := Wg.p_state p; r_generation := Wg.p_applied_generation p;
                                    r_error := Wg.p_error_code p |})), quiet_provision.
  - apply (quiet_map _ (fun p => {| r_state := Wg.o_state p; r_generation := Wg.o_applied_generation p;
                                    r_error := Wg.o_error_code p |})), quiet_revoke.
Qed.

Lemma xray_quiet r u c : quiet (xray_target r u c).
Proof.
  split; [apply quiet_reconcile_xray|]. intros op. unfold act. destruct (wants_present _); cbn.
  - apply (quiet_map _ (fun p => {| r_state := x_state p; r_generation := x_applied_generation p;
                                    r_error := x_error_code p |})), quiet_provision_xray.
  - apply (quiet_map _ (fun p => {| r_state := Wg.o_state p; r_generation := Wg.o_applied_generation p;
                                    r_error := Wg.o_error_code p |})), quiet_revoke_xray.
Qed.

Lemma moved_get m id mv db db' r :
  moved m id mv db db' -> get_row m id db = Some r -> permitted r mv ->
  get_row m id db' = Some (match mv with Some f => touch (db_now db) (f r) | None => r end).
Proof.
  intros (_ & _ & _ & Ht) Hr Hp. unfold get_row in *. rewrite Ht. destruct mv as [f|]; [|done].
  rewrite scalar_update by (intros r0; apply (proj1 Hp r0)). by rewrite Z.eqb_refl, Hr.
Qed.

(** The row came out as the decision table says of some answers the agent gave. *)
Definition landed (t : Target X) (now : Z) (r' : Row) : Prop :=
  exists w op w', state r' = match verdict (t_row t) (t_ask t w).1 (act t op w').1 now with
                             | Some f => state (f (t_row t))
                             | None => state (t_row t)
                             end.

Lemma visit_target m t now db (x : X) s :
  quiet t -> ready db -> current m db (t_row t) ->
  exists k db' x' mv, k <> Checked /\ k <> Errored /\
    reconcile_target m t now (db, x, s) = (Ok tt, (db', x', count k s)) /\
    moved m (row_id (t_row t)) mv db db' /\ permitted (t_row t) mv /\
    exists r', get_row m (row_id (t_row t)) db' = Some r' /\ landed t now r'.
Proof.
  intros Hq Hrd [Hr Hc]. destruct (reconcile_target_ok m t now db x s Hrd Hr) as
    (answer & k & db' & x' & (op & w & ->)%consulted_answer & Hk & Hk' & He & Hm); [by apply candidate_live|done|].
  pose proof (verdict_permitted (t_row t) (t_ask t (db, x)).1 (act t op w).1 now Hc) as Hp.
  exists k, db', x'. eexists. split_and!; [done|done|exact He|exact Hm|exact Hp|].
  eexists. split; [exact (moved_get _ _ _ _ _ _ Hm Hr Hp)|]. exists (db, x), op, w.
  by destruct (verdict _ _ _ _).
Qed.

Lemma visit_xray r code_ now db (x : X) s :
  ready db -> current XrayClient db r ->
  exists k db' x' mv, k <> Checked /\ k <> Errored /\
    _reconcile_one_xray_client ring r code_ now (db, x, s) = (Ok tt, (db', x', count k s)) /\
    moved XrayClient (row_id r) mv db db' /\ permitted r mv /\
    exists r', get_row XrayClient (row_id r) db' = Some r' /\ True.
Proof.
  intros Hrd Hcur. unfold _reconcile_one_xray_client. cbv [mbind prog_bind get].
  destruct (_decrypt_client_uuid ring r db) as [u|].
  - destruct (visit_target XrayClient (xray_target r u code_) now db x s (xray_quiet r u code_) Hrd Hcur)
      as (k & db' & x' & mv & ? & ? & ? & ? & ? & r' & ? & _). exists k, db', x', mv. split_and!; eauto.
  - destruct (note_last_ok XrayClient (row_id r) r (desired_generation r) None (str "ambiguous") None
      (Some (str "credential_unreadable")) db x (count Ambiguous s) Hrd) as (db' & Hm & He).
    exists Ambiguous, db', x, None. split_and!; [done|done|exact He|exact Hm|done|].
    exists r. split; [|done]. exact (moved_get _ _ _ _ _ _ Hm (proj1 Hcur) I).
Qed.

(** From a pass over marked rows to its result. *)
Lemma pass_result_intro m db db1 db2 now (x x2 : X) s :
  ready db2 -> same_world db db1 -> same_world db1 db2 ->
  (forall m', m' <> m -> table m' db1 = table m' db) -> (forall m', m' <> m -> table m' db2 = table m' db1) ->
  table m db1 = Access.marked (orphaned db) now <$> table m db ->
  Forall2 evolves (table m db1) (table m db2) -> checked s = counted s -> errored s = 0 ->
  pass_result m db (Ok s, (db2, x2)).
Proof.
  intros Hrd W1 W2 O1 O2 T1 T2 Hc He. exists s, db2, x2. split; [done|]. split; [done|].
  split; [by eapply same_world_trans|]. split; [intros; by rewrite O2, O1|].
  split; [|done]. apply (narrowed_fmap _ now). by rewrite <- T1.
Qed.

Lemma run_reconciliation_visits n t now db x :
  ready db -> exists db1 s db2 x2, run_reconciliation n t now (db, x) = (Ok s, (db2, x2)) /\
    pass_result WireGuardPeer db (Ok s, (db2, x2)) /\ ready db1 /\ same_world db db1 /\
    wireguard_peers db1 = Access.marked (orphaned db) now <$> wireguard_peers db /\
    Forall (fun r => exists r', get_row WireGuardPeer (row_id r) db2 = Some r' /\
                       landed (wireguard_target r) now r') (candidates WireGuardPeer n t db1).
Proof.
  intros Hrd. destruct (mark_orphaned_ok WireGuardPeer now db Hrd) as (k & db1 & He & Hrd1 & W1 & O1 & T1).
  exists db1. unfold run_reconciliation. rewrite (in_db_run _ _ _ _ _ He). cbn [fst].
  destruct (candidates_incl WireGuardPeer (candidate t db1) db1 n Hrd1) as [Hnd Hin].
  destruct (each_ok WireGuardPeer id (fun r => _reconcile_one r now)
    (fun r r' => landed (wireguard_target r) now r')
    (fun a db x s Hr Hc => visit_target WireGuardPeer (wireguard_target a) now db x s (wireguard_quiet a) Hr Hc)
    (candidates WireGuardPeer n t db1) db1 x empty_summary Hrd1) as
    (db2 & x2 & s2 & -> & Hrd2 & W2 & O2 & T2 & (Hc & Hn & Hr) & Hpost & _).
  - exact Hnd.
  - apply Forall_take. eapply Forall_impl; [exact Hin|]. intros r [Hr Hc]. by eapply candidate_current.
  - exists s2, db2, x2. split; [done|]. split; [|by split_and!].
    eapply pass_result_intro; try eassumption. by rewrite Hc, Hn.
Qed.

Lemma with_profile_row db l : exists ps, omap (with_profile db) l = ps /\ (fst <$> ps) `sublist_of` l.
Proof.
  eexists. split; [reflexivity|]. induction l as [|r l IH]; [done|]. cbn. unfold with_profile at 1.
  destruct (scalar (fun p => profile_id p =? row_profile r) (profiles db)); cbn;
    [by apply sublist_skip|by apply sublist_cons].
Qed.

Lemma run_xray_reconciliation_ok n t now db x :
  ready db -> pass_result XrayClient db (run_xray_reconciliation ring n t now (db, x)).
Proof.
  intros Hrd. destruct (mark_orphaned_ok XrayClient now db Hrd) as (k & db1 & He & Hrd1 & W1 & O1 & T1).
  unfold run_xray_reconciliation. rewrite (in_db_run _ _ _ _ _ He). cbn [fst].
  set (rows := oldest_first (scalars (candidate t db1) (xray_clients db1))).
  destruct (candidates_incl XrayClient (candidate t db1) db1 (length rows) Hrd1) as [Hnd Hin].
  fold rows in Hnd, Hin. change (oldest_first (scalars _ (table XrayClient db1))) with rows in Hnd, Hin.
  rewrite take_ge in Hnd by done.
  destruct (with_profile_row db1 rows) as (ps & Hps & Hsub).
  destruct (each_ok XrayClient fst (fun '(r, code_) => _reconcile_one_xray_client ring r code_ now)
    (fun _ _ => True) (fun '(r, code_) db x s Hr Hc => visit_xray r code_ now db x s Hr Hc)
    (xray_candidates n t db1) db1 x empty_summary Hrd1) as
    (db2 & x2 & s2 & Hrun & Hrd2 & W2 & O2 & T2 & (Hc & Hn & Hr) & _).
  - unfold xray_candidates. fold rows. rewrite Hps.
    eapply sublist_NoDup; [exact Hnd|]. rewrite fmap_take.
    transitivity ((fun a : Row * text => row_id a.1) <$> ps); [apply sublist_take|].
    change ((fun a : Row * text => row_id a.1) <$> ps) with ((row_id ∘ fst) <$> ps).
    rewrite list_fmap_compose. by apply fmap_sublist.
  - unfold xray_candidates. fold rows. rewrite Hps. apply Forall_take, Forall_forall. intros a Ha.
    apply (list_elem_of_fmap_2 fst) in Ha. eapply elem_of_submseteq in Ha; [|by apply sublist_submseteq].
    destruct (proj1 (Forall_forall _ _) Hin _ Ha) as [? ?]. by eapply candidate_current.
  - rewrite Hrun. eapply pass_result_intro; try eassumption. by rewrite Hc, Hn.
Qed.
End Passes.

(** C6: one pass decides each row by one table.  When the row is as the batch
    was read and the agent's answers to the question and to the repair are
    [ask] and [answer], the pass returns, keeps the database in order, leaves
    every other row alone, and makes of this one what [verdict] says: an
    unreachable agent or an ambiguous answer changes nothing; agreement turns
    applying into active and revoking into revoked; disagreement re-issues the
    operation, whose confirmation settles the row, whose refusal leaves it
    failed (or still revoking) and whose ambiguous end leaves it in flight. *)
Theorem row_follows_decision_table {X} m (t : Target X) now db x s ask answer :
  ready db -> current m db (t_row t) ->
  (forall db x, exists x', t_ask t (db, x) = (ask, (db, x'))) ->
  (forall op db x, exists x', act t op (db, x) = (answer, (db, x'))) ->
  exists k db' x', reconcile_target m t now (db, x, s) = (Ok tt, (db', x', count k s)) /\
    ready db' /\ (forall m' id, m' <> m \/ id <> row_id (t_row t) -> get_row m' id db' = get_row m' id db) /\
    get_row m (row_id (t_row t)) db' =
      Some (match verdict (t_row t) ask answer now with
            | Some f => touch (db_now db) (f (t_row t))
            | None => t_row t
            end).
Proof.
  intros Hrd [Hr Hc] Hask Hact.
  assert (Hq : quiet t).
  { split; [intros d y|intros op d y]; [destruct (Hask d y) as [x' ->]|destruct (Hact op d y) as [x' ->]]; eauto. }
  destruct (reconcile_target_ok m t now db x s Hrd Hr (candidate_live _ Hc) Hq) as
    (ans & k & db' & x' & (op & [d y] & ->)%consulted_answer & _ & _ & He & Hm).
  destruct (Hact op d y) as [y' Ha]. rewrite Ha in Hm. cbn [fst] in Hm.
  destruct (Hask db x) as [x1 Hx]. rewrite Hx in Hm. cbn [fst] in Hm.
  pose proof (verdict_permitted (t_row t) ask answer now Hc) as Hp.
  exists k, db', x'. split; [exact He|]. split; [apply Hm|]. split; [|by eapply moved_get].
  intros m' id Hne. destruct (decide (m' = m)) as [->|Hm'].
  - apply (moved_other _ _ _ _ _ _ (t_row t) Hm); [naive_solver|done].
  - unfold get_row. destruct Hm as (_ & _ & Ho & _). by rewrite Ho.
Qed.

(** C4: both passes, run on demand or on schedule, only ever narrow access.
    Whatever the agent answers, they return, count every row they checked once
    and none as an error, keep the database in order, and make no row active
    that was not active or applying, nor one whose device is revoked or whose
    account is disabled; such a row, and one that was being revoked, ends
    revoking or revoked; a revoked or failed row stays what it is. *)
Theorem reconciliation_only_narrows {X} `{QuietAgent X} `{AEAD} ring n target_id now db (x : X) :
  ready db ->
  exists s1 s2 db' x', reconcile_now ring false n target_id now (db, x) = (Ok (s1, s2), (db', x')) /\
    ready db' /\
    Forall2 (narrowed db) (wireguard_peers db) (wireguard_peers db') /\
    Forall2 (narrowed db) (xray_clients db) (xray_clients db') /\
    checked s1 = counted s1 /\ errored s1 = 0 /\ checked s2 = counted s2 /\ errored s2 = 0.
Proof.
  intros Hrd. destruct (run_reconciliation_visits n target_id now db x Hrd) as
    (_ & s1 & db1 & x1 & He1 & (s1' & db1' & x1' & Heq & Hrd1 & W1 & O1 & T1 & Hc1 & Hn1) & _).
  injection Heq as <- <- <-. unfold reconcile_now. rewrite He1.
  destruct (run_xray_reconciliation_ok ring n target_id now db1 x1 Hrd1) as
    (s2 & db2 & x2 & He2 & Hrd2 & W2 & O2 & T2 & Hc2 & Hn2).
  rewrite He2. exists s1, s2, db2, x2. split; [done|]. split; [done|].
  pose proof (O2 WireGuardPeer ltac:(done)) as O2'. cbn in O2', T1, T2. rewrite O2'. split; [exact T1|].
  pose proof (O1 XrayClient ltac:(done)) as O1'. cbn in O1'. rewrite O1' in T2. split; [|done].
  eapply Forall2_impl; [exact T2|]. intros r r'. unfold narrowed, orphaned, Access.owner, get_device, get_user.
  destruct W1 as (-> & -> & _). done.
Qed.

(** The peers as a pass finds them once it has marked the orphaned ones, and of
    those the ones it may take before, or as well as, a given one: candidates on
    running servers that were touched no later. *)
Definition peers_marked (now : Z) (db : DB) : list Row := Access.marked (orphaned db) now <$> wireguard_peers db.
Definition no_newer (now : Z) (db : DB) (r : Row) : list Row :=
  scalars (fun q => candidate None db q && (updated_at q <=? updated_at (Access.marked (orphaned db) now r)))
    (peers_marked now db).

(** C5: a removal completes in one pass when its turn comes and the agent does
    its part.  A peer that is revoking, or whose owner is gone, on a running
    server, such that the candidates touched no later than it fit in the batch,
    and whose agent gives an answer about it that is not ambiguous and carries out
    its removal, is revoked when the pass returns. *)
Theorem removal_completes {X} `{QuietAgent X} n now db (x : X) r :
  ready db -> r ∈ wireguard_peers db ->
  state r = ProvisioningState.REVOKING \/ orphaned db r = true ->
  server_running db (row_server r) = true -> (length (no_newer now db r) <= n)%nat ->
  (forall w, exists resp, (t_ask (wireguard_target r) w).1 = Ok resp /\ Wg.q_outcome resp <> Wg.ambiguous) ->
  (forall op w, exists resp, (t_revoke (wireguard_target r) op w).1 = Ok resp /\ r_state resp = Wg.revoked) ->
  exists s db' x' r', run_reconciliation n None now (db, x) = (Ok s, (db', x')) /\
    get_row WireGuardPeer (row_id r) db' = Some r' /\ state r' = ProvisioningState.REVOKED.
Proof.
  intros Hrd Hin Hst Hsrv Hn Hask Hrev.
  destruct (run_reconciliation_visits n None now db x Hrd) as (db1 & s & db2 & x2 & He & _ & Hrd1 & W1 & T1 & Hv).
  set (r1 := Access.marked (orphaned db) now r).
  assert (Hr1 : state r1 = ProvisioningState.REVOKING).
  { unfold r1, Access.marked. destruct (orphaned db r) eqn:Ho; [done|]. by destruct Hst. }
  assert (Hcand : r1 ∈ candidates WireGuardPeer n None db1).
  { assert (Hc : forall q, candidate None db1 q = candidate None db q)
      by (intros q; unfold candidate, server_running; by destruct W1 as (_ & _ & _ & -> & _)).
    unfold candidates. apply oldest_first_room.
    - apply elem_of_scalars. cbn [table]. rewrite T1, Hc. split; [by apply list_elem_of_fmap_2|].
      unfold candidate. rewrite Hr1, !andb_true_r. replace (row_server r1) with (row_server r); [done|].
      unfold r1, Access.marked. by destruct (orphaned db r).
    - cbn [table]. rewrite T1. etransitivity; [|exact Hn]. apply Nat.eq_le_incl, f_equal.
      unfold no_newer, peers_marked, scalars. rewrite list_filter_filter. apply list_filter_iff.
      intros q. rewrite Hc, andb_true_iff. tauto. }
  destruct (proj1 (Forall_forall _ _) Hv r1 Hcand) as (r' & Hr' & w & op & w' & Hland).
  assert (Ht : row_id r1 = row_id r /\ t_ask (wireguard_target r1) = t_ask (wireguard_target r) /\
               t_revoke (wireguard_target r1) = t_revoke (wireguard_target r)).
  { unfold r1, Access.marked. by destruct (orphaned db r). }
  destruct Ht as (Hid & Ha & Hb). rewrite Hid in Hr'.
  exists s, db2, x2, r'. split; [exact He|]. split; [exact Hr'|].
  unfold act in Hland. change (t_row (wireguard_target r1)) with r1 in Hland.
  assert (Hw : wants_present r1 = false) by (unfold wants_present; rewrite Hr1; done).
  rewrite Hw, Ha, Hb in Hland. destruct (Hask w) as (resp & Hq & Hna), (Hrev op w') as (resp' & Hq' & Hrs).
  unfold verdict in Hland. rewrite Hq, Hq', Hw, Hrs in Hland.
  rewrite bool_decide_eq_false_2 in Hland by done. unfold recover_move in Hland. rewrite Hr1 in Hland.
  by destruct (Bool.eqb _ _).
Qed.

(** The batch is the oldest: a candidate left out is no older than one
    taken, and nothing is left out while there is room. *)
Theorem batch_is_the_oldest m n target_id db :
  let all := scalars (candidate target_id db) (table m db) in
  let batch := candidates m n target_id db in
  Forall (fun r => r ∈ all) batch /\ length batch = Nat.min n (length all) /\
  exists rest, all ≡ₚ batch ++ rest /\
    Forall (fun r => Forall (fun r' => updated_at r <= updated_at r') rest) batch.
Proof.
  cbv zeta. set (all := scalars _ _). unfold candidates. fold all. split_and!.
  - apply Forall_take. rewrite oldest_first_perm. by apply Forall_forall.
  - rewrite length_take. by rewrite (Permutation_length (oldest_first_perm all)).
  - exists (drop n (oldest_first all)). rewrite take_drop. split; [by rewrite oldest_first_perm|].
    apply Forall_forall. intros r Hr. apply Forall_forall. intros r' Hr'.
    eapply (sorted_app_older (take n (oldest_first all)) (drop n (oldest_first all))); [|done|done].
    rewrite take_drop. apply oldest_first_sorted.
Qed.

(** ** Pruning *)

Section Pruning.
Context {X : Type} `{AgentClient X} `{AEAD} (ring : list (Z * text)).

Lemma expected_of_Some rows db expected :
  expected_of ring rows db = Some expected <->
  Forall2 (fun rc uc => _decrypt_client_uuid ring rc.1 db = Some uc.1 /\ uc.2 = rc.2) rows expected.
Proof.
  revert expected. induction rows as [|[r c] rows IH]; intros expected; cbn.
  - split; [intros [= <-]; constructor|]. by inversion 1.
  - destruct (_decrypt_client_uuid ring r db) as [u|] eqn:Hu; cbn.
    + destruct (expected_of ring rows db) as [rest|]; cbn; split.
      * intros [= <-]. constructor; [done|]. by apply IH.
      * inversion 1 as [|? [u' c'] ? ? [Hu' Hc'] Hrest]; subst. cbn in *. rewrite Hu in Hu'.
        apply IH in Hrest. by simplify_eq.
      * done.
      * inversion 1 as [|? ? ? ? _ Hrest]; subst. by apply IH in Hrest.
    + split; [done|]. inversion 1 as [|? [u' c'] ? ? [Hu' _] _]; subst. cbn in Hu'. congruence.
Qed.

Lemma expected_of_None rows db :
  expected_of ring rows db = None <-> Exists (fun rc => _decrypt_client_uuid ring rc.1 db = None) rows.
Proof.
  induction rows as [|[r c] rows IH]; cbn; [split; [done|by inversion 1]|].
  rewrite Exists_cons. cbn. destruct (_decrypt_client_uuid ring r db) as [u|]; cbn; [|naive_solver].
  destruct (expected_of ring rows db); cbn; naive_solver.
Qed.

(** Pruning is all or nothing per server.  The set sent to an agent names
    every live client of the server, by the UUID its credential decrypts to
    and the code the agent knows its profile by, and nothing else; if a single
    live credential cannot be read the agent is not asked at all and the
    server is counted as skipped. *)
Theorem prune_sends_a_complete_set server w s :
  let rows := live_clients server w.1 in
  Forall (fun rc => rc.1 ∈ xray_clients w.1 /\ live rc.1 = true /\ row_server rc.1 = server) rows /\
  (forall r p, r ∈ xray_clients w.1 -> live r = true -> row_server r = server ->
     scalar (fun p => profile_id p =? row_profile r) (profiles w.1) = Some p -> (r, agent_code p) ∈ rows) /\
  match expected_of ring rows w.1 with
  | Some expected =>
      Forall2 (fun rc uc => _decrypt_client_uuid ring rc.1 w.1 = Some uc.1 /\ uc.2 = rc.2) rows expected /\
      (_prune_one_server ring server (w, s)).2.1.2 = (agent_prune_xray server expected w).2.2
  | None =>
      Exists (fun rc => _decrypt_client_uuid ring rc.1 w.1 = None) rows /\
      _prune_one_server ring server (w, s) = (Ok tt, (w, add_prune 0 0 0 1 0 s))
  end.
Proof.
  cbv zeta. split_and!.
  - apply Forall_forall. intros [r c] Hrc. apply list_elem_of_omap in Hrc as (r0 & Hr0 & Hp).
    apply elem_of_scalars in Hr0 as [Hin Hw]. unfold with_profile in Hp.
    destruct (scalar _ (profiles w.1)); simplify_eq/=. boolP. done.
  - intros r p Hin Hl Hs Hp. apply list_elem_of_omap. exists r. split.
    + apply elem_of_scalars. split; [done|]. by rewrite Hs, Z.eqb_refl.
    + unfold with_profile. by rewrite Hp.
  - unfold _prune_one_server. destruct (expected_of ring _ _) as [expected|] eqn:He.
    + split; [by apply expected_of_Some|]. destruct (agent_prune_xray server expected w) as [[[[rm kp]|]|] [d y]];
        [|done|done]. cbv zeta. destruct (rm =? 0); [done|]. unfold in_db.
      match goal with |- context [transaction ?e ?b d] => by destruct (transaction e b d) as [? ?] end.
    + split; [by apply expected_of_None|done].
Qed.
End Pruning.

(** ** Examples *)

(** An agent that says the same of every peer, and does what it is told;
    [meanwhile] happens to the database while it is asked. *)
Definition asked (answer : Wg.outcome) (meanwhile : DB -> DB) : AgentClient unit := {|
  agent_provision _ _ _ w := (Ok example_answer, w);
  agent_revoke _ _ _ w := (Ok example_revoked, w);
  agent_reconcile _ _ w :=
    (Ok {| Wg.q_outcome := answer; Wg.observed_generation := Some 1; Wg.q_error_code := None |},
     (meanwhile w.1, w.2));
  agent_provision_xray _ _ _ w := (Err AgentUnreachable, w);
  agent_revoke_xray _ _ _ w := (Err AgentUnreachable, w);
  agent_reconcile_xray _ _ w := (Err AgentUnreachable, w);
  agent_prune_xray _ _ w := (Err AgentUnreachable, w);
|}.

Lemma asked_quiet answer : @QuietAgent unit (asked answer id).
Proof. split; intros; intros db x; eexists _, x; reflexivity. Qed.

(** The example's peer, being removed. *)
Definition removing : DB := example_db ProvisioningState.REVOKING.
Lemma example_ready s : ready (example_db s).
Proof. split; [apply example_db_wf|constructor]. Qed.

Definition example_target : Target unit :=
  @wireguard_target unit (asked Wg.drift_detected id) (example_row ProvisioningState.APPLYING 900).

Lemma row_follows_decision_table_witness :
  exists k db' x', reconcile_target WireGuardPeer example_target 2000
      (example_db ProvisioningState.APPLYING, tt, empty_summary) = (Ok tt, (db', x', count k empty_summary)) /\
    (state <$> get_row WireGuardPeer 6 db') = Some ProvisioningState.ACTIVE.
Proof.
  destruct (row_follows_decision_table WireGuardPeer example_target 2000 (example_db ProvisioningState.APPLYING) tt
    empty_summary (Ok {| Wg.q_outcome := Wg.drift_detected; Wg.observed_generation := Some 1;
                         Wg.q_error_code := None |})
    (Ok {| r_state := Wg.active; r_generation := 1; r_error := None |}) (example_ready _))
    as (k & db' & x' & He & _ & _ & Hr).
  - by split.
  - intros db []. exists tt. reflexivity.
  - intros op db []. exists tt. reflexivity.
  - exists k, db', x'. split; [exact He|]. change 6 with (row_id (t_row example_target)). by rewrite Hr.
Defined.

Lemma reconciliation_only_narrows_witness :
  exists s1 s2 db' x', @reconcile_now unit (asked Wg.in_sync id) plain_aead [] false 500 None 2000
                         (removing, tt) = (Ok (s1, s2), (db', x')) /\
    Forall2 (narrowed removing) (wireguard_peers removing) (wireguard_peers db').
Proof.
  destruct (@reconciliation_only_narrows unit (asked Wg.in_sync id) (asked_quiet _) plain_aead [] 500 None 2000
    removing tt (example_ready _)) as (s1 & s2 & db' & x' & He & _ & Hw & _).
  exists s1, s2, db', x'. split; [exact He|exact Hw].
Defined.

Lemma removal_completes_witness :
  exists s db' x' r', @run_reconciliation unit (asked Wg.in_sync id) 1 None 2000 (removing, tt)
                        = (Ok s, (db', x')) /\
    get_row WireGuardPeer 6 db' = Some r' /\ state r' = ProvisioningState.REVOKED.
Proof.
  apply (@removal_completes unit (asked Wg.in_sync id) (asked_quiet _) 1 2000 removing tt
           (example_row ProvisioningState.REVOKING 900)).
  - apply example_ready.
  - by left.
  - by left.
  - reflexivity.
  - reflexivity.
  - intros w. eexists. split; [reflexivity|done].
  - intros op w. eexists. split; reflexivity.
Defined.

(** ** Where the pass falls short *)

(** A second peer, to be removed, touched after the first. *)
Definition waiting_row : Row :=
  {| row_id := 8; credential_id := 7; row_device := 9; row_profile := 4; row_server := 3;
     columns := WireGuardColumns (example_public_key "w"%char) (IPv4Address 172818435);
     state := ProvisioningState.REVOKING; applied_generation := 1; applied_at := Some 900;
     revoked_at := None; updated_at := 950 |}.
Definition waiting_credential : DeviceProtocolCredential :=
  {| cred_id := 7; cred_device := 9; cred_profile := 4; cred_server := 3; kind := wireguard_public;
     cred_state := ProvisioningState.REVOKING; envelope := None; key_material_lost_at := None;
     cred_revoked_at := None |}.
Definition two_peers : DB :=
  with_credentials [example_credential ProvisioningState.ACTIVE; waiting_credential]
    (with_table WireGuardPeer [example_row ProvisioningState.ACTIVE 900; waiting_row] connected).

Fixpoint passes (k : nat) (w : DB * unit) : DB * unit :=
  match k with
  | O => w
  | S k => passes k (@run_reconciliation unit (asked Wg.in_sync id) 1 None 2000 w).2
  end.

(** A full batch of healthy peers starves a removal.  A pass does not touch
    a row it finds in sync, so as long as as many active peers as the batch
    holds are older than a revoking one, every pass checks the same peers: the
    removal is never attempted, however many passes run and although the agent
    is up. *)
Theorem healthy_peers_starve_a_removal k :
  ready two_peers /\ get_row WireGuardPeer 8 (passes k (two_peers, tt)).1 = Some waiting_row.
Proof.
  split; [split; [apply db_wfb_ok; vm_compute; reflexivity|constructor]|].
  change two_peers with (with_records [] two_peers). generalize (@nil ReconciliationRecord).
  induction k as [|k IH]; intros rs; [reflexivity|]. cbn [passes].
  assert (Hstep : exists rs', (@run_reconciliation unit (asked Wg.in_sync id) 1 None 2000
            (with_records rs two_peers, tt)).2 = (with_records rs' two_peers, tt)).
  { eexists (rs ++ [_]). vm_compute. reflexivity. }
  destruct Hstep as [rs' ->]. apply IH.
Qed.

(** Recovery can declare removed a peer the agent has just confirmed.  A
    stuck applying row is asked about; the device is revoked before the answer
    is recorded; the agent reports the peer present; and the row, now
    revoking, is marked revoked without the agent ever being told. *)
Theorem recovery_confirms_the_wrong_thing :
  let '(res, (db, _)) :=
    @run_reconciliation unit (asked Wg.in_sync (fun db => (Access.revoke_device_credentials 2 1500 db).2))
      500 None 2000 (example_db ProvisioningState.APPLYING, tt) in
  (state <$> wireguard_peers db) = [ProvisioningState.REVOKED] /\ operations db = [] /\
  (repaired <$> (match res with Ok s => Some s | Err _ => None end)) = Some 0.
Proof. vm_compute. repeat split. Qed.

End Reconciliation.
