(* ===== verification/System.v ===== *)
(** * The control plane and its agents together

    [agent_client/client.py] between [provisioning/service.py] and the agents'
    drivers: how an HTTP exchange becomes an answer or one of the client's
    exceptions, and what a connection or a disconnection then means for the
    database and for the agent at once.  The agents are any drivers that keep
    [Wg.DriverContract]; every exchange may be lost before or after the agent
    acted. *)

From S2P Require Import Prelude PyText PyBytes Json IpAddress WgConfig WgDriver Usage ApiStore XrayCredential Access Provisioning Reconciliation.
Import Db Provisioning.

(** ** The client *)

Module AgentCall.

(** What [httpx] raises, by the groups [_post] catches. *)
Inductive httpx_error :=
| ConnectError | ConnectTimeout | PoolTimeout
| ReadTimeout | WriteTimeout | WriteError | RemoteProtocolError
| OtherRequestError.

Record Response := { status_code : Z; body : text }.

Definition _GENERIC_DETAIL : text := str "Request was not accepted".

(** [response.json()]; a body that is not JSON raises [ValueError]. *)
Definition _extract_detail (r : Response) : text :=
  match loads (body r) with
  | Some (JObj kvs) =>
      match dict_get (str "detail") (dict_of kvs) with Some (JStr d) => d | _ => _GENERIC_DETAIL end
  | _ => _GENERIC_DETAIL
  end.

Definition _post (exchange : httpx_error + Response) : result agent_error Response :=
  match exchange with
  | inl (ConnectError | ConnectTimeout | PoolTimeout) => Err AgentUnreachable
  | inl (ReadTimeout | WriteTimeout | WriteError | RemoteProtocolError) => Err AgentResponseAmbiguous
  | inl OtherRequestError => Err AgentResponseAmbiguous
  | inr r => Ok r
  end.

(** [validate] is the response model's [model_validate]. *)
Definition _call {A} (validate : json -> option A) (exchange : httpx_error + Response) :
    result agent_error A :=
  response ← _post exchange;
  if 400 <=? status_code response then Err (AgentRejected (_extract_detail response))
  else match loads (body response) with
       | None => Err AgentResponseInvalid
       | Some j => match validate j with Some a => Ok a | None => Err AgentResponseInvalid end
       end.

(** What the control plane concludes from an exchange: the request is settled
    only if it never left (no connection) or was answered with an error. *)
Definition settled_by (exchange : httpx_error + Response) : bool :=
  match exchange with
  | inl (ConnectError | ConnectTimeout | PoolTimeout) => true
  | inl _ => false
  | inr r => 400 <=? status_code r
  end.

(** A failed call is taken as final only if the request cannot have been
    carried out after all: no connection was made, or the agent answered with
    an error.  Every lost or unreadable answer is ambiguous. *)
Theorem call_failures_are_classified {A} (validate : json -> option A) exchange :
  match _call validate exchange with
  | Err (AgentUnreachable | AgentRejected _) => settled_by exchange = true
  | Err (AgentResponseAmbiguous | AgentResponseInvalid) => settled_by exchange = false
  | Ok a => exists r j, exchange = inr r /\ status_code r < 400 /\ loads (body r) = Some j /\ validate j = Some a
  end.
Proof.
  destruct exchange as [[]|r]; try reflexivity. unfold _call. cbn [_post mbind result_bind].
  destruct (400 <=? status_code r) eqn:Hs; [exact Hs|]. destruct (loads (body r)) as [j|] eqn:Hj; [|exact Hs].
  destruct (validate j) as [a|] eqn:Ha; [|exact Hs]. exists r, j. boolP. repeat split; done || lia.
Qed.

End AgentCall.

(** ** Agents behind a network *)

Module System.
Import Reconciliation.

(** The fate of one exchange. *)
Inductive link := Delivered | NeverSent | ReplyLost.

Record net (St : Type) := { agents : Z -> St; fates : list link }.
#[global] Arguments agents {St}.
#[global] Arguments fates {St}.

Section Network.
Context {St : Type} `{Wg.DriverContract St}.
(** The agents' clock. *)
Context (clock : Z).

Definition set_agent (server : Z) (st : St) (f : list link) (x : net St) : net St :=
  {| agents := fun s => if s =? server then st else agents x s; fates := f |}.

(** One exchange with the agent of a server.  An exception in the driver is a
    response with status 500, which the client takes as a rejection. *)
Definition exchange {A} (server : Z) (call : prog St Wg.exn A) : prog (DB * net St) agent_error A :=
  fun '(db, x) =>
    let '(fate, rest) := match fates x with [] => (Delivered, []) | f :: fs => (f, fs) end in
    match fate with
    | NeverSent => (Err AgentUnreachable, (db, {| agents := agents x; fates := rest |}))
    | ReplyLost => let '(_, st') := call (agents x server) in
                   (Err AgentResponseAmbiguous, (db, set_agent server st' rest x))
    | Delivered =>
        match call (agents x server) with
        | (Ok a, st') => (Ok a, (db, set_agent server st' rest x))
        | (Err _, st') => (Err (AgentRejected AgentCall._GENERIC_DETAIL), (db, set_agent server st' rest x))
        end
    end.

(** The agents' WireGuard operations; their Xray side is out of this picture. *)
#[global] Instance net_client : AgentClient (net St) := {
  agent_provision s _ r := exchange s (Wg.drv_provision r);
  agent_revoke s _ r := exchange s (Wg.drv_revoke clock r);
  agent_reconcile s r := exchange s (Wg.drv_reconcile r);
  agent_provision_xray _ _ _ := raise AgentUnreachable;
  agent_revoke_xray _ _ _ := raise AgentUnreachable;
  agent_reconcile_xray _ _ := raise AgentUnreachable;
  agent_prune_xray _ _ := raise AgentUnreachable;
}.

Lemma exchange_quiet {A} server (call : prog St Wg.exn A) : quiet_call (exchange server call).
Proof.
  intros db x. unfold exchange. destruct (fates x) as [|[] fs]; destruct (call (agents x server)) as [[a|e] st'];
    eexists _, _; reflexivity.
Qed.

#[global] Instance net_quiet : QuietAgent (net St).
Proof. split; intros; try apply exchange_quiet; intros db x; eexists _, x; reflexivity. Qed.

(** What an exchange that changes the peer set left, read off the answer. *)
Definition after_change {A} (server : Z) (state_of : A -> Wg.op_state) (ok : Wg.op_state) (gen_of : A -> Z)
    (g : Z) (s s' : WgConfig.DesiredInterfaceState) (answer : result agent_error A) (x' : net St) : Prop :=
  match answer with
  | Ok resp => (state_of resp = ok /\ gen_of resp = g /\ Wg.records (agents x' server) s') \/
               (state_of resp = Wg.failed /\ Wg.records (agents x' server) s)
  | Err (AgentUnreachable | AgentRejected _) => Wg.records (agents x' server) s
  | Err _ => Wg.records (agents x' server) s \/ Wg.records (agents x' server) s'
  end.

Lemma exchange_change {A} server (call : prog St Wg.exn A) state_of gen_of ok g key s s' db x :
  Wg.records (agents x server) s ->
  Wg.change_contract Wg.records state_of gen_of ok g key s s' (call (agents x server)) ->
  exists answer x', exchange server call (db, x) = (answer, (db, x')) /\
    after_change server state_of ok gen_of g s s' answer x'.
Proof.
  intros Hrec Hc. unfold exchange. unfold Wg.change_contract in Hc.
  destruct (fates x) as [|[] fs]; destruct (call (agents x server)) as [[a|e] st'] eqn:He;
    eexists _, _; (split; [reflexivity|]); cbn [after_change set_agent agents];
    rewrite ?Z.eqb_refl; try done; naive_solver.
Qed.
End Network.
(** ** A connection, end to end *)

Definition allowed {X} : Z -> text -> prog (DB * X) exn bool := fun _ _ => mret true.

(** A request that was finished left its row and the database in order. *)
Ltac ended_inv H :=
  let db := fresh "db'" in let Hend := fresh "Hend" in
  destruct H as (db & H & Hend); injection H as -> -> ->;
  eexists; split; [exact (ended_row _ _ _ _ _ _ _ _ _ _ Hend)|];
  split; [exact (ended_wf _ _ _ _ _ _ _ _ _ _ Hend)|]; try done.

Section EndToEnd.
Context {St : Type} `{Wg.DriverContract St} (clock auth_rate_window_seconds : Z).

Abbreviation connect := (@request_peer _ (net_client clock) allowed auth_rate_window_seconds).
Abbreviation disconnect := (@revoke_peer _ (net_client clock) allowed auth_rate_window_seconds).

(** C1: a connection means the same to the control plane's row and to the agent's
    record of its peers, whatever happens to the exchange between them.  When the client is told
    yes, the row is active at the generation that was asked for and the agent
    has recorded the peer under the key sent and the address allocated; when it
    is told no, the row is failed and the agent's record is as it was; when the
    answer is lost, the row is still applying, for reconciliation to find, and
    the agent has recorded the peer or has not.  There is no other outcome.  The
    record is what the agent works from, not what its interface serves at that
    moment: an agent that answers 500 because [wg] timed out has kept its record,
    and its interface may hold the new peer already. *)
Theorem connection_end_to_end user dev server profile key network now later db (x : net St) st a ad db1 s :
  db_wf db -> WgConfig.valid_public_key key = true -> Wg.address_ok a ->
  begin_peer user dev server profile key now db = (Ok (st, a, ad), db1) ->
  Wg.records (agents x (st_server st)) s ->
  let s' := WgConfig.with_peer (Wg.peer_of_provision (peer_request st key a)) s in
  let '(res, (db', x')) := connect user dev server profile key network now later (db, x) in
  exists r, get_row WireGuardPeer (st_row st) db' = Some r /\ db_wf db' /\ columns r = WireGuardColumns key a /\
    match res with
    | Ok resp => peer_id resp = st_row st /\ r_assigned_address resp = a /\
        state r = ProvisioningState.ACTIVE /\ applied_generation r = st_generation st /\
        Wg.records (agents x' (st_server st)) s'
    | Err ProvisioningRejected =>
        state r = ProvisioningState.FAILED /\ Wg.records (agents x' (st_server st)) s
    | Err ProvisioningAmbiguous =>
        state r = ProvisioningState.APPLYING /\
        (Wg.records (agents x' (st_server st)) s \/ Wg.records (agents x' (st_server st)) s')
    | Err _ => False
    end.
Proof.
  intros Hwf Hkey Ha Hb Hrec s'.
  pose proof Hb as Hst. apply begin_peer_started in Hst as (d & p & sv & c & _ & _ & Hsrv & Hcs & Hst & Hop & Hk).
  destruct (peer_started_wf _ _ _ _ _ _ _ _ _ Hwf Hcs Hst Hsrv Hop Hk) as (Hwf1 & r & Hfl & Hcol & _ & _).
  assert (Hl : live r = true) by (destruct Hfl as (_ & _ & Hs & _); unfold live; by rewrite Hs).
  destruct (exchange_change (st_server st) (Wg.drv_provision (peer_request st key a)) Wg.p_state
    Wg.p_applied_generation Wg.active (st_generation st) key s s' db1 x Hrec
    (Wg.provision_contract _ s (peer_request st key a) Hrec Hkey Ha)) as (answer & x2 & Hex & Haft).
  pose proof (@request_peer_answered _ (net_client clock) allowed auth_rate_window_seconds user dev server profile
    key network now later (db, x) db x st a ad db1 answer db1 x2 ProvisioningState.APPLYING r Hkey eq_refl Hb Hex
    Hwf1 Hfl Hl) as Hout.
  destruct (connect _ _ _ _ _ _ _ _ _) as [res [db' x']].
  destruct answer as [resp|[|dt| |]]; cbn [answered after_change] in Hout, Haft.
  - unfold provision_failed in *. case_bool_decide as Hf.
    + destruct Haft as [(? & _)|[_ Haft]]; [congruence|]. ended_inv Hout.
    + destruct Haft as [(_ & Hg & Haft)|[? _]]; [|congruence]. ended_inv Hout.
  - ended_inv Hout.
  - ended_inv Hout.
  - injection Hout as -> -> ->. exists r. destruct Hfl as (Hr & _ & Hs & _). done.
  - injection Hout as -> -> ->. exists r. destruct Hfl as (Hr & _ & Hs & _). done.
Qed.

(** C2: a disconnection, likewise.  When the client is told yes, the row is
    revoked and the agent no longer has the key; when it is told no, the row is
    still revoking and the agent's record is as it was; when the answer is
    lost, the row is still revoking.  In no case does the row go back to
    active, or out of reconciliation's sight while the agent may serve it. *)
Theorem disconnection_end_to_end user dev server network later db (x : net St) st key db1 s :
  db_wf db -> WgConfig.valid_public_key key = true ->
  begin_revoke_peer user dev server db = (Ok (st, key), db1) ->
  Wg.records (agents x (st_server st)) s ->
  let s' := WgConfig.without_peer key s in
  let '(res, (db', x')) := disconnect user dev server network later (db, x) in
  exists r, get_row WireGuardPeer (st_row st) db' = Some r /\ db_wf db' /\ row_device r = dev /\
    public_key r = Some key /\
    match res with
    | Ok id => id = st_row st /\ state r = ProvisioningState.REVOKED /\ Wg.records (agents x' (st_server st)) s'
    | Err ProvisioningRejected =>
        state r = ProvisioningState.REVOKING /\ Wg.records (agents x' (st_server st)) s
    | Err ProvisioningAmbiguous =>
        state r = ProvisioningState.REVOKING /\
        (Wg.records (agents x' (st_server st)) s \/ Wg.records (agents x' (st_server st)) s')
    | Err _ => False
    end.
Proof.
  intros Hwf Hkey Hb Hrec s'.
  destruct (begin_revoke_peer_started _ _ _ _ _ _ _ Hwf Hb) as
    (Hwf1 & r0 & r & _ & _ & _ & _ & _ & Hfl & _ & Hdev & Hk & _).
  assert (Hpk : public_key r = Some key).
  { rewrite Hk in *. destruct (public_key r); [done|]. by vm_compute in Hkey. }
  assert (Hl : live r = true) by (destruct Hfl as (_ & _ & Hs & _); unfold live; by rewrite Hs).
  set (q := {| Wg.r_public_key := key; Wg.r_desired_generation := st_generation st |}).
  destruct (exchange_change (st_server st) (Wg.drv_revoke clock q) Wg.o_state
    Wg.o_applied_generation Wg.revoked (st_generation st) key s s' db1 x Hrec
    (Wg.revoke_contract _ s clock q Hrec Hkey)) as (answer & x2 & Hex & Haft).
  pose proof (@revoke_peer_answered _ (net_client clock) allowed auth_rate_window_seconds user dev server
    network later (db, x) db x st key db1 answer db1 x2 ProvisioningState.REVOKING r eq_refl Hb Hex
    Hwf1 Hfl Hl) as Hout.
  destruct (disconnect _ _ _ _ _ _) as [res [db' x']].
  destruct answer as [resp|[|dt| |]]; cbn [answered after_change] in Hout, Haft.
  - unfold device_failed in *. case_bool_decide as Hf.
    + destruct Haft as [(? & _)|[_ Haft]]; [congruence|]. ended_inv Hout.
    + destruct Haft as [(_ & Hg & Haft)|[? _]]; [|congruence]. ended_inv Hout.
  - ended_inv Hout.
  - ended_inv Hout.
  - injection Hout as -> -> ->. exists r. destruct Hfl as (Hr & _ & Hs & _). done.
  - injection Hout as -> -> ->. exists r. destruct Hfl as (Hr & _ & Hs & _). done.
Qed.
End EndToEnd.

(** ** Examples *)

#[local] Existing Instance Wg.fake_driver.
#[local] Existing Instance Wg.fake_contract.

(** One server, whose agent runs the fake driver with nothing recorded. *)
Definition example_net (fs : list link) : net Wg.FakeWireGuardRunner :=
  {| agents := fun _ => Wg.example_fake; fates := fs |}.

Lemma example_records fs : Wg.records (agents (example_net fs) 3) WgConfig.empty_state.
Proof. split; [done|]. by split; [apply Forall_nil|]. Qed.

Abbreviation example_connect key w := (@request_peer _ (net_client 1001) allowed 60 1 2 (str "nl-1")
  (str "wireguard-native") key (str "203.0.113.0/24") 1000 1001 w).
Abbreviation example_disconnect w := (@revoke_peer _ (net_client 1001) allowed 60 1 2 (str "nl-1")
  (str "203.0.113.0/24") 1002 w).

Lemma connection_end_to_end_witness :
  let '(res, (db', x')) := example_connect example_key (disconnected, example_net []) in
  is_ok res = true /\
  exists r, get_row WireGuardPeer 101 db' = Some r /\ state r = ProvisioningState.ACTIVE /\
    WgConfig.keys (Wg.f_state (agents x' 3)) = [example_key].
Proof.
  pose proof (connection_end_to_end (St := Wg.FakeWireGuardRunner) 1001 60 1 2 (str "nl-1") (str "wireguard-native")
    example_key (str "203.0.113.0/24") 1000 1001 disconnected (example_net []) example_started
    (IPv4Address 172818434) false (example_begin disconnected).2 WgConfig.empty_state) as H.
  assert (Hok : is_ok (example_connect example_key (disconnected, example_net [])).1 = true) by (by vm_compute).
  destruct (example_connect example_key (disconnected, example_net [])) as [[res|e] [db' x']]; [|done].
  destruct H as (r & Hr & _ & _ & _ & _ & Hs & _ & Hrec).
  - apply db_wfb_ok. vm_compute. reflexivity.
  - vm_compute. reflexivity.
  - by vm_compute.
  - vm_compute. reflexivity.
  - apply example_records.
  - split; [done|]. exists r. split; [exact Hr|]. split; [exact Hs|].
    destruct Hrec as (Heq & _). change (st_server example_started) with 3 in Heq. rewrite Heq.
    vm_compute. reflexivity.
Defined.

(** The agent serves the example's peer. *)
Definition serving : net Wg.FakeWireGuardRunner :=
  {| agents := fun _ => {| Wg.f_config_store := None;
       Wg.f_state := {| WgConfig.peers := [{| WgConfig.public_key := example_public_key "p"%char;
         WgConfig.assigned_address := IPv4Address 172818434;
         WgConfig.persistent_keepalive_seconds := None; WgConfig.generation := 1 |}] |};
       Wg.f_common := example_common; Wg.fail_next := false |};
     fates := [] |}.

Lemma disconnection_end_to_end_witness :
  let '(res, (db', x')) := example_disconnect (connected, serving) in
  is_ok res = true /\
  exists r, get_row WireGuardPeer 6 db' = Some r /\ state r = ProvisioningState.REVOKED /\
    WgConfig.keys (Wg.f_state (agents x' 3)) = [].
Proof.
  pose proof (disconnection_end_to_end (St := Wg.FakeWireGuardRunner) 1001 60 1 2 (str "nl-1")
    (str "203.0.113.0/24") 1002 connected serving example_disconnecting (example_public_key "p"%char)
    (begin_revoke_peer 1 2 (str "nl-1") connected).2 (Wg.f_state (agents serving 3))) as H.
  assert (Hok : is_ok (example_disconnect (connected, serving)).1 = true) by (by vm_compute).
  destruct (example_disconnect (connected, serving)) as [[res|e] [db' x']]; [|done].
  destruct H as (r & Hr & _ & _ & _ & _ & Hs & Hrec).
  - apply example_db_wf.
  - vm_compute. reflexivity.
  - vm_compute. reflexivity.
  - split; [done|]. split; [|done]. apply Forall_singleton. by vm_compute.
  - split; [done|]. exists r. split; [exact Hr|]. split; [exact Hs|].
    destruct Hrec as (Heq & _). change (st_server example_disconnecting) with 3 in Heq. rewrite Heq.
    vm_compute. reflexivity.
Defined.

(** ** Where the two sides part *)

(** A key that was replaced survives the device's revocation.  A device
    connects, reconnects under a new key, as the service allows, and
    disconnects: every request succeeds and no row of the device is live, but
    the agent, which replaces a peer only by its key, still serves the first
    key at the device's address, and no later pass asks about it. *)
Theorem replaced_key_survives_revocation :
  let old := example_public_key "p"%char in
  let new := example_public_key "q"%char in
  let '(r1, w1) := example_connect old (disconnected, example_net []) in
  let '(r2, w2) := example_connect new w1 in
  let '(r3, (db, x)) := example_disconnect w2 in
  is_ok r1 = true /\ is_ok r2 = true /\ is_ok r3 = true /\
  forallb (fun r => negb (live r)) (wireguard_peers db) = true /\
  WgConfig.keys (Wg.f_state (agents x 3)) = [old] /\
  WgConfig.keys (Wg.f_state (agents (@run_reconciliation _ (net_client 1001) 500 None 2000 (db, x)).2.2 3)) = [old].
Proof. vm_compute. repeat split. Qed.
(** A node whose interface takes its addresses from the example's pool. *)
Definition node_settings : Wg.Settings :=
  {| Wg.wg_client_pool := example_pool; Wg.wg_listen_port := Wg.wg_listen_port Wg.example_settings;
     Wg.wg_public_endpoint := Wg.wg_public_endpoint Wg.example_settings;
     Wg.wg_client_dns := Wg.wg_client_dns Wg.example_settings;
     Wg.wg_client_allowed_ips := Wg.wg_client_allowed_ips Wg.example_settings;
     Wg.wg_persistent_keepalive_seconds := Wg.wg_persistent_keepalive_seconds Wg.example_settings |}.
#[local] Existing Instance Wg.interface_tool.

Definition node_provision (key : text) (a : Z) (h : Wg.host Wg.interface) : Wg.host Wg.interface :=
  (Wg.provision_device node_settings {| Wg.p_public_key := key; Wg.p_assigned_address := IPv4Address a;
     Wg.p_desired_generation := 1; Wg.p_keepalive := None |} h).2.
(** A reboot brings the interface up with no peers; the record is a file. *)
Definition reboot (h : Wg.host Wg.interface) : Wg.host Wg.interface :=
  Wg.with_kernel {| Wg.peer_table := WgConfig.empty_state; Wg.fates := [] |} h.

(** Absent from the interface is taken for removed, though the record still
    has the peer.  A node restarts while a peer is to be removed: the driver
    reports drift, because the interface has no such peer, and the pass marks
    the row revoked without a word to the agent, whose record keeps the key;
    the next device to connect writes the record to the interface, and the
    revoked key is served again. *)
Theorem restart_resurrects_a_revoked_key :
  let old := example_public_key "p"%char in
  let node := reboot (node_provision old 172818434 (Wg.example_host [])) in
  let '(_, (db, x)) :=
    @run_reconciliation _ (@net_client _ (Wg.native_driver node_settings) 1001) 500 None 2000
      (removing, {| agents := fun _ => node; fates := [] |}) in
  let later := node_provision (example_public_key "q"%char) 172818435 (agents x 3) in
  (state <$> wireguard_peers db) = [ProvisioningState.REVOKED] /\
  WgConfig.keys (Wg.peer_table (Wg.kernel later)) = [old; example_public_key "q"%char].
Proof. vm_compute. repeat split. Qed.
End System.
